(* ===== verification/_CoqProject ===== *)
-Q . S2P
Prelude.v
Mem.v
Riscv.v
Kalloc.v
Vm.v
VmTree.v
VmSpec.v
VmCopy.v
VmAlloc.v
VmFree.v
VmPool.v
VmThms.v
Proc.v
ProcMem.v
ProcInv.v
ProcOps.v
ProcFork.v
ProcCopy.v
ProcThms.v
ProcExit.v
Exec.v
ExecMem.v
ExecSpec.v
ExecLoad.v
ExecArgs.v
ExecThms.v
Syscall.v
SyscallThms.v
ProcSys.v
ProcBoot.v
ProcMain.v
TrapThms.v
Sleeplock.v
Bio.v
BioSpec.v
BioThms.v
Log.v
LogSpec.v
LogThms.v
LogTxn.v
Spinlock.v
Pipe.v
Ftable.v
ProcEx.v
ProcWit.v
Printf.v
User.v
Grep.v
Utils.v
Umalloc.v
Console.v
Virtio.v
Mbuf.v
Net.v
NetSpec.v
NetInv.v
NetQueue.v
NetThms.v
NetEx.v
Sh.v
ShThms.v
ShStr.v
ShPrint.v
ShRun.v
Fs.v
FsSpec.v
FsAlloc.v
FsWf.v
FsBmap.v
FsFile.v
FsInode.v
FsRw.v
FsWrite.v
FsAgree.v
UserMem.v
FsLog.v
Sysfile.v
FileThms.v
FileEx.v
