(* ===== verification/Prelude.v ===== *)
(** * Verification of the xv6 kernel (RISC-V, networking lab) and its user programs

    xv6 is a Unix kernel of about 6000 lines of C with a shell and a few tools.  This library
    translates its sources, under src/kernel and src/user, into executable definitions and
    proves theorems about them.  Definitions keep the names of the C functions.

    ** How the code is modelled

    Kernel code runs in the monad [M S A] of this file: a function from the locks held and a
    state [S] to [Ok] (a result and the new locks and state), [Panic] (panic of printf.c, a
    double acquire, a release of a lock not held, a null dereference) or [Sleeping] (control
    leaves the code: sleep, swtch).  [wp] is total correctness in it: the run returns, without
    panic, and the result and the state satisfy the postcondition.  C integers are [Z] with the
    wrap-around written out ([u8], [u16], [u32], [u64], [i32]).  Components have states of their
    own; [zoom] runs a component inside a larger state, and where one component uses another
    through a contract the contract is a type class: [BlockOps] and [BlockLaws] (fs.c on the
    log), [CopyOps] and [CopyLaws] (fs.c on user memory), [ProcFiles] and [ProcFilesLaws]
    (proc.c on files), [ExecFiles] and [ExecFilesLaws] (exec.c on inodes), [HasFtable] and
    [HasTicks] (a state that contains the file table, the clock).  This file has the monad, its
    rules and tactics ([wstep], [wsteps]), and lemmas on integers, lists and maps.

    ** Memory (string.c, kalloc.c, vm.c, riscv.h, memlayout.h)

    Mem.v: RAM as a map of bytes and string.c loop by loop.  Riscv.v: constants and Sv39
    arithmetic.  Kalloc.v: the free list threaded through the free pages; the pages are always
    divided between the list and the callers.  Vm.v: page tables in that memory; VmTree.v the
    tree they form, VmSpec.v walk, mappages and uvmunmap, VmCopy.v copyout and copyin, VmAlloc.v
    uvmalloc and uvmcopy, VmFree.v freewalk and uvmfree.  VmPool.v states every operation as an
    update of the set of address spaces in one physical memory.  VmThms.v has the theorems:
    mapping, unmapping, growing and copying of address spaces, all or nothing, and that copies
    to and from user memory move exactly the bytes asked for.

    ** Processes (proc.c, proc.h, exec.c, elf.h, syscall.c, sysproc.c, trap.c)

    Proc.v: the process table and every routine of proc.c.  ProcMem.v to ProcExit.v: the
    invariant [proc_inv] (every page owned once, every file reference counted, pids distinct,
    parents alive) and what allocproc, freeproc, growproc, fork, kill, wait and exit do to it;
    ProcCopy.v has the copies to and from a process, copyinstr among them.  Exec.v: exec and
    loadseg; ExecMem.v and ExecSpec.v the page table under construction, ExecLoad.v the image of
    an ELF file, ExecArgs.v the arguments on the stack, ExecThms.v the call.  Syscall.v: fetching
    of arguments, sys_exec, sysproc.c, the table of calls, usertrap, usertrapret, kerneltrap and
    devintr; SyscallThms.v the arguments of exec.  ProcSys.v: [run_op], one step of the running
    process, which is a call or any change user code can make to the memory and registers it has,
    followed by the scheduler when the process gives up the CPU; [reach] is the states such
    steps lead to.  ProcBoot.v: procinit and userinit.  ProcMain.v has the theorems: no step
    panics; a process can reach no byte of another process, of a page table or of a free page
    (isolation), and nothing it does changes what others have (integrity); fork, exec, exit and
    wait do what they promise; the scheduler is fair; and the misuse of kill(0).  TrapThms.v: a
    system call from ecall to sret.  ProcEx.v and ProcWit.v: a machine of 24 pages that boots,
    forks and executes a program, on which the theorems are applied.

    ** Disk and files (virtio_disk.c, bio.c, log.c, fs.c, file.c, sysfile.c, sleeplock.c)

    Virtio.v: the driver with a device that follows the specification; together they are an
    atomic disk under every interleaving.  Sleeplock.v, Bio.v, BioSpec.v, BioThms.v: the buffer
    cache refines a map of blocks.  Log.v, LogSpec.v, LogThms.v, LogTxn.v: the order of disk
    writes, recovery after a crash at any write, atomicity of transactions, and the reservation
    of begin_op that log_write does not honour.  Fs.v, FsSpec.v, FsAlloc.v, FsWf.v, FsBmap.v,
    FsFile.v, FsInode.v, FsRw.v, FsWrite.v, FsAgree.v: fs.c over [BlockOps], ownership of blocks,
    and the content of files; FsLog.v shows that the log and the cache implement [BlockLaws],
    UserMem.v that a view of user memory implements [CopyLaws].  Ftable.v and Sysfile.v: open
    files and the calls on them.  FileThms.v: filewrite writes what it says, and after a crash
    the file is as after some of its transactions.  FileEx.v: a disk of 200 blocks.

    ** Locks, pipes, console, network (spinlock.c, pipe.c, console.c, uart.c, net.c, e1000.c, sysnet.c)

    Spinlock.v: CPUs that interleave at memory accesses; mutual exclusion and the nesting of
    push_off.  Pipe.v: one pipe and its processes; order of bytes, no lost wake-up, and the
    writer that is killed.  Console.v: the line discipline and the transmit buffer refine two
    lists.  Mbuf.v, Net.v, NetSpec.v, NetInv.v, NetQueue.v, NetThms.v, NetEx.v: packet buffers,
    headers, checksum, sockets; no buffer is lost, a datagram arrives, and three misuses.

    ** User programs

    Printf.v: formatted output of user and kernel.  User.v: the monad of a user program over any
    kernel.  Grep.v, Utils.v (wc, cat, echo, kill, ln, mkdir, rm), Umalloc.v (malloc and free).
    Sh.v, ShThms.v, ShStr.v, ShPrint.v, ShRun.v: the shell's parser terminates, inverts printing
    and leaves the right strings, and runcmd gives each program the right descriptors.

    ** Bounds and fuel

    Loops that are not structural take fuel: page loops the number of pages in the range,
    copies the number of bytes, strings the size of the buffer, list walks the number of nodes,
    the parser the length of the line.  Running out is [Panic no_fuel] or an error value of its
    own, so every [wp] and every termination theorem shows that the fuel is enough.  wait and
    sleep count the times they go to sleep; a run of [run_op] gives them none, since they leave
    by [Sleeping] before they use it.

    ** What is not modelled

    Assembly (entry.S, kernelvec.S, swtch.S, trampoline.S, initcode.S, usys.pl): swtch is an
    argument of proc.c, the trampoline the boundary of usertrap.  start.c, main.c, plic.c, pci.c,
    uartinit, trapinit, trapinithart, e1000_init's registers, kvmmake and kvminithart write
    hardware registers or fixed mappings.  Calls of processes run one at a time: interleaving on
    several CPUs is modelled for spin locks, pipes, the console and the disk driver, which are
    the parts that are about it.  The system calls on files and sockets have states of their own
    and are an argument of the table of calls in Syscall.v.  ramdisk.c is dead code.  mkfs.c is a
    host program; init.c, ls.c and zombie.c are sequences of calls; the rest of src/user are
    tests.  The process component uses files and inodes through [ProcFilesLaws] and
    [ExecFilesLaws]; ProcEx.v proves these for the file table of Ftable.v with inodes reduced to
    reference counts, not for the model of fs.c, whose state is that of Fs.v. *)
From Stdlib Require Export ZArith Lia.
From stdpp Require Export strings numbers gmap list tactics base list.
Open Scope Z_scope.

(** ** Machine integers *)

(** Wrap-around of the C unsigned types and reinterpretation as a signed type. *)
Definition u8 (x : Z) : Z := x mod 2 ^ 8.
Definition u16 (x : Z) : Z := x mod 2 ^ 16.
Definition u32 (x : Z) : Z := x mod 2 ^ 32.
Definition u64 (x : Z) : Z := x mod 2 ^ 64.
Definition i16 (x : Z) : Z := (x + 2 ^ 15) mod 2 ^ 16 - 2 ^ 15.
Definition i32 (x : Z) : Z := (x + 2 ^ 31) mod 2 ^ 32 - 2 ^ 31.

Lemma u8_small x : 0 <= x < 2 ^ 8 -> u8 x = x.
Proof. apply Z.mod_small. Qed.
Lemma u16_small x : 0 <= x < 2 ^ 16 -> u16 x = x.
Proof. apply Z.mod_small. Qed.
Lemma u32_small x : 0 <= x < 2 ^ 32 -> u32 x = x.
Proof. apply Z.mod_small. Qed.
Lemma u64_small x : 0 <= x < 2 ^ 64 -> u64 x = x.
Proof. apply Z.mod_small. Qed.
Lemma i32_small x : - 2 ^ 31 <= x < 2 ^ 31 -> i32 x = x.
Proof. intros H. unfold i32. rewrite Z.mod_small; lia. Qed.
Lemma u8_range x : 0 <= u8 x < 2 ^ 8.
Proof. apply Z.mod_pos_bound. lia. Qed.
Lemma u16_range x : 0 <= u16 x < 2 ^ 16.
Proof. apply Z.mod_pos_bound. lia. Qed.
Lemma u32_range x : 0 <= u32 x < 2 ^ 32.
Proof. apply Z.mod_pos_bound. lia. Qed.
Lemma u64_range x : 0 <= u64 x < 2 ^ 64.
Proof. apply Z.mod_pos_bound. lia. Qed.

(** A value whose low [k] bits are clear, or-ed with a [k]-bit value, is a sum. *)
Lemma land_disjoint k x y : 0 <= k -> x mod 2 ^ k = 0 -> 0 <= y < 2 ^ k -> Z.land x y = 0.
Proof.
  intros Hk Hx Hy. apply Z.bits_inj'. intros n Hn. rewrite Z.land_spec, Z.bits_0.
  destruct (decide (n < k)).
  - rewrite <- (Z.mod_pow2_bits_low x k n) by lia. by rewrite Hx, Z.bits_0.
  - rewrite <- (Z.mod_small y (2 ^ k)) by lia.
    rewrite Z.mod_pow2_bits_high by lia. by rewrite andb_false_r.
Qed.

Lemma lor_add k x y : 0 <= k -> x mod 2 ^ k = 0 -> 0 <= y < 2 ^ k -> Z.lor x y = x + y.
Proof.
  intros Hk Hx Hy. rewrite <- Z.lxor_lor by eauto using land_disjoint.
  symmetry. eauto using Z.add_nocarry_lxor, land_disjoint.
Qed.

Lemma lor_bound k x y : 0 <= k -> 0 <= x < 2 ^ k -> 0 <= y < 2 ^ k -> 0 <= Z.lor x y < 2 ^ k.
Proof.
  intros Hk Hx Hy.
  assert (Z.lor x y = Z.lor x y mod 2 ^ k) as ->; [|apply Z.mod_pos_bound; lia].
  rewrite <- Z.land_ones, Z.land_lor_distr_l, !Z.land_ones, !Z.mod_small by lia. done.
Qed.

(** [lia] with division and remainder by constants. *)
Ltac dlia := Z.to_euclidean_division_equations; lia.

Lemma div_add_page a : (a + 4096) / 4096 = a / 4096 + 1.
Proof. rewrite <- (Z.div_add a 1 4096) by lia. f_equal. Qed.

(** Update of a function at one point. *)
Definition fupd {A} (f : Z -> A) (i : Z) (v : A) : Z -> A := fun j => if j =? i then v else f j.
Lemma fupd_eq {A} (f : Z -> A) i v : fupd f i v i = v.
Proof. unfold fupd. by rewrite Z.eqb_refl. Qed.
Lemma fupd_ne {A} (f : Z -> A) i v j : j <> i -> fupd f i v j = f j.
Proof. intros H. unfold fupd. by destruct (Z.eqb_spec j i). Qed.

(** Case analysis on every boolean comparison of integers in the goal. *)
Ltac zbool :=
  repeat match goal with
  | |- context [?a <=? ?b] => destruct (Z.leb_spec a b)
  | |- context [?a <? ?b] => destruct (Z.ltb_spec a b)
  | |- context [?a =? ?b] => destruct (Z.eqb_spec a b)
  end; cbn [andb orb negb].

(** ** The kernel monad *)

(** Spinlocks are named by the string given to [initlock] and an index. *)
Definition lockid : Type := string * Z.
(** Sleep channels: kernel addresses in the code, named the same way here. *)
Definition chan : Type := string * Z.

(** The state seen by code running on one CPU: the spinlocks it holds,
    innermost first, and the component's own state. *)
Record kst (S : Type) : Type := KSt { held : list lockid; st : S }.
Arguments KSt {S} _ _.
Arguments held {S} _.
Arguments st {S} _.

(** [Ok]: the code returns. [Panic]: it calls [panic], which never returns.
    [Sleeping]: it gives up the CPU on a sleep channel. *)
Inductive res (S A : Type) : Type :=
| Ok (a : A) (k : kst S)
| Panic (msg : string)
| Sleeping (c : chan) (k : kst S).
Arguments Ok {S A} _ _.
Arguments Panic {S A} _.
Arguments Sleeping {S A} _ _.

Definition M (S A : Type) : Type := kst S -> res S A.

#[export] Instance M_ret S : MRet (M S) := fun A a k => Ok a k.
#[export] Instance M_bind S : MBind (M S) := fun A B f m k =>
  match m k with
  | Ok a k' => f a k'
  | Panic msg => Panic msg
  | Sleeping c k' => Sleeping c k'
  end.

Definition gets {S A} (f : S -> A) : M S A := fun k => Ok (f (st k)) k.
Definition modify {S} (f : S -> S) : M S unit := fun k => Ok tt (KSt (held k) (f (st k))).
(** A loop that runs out of the fuel its caller gives it. *)
Definition no_fuel : string := "no fuel".
Definition panic {S A} (msg : string) : M S A := fun _ => Panic msg.

(** [holding], [acquire], [release] and [sleep] as seen by the CPU that runs the
    code; Spinlock.v models the test-and-set and the interrupt nesting below them. *)
Definition holding {S} (l : lockid) : M S bool := fun k => Ok (bool_decide (l ∈ held k)) k.
Definition acquire {S} (l : lockid) : M S unit := fun k =>
  if bool_decide (l ∈ held k) then Panic "acquire" else Ok tt (KSt (l :: held k) (st k)).
Definition release {S} (l : lockid) : M S unit := fun k =>
  if bool_decide (l ∈ held k) then Ok tt (KSt (filter (fun x => x <> l) (held k)) (st k))
  else Panic "release".
(** [sched] panics unless exactly one lock is held when a process gives up the CPU. *)
Definition sleep {S A} (c : chan) (l : lockid) : M S A := fun k =>
  if bool_decide (held k = [l]) then Sleeping c (KSt [] (st k)) else Panic "sched locks".

(** Running a component's code inside a larger state. *)
Definition zoom {S T A} (get : T -> S) (set : S -> T -> T) (m : M S A) : M T A := fun k =>
  match m (KSt (held k) (get (st k))) with
  | Ok a k' => Ok a (KSt (held k') (set (st k') (st k)))
  | Panic msg => Panic msg
  | Sleeping c k' => Sleeping c (KSt (held k') (set (st k') (st k)))
  end.

(** Running code on a concrete state. *)
Definition is_ok {S A} (r : res S A) : bool := match r with Ok _ _ => true | _ => false end.
Definition after {S A} (m : M S A) (k : kst S) : kst S := match m k with Ok _ k' => k' | _ => k end.
Definition result {S A} (d : A) (m : M S A) (k : kst S) : A := match m k with Ok a _ => a | _ => d end.

Lemma ok_after {S A} (d : A) (m : M S A) k : is_ok (m k) = true -> m k = Ok (result d m k) (after m k).
Proof. unfold is_ok, result, after. by destruct (m k). Qed.

Lemma ok_after_eq {S A} (d a : A) (m : M S A) k :
  is_ok (m k) = true -> result d m k = a -> m k = Ok a (after m k).
Proof. intros H <-. by apply ok_after. Qed.
Lemma kst_eta {S} (k : kst S) h : held k = h -> KSt h (st k) = k.
Proof. by destruct k as [h' s]; cbn; intros ->. Qed.

(** ** Total-correctness assertions *)

(** [wp m k Q]: run from [k], [m] returns (no panic, no sleep) and [Q] holds. *)
Definition wp {S A} (m : M S A) (k : kst S) (Q : A -> kst S -> Prop) : Prop :=
  match m k with Ok a k' => Q a k' | _ => False end.

Section wp.
Context {S : Type}.
Implicit Types (k : kst S).

Lemma wp_ret {A} (a : A) k (Q : A -> kst S -> Prop) : Q a k -> wp (mret a) k Q.
Proof. done. Qed.

Lemma wp_bind {A B} (m : M S A) (f : A -> M S B) k (Q : B -> kst S -> Prop) :
  wp m k (fun a k' => wp (f a) k' Q) -> wp (m ≫= f) k Q.
Proof. unfold wp, mbind, M_bind. by destruct (m k). Qed.

Lemma wp_mono {A} (m : M S A) k (P Q : A -> kst S -> Prop) :
  wp m k P -> (forall a k', P a k' -> Q a k') -> wp m k Q.
Proof. unfold wp. destruct (m k); naive_solver. Qed.

Lemma wp_elim {A} (m : M S A) k (Q : A -> kst S -> Prop) :
  wp m k Q -> exists a k', m k = Ok a k' /\ Q a k'.
Proof. unfold wp. destruct (m k); naive_solver. Qed.

Lemma wp_intro {A} (m : M S A) k a k' (Q : A -> kst S -> Prop) :
  m k = Ok a k' -> Q a k' -> wp m k Q.
Proof. unfold wp. by intros ->. Qed.

Lemma wp_gets {A} (f : S -> A) k (Q : A -> kst S -> Prop) : Q (f (st k)) k -> wp (gets f) k Q.
Proof. done. Qed.

Lemma wp_modify (f : S -> S) k (Q : unit -> kst S -> Prop) :
  Q tt (KSt (held k) (f (st k))) -> wp (modify f) k Q.
Proof. done. Qed.

Lemma wp_acquire l k (Q : unit -> kst S -> Prop) :
  l ∉ held k -> Q tt (KSt (l :: held k) (st k)) -> wp (acquire l) k Q.
Proof. intros Hl HQ. unfold wp, acquire. by rewrite bool_decide_eq_false_2. Qed.

(** Releasing the innermost lock. *)
Lemma wp_release l h (s : S) (Q : unit -> kst S -> Prop) :
  l ∉ h -> Q tt (KSt h s) -> wp (release l) (KSt (l :: h) s) Q.
Proof.
  intros Hl HQ. unfold wp, release. rewrite bool_decide_eq_true_2 by set_solver.
  simpl. rewrite filter_cons_False by naive_solver.
  assert (filter (fun x => x <> l) h = h) as ->; [|done].
  clear -Hl. induction h as [|x h IH]; [done|].
  rewrite filter_cons_True by set_solver. f_equal. apply IH. set_solver.
Qed.
End wp.

(** The final state of a terminating run satisfies its postcondition. *)
Lemma wp_after {S A} (m : M S A) (k : kst S) (Q : A -> kst S -> Prop) :
  wp m k Q -> exists a, m k = Ok a (after m k) /\ Q a (after m k).
Proof. unfold wp, after. destruct (m k); naive_solver. Qed.

Create HintDb kernel.
#[export] Hint Resolve wp_ret wp_gets wp_modify : kernel.

(** One step of symbolic execution of kernel code. *)
Ltac wstep :=
  lazymatch goal with
  | |- wp (mret _) _ _ => apply wp_ret
  | |- wp (mbind _ _) _ _ => apply wp_bind
  | |- wp (gets _) _ _ => apply wp_gets
  | |- wp (modify _) _ _ => apply wp_modify
  | |- wp (acquire _) _ _ => apply wp_acquire; [try done; try set_solver|]
  | |- wp (release _) _ _ => apply wp_release; [try done; try set_solver|]
  end; cbn [held st].
Ltac wsteps := repeat wstep.
