(* ===== verification/Mem.v ===== *)
(** * Byte-addressed memory and string.c

    [mem] is the RAM of the machine as a finite map from addresses to bytes; an
    address that was never written reads as zero.  [load64]/[store64] are the
    little-endian word accesses RISC-V makes.  The second half translates
    kernel/string.c (and user/ulib.c's copies of the same routines) loop by loop. *)
From S2P Require Import Prelude.

Abbreviation mem := (gmap Z Z).

(** Reading a byte; storing a C [char] truncates to eight bits. *)
Definition rd (m : mem) (a : Z) : Z := u8 (default 0 (m !! a)).
Definition wr (m : mem) (a v : Z) : mem := <[a := u8 v]> m.

Lemma rd_range m a : 0 <= rd m a < 256.
Proof. apply (u8_range (default 0 (m !! a))). Qed.
Lemma u8_rd m a : u8 (rd m a) = rd m a.
Proof. apply u8_small, rd_range. Qed.
Lemma rd_wr_eq m a v : rd (wr m a v) a = u8 v.
Proof.
  unfold rd, wr. rewrite lookup_insert_eq. simpl. apply u8_small, u8_range.
Qed.
Lemma rd_wr_ne m a b v : a <> b -> rd (wr m a v) b = rd m b.
Proof. intros H. unfold rd, wr. by rewrite lookup_insert_ne. Qed.
Lemma rd_wr m a b v : rd (wr m a v) b = if a =? b then u8 v else rd m b.
Proof.
  destruct (Z.eqb_spec a b) as [->|]; [apply rd_wr_eq|by apply rd_wr_ne].
Qed.
Global Opaque rd wr.

(** ** 64-bit little-endian words *)

Fixpoint le_load (m : mem) (a : Z) (n : nat) : Z :=
  match n with O => 0 | S n' => rd m a + 256 * le_load m (a + 1) n' end.
Fixpoint le_store (m : mem) (a v : Z) (n : nat) : mem :=
  match n with O => m | S n' => le_store (wr m a (v mod 256)) (a + 1) (v / 256) n' end.

Definition load64 (m : mem) (a : Z) : Z := le_load m a 8.
Definition store64 (m : mem) (a v : Z) : mem := le_store m a v 8.

Lemma le_load_range n : forall m a, 0 <= le_load m a n < 256 ^ Z.of_nat n.
Proof.
  induction n as [|n IH]; intros m a; [simpl; lia|].
  cbn [le_load]. specialize (IH m (a + 1)). pose proof (rd_range m a).
  rewrite Nat2Z.inj_succ, Z.pow_succ_r by lia. lia.
Qed.

Lemma rd_le_store_other n : forall m a v b,
  b < a \/ a + Z.of_nat n <= b -> rd (le_store m a v n) b = rd m b.
Proof.
  induction n as [|n IH]; intros m a v b Hb; [done|].
  cbn [le_store]. rewrite IH by lia. apply rd_wr_ne. lia.
Qed.

Lemma le_load_ext n : forall m m' a,
  (forall b, a <= b < a + Z.of_nat n -> rd m b = rd m' b) -> le_load m a n = le_load m' a n.
Proof.
  induction n as [|n IH]; intros m m' a H; [done|].
  cbn [le_load]. rewrite (H a) by lia. f_equal. f_equal. apply IH.
  intros b Hb. apply H. lia.
Qed.

Lemma le_load_store n : forall m a v,
  0 <= v < 256 ^ Z.of_nat n -> le_load (le_store m a v n) a n = v.
Proof.
  induction n as [|n IH]; intros m a v Hv; [simpl in *; lia|].
  rewrite Nat2Z.inj_succ, Z.pow_succ_r in Hv by lia.
  cbn [le_load le_store]. rewrite rd_le_store_other by lia.
  rewrite rd_wr_eq, IH.
  - rewrite u8_small by (pose proof (Z.mod_pos_bound v 256); lia).
    pose proof (Z.div_mod v 256). lia.
  - pose proof (Z.div_lt_upper_bound v 256 (256 ^ Z.of_nat n)).
    pose proof (Z.div_pos v 256). lia.
Qed.

Lemma load64_range m a : 0 <= load64 m a < 2 ^ 64.
Proof. apply (le_load_range 8). Qed.

Lemma load_store64_eq m a v : 0 <= v < 2 ^ 64 -> load64 (store64 m a v) a = v.
Proof. intros H. apply (le_load_store 8). exact H. Qed.

Lemma rd_store64_ne m a v b : b < a \/ a + 8 <= b -> rd (store64 m a v) b = rd m b.
Proof. apply (rd_le_store_other 8). Qed.

Lemma load64_ext m m' a :
  (forall b, a <= b < a + 8 -> rd m b = rd m' b) -> load64 m a = load64 m' a.
Proof. apply (le_load_ext 8). Qed.

Lemma load_store64_ne m a b v : b + 8 <= a \/ a + 8 <= b -> load64 (store64 m a v) b = load64 m b.
Proof.
  intros H. apply load64_ext. intros c Hc. apply rd_store64_ne. lia.
Qed.

Lemma load64_zero m a : (forall b, a <= b < a + 8 -> rd m b = 0) -> load64 m a = 0.
Proof.
  intros H. unfold load64. cbn [le_load]. rewrite !H by lia. done.
Qed.
Lemma load64_shift m m' a b : (forall o, 0 <= o < 8 -> rd m (a + o) = rd m' (b + o)) -> load64 m a = load64 m' b.
Proof.
  intros H. unfold load64. cbn [le_load]. rewrite <- !Z.add_assoc. cbn [Z.add Pos.add].
  rewrite <- (Z.add_0_r a) at 1. rewrite <- (Z.add_0_r b) at 1. rewrite !H by lia. done.
Qed.
Global Opaque load64 store64.

(** ** Byte ranges as lists *)

Fixpoint bytes (m : mem) (a : Z) (n : nat) : list Z :=
  match n with O => [] | S n' => rd m a :: bytes m (a + 1) n' end.
Fixpoint store_bytes (m : mem) (a : Z) (l : list Z) : mem :=
  match l with [] => m | b :: l' => store_bytes (wr m a b) (a + 1) l' end.
Fixpoint le_bytes (v : Z) (n : nat) : list Z :=
  match n with O => [] | S n' => v mod 256 :: le_bytes (v / 256) n' end.
Fixpoint of_le (l : list Z) : Z := match l with [] => 0 | b :: l' => b + 256 * of_le l' end.
Definition is_byte (b : Z) : Prop := 0 <= b < 256.

Lemma length_bytes m n : forall a, length (bytes m a n) = n.
Proof. induction n; cbn; auto. Qed.
Lemma length_le_bytes n : forall v, length (le_bytes v n) = n.
Proof. induction n; cbn; auto. Qed.
Lemma bytes_app m n1 : forall a n2, bytes m a (n1 + n2) = bytes m a n1 ++ bytes m (a + Z.of_nat n1) n2.
Proof.
  induction n1 as [|n IH]; intros a n2; cbn [bytes Nat.add app]; [by rewrite Z.add_0_r|].
  rewrite IH. do 3 f_equal. lia.
Qed.
Lemma bytes_ext n : forall m m' a, (forall b, a <= b < a + Z.of_nat n -> rd m b = rd m' b) -> bytes m a n = bytes m' a n.
Proof.
  induction n as [|n IH]; intros m m' a H; cbn; [done|]. rewrite (H a) by lia. f_equal. apply IH.
  intros b Hb. apply H. lia.
Qed.
Lemma bytes_bytes m n : forall a, Forall is_byte (bytes m a n).
Proof. induction n; intros a; cbn; constructor; [apply rd_range|done]. Qed.
Lemma bytes_lookup m n : forall a i, (i < n)%nat -> bytes m a n !! i = Some (rd m (a + Z.of_nat i)).
Proof.
  induction n as [|n IH]; intros a i Hi; [lia|]. destruct i as [|i]; cbn; [do 2 f_equal; lia|].
  rewrite IH by lia. do 2 f_equal. lia.
Qed.
Lemma bytes_zero m n : forall a, (forall b, a <= b < a + Z.of_nat n -> rd m b = 0) -> bytes m a n = replicate n 0.
Proof.
  induction n as [|n IH]; intros a H; cbn; [done|]. rewrite (H a) by lia. f_equal. apply IH. intros; apply H; lia.
Qed.

Lemma rd_store_bytes_out l : forall m a b, b < a \/ a + Z.of_nat (length l) <= b -> rd (store_bytes m a l) b = rd m b.
Proof.
  induction l as [|x l IH]; intros m a b Hb; [done|]. cbn [store_bytes length] in *.
  rewrite IH by lia. apply rd_wr_ne. lia.
Qed.
Lemma bytes_store_bytes l : forall m a, Forall is_byte l -> bytes (store_bytes m a l) a (length l) = l.
Proof.
  induction l as [|x l IH]; intros m a H; [done|]. apply Forall_cons in H as [Hx Hl]. cbn [store_bytes length bytes].
  rewrite IH by done. rewrite rd_store_bytes_out, rd_wr_eq by lia. by rewrite u8_small.
Qed.
Lemma bytes_store_bytes_out m a l b n : b + Z.of_nat n <= a \/ a + Z.of_nat (length l) <= b ->
  bytes (store_bytes m a l) b n = bytes m b n.
Proof. intros H. apply bytes_ext. intros c Hc. apply rd_store_bytes_out. lia. Qed.
Lemma le_store_bytes n : forall m a v, le_store m a v n = store_bytes m a (le_bytes v n).
Proof. induction n as [|n IH]; intros; cbn; [done|apply IH]. Qed.
Lemma le_load_bytes n : forall m a, le_load m a n = of_le (bytes m a n).
Proof. induction n as [|n IH]; intros; cbn; [done|by rewrite IH]. Qed.
Lemma le_bytes_bytes n : forall v, Forall is_byte (le_bytes v n).
Proof. induction n; intros; cbn; constructor; [unfold is_byte; dlia|done]. Qed.
Lemma of_le_bytes n : forall v, 0 <= v < 256 ^ Z.of_nat n -> of_le (le_bytes v n) = v.
Proof.
  induction n as [|n IH]; intros v Hv; [cbn in *; lia|]. cbn [le_bytes of_le].
  rewrite Nat2Z.inj_succ, Z.pow_succ_r in Hv by lia. rewrite IH; dlia.
Qed.

(** ** string.c *)

(** [memset]: the loop [for(i = 0; i < n; i++) cdst[i] = c]. *)
Fixpoint memset_loop (m : mem) (dst c i : Z) (n : nat) : mem :=
  match n with O => m | S n' => memset_loop (wr m (dst + i) c) dst c (i + 1) n' end.
Definition memset (m : mem) (dst c n : Z) : mem := memset_loop m dst c 0 (Z.to_nat n).

(** [memcmp]: bytes are compared as [uchar]; the first difference is returned. *)
Fixpoint memcmp_loop (m : mem) (s1 s2 : Z) (n : nat) : Z :=
  match n with
  | O => 0
  | S n' => if rd m s1 =? rd m s2 then memcmp_loop m (s1 + 1) (s2 + 1) n'
            else rd m s1 - rd m s2
  end.
Definition memcmp (m : mem) (v1 v2 n : Z) : Z := memcmp_loop m v1 v2 (Z.to_nat n).

(** [memmove]: copies backwards when the destination starts inside the source. *)
Fixpoint copy_fwd (m : mem) (d s : Z) (n : nat) : mem :=
  match n with O => m | S n' => copy_fwd (wr m d (rd m s)) (d + 1) (s + 1) n' end.
Fixpoint copy_bwd (m : mem) (d s : Z) (n : nat) : mem :=
  match n with O => m | S n' => copy_bwd (wr m (d - 1) (rd m (s - 1))) (d - 1) (s - 1) n' end.
Definition memmove (m : mem) (dst src n : Z) : mem :=
  if (src <? dst) && (dst <? src + n)
  then copy_bwd m (dst + n) (src + n) (Z.to_nat n)
  else copy_fwd m dst src (Z.to_nat n).
Definition memcpy (m : mem) (dst src n : Z) : mem := memmove m dst src n.

(** [memmove] of user/ulib.c chooses the direction by the pointers alone. *)
Definition user_memmove (m : mem) (vdst vsrc n : Z) : mem :=
  if vdst <? vsrc then copy_fwd m vdst vsrc (Z.to_nat n)
  else copy_bwd m (vdst + n) (vsrc + n) (Z.to_nat n).

Fixpoint strncmp_loop (m : mem) (p q : Z) (n : nat) : Z :=
  match n with
  | O => 0
  | S n' => if negb (rd m p =? 0) && (rd m p =? rd m q) then strncmp_loop m (p + 1) (q + 1) n'
            else rd m p - rd m q
  end.
Definition strncmp (m : mem) (p q n : Z) : Z := strncmp_loop m p q (Z.to_nat n).

(** [strncpy]: copies up to and including the terminator, then zero-fills. *)
Fixpoint strncpy_zero (m : mem) (s : Z) (n : nat) : mem :=
  match n with O => m | S n' => strncpy_zero (wr m s 0) (s + 1) n' end.
Fixpoint strncpy_copy (m : mem) (s t : Z) (n : nat) : mem :=
  match n with
  | O => m
  | S n' => let c := rd m t in
            let m' := wr m s c in
            if c =? 0 then strncpy_zero m' (s + 1) n' else strncpy_copy m' (s + 1) (t + 1) n'
  end.
Definition strncpy (m : mem) (s t n : Z) : mem := strncpy_copy m s t (Z.to_nat n).

(** [safestrcpy]: at most [n-1] bytes, then the terminator at the cursor (which is
    one past the copied terminator when the source string was short). *)
Fixpoint safestrcpy_loop (m : mem) (s t : Z) (n : nat) : mem :=
  match n with
  | O => wr m s 0
  | S n' => let c := rd m t in
            let m' := wr m s c in
            if c =? 0 then wr m' (s + 1) 0 else safestrcpy_loop m' (s + 1) (t + 1) n'
  end.
Definition safestrcpy (m : mem) (s t n : Z) : mem :=
  if n <=? 0 then m else safestrcpy_loop m s t (Z.to_nat (n - 1)).

(** [strlen] with fuel: [None] when no terminator is met within the fuel. *)
Fixpoint strlen_loop (m : mem) (s n : Z) (fuel : nat) : option Z :=
  match fuel with
  | O => None
  | S f => if rd m (s + n) =? 0 then Some n else strlen_loop m s (n + 1) f
  end.
Definition strlen (fuel : nat) (m : mem) (s : Z) : option Z := strlen_loop m s 0 fuel.

(** ** What the loops compute *)

Lemma rd_memset_loop n : forall m dst c i a,
  rd (memset_loop m dst c i n) a =
  if (dst + i <=? a) && (a <? dst + i + Z.of_nat n) then u8 c else rd m a.
Proof.
  induction n as [|n IH]; intros m dst c i a; cbn [memset_loop].
  - zbool; done || lia.
  - rewrite IH, rd_wr. zbool; done || lia.
Qed.

Lemma rd_memset m dst c n a : 0 <= n ->
  rd (memset m dst c n) a = if (dst <=? a) && (a <? dst + n) then u8 c else rd m a.
Proof.
  intros Hn. unfold memset. rewrite rd_memset_loop, Z.add_0_r, Z2Nat.id by lia. done.
Qed.

Lemma rd_memset_out m dst c n a : 0 <= n -> a < dst \/ dst + n <= a -> rd (memset m dst c n) a = rd m a.
Proof. intros Hn Ha. rewrite rd_memset by lia. zbool; done || lia. Qed.

Lemma rd_memset_in m dst c n a : dst <= a < dst + n -> rd (memset m dst c n) a = u8 c.
Proof. intros Ha. rewrite rd_memset by lia. zbool; done || lia. Qed.

(** A forward copy is right when the destination does not start inside the source. *)
Lemma rd_copy_fwd n : forall m d s a,
  d <= s \/ s + Z.of_nat n <= d ->
  rd (copy_fwd m d s n) a = if (d <=? a) && (a <? d + Z.of_nat n) then rd m (s + (a - d)) else rd m a.
Proof.
  induction n as [|n IH]; intros m d s a Hd; cbn [copy_fwd].
  - zbool; done || lia.
  - rewrite IH by lia. rewrite !rd_wr, u8_rd. zbool; done || lia || (f_equal; lia).
Qed.

Lemma rd_copy_bwd n : forall m d s a,
  s <= d \/ d + Z.of_nat n <= s ->
  rd (copy_bwd m (d + Z.of_nat n) (s + Z.of_nat n) n) a =
  if (d <=? a) && (a <? d + Z.of_nat n) then rd m (s + (a - d)) else rd m a.
Proof.
  induction n as [|n IH]; intros m d s a Hd; cbn [copy_bwd].
  - zbool; done || lia.
  - replace (d + Z.of_nat (S n) - 1) with (d + Z.of_nat n) by lia.
    replace (s + Z.of_nat (S n) - 1) with (s + Z.of_nat n) by lia.
    rewrite IH by lia. rewrite !rd_wr, u8_rd. zbool; done || lia || (f_equal; lia).
Qed.

Lemma rd_memmove m dst src n a : 0 <= n ->
  rd (memmove m dst src n) a =
  if (dst <=? a) && (a <? dst + n) then rd m (src + (a - dst)) else rd m a.
Proof.
  intros Hn. unfold memmove. rewrite <- (Z2Nat.id n Hn), Nat2Z.id.
  destruct (Z.ltb_spec src dst), (Z.ltb_spec dst (src + Z.of_nat (Z.to_nat n))); cbn [andb];
    (apply rd_copy_bwd || apply rd_copy_fwd); lia.
Qed.

Lemma rd_user_memmove m dst src n a : 0 <= n ->
  rd (user_memmove m dst src n) a =
  if (dst <=? a) && (a <? dst + n) then rd m (src + (a - dst)) else rd m a.
Proof.
  intros Hn. unfold user_memmove. rewrite <- (Z2Nat.id n Hn), Nat2Z.id.
  destruct (Z.ltb_spec dst src); (apply rd_copy_bwd || apply rd_copy_fwd); lia.
Qed.

(** [memcmp] returns zero exactly when the two ranges hold the same bytes. *)
Lemma memcmp_loop_zero n : forall m s1 s2,
  memcmp_loop m s1 s2 n = 0 <-> forall i, 0 <= i < Z.of_nat n -> rd m (s1 + i) = rd m (s2 + i).
Proof.
  induction n as [|n IH]; intros m s1 s2; cbn [memcmp_loop]; [split; [lia|done]|].
  destruct (Z.eqb_spec (rd m s1) (rd m s2)) as [E|E].
  - rewrite IH. split; intros H i Hi.
    + destruct (decide (i = 0)) as [->|]; [by rewrite !Z.add_0_r|].
      specialize (H (i - 1)). replace (s1 + i) with (s1 + 1 + (i - 1)) by lia.
      replace (s2 + i) with (s2 + 1 + (i - 1)) by lia. apply H. lia.
    + specialize (H (i + 1)). replace (s1 + 1 + i) with (s1 + (i + 1)) by lia.
      replace (s2 + 1 + i) with (s2 + (i + 1)) by lia. apply H. lia.
  - split; [lia|]. intros H. specialize (H 0). rewrite !Z.add_0_r in H. lia.
Qed.

(** [strncpy] writes exactly its [n] bytes: the source up to its terminator, then zeros. *)
Lemma rd_strncpy_zero n : forall m s a,
  rd (strncpy_zero m s n) a = if (s <=? a) && (a <? s + Z.of_nat n) then 0 else rd m a.
Proof.
  induction n as [|n IH]; intros m s a; cbn [strncpy_zero].
  - zbool; done || lia.
  - rewrite IH, rd_wr. zbool; done || lia.
Qed.

Definition nul_free (m : mem) (t k : Z) : Prop := forall i, 0 <= i < k -> rd m (t + i) <> 0.

Lemma strncpy_copy_spec n : forall m s t,
  s + Z.of_nat n <= t \/ t + Z.of_nat n <= s ->
  (forall a, a < s \/ s + Z.of_nat n <= a -> rd (strncpy_copy m s t n) a = rd m a) /\
  (forall i, 0 <= i < Z.of_nat n -> nul_free m t i ->
     rd (strncpy_copy m s t n) (s + i) = rd m (t + i)) /\
  (forall i j, 0 <= j < i -> i < Z.of_nat n -> rd m (t + j) = 0 ->
     rd (strncpy_copy m s t n) (s + i) = 0).
Proof.
  induction n as [|n IH]; intros m s t Hd; [split_and!; intros; done || lia|].
  cbn [strncpy_copy]. destruct (Z.eqb_spec (rd m t) 0) as [E|E].
  - split_and!.
    + intros a Ha. rewrite rd_strncpy_zero, rd_wr. zbool; done || lia.
    + intros i Hi Hnf. rewrite rd_strncpy_zero, rd_wr, u8_rd.
      destruct (decide (i = 0)) as [->|].
      * rewrite !Z.add_0_r. zbool; done || lia.
      * exfalso. apply (Hnf 0); [lia|by rewrite Z.add_0_r].
    + intros i j Hj Hi Hz. rewrite rd_strncpy_zero. zbool; done || lia.
  - destruct (IH (wr m s (rd m t)) (s + 1) (t + 1)) as (H1 & H2 & H3); [lia|].
    assert (forall b, b <> s -> rd (wr m s (rd m t)) b = rd m b) as Hw
      by (intros b Hb; by apply rd_wr_ne).
    split_and!.
    + intros a Ha. rewrite H1 by lia. apply Hw. lia.
    + intros i Hi Hnf. destruct (decide (i = 0)) as [->|].
      * rewrite !Z.add_0_r, H1 by lia. by rewrite rd_wr_eq, u8_rd.
      * replace (s + i) with (s + 1 + (i - 1)) by lia. rewrite H2.
        -- rewrite Hw by lia. f_equal. lia.
        -- lia.
        -- intros j Hj. rewrite Hw by lia. replace (t + 1 + j) with (t + (j + 1)) by lia.
           apply Hnf. lia.
    + intros i j Hj Hi Hz. destruct (decide (j = 0)) as [->|].
      * by rewrite Z.add_0_r in Hz.
      * replace (s + i) with (s + 1 + (i - 1)) by lia. apply (H3 (i - 1) (j - 1)); [lia|lia|].
        rewrite Hw by lia. rewrite <- Hz. f_equal. lia.
Qed.

(** Two strings that agree up to the first terminator of the first compare equal. *)
Lemma strncmp_loop_eq n : forall m p q,
  (forall i, 0 <= i < Z.of_nat n -> nul_free m p i -> rd m (p + i) = rd m (q + i)) ->
  strncmp_loop m p q n = 0.
Proof.
  induction n as [|n IH]; intros m p q H; [done|].
  cbn [strncmp_loop]. assert (rd m p = rd m q) as E.
  { specialize (H 0). rewrite !Z.add_0_r in H. apply H; [lia|intros i Hi; lia]. }
  destruct (Z.eqb_spec (rd m p) 0) as [Ez|Ez]; cbn [negb andb]; [lia|].
  rewrite E, Z.eqb_refl. apply IH. intros i Hi Hnf.
  specialize (H (i + 1)). replace (p + 1 + i) with (p + (i + 1)) by lia.
  replace (q + 1 + i) with (q + (i + 1)) by lia. apply H; [lia|].
  intros j Hj. destruct (decide (j = 0)) as [->|]; [by rewrite Z.add_0_r|].
  replace (p + j) with (p + 1 + (j - 1)) by lia. apply Hnf. lia.
Qed.

(** C24: [memmove] copies the [n] source bytes as they were before the call, whatever
    the overlap of the two ranges, and changes no byte outside the destination. *)
Theorem memmove_correct m dst src n (Hn : 0 <= n) :
  (forall i, 0 <= i < n -> rd (memmove m dst src n) (dst + i) = rd m (src + i)) /\
  (forall a, a < dst \/ dst + n <= a -> rd (memmove m dst src n) a = rd m a).
Proof.
  split.
  - intros i Hi. rewrite rd_memmove by lia. zbool; lia || (f_equal; lia).
  - intros a Ha. rewrite rd_memmove by lia. zbool; done || lia.
Qed.

Definition m_abc : mem := wr (wr (wr ∅ 10 97) 11 98) 12 99.

Lemma memmove_correct_witness :
  0 <= 3 /\ rd (memmove m_abc 11 10 3) 13 = 99 /\
  (forall i, 0 <= i < 3 -> rd (memmove m_abc 11 10 3) (11 + i) = rd m_abc (10 + i)).
Proof.
  split; [lia|]. split; [vm_compute; reflexivity|].
  apply (memmove_correct m_abc 11 10 3). lia.
Defined.

(** a name stored with [strncpy] compares equal ([strncmp] returns 0) to the
    name it was copied from, for any bound: what [dirlink] writes [dirlookup] finds. *)
Theorem strncpy_strncmp m s t n (Hn : 0 <= n) (Hd : s + n <= t \/ t + n <= s) :
  strncmp (strncpy m s t n) t s n = 0.
Proof.
  unfold strncmp, strncpy. rewrite <- (Z2Nat.id n Hn) in Hd.
  destruct (strncpy_copy_spec (Z.to_nat n) m s t Hd) as (Hout & Hcp & _).
  apply strncmp_loop_eq. intros i Hi Hnf.
  rewrite Hcp; [apply Hout; lia|done|].
  intros j Hj. rewrite <- (Hout (t + j)) by lia. apply Hnf. lia.
Qed.

Lemma strncpy_strncmp_witness :
  0 <= 14 /\ 100 + 14 <= 200 /\ strncmp (strncpy m_abc 100 10 14) 10 100 14 = 0.
Proof.
  split; [lia|]. split; [lia|]. apply (strncpy_strncmp m_abc 100 10 14); lia.
Defined.

Lemma safestrcpy_loop_spec n : forall m s t,
  (forall a, a < s \/ s + Z.of_nat n < a -> rd (safestrcpy_loop m s t n) a = rd m a) /\
  exists i, 0 <= i <= Z.of_nat n /\ rd (safestrcpy_loop m s t n) (s + i) = 0.
Proof.
  induction n as [|n IH]; intros m s t; cbn [safestrcpy_loop].
  - split; [intros a Ha; apply rd_wr_ne; lia|]. exists 0. rewrite Z.add_0_r, rd_wr_eq. done.
  - destruct (Z.eqb_spec (rd m t) 0) as [E|E].
    + split; [intros a Ha; rewrite !rd_wr_ne by lia; done|].
      exists 0. split; [lia|]. rewrite Z.add_0_r, rd_wr_ne, rd_wr_eq, E by lia. done.
    + destruct (IH (wr m s (rd m t)) (s + 1) (t + 1)) as (H1 & i & Hi & H2). split.
      * intros a Ha. rewrite H1, rd_wr_ne by lia. done.
      * exists (i + 1). split; [lia|]. replace (s + (i + 1)) with (s + 1 + i) by lia. done.
Qed.

(** [safestrcpy] leaves a terminator among the [n] destination bytes whatever the
    source holds, and writes nothing outside those [n] bytes. *)
Theorem safestrcpy_terminates m s t n (Hn : 0 < n) :
  (exists i, 0 <= i < n /\ rd (safestrcpy m s t n) (s + i) = 0) /\
  (forall a, a < s \/ s + n <= a -> rd (safestrcpy m s t n) a = rd m a).
Proof.
  unfold safestrcpy. destruct (Z.leb_spec n 0); [lia|].
  destruct (safestrcpy_loop_spec (Z.to_nat (n - 1)) m s t) as (H1 & i & Hi & H2).
  rewrite Z2Nat.id in * by lia. split; [exists i; split; [lia|done]|].
  intros a Ha. apply H1. lia.
Qed.

Lemma safestrcpy_terminates_witness :
  0 < 3 /\ (exists i, 0 <= i < 3 /\ rd (safestrcpy m_abc 100 10 3) (100 + i) = 0).
Proof. split; [lia|]. apply (safestrcpy_terminates m_abc 100 10 3). lia. Defined.
