(* ===== verification/Riscv.v ===== *)
(** * Address-space constants and Sv39 arithmetic (kernel/riscv.h, kernel/memlayout.h) *)
From S2P Require Import Prelude.

Definition PGSIZE : Z := 4096.
Definition PGSHIFT : Z := 12.
Definition PGROUNDUP (sz : Z) : Z := Z.land (u64 (sz + PGSIZE - 1)) (Z.lnot (PGSIZE - 1)).
Definition PGROUNDDOWN (a : Z) : Z := Z.land a (Z.lnot (PGSIZE - 1)).

Definition PTE_V : Z := Z.shiftl 1 0.
Definition PTE_R : Z := Z.shiftl 1 1.
Definition PTE_W : Z := Z.shiftl 1 2.
Definition PTE_X : Z := Z.shiftl 1 3.
Definition PTE_U : Z := Z.shiftl 1 4.

Definition PA2PTE (pa : Z) : Z := u64 (Z.shiftl (Z.shiftr pa 12) 10).
Definition PTE2PA (pte : Z) : Z := u64 (Z.shiftl (Z.shiftr pte 10) 12).
Definition PTE_FLAGS (pte : Z) : Z := Z.land pte 0x3FF.

Definition PXMASK : Z := 0x1FF.
Definition PXSHIFT (level : Z) : Z := PGSHIFT + 9 * level.
Definition PX (level va : Z) : Z := Z.land (Z.shiftr va (PXSHIFT level)) PXMASK.
Definition MAXVA : Z := Z.shiftl 1 (9 + 9 + 9 + 12 - 1).

Definition SATP_SV39 : Z := u64 (Z.shiftl 8 60).
Definition MAKE_SATP (pagetable : Z) : Z := Z.lor SATP_SV39 (Z.shiftr pagetable 12).

(** memlayout.h *)
Definition UART0 : Z := 0x10000000.
Definition VIRTIO0 : Z := 0x10001000.
Definition PLIC : Z := 0x0c000000.
Definition KERNBASE : Z := 0x80000000.
Definition PHYSTOP : Z := KERNBASE + 128 * 1024 * 1024.
Definition TRAMPOLINE : Z := MAXVA - PGSIZE.
Definition KSTACK (p : Z) : Z := TRAMPOLINE - (p + 1) * 2 * PGSIZE.
Definition TRAPFRAME : Z := TRAMPOLINE - PGSIZE.

(** ** The macros as arithmetic *)

Lemma land_lnot_low k a : 0 <= k -> Z.land a (Z.lnot (2 ^ k - 1)) = a / 2 ^ k * 2 ^ k.
Proof.
  intros Hk. rewrite <- Z.shiftr_div_pow2, <- Z.shiftl_mul_pow2 by lia.
  rewrite <- Z.ldiff_ones_r by lia. rewrite Z.ldiff_land, Z.ones_equiv. done.
Qed.

Lemma PGROUNDDOWN_div a : PGROUNDDOWN a = a / 4096 * 4096.
Proof. apply (land_lnot_low 12). lia. Qed.

Lemma PGROUNDUP_div sz : 0 <= sz < 2 ^ 64 - 4095 -> PGROUNDUP sz = (sz + 4095) / 4096 * 4096.
Proof.
  intros H. unfold PGROUNDUP. rewrite u64_small by (unfold PGSIZE; lia).
  rewrite (land_lnot_low 12) by lia. unfold PGSIZE.
  replace (sz + 4096 - 1) with (sz + 4095) by lia. done.
Qed.

Lemma PX_div level va : 0 <= level -> PX level va = va / 2 ^ (12 + 9 * level) mod 512.
Proof.
  intros H. unfold PX, PXMASK, PXSHIFT, PGSHIFT.
  rewrite (Z.land_ones _ 9), Z.shiftr_div_pow2 by lia. done.
Qed.

Lemma PX_range level va : 0 <= level -> 0 <= PX level va < 512.
Proof. intros H. rewrite PX_div by done. apply Z.mod_pos_bound. lia. Qed.

Lemma PX2_low va : 0 <= va < MAXVA -> PX 2 va < 256.
Proof. change MAXVA with (2 ^ 38). intros H. rewrite PX_div by lia. change (2 ^ (12 + 9 * 2)) with (2 ^ 30). dlia. Qed.

(** A page-table entry built from an aligned address and flags gives both back. *)
Definition mkpte (pa flags : Z) : Z := pa / 4096 * 1024 + flags.

Lemma PA2PTE_div pa : 0 <= pa < 2 ^ 56 -> PA2PTE pa = pa / 4096 * 1024.
Proof.
  intros H. unfold PA2PTE. rewrite Z.shiftr_div_pow2, Z.shiftl_mul_pow2 by lia.
  change (2 ^ 12) with 4096. change (2 ^ 10) with 1024. apply u64_small. dlia.
Qed.

Lemma PTE2PA_mkpte pa flags :
  0 <= pa < 2 ^ 56 -> pa mod 4096 = 0 -> 0 <= flags < 1024 -> PTE2PA (mkpte pa flags) = pa.
Proof.
  intros H Ha Hf. unfold PTE2PA, mkpte.
  rewrite Z.shiftr_div_pow2, Z.shiftl_mul_pow2 by lia.
  change (2 ^ 12) with 4096. change (2 ^ 10) with 1024.
  replace ((pa / 4096 * 1024 + flags) / 1024) with (pa / 4096) by dlia.
  rewrite u64_small; dlia.
Qed.

Lemma PTE_FLAGS_mkpte pa flags : 0 <= flags < 1024 -> PTE_FLAGS (mkpte pa flags) = flags.
Proof.
  intros Hf. unfold PTE_FLAGS, mkpte. rewrite (Z.land_ones _ 10) by lia.
  change (2 ^ 10) with 1024. dlia.
Qed.

Lemma PTE2PA_aligned pte : PTE2PA pte mod 4096 = 0.
Proof.
  unfold PTE2PA, u64. rewrite Z.shiftl_mul_pow2 by lia. change (2 ^ 12) with 4096.
  rewrite Z.mod_mod_divide; [by apply Z.mod_mul|]. by exists (2 ^ 52).
Qed.

(** The entry [PA2PTE(pa) | perm | PTE_V] of mappages. *)
Lemma pte_build pa perm : 0 <= pa < 2 ^ 56 -> 0 <= perm < 1024 ->
  Z.lor (Z.lor (PA2PTE pa) perm) PTE_V = mkpte pa (Z.lor perm PTE_V).
Proof.
  intros H Hp. rewrite PA2PTE_div by done. rewrite <- Z.lor_assoc. unfold mkpte.
  apply (lor_add 10); [lia| |].
  - change (2 ^ 10) with 1024. apply Z.mod_mul. lia.
  - apply lor_bound; [lia|lia|]. change PTE_V with 1. lia.
Qed.
