(* ===== verification/Kalloc.v ===== *)
(** * Physical page allocator (kernel/kalloc.c)

    The free list is threaded through the free pages themselves: [struct run] is the
    first word of a page.  The state is the machine's memory and the list head. *)
From S2P Require Import Prelude Mem Riscv.

Record kmem := Kmem { ram : mem; freelist : Z }.

Definition kmem_lock : lockid := ("kmem", 0).

Section Kalloc.
(** The linker symbol [end]: the first address after the kernel image. *)
Variable kend : Z.

Definition kfree (pa : Z) : M kmem unit :=
  if negb (pa mod PGSIZE =? 0) || (pa <? kend) || (PHYSTOP <=? pa) then panic "kfree" else
  modify (fun s => Kmem (memset (ram s) pa 1 PGSIZE) (freelist s)) ;;
  acquire kmem_lock ;;
  modify (fun s => Kmem (store64 (ram s) pa (freelist s)) (freelist s)) ;;
  modify (fun s => Kmem (ram s) pa) ;;
  release kmem_lock.

Definition kalloc : M kmem Z :=
  acquire kmem_lock ;;
  r ← gets freelist;
  (if r =? 0 then mret tt
   else modify (fun s => Kmem (ram s) (load64 (ram s) r))) ;;
  release kmem_lock ;;
  (if r =? 0 then mret tt
   else modify (fun s => Kmem (memset (ram s) r 5 PGSIZE) (freelist s))) ;;
  mret r.

(** [for(; p + PGSIZE <= pa_end; p += PGSIZE) kfree(p)]; one unit of fuel per page. *)
Fixpoint freerange_loop (p pa_end : Z) (fuel : nat) : M kmem unit :=
  match fuel with
  | O => mret tt
  | S f => if p + PGSIZE <=? pa_end
           then kfree p ;; freerange_loop (p + PGSIZE) pa_end f
           else mret tt
  end.
Definition freerange (pa_start pa_end : Z) : M kmem unit :=
  freerange_loop (PGROUNDUP pa_start) pa_end (Z.to_nat ((pa_end - PGROUNDUP pa_start) / PGSIZE)).
Definition kinit : M kmem unit := freerange kend PHYSTOP.

(** ** The free list *)

Definition page (p : Z) : Prop := p mod 4096 = 0 /\ kend <= p < PHYSTOP.

(** [l] lists, in order, the pages reached from [p] through their first words. *)
Fixpoint chain (m : mem) (p : Z) (l : list Z) : Prop :=
  match l with [] => p = 0 | x :: l' => p = x /\ chain m (load64 m x) l' end.

Definition fl_ok (s : kmem) (l : list Z) : Prop :=
  NoDup l /\ Forall page l /\ chain (ram s) (freelist s) l.

(** The bytes of every page of the list [ps] are untouched. *)
Definition same_page (m m' : mem) (p : Z) : Prop :=
  forall a, p <= a < p + 4096 -> rd m' a = rd m a.

Lemma page_disjoint p q : page p -> page q -> p <> q -> p + 4096 <= q \/ q + 4096 <= p.
Proof. intros [Hp _] [Hq _] Hne. dlia. Qed.

Lemma chain_frame m m' l : forall p,
  chain m p l -> Forall (same_page m m') l -> chain m' p l.
Proof.
  induction l as [|x l IH]; intros p Hc Hs; [done|].
  destruct Hc as [-> Hc]. apply Forall_cons in Hs as [Hx Hs]. split; [done|].
  rewrite (load64_ext m' m); [by apply IH|]. intros b Hb. apply Hx. lia.
Qed.

Hypothesis kend_kern : KERNBASE <= kend.

Lemma page_pos p : page p -> 0 < p < 2 ^ 56.
Proof. intros [_ H]. unfold PHYSTOP, KERNBASE in *. lia. Qed.

(** Pages other than the one written keep their bytes. *)
Definition only_page (m m' : mem) (p : Z) : Prop :=
  forall a, a < p \/ p + 4096 <= a -> rd m' a = rd m a.

Lemma only_page_same m m' p q : page p -> page q -> p <> q -> only_page m m' p -> same_page m m' q.
Proof.
  intros Hp Hq Hne Ho a Ha. apply Ho. destruct (page_disjoint p q); auto; lia.
Qed.

Lemma only_page_others m m' p l :
  page p -> Forall page l -> p ∉ l -> only_page m m' p -> Forall (same_page m m') l.
Proof.
  intros Hp Hl Hn Ho. rewrite Forall_forall in Hl |- *. intros q Hq.
  eapply only_page_same; eauto. intros ->. done.
Qed.

(** A client's write to its own page leaves the free list in order. *)
Lemma fl_ok_only s l m' q :
  fl_ok s l -> page q -> q ∉ l -> only_page (ram s) m' q -> fl_ok (Kmem m' (freelist s)) l.
Proof.
  intros (H1 & H2 & H3) Hq Hn Ho. split_and!; try done. cbn.
  eapply chain_frame; [exact H3|]. by eapply only_page_others.
Qed.

Lemma kfree_spec h s l pa :
  kmem_lock ∉ h -> fl_ok s l -> page pa -> pa ∉ l ->
  wp (kfree pa) (KSt h s) (fun _ k => held k = h /\ fl_ok (st k) (pa :: l) /\
    only_page (ram s) (ram (st k)) pa).
Proof.
  intros Hh (Hnd & Hp & Hc) Hpa Hn. unfold kfree.
  destruct Hpa as [Ha Hr]. change PGSIZE with 4096. rewrite Ha.
  destruct (Z.ltb_spec pa kend), (Z.leb_spec PHYSTOP pa); try lia. cbn.
  wsteps. split; [done|].
  assert (only_page (ram s) (store64 (memset (ram s) pa 1 4096) pa (freelist s)) pa) as Ho.
  { intros a Hla. rewrite rd_store64_ne, rd_memset_out by lia. done. }
  split; [|exact Ho]. split_and!.
  - by constructor.
  - constructor; [by split|done].
  - cbn. split; [done|]. rewrite load_store64_eq.
    + eapply chain_frame; [exact Hc|]. eapply only_page_others; eauto. by split.
    + destruct l as [|x l]; [cbn in Hc; lia|]. destruct Hc as [-> _].
      apply Forall_cons in Hp as [Hx _]. apply page_pos in Hx. lia.
Qed.

Lemma kalloc_spec h s l :
  kmem_lock ∉ h -> fl_ok s l ->
  wp kalloc (KSt h s) (fun r k => held k = h /\
    match l with
    | [] => r = 0 /\ st k = s
    | x :: l' => r = x /\ fl_ok (st k) l' /\ only_page (ram s) (ram (st k)) x /\
                 (forall a, x <= a < x + 4096 -> rd (ram (st k)) a = 5)
    end).
Proof.
  intros Hh (Hnd & Hp & Hc). unfold kalloc. wsteps.
  destruct l as [|x l]; cbn in Hc.
  - rewrite Hc, Z.eqb_refl. wsteps. destruct s; naive_solver.
  - destruct Hc as [Hx Hc]. rewrite Hx. apply NoDup_cons in Hnd as [Hnin Hnd].
    apply Forall_cons in Hp as [Hpx Hp]. pose proof (page_pos x Hpx).
    destruct (Z.eqb_spec x 0); [lia|]. wsteps.
    assert (only_page (ram s) (memset (ram s) x 5 4096) x) as Ho.
    { intros a Ha. apply rd_memset_out; lia. }
    split_and!; try done.
    + split_and!; try done. eapply chain_frame; [exact Hc|]. eapply only_page_others; eauto.
    + intros a Ha. cbn. rewrite rd_memset_in by (unfold PGSIZE; lia). done.
Qed.

(** ** Boot: [kinit] hands over every page between the kernel and PHYSTOP *)

Definition pages_from (p : Z) (n : nat) : list Z := (fun i => p + 4096 * i) <$> seqZ 0 (Z.of_nat n).
Definition all_pages : list Z :=
  pages_from (PGROUNDUP kend) (Z.to_nat ((PHYSTOP - PGROUNDUP kend) / PGSIZE)).

Lemma pages_from_S p n : pages_from p (S n) = p :: pages_from (p + 4096) n.
Proof.
  unfold pages_from. rewrite Nat2Z.inj_succ, seqZ_cons by lia. rewrite fmap_cons.
  replace (p + 4096 * 0) with p by lia. apply (f_equal (cons p)).
  replace (Z.pred (Z.succ (Z.of_nat n))) with (Z.of_nat n) by lia.
  change (Z.succ 0) with (1 + 0).
  rewrite <- fmap_add_seqZ, <- list_fmap_compose. apply list_fmap_ext. intros _ x _. simpl. lia.
Qed.

Lemma elem_of_pages_from x p n :
  x ∈ pages_from p n <-> exists i, 0 <= i < Z.of_nat n /\ x = p + 4096 * i.
Proof.
  unfold pages_from. rewrite list_elem_of_fmap. setoid_rewrite elem_of_seqZ.
  split; intros (i & ? & ?); exists i; split; lia || done.
Qed.

Lemma freerange_loop_spec h n : forall s l p pa_end,
  kmem_lock ∉ h -> fl_ok s l -> Forall page (pages_from p n) ->
  (forall x, x ∈ pages_from p n -> x ∉ l) -> p + 4096 * Z.of_nat n <= pa_end ->
  wp (freerange_loop p pa_end n) (KSt h s) (fun _ k => held k = h /\
    exists l', fl_ok (st k) l' /\ l' ≡ₚ pages_from p n ++ l).
Proof.
  induction n as [|n IH]; intros s l p pa_end Hh Hfl Hpg Hn Hend; cbn [freerange_loop].
  { wsteps. split; [done|]. by exists l. }
  rewrite pages_from_S in *. apply Forall_cons in Hpg as [Hp Hpg].
  destruct (Z.leb_spec (p + PGSIZE) pa_end) as [_|Hlt]; [|unfold PGSIZE in Hlt; lia].
  wstep. eapply wp_mono; [apply (kfree_spec h s l p); auto; apply Hn; set_solver|].
  intros _ [h' s'] (Eh & Hfl' & _). cbn in Eh, Hfl'. subst h'.
  eapply wp_mono; [apply (IH s' (p :: l) (p + PGSIZE) pa_end); auto; [|change PGSIZE with 4096; lia]|].
  - intros x Hx. rewrite not_elem_of_cons. split; [|apply Hn; by right].
    apply elem_of_pages_from in Hx as (i & Hi & ->). unfold PGSIZE. lia.
  - intros _ k (Hk & l' & Hl' & Hperm). split; [done|]. exists l'. split; [done|].
    rewrite Hperm. symmetry. apply Permutation_middle.
Qed.

Lemma all_pages_ok : kend <= PHYSTOP -> Forall page all_pages.
Proof.
  intros Hk. apply Forall_forall. intros x Hx.
  apply elem_of_pages_from in Hx as (i & Hi & ->).
  unfold PGSIZE, PHYSTOP, KERNBASE in *.
  rewrite PGROUNDUP_div in * by lia. rewrite Z2Nat.id in Hi by dlia.
  split; [|unfold PHYSTOP, KERNBASE; dlia].
  rewrite <- Z.mul_comm with (n := i). rewrite <- Z.mul_add_distr_r. apply Z.mod_mul. lia.
Qed.

Lemma kinit_spec h m : kmem_lock ∉ h -> kend <= PHYSTOP ->
  wp kinit (KSt h (Kmem m 0)) (fun _ k => held k = h /\
    exists l, fl_ok (st k) l /\ l ≡ₚ all_pages).
Proof.
  intros Hh Hk. unfold kinit, freerange.
  eapply wp_mono; [apply (freerange_loop_spec h _ _ []); auto|].
  - split_and!; [constructor|constructor|done].
  - by apply all_pages_ok.
  - set_solver.
  - unfold PGSIZE. destruct (decide (0 <= (PHYSTOP - PGROUNDUP kend) / 4096)).
    + rewrite Z2Nat.id by lia. dlia.
    + unfold PHYSTOP, KERNBASE in *. rewrite PGROUNDUP_div in * by lia. exfalso. dlia.
  - intros _ k (? & l & ? & Hp). rewrite app_nil_r in Hp. eauto.
Qed.

(** ** Clients of the allocator

    A state pairs the allocator with the list of pages handed out.  A client may
    allocate, free a page it owns, and write anything into the pages it owns. *)
Inductive kstep : kmem * list Z -> kmem * list Z -> Prop :=
| kstep_alloc s A p k :
    kalloc (KSt [] s) = Ok p k ->
    kstep (s, A) (st k, if p =? 0 then A else p :: A)
| kstep_free s A1 p A2 k :
    kfree p (KSt [] s) = Ok tt k -> kstep (s, A1 ++ p :: A2) (st k, A1 ++ A2)
| kstep_write s A m' :
    (forall a, (forall p, p ∈ A -> a < p \/ p + 4096 <= a) -> rd m' a = rd (ram s) a) ->
    kstep (s, A) (Kmem m' (freelist s), A).

(** Pages owned by clients and pages on the free list partition the pages. *)
Definition kinv (c : kmem * list Z) : Prop :=
  exists l, fl_ok (fst c) l /\ snd c ++ l ≡ₚ all_pages.

Lemma all_pages_NoDup : NoDup all_pages.
Proof. apply NoDup_fmap_2; [intros x y H; lia|apply NoDup_seqZ]. Qed.

Lemma kinv_NoDup (A l : list Z) : A ++ l ≡ₚ all_pages -> NoDup (A ++ l).
Proof. intros H. rewrite H. apply all_pages_NoDup. Qed.

Lemma kinv_step c c' : kend <= PHYSTOP -> kinv c -> kstep c c' -> kinv c'.
Proof.
  intros Hk (l & Hfl & Hp) Hstep.
  pose proof (kinv_NoDup _ _ Hp) as Hnd.
  assert (Forall page (snd c ++ l)) as Hpg by (rewrite Hp; by apply all_pages_ok).
  destruct Hstep as [s A p k E|s A1 p A2 k E|s A m' Hw]; cbn in *.
  - destruct (wp_elim _ _ _ (kalloc_spec [] s l ltac:(set_solver) Hfl)) as (r & k' & E' & _ & HQ).
    rewrite E in E'. injection E' as <- <-. destruct l as [|x l]; cbn in HQ.
    + destruct HQ as (-> & ->). by exists [].
    + destruct HQ as (-> & Hfl' & _). exists l. split; [done|]. cbn.
      apply Forall_app in Hpg as [_ Hpg]. apply Forall_cons in Hpg as [Hx _].
      apply page_pos in Hx. destruct (Z.eqb_spec x 0); [lia|]. cbn.
      rewrite <- Hp. apply Permutation_middle.
  - rewrite <- app_assoc in *. cbn in *.
    assert ((p ∉ l) /\ page p) as [Hn Hpp].
    { apply Forall_app in Hpg as [_ Hpg]. apply Forall_cons in Hpg as [Hpp _]. split; [|done].
      apply NoDup_app in Hnd as (_ & _ & Hnd). apply NoDup_cons in Hnd as [Hnd _]. set_solver. }
    destruct (wp_elim _ _ _ (kfree_spec [] s l p ltac:(set_solver) Hfl Hpp Hn)) as ([] & k' & E' & _ & HQ & _).
    rewrite E in E'. injection E' as <-. exists (p :: l). split; [done|]. cbn.
    rewrite <- Hp, <- app_assoc. apply Permutation_app_head. symmetry. apply Permutation_middle.
  - exists l. split; [|done]. destruct Hfl as (H1 & H2 & H3). split_and!; try done. cbn.
    eapply chain_frame; [exact H3|]. apply Forall_forall. intros x Hx a Ha. apply Hw.
    intros p HpA. rewrite Forall_forall in H2. destruct (page_disjoint p x) as [|]; try lia.
    + rewrite Forall_forall in Hpg. apply Hpg. set_solver.
    + by apply H2.
    + intros ->. apply NoDup_app in Hnd as (_ & Hd & _). by apply (Hd x).
Qed.

Lemma kinv_steps c c' : kend <= PHYSTOP -> kinv c -> rtc kstep c c' -> kinv c'.
Proof. intros Hk Hi Hs. induction Hs; eauto using kinv_step. Qed.
End Kalloc.

(** [kinit] returns from any memory contents with the free list holding every
    whole page between the end of the kernel and PHYSTOP, each exactly once. *)
Theorem kinit_frees_all kend m (Hk : KERNBASE <= kend) (Hp : kend <= PHYSTOP) :
  exists k l, kinit kend (KSt [] (Kmem m 0)) = Ok tt k /\ held k = [] /\
    fl_ok kend (st k) l /\ l ≡ₚ all_pages kend.
Proof.
  destruct (wp_elim _ _ _ (kinit_spec kend Hk [] m ltac:(set_solver) Hp))
    as ([] & k & E & Hh & l & Hl). eauto 10.
Qed.

(** C19: from boot, whatever clients allocate, free and write in their pages, the
    pages they own and the free list always partition the page pool: no page is
    handed out twice, none is lost, and client writes never break the list. *)
Theorem kalloc_partition kend m k0 c (Hk : KERNBASE <= kend) (Hp : kend <= PHYSTOP)
    (Hboot : kinit kend (KSt [] (Kmem m 0)) = Ok tt k0)
    (Hsteps : rtc (kstep kend) (st k0, []) c) :
  NoDup (snd c) /\ exists l, fl_ok kend (fst c) l /\ snd c ++ l ≡ₚ all_pages kend.
Proof.
  assert (kinv kend c) as (l & Hl & Hperm).
  { eapply kinv_steps; eauto.
    destruct (wp_elim _ _ _ (kinit_spec kend Hk [] m ltac:(set_solver) Hp)) as ([] & k & E & Hh & l & Hl).
    rewrite Hboot in E. injection E as <-. by exists l. }
  split; [|by exists l]. apply kinv_NoDup in Hperm. by apply NoDup_app in Hperm as (? & _ & _).
Qed.

(** A machine with two pages of RAM above the kernel. *)
Definition small_kend : Z := PHYSTOP - 2 * 4096 - 100.
Definition small_boot : kst kmem := after (kinit small_kend) (KSt [] (Kmem ∅ 0)).

Lemma kinit_frees_all_witness :
  KERNBASE <= small_kend /\ small_kend <= PHYSTOP /\
  all_pages small_kend = [0x87FFE000; 0x87FFF000] /\
  exists k l, kinit small_kend (KSt [] (Kmem ∅ 0)) = Ok tt k /\ held k = [] /\
    fl_ok small_kend (st k) l /\ l ≡ₚ all_pages small_kend.
Proof.
  split; [done|]. split; [done|]. split; [vm_compute; reflexivity|].
  apply (kinit_frees_all small_kend ∅); done.
Defined.

Lemma kalloc_partition_witness :
  let k1 := after kalloc small_boot in
  kinit small_kend (KSt [] (Kmem ∅ 0)) = Ok tt small_boot /\
  rtc (kstep small_kend) (st small_boot, []) (st k1, [0x87FFF000]) /\
  exists l, fl_ok small_kend (st k1) l /\ [0x87FFF000] ++ l ≡ₚ all_pages small_kend.
Proof.
  intros k1.
  assert (kinit small_kend (KSt [] (Kmem ∅ 0)) = Ok tt small_boot) as Hb.
  { apply (ok_after tt). vm_compute. reflexivity. }
  assert (rtc (kstep small_kend) (st small_boot, []) (st k1, [0x87FFF000])) as Hs.
  { apply rtc_once.
    assert (kalloc (KSt [] (st small_boot)) = Ok 0x87FFF000 k1) as E.
    { rewrite kst_eta by (vm_compute; reflexivity).
      apply (ok_after_eq 0); vm_compute; reflexivity. }
    exact (kstep_alloc small_kend (st small_boot) [] 0x87FFF000 k1 E). }
  split; [exact Hb|]. split; [exact Hs|].
  apply (kalloc_partition small_kend ∅ small_boot (st k1, [0x87FFF000])); done.
Defined.
