(* ===== verification/Vm.v ===== *)
(** * Page tables (kernel/vm.c): definitions

    Page tables live in the same memory the allocator manages: a page-table page is
    512 little-endian words.  Each function below is the C function of the same name,
    in the kernel monad over [kmem].  A null pointer is 0; a store through it faults
    and ends in [kerneltrap]'s panic.  Loops carry fuel equal to the number of
    iterations the code can make; running out is the distinct panic [no_fuel]. *)
From S2P Require Import Prelude Mem Riscv Kalloc.

(** Page arithmetic helpers for stores through the kernel's direct map. *)
Definition ld (a : Z) : M kmem Z := gets (fun s => load64 (ram s) a).
Definition sd (a v : Z) : M kmem unit := modify (fun s => Kmem (store64 (ram s) a v) (freelist s)).
Definition on_ram (f : mem -> mem) : M kmem unit := modify (fun s => Kmem (f (ram s)) (freelist s)).

(** A test of flag bits, as in [if(pte & mask)]. *)
Definition bits_set (pte mask : Z) : bool := negb (Z.land pte mask =? 0).

(** [walk]: the loop over levels 2 and 1, then the level-0 slot. *)
Fixpoint walk_levels (levels : list Z) (pagetable va : Z) (alloc : bool) : M kmem Z :=
  match levels with
  | [] => mret (pagetable + 8 * PX 0 va)
  | level :: rest =>
    let pte := pagetable + 8 * PX level va in
    v ← ld pte;
    if bits_set v PTE_V then walk_levels rest (PTE2PA v) va alloc
    else if negb alloc then mret 0 else
      pt' ← kalloc;
      if pt' =? 0 then mret 0 else
      on_ram (fun m => memset m pt' 0 PGSIZE) ;;
      sd pte (Z.lor (PA2PTE pt') PTE_V) ;;
      walk_levels rest pt' va alloc
  end.
Definition walk (pagetable va : Z) (alloc : bool) : M kmem Z :=
  if MAXVA <=? va then panic "walk" else walk_levels [2; 1] pagetable va alloc.

Definition walkaddr (pagetable va : Z) : M kmem Z :=
  if MAXVA <=? va then mret 0 else
  pte ← walk pagetable va false;
  if pte =? 0 then mret 0 else
  v ← ld pte;
  if negb (bits_set v PTE_V) then mret 0 else
  if negb (bits_set v PTE_U) then mret 0 else
  mret (PTE2PA v).

(** [mappages]: 0 on success, -1 when a page-table page cannot be allocated. *)
Fixpoint mappages_loop (fuel : nat) (pagetable a last pa perm : Z) : M kmem Z :=
  match fuel with
  | O => panic no_fuel
  | S f =>
    pte ← walk pagetable a true;
    if pte =? 0 then mret (-1) else
    v ← ld pte;
    if bits_set v PTE_V then panic "remap" else
    sd pte (Z.lor (Z.lor (PA2PTE pa) perm) PTE_V) ;;
    if a =? last then mret 0
    else mappages_loop f pagetable (u64 (a + PGSIZE)) last (u64 (pa + PGSIZE)) perm
  end.
Definition mappages (pagetable va size pa perm : Z) : M kmem Z :=
  let a := PGROUNDDOWN va in
  let last := PGROUNDDOWN (u64 (va + size - 1)) in
  mappages_loop (S (Z.to_nat (u64 (last - a) / PGSIZE))) pagetable a last pa perm.

Definition kvmmap (kpgtbl va pa sz perm : Z) : M kmem unit :=
  r ← mappages kpgtbl va sz pa perm;
  if r =? 0 then mret tt else panic "kvmmap".

Section Vm.
Variable kend : Z.

(** [uvmunmap] (the message printed before the "not mapped" panic is dropped). *)
Fixpoint uvmunmap_loop (fuel : nat) (pagetable a aend : Z) (do_free : bool) : M kmem unit :=
  if negb (a <? aend) then mret tt else
  match fuel with
  | O => panic no_fuel
  | S f =>
    pte ← walk pagetable a false;
    if pte =? 0 then panic "uvmunmap: walk" else
    v ← ld pte;
    if negb (bits_set v PTE_V) then panic "uvmunmap: not mapped" else
    if PTE_FLAGS v =? PTE_V then panic "uvmunmap: not a leaf" else
    (if do_free then kfree kend (PTE2PA v) else mret tt) ;;
    sd pte 0 ;;
    uvmunmap_loop f pagetable (u64 (a + PGSIZE)) aend do_free
  end.
Definition uvmunmap (pagetable va npages : Z) (do_free : bool) : M kmem unit :=
  if negb (va mod PGSIZE =? 0) then panic "uvmunmap: not aligned" else
  uvmunmap_loop (Z.to_nat npages) pagetable va (u64 (va + npages * PGSIZE)) do_free.

Definition uvmcreate : M kmem Z :=
  pagetable ← kalloc;
  if pagetable =? 0 then mret 0 else
  on_ram (fun m => memset m pagetable 0 PGSIZE) ;;
  mret pagetable.

Definition uvminit (pagetable src sz : Z) : M kmem unit :=
  if PGSIZE <=? sz then panic "inituvm: more than a page" else
  mem ← kalloc;
  if mem =? 0 then panic "kerneltrap" else
  on_ram (fun m => memset m mem 0 PGSIZE) ;;
  _ ← mappages pagetable 0 PGSIZE mem (Z.lor (Z.lor (Z.lor PTE_W PTE_R) PTE_X) PTE_U);
  on_ram (fun m => memmove m mem src sz).

Definition uvmdealloc (pagetable oldsz newsz : Z) : M kmem Z :=
  if oldsz <=? newsz then mret oldsz else
  (if PGROUNDUP newsz <? PGROUNDUP oldsz
   then let npages := i32 ((PGROUNDUP oldsz - PGROUNDUP newsz) / PGSIZE) in
        uvmunmap pagetable (PGROUNDUP newsz) (u64 npages) true
   else mret tt) ;;
  mret newsz.

Definition USERPERM : Z := Z.lor (Z.lor (Z.lor PTE_W PTE_X) PTE_R) PTE_U.

Fixpoint uvmalloc_loop (fuel : nat) (pagetable a oldsz newsz : Z) : M kmem Z :=
  if negb (a <? newsz) then mret newsz else
  match fuel with
  | O => panic no_fuel
  | S f =>
    mem ← kalloc;
    if mem =? 0 then (_ ← uvmdealloc pagetable a oldsz; mret 0) else
    on_ram (fun m => memset m mem 0 PGSIZE) ;;
    r ← mappages pagetable a PGSIZE mem USERPERM;
    if negb (r =? 0)
    then kfree kend mem ;; _ ← uvmdealloc pagetable a oldsz; mret 0
    else uvmalloc_loop f pagetable (u64 (a + PGSIZE)) oldsz newsz
  end.
Definition uvmalloc (pagetable oldsz newsz : Z) : M kmem Z :=
  if newsz <? oldsz then mret oldsz else
  let oldsz := PGROUNDUP oldsz in
  uvmalloc_loop (Z.to_nat ((newsz - oldsz) / PGSIZE + 1)) pagetable oldsz oldsz newsz.

(** [freewalk] recurses through the three levels; [depth] bounds the recursion. *)
Fixpoint freewalk (depth : nat) (pagetable : Z) : M kmem unit :=
  match depth with
  | O => panic no_fuel
  | S d =>
    (fix entries (idx : list Z) : M kmem unit :=
       match idx with
       | [] => mret tt
       | i :: rest =>
         pte ← ld (pagetable + 8 * i);
         (if bits_set pte PTE_V && negb (bits_set pte (Z.lor (Z.lor PTE_R PTE_W) PTE_X))
          then freewalk d (PTE2PA pte) ;; sd (pagetable + 8 * i) 0
          else if bits_set pte PTE_V then panic "freewalk: leaf"
          else mret tt) ;;
         entries rest
       end) (seqZ 0 512) ;;
    kfree kend pagetable
  end.

Definition uvmfree (pagetable sz : Z) : M kmem unit :=
  (if 0 <? sz then uvmunmap pagetable 0 (PGROUNDUP sz / PGSIZE) true else mret tt) ;;
  freewalk 3 pagetable.

Fixpoint uvmcopy_loop (fuel : nat) (old new i sz : Z) : M kmem Z :=
  if negb (i <? sz) then mret 0 else
  match fuel with
  | O => panic no_fuel
  | S f =>
    pte ← walk old i false;
    if pte =? 0 then panic "uvmcopy: pte should exist" else
    v ← ld pte;
    if negb (bits_set v PTE_V) then panic "uvmcopy: page not present" else
    let pa := PTE2PA v in
    let flags := PTE_FLAGS v in
    mem ← kalloc;
    if mem =? 0 then (uvmunmap new 0 (i / PGSIZE) true ;; mret (-1)) else
    on_ram (fun m => memmove m mem pa PGSIZE) ;;
    r ← mappages new i PGSIZE mem flags;
    if negb (r =? 0)
    then kfree kend mem ;; uvmunmap new 0 (i / PGSIZE) true ;; mret (-1)
    else uvmcopy_loop f old new (u64 (i + PGSIZE)) sz
  end.
Definition uvmcopy (old new sz : Z) : M kmem Z :=
  uvmcopy_loop (Z.to_nat (sz / PGSIZE + 1)) old new 0 sz.

Definition uvmclear (pagetable va : Z) : M kmem unit :=
  pte ← walk pagetable va false;
  if pte =? 0 then panic "uvmclear" else
  v ← ld pte;
  sd pte (Z.land v (Z.lnot PTE_U)).
End Vm.

(** ** Copying between the kernel and user space *)

Fixpoint copyout_loop (fuel : nat) (pagetable dstva src len : Z) : M kmem Z :=
  if negb (0 <? len) then mret 0 else
  match fuel with
  | O => panic no_fuel
  | S f =>
    let va0 := PGROUNDDOWN dstva in
    pa0 ← walkaddr pagetable va0;
    if pa0 =? 0 then mret (-1) else
    let n := Z.min (PGSIZE - (dstva - va0)) len in
    on_ram (fun m => memmove m (pa0 + (dstva - va0)) src n) ;;
    copyout_loop f pagetable (u64 (va0 + PGSIZE)) (src + n) (len - n)
  end.
Definition copyout (pagetable dstva src len : Z) : M kmem Z :=
  copyout_loop (Z.to_nat len) pagetable dstva src len.

Fixpoint copyin_loop (fuel : nat) (pagetable dst srcva len : Z) : M kmem Z :=
  if negb (0 <? len) then mret 0 else
  match fuel with
  | O => panic no_fuel
  | S f =>
    let va0 := PGROUNDDOWN srcva in
    pa0 ← walkaddr pagetable va0;
    if pa0 =? 0 then mret (-1) else
    let n := Z.min (PGSIZE - (srcva - va0)) len in
    on_ram (fun m => memmove m dst (pa0 + (srcva - va0)) n) ;;
    copyin_loop f pagetable (dst + n) (u64 (va0 + PGSIZE)) (len - n)
  end.
Definition copyin (pagetable dst srcva len : Z) : M kmem Z :=
  copyin_loop (Z.to_nat len) pagetable dst srcva len.

(** The inner byte loop of [copyinstr]: memory, [got_null], and the advanced [dst]
    and [max]. *)
Fixpoint copyinstr_bytes (m : mem) (p dst max : Z) (n : nat) : mem * bool * Z * Z :=
  match n with
  | O => (m, false, dst, max)
  | S n' => if rd m p =? 0 then (wr m dst 0, true, dst, max)
            else copyinstr_bytes (wr m dst (rd m p)) (p + 1) (dst + 1) (max - 1) n'
  end.
Fixpoint copyinstr_loop (fuel : nat) (pagetable dst srcva max : Z) : M kmem Z :=
  if negb (0 <? max) then mret (-1) else
  match fuel with
  | O => panic no_fuel
  | S f =>
    let va0 := PGROUNDDOWN srcva in
    pa0 ← walkaddr pagetable va0;
    if pa0 =? 0 then mret (-1) else
    let n := Z.min (PGSIZE - (srcva - va0)) max in
    m ← gets ram;
    let '(m', got_null, dst', max') :=
      copyinstr_bytes m (pa0 + (srcva - va0)) dst max (Z.to_nat n) in
    on_ram (fun _ => m') ;;
    if (got_null : bool) then mret 0
    else copyinstr_loop f pagetable dst' (u64 (va0 + PGSIZE)) max'
  end.
Definition copyinstr (pagetable dst srcva max : Z) : M kmem Z :=
  copyinstr_loop (Z.to_nat max) pagetable dst srcva max.
