(* ===== verification/VmTree.v ===== *)
(** * Page tables: the tree behind the words

    [ent m p i] is entry [i] of the page-table page at [p].  A ghost map [own] gives,
    for every page-table page in the system, the root it belongs to, its level and
    the virtual-page-number prefix it serves; since a page has one entry in [own], two
    different slots never share a child, which is what makes the structure a tree.
    [lk] is the specification of translation: the leaf word for an address. *)
From S2P Require Import Prelude Mem Riscv Kalloc Vm.

Definition ent (m : mem) (p i : Z) : Z := load64 m (p + 8 * i).

(** A page-table entry written to [ents] at page [p], index [i]. *)
Definition upd (e : Z -> Z -> Z) (p i v : Z) : Z -> Z -> Z :=
  fun p' i' => if (p' =? p) && (i' =? i) then v else e p' i'.
Definition zero_page (e : Z -> Z -> Z) (q : Z) : Z -> Z -> Z :=
  fun p' i' => if p' =? q then 0 else e p' i'.

(** The level-0 page serving [va], and the leaf entry (0 when there is none). *)
Definition path0 (e : Z -> Z -> Z) (root va : Z) : option Z :=
  let e2 := e root (PX 2 va) in
  if bits_set e2 PTE_V then
    let e1 := e (PTE2PA e2) (PX 1 va) in
    if bits_set e1 PTE_V then Some (PTE2PA e1) else None
  else None.
Definition lk (e : Z -> Z -> Z) (root va : Z) : Z :=
  match path0 e root va with Some p0 => e p0 (PX 0 va) | None => 0 end.

Abbreviation owner := (gmap Z (Z * Z * Z)).

Section Tree.
Variable kend : Z.
Hypothesis kend_kern : KERNBASE <= kend.

(** A table is a root, or the entry of its prefix in the level above points to it. *)
Definition up (own : owner) (e : Z -> Z -> Z) (p r l pre : Z) : Prop :=
  (l = 2 /\ p = r /\ pre = 0) \/
  (l < 2 /\ exists q, own !! q = Some (r, l + 1, pre / 512) /\
     bits_set (e q (pre mod 512)) PTE_V = true /\ PTE2PA (e q (pre mod 512)) = p).

Record pt_ok (own : owner) (e : Z -> Z -> Z) : Prop := {
  pt_page : forall p r l pre, own !! p = Some (r, l, pre) -> page kend p /\ 0 <= l <= 2;
  pt_link : forall p r l pre i, own !! p = Some (r, l, pre) -> 0 < l -> 0 <= i < 512 ->
    bits_set (e p i) PTE_V = true -> own !! PTE2PA (e p i) = Some (r, l - 1, pre * 512 + i);
  pt_ptr : forall p r l pre i, own !! p = Some (r, l, pre) -> 0 < l -> 0 <= i < 512 ->
    bits_set (e p i) PTE_V = true -> bits_set (e p i) (Z.lor (Z.lor PTE_R PTE_W) PTE_X) = false;
  pt_up : forall p r l pre, own !! p = Some (r, l, pre) -> up own e p r l pre;
  pt_low : forall p r pre, own !! p = Some (r, 1, pre) -> 0 <= pre < 256;
}.

(** ** Entries and memory *)

Lemma ent_store64 m p i v p' i' :
  p mod 4096 = 0 -> p' mod 4096 = 0 -> 0 <= i < 512 -> 0 <= i' < 512 -> 0 <= v < 2 ^ 64 ->
  ent (store64 m (p + 8 * i) v) p' i' = upd (ent m) p i v p' i'.
Proof.
  intros Hp Hp' Hi Hi' Hv. unfold ent, upd.
  destruct (Z.eqb_spec p' p) as [->|]; [destruct (Z.eqb_spec i' i) as [->|]|]; cbn [andb].
  - by apply load_store64_eq.
  - apply load_store64_ne. lia.
  - apply load_store64_ne. dlia.
Qed.

Lemma ent_memset0 m q p' i' :
  q mod 4096 = 0 -> p' mod 4096 = 0 -> 0 <= i' < 512 ->
  ent (memset m q 0 PGSIZE) p' i' = zero_page (ent m) q p' i'.
Proof.
  intros Hq Hp' Hi'. unfold ent, zero_page, PGSIZE. destruct (Z.eqb_spec p' q) as [->|].
  - apply load64_zero. intros b Hb. rewrite rd_memset_in by lia. done.
  - apply load64_ext. intros b Hb. apply rd_memset_out; dlia.
Qed.

Lemma ent_ext m m' p i :
  same_page m m' p -> 0 <= i < 512 -> ent m' p i = ent m p i.
Proof. intros H Hi. apply load64_ext. intros b Hb. apply H. lia. Qed.

Lemma ent_range m p i : 0 <= ent m p i < 2 ^ 64.
Proof. apply load64_range. Qed.

(** Two entry functions that agree on the pages of [own] are interchangeable. *)
Definition agree (own : owner) (e e' : Z -> Z -> Z) : Prop :=
  forall p i, is_Some (own !! p) -> 0 <= i < 512 -> e' p i = e p i.

Lemma pt_ok_agree own e e' : agree own e e' -> pt_ok own e -> pt_ok own e'.
Proof.
  intros Ha [H1 H2 H3 H4 H5]. split; [done|..|done].
  - intros p r l pre i Ho Hl Hi. rewrite Ha by eauto. by apply (H2 p r l pre i).
  - intros p r l pre i Ho Hl Hi. rewrite Ha by eauto. by apply (H3 p r l pre i).
  - intros p r l pre Ho. destruct (H4 _ _ _ _ Ho) as [?|(Hl & q & Hq & Hv)]; [by left|right].
    split; [done|]. exists q. split; [done|]. by rewrite Ha by (eauto; apply Z.mod_pos_bound; lia).
Qed.

Lemma PX012 va : (0 <= PX 0 va < 512) /\ (0 <= PX 1 va < 512) /\ (0 <= PX 2 va < 512).
Proof. split_and!; apply PX_range; lia. Qed.

Lemma path0_own own e root va p0 :
  pt_ok own e -> own !! root = Some (root, 2, 0) -> path0 e root va = Some p0 ->
  own !! p0 = Some (root, 0, PX 2 va * 512 + PX 1 va).
Proof.
  intros [_ Hl] Hr. unfold path0. destruct (PX012 va) as (_ & H1 & H2).
  destruct (bits_set (e root (PX 2 va)) PTE_V) eqn:E2; [|done].
  destruct (bits_set (e _ (PX 1 va)) PTE_V) eqn:E1; [|done]. intros [= <-].
  pose proof (Hl root root 2 0 (PX 2 va) Hr ltac:(lia) H2 E2) as Ho1.
  rewrite (Hl _ _ _ _ (PX 1 va) Ho1 ltac:(lia) H1 E1). done.
Qed.

Lemma path0_agree own e e' root va :
  agree own e e' -> pt_ok own e -> own !! root = Some (root, 2, 0) ->
  path0 e' root va = path0 e root va.
Proof.
  intros Ha [_ Hl] Hr. unfold path0. destruct (PX012 va) as (_ & H1 & H2).
  rewrite Ha by eauto. destruct (bits_set (e root (PX 2 va)) PTE_V) eqn:E2; [|done].
  pose proof (Hl root root 2 0 (PX 2 va) Hr ltac:(lia) H2 E2) as Ho1.
  by rewrite Ha by eauto.
Qed.

Lemma lk_agree own e e' root va :
  agree own e e' -> pt_ok own e -> own !! root = Some (root, 2, 0) ->
  lk e' root va = lk e root va.
Proof.
  intros Ha Hok Hr. unfold lk. rewrite (path0_agree own e e') by done.
  destruct (path0 e root va) as [p0|] eqn:E; [|done].
  apply Ha; [|apply PX_range; lia]. eexists. by eapply path0_own.
Qed.

(** ** Virtual page numbers *)

Lemma vpn_split va : 0 <= va < MAXVA ->
  va / 4096 = PX 2 va * 262144 + PX 1 va * 512 + PX 0 va.
Proof.
  intros H. rewrite !PX_div by lia. unfold MAXVA in H.
  change (Z.shiftl 1 (9 + 9 + 9 + 12 - 1)) with (2 ^ 38) in H.
  change (2 ^ (12 + 9 * 0)) with 4096. change (2 ^ (12 + 9 * 1)) with (4096 * 512).
  change (2 ^ (12 + 9 * 2)) with (4096 * 512 * 512).
  rewrite <- !Z.div_div by lia. set (q := va / 4096).
  assert (0 <= q < 2 ^ 26) as Hq.
  { split; [apply Z.div_pos; lia|apply Z.div_lt_upper_bound; lia]. }
  pose proof (Z.div_mod q 512 ltac:(lia)). pose proof (Z.div_mod (q / 512) 512 ltac:(lia)).
  rewrite (Z.mod_small (q / 512 / 512)); [lia|].
  pose proof (Z.mod_pos_bound q 512). pose proof (Z.mod_pos_bound (q / 512) 512). lia.
Qed.

Lemma PX_same_vpn va va' level : 0 <= level -> va / 4096 = va' / 4096 -> PX level va = PX level va'.
Proof.
  intros Hl H. rewrite !PX_div by done.
  rewrite Z.pow_add_r by lia. change (2 ^ 12) with 4096.
  rewrite <- !Z.div_div by (lia || apply Z.pow_nonzero; lia). by rewrite H.
Qed.

Lemma path0_same_vpn e root va va' : va / 4096 = va' / 4096 -> path0 e root va = path0 e root va'.
Proof.
  intros H. unfold path0. by rewrite (PX_same_vpn va va' 2), (PX_same_vpn va va' 1) by (done || lia).
Qed.

Lemma lk_same_vpn e root va va' : va / 4096 = va' / 4096 -> lk e root va = lk e root va'.
Proof.
  intros H. unfold lk. by rewrite (path0_same_vpn e root va va'), (PX_same_vpn va va' 0) by (done || lia).
Qed.

(** ** Writing a leaf *)

Lemma pt_ok_upd_leaf own e p0 r pre i v :
  pt_ok own e -> own !! p0 = Some (r, 0, pre) -> pt_ok own (upd e p0 i v).
Proof.
  intros [H1 H2 H3 H4 H5] H0.
  assert (forall p r' l' pre' j, own !! p = Some (r', l', pre') -> 0 < l' -> upd e p0 i v p j = e p j) as E.
  { intros p r' l' pre' j Ho Hl. unfold upd. destruct (Z.eqb_spec p p0) as [->|]; [|done].
    rewrite H0 in Ho. injection Ho as <- <- <-. lia. }
  split; [done|..|done].
  - intros p r' l' pre' j Ho Hl Hj. rewrite (E p r' l' pre') by done. by apply H2.
  - intros p r' l' pre' j Ho Hl Hj. rewrite (E p r' l' pre') by done. by eapply H3.
  - intros p r' l' pre' Ho. destruct (H4 _ _ _ _ Ho) as [?|(Hl & q & Hq & Hv)]; [by left|right].
    split; [done|]. exists q. split; [done|]. destruct (H1 _ _ _ _ Ho). rewrite (E q r' (l' + 1) (pre' / 512)) by (done || lia). done.
Qed.

Lemma path0_upd_leaf own e p0 r pre i v root va :
  pt_ok own e -> own !! p0 = Some (r, 0, pre) -> own !! root = Some (root, 2, 0) ->
  path0 (upd e p0 i v) root va = path0 e root va.
Proof.
  intros Hok H0 Hr. destruct (PX012 va) as (_ & H1 & H2). unfold path0.
  assert (forall p r' l' pre' j, own !! p = Some (r', l', pre') -> 0 < l' ->
            upd e p0 i v p j = e p j) as Hu.
  { intros p r' l' pre' j Ho Hl. unfold upd. destruct (Z.eqb_spec p p0) as [->|]; [|done].
    rewrite H0 in Ho. injection Ho as <- <- <-. lia. }
  rewrite (Hu _ _ _ _ _ Hr) by lia.
  destruct (bits_set (e root (PX 2 va)) PTE_V) eqn:E2; [|done].
  pose proof (pt_link _ _ Hok root root 2 0 (PX 2 va) Hr ltac:(lia) H2 E2) as Ho1.
  by rewrite (Hu _ _ _ _ _ Ho1) by lia.
Qed.

Lemma lk_upd_leaf own e root va p0 v root' va' :
  pt_ok own e -> own !! root = Some (root, 2, 0) -> own !! root' = Some (root', 2, 0) ->
  0 <= va < MAXVA -> 0 <= va' < MAXVA -> path0 e root va = Some p0 ->
  lk (upd e p0 (PX 0 va) v) root' va' =
  if (root' =? root) && (va' / 4096 =? va / 4096) then v else lk e root' va'.
Proof.
  intros Hok Hr Hr' Hva Hva' Hp0.
  pose proof (path0_own _ _ _ _ _ Hok Hr Hp0) as H0. unfold lk.
  rewrite (path0_upd_leaf own e p0 root _ _ v root' va' Hok H0 Hr').
  destruct (PX012 va) as (Hx0 & Hx1 & Hx2). destruct (PX012 va') as (Hy0 & Hy1 & Hy2).
  destruct (path0 e root' va') as [p0'|] eqn:Hp0'.
  - pose proof (path0_own _ _ _ _ _ Hok Hr' Hp0') as H0'. unfold upd.
    destruct (Z.eqb_spec p0' p0) as [->|Hne]; cbn [andb].
    + rewrite H0 in H0'. injection H0' as <- Hpre. rewrite Z.eqb_refl. cbn [andb].
      rewrite (vpn_split va), (vpn_split va') by done.
      destruct (Z.eqb_spec (PX 0 va') (PX 0 va)) as [E|E];
        destruct (Z.eqb_spec (PX 2 va' * 262144 + PX 1 va' * 512 + PX 0 va')
                    (PX 2 va * 262144 + PX 1 va * 512 + PX 0 va)); done || lia.
    + destruct (Z.eqb_spec root' root) as [->|]; [|done]. cbn [andb].
      destruct (Z.eqb_spec (va' / 4096) (va / 4096)) as [E|]; [|done].
      rewrite (path0_same_vpn e root va' va E), Hp0 in Hp0'. congruence.
  - destruct (Z.eqb_spec root' root) as [->|]; [|done]. cbn [andb].
    destruct (Z.eqb_spec (va' / 4096) (va / 4096)) as [E|]; [|done].
    rewrite (path0_same_vpn e root va' va E), Hp0 in Hp0'. congruence.
Qed.

(** ** Adding an interior page *)

Lemma land_mkpte pa f mask : 0 <= f < 1024 -> 0 <= mask < 1024 ->
  Z.land (mkpte pa f) mask = Z.land f mask.
Proof.
  intros Hf Hm. unfold mkpte. rewrite <- (lor_add 10); [|lia|by apply Z.mod_mul|done].
  rewrite Z.land_lor_distr_l, (land_disjoint 10); [done|lia|by apply Z.mod_mul|done].
Qed.

Lemma bits_set_mkpte pa f mask : 0 <= f < 1024 -> 0 <= mask < 1024 ->
  bits_set (mkpte pa f) mask = bits_set f mask.
Proof. intros. unfold bits_set. by rewrite land_mkpte. Qed.

Lemma child_pte q : page kend q -> Z.lor (PA2PTE q) PTE_V = mkpte q 1.
Proof.
  intros Hq. pose proof (page_pos kend kend_kern q Hq).
  rewrite PA2PTE_div by lia. unfold mkpte. apply (lor_add 10); [lia|by apply Z.mod_mul|lia].
Qed.

Section AddPage.
Context (own : owner) (e : Z -> Z -> Z) (p r l pre i q : Z).
Hypothesis Hok : pt_ok own e.
Hypothesis Hp : own !! p = Some (r, l, pre).
Hypothesis Hl : 0 < l.
Hypothesis Hi : 0 <= i < 512.
Hypothesis Hlow : l = 2 -> i < 256.
Hypothesis Hinv : bits_set (e p i) PTE_V = false.
Hypothesis Hq : page kend q.
Hypothesis Hqn : own !! q = None.

Definition add_ent : Z -> Z -> Z := upd (zero_page e q) p i (mkpte q 1).
Definition add_own : owner := <[q := (r, l - 1, pre * 512 + i)]> own.

Lemma child_pa : PTE2PA (mkpte q 1) = q.
Proof.
  pose proof (page_pos kend kend_kern q Hq). destruct Hq. apply PTE2PA_mkpte; lia || done.
Qed.

Lemma p_ne_q : p <> q.
Proof. congruence. Qed.

(** An entry of an old page other than the one written. *)
Lemma add_ent_old p' j : p' <> q -> ~ (p' = p /\ j = i) -> add_ent p' j = e p' j.
Proof.
  intros Hne Hn. unfold add_ent, upd, zero_page.
  destruct (Z.eqb_spec p' p), (Z.eqb_spec j i), (Z.eqb_spec p' q); cbn [andb]; done || tauto.
Qed.
Lemma add_ent_new : add_ent p i = mkpte q 1.
Proof. unfold add_ent, upd. by rewrite !Z.eqb_refl. Qed.
Lemma add_ent_q j : add_ent q j = 0.
Proof.
  unfold add_ent, upd, zero_page. rewrite (Z.eqb_refl q).
  destruct (Z.eqb_spec q p); [by destruct p_ne_q|done].
Qed.

Lemma pt_ok_add : pt_ok add_own add_ent.
Proof.
  pose proof p_ne_q as Hpq. pose proof child_pa as Hcp.
  pose proof (pt_page _ _ Hok) as H1. pose proof (pt_link _ _ Hok) as H2.
  assert (forall p' r' l' pre', own !! p' = Some (r', l', pre') -> q <> p') as Hold
    by congruence.
  split; unfold add_own.
  - intros p' r' l' pre' Ho. destruct (decide (q = p')) as [Eq|].
    + rewrite Eq, lookup_insert_eq in Ho. injection Ho as <- <- <-.
      destruct (H1 _ _ _ _ Hp). split; [congruence|lia].
    + rewrite lookup_insert_ne in Ho by done. by eapply H1.
  - intros p' r' l' pre' j Ho Hl' Hj. unfold add_ent, upd, zero_page.
    destruct (decide (q = p')) as [Eq|Hne].
    + rewrite <- Eq. destruct (Z.eqb_spec q p); [congruence|]. cbn [andb].
      rewrite Z.eqb_refl. done.
    + rewrite lookup_insert_ne in Ho by done.
      destruct (Z.eqb_spec p' q); [congruence|].
      destruct (Z.eqb_spec p' p) as [Ep|]; cbn [andb];
        [destruct (Z.eqb_spec j i) as [Ej|]|].
      * intros _. rewrite Hcp, lookup_insert_eq. congruence.
      * intros Hb. pose proof (H2 _ _ _ _ _ Ho Hl' Hj Hb) as Hc.
        rewrite lookup_insert_ne; eauto.
      * intros Hb. pose proof (H2 _ _ _ _ _ Ho Hl' Hj Hb) as Hc.
        rewrite lookup_insert_ne; eauto.
  - intros p' r' l' pre' j Ho Hl' Hj. destruct (decide (q = p')) as [<-|Hne]; [by rewrite add_ent_q|].
    rewrite lookup_insert_ne in Ho by done. destruct (decide (p' = p /\ j = i)) as [[-> ->]|Hn].
    + rewrite add_ent_new. intros _. rewrite bits_set_mkpte by done. done.
    + rewrite add_ent_old by done. by apply (pt_ptr _ _ Hok _ _ _ _ _ Ho).
  - intros p' r' l' pre' Ho. destruct (decide (q = p')) as [Eq|Hne].
    + rewrite Eq, lookup_insert_eq in Ho. injection Ho as <- <- <-. right. destruct (H1 _ _ _ _ Hp).
      split; [lia|]. exists p. rewrite lookup_insert_ne by done.
      replace ((pre * 512 + i) / 512) with pre by dlia. replace ((pre * 512 + i) mod 512) with i by dlia.
      rewrite add_ent_new, Hcp. rewrite bits_set_mkpte by done. rewrite Hp. by replace (l - 1 + 1) with l by lia.
    + rewrite lookup_insert_ne in Ho by done.
      destruct (pt_up _ _ Hok _ _ _ _ Ho) as [?|(Hl' & q' & Hq' & Hv & Hpa)]; [by left|right].
      split; [done|]. exists q'. rewrite lookup_insert_ne by (by eapply Hold).
      rewrite add_ent_old; [done|by apply not_eq_sym, (Hold _ _ _ _ Hq')|].
      intros [-> E]. rewrite E in Hv. congruence.
  - intros p' r' pre' Ho. destruct (decide (q = p')) as [Eq|Hne].
    + rewrite Eq, lookup_insert_eq in Ho. injection Ho as -> El <-. assert (l = 2) as -> by lia.
      destruct (pt_up _ _ Hok _ _ _ _ Hp) as [(_ & _ & ->)|(? & _)]; [|lia]. specialize (Hlow eq_refl). lia.
    + rewrite lookup_insert_ne in Ho by done. by eapply (pt_low _ _ Hok).
Qed.


Lemma valid_child : bits_set (mkpte q 1) PTE_V = true.
Proof. by rewrite bits_set_mkpte by (done || lia). Qed.

Lemma lk_add root va : own !! root = Some (root, 2, 0) -> lk add_ent root va = lk e root va.
Proof.
  intros Hr. unfold lk, path0. destruct (PX012 va) as (H0 & H1 & H2).
  assert (root <> q) by congruence.
  destruct (decide (root = p /\ PX 2 va = i)) as [[-> Hpx]|Hn2].
  { rewrite Hpx, add_ent_new, valid_child, Hinv, child_pa, add_ent_q. done. }
  rewrite add_ent_old by done.
  destruct (bits_set (e root (PX 2 va)) PTE_V) eqn:E2; [|done].
  pose proof (pt_link _ _ Hok root root 2 0 (PX 2 va) Hr ltac:(lia) H2 E2) as Ho1.
  set (p1 := PTE2PA (e root (PX 2 va))) in *. assert (p1 <> q) by congruence.
  destruct (decide (p1 = p /\ PX 1 va = i)) as [[Ep Hpx]|Hn1].
  { rewrite Ep, Hpx, add_ent_new, valid_child, Hinv, child_pa, add_ent_q. done. }
  rewrite add_ent_old by done.
  destruct (bits_set (e p1 (PX 1 va)) PTE_V) eqn:E1; [|done].
  pose proof (pt_link _ _ Hok p1 root _ _ (PX 1 va) Ho1 ltac:(lia) H1 E1) as Ho0.
  apply add_ent_old; [congruence|]. intros [Ep _]. rewrite Ep, Hp in Ho0.
  injection Ho0 as _ Hl0 _. lia.
Qed.
End AddPage.
End Tree.
