(* ===== verification/VmSpec.v ===== *)
(** * Page tables: what walk, mappages and uvmunmap do *)
From S2P Require Import Prelude Mem Riscv Kalloc Vm VmTree.

Section VmSpec.
Variable kend : Z.
Hypothesis kend_kern : KERNBASE <= kend.

Definition root_of (own : owner) (root : Z) : Prop := own !! root = Some (root, 2, 0).

(** The allocator's free list [l], the page tables [own], and their separation. *)
Record vm_inv (s : kmem) (l : list Z) (own : owner) : Prop := {
  vi_fl : fl_ok kend s l;
  vi_pt : pt_ok kend own (ent (ram s));
  vi_dj : forall p, p ∈ l -> own !! p = None;
}.

(** An address outside every page-table page. *)
Definition off_tables (own : owner) (a : Z) : Prop :=
  forall p, is_Some (own !! p) -> a < p \/ p + 4096 <= a.

(** How a step changes the virtual-memory state: [f root va old] is the leaf entry
    of [va] after the step; pages move from the free list to [own]; nothing outside
    the page tables is touched. *)
Record changes (f : Z -> Z -> Z -> Z) (s : kmem) (l : list Z) (own : owner)
               (s' : kmem) (l' : list Z) (own' : owner) : Prop := {
  ch_own : own ⊆ own';
  ch_list : exists n, l = n ++ l' /\ forall p, is_Some (own' !! p) <-> is_Some (own !! p) \/ p ∈ n;
  ch_lk : forall root va, root_of own root -> 0 <= va < MAXVA ->
    lk (ent (ram s')) root va = f root va (lk (ent (ram s)) root va);
  ch_frame : forall a, off_tables own' a -> rd (ram s') a = rd (ram s) a;
  ch_root : forall r, root_of own' r -> root_of own r;
}.
(** Building interior pages changes no translation. *)
Definition extends := changes (fun _ _ v => v).

Lemma extends_refl s l own : extends s l own s l own.
Proof. split; try done. exists []. set_solver. Qed.

Lemma changes_trans f g s1 l1 own1 s2 l2 own2 s3 l3 own3 :
  changes f s1 l1 own1 s2 l2 own2 -> changes g s2 l2 own2 s3 l3 own3 ->
  changes (fun r v x => g r v (f r v x)) s1 l1 own1 s3 l3 own3.
Proof.
  intros [Ho1 (n1 & -> & Hd1) Hl1 Hf1 Hr1] [Ho2 (n2 & -> & Hd2) Hl2 Hf2 Hr2]. split.
  - by trans own2.
  - exists (n1 ++ n2). split; [by rewrite app_assoc|]. intros p. rewrite Hd2, Hd1, elem_of_app. tauto.
  - intros root va Hr Hva. rewrite Hl2, Hl1; [done|done|done| |done]. by eapply lookup_weaken.
  - intros a Ha. rewrite Hf2 by done. apply Hf1. intros p [x Hp]. apply Ha.
    exists x. by eapply lookup_weaken.
  - auto.
Qed.

Lemma changes_ext f g s l own s' l' own' :
  (forall r v x, 0 <= v < MAXVA -> f r v x = g r v x) ->
  changes f s l own s' l' own' -> changes g s l own s' l' own'.
Proof. intros H [? ? Hl ? ?]. split; try done. intros r v Hr Hv. by rewrite Hl, H. Qed.

Lemma extends_trans s1 l1 own1 s2 l2 own2 s3 l3 own3 :
  extends s1 l1 own1 s2 l2 own2 -> extends s2 l2 own2 s3 l3 own3 ->
  extends s1 l1 own1 s3 l3 own3.
Proof. apply changes_trans. Qed.

Lemma root_changes f s l own s' l' own' root :
  changes f s l own s' l' own' -> root_of own root -> root_of own' root.
Proof. intros Hx Hr. eapply lookup_weaken; [exact Hr|]. apply Hx. Qed.

Lemma off_tables_page own p a :
  (forall q, is_Some (own !! q) -> page kend q) -> page kend p -> own !! p = None ->
  p <= a < p + 4096 -> off_tables own a.
Proof.
  intros Hpg Hp Hn Ha q Hq. destruct (page_disjoint kend p q); auto; try lia.
  intros ->. rewrite Hn in Hq. by destruct Hq.
Qed.

Lemma vm_pages s l own q : vm_inv s l own -> is_Some (own !! q) -> page kend q.
Proof. intros Hi [[[r lv] pre] Hq]. by eapply (pt_page kend own _ (vi_pt _ _ _ Hi)). Qed.

(** Entries of page-table pages depend only on those pages' bytes. *)
Lemma agree_frame own m m' :
  (forall p, is_Some (own !! p) -> same_page m m' p) -> agree own (ent m) (ent m').
Proof. intros H p i Hp Hi. apply ent_ext; auto. Qed.

(** ** One new interior page *)

Definition new_table (s : kmem) (p i q : Z) : kmem :=
  Kmem (store64 (memset (ram s) q 0 PGSIZE) (p + 8 * i) (mkpte q 1)) (freelist s).

Lemma mkpte_range q f : page kend q -> 0 <= f < 1024 -> 0 <= mkpte q f < 2 ^ 64.
Proof.
  intros Hq Hf. pose proof (page_pos kend kend_kern q Hq). unfold mkpte.
  assert (0 <= q / 4096 < 2 ^ 44) by (split; [apply Z.div_pos; lia|apply Z.div_lt_upper_bound; lia]).
  lia.
Qed.

Lemma new_table_ok s0 s l own p r lev pre i q :
  vm_inv s0 (q :: l) own -> fl_ok kend s l -> only_page (ram s0) (ram s) q ->
  own !! p = Some (r, lev, pre) -> 0 < lev -> 0 <= i < 512 -> (lev = 2 -> i < 256) ->
  bits_set (ent (ram s0) p i) PTE_V = false ->
  let own' := add_own own r lev pre i q in
  vm_inv (new_table s p i q) l own' /\ extends s0 (q :: l) own (new_table s p i q) l own' /\
  ent (ram (new_table s p i q)) p i = mkpte q 1 /\
  (forall p' j, is_Some (own !! p') -> 0 <= j < 512 -> ~ (p' = p /\ j = i) ->
     ent (ram (new_table s p i q)) p' j = ent (ram s0) p' j) /\
  (forall j, 0 <= j < 512 -> ent (ram (new_table s p i q)) q j = 0).
Proof.
  intros [Hfl Hpt Hdj] Hfl' Hop Hp Hlev Hi Hlow Hinv own'.
  assert (page kend q) as Hq by (destruct Hfl as (_ & Hf & _); by apply Forall_cons in Hf as [? _]).
  assert (own !! q = None) as Hqn by (apply Hdj; set_solver).
  assert (forall p', is_Some (own !! p') -> page kend p' /\ p' <> q) as Hpg.
  { intros p' [[[r' l'] pre'] Hp']. split; [by eapply Hpt|congruence]. }
  destruct (Hpg p ltac:(eauto)) as [Hpp Hpq].
  assert (agree own' (add_ent (ent (ram s0)) p i q) (ent (ram (new_table s p i q)))) as Hag.
  { intros p' j Hp' Hj. cbn [new_table ram].
    assert (page kend p') as Hpp'.
    { destruct (decide (q = p')) as [<-|]; [done|]. apply Hpg.
      unfold own', add_own in Hp'. by rewrite lookup_insert_ne in Hp'. }
    rewrite ent_store64; try (apply Hpp || apply Hpp' || done); [|apply mkpte_range; lia || done].
    unfold add_ent, upd. destruct ((p' =? p) && (j =? i)); [done|].
    rewrite ent_memset0 by (apply Hq || apply Hpp' || done). unfold zero_page.
    destruct (Z.eqb_spec p' q); [done|]. apply ent_ext; [|done].
    eapply (only_page_same kend); [exact Hq|exact Hpp'|congruence|done]. }
  assert (pt_ok kend own' (add_ent (ent (ram s0)) p i q)) as Hpt' by (by apply pt_ok_add).
  split_and!.
  - split; [|by eapply pt_ok_agree|].
    + destruct Hfl' as (H1 & H2 & H3). split_and!; try done. cbn.
      assert (Forall (fun x => is_Some (own !! x) -> False) l) as Hl.
      { apply Forall_forall. intros x Hx [y Hy]. rewrite (Hdj x) in Hy; [done|set_solver]. }
      eapply chain_frame; [exact H3|]. apply Forall_forall. intros x Hx a Ha. cbn.
      rewrite Forall_forall in H2, Hl. specialize (H2 x Hx). specialize (Hl x Hx).
      assert (x <> q) by (destruct Hfl as (Hnd & _); apply NoDup_cons in Hnd as [? _]; congruence).
      assert (x <> p) by (intros ->; eauto).
      rewrite rd_store64_ne by (destruct (page_disjoint kend x p); auto; lia).
      apply rd_memset_out; [unfold PGSIZE; lia|]. unfold PGSIZE.
      destruct (page_disjoint kend x q); auto; lia.
    + intros x Hx. unfold own', add_own. rewrite lookup_insert_ne; [apply Hdj; set_solver|].
      destruct Hfl as (Hnd & _). apply NoDup_cons in Hnd as [? _]. congruence.
  - split.
    + by apply insert_subseteq.
    + exists [q]. split; [done|]. intros x. unfold own', add_own.
      rewrite lookup_insert_is_Some, list_elem_of_singleton. naive_solver.
    + intros root va Hr _. rewrite (lk_agree kend own' (add_ent (ent (ram s0)) p i q)); try done.
      * by eapply lk_add.
      * unfold own', add_own. rewrite lookup_insert_ne; [done|]. unfold root_of in Hr. congruence.
    + intros a Ha. cbn. pose proof (Ha q) as Haq. pose proof (Ha p) as Hap.
      unfold own', add_own in Haq, Hap. rewrite lookup_insert_eq in Haq.
      rewrite lookup_insert_ne in Hap by done.
      specialize (Haq ltac:(eauto)). specialize (Hap ltac:(eauto)).
      rewrite rd_store64_ne by lia. rewrite rd_memset_out by (unfold PGSIZE; lia). by apply Hop.
    + intros r'. unfold root_of, own', add_own. intros Hr'. destruct (decide (q = r')) as [<-|]; [|by rewrite lookup_insert_ne in Hr'].
      rewrite lookup_insert_eq in Hr'. injection Hr' as _ E _. destruct (pt_page _ _ _ Hpt _ _ _ _ Hp). lia.
  - rewrite Hag; [apply add_ent_new| |done].
    unfold own', add_own. rewrite lookup_insert_ne by done. eauto.
  - intros p' j Hp' Hj Hn. destruct (Hpg p' Hp') as [_ Hne]. rewrite Hag; [|..]; try done.
    + by eapply add_ent_old.
    + unfold own', add_own. rewrite lookup_insert_ne by done. done.
  - intros j Hj. rewrite Hag; [by eapply add_ent_q| |done].
    unfold own', add_own. rewrite lookup_insert_eq. eauto.
Qed.

(** ** walk *)

Definition slot (m : mem) (root va : Z) : Z :=
  match path0 (ent m) root va with Some p0 => p0 + 8 * PX 0 va | None => 0 end.

Lemma walk_levels_cons level rest pt va alloc :
  walk_levels (level :: rest) pt va alloc =
  (v ← ld (pt + 8 * PX level va);
   if bits_set v PTE_V then walk_levels rest (PTE2PA v) va alloc
   else if negb alloc then mret 0 else
     pt' ← kalloc;
     if pt' =? 0 then mret 0 else
     on_ram (fun m => memset m pt' 0 PGSIZE) ;;
     sd (pt + 8 * PX level va) (Z.lor (PA2PTE pt') PTE_V) ;;
     walk_levels rest pt' va alloc).
Proof. done. Qed.

Lemma wp_ld a k (Q : Z -> kst kmem -> Prop) : Q (load64 (ram (st k)) a) k -> wp (ld a) k Q.
Proof. done. Qed.

(** Without [alloc], [walk] only reads. *)
Lemma walk_noalloc h s root va : va < MAXVA ->
  walk root va false (KSt h s) = Ok (slot (ram s) root va) (KSt h s).
Proof.
  intros Hva. unfold walk. destruct (Z.leb_spec MAXVA va); [lia|].
  unfold slot, path0, ent. cbn [walk_levels]. unfold ld, gets, mbind, M_bind. cbn [st].
  destruct (bits_set _ PTE_V); [|done].
  destruct (bits_set _ PTE_V); done.
Qed.

(** The allocating branch of [walk], for any continuation. *)
Lemma wp_new_table {A} h s l own p r lev pre i (K : Z -> M kmem A) (fail : M kmem A)
    (Q : A -> kst kmem -> Prop) :
  kmem_lock ∉ h -> vm_inv s l own -> own !! p = Some (r, lev, pre) -> 0 < lev -> 0 <= i < 512 -> (lev = 2 -> i < 256) ->
  bits_set (ent (ram s) p i) PTE_V = false ->
  (l = [] -> wp fail (KSt h s) Q) ->
  (forall q l' s', l = q :: l' -> let own' := add_own own r lev pre i q in
     vm_inv s' l' own' -> extends s l own s' l' own' -> ent (ram s') p i = mkpte q 1 ->
     (forall p' j, is_Some (own !! p') -> 0 <= j < 512 -> ~ (p' = p /\ j = i) ->
        ent (ram s') p' j = ent (ram s) p' j) ->
     (forall j, 0 <= j < 512 -> ent (ram s') q j = 0) -> wp (K q) (KSt h s') Q) ->
  wp (pt' ← kalloc;
      if pt' =? 0 then fail else
      on_ram (fun m => memset m pt' 0 PGSIZE) ;;
      sd (p + 8 * i) (Z.lor (PA2PTE pt') PTE_V) ;; K pt') (KSt h s) Q.
Proof.
  intros Hh Hi Hp Hlev Hidx Hlow Hinv Hfail HK. wstep.
  eapply wp_mono; [apply (kalloc_spec kend kend_kern h s l Hh (vi_fl _ _ _ Hi))|].
  intros q [h' s'] (Eh & HQ). cbn in Eh, HQ. subst h'. destruct l as [|x l].
  - destruct HQ as [-> ->]. rewrite Z.eqb_refl. by apply Hfail.
  - destruct HQ as (-> & Hfl & Hop & _).
    assert (page kend x) as Hx
      by (destruct (vi_fl _ _ _ Hi) as (_ & Hf & _); by apply Forall_cons in Hf as [? _]).
    pose proof (page_pos kend kend_kern x Hx).
    destruct (Z.eqb_spec x 0); [lia|]. rewrite (child_pte kend kend_kern) by done.
    unfold on_ram, sd. wsteps.
    destruct (new_table_ok s s' l own p r lev pre i x Hi Hfl Hop Hp Hlev Hidx Hlow Hinv)
      as (H1 & H2 & H3 & H4 & H5).
    by apply (HK x l (new_table s' p i x)).
Qed.

(** After [walk] with [alloc]: the tables are extended so that the leaf slot exists,
    or the allocator ran dry and 0 is returned. *)
Definition walk_post (root va : Z) s l own (r : Z) (s' : kmem) : Prop :=
  exists l' own', vm_inv s' l' own' /\ extends s l own s' l' own' /\
    ((r = 0 /\ l' = [] /\ path0 (ent (ram s')) root va = None) \/
     exists p0, path0 (ent (ram s')) root va = Some p0 /\ r = p0 + 8 * PX 0 va).

Lemma walk_levels1 h s0 l0 own0 s l own root va p1 :
  kmem_lock ∉ h -> vm_inv s l own -> extends s0 l0 own0 s l own ->
  root_of own root -> own !! p1 = Some (root, 1, PX 2 va) ->
  bits_set (ent (ram s) root (PX 2 va)) PTE_V = true ->
  PTE2PA (ent (ram s) root (PX 2 va)) = p1 ->
  wp (walk_levels [1] p1 va true) (KSt h s)
     (fun r k => held k = h /\ walk_post root va s0 l0 own0 r (st k)).
Proof.
  intros Hh Hi Hx Hr Hp1 Hv2 Hpa. rewrite walk_levels_cons. wstep. apply wp_ld. cbn [st].
  destruct (PX012 va) as (B0 & B1 & B2). change (load64 (ram s) (p1 + 8 * PX 1 va)) with (ent (ram s) p1 (PX 1 va)).
  destruct (bits_set (ent (ram s) p1 (PX 1 va)) PTE_V) eqn:E1; cbn [negb].
  - cbn [walk_levels]. wstep. split; [done|]. exists l, own. split; [done|]. split; [done|]. right.
    eexists. split; [|done]. cbn. unfold path0. by rewrite Hv2, Hpa, E1.
  - eapply wp_new_table; eauto; [lia|done| |].
    + intros ->. wstep. split; [done|]. exists [], own. split; [done|]. split; [done|]. left.
      cbn. unfold path0. by rewrite Hv2, Hpa, E1.
    + intros q l' s' -> own' Hi' Hx' Hnew Hold _. cbn [walk_levels]. wstep. split; [done|].
      exists l', own'. split; [done|]. split; [by eapply extends_trans|]. right.
      eexists. split; [|done]. cbn. unfold path0.
      assert (page kend q) as Hq.
      { destruct (vi_fl _ _ _ Hi) as (_ & Hf & _). by apply Forall_cons in Hf as [? _]. }
      rewrite Hold, Hv2, Hpa, Hnew; eauto.
      * rewrite bits_set_mkpte by (done || lia). cbn. f_equal. by apply (child_pa kend).
      * intros [-> _]. rewrite Hr in Hp1. injection Hp1. lia.
Qed.

Lemma walk_alloc h s l own root va :
  kmem_lock ∉ h -> vm_inv s l own -> root_of own root -> 0 <= va < MAXVA ->
  wp (walk root va true) (KSt h s) (fun r k => held k = h /\ walk_post root va s l own r (st k)).
Proof.
  intros Hh Hi Hr Hva. unfold walk. destruct (Z.leb_spec MAXVA va); [lia|].
  rewrite walk_levels_cons. wstep. apply wp_ld. cbn [st].
  destruct (PX012 va) as (B0 & B1 & B2).
  change (load64 (ram s) (root + 8 * PX 2 va)) with (ent (ram s) root (PX 2 va)).
  destruct (bits_set (ent (ram s) root (PX 2 va)) PTE_V) eqn:E2; cbn [negb].
  - eapply (walk_levels1 h s l own s l own root); eauto using extends_refl.
    apply (pt_link kend own _ (vi_pt _ _ _ Hi) root root 2 0); done || lia.
  - eapply wp_new_table; eauto; [lia|by intros _; apply PX2_low| |].
    + intros ->. wstep. split; [done|]. exists [], own. split; [done|].
      split; [apply extends_refl|]. left. cbn. unfold path0. by rewrite E2.
    + intros q l' s' -> own' Hi' Hx' Hnew Hold _.
      assert (page kend q) as Hq.
      { destruct (vi_fl _ _ _ Hi) as (_ & Hf & _). by apply Forall_cons in Hf as [? _]. }
      eapply (walk_levels1 h s (q :: l') own s' l' own'); eauto using root_changes.
      * unfold own', add_own. rewrite lookup_insert_eq. done.
      * rewrite Hnew. by rewrite bits_set_mkpte by (done || lia).
      * rewrite Hnew. by apply (child_pa kend).
Qed.

(** ** Writing a leaf entry *)

Definition set_leaf (s : kmem) (p0 va v : Z) : kmem :=
  Kmem (store64 (ram s) (p0 + 8 * PX 0 va) v) (freelist s).

(** The translation of the page of [va] under [root] becomes [v]. *)
Definition map_one (root va v : Z) : Z -> Z -> Z -> Z :=
  fun r va' old => if (r =? root) && (va' / 4096 =? va / 4096) then v else old.

Lemma set_leaf_ok s l own root va p0 v :
  vm_inv s l own -> root_of own root -> 0 <= va < MAXVA -> 0 <= v < 2 ^ 64 ->
  path0 (ent (ram s)) root va = Some p0 ->
  vm_inv (set_leaf s p0 va v) l own /\ changes (map_one root va v) s l own (set_leaf s p0 va v) l own.
Proof.
  intros [Hfl Hpt Hdj] Hr Hva Hv Hp0.
  pose proof (path0_own kend _ _ _ _ _ Hpt Hr Hp0) as Ho.
  destruct (PX012 va) as (B0 & _ & _).
  assert (page kend p0) as Hpp by (by eapply Hpt).
  assert (agree own (upd (ent (ram s)) p0 (PX 0 va) v) (ent (ram (set_leaf s p0 va v)))) as Hag.
  { intros p j [[[r lv] pre] Hp] Hj. apply ent_store64; try done; [apply Hpp|].
    by eapply Hpt. }
  assert (pt_ok kend own (upd (ent (ram s)) p0 (PX 0 va) v)) as Hpt' by (by eapply pt_ok_upd_leaf).
  split; [split|split].
  - destruct Hfl as (H1 & H2 & H3). split_and!; try done. cbn.
    eapply chain_frame; [exact H3|]. apply Forall_forall. intros x Hx a Ha.
    rewrite Forall_forall in H2. apply rd_store64_ne.
    assert (x <> p0) by (intros ->; rewrite (Hdj p0 Hx) in Ho; done).
    destruct (page_disjoint kend x p0); auto; lia.
  - by eapply pt_ok_agree.
  - done.
  - done.
  - exists []. set_solver.
  - intros r va' Hr' Hva'. rewrite (lk_agree kend own _ _ r va' Hag Hpt' Hr').
    by eapply lk_upd_leaf.
  - intros a Ha. apply rd_store64_ne. specialize (Ha p0 ltac:(eauto)). lia.
  - done.
Qed.

(** ** mappages *)

(** The [n] pages from [a] are mapped to consecutive physical pages from [pa]. *)
Definition map_range (root a pa fl n : Z) : Z -> Z -> Z -> Z :=
  fun r va old =>
    if (r =? root) && (a / 4096 <=? va / 4096) && (va / 4096 <? a / 4096 + n)
    then mkpte (pa + 4096 * (va / 4096 - a / 4096)) fl else old.

Lemma map_range_cons root a pa fl n r va x : 0 <= n ->
  map_range root (a + 4096) (pa + 4096) fl n r va (map_one root a (mkpte pa fl) r va x) =
  map_range root a pa fl (n + 1) r va x.
Proof.
  intros Hn. unfold map_range, map_one.
  rewrite div_add_page.
  destruct (Z.eqb_spec r root); cbn [andb]; [|done].
  zbool; try done; try lia.
  - f_equal. lia.
  - f_equal. lia.
Qed.

Definition map_post (root a pa fl n : Z) s l own (r : Z) (s' : kmem) : Prop :=
  exists j l' own', vm_inv s' l' own' /\ changes (map_range root a pa fl j) s l own s' l' own' /\
    ((r = 0 /\ j = n) \/ (r = -1 /\ 0 <= j < n /\ l' = [])).

Lemma slot_pos s l own root va p0 :
  vm_inv s l own -> root_of own root -> path0 (ent (ram s)) root va = Some p0 ->
  p0 + 8 * PX 0 va <> 0.
Proof.
  intros Hi Hr Hp0. pose proof (path0_own kend _ _ _ _ _ (vi_pt _ _ _ Hi) Hr Hp0) as Ho.
  assert (page kend p0) as Hp by (by eapply (vi_pt _ _ _ Hi)).
  pose proof (page_pos kend kend_kern p0 Hp). destruct (PX012 va). lia.
Qed.

Lemma pte_range pa fl : 0 <= pa < 2 ^ 56 -> 0 <= fl < 1024 -> 0 <= mkpte pa fl < 2 ^ 64.
Proof.
  intros Hp Hf. unfold mkpte.
  assert (0 <= pa / 4096 < 2 ^ 44) by (split; [apply Z.div_pos; lia|apply Z.div_lt_upper_bound; lia]).
  lia.
Qed.

Lemma perm_range perm : 0 <= perm < 1024 -> 0 <= Z.lor perm PTE_V < 1024.
Proof. intros H. apply (lor_bound 10); [lia|done|]. by change PTE_V with 1. Qed.

(** One iteration of the mappages loop, for any continuation. *)
Lemma wp_map_one h s l own root a pa perm (K : M kmem Z) (Q : Z -> kst kmem -> Prop) :
  kmem_lock ∉ h -> vm_inv s l own -> root_of own root -> 0 <= a < MAXVA ->
  0 <= pa < 2 ^ 56 -> 0 <= perm < 1024 ->
  bits_set (lk (ent (ram s)) root a) PTE_V = false ->
  (forall s' own', vm_inv s' [] own' -> extends s l own s' [] own' -> Q (-1) (KSt h s')) ->
  (forall s' l' own', vm_inv s' l' own' ->
     changes (map_one root a (mkpte pa (Z.lor perm PTE_V))) s l own s' l' own' ->
     wp K (KSt h s') Q) ->
  wp (pte ← walk root a true;
      if pte =? 0 then mret (-1) else
      v ← ld pte;
      if bits_set v PTE_V then panic "remap" else
      sd pte (Z.lor (Z.lor (PA2PTE pa) perm) PTE_V) ;; K) (KSt h s) Q.
Proof.
  intros Hh Hi Hr Ha Hpa Hperm Hfree Hfail HK. wstep.
  eapply wp_mono; [by apply (walk_alloc h s l own root a)|].
  intros r [h' s1] (Eh & l1 & own1 & Hi1 & Hx1 & Hcase).
  cbn in Eh, Hi1, Hx1, Hcase. subst h'. destruct Hcase as [(-> & -> & _)|(p0 & Hp0 & ->)].
  - rewrite Z.eqb_refl. wstep. by eapply Hfail.
  - pose proof (root_changes _ _ _ _ _ _ _ _ Hx1 Hr) as Hr1.
    destruct (Z.eqb_spec (p0 + 8 * PX 0 a) 0) as [E|_]; [by destruct (slot_pos _ _ _ _ _ _ Hi1 Hr1 Hp0)|].
    wstep. apply wp_ld. cbn [st].
    assert (load64 (ram s1) (p0 + 8 * PX 0 a) = lk (ent (ram s)) root a) as ->.
    { rewrite <- (ch_lk _ _ _ _ _ _ _ Hx1 root a Hr Ha). unfold lk. by rewrite Hp0. }
    rewrite Hfree. wstep. unfold sd. wstep. rewrite pte_build by done.
    destruct (set_leaf_ok s1 l1 own1 root a p0 (mkpte pa (Z.lor perm PTE_V)) Hi1 Hr1 Ha) as [Hi2 Hx2];
      [by apply pte_range, perm_range|done|].
    eapply HK; [exact Hi2|]. exact (changes_trans _ _ _ _ _ _ _ _ _ _ _ Hx1 Hx2).
Qed.

Lemma mappages_loop_S f root a last pa perm :
  mappages_loop (S f) root a last pa perm =
  (pte ← walk root a true;
   if pte =? 0 then mret (-1) else
   v ← ld pte;
   if bits_set v PTE_V then panic "remap" else
   sd pte (Z.lor (Z.lor (PA2PTE pa) perm) PTE_V) ;;
   if a =? last then mret 0
   else mappages_loop f root (u64 (a + PGSIZE)) last (u64 (pa + PGSIZE)) perm).
Proof. done. Qed.

Lemma map_range_0 root a pa fl r v x : map_range root a pa fl 0 r v x = x.
Proof. unfold map_range. zbool; done || lia. Qed.

Lemma map_range_1 root a pa fl r v x :
  map_one root a (mkpte pa fl) r v x = map_range root a pa fl 1 r v x.
Proof. rewrite <- (map_range_cons root a pa fl 0) by lia. by rewrite map_range_0. Qed.

Lemma map_post_fail root a pa fl n s l own s' own' : 0 < n ->
  vm_inv s' [] own' -> extends s l own s' [] own' -> map_post root a pa fl n s l own (-1) s'.
Proof.
  intros Hn Hi Hx. exists 0, [], own'. split; [done|]. split; [|right; split_and!; done || lia].
  eapply changes_ext; [|exact Hx]. intros. by rewrite map_range_0.
Qed.

(** [map_post] after the first page and then the rest. *)
Lemma map_post_cons root a pa fl n s l own s1 l1 own1 r s2 :
  changes (map_one root a (mkpte pa fl)) s l own s1 l1 own1 ->
  map_post root (a + 4096) (pa + 4096) fl n s1 l1 own1 r s2 -> 0 <= n ->
  map_post root a pa fl (n + 1) s l own r s2.
Proof.
  intros Hx (j & l2 & own2 & Hi2 & Hx2 & Hc) Hn. exists (j + 1), l2, own2. split; [done|]. split.
  - eapply changes_ext; [|exact (changes_trans _ _ _ _ _ _ _ _ _ _ _ Hx Hx2)].
    intros r' v x _. apply map_range_cons. lia.
  - destruct Hc as [(-> & ->)|(-> & Hj & ->)]; [by left|right; split_and!; done || lia].
Qed.

Lemma mappages_loop_spec h n : forall s l own root a pa perm,
  kmem_lock ∉ h -> vm_inv s l own -> root_of own root ->
  0 <= a -> a + 4096 * Z.of_nat n < MAXVA ->
  0 <= pa -> pa + 4096 * Z.of_nat n < 2 ^ 56 -> 0 <= perm < 1024 ->
  (forall j, 0 <= j <= Z.of_nat n -> bits_set (lk (ent (ram s)) root (a + 4096 * j)) PTE_V = false) ->
  wp (mappages_loop (S n) root a (a + 4096 * Z.of_nat n) pa perm) (KSt h s) (fun r k =>
    held k = h /\ map_post root a pa (Z.lor perm PTE_V) (Z.of_nat n + 1) s l own r (st k)).
Proof.
  induction n as [|n IH]; intros s l own root a pa perm Hh Hi Hr Ha0 Hend Hpa0 Hpend Hperm Hfree;
    (assert (bits_set (lk (ent (ram s)) root a) PTE_V = false) as Hf0
      by (specialize (Hfree 0); rewrite Z.add_0_r in Hfree; apply Hfree; lia));
    rewrite mappages_loop_S; apply (wp_map_one h s l own); try done; try lia.
  - intros s' own' Hi' Hx'. split; [done|]. eapply map_post_fail; done || lia.
  - intros s' l' own' Hi' Hx'. destruct (Z.eqb_spec a (a + 4096 * Z.of_nat 0)); [|lia].
    wstep. split; [done|]. exists 1, l', own'. split; [done|]. split; [|by left].
    eapply changes_ext; [|exact Hx']. intros. apply map_range_1.
  - intros s' own' Hi' Hx'. split; [done|]. eapply map_post_fail; done || lia.
  - intros s' l' own' Hi' Hx'. destruct (Z.eqb_spec a (a + 4096 * Z.of_nat (S n))); [lia|].
    assert (MAXVA < 2 ^ 40) by done.
    rewrite !u64_small by (unfold PGSIZE; lia). unfold PGSIZE.
    replace (a + 4096 * Z.of_nat (S n)) with (a + 4096 + 4096 * Z.of_nat n) by lia.
    eapply wp_mono; [apply (IH s' l' own' root (a + 4096) (pa + 4096) perm); try done; try lia|].
    + by eapply root_changes.
    + intros j Hj. rewrite (ch_lk _ _ _ _ _ _ _ Hx' root) by (done || lia). unfold map_one.
      replace (a + 4096 + 4096 * j) with (a + 4096 * (j + 1)) by lia.
      replace ((a + 4096 * (j + 1)) / 4096) with (a / 4096 + (j + 1))
        by (rewrite Z.mul_comm, Z.div_add by lia; lia).
      destruct (Z.eqb_spec (a / 4096 + (j + 1)) (a / 4096)); [lia|]. rewrite andb_false_r.
      apply Hfree. lia.
    + intros r k (Hk & Hpost). split; [done|].
      replace (Z.of_nat (S n) + 1) with (Z.of_nat n + 1 + 1) by lia.
      eapply map_post_cons; done || lia.
Qed.

(** [mappages] of [n] whole pages that are not mapped yet. *)
Lemma mappages_spec h s l own root va n pa perm :
  kmem_lock ∉ h -> vm_inv s l own -> root_of own root ->
  va mod 4096 = 0 -> 0 <= va -> 0 < n -> va + 4096 * n <= MAXVA ->
  0 <= pa -> pa + 4096 * n <= 2 ^ 56 -> 0 <= perm < 1024 ->
  (forall j, 0 <= j < n -> bits_set (lk (ent (ram s)) root (va + 4096 * j)) PTE_V = false) ->
  wp (mappages root va (4096 * n) pa perm) (KSt h s) (fun r k =>
    held k = h /\ map_post root va pa (Z.lor perm PTE_V) n s l own r (st k)).
Proof.
  intros Hh Hi Hr Ha Ha0 Hn Hend Hpa0 Hpend Hperm Hfree. unfold mappages.
  assert (MAXVA < 2 ^ 40) by done.
  assert (PGROUNDDOWN va = va) as E1 by (rewrite PGROUNDDOWN_div; dlia).
  assert (PGROUNDDOWN (u64 (va + 4096 * n - 1)) = va + 4096 * (n - 1)) as E2.
  { rewrite u64_small, PGROUNDDOWN_div by lia. dlia. }
  rewrite E1, E2.
  replace (Z.to_nat (u64 (va + 4096 * (n - 1) - va) / PGSIZE)) with (Z.to_nat (n - 1)).
  2: { f_equal. rewrite u64_small by lia. unfold PGSIZE. dlia. }
  rewrite <- (Z2Nat.id (n - 1)) at 2 by lia.
  eapply wp_mono.
  - apply (mappages_loop_spec h (Z.to_nat (n - 1)) s l own); try done; try lia.
    intros j Hj. apply Hfree. lia.
  - intros r k. by replace (Z.of_nat (Z.to_nat (n - 1)) + 1) with n by lia.
Qed.

(** ** Freeing a page that no table uses *)

Lemma kfree_vm h s l own pa :
  kmem_lock ∉ h -> vm_inv s l own -> page kend pa -> pa ∉ l -> own !! pa = None ->
  wp (kfree kend pa) (KSt h s) (fun _ k => held k = h /\ vm_inv (st k) (pa :: l) own /\
    only_page (ram s) (ram (st k)) pa /\ agree own (ent (ram s)) (ent (ram (st k)))).
Proof.
  intros Hh Hi Hpa Hl Ho.
  eapply wp_mono; [apply (kfree_spec kend kend_kern h s l pa Hh (vi_fl _ _ _ Hi) Hpa Hl)|].
  intros _ [h' s'] (Eh & Hfl & Hop). cbn in *. subst h'.
  assert (agree own (ent (ram s)) (ent (ram s'))) as Hag.
  { apply agree_frame. intros p Hp. eapply (only_page_same kend); eauto using vm_pages.
    intros ->. rewrite Ho in Hp. by destruct Hp. }
  split_and!; try done. split; try done.
  - eapply pt_ok_agree; eauto. apply Hi.
  - intros p Hp. apply elem_of_cons in Hp as [->|Hp]; [done|by apply Hi].
Qed.

(** ** uvmunmap *)

Definition unmap_range (root a n : Z) : Z -> Z -> Z -> Z :=
  fun r va old => if (r =? root) && (a / 4096 <=? va / 4096) && (va / 4096 <? a / 4096 + n)
                  then 0 else old.

(** The physical pages behind [n] virtual pages from [a]. *)
Definition leaves (m : mem) (root a : Z) (n : nat) : list Z :=
  (fun j => PTE2PA (lk (ent m) root (a + 4096 * j))) <$> seqZ 0 (Z.of_nat n).

Definition unmap_post (root a n : Z) (ps : list Z) s l own (s' : kmem) : Prop :=
  vm_inv s' (rev ps ++ l) own /\
  (forall r va, root_of own r -> 0 <= va < MAXVA ->
     lk (ent (ram s')) r va = unmap_range root a n r va (lk (ent (ram s)) r va)) /\
  (forall x, off_tables own x -> (forall p, p ∈ ps -> x < p \/ p + 4096 <= x) ->
     rd (ram s') x = rd (ram s) x).

(** A leaf: valid and not a pointer to a lower table. *)
Definition is_leaf (pte : Z) : Prop := bits_set pte PTE_V = true /\ PTE_FLAGS pte <> PTE_V.

Lemma leaf_path e root va : is_leaf (lk e root va) -> exists p0, path0 e root va = Some p0.
Proof. intros [Hv _]. unfold lk in Hv. destruct (path0 e root va); [eauto|done]. Qed.

Lemma leaves_S m root a n :
  leaves m root a (S n) = PTE2PA (lk (ent m) root a) :: leaves m root (a + 4096) n.
Proof.
  unfold leaves. rewrite Nat2Z.inj_succ, seqZ_cons by lia. rewrite fmap_cons.
  replace (a + 4096 * 0) with a by lia. apply (f_equal (cons _)).
  replace (Z.pred (Z.succ (Z.of_nat n))) with (Z.of_nat n) by lia.
  change (Z.succ 0) with (1 + 0). rewrite <- fmap_add_seqZ, <- list_fmap_compose.
  apply list_fmap_ext. intros _ x _. cbn. do 2 f_equal. lia.
Qed.

Lemma leaves_ext m m' root a n :
  (forall j, 0 <= j < Z.of_nat n -> lk (ent m') root (a + 4096 * j) = lk (ent m) root (a + 4096 * j)) ->
  leaves m' root a n = leaves m root a n.
Proof.
  intros H. apply list_fmap_ext. intros i x Hx. f_equal. apply H.
  apply list_elem_of_lookup_2, elem_of_seqZ in Hx. lia.
Qed.

Lemma uvmunmap_loop_S f root a aend (do_free : bool) :
  uvmunmap_loop kend (S f) root a aend do_free =
  if negb (a <? aend) then mret tt else
    pte ← walk root a false;
    if pte =? 0 then panic "uvmunmap: walk" else
    v ← ld pte;
    if negb (bits_set v PTE_V) then panic "uvmunmap: not mapped" else
    if PTE_FLAGS v =? PTE_V then panic "uvmunmap: not a leaf" else
    (if do_free then kfree kend (PTE2PA v) else mret tt) ;;
    sd pte 0 ;;
    uvmunmap_loop kend f root (u64 (a + PGSIZE)) aend do_free.
Proof. done. Qed.

Definition freed (do_free : bool) (m : mem) root a n : list Z :=
  if do_free then leaves m root a n else [].

(** Pages that may be given back: distinct, in the pool, neither free nor a table. *)
Definition freeable (l : list Z) (own : owner) (ps : list Z) : Prop :=
  NoDup ps /\ Forall (fun p => page kend p /\ (p ∉ l) /\ own !! p = None) ps.

(** Looking up a mapped page and reading its entry, for any continuation. *)
Lemma wp_walk_ld {A} h s l own root a msg (K : Z -> Z -> M kmem A) (Q : A -> kst kmem -> Prop) :
  vm_inv s l own -> root_of own root -> 0 <= a < MAXVA -> is_leaf (lk (ent (ram s)) root a) ->
  (forall p0, path0 (ent (ram s)) root a = Some p0 ->
     wp (K (p0 + 8 * PX 0 a) (lk (ent (ram s)) root a)) (KSt h s) Q) ->
  wp (pte ← walk root a false; if pte =? 0 then panic msg else v ← ld pte; K pte v) (KSt h s) Q.
Proof.
  intros Hi Hr Ha Hleaf HK. destruct (leaf_path _ _ _ Hleaf) as [p0 Hp0].
  wstep. eapply wp_intro; [apply walk_noalloc; lia|]. unfold slot. rewrite Hp0.
  destruct (Z.eqb_spec (p0 + 8 * PX 0 a) 0) as [E|_]; [by destruct (slot_pos _ _ _ _ _ _ Hi Hr Hp0)|].
  wstep. apply wp_ld. cbn [st].
  assert (load64 (ram s) (p0 + 8 * PX 0 a) = lk (ent (ram s)) root a) as ->
    by (unfold lk; by rewrite Hp0).
  by apply HK.
Qed.

(** One iteration of the loop, for any continuation. *)
Lemma wp_unmap_one h s l own root a (do_free : bool) (K : M kmem unit) (Q : unit -> kst kmem -> Prop) :
  kmem_lock ∉ h -> vm_inv s l own -> root_of own root -> 0 <= a < MAXVA ->
  is_leaf (lk (ent (ram s)) root a) ->
  freeable l own (freed do_free (ram s) root a 1) ->
  (forall s', unmap_post root a 1 (freed do_free (ram s) root a 1) s l own s' ->
     wp K (KSt h s') Q) ->
  wp (pte ← walk root a false;
      if pte =? 0 then panic "uvmunmap: walk" else
      v ← ld pte;
      if negb (bits_set v PTE_V) then panic "uvmunmap: not mapped" else
      if PTE_FLAGS v =? PTE_V then panic "uvmunmap: not a leaf" else
      (if do_free then kfree kend (PTE2PA v) else mret tt) ;;
      sd pte 0 ;; K) (KSt h s) Q.
Proof.
  intros Hh Hi Hr Ha Hleaf Hfr HK. eapply wp_walk_ld; [done..|]. intros p0 Hp0.
  destruct Hleaf as [Hv Hnl]. rewrite Hv. cbn [negb].
  destruct (Z.eqb_spec (PTE_FLAGS (lk (ent (ram s)) root a)) PTE_V) as [|_]; [done|].
  assert (forall s1, vm_inv s1 (rev (freed do_free (ram s) root a 1) ++ l) own ->
    agree own (ent (ram s)) (ent (ram s1)) ->
    (forall x, (forall p, p ∈ freed do_free (ram s) root a 1 -> x < p \/ p + 4096 <= x) ->
       rd (ram s1) x = rd (ram s) x) ->
    wp (sd (p0 + 8 * PX 0 a) 0 ;; K) (KSt h s1) Q) as Hstep.
  { intros s1 Hi1 Hag Hfrm. unfold sd. wsteps.
    destruct (set_leaf_ok s1 _ own root a p0 0 Hi1 Hr Ha) as [Hi2 Hx2]; [lia| |].
    { by rewrite (path0_agree kend own (ent (ram s))) by (done || apply Hi). }
    apply (HK (set_leaf s1 p0 a 0)). split_and!; [exact Hi2| |].
    - intros r va Hr' Hva. rewrite (ch_lk _ _ _ _ _ _ _ Hx2 r va Hr' Hva).
      rewrite (lk_agree kend own (ent (ram s))) by (done || apply Hi).
      unfold map_one, unmap_range. zbool; done || lia.
    - intros x Hx Hps. rewrite (ch_frame _ _ _ _ _ _ _ Hx2 x Hx). by apply Hfrm. }
  wstep. destruct do_free; cbn [freed] in *.
  - rewrite leaves_S in Hfr, Hstep. destruct Hfr as [_ Hfr].
    apply Forall_cons in Hfr as [(Hpg & Hnl' & Hno) _].
    eapply wp_mono; [by apply (kfree_vm h s l own)|].
    intros _ [h' s1] (Eh & Hi1 & Hop & Hag). cbn in *. subst h'.
    apply Hstep; [done|done|]. intros x Hx. apply Hop.
    destruct (Hx (PTE2PA (lk (ent (ram s)) root a)) ltac:(set_solver)); lia.
  - wstep. by apply Hstep.
Qed.

Lemma freeable_app l own ps1 ps2 :
  freeable l own (ps1 ++ ps2) -> freeable l own ps1 /\ freeable (rev ps1 ++ l) own ps2.
Proof.
  intros [Hnd Hf]. apply NoDup_app in Hnd as (H1 & Hd & H2). apply Forall_app in Hf as [Hf1 Hf2].
  split; [done|]. split; [done|]. rewrite Forall_forall in Hf2 |- *. intros p Hp.
  destruct (Hf2 p Hp) as (? & ? & ?). split_and!; try done.
  rewrite elem_of_app. intros [Hin|]; [|done]. apply (Hd p); [|done].
  by rewrite list_elem_of_In, <- in_rev, <- list_elem_of_In in Hin.
Qed.

Lemma unmap_range_cons root a n r va x : 0 <= n ->
  unmap_range root (a + 4096) n r va (unmap_range root a 1 r va x) = unmap_range root a (n + 1) r va x.
Proof.
  intros Hn. unfold unmap_range. rewrite div_add_page.
  destruct (Z.eqb_spec r root); cbn [andb]; [|done]. zbool; done || lia.
Qed.

Lemma unmap_post_cons root a n ps1 ps2 s l own s1 s2 : 0 <= n ->
  unmap_post root a 1 ps1 s l own s1 ->
  unmap_post root (a + 4096) n ps2 s1 (rev ps1 ++ l) own s2 ->
  unmap_post root a (n + 1) (ps1 ++ ps2) s l own s2.
Proof.
  intros Hn (Hi1 & Hl1 & Hf1) (Hi2 & Hl2 & Hf2). split_and!.
  - by rewrite rev_app_distr, <- app_assoc.
  - intros r va Hr Hva. rewrite Hl2, Hl1 by done. by apply unmap_range_cons.
  - intros x Hx Hps. rewrite Hf2, Hf1; try done; intros p Hp; apply Hps; set_solver.
Qed.

(** The pages after the first are untouched by unmapping the first. *)
Lemma unmap_post_later root a ps s l own s1 j :
  unmap_post root a 1 ps s l own s1 -> root_of own root -> 0 <= a -> 0 <= j ->
  a + 4096 + 4096 * j < MAXVA ->
  lk (ent (ram s1)) root (a + 4096 + 4096 * j) = lk (ent (ram s)) root (a + 4096 + 4096 * j).
Proof.
  intros (_ & Hl & _) Hr Ha Hj Hlt. rewrite Hl by (done || lia). unfold unmap_range.
  replace (a + 4096 + 4096 * j) with (a + (j + 1) * 4096) by lia.
  rewrite Z.div_add by lia. zbool; rewrite ?andb_false_r; done || lia.
Qed.

Lemma uvmunmap_loop_spec h n : forall s l own root a (do_free : bool),
  kmem_lock ∉ h -> vm_inv s l own -> root_of own root -> 0 <= a ->
  a + 4096 * Z.of_nat n <= MAXVA ->
  (forall j, 0 <= j < Z.of_nat n -> is_leaf (lk (ent (ram s)) root (a + 4096 * j))) ->
  freeable l own (freed do_free (ram s) root a n) ->
  wp (uvmunmap_loop kend n root a (a + 4096 * Z.of_nat n) do_free) (KSt h s) (fun _ k =>
    held k = h /\ unmap_post root a (Z.of_nat n) (freed do_free (ram s) root a n) s l own (st k)).
Proof.
  induction n as [|n IH]; intros s l own root a do_free Hh Hi Hr Ha Hend Hleaf Hfr.
  - cbn [uvmunmap_loop]. destruct (Z.ltb_spec a (a + 4096 * Z.of_nat 0)); [lia|]. cbn [negb]. wstep.
    split; [done|]. assert (freed do_free (ram s) root a 0 = []) as -> by (by destruct do_free).
    split_and!; try done. intros r va Hr' Hva. unfold unmap_range. zbool; rewrite ?andb_false_r; done || lia.
  - rewrite uvmunmap_loop_S. destruct (Z.ltb_spec a (a + 4096 * Z.of_nat (S n))); [|lia]. cbn [negb].
    assert (is_leaf (lk (ent (ram s)) root a)) as Hl0.
    { specialize (Hleaf 0). rewrite Z.add_0_r in Hleaf. apply Hleaf. lia. }
    assert (freed do_free (ram s) root a (S n) =
            freed do_free (ram s) root a 1 ++ freed do_free (ram s) root (a + 4096) n) as Efr.
    { destruct do_free; [|done]. cbn [freed]. by rewrite leaves_S, (leaves_S _ _ _ 0). }
    rewrite Efr in *. apply freeable_app in Hfr as [Hfr1 Hfr2].
    assert (MAXVA < 2 ^ 40) by done.
    apply (wp_unmap_one h s l own); try done; [lia|]. intros s1 Hp1.
    rewrite u64_small by (unfold PGSIZE; lia). unfold PGSIZE.
    assert (forall j, 0 <= j < Z.of_nat n ->
      lk (ent (ram s1)) root (a + 4096 + 4096 * j) = lk (ent (ram s)) root (a + 4096 + 4096 * j)) as Hlater.
    { intros j Hj. eapply unmap_post_later; done || lia. }
    assert (freed do_free (ram s1) root (a + 4096) n = freed do_free (ram s) root (a + 4096) n) as Ef1.
    { destruct do_free; [|done]. by apply leaves_ext. }
    replace (a + 4096 * Z.of_nat (S n)) with (a + 4096 + 4096 * Z.of_nat n) by lia.
    eapply wp_mono; [apply (IH s1 (rev (freed do_free (ram s) root a 1) ++ l) own root (a + 4096) do_free);
      try done; try lia|].
    + apply Hp1.
    + intros j Hj. rewrite Hlater by done. replace (a + 4096 + 4096 * j) with (a + 4096 * (j + 1)) by lia.
      apply Hleaf. lia.
    + by rewrite Ef1.
    + intros _ k (Hk & Hp2). split; [done|]. rewrite Ef1 in Hp2.
      replace (Z.of_nat (S n)) with (Z.of_nat n + 1) by lia. eapply unmap_post_cons; done || lia.
Qed.

Lemma uvmunmap_spec h s l own root va n (do_free : bool) :
  kmem_lock ∉ h -> vm_inv s l own -> root_of own root -> va mod 4096 = 0 -> 0 <= va -> 0 <= n ->
  va + 4096 * n <= MAXVA ->
  (forall j, 0 <= j < n -> is_leaf (lk (ent (ram s)) root (va + 4096 * j))) ->
  freeable l own (freed do_free (ram s) root va (Z.to_nat n)) ->
  wp (uvmunmap kend root va n do_free) (KSt h s) (fun _ k =>
    held k = h /\ unmap_post root va n (freed do_free (ram s) root va (Z.to_nat n)) s l own (st k)).
Proof.
  intros Hh Hi Hr Ha Ha0 Hn Hend Hleaf Hfr. unfold uvmunmap. change PGSIZE with 4096. rewrite Ha.
  cbn [negb Z.eqb]. assert (MAXVA < 2 ^ 40) by done.
  rewrite u64_small by lia. rewrite <- (Z2Nat.id n) in * by lia. rewrite Nat2Z.id in *.
  rewrite (Z.mul_comm (Z.of_nat _) 4096). apply uvmunmap_loop_spec; done.
Qed.
End VmSpec.
