(* ===== verification/VmCopy.v ===== *)
(** * copyout and copyin: kernel access to user memory

    [uaddr m root va] is the physical address a user access to [va] reaches (valid,
    user-accessible leaf), [None] when there is no such page.  The theorems say that
    the page-wise loops of copyout/copyin move exactly the requested bytes through
    that translation, whatever the page boundaries, and fail on the first bad page. *)
From S2P Require Import Prelude Mem Riscv Kalloc Vm VmTree VmSpec.

Definition user_leaf (pte : Z) : bool := bits_set pte PTE_V && bits_set pte PTE_U.

Definition uaddr (m : mem) (root va : Z) : option Z :=
  if (0 <=? va) && (va <? MAXVA) && user_leaf (lk (ent m) root va)
  then Some (PTE2PA (lk (ent m) root va) + va mod 4096) else None.

Section Copy.
Variable kend : Z.
Hypothesis kend_kern : KERNBASE <= kend.

Lemma walkaddr_eq h s own root va :
  pt_ok kend own (ent (ram s)) -> root_of own root -> 0 <= va ->
  walkaddr root va (KSt h s) =
    Ok (match uaddr (ram s) root va with Some pa => pa - va mod 4096 | None => 0 end) (KSt h s).
Proof.
  intros Hok Hr Hva. unfold walkaddr, uaddr.
  destruct (Z.leb_spec 0 va); [|lia]. cbn [andb].
  destruct (Z.leb_spec MAXVA va) as [Hm|Hm]; destruct (Z.ltb_spec va MAXVA); try lia; [done|].
  cbn [andb]. unfold mbind, M_bind. rewrite walk_noalloc by done. unfold slot, lk, user_leaf.
  destruct (path0 (ent (ram s)) root va) as [p0|] eqn:Hp0; [|done].
  pose proof (path0_own kend _ _ _ _ _ Hok Hr Hp0) as Ho.
  assert (page kend p0) as Hp by (by eapply Hok).
  pose proof (page_pos kend kend_kern p0 Hp). destruct (PX012 va).
  destruct (Z.eqb_spec (p0 + 8 * PX 0 va) 0); [lia|].
  unfold ld, gets, ent. cbn [st].
  destruct (bits_set _ PTE_V); [|done]. destruct (bits_set _ PTE_U); [|done]. cbn [negb andb].
  unfold mret, M_ret. f_equal. lia.
Qed.

(** Two memories with the same page tables translate alike. *)
Definition same_tables (own : owner) (m m' : mem) : Prop :=
  forall p a, is_Some (own !! p) -> p <= a < p + 4096 -> rd m' a = rd m a.

Lemma same_tables_agree own m m' : same_tables own m m' -> agree own (ent m) (ent m').
Proof. intros H. apply agree_frame. intros p Hp a Ha. by apply (H p). Qed.

Lemma uaddr_same own m m' root va :
  pt_ok kend own (ent m) -> root_of own root -> same_tables own m m' ->
  uaddr m' root va = uaddr m root va.
Proof.
  intros Hok Hr Hs. unfold uaddr.
  by rewrite (lk_agree kend own (ent m) (ent m') root va) by (done || by apply same_tables_agree).
Qed.

(** Within one page the physical addresses are consecutive. *)
Lemma uaddr_page m root va i pa :
  uaddr m root va = Some pa -> 0 <= i -> va mod 4096 + i < 4096 -> uaddr m root (va + i) = Some (pa + i).
Proof.
  unfold uaddr. intros H Hi Hlt.
  destruct (Z.leb_spec 0 va); [|done]. destruct (Z.ltb_spec va MAXVA) as [Hm|]; [|done].
  assert ((va + i) / 4096 = va / 4096) as Ev by dlia.
  assert (va + i < MAXVA) by (unfold MAXVA in *; change (Z.shiftl 1 (9 + 9 + 9 + 12 - 1)) with (4096 * 2 ^ 26) in *; dlia).
  destruct (Z.leb_spec 0 (va + i)); [|lia]. destruct (Z.ltb_spec (va + i) MAXVA); [|lia].
  rewrite (lk_same_vpn _ _ (va + i) va Ev). cbn [andb] in *.
  destruct (user_leaf _); [|done]. injection H as <-. f_equal. dlia.
Qed.

Lemma uaddr_rounddown m root va : 0 <= va ->
  uaddr m root (PGROUNDDOWN va) = (fun pa => pa - va mod 4096) <$> uaddr m root va.
Proof.
  intros Hva. rewrite PGROUNDDOWN_div. unfold uaddr.
  assert (MAXVA = 4096 * 2 ^ 26) as HM by done.
  rewrite (lk_same_vpn _ _ (va / 4096 * 4096) va) by (by rewrite Z.div_mul).
  rewrite (Z.mod_mul (va / 4096)) by lia.
  destruct (Z.leb_spec 0 va), (Z.leb_spec 0 (va / 4096 * 4096)); try dlia.
  destruct (Z.ltb_spec va MAXVA), (Z.ltb_spec (va / 4096 * 4096) MAXVA); try dlia; [|done].
  cbn [andb]. destruct (user_leaf _); [|done]. cbn. f_equal. lia.
Qed.

(** The user range [va, va+len) is mapped, away from the page tables, and (for the
    destination of a copy) without two addresses sharing a byte. *)
Definition umapped (own : owner) (m : mem) (root va len : Z) : Prop :=
  forall i, 0 <= i < len -> exists pa, uaddr m root (va + i) = Some pa /\ 4096 <= pa /\ off_tables own pa.
Definition uinj (m : mem) (root va len : Z) : Prop :=
  forall i j pa, 0 <= i < len -> 0 <= j < len ->
    uaddr m root (va + i) = Some pa -> uaddr m root (va + j) = Some pa -> i = j.
(** The kernel buffer [a, a+len) is no byte of the user range. *)
Definition ufresh (m : mem) (root va a len : Z) : Prop :=
  forall i j, 0 <= i < len -> 0 <= j < len -> uaddr m root (va + i) <> Some (a + j).

(** First chunk of a copy at [va]: its physical start and length. *)
Definition chunk (va len : Z) : Z := Z.min (PGSIZE - (va - PGROUNDDOWN va)) len.

Lemma chunk_bounds va len : 0 <= va -> 0 < len ->
  0 < chunk va len <= len /\ va mod 4096 + chunk va len <= 4096 /\
  va - PGROUNDDOWN va = va mod 4096 /\
  (chunk va len < len -> va + chunk va len = PGROUNDDOWN va + 4096).
Proof. intros H1 H2. unfold chunk, PGSIZE. rewrite PGROUNDDOWN_div. dlia. Qed.

Lemma umapped_sub own m root va len k : 0 <= k <= len ->
  umapped own m root va len -> umapped own m root (va + k) (len - k).
Proof.
  intros Hk H i Hi. replace (va + k + i) with (va + (k + i)) by lia. apply H. lia.
Qed.

Lemma umapped_lt own m root va len : 0 < len -> umapped own m root va len -> 0 <= va /\ va + len <= MAXVA.
Proof.
  intros Hl H. destruct (H 0) as (p & Hp & _); [lia|]. destruct (H (len - 1)) as (q & Hq & _); [lia|].
  unfold uaddr in *. revert Hp Hq.
  zbool; cbn [andb]; intros; try done; lia.
Qed.

(** ** copyout *)

(** [m'] is [m] with the kernel bytes from [src] stored at the user range. *)
Definition copied_out (m m' : mem) (root va src len : Z) : Prop :=
  (forall i pa, 0 <= i < len -> uaddr m root (va + i) = Some pa -> rd m' pa = rd m (src + i)) /\
  (forall x, (forall i, 0 <= i < len -> uaddr m root (va + i) <> Some x) -> rd m' x = rd m x).

Lemma copied_out_tables own m m' root va src len :
  umapped own m root va len -> copied_out m m' root va src len -> same_tables own m m'.
Proof.
  intros Hu [_ Hf] p a Hp Ha. apply Hf. intros i Hi Hx.
  destruct (Hu i Hi) as (pa & Hpa & _ & Hoff). rewrite Hx in Hpa. injection Hpa as <-.
  destruct (Hoff p Hp); lia.
Qed.

Lemma memmove_chunk m root va src n pa :
  uaddr m root va = Some pa -> 0 <= n -> va mod 4096 + n <= 4096 ->
  copied_out m (memmove m pa src n) root va src n.
Proof.
  intros Hpa Hn Hle. split.
  - intros i x Hi Hx. rewrite (uaddr_page _ _ _ i _ Hpa) in Hx by lia. injection Hx as <-.
    rewrite rd_memmove by lia. zbool; lia || (f_equal; lia).
  - intros x Hx. rewrite rd_memmove by lia. zbool; try done. exfalso.
    apply (Hx (x - pa)); [lia|]. rewrite (uaddr_page _ _ _ _ _ Hpa) by lia. f_equal. lia.
Qed.

Lemma copied_out_app own m m1 m2 root va src n len :
  pt_ok kend own (ent m) -> root_of own root -> 0 <= n <= len ->
  umapped own m root va len -> uinj m root va len -> ufresh m root va src len ->
  copied_out m m1 root va src n -> copied_out m1 m2 root (va + n) (src + n) (len - n) ->
  copied_out m m2 root va src len.
Proof.
  intros Hok Hr Hn Hu Hinj Hfr H1 [H2 H2'].
  assert (umapped own m root va n) as Hun by (intros i Hi; apply Hu; lia).
  pose proof (copied_out_tables _ _ _ _ _ _ _ Hun H1) as Hst.
  assert (forall a, uaddr m1 root a = uaddr m root a) as Hua by (intros a; by eapply uaddr_same).
  destruct H1 as [H1 H1']. split.
  - intros i pa Hi Hpa. destruct (decide (i < n)) as [Hlt|Hge].
    + rewrite H2'; [by apply H1; [lia|]|]. intros j Hj. rewrite Hua.
      replace (va + n + j) with (va + (n + j)) by lia. intros E.
      assert (i = n + j) by (eapply (Hinj i (n + j)); eauto; lia). lia.
    + rewrite (H2 (i - n) pa) by (lia || (rewrite Hua, <- Hpa; f_equal; lia)).
      rewrite H1'; [f_equal; lia|]. intros j Hj. replace (src + n + (i - n)) with (src + i) by lia.
      apply Hfr; lia.
  - intros x Hx. rewrite H2', H1'; [done|..].
    + intros i Hi. apply Hx. lia.
    + intros i Hi. rewrite Hua. replace (va + n + i) with (va + (n + i)) by lia. apply Hx. lia.
Qed.

(** The first [k] of the [len] bytes at [va] are mapped: all of them, or those
    below the first bad page. *)
Definition umapped_to (own : owner) (m : mem) (root va len k : Z) : Prop :=
  0 <= k <= len /\ umapped own m root va k /\ (k < len -> uaddr m root (va + k) = None).

(** A chunk never runs past the first bad page. *)
Lemma chunk_mapped own m root va len k : 0 < k ->
  umapped_to own m root va len k -> chunk va len <= k.
Proof.
  intros Hk (Hkl & Hu & Hend). destruct (decide (k < len)) as [Hlt|]; cycle 1.
  { assert (k = len) as -> by lia. unfold chunk. lia. }
  destruct (umapped_lt own m root va k Hk Hu) as [Hva _].
  destruct (chunk_bounds va len Hva) as (H1 & H2 & H3 & H4); [lia|].
  destruct (decide (chunk va len <= k)) as [|Hn]; [done|exfalso].
  destruct (Hu 0 ltac:(lia)) as (pa & Hpa & _). rewrite Z.add_0_r in Hpa.
  rewrite (uaddr_page m root va k pa) in Hend by (done || lia). by specialize (Hend Hlt).
Qed.

(** What one iteration of either loop finds at a mapped address. *)
Lemma walk_chunk h s own root va len :
  pt_ok kend own (ent (ram s)) -> root_of own root -> 0 < len -> umapped own (ram s) root va len ->
  exists pa, uaddr (ram s) root va = Some pa /\ pa - va mod 4096 <> 0 /\
    walkaddr root (PGROUNDDOWN va) (KSt h s) = Ok (pa - va mod 4096) (KSt h s).
Proof.
  intros Hok Hr Hl Hu. destruct (umapped_lt own (ram s) root va len Hl Hu) as [Hva _].
  destruct (Hu 0 ltac:(lia)) as (pa & Hpa & Hpos & _). rewrite Z.add_0_r in Hpa.
  pose proof (Z.mod_pos_bound va 4096). exists pa. split_and!; [done|lia|].
  assert (0 <= PGROUNDDOWN va) by (rewrite PGROUNDDOWN_div; dlia).
  rewrite (walkaddr_eq h s own), uaddr_rounddown, Hpa by done. cbn.
  by rewrite PGROUNDDOWN_div, Z.mod_mul, Z.sub_0_r by lia.
Qed.

(** ... and at a bad one. *)
Lemma walk_bad h s own root va :
  pt_ok kend own (ent (ram s)) -> root_of own root -> 0 <= va -> uaddr (ram s) root va = None ->
  walkaddr root (PGROUNDDOWN va) (KSt h s) = Ok 0 (KSt h s).
Proof.
  intros Hok Hr Hva Hn. assert (0 <= PGROUNDDOWN va) by (rewrite PGROUNDDOWN_div; dlia).
  by rewrite (walkaddr_eq h s own), uaddr_rounddown, Hn by done.
Qed.

Lemma next_page va len k : 0 <= va -> va + k <= MAXVA -> 0 < len -> chunk va len <= k ->
  chunk va len <> len -> u64 (PGROUNDDOWN va + PGSIZE) = va + chunk va len.
Proof.
  intros Hva Hm Hl Hk Hne. destruct (chunk_bounds va len Hva Hl) as (? & ? & ? & H4).
  assert (MAXVA < 2 ^ 40) by done. change PGSIZE with 4096. rewrite <- H4, u64_small by lia. done.
Qed.

Lemma umapped_to_sub own m m' root va len k n :
  (forall a, uaddr m' root a = uaddr m root a) -> 0 <= n <= k ->
  umapped_to own m root va len k -> umapped_to own m' root (va + n) (len - n) (k - n).
Proof.
  intros Hua Hn (Hk & Hu & He). split_and!; [lia..| |].
  - intros i Hi. rewrite Hua. revert i Hi. apply umapped_sub; [lia|done].
  - intros Hlt. rewrite Hua, <- Z.add_assoc, Zplus_minus. apply He. lia.
Qed.

Lemma copyout_loop_0 f root va src : copyout_loop f root va src 0 = mret 0.
Proof. by destruct f. Qed.

Lemma copyout_loop_spec h f : forall s own root va src len k,
  pt_ok kend own (ent (ram s)) -> root_of own root -> 0 <= va -> len <= Z.of_nat f ->
  umapped_to own (ram s) root va len k -> uinj (ram s) root va k -> ufresh (ram s) root va src k ->
  wp (copyout_loop f root va src len) (KSt h s) (fun r k' => r = (if k =? len then 0 else -1) /\
    held k' = h /\ freelist (st k') = freelist s /\ copied_out (ram s) (ram (st k')) root va src k).
Proof.
  induction f as [|f IH]; intros s own root va src len k Hok Hr Hva Hlen Hto Hinj Hfr;
    pose proof Hto as (Hk & Hu & He);
    (destruct (decide (len = 0)) as [->|Hpos];
     [assert (k = 0) as -> by lia; rewrite copyout_loop_0; wstep; split_and!; try done; split; [lia|done]|]);
    [lia|].
  cbn [copyout_loop]. destruct (Z.ltb_spec 0 len); [|lia]. cbn [negb].
  destruct (decide (k = 0)) as [->|Hk0].
  { wstep. eapply wp_intro; [apply (walk_bad h s own); try done; rewrite <- (Z.add_0_r va); apply He; lia|].
    cbv beta. rewrite Z.eqb_refl. wstep. destruct (Z.eqb_spec 0 len); [lia|]. split_and!; try done. split; [lia|done]. }
  destruct (umapped_lt own (ram s) root va k) as [_ Hvl]; [lia|done|].
  pose proof (chunk_mapped own (ram s) root va len k ltac:(lia) Hto) as Hck.
  destruct (chunk_bounds va len Hva ltac:(lia)) as (Hc1 & Hc2 & Hc3 & Hc4).
  destruct (walk_chunk h s own root va k) as (pa & Hpa & Hnz & Hw); try done; [lia|].
  wstep. eapply wp_intro; [exact Hw|]. cbv beta.
  destruct (Z.eqb_spec (pa - va mod 4096) 0); [done|]. fold (chunk va len). rewrite Hc3, Z.sub_add.
  unfold on_ram. wstep. wstep. cbn [held st].
  set (m1 := memmove (ram s) pa src (chunk va len)).
  assert (copied_out (ram s) m1 root va src (chunk va len)) as Hco by (apply memmove_chunk; done || lia).
  assert (umapped own (ram s) root va (chunk va len)) as Hun by (intros i Hi; apply Hu; lia).
  pose proof (copied_out_tables _ _ _ _ _ _ _ Hun Hco) as Hst.
  assert (forall a, uaddr m1 root a = uaddr (ram s) root a) as Hua by (intros a; by eapply uaddr_same).
  destruct (decide (chunk va len = len)) as [E|Hne].
  { assert (k = len) as -> by lia. rewrite E, Z.sub_diag, copyout_loop_0. wstep.
    rewrite Z.eqb_refl. rewrite E in Hco. done. }
  rewrite (next_page va len k) by (done || lia).
  eapply wp_mono; [apply (IH (Kmem m1 (freelist s)) own root (va + chunk va len)
     (src + chunk va len) (len - chunk va len) (k - chunk va len)); cbn [ram]; try done; try lia|].
  - eapply pt_ok_agree; [by apply same_tables_agree|done].
  - by eapply umapped_to_sub; eauto; lia.
  - intros i j p Hi Hj. rewrite !Hua, <- !Z.add_assoc. intros Ei Ej.
    assert (chunk va len + i = chunk va len + j) by (eapply Hinj; eauto; lia). lia.
  - intros i j Hi Hj. rewrite Hua, <- !Z.add_assoc. apply Hfr; lia.
  - intros r k' (-> & Hk' & Hf & H2). cbn [ram] in H2. split_and!; try done.
    + zbool; lia.
    + eapply copied_out_app; eauto. lia.
Qed.

(** ** copyin *)

(** [m'] is [m] with the user bytes stored at the kernel buffer [dst, dst+len). *)
Definition copied_in (m m' : mem) (root dst va len : Z) : Prop :=
  (forall i pa, 0 <= i < len -> uaddr m root (va + i) = Some pa -> rd m' (dst + i) = rd m pa) /\
  (forall x, ~ dst <= x < dst + len -> rd m' x = rd m x).
Definition buf_off (own : owner) (dst len : Z) : Prop :=
  forall i, 0 <= i < len -> off_tables own (dst + i).

Lemma copied_in_tables own m m' root dst va len :
  buf_off own dst len -> copied_in m m' root dst va len -> same_tables own m m'.
Proof.
  intros Hb [_ Hf] p a Hp Ha. apply Hf. intros Hin.
  assert (off_tables own (dst + (a - dst))) as Hoff by (apply Hb; lia).
  destruct (Hoff p Hp); lia.
Qed.

Lemma memmove_chunk_in m root dst va n pa :
  uaddr m root va = Some pa -> 0 <= n -> va mod 4096 + n <= 4096 ->
  copied_in m (memmove m dst pa n) root dst va n.
Proof.
  intros Hpa Hn Hle. split.
  - intros i x Hi Hx. rewrite (uaddr_page _ _ _ i _ Hpa) in Hx by lia. injection Hx as <-.
    rewrite rd_memmove by lia. zbool; lia || (f_equal; lia).
  - intros x Hx. rewrite rd_memmove by lia. zbool; try done. lia.
Qed.

Lemma copied_in_app own m m1 m2 root dst va n len :
  pt_ok kend own (ent m) -> root_of own root -> 0 <= n <= len ->
  umapped own m root va len -> buf_off own dst len -> ufresh m root va dst len ->
  copied_in m m1 root dst va n -> copied_in m1 m2 root (dst + n) (va + n) (len - n) ->
  copied_in m m2 root dst va len.
Proof.
  intros Hok Hr Hn Hu Hb Hfr H1 [H2 H2'].
  assert (buf_off own dst n) as Hbn by (intros i Hi; apply Hb; lia).
  pose proof (copied_in_tables _ _ _ _ _ _ _ Hbn H1) as Hst.
  assert (forall a, uaddr m1 root a = uaddr m root a) as Hua by (intros a; by eapply uaddr_same).
  destruct H1 as [H1 H1']. split.
  - intros i pa Hi Hpa. destruct (decide (i < n)) as [Hlt|Hge].
    + rewrite H2' by lia. by apply H1; [lia|].
    + replace (dst + i) with (dst + n + (i - n)) by lia.
      rewrite (H2 (i - n) pa) by (lia || (rewrite Hua, <- Hpa; f_equal; lia)).
      apply H1'. intros Hin. apply (Hfr i (pa - dst)); [lia..|]. rewrite Hpa. f_equal. lia.
  - intros x Hx. rewrite H2', H1' by lia. done.
Qed.

Lemma copyin_loop_0 f root dst va : copyin_loop f root dst va 0 = mret 0.
Proof. by destruct f. Qed.

Lemma copyin_loop_spec h f : forall s own root dst va len k,
  pt_ok kend own (ent (ram s)) -> root_of own root -> 0 <= va -> len <= Z.of_nat f ->
  umapped_to own (ram s) root va len k -> buf_off own dst k -> ufresh (ram s) root va dst k ->
  wp (copyin_loop f root dst va len) (KSt h s) (fun r k' => r = (if k =? len then 0 else -1) /\
    held k' = h /\ freelist (st k') = freelist s /\ copied_in (ram s) (ram (st k')) root dst va k).
Proof.
  induction f as [|f IH]; intros s own root dst va len k Hok Hr Hva Hlen Hto Hb Hfr;
    pose proof Hto as (Hk & Hu & He);
    (destruct (decide (len = 0)) as [->|Hpos];
     [assert (k = 0) as -> by lia; rewrite copyin_loop_0; wstep; split_and!; try done; split; [lia|done]|]);
    [lia|].
  cbn [copyin_loop]. destruct (Z.ltb_spec 0 len); [|lia]. cbn [negb].
  destruct (decide (k = 0)) as [->|Hk0].
  { wstep. eapply wp_intro; [apply (walk_bad h s own); try done; rewrite <- (Z.add_0_r va); apply He; lia|].
    cbv beta. rewrite Z.eqb_refl. wstep. destruct (Z.eqb_spec 0 len); [lia|].
    split_and!; try done. split; [lia|done]. }
  destruct (umapped_lt own (ram s) root va k) as [_ Hvl]; [lia|done|].
  pose proof (chunk_mapped own (ram s) root va len k ltac:(lia) Hto) as Hck.
  destruct (chunk_bounds va len Hva ltac:(lia)) as (Hc1 & Hc2 & Hc3 & Hc4).
  destruct (walk_chunk h s own root va k) as (pa & Hpa & Hnz & Hw); try done; [lia|].
  wstep. eapply wp_intro; [exact Hw|]. cbv beta.
  destruct (Z.eqb_spec (pa - va mod 4096) 0); [done|]. fold (chunk va len). rewrite Hc3, Z.sub_add.
  unfold on_ram. wstep. wstep. cbn [held st].
  set (m1 := memmove (ram s) dst pa (chunk va len)).
  assert (copied_in (ram s) m1 root dst va (chunk va len)) as Hco by (apply memmove_chunk_in; done || lia).
  assert (buf_off own dst (chunk va len)) as Hbn by (intros i Hi; apply Hb; lia).
  pose proof (copied_in_tables _ _ _ _ _ _ _ Hbn Hco) as Hst.
  assert (forall a, uaddr m1 root a = uaddr (ram s) root a) as Hua by (intros a; by eapply uaddr_same).
  destruct (decide (chunk va len = len)) as [E|Hne].
  { assert (k = len) as -> by lia. rewrite E, Z.sub_diag, copyin_loop_0. wstep.
    rewrite Z.eqb_refl. rewrite E in Hco. done. }
  rewrite (next_page va len k) by (done || lia).
  eapply wp_mono; [apply (IH (Kmem m1 (freelist s)) own root (dst + chunk va len)
     (va + chunk va len) (len - chunk va len) (k - chunk va len)); cbn [ram]; try done; try lia|].
  - eapply pt_ok_agree; [by apply same_tables_agree|done].
  - by eapply umapped_to_sub; eauto; lia.
  - intros i Hi. rewrite <- Z.add_assoc. apply Hb. lia.
  - intros i j Hi Hj. rewrite Hua, <- !Z.add_assoc. apply Hfr; lia.
  - intros r k' (-> & Hk' & Hf & H2). cbn [ram] in H2. split_and!; try done.
    + zbool; lia.
    + eapply copied_in_app; eauto. lia.
Qed.
End Copy.
