(* ===== verification/VmAlloc.v ===== *)
(** * uvmalloc and uvmcopy: growing an address space, all or nothing

    Both routines give fresh pages, one by one, to consecutive virtual pages, and on
    the first failure take back everything they gave.  [grown] describes the state
    part-way through; [wp_grow_page] is one iteration and [grown_undo] the clean-up. *)
From S2P Require Import Prelude Mem Riscv Kalloc Vm VmTree VmSpec.

Section Grow.
Variable kend : Z.
Hypothesis kend_kern : KERNBASE <= kend.

(** Address [x] lies outside page [p]. *)
Definition off_page (x p : Z) : Prop := x < p \/ p + 4096 <= x.

(** The leaf of [va] once pages [ps] serve the virtual pages from [a]; [fl j] are
    the flags of the [j]-th. *)
Definition alloc_range (root a : Z) (fl : nat -> Z) (ps : list Z) (r va old : Z) : Z :=
  if (r =? root) && (a / 4096 <=? va / 4096) then
    let j := Z.to_nat (va / 4096 - a / 4096) in
    match ps !! j with Some p => mkpte p (fl j) | None => old end
  else old.

Variables (root a0 : Z) (fl : nat -> Z) (data : nat -> Z -> Z).
Variables (s0 : kmem) (l0 : list Z) (own0 : owner).
Hypothesis inv0 : vm_inv kend s0 l0 own0.
Hypothesis root0 : root_of own0 root.
Hypothesis a0_ok : a0 mod 4096 = 0 /\ 0 <= a0.
Hypothesis fl_ok' : forall j, 0 <= fl j < 1024 /\ bits_set (fl j) PTE_V = true /\ fl j <> PTE_V.

(** Bytes that neither the tables nor the free pages of the start state occupy. *)
Definition outside (x : Z) : Prop := off_tables own0 x /\ forall p, p ∈ l0 -> off_page x p.

Record grown (ps : list Z) (s : kmem) (l : list Z) (own : owner) : Prop := {
  gr_inv : vm_inv kend s l own;
  gr_own : own0 ⊆ own;
  gr_list : exists ts, l0 ≡ₚ l ++ ps ++ ts /\
    forall p, is_Some (own !! p) <-> is_Some (own0 !! p) \/ p ∈ ts;
  gr_lk : forall r va, root_of own0 r -> 0 <= va < MAXVA ->
    lk (ent (ram s)) r va = alloc_range root a0 fl ps r va (lk (ent (ram s0)) r va);
  gr_data : forall j p o, ps !! j = Some p -> 0 <= o < 4096 -> rd (ram s) (p + o) = data j o;
  gr_frame : forall x, outside x -> rd (ram s) x = rd (ram s0) x;
  gr_root : forall r, root_of own r -> root_of own0 r;
}.

Lemma grown_refl : grown [] s0 l0 own0.
Proof.
  clear kend_kern root0 a0_ok fl_ok'.
  split; try done.
  - exists []. rewrite !app_nil_r. split; [done|]. set_solver.
  - intros. unfold alloc_range. by destruct (_ && _).
Qed.

Lemma l0_pages p : p ∈ l0 -> page kend p.
Proof. destruct (vi_fl _ _ _ _ inv0) as (_ & H & _). rewrite Forall_forall in H. apply H. Qed.

(** The pages in play are pairwise distinct members of the pool. *)
Lemma grown_fresh ps s l own : grown ps s l own ->
  NoDup (l ++ ps) /\ (forall p, p ∈ l ++ ps -> p ∈ l0 /\ page kend p /\ own !! p = None).
Proof.
  intros G. destruct (gr_list _ _ _ _ G) as (ts & Hp & Hd).
  destruct (vi_fl _ _ _ _ inv0) as (Hnd & _ & _). rewrite Hp, app_assoc in Hnd.
  apply NoDup_app in Hnd as (Hnd & Hts & _). split; [done|]. intros p Hin.
  assert (p ∈ l0) as H0 by (rewrite Hp; set_solver).
  split_and!; [done|by apply l0_pages|]. apply eq_None_not_Some. rewrite Hd.
  rewrite (vi_dj _ _ _ _ inv0 p H0). intros [[? ?]|Hin']; [done|]. by apply (Hts p).
Qed.

Lemma off_off own own' x : own ⊆ own' -> off_tables own' x -> off_tables own x.
Proof. intros Hs Ho p [y Hp]. apply Ho. exists y. by eapply lookup_weaken. Qed.

Lemma outside_tables ps s l own x : grown ps s l own -> outside x -> off_tables own x.
Proof.
  intros G [Ho Hp] p Hs. destruct (gr_list _ _ _ _ G) as (ts & Hperm & Hd).
  destruct (proj1 (Hd p) Hs) as [Hs'|Hs']; [by apply Ho|]. apply Hp. rewrite Hperm. set_solver.
Qed.

Lemma alloc_range_app ps p r va x : 0 <= va ->
  alloc_range root a0 fl (ps ++ [p]) r va x =
  map_one root (a0 + 4096 * Z.of_nat (length ps)) (mkpte p (fl (length ps))) r va
    (alloc_range root a0 fl ps r va x).
Proof.
  intros Hva. destruct a0_ok as [Ha Ha']. unfold alloc_range, map_one.
  replace ((a0 + 4096 * Z.of_nat (length ps)) / 4096) with (a0 / 4096 + Z.of_nat (length ps))
    by (rewrite Z.mul_comm, Z.div_add; lia).
  destruct (Z.eqb_spec r root); cbn [andb]; [|done].
  destruct (Z.leb_spec (a0 / 4096) (va / 4096)).
  - destruct (Z.eqb_spec (va / 4096) (a0 / 4096 + Z.of_nat (length ps))) as [E|E].
    + replace (Z.to_nat (va / 4096 - a0 / 4096)) with (length ps) by lia.
      by rewrite list_lookup_middle.
    + destruct (decide (Z.to_nat (va / 4096 - a0 / 4096) < length ps)%nat).
      * by rewrite lookup_app_l.
      * rewrite !(lookup_ge_None_2 _ (Z.to_nat (va / 4096 - a0 / 4096))); rewrite ?length_app; cbn; done || lia.
  - destruct (Z.eqb_spec (va / 4096) (a0 / 4096 + Z.of_nat (length ps))); [lia|done].
Qed.

Lemma alloc_range_end ps a r x : a = a0 + 4096 * Z.of_nat (length ps) ->
  alloc_range root a0 fl ps r a x = x.
Proof.
  intros ->. unfold alloc_range. rewrite Z.mul_comm, Z.div_add by lia.
  destruct (_ && _); [|done]. by rewrite lookup_ge_None_2 by lia.
Qed.

(** The allocator hands out page [q] and its holder fills it. *)
Lemma grown_write ps s l own m' q ts :
  grown ps s (q :: l) own -> fl_ok kend (Kmem m' (freelist ts)) l ->
  only_page (ram s) m' q ->
  vm_inv kend (Kmem m' (freelist ts)) l own /\ agree own (ent (ram s)) (ent m') /\
  (forall j p o, ps !! j = Some p -> 0 <= o < 4096 -> rd m' (p + o) = data j o) /\
  (forall x, outside x -> rd m' x = rd (ram s0) x).
Proof.
  intros G Hfl Hop. destruct (grown_fresh _ _ _ _ G) as [Hnd Hfr].
  destruct (Hfr q ltac:(set_solver)) as (Hq0 & Hq & Hqo).
  assert (agree own (ent (ram s)) (ent m')) as Hag.
  { apply agree_frame. intros p Hp. eapply (only_page_same kend); eauto.
    - eapply vm_pages; [apply (gr_inv _ _ _ _ G)|done].
    - intros ->. rewrite Hqo in Hp. by destruct Hp. }
  split_and!; [|done|..].
  - split; [done|eapply pt_ok_agree; [exact Hag|apply (vi_pt _ _ _ _ (gr_inv _ _ _ _ G))]|].
    intros p Hp. apply (vi_dj _ _ _ _ (gr_inv _ _ _ _ G)). by right.
  - intros j p o Hj Ho. rewrite Hop; [by eapply (gr_data _ _ _ _ G)|].
    apply list_elem_of_lookup_2 in Hj. destruct (Hfr p ltac:(set_solver)) as (_ & Hp & _).
    destruct (page_disjoint kend p q Hp Hq); [|lia..]. intros ->.
    rewrite <- app_comm_cons in Hnd. apply NoDup_cons in Hnd as [Hnd _]. set_solver.
  - intros x Hx. rewrite Hop; [by apply (gr_frame _ _ _ _ G)|]. by apply Hx.
Qed.

(** ... and then [mappages] runs, adding tables taken from the rest of the list. *)
Lemma grown_changes f ps s q l own s1 s' l' own' :
  grown ps s (q :: l) own -> agree own (ent (ram s)) (ent (ram s1)) ->
  changes f s1 l own s' l' own' ->
  (own0 ⊆ own' /\ forall r, root_of own' r -> root_of own0 r) /\
  (exists ts, l0 ≡ₚ q :: l' ++ ps ++ ts /\ forall p, is_Some (own' !! p) <-> is_Some (own0 !! p) \/ p ∈ ts) /\
  (forall r va, root_of own0 r -> 0 <= va < MAXVA ->
     lk (ent (ram s')) r va = f r va (alloc_range root a0 fl ps r va (lk (ent (ram s0)) r va))) /\
  (forall p x, p ∈ q :: ps -> p <= x < p + 4096 -> rd (ram s') x = rd (ram s1) x) /\
  (forall x, outside x -> rd (ram s') x = rd (ram s1) x).
Proof.
  intros G Hag [Hsub (n & -> & Hd) Hlk Hfr Hroot].
  destruct (gr_list _ _ _ _ G) as (ts & Hp & Hts).
  assert (l0 ≡ₚ q :: l' ++ ps ++ (ts ++ n)) as Hp'.
  { rewrite Hp. cbn. apply perm_skip. rewrite <- app_assoc, (Permutation_app_comm n).
    by rewrite <- !app_assoc. }
  assert (forall p, is_Some (own' !! p) <-> is_Some (own0 !! p) \/ p ∈ ts ++ n) as Hd'.
  { intros p. rewrite Hd, Hts, elem_of_app. tauto. }
  assert (forall x, outside x -> off_tables own' x) as Hout.
  { intros x [Ho Hx] p Hs. destruct (proj1 (Hd' p) Hs) as [Hs'|Hs']; [by apply Ho|]. apply Hx.
    rewrite Hp'. set_solver. }
  split_and!.
  - trans own; [apply G|done].
  - intros r Hr. by apply (gr_root _ _ _ _ G), Hroot.
  - by exists (ts ++ n).
  - intros r va Hr Hva. assert (root_of own r) as Hr' by (eapply lookup_weaken; [exact Hr|apply G]).
    rewrite Hlk by done. rewrite (lk_agree kend own (ent (ram s))); try done.
    + by rewrite (gr_lk _ _ _ _ G).
    + apply (gr_inv _ _ _ _ G).
  - intros p x Hin Hx. apply Hfr.
    assert (p ∈ l0) as Hp0 by (rewrite Hp'; set_solver).
    destruct (vi_fl _ _ _ _ inv0) as (Hnd & _ & _). rewrite Hp' in Hnd.
    rewrite (app_assoc l'), app_comm_cons in Hnd. apply NoDup_app in Hnd as (_ & Hnd & _).
    assert (own' !! p = None) as Hn.
    { apply eq_None_not_Some. rewrite Hd', (vi_dj _ _ _ _ inv0 p Hp0). intros [[? ?]|Hin']; [done|].
      apply (Hnd p); [set_solver|done]. }
    intros t Ht. destruct (page_disjoint kend t p); [..|lia|lia].
    + destruct (proj1 (Hd' t) Ht) as [Ht'|Ht']; [by eapply vm_pages|].
      apply l0_pages. rewrite Hp'. set_solver.
    + by apply l0_pages.
    + intros ->. rewrite Hn in Ht. by destruct Ht.
  - intros x Hx. apply Hfr. by apply Hout.
Qed.

(** The state between the allocation of [q] and the call of [mappages]. *)
Record filled (ps : list Z) (s : kmem) (q : Z) (l : list Z) (own : owner) (s2 : kmem) : Prop := {
  fi_grown : grown ps s (q :: l) own;
  fi_inv : vm_inv kend s2 l own;
  fi_agree : agree own (ent (ram s)) (ent (ram s2));
  fi_ps : forall j p o, ps !! j = Some p -> 0 <= o < 4096 -> rd (ram s2) (p + o) = data j o;
  fi_q : forall o, 0 <= o < 4096 -> rd (ram s2) (q + o) = data (length ps) o;
  fi_frame : forall x, outside x -> rd (ram s2) x = rd (ram s0) x;
}.

Lemma filled_mapped ps s q l own s2 a s' l' own' :
  filled ps s q l own s2 -> a = a0 + 4096 * Z.of_nat (length ps) -> vm_inv kend s' l' own' ->
  changes (map_range root a q (fl (length ps)) 1) s2 l own s' l' own' ->
  grown (ps ++ [q]) s' l' own'.
Proof.
  intros [G Hi2 Hag Hps Hq Hf] -> Hi' Hx.
  destruct (grown_changes _ _ _ _ _ _ _ _ _ _ G Hag Hx) as ((Hsub & Hroot) & (ts & Hp & Hd) & Hlk & Hdat & Hout).
  split; try done.
  - exists ts. split; [|done]. rewrite Hp, <- app_assoc. cbn.
    rewrite (Permutation_middle l'). f_equiv. apply Permutation_middle.
  - intros r va Hr Hva. rewrite Hlk by done. rewrite alloc_range_app by lia. by rewrite map_range_1.
  - intros j p o Hj Ho. apply lookup_app_Some in Hj as [Hj|[Hj Hj']].
    + rewrite (Hdat p) by (lia || (apply list_elem_of_lookup_2 in Hj; set_solver)). by apply Hps.
    + apply list_lookup_singleton_Some in Hj' as [E ->]. replace j with (length ps) by lia.
      rewrite (Hdat p) by (lia || set_solver). by apply Hq.
  - intros x Ho. rewrite Hout by done. by apply Hf.
Qed.

Lemma filled_freed h ps s q l own s2 s3 own' a f (F : M kmem Z) Q :
  kmem_lock ∉ h -> filled ps s q l own s2 -> vm_inv kend s3 [] own' ->
  changes (map_range root a q f 0) s2 l own s3 [] own' ->
  (forall s' l' own', grown ps s' l' own' -> wp F (KSt h s') Q) ->
  wp (kfree kend q ;; F) (KSt h s3) Q.
Proof.
  intros Hh [G Hi2 Hag Hps Hq Hf] Hi3 Hx HF.
  destruct (grown_changes _ _ _ _ _ _ _ _ _ _ G Hag Hx) as ((Hsub & Hroot) & (ts & Hp & Hd) & Hlk & Hdat & Hout).
  destruct (grown_fresh _ _ _ _ G) as [Hnd Hfr]. destruct (Hfr q ltac:(set_solver)) as (Hq0 & Hqp & _).
  destruct (vi_fl _ _ _ _ inv0) as (Hnd0 & _ & _). rewrite Hp in Hnd0.
  apply NoDup_cons in Hnd0 as [Hnq _].
  assert (own' !! q = None) as Hqn.
  { apply eq_None_not_Some. rewrite Hd, (vi_dj _ _ _ _ inv0 q Hq0). intros [[? ?]|?]; [done|]. set_solver. }
  wstep. eapply wp_mono; [apply (kfree_vm kend kend_kern h s3 [] own'); done || set_solver|].
  intros _ [h' s4] (Eh & Hi4 & Hop & Hag4). cbn [held st] in *. subst h'.
  apply (HF s4 [q] own'). split; try done.
  - exists ts. by split.
  - intros r va Hr Hva. assert (root_of own' r) by (by eapply lookup_weaken).
    rewrite (lk_agree kend own' (ent (ram s3))) by (done || apply Hi3).
    rewrite Hlk by done. by rewrite map_range_0.
  - intros j p o Hj Ho. pose proof (list_elem_of_lookup_2 _ _ _ Hj) as Hin. rewrite Hop.
    + rewrite (Hdat p) by (lia || set_solver). by apply Hps.
    + destruct (Hfr p ltac:(set_solver)) as (_ & Hpp & _).
      destruct (page_disjoint kend p q Hpp Hqp); [|lia..]. intros ->. set_solver.
  - intros x Ho. rewrite Hop by (by apply Ho). rewrite Hout by done. by apply Hf.
Qed.

(** One iteration of the loop of uvmalloc and of uvmcopy, for any continuation [K]
    and any clean-up [F]. *)
Lemma wp_grow_page h ps s l own (w : mem -> Z -> mem) a perm (K F : M kmem Z) Q :
  kmem_lock ∉ h -> grown ps s l own -> a = a0 + 4096 * Z.of_nat (length ps) -> a < MAXVA ->
  fl (length ps) = Z.lor perm PTE_V -> 0 <= perm < 1024 ->
  bits_set (lk (ent (ram s0)) root a) PTE_V = false ->
  (forall m q, q ∈ l0 -> page kend q -> (forall x, outside x -> rd m x = rd (ram s0) x) ->
     only_page m (w m q) q /\ forall o, 0 <= o < 4096 -> rd (w m q) (q + o) = data (length ps) o) ->
  (forall s' l' own', grown ps s' l' own' -> wp F (KSt h s') Q) ->
  (forall s' l' own' q, grown (ps ++ [q]) s' l' own' -> wp K (KSt h s') Q) ->
  wp (mem ← kalloc;
      if mem =? 0 then F else
      on_ram (fun m => w m mem) ;;
      r ← mappages root a PGSIZE mem perm;
      if negb (r =? 0) then kfree kend mem ;; F else K) (KSt h s) Q.
Proof.
  intros Hh G Ea Ham Hfl Hperm Hun Hw HF HK. wstep.
  eapply wp_mono; [apply (kalloc_spec kend kend_kern h s l Hh); apply (gr_inv _ _ _ _ G)|].
  intros r [h' s1] (Eh & Hal). cbn [held st] in Eh, Hal. subst h'. destruct l as [|q l].
  { destruct Hal as [-> ->]. rewrite Z.eqb_refl. by eapply HF. }
  destruct Hal as (-> & Hfl1 & Hop1 & _).
  destruct (grown_fresh _ _ _ _ G) as [_ Hfr]. destruct (Hfr q ltac:(set_solver)) as (Hq0 & Hq & _).
  pose proof (page_pos kend kend_kern q Hq). destruct (Z.eqb_spec q 0); [lia|].
  destruct (grown_write ps s l own (ram s1) q s1 G) as (_ & _ & _ & Hfr1); [by destruct s1|done|].
  destruct (Hw (ram s1) q Hq0 Hq Hfr1) as [Hop2 Hdata].
  assert (only_page (ram s) (w (ram s1) q) q) as Hop by (intros x Hx; rewrite Hop2, Hop1; done).
  unfold on_ram. wstep. wstep. cbn [held st].
  destruct (grown_write ps s l own (w (ram s1) q) q s1 G) as (Hi2 & Hag2 & Hd2 & Hf2); [|done|].
  { eapply fl_ok_only; eauto. destruct (gr_inv _ _ _ _ G) as [(Hn & _ & _) _ _].
    by apply NoDup_cons in Hn as [Hn _]. }
  set (s2 := Kmem (w (ram s1) q) (freelist s1)) in *.
  assert (filled ps s q l own s2) as Hfi by done.
  assert (root_of own root) as Hro by (eapply lookup_weaken; [exact root0|apply G]).
  assert (0 <= a /\ a mod 4096 = 0 /\ a + 4096 <= MAXVA) as (Ha0 & Ham' & Hend).
  { destruct a0_ok. assert (MAXVA = 4096 * 2 ^ 26) by done. subst a. dlia. }
  assert (q + 4096 <= 2 ^ 56) by (destruct Hq as [_ Hq]; unfold PHYSTOP, KERNBASE in Hq; lia).
  wstep. change PGSIZE with (4096 * 1).
  eapply wp_mono; [apply (mappages_spec kend kend_kern h s2 l own); try done; try lia|].
  - intros j Hj. assert (j = 0) as -> by lia. rewrite Z.add_0_r.
    rewrite (lk_agree kend own (ent (ram s))) by (done || apply (gr_inv _ _ _ _ G)).
    rewrite (gr_lk _ _ _ _ G) by (done || lia). by rewrite alloc_range_end.
  - intros r [h' s3] (Eh & j & l3 & own3 & Hi3 & Hx3 & Hc). cbn [held st] in *. subst h'.
    destruct Hc as [(-> & ->)|(-> & Hj & ->)]; cbn [negb Z.eqb].
    + rewrite <- Hfl in Hx3. eapply HK, filled_mapped; eauto.
    + assert (j = 0) as -> by lia. eapply filled_freed; eauto.
Qed.

(** ** Taking everything back *)

Lemma alloc_range_at ps j p x :
  ps !! j = Some p -> alloc_range root a0 fl ps root (a0 + 4096 * Z.of_nat j) x = mkpte p (fl j).
Proof.
  intros Hj. unfold alloc_range. rewrite Z.mul_comm, Z.div_add, Z.eqb_refl by lia.
  destruct (Z.leb_spec (a0 / 4096) (a0 / 4096 + Z.of_nat j)); [|lia]. cbn [andb].
  replace (Z.to_nat _) with j by lia. by rewrite Hj.
Qed.

Lemma grown_leaf ps s l own j p : grown ps s l own -> ps !! j = Some p ->
  a0 + 4096 * Z.of_nat (length ps) <= MAXVA ->
  lk (ent (ram s)) root (a0 + 4096 * Z.of_nat j) = mkpte p (fl j).
Proof.
  intros G Hj Hend. pose proof (lookup_lt_Some _ _ _ Hj).
  rewrite (gr_lk _ _ _ _ G) by (done || (destruct a0_ok; lia)). by apply alloc_range_at.
Qed.

Lemma grown_leaves ps s l own : grown ps s l own -> a0 + 4096 * Z.of_nat (length ps) <= MAXVA ->
  leaves (ram s) root a0 (length ps) = ps /\
  forall j, 0 <= j < Z.of_nat (length ps) -> is_leaf (lk (ent (ram s)) root (a0 + 4096 * j)).
Proof.
  intros G Hend. destruct (grown_fresh _ _ _ _ G) as [_ Hfr].
  assert (forall j p, ps !! j = Some p -> p mod 4096 = 0 /\ 0 <= p < 2 ^ 56) as Hps.
  { intros j p Hj%list_elem_of_lookup_2. destruct (Hfr p ltac:(set_solver)) as (_ & Hp & _).
    pose proof (page_pos kend kend_kern p Hp). destruct Hp. lia. }
  split.
  - apply list_eq_same_length with (length ps); [done|by unfold leaves; rewrite length_fmap, length_seqZ, Nat2Z.id|].
    intros j x y Hj Hx Hy. unfold leaves in Hx. apply list_lookup_fmap_Some in Hx as (k & -> & Hk).
    apply lookup_seqZ in Hk as [-> _]. cbn. rewrite Z.add_0_l, (grown_leaf ps s l own j y) by done.
    destruct (fl_ok' j) as (? & _ & _). destruct (Hps j y Hy). by apply PTE2PA_mkpte.
  - intros j Hj. destruct (lookup_lt_is_Some_2 ps (Z.to_nat j)) as [p Hp]; [lia|].
    rewrite <- (Z2Nat.id j) by lia. rewrite (grown_leaf ps s l own _ p) by done.
    destruct (fl_ok' (Z.to_nat j)) as (? & Hodd & Hne). destruct (Hps _ p Hp). split.
    + by rewrite bits_set_mkpte by done.
    + by rewrite PTE_FLAGS_mkpte by done.
Qed.

Lemma alloc_range_unmap ps r va x :
  (forall j, 0 <= j < Z.of_nat (length ps) -> x = 0 \/ r <> root \/ va / 4096 <> a0 / 4096 + j) ->
  unmap_range root a0 (Z.of_nat (length ps)) r va (alloc_range root a0 fl ps r va x) =
  alloc_range root a0 fl [] r va x.
Proof.
  intros H. unfold unmap_range, alloc_range. rewrite lookup_nil.
  destruct (Z.eqb_spec r root); cbn [andb]; [|done].
  destruct (Z.leb_spec (a0 / 4096) (va / 4096)) as [Hle|]; cbn [andb]; [|done].
  destruct (Z.ltb_spec (va / 4096) (a0 / 4096 + Z.of_nat (length ps))) as [Hlt|Hge].
  - destruct (H (va / 4096 - a0 / 4096)) as [->|[?|?]]; done || lia.
  - by rewrite lookup_ge_None_2 by lia.
Qed.

(** The clean-up: unmapping and freeing the new pages restores every translation;
    the pages are back on the free list, only new interior tables remain. *)
Lemma grown_undo h ps s l own :
  kmem_lock ∉ h -> grown ps s l own -> a0 + 4096 * Z.of_nat (length ps) <= MAXVA ->
  (forall va, a0 <= va < a0 + 4096 * Z.of_nat (length ps) -> lk (ent (ram s0)) root va = 0) ->
  wp (uvmunmap kend root a0 (Z.of_nat (length ps)) true) (KSt h s) (fun _ k =>
    held k = h /\ grown [] (st k) (rev ps ++ l) own).
Proof.
  intros Hh G Hend Hz. destruct (grown_leaves _ _ _ _ G Hend) as [Hlv Hleaf].
  destruct (grown_fresh _ _ _ _ G) as [Hnd Hfr]. destruct a0_ok as [Ha Ha'].
  assert (root_of own root) as Hro by (eapply lookup_weaken; [exact root0|apply G]).
  eapply wp_mono; [apply (uvmunmap_spec kend kend_kern h s l own); try done; try lia; [apply G|]|].
  - cbn [freed]. rewrite Nat2Z.id, Hlv. apply NoDup_app in Hnd as (_ & Hd & Hn). split; [done|].
    apply Forall_forall. intros p Hp. destruct (Hfr p ltac:(set_solver)) as (? & ? & ?).
    split_and!; try done. intros Hl. by apply (Hd p).
  - cbn [freed]. rewrite Nat2Z.id, Hlv. intros _ [h' s'] (Eh & Hi & Hlk & Hf). cbn [held st] in *. subst h'.
    split; [done|]. destruct (gr_list _ _ _ _ G) as (ts & Hp & Hd). split; try done.
    + apply G.
    + exists ts. split; [|done]. rewrite Hp, <- (Permutation_rev ps). cbn.
      rewrite !app_assoc. f_equiv. apply Permutation_app_comm.
    + intros r va Hr Hva. rewrite Hlk by (done || (eapply lookup_weaken; [exact Hr|apply G])).
      rewrite (gr_lk _ _ _ _ G) by done. apply alloc_range_unmap. intros j Hj.
      destruct (decide (r = root)) as [->|]; [|by right; left].
      destruct (decide (va / 4096 = a0 / 4096 + j)) as [E|]; [|by right; right].
      left. apply Hz. dlia.
    + intros x Ho. rewrite Hf; [by apply (gr_frame _ _ _ _ G)|by eapply outside_tables|].
      intros p Hp'. apply Ho. apply Hfr. set_solver.
    + apply (gr_root _ _ _ _ G).
Qed.
End Grow.

(** ** uvmalloc *)

Section Uvmalloc.
Variable kend : Z.
Hypothesis kend_kern : KERNBASE <= kend.
Variables (root a0 : Z) (s0 : kmem) (l0 : list Z) (own0 : owner).
Hypothesis inv0 : vm_inv kend s0 l0 own0.
Hypothesis root0 : root_of own0 root.
Hypothesis a0_ok : a0 mod 4096 = 0 /\ 0 <= a0.

(** Flags of the pages [uvmalloc] maps, and their contents. *)
Definition UFLAGS : Z := Z.lor USERPERM PTE_V.
Definition zgrown := grown kend root a0 (fun _ => UFLAGS) (fun _ _ => 0) s0 l0 own0.

Lemma UFLAGS_ok (j : nat) : 0 <= UFLAGS < 1024 /\ bits_set UFLAGS PTE_V = true /\ UFLAGS <> PTE_V.
Proof. done. Qed.

Lemma PGROUNDUP_aligned a : 0 <= a <= MAXVA -> a mod 4096 = 0 -> PGROUNDUP a = a.
Proof. intros H Ha. assert (MAXVA < 2 ^ 40) by done. rewrite PGROUNDUP_div by lia. dlia. Qed.

Lemma uvmdealloc_undo h ps s l own :
  kmem_lock ∉ h -> zgrown ps s l own -> a0 + 4096 * Z.of_nat (length ps) <= MAXVA ->
  (forall va, a0 <= va < a0 + 4096 * Z.of_nat (length ps) -> lk (ent (ram s0)) root va = 0) ->
  wp (uvmdealloc kend root (a0 + 4096 * Z.of_nat (length ps)) a0) (KSt h s) (fun _ k =>
    held k = h /\ exists l', zgrown [] (st k) l' own).
Proof.
  intros Hh G Hend Hz. destruct a0_ok as [Ha Ha']. unfold uvmdealloc.
  destruct (Z.leb_spec (a0 + 4096 * Z.of_nat (length ps)) a0).
  { wstep. split; [done|]. exists l. by destruct ps as [|? ps]; [|cbn [length] in *; lia]. }
  rewrite !PGROUNDUP_aligned by (done || lia || dlia).
  destruct (Z.ltb_spec a0 (a0 + 4096 * Z.of_nat (length ps))); [|lia].
  replace (a0 + 4096 * Z.of_nat (length ps) - a0) with (Z.of_nat (length ps) * 4096) by lia.
  unfold PGSIZE. rewrite Z.div_mul by lia. assert (MAXVA = 4096 * 2 ^ 26) by done.
  replace (i32 (Z.of_nat (length ps))) with (Z.of_nat (length ps))
    by (unfold i32; rewrite Z.mod_small; lia).
  rewrite u64_small by lia. wstep.
  eapply wp_mono; [by apply (grown_undo kend kend_kern root a0 (fun _ => UFLAGS) (fun _ _ => 0)
    s0 l0 own0 inv0 root0 a0_ok UFLAGS_ok h ps s l own)|].
  intros _ k [Hk G']. wstep. eauto.
Qed.

Lemma uvmalloc_loop_spec h newsz f : forall ps s l own,
  kmem_lock ∉ h -> newsz <= MAXVA ->
  (forall va, a0 <= va < PGROUNDUP newsz -> lk (ent (ram s0)) root va = 0) ->
  zgrown ps s l own -> newsz <= a0 + 4096 * (Z.of_nat (length ps) + Z.of_nat f) ->
  (ps = [] \/ a0 + 4096 * (Z.of_nat (length ps) - 1) < newsz) ->
  wp (uvmalloc_loop kend f root (a0 + 4096 * Z.of_nat (length ps)) a0 newsz) (KSt h s) (fun r k =>
    held k = h /\ exists ps' l' own', zgrown ps' (st k) l' own' /\
      ((r = 0 /\ ps' = []) \/
       (r = newsz /\ newsz <= a0 + 4096 * Z.of_nat (length ps') /\
        (ps' = [] \/ a0 + 4096 * (Z.of_nat (length ps') - 1) < newsz)))).
Proof.
  induction f as [|f IH]; intros ps s l own Hh Hm Hz G Hf Hps; cbn [uvmalloc_loop];
    (destruct (Z.ltb_spec (a0 + 4096 * Z.of_nat (length ps)) newsz); cbn [negb];
     [|wstep; split; [done|]; exists ps, l, own; split; [done|right; split_and!; done]]); [lia|].
  assert (MAXVA = 4096 * 2 ^ 26) as HM by done.
  assert (a0 + 4096 * Z.of_nat (length ps) + 4096 <= MAXVA) by (destruct a0_ok; dlia).
  destruct a0_ok as [Ha Ha'].
  assert (a0 + 4096 * Z.of_nat (length ps) < PGROUNDUP newsz) by (rewrite PGROUNDUP_div by lia; dlia).
  eapply (wp_grow_page kend kend_kern root a0 (fun _ => UFLAGS) (fun _ _ => 0) s0 l0 own0 inv0 root0
    a0_ok UFLAGS_ok h ps s l own (fun m q => memset m q 0 PGSIZE)); try done; try lia.
  - by rewrite Hz by lia.
  - intros m q _ _ _. unfold PGSIZE. split.
    + intros x Hx. apply rd_memset_out; lia.
    + intros o Ho. by rewrite rd_memset_in by lia.
  - intros s' l' own' G'. wstep.
    eapply wp_mono; [apply (uvmdealloc_undo h ps s' l' own'); try done; try lia; intros; apply Hz; lia|].
    intros _ k (Hk & l2 & G2). wstep. split; [done|]. exists [], l2, own'. split; [done|by left].
  - intros s' l' own' q G'. unfold PGSIZE. rewrite u64_small by lia.
    replace (a0 + 4096 * Z.of_nat (length ps) + 4096) with (a0 + 4096 * Z.of_nat (length (ps ++ [q])))
      by (rewrite length_app; cbn; lia).
    apply (IH (ps ++ [q]) s' l' own'); try done; rewrite length_app; cbn [length]; [lia|right; lia].
Qed.
End Uvmalloc.

Lemma uvmalloc_spec kend h root oldsz newsz s l own :
  KERNBASE <= kend -> kmem_lock ∉ h -> vm_inv kend s l own -> root_of own root ->
  0 <= oldsz <= newsz -> newsz <= MAXVA ->
  (forall va, PGROUNDUP oldsz <= va < PGROUNDUP newsz -> lk (ent (ram s)) root va = 0) ->
  wp (uvmalloc kend root oldsz newsz) (KSt h s) (fun r k => held k = h /\ exists ps l' own',
    zgrown kend root (PGROUNDUP oldsz) s l own ps (st k) l' own' /\
    ((r = 0 /\ ps = []) \/
     (r = newsz /\ Z.of_nat (length ps) = (PGROUNDUP newsz - PGROUNDUP oldsz) / 4096))).
Proof.
  intros Hk Hh Hi Hr Hsz Hm Hz. unfold uvmalloc. destruct (Z.ltb_spec newsz oldsz); [lia|].
  assert (MAXVA = 4096 * 2 ^ 26) by done.
  rewrite !PGROUNDUP_div in * by lia. set (a0 := (oldsz + 4095) / 4096 * 4096) in *.
  assert (a0 mod 4096 = 0 /\ 0 <= a0) as Ha by (unfold a0; dlia).
  assert (zgrown kend root a0 s l own [] s l own) as G by (by apply grown_refl).
  pose proof (uvmalloc_loop_spec kend Hk root a0 s l own Hi Hr Ha h newsz
    (Z.to_nat ((newsz - a0) / PGSIZE + 1)) [] s l own Hh Hm ltac:(rewrite PGROUNDUP_div by lia; exact Hz) G) as Hl.
  cbn [length] in Hl. rewrite !Z.add_0_r in Hl.
  eapply wp_mono; [apply Hl; [unfold PGSIZE; dlia|by left]|].
  intros r k (Hh' & ps & l' & own' & G' & Hc). split; [done|]. exists ps, l', own'. split; [done|].
  destruct Hc as [Hc|(-> & H1 & H2)]; [by left|right]. split; [done|].
  destruct H2 as [->|H2]; [cbn in *|]; unfold a0 in *; dlia.
Qed.

(** ** uvmcopy *)

Section Uvmcopy.
Variable kend : Z.
Hypothesis kend_kern : KERNBASE <= kend.
Variables (old new : Z) (s0 : kmem) (l0 : list Z) (own0 : owner) (n : nat).
Hypothesis inv0 : vm_inv kend s0 l0 own0.
Hypothesis old0 : root_of own0 old.
Hypothesis new0 : root_of own0 new.
Hypothesis old_new : old <> new.
Hypothesis n_max : 4096 * Z.of_nat n <= MAXVA.

Definition old_pte (j : nat) : Z := lk (ent (ram s0)) old (4096 * Z.of_nat j).
(** The parent's pages are mapped, and are neither tables nor free. *)
Hypothesis old_leaf : forall j, (j < n)%nat -> is_leaf (old_pte j).
Hypothesis old_out : forall j o, (j < n)%nat -> 0 <= o < 4096 -> outside l0 own0 (PTE2PA (old_pte j) + o).
Hypothesis new_empty : forall va, 0 <= va < 4096 * Z.of_nat n -> lk (ent (ram s0)) new va = 0.

Definition copy_flags (j : nat) : Z := if decide (j < n)%nat then PTE_FLAGS (old_pte j) else UFLAGS.
Definition copy_data (j : nat) (o : Z) : Z := rd (ram s0) (PTE2PA (old_pte j) + o).
Definition cgrown := grown kend new 0 copy_flags copy_data s0 l0 own0.

Lemma PTE_FLAGS_valid pte : bits_set pte PTE_V = true -> Z.lor (PTE_FLAGS pte) PTE_V = PTE_FLAGS pte.
Proof.
  unfold bits_set, PTE_FLAGS. change PTE_V with 1. intros Hb. apply Z.bits_inj'. intros i Hi.
  rewrite Z.lor_spec. destruct (decide (i = 0)) as [->|].
  - rewrite Z.land_spec. cbn [Z.testbit].
    assert (Z.odd pte = true) as E; [|by rewrite E].
    change 1 with (Z.ones 1) in Hb. rewrite Z.land_ones in Hb by lia.
    change (2 ^ 1) with 2 in Hb. rewrite Zmod_odd in Hb. by destruct (Z.odd pte).
  - assert (Z.testbit 1 i = false) as ->; [|by rewrite orb_false_r].
    apply (Z.bits_above_log2 1); [done|cbn; lia].
Qed.

Lemma PTE_FLAGS_range pte : 0 <= PTE_FLAGS pte < 1024.
Proof. unfold PTE_FLAGS. change 0x3FF with (Z.ones 10). rewrite Z.land_ones by lia. by apply Z.mod_pos_bound. Qed.

Lemma copy_flags_ok j :
  0 <= copy_flags j < 1024 /\ bits_set (copy_flags j) PTE_V = true /\ copy_flags j <> PTE_V.
Proof.
  unfold copy_flags. destruct (decide (j < n)%nat) as [Hj|]; [|done].
  destruct (old_leaf j Hj) as [Hv Hn]. split_and!; [apply PTE_FLAGS_range..| |done].
  rewrite <- PTE_FLAGS_valid by done. unfold bits_set. rewrite Z.land_lor_distr_l, Z.land_diag.
  destruct (Z.eqb_spec (Z.lor (Z.land (PTE_FLAGS (old_pte j)) PTE_V) PTE_V) 0) as [E|]; [|done].
  by apply Z.lor_eq_0_iff in E as [_ E].
Qed.

Lemma cgrown_old ps s l own j : cgrown ps s l own -> (j < n)%nat ->
  lk (ent (ram s)) old (4096 * Z.of_nat j) = old_pte j.
Proof.
  intros G Hj. rewrite (gr_lk _ _ _ _ _ _ _ _ _ _ _ _ G) by (done || lia).
  unfold alloc_range. by destruct (Z.eqb_spec old new).
Qed.

Lemma uvmcopy_loop_spec h sz f : forall ps s l own,
  kmem_lock ∉ h -> 4096 * (Z.of_nat n - 1) < sz <= 4096 * Z.of_nat n ->
  cgrown ps s l own -> (length ps <= n <= length ps + f)%nat ->
  wp (uvmcopy_loop kend f old new (4096 * Z.of_nat (length ps)) sz) (KSt h s) (fun r k =>
    held k = h /\ exists ps' l' own', cgrown ps' (st k) l' own' /\
      ((r = -1 /\ ps' = []) \/ (r = 0 /\ length ps' = n))).
Proof.
  induction f as [|f IH]; intros ps s l own Hh Hsz G Hf; cbn [uvmcopy_loop];
    (destruct (Z.ltb_spec (4096 * Z.of_nat (length ps)) sz); cbn [negb];
     [|wstep; split; [done|]; exists ps, l, own; split; [done|right; split; [done|lia]]]); [lia|].
  set (j := length ps) in *. assert (j < n)%nat as Hj by lia.
  assert (root_of own old) as Hro by (eapply lookup_weaken; [exact old0|apply G]).
  pose proof (cgrown_old _ _ _ _ j G Hj) as Elk. destruct (old_leaf j Hj) as [Hv Hnl].
  eapply (wp_walk_ld kend kend_kern h s l own); [apply G|done|lia|rewrite Elk; by split|].
  intros pte Hpte. rewrite Elk, Hv. cbn [negb].
  assert (copy_flags j = PTE_FLAGS (old_pte j)) as Efl by (unfold copy_flags; by rewrite decide_True).
  eapply (wp_grow_page kend kend_kern new 0 copy_flags copy_data s0 l0 own0 inv0 new0 ltac:(done)
    copy_flags_ok h ps s l own (fun m q => memmove m q (PTE2PA (old_pte j)) PGSIZE)); try done; try lia.
  - fold j. by rewrite Efl, PTE_FLAGS_valid.
  - apply PTE_FLAGS_range.
  - by rewrite new_empty by lia.
  - intros m q _ _ Hout. unfold PGSIZE. split.
    + intros x Hx. rewrite rd_memmove by lia. zbool; done || lia.
    + intros o Ho. rewrite rd_memmove by lia. zbool; try lia.
      unfold copy_data. fold j. rewrite <- Hout by (by apply old_out). f_equal. lia.
  - intros s' l' own' G'. wstep. unfold PGSIZE. rewrite Z.mul_comm, Z.div_mul by lia.
    eapply wp_mono; [apply (grown_undo kend kend_kern new 0 copy_flags copy_data s0 l0 own0 inv0 new0
      ltac:(done) copy_flags_ok h ps s' l' own'); try done; try lia|].
    + intros va Hva. apply new_empty. fold j in Hva. lia.
    + intros _ k (Hk & G2). wstep. split; [done|]. exists [], (rev ps ++ l'), own'. split; [done|by left].
  - intros s' l' own' q G'. unfold PGSIZE. assert (MAXVA < 2 ^ 40) by done. rewrite u64_small by lia.
    replace (4096 * Z.of_nat j + 4096) with (4096 * Z.of_nat (length (ps ++ [q])))
      by (rewrite length_app; cbn; lia).
    apply (IH (ps ++ [q]) s' l' own'); try done. rewrite length_app. cbn. lia.
Qed.
End Uvmcopy.

Lemma uvmcopy_spec kend h old new sz s l own (n : nat) :
  KERNBASE <= kend -> kmem_lock ∉ h -> vm_inv kend s l own -> root_of own old -> root_of own new ->
  old <> new -> 4096 * (Z.of_nat n - 1) < sz <= 4096 * Z.of_nat n -> sz <= MAXVA ->
  (forall j, (j < n)%nat -> is_leaf (old_pte old s j)) ->
  (forall j o, (j < n)%nat -> 0 <= o < 4096 -> outside l own (PTE2PA (old_pte old s j) + o)) ->
  (forall va, 0 <= va < 4096 * Z.of_nat n -> lk (ent (ram s)) new va = 0) ->
  wp (uvmcopy kend old new sz) (KSt h s) (fun r k => held k = h /\ exists ps l' own',
    cgrown kend old new s l own n ps (st k) l' own' /\
    ((r = -1 /\ ps = []) \/ (r = 0 /\ length ps = n))).
Proof.
  intros Hk Hh Hi Ho Hn Hne Hsz Hm Hl Hout He. unfold uvmcopy.
  assert (MAXVA = 4096 * 2 ^ 26) by done.
  assert (cgrown kend old new s l own n [] s l own) as G by (by apply grown_refl).
  apply (uvmcopy_loop_spec kend Hk old new s l own n Hi Ho Hn Hne ltac:(dlia) Hl Hout He h sz _ [] s l own);
    try done. unfold PGSIZE. cbn [length]. dlia.
Qed.
