(* ===== verification/VmFree.v ===== *)
(** * Page tables: freewalk and uvmfree give back every page of an address space *)
From S2P Require Import Prelude Mem Riscv Kalloc Vm VmTree VmSpec VmAlloc.

(** [x] lies in the subtree of the table of root [r] at level [lev] with prefix [pre]. *)
Definition in_sub (r lev pre : Z) (x : Z * Z * Z) : Prop :=
  x.1.1 = r /\ x.1.2 <= lev /\ x.2 / 512 ^ (lev - x.1.2) = pre.
#[export] Instance in_sub_dec r lev pre x : Decision (in_sub r lev pre x).
Proof. unfold in_sub. apply _. Defined.
Definition prune (own : owner) (r lev pre : Z) : owner := filter (fun y => ~ in_sub r lev pre y.2) own.

Lemma prune_Some own r lev pre p x : prune own r lev pre !! p = Some x <-> own !! p = Some x /\ ~ in_sub r lev pre x.
Proof. unfold prune. by rewrite map_lookup_filter_Some. Qed.
Lemma prune_None own r lev pre p : is_Some (own !! p) /\ prune own r lev pre !! p = None <-> exists x, own !! p = Some x /\ in_sub r lev pre x.
Proof.
  split.
  - intros [[x Hx] Hn]. exists x. split; [done|]. destruct (decide (in_sub r lev pre x)); [done|].
    assert (prune own r lev pre !! p = Some x) by (by apply prune_Some). congruence.
  - intros (x & Hx & Hs). split; [by eexists|]. apply eq_None_not_Some. intros [y Hy]. apply prune_Some in Hy as [Hy Hn].
    rewrite Hx in Hy. by injection Hy as <-.
Qed.

(** The parent and the children of a table of the subtree. *)
Lemma in_sub_child r lev pre l pre' i : 0 <= i < 512 -> l <= lev -> in_sub r lev pre (r, l, pre') -> in_sub r lev pre (r, l - 1, pre' * 512 + i).
Proof.
  intros Hi Hl (_ & _ & H). split_and!; cbn in *; [done|lia|].
  replace (lev - (l - 1)) with (1 + (lev - l)) by lia. rewrite Z.pow_add_r by lia. change (512 ^ 1) with 512.
  rewrite <- Z.div_div by (lia || (apply Z.pow_pos_nonneg; lia)). replace ((pre' * 512 + i) / 512) with pre' by dlia. done.
Qed.
Lemma in_sub_parent r lev pre l pre' : l < lev -> in_sub r lev pre (r, l, pre') -> in_sub r lev pre (r, l + 1, pre' / 512).
Proof.
  intros Hl (_ & _ & H). split_and!; cbn in *; [done|lia|].
  rewrite Z.div_div by (lia || (apply Z.pow_pos_nonneg; lia)). rewrite <- H. f_equal.
  replace (lev - l) with (1 + (lev - (l + 1))) by lia. rewrite Z.pow_add_r by lia. done.
Qed.
Lemma in_sub_self r lev pre : in_sub r lev pre (r, lev, pre).
Proof. split_and!; cbn; [done|lia|]. by rewrite Z.sub_diag, Z.div_1_r. Qed.
Lemma in_sub_top r lev pre pre' : in_sub r lev pre (r, lev, pre') -> pre' = pre.
Proof. intros (_ & _ & H). cbn in H. by rewrite Z.sub_diag, Z.div_1_r in H. Qed.

Section Free.
Variable kend : Z.
Hypothesis kend_kern : KERNBASE <= kend.

(** Root, level and prefix determine the table. *)
Lemma own_inj own e : pt_ok kend own e -> forall n p q r l pre, (Z.to_nat (2 - l) <= n)%nat ->
  own !! p = Some (r, l, pre) -> own !! q = Some (r, l, pre) -> p = q.
Proof.
  intros Hok. induction n as [|n IH]; intros p q r l pre Hn Hp Hq;
    (destruct (pt_up _ _ _ Hok _ _ _ _ Hp) as [(-> & -> & _)|(Hl & p' & Hp' & _ & Ep)];
     [destruct (pt_up _ _ _ Hok _ _ _ _ Hq) as [(_ & -> & _)|(Hl & _)]; [done|lia]|]);
    (destruct (pt_up _ _ _ Hok _ _ _ _ Hq) as [(-> & _)|(_ & q' & Hq' & _ & Eq)]; [lia|]).
  - lia.
  - assert (p' = q') as -> by (eapply IH; [|exact Hp'|exact Hq']; lia). congruence.
Qed.

(** Cutting a subtree off: [e'] differs from [e] only in the entry that points to it. *)
Lemma pt_ok_prune own e e' r lev pre : pt_ok kend own e ->
  (forall p i x, own !! p = Some x -> 0 <= i < 512 -> ~ in_sub r lev pre x -> (x, i) <> (r, lev + 1, pre / 512, pre mod 512) -> e' p i = e p i) ->
  (forall p, own !! p = Some (r, lev + 1, pre / 512) -> bits_set (e' p (pre mod 512)) PTE_V = false) ->
  pt_ok kend (prune own r lev pre) e'.
Proof.
  intros Hok He Hcut.
  assert (forall p r' l' pre' i, prune own r lev pre !! p = Some (r', l', pre') -> 0 <= i < 512 -> bits_set (e' p i) PTE_V = true ->
    own !! p = Some (r', l', pre') /\ e' p i = e p i /\ ~ in_sub r lev pre (r', l', pre') /\ (r', l', pre', i) <> (r, lev + 1, pre / 512, pre mod 512)) as H.
  { intros p r' l' pre' i [Hp Hn]%prune_Some Hi Hv. assert ((r', l', pre', i) <> (r, lev + 1, pre / 512, pre mod 512)) as Hne.
    { intros [= -> -> -> ->]. rewrite Hcut in Hv; done. }
    split_and!; try done. by apply (He _ _ (r', l', pre')). }
  split.
  - intros p r' l' pre' [Hp _]%prune_Some. by eapply Hok.
  - intros p r' l' pre' i Hp Hl Hi Hv. destruct (H _ _ _ _ _ Hp Hi Hv) as (Ho & E & Hn & Hne). rewrite E in *.
    apply prune_Some. split; [by apply Hok|]. intros Hs. pose proof Hs as (Er & Hl' & _). cbn in Er, Hl'. subst r'.
    destruct (decide (l' - 1 = lev)) as [El|].
    + apply Hne. replace l' with (lev + 1) in * by lia. replace (lev + 1 - 1) with lev in Hs by lia.
      apply in_sub_top in Hs. rewrite <- Hs. do 2 f_equal; [f_equal|]; dlia.
    + apply Hn. apply in_sub_parent in Hs; [|lia]. replace (l' - 1 + 1) with l' in Hs by lia.
      replace ((pre' * 512 + i) / 512) with pre' in Hs by dlia. done.
  - intros p r' l' pre' i Hp Hl Hi Hv. destruct (H _ _ _ _ _ Hp Hi Hv) as (Ho & E & _ & _). rewrite E in *. by eapply Hok.
  - intros p r' l' pre' [Hp Hn]%prune_Some. destruct (pt_up _ _ _ Hok _ _ _ _ Hp) as [?|(Hl & q & Hq & Hv & E)]; [by left|right].
    split; [done|]. exists q.
    assert (~ in_sub r lev pre (r', l' + 1, pre' / 512)) as Hnq.
    { intros Hs. apply Hn. pose proof Hs as (Er & Hl' & _). cbn in Er, Hl'. subst r'.
      apply (in_sub_child _ _ _ _ _ (pre' mod 512)) in Hs; [|apply Z.mod_pos_bound; lia|lia].
      replace (l' + 1 - 1) with l' in Hs by lia. replace (pre' / 512 * 512 + pre' mod 512) with pre' in Hs by dlia. done. }
    rewrite (He q _ (r', l' + 1, pre' / 512)); [| |apply Z.mod_pos_bound; lia|done|]; [|done|].
    + split; [by apply prune_Some|done].
    + intros [= -> El Ep Em]. apply Hn. replace l' with lev by lia. replace pre' with pre by dlia. apply in_sub_self.
  - intros p r' pre' [Hp _]%prune_Some. by eapply Hok.
Qed.

(** A table without valid entries is alone in its subtree. *)
Lemma sub_empty own e p r lev pre : pt_ok kend own e -> own !! p = Some (r, lev, pre) ->
  (forall i, 0 <= i < 512 -> bits_set (e p i) PTE_V = false) ->
  forall n q l pre', (Z.to_nat (lev - l) <= n)%nat -> own !! q = Some (r, l, pre') -> in_sub r lev pre (r, l, pre') -> q = p.
Proof.
  intros Hok Hp Hinv. induction n as [|n IH]; intros q l pre' Hn Hq Hs; pose proof Hs as (_ & Hl & _); cbn in Hl;
    (destruct (decide (l = lev)) as [->|]; [apply in_sub_top in Hs as ->; by eapply own_inj|]); [lia|].
  destruct (pt_up _ _ _ Hok _ _ _ _ Hq) as [(-> & _)|(_ & q' & Hq' & Hv & _)].
  - destruct (pt_page _ _ _ Hok _ _ _ _ Hp). lia.
  - assert (q' = p) as -> by (eapply (IH q' (l + 1)); [lia|exact Hq'|apply in_sub_parent; [lia|done]]).
    rewrite Hinv in Hv; [done|]. apply Z.mod_pos_bound. lia.
Qed.

(** The loop of freewalk over the entries of a table. *)
Definition free_entries (walk_child : Z -> M kmem unit) (pagetable : Z) : list Z -> M kmem unit :=
  fix entries (idx : list Z) : M kmem unit :=
    match idx with
    | [] => mret tt
    | i :: rest =>
      pte ← ld (pagetable + 8 * i);
      (if bits_set pte PTE_V && negb (bits_set pte (Z.lor (Z.lor PTE_R PTE_W) PTE_X))
       then walk_child (PTE2PA pte) ;; sd (pagetable + 8 * i) 0
       else if bits_set pte PTE_V then panic "freewalk: leaf"
       else mret tt) ;;
      entries rest
    end.
Lemma freewalk_S d p : freewalk kend (S d) p = (free_entries (freewalk kend d) p (seqZ 0 512) ;; kfree kend p).
Proof. reflexivity. Qed.

Implicit Types (s : kmem) (l ps : list Z) (own : owner).

(** The result of freeing the subtree at (r, lev, pre). *)
Record walked (r lev pre : Z) s l own s' ps : Prop := {
  wk_fl : fl_ok kend s' (ps ++ l);
  wk_ps : forall x, x ∈ ps <-> is_Some (own !! x) /\ prune own r lev pre !! x = None;
  wk_agree : agree (prune own r lev pre) (ent (ram s)) (ent (ram s'));
  wk_frame : forall a, off_tables own a -> rd (ram s') a = rd (ram s) a;
}.
Definition no_leaf (r : Z) s own : Prop :=
  forall q pre i, own !! q = Some (r, 0, pre) -> 0 <= i < 512 -> bits_set (ent (ram s) q i) PTE_V = false.

(** The state of the loop: [own'] is left of [own], [idx] are the entries done. *)
Record cleared (p r lev : Z) (idx : list Z) s l own s' ps own' : Prop := {
  cl_inv : vm_inv kend s' (ps ++ l) own';
  cl_sub : own' ⊆ own;
  cl_p : own' !! p = own !! p;
  cl_ps : forall x, x ∈ ps <-> is_Some (own !! x) /\ own' !! x = None;
  cl_below : forall x t, own !! x = Some t -> own' !! x = None -> exists pre', own !! p = Some (r, lev, pre') /\ in_sub r lev pre' t;
  cl_done : forall i, i ∈ idx -> bits_set (ent (ram s') p i) PTE_V = false;
  cl_todo : forall i, 0 <= i < 512 -> i ∉ idx -> ent (ram s') p i = ent (ram s) p i;
  cl_agree : forall q i, is_Some (own' !! q) -> q <> p -> 0 <= i < 512 -> ent (ram s') q i = ent (ram s) q i;
  cl_frame : forall a, off_tables own a -> rd (ram s') a = rd (ram s) a;
}.

(** Zeroing the entry of a subtree that has been freed. *)
Lemma unlink_ok p r lev pre i s l own s1 ps : vm_inv kend s l own -> own !! p = Some (r, lev, pre) -> 0 < lev -> 0 <= i < 512 ->
  walked r (lev - 1) (pre * 512 + i) s l own s1 ps ->
  let s2 := Kmem (store64 (ram s1) (p + 8 * i) 0) (freelist s1) in let own' := prune own r (lev - 1) (pre * 512 + i) in
  vm_inv kend s2 (ps ++ l) own' /\ own' !! p = own !! p /\ agree own' (upd (ent (ram s)) p i 0) (ent (ram s2)) /\
  (forall a, off_tables own a -> rd (ram s2) a = rd (ram s) a).
Proof.
  intros Hi Hp Hlev Hii [Hfl Hps Hag Hfr]. cbv zeta. set (own' := prune own r (lev - 1) (pre * 512 + i)) in *.
  assert (own' !! p = Some (r, lev, pre)) as Hp'.
  { apply prune_Some. split; [done|]. intros (_ & Hl & _). cbn in Hl. lia. }
  assert (page kend p) as Hpp by (by eapply vm_pages; eauto).
  assert (agree own' (upd (ent (ram s)) p i 0) (ent (store64 (ram s1) (p + 8 * i) 0))) as Hag2.
  { intros q j Hq Hj. assert (is_Some (own !! q)) as Hq0 by (destruct Hq as [x Hx]; apply prune_Some in Hx as [Hx _]; by eexists).
    assert (page kend q) as Hqp by (by eapply vm_pages). rewrite ent_store64 by (done || apply Hpp || apply Hqp).
    unfold upd. destruct (_ && _); [done|]. by apply Hag. }
  split_and!; [split|by rewrite Hp'|exact Hag2|].
  - destruct Hfl as (H1 & H2 & H3). split_and!; try done. cbn [ram freelist]. eapply chain_frame; [exact H3|].
    apply Forall_forall. intros x Hx a Ha. rewrite Forall_forall in H2. apply rd_store64_ne.
    assert (x <> p) as Hxp.
    { intros ->. apply elem_of_app in Hx as [Hx|Hx]; [apply Hps in Hx as [_ Hx]; fold own' in Hx; congruence|].
      by rewrite (vi_dj _ _ _ _ Hi p Hx) in Hp. }
    destruct (page_disjoint kend x p); auto; lia.
  - cbn [ram]. eapply pt_ok_agree; [exact Hag2|]. eapply pt_ok_prune; [apply Hi|..].
    + intros q j x Hq Hj Hn Hne. unfold upd. destruct (Z.eqb_spec q p) as [->|]; [|done]. destruct (Z.eqb_spec j i) as [->|]; [|done].
      destruct Hne. rewrite Hp in Hq. injection Hq as <-. repeat f_equal; dlia.
    + intros q Hq. assert (q = p) as ->.
      { eapply own_inj; [apply Hi|done|exact Hq|]. rewrite Hp. repeat f_equal; dlia. }
      unfold upd. replace ((pre * 512 + i) mod 512) with i by dlia. by rewrite !Z.eqb_refl.
  - intros x Hx. apply elem_of_app in Hx as [Hx|Hx]; [by apply Hps in Hx as [_ Hx]|].
    apply eq_None_not_Some. intros [y Hy]. apply prune_Some in Hy as [Hy _]. by rewrite (vi_dj _ _ _ _ Hi x Hx) in Hy.
  - intros a Ha. cbn [ram]. rewrite rd_store64_ne; [by apply Hfr|]. specialize (Ha p ltac:(eauto)). lia.
Qed.

Lemma cleared_nil p r lev s l own : vm_inv kend s l own -> cleared p r lev [] s l own s [] own.
Proof.
  intros Hi. split; try done; [|congruence|set_solver]. intros x. split; [set_solver|]. intros [[? H] H']. congruence.
Qed.

Lemma cleared_app p r lev idx1 idx2 s l own s1 ps1 own1 s2 ps2 own2 : (forall i, i ∈ idx1 -> 0 <= i < 512 /\ i ∉ idx2) ->
  cleared p r lev idx1 s l own s1 ps1 own1 -> cleared p r lev idx2 s1 (ps1 ++ l) own1 s2 ps2 own2 ->
  cleared p r lev (idx1 ++ idx2) s l own s2 (ps2 ++ ps1) own2.
Proof.
  intros Hd [A1 A2 A3 A4 A5 A6 A7 A8 A9] [B1 B2 B3 B4 B5 B6 B7 B8 B9].
  assert (forall x t, own1 !! x = Some t -> own !! x = Some t) as Hsub by (intros; by eapply lookup_weaken).
  split.
  - by rewrite <- app_assoc.
  - by trans own1.
  - congruence.
  - intros x. rewrite elem_of_app, A4, B4. split.
    + intros [[[t Ht] Hn]|[Hs Hn]]; [split; [eauto|done]|]. split; [done|]. apply eq_None_not_Some. intros [t Ht].
      apply (lookup_weaken _ own1) in Ht; [congruence|done].
    + intros [Hs Hn]. destruct (own1 !! x) eqn:E; [left; split; [by eexists|done]|by right].
  - intros x t Hx Hn. destruct (own1 !! x) as [t'|] eqn:E.
    + pose proof (Hsub _ _ E) as E'. rewrite Hx in E'. injection E' as <-. destruct (B5 _ _ E Hn) as (pre' & Hp & Hs). eauto.
    + by eapply A5.
  - intros i [Hi|Hi]%elem_of_app; [|by apply B6]. destruct (Hd i Hi) as [Hr Hn]. rewrite B7 by done. by apply A6.
  - intros i Hi Hn. rewrite B7, A7 by set_solver. done.
  - intros q i Hq Hne Hi. assert (is_Some (own1 !! q)) by (destruct Hq as [x Hx]; exists x; by eapply lookup_weaken).
    rewrite B8, A8 by done. done.
  - intros a Ha. rewrite B9, A9; [done|done|]. intros q [x Hx]. apply Ha. eauto.
Qed.

Lemma cleared_no_leaf p r lev idx s l own s1 ps own1 : (forall i, i ∈ idx -> 0 <= i < 512) -> cleared p r lev idx s l own s1 ps own1 ->
  no_leaf r s own -> no_leaf r s1 own1.
Proof.
  intros Hr C Hn q pre i Hq Hi. pose proof (lookup_weaken _ _ _ _ Hq (cl_sub _ _ _ _ _ _ _ _ _ _ C)) as Hq0.
  destruct (decide (q = p)) as [->|Hne].
  - destruct (decide (i ∈ idx)); [by apply C|]. rewrite (cl_todo _ _ _ _ _ _ _ _ _ _ C) by done. by eapply Hn.
  - rewrite (cl_agree _ _ _ _ _ _ _ _ _ _ C) by (done || by eexists). by eapply Hn.
Qed.

Section Walk.
Variables (h : list lockid) (r lev : Z) (W : Z -> M kmem unit).
Hypothesis Hh : kmem_lock ∉ h.
Hypothesis W_spec : forall s l own c pre, vm_inv kend s l own -> own !! c = Some (r, lev - 1, pre) -> no_leaf r s own -> 0 < lev ->
  wp (W c) (KSt h s) (fun _ k => held k = h /\ exists ps, walked r (lev - 1) pre s l own (st k) ps).

Lemma free_entry_spec p pre i s l own : vm_inv kend s l own -> own !! p = Some (r, lev, pre) -> no_leaf r s own -> 0 <= i < 512 ->
  wp (free_entries W p [i]) (KSt h s) (fun _ k => held k = h /\ exists ps own', cleared p r lev [i] s l own (st k) ps own').
Proof using W_spec Hh kend_kern.
  intros Hi Hp Hn Hii. cbn [free_entries]. wstep. apply wp_ld. cbn [st]. fold (ent (ram s) p i). wstep.
  destruct (bits_set (ent (ram s) p i) PTE_V) eqn:Hv; cbn [andb]; cycle 1.
  { wstep. wstep. split; [done|]. exists [], own. destruct (cleared_nil p r lev s l own Hi). split; try done. set_solver. }
  destruct (decide (0 < lev)) as [Hlev|]; cycle 1.
  { destruct (pt_page _ _ _ (vi_pt _ _ _ _ Hi) _ _ _ _ Hp). replace lev with 0 in Hp by lia. rewrite (Hn p pre i) in Hv; done. }
  rewrite (pt_ptr _ _ _ (vi_pt _ _ _ _ Hi) _ _ _ _ i Hp) by done. cbn [negb]. wstep.
  pose proof (pt_link _ _ _ (vi_pt _ _ _ _ Hi) _ _ _ _ i Hp Hlev Hii Hv) as Hc.
  eapply wp_mono; [by eapply (W_spec s l own)|]. intros _ [h' s1] (Eh & ps & Hw). cbn [held st] in *. subst h'.
  destruct (unlink_ok p r lev pre i s l own s1 ps Hi Hp Hlev Hii Hw) as (U1 & U2 & U3 & U4).
  unfold sd. wstep. wstep. split; [done|]. exists ps. eexists. split; [exact U1| |exact U2|apply Hw|..].
  - unfold prune. apply map_filter_subseteq.
  - intros x t Hx Hx'. exists pre. split; [done|].
    destruct (proj1 (prune_None own r (lev - 1) (pre * 512 + i) x) (conj (mk_is_Some _ _ Hx) Hx')) as ([[r' l'] pre'] & Ht & Hs).
    rewrite Hx in Ht. injection Ht as ->. pose proof Hs as (E1 & E2 & E3). cbn in E1, E2, E3. subst r'. split_and!; cbn; [done|lia|].
    replace (lev - l') with ((lev - 1 - l') + 1) by lia. rewrite Z.pow_add_r by lia. change (512 ^ 1) with 512.
    rewrite <- Z.div_div by (lia || (apply Z.pow_pos_nonneg; lia)). rewrite E3. dlia.
  - intros j ->%list_elem_of_singleton. rewrite U3 by (rewrite ?U2; eauto). unfold upd. by rewrite !Z.eqb_refl.
  - intros j Hj Hnj. rewrite U3 by (rewrite ?U2; eauto). unfold upd. destruct (Z.eqb_spec j i); [set_solver|]. by rewrite andb_false_r.
  - intros q j Hq Hne Hj. rewrite U3 by done. unfold upd. by destruct (Z.eqb_spec q p).
  - exact U4.
Qed.

Lemma free_entries_cons p i idx k (Q : unit -> kst kmem -> Prop) :
  wp (free_entries W p [i]) k (fun _ k' => wp (free_entries W p idx) k' Q) -> wp (free_entries W p (i :: idx)) k Q.
Proof using.
  cbn [free_entries]. unfold wp, mbind, M_bind, mret, M_ret. destruct (ld _ _); [|done..].
  match goal with |- context [match ?m ?k with _ => _ end] => destruct (m k) end; done.
Qed.
Lemma free_entries_spec p pre idx : forall s l own, vm_inv kend s l own -> own !! p = Some (r, lev, pre) -> no_leaf r s own ->
  NoDup idx -> (forall i, i ∈ idx -> 0 <= i < 512) ->
  wp (free_entries W p idx) (KSt h s) (fun _ k => held k = h /\ exists ps own', cleared p r lev idx s l own (st k) ps own').
Proof using W_spec Hh kend_kern.
  induction idx as [|i idx IH]; intros s l own Hi Hp Hn Hnd Hr.
  { cbn [free_entries]. wstep. split; [done|]. exists [], own. by apply cleared_nil. }
  apply NoDup_cons in Hnd as [Hni Hnd].
  apply free_entries_cons.
  eapply wp_mono; [apply (free_entry_spec p pre i s l own); try done; apply Hr; set_solver|].
  intros _ [h' s1] (Eh & ps1 & own1 & C1). cbn [held st] in *. subst h'.
  eapply wp_mono; [apply (IH s1 (ps1 ++ l) own1)|].
  - apply C1.
  - rewrite (cl_p _ _ _ _ _ _ _ _ _ _ C1). exact Hp.
  - eapply cleared_no_leaf; [|exact C1|done]. intros j ->%list_elem_of_singleton. apply Hr. set_solver.
  - done.
  - intros j Hj. apply Hr. set_solver.
  - intros _ k (Hk & ps2 & own2 & C2). split; [done|]. exists (ps2 ++ ps1), own2.
    apply (cleared_app p r lev [i] idx s l own s1 ps1 own1); [|done|done]. intros j ->%list_elem_of_singleton. split; [apply Hr; set_solver|done].
Qed.

(** freewalk of one table, its children having been freed by [W]. *)
Lemma free_table_spec p pre s l own : vm_inv kend s l own -> own !! p = Some (r, lev, pre) -> no_leaf r s own ->
  wp (free_entries W p (seqZ 0 512) ;; kfree kend p) (KSt h s) (fun _ k => held k = h /\ exists ps, walked r lev pre s l own (st k) ps).
Proof using W_spec Hh kend_kern.
  intros Hi Hp Hn. wstep. eapply wp_mono; [apply (free_entries_spec p pre (seqZ 0 512) s l own); try done|].
  { apply NoDup_seqZ. } { intros i. rewrite elem_of_seqZ. lia. }
  intros _ [h' s1] (Eh & ps & own1 & C). cbn [held st] in *. subst h'.
  assert (own1 !! p = Some (r, lev, pre)) as Hp1 by (by rewrite (cl_p _ _ _ _ _ _ _ _ _ _ C)).
  assert (page kend p) as Hpp by (eapply vm_pages; eauto).
  pose proof (cl_inv _ _ _ _ _ _ _ _ _ _ C) as Hi1.
  assert (p ∉ ps ++ l) as Hpl by (intros Hin; rewrite (vi_dj _ _ _ _ Hi1 p Hin) in Hp1; done).
  eapply wp_mono; [apply (kfree_spec kend kend_kern h s1 (ps ++ l) p Hh (vi_fl _ _ _ _ Hi1) Hpp Hpl)|].
  intros _ [h' s2] (Eh & Hfl & Hop). cbn [held st] in *. subst h'. split; [done|]. exists (p :: ps).
  assert (forall x, own1 !! x = None \/ x = p <-> own !! x = None \/ (exists t, own !! x = Some t /\ in_sub r lev pre t)) as Hgone.
  { intros x. split.
    - intros [Hx|Hx]; [|right; subst x; exists (r, lev, pre); split; [done|apply in_sub_self]].
      destruct (own !! x) as [t|] eqn:E; [right|by left]. exists t. split; [done|].
      destruct (cl_below _ _ _ _ _ _ _ _ _ _ C x t E Hx) as (pre' & Hp' & Hs). rewrite Hp in Hp'. injection Hp' as <-. done.
    - intros [Hx|(t & Hx & Hs)].
      + left. apply eq_None_not_Some. intros [t Ht]. apply (lookup_weaken _ own) in Ht; [congruence|apply C].
      + destruct (own1 !! x) as [t'|] eqn:E; [right|by left]. pose proof (lookup_weaken _ _ _ _ E (cl_sub _ _ _ _ _ _ _ _ _ _ C)) as E'.
        rewrite Hx in E'. injection E' as <-. destruct t as [[r' l'] pre']. pose proof Hs as (Er & _). cbn in Er. subst r'.
        eapply (sub_empty own1 (ent (ram s1)) p r lev pre); [apply Hi1|done| |reflexivity|exact E|done].
        intros i Hi'. apply C. rewrite elem_of_seqZ. lia. }
  split.
  - done.
  - intros x. rewrite prune_None, elem_of_cons, (cl_ps _ _ _ _ _ _ _ _ _ _ C). specialize (Hgone x). split.
    + intros [->|[[t Ht] Hx]]; [exists (r, lev, pre); split; [done|apply in_sub_self]|].
      destruct (proj1 Hgone (or_introl Hx)) as [?|(t' & E' & Hs)]; [congruence|]. eauto.
    + intros (t & Ht & Hs). destruct (proj2 Hgone (or_intror (ex_intro _ t (conj Ht Hs)))) as [?| ->]; [right; split; [by eexists|done]|by left].
  - intros q i Hq Hii. destruct Hq as [t Ht]. apply prune_Some in Ht as [Ht Hns]. specialize (Hgone q).
    assert (q <> p) as Hqp by (intros ->; rewrite Hp in Ht; injection Ht as <-; apply Hns, in_sub_self).
    assert (is_Some (own1 !! q)) as Hq1.
    { destruct (own1 !! q) as [?|] eqn:E; [by eexists|]. destruct (proj1 Hgone (or_introl eq_refl)) as [?|(t' & E' & Hs)]; [congruence|]. rewrite Ht in E'. injection E' as <-. done. }
    rewrite <- (cl_agree _ _ _ _ _ _ _ _ _ _ C q i) by done. apply ent_ext; [|done].
    apply (only_page_same kend _ _ p q); try done. eapply vm_pages; [exact Hi1|exact Hq1].
  - intros a Ha. rewrite Hop by (apply Ha; eauto). by apply C.
Qed.
End Walk.

Lemma freewalk_spec h d : forall s l own p r pre, kmem_lock ∉ h -> vm_inv kend s l own -> own !! p = Some (r, Z.of_nat d, pre) -> no_leaf r s own ->
  wp (freewalk kend (S d) p) (KSt h s) (fun _ k => held k = h /\ exists ps, walked r (Z.of_nat d) pre s l own (st k) ps).
Proof using kend_kern.
  induction d as [|d IH]; intros s l own p r pre Hh Hi Hp Hn; rewrite freewalk_S; apply (free_table_spec h r _ _ Hh); try done.
  intros s' l' own' c pre' Hi' Hc Hn' _. replace (Z.of_nat (S d) - 1) with (Z.of_nat d) in * by lia. by apply IH.
Qed.
End Free.
