(* ===== verification/VmPool.v ===== *)
(** * Physical memory shared by all address spaces

    [mem_ok s R U]: the pages of the pool are divided between the free list, the page tables
    and the pages [U] in use; [R] gives, for the root of every page table, the leaf entry of
    each virtual page.  The operations of vm.c are then updates of [R] and [U]: this is what
    proc.c and exec.c rely on, and it is stated here once for each of them. *)
From S2P Require Import Prelude Mem Riscv Kalloc Vm VmTree VmSpec VmAlloc VmFree.

Abbreviation spaces := (gmap Z (Z -> Z)).

Definition tables (own : owner) : list Z := elements (dom own).
Lemma elem_of_tables own p : p ∈ tables own <-> is_Some (own !! p).
Proof. unfold tables. by rewrite elem_of_elements, elem_of_dom. Qed.
Lemma tables_NoDup own : NoDup (tables own).
Proof. unfold tables. apply NoDup_elements. Qed.
Lemma tables_add own own' n : NoDup n -> (forall p, p ∈ n -> own !! p = None) ->
  (forall p, is_Some (own' !! p) <-> is_Some (own !! p) \/ p ∈ n) -> tables own' ≡ₚ n ++ tables own.
Proof.
  intros Hn Hd H. apply NoDup_Permutation; [apply tables_NoDup|..].
  - apply NoDup_app. split_and!; [done| |apply tables_NoDup]. intros p Hp. rewrite elem_of_tables, Hd by done. by intros [].
  - intros p. rewrite elem_of_app, !elem_of_tables, H. tauto.
Qed.

Section Pool.
Variables (kend : Z) (pool : list Z).
Hypothesis kend_kern : KERNBASE <= kend.
Hypothesis pool_nodup : NoDup pool.
Hypothesis pool_pages : Forall (page kend) pool.
Implicit Types (s : kmem) (R : spaces) (U l : list Z) (own : owner).

Record mem_at s R U l own : Prop := {
  ma_vm : vm_inv kend s l own;
  ma_roots : forall r, root_of own r <-> is_Some (R !! r);
  ma_lk : forall r f va, R !! r = Some f -> 0 <= va < MAXVA -> lk (ent (ram s)) r va = f (va / 4096);
  ma_pool : l ++ tables own ++ U ≡ₚ pool;
}.
Definition mem_ok s R U : Prop := exists l own, mem_at s R U l own.
(** Only pages outside [U] changed. *)
Definition stays U s s' : Prop := forall x, (forall p, p ∈ pool -> p ∉ U -> off_page x p) -> rd (ram s') x = rd (ram s) x.

Lemma stays_refl U s : stays U s s.
Proof. done. Qed.
Lemma stays_trans U s1 s2 s3 : stays U s1 s2 -> stays U s2 s3 -> stays U s1 s3.
Proof. intros H1 H2 x Hx. by rewrite H2, H1. Qed.
Lemma stays_sub U U' s s' : (forall p, p ∈ pool -> p ∈ U -> p ∈ U') -> stays U' s s' -> stays U s s'.
Proof. intros Hs H x Hx. apply H. intros p Hp Hn. apply Hx; naive_solver. Qed.
Lemma mem_at_perm s R U U' l own : U ≡ₚ U' -> mem_at s R U l own -> mem_at s R U' l own.
Proof. intros E [H1 H2 H3 H4]. split; try done. by rewrite <- E. Qed.
Lemma mem_ok_perm s R U U' : U ≡ₚ U' -> mem_ok s R U -> mem_ok s R U'.
Proof. intros E (l & own & H). exists l, own. by eapply mem_at_perm. Qed.
#[global] Instance mem_ok_proper s R : Proper (Permutation ==> iff) (mem_ok s R).
Proof. intros U U' E. split; [by apply mem_ok_perm|by apply mem_ok_perm]. Qed.
(** Leaf functions matter only below MAXVA. *)
Definition same_space (f g : Z -> Z) : Prop := forall v, 0 <= v < MAXVA / 4096 -> f v = g v.
Lemma mem_ok_ext s R U root f g : same_space f g -> mem_ok s (<[root := f]> R) U -> mem_ok s (<[root := g]> R) U.
Proof.
  intros E (l & own & [H1 H2 H3 H4]). exists l, own. split; try done.
  - intros r. rewrite H2, !lookup_insert_is_Some. done.
  - intros r f' va Hr Hva. destruct (decide (root = r)) as [<-|].
    + rewrite lookup_insert_eq in Hr. injection Hr as <-. rewrite (H3 root f) by (done || apply lookup_insert_eq). apply E.
      change MAXVA with (2 ^ 26 * 4096) in *. split; [apply Z.div_pos; lia|]. rewrite Z.div_mul by lia. apply Z.div_lt_upper_bound; lia.
    + rewrite lookup_insert_ne in Hr by done. apply H3; [|done]. by rewrite lookup_insert_ne.
Qed.

Lemma mem_disjoint s R U l own p : mem_at s R U l own -> p ∈ U -> p ∈ pool /\ page kend p /\ (p ∉ l) /\ own !! p = None.
Proof.
  intros [_ _ _ Hp] Hu. assert (p ∈ pool) as Hpp by (rewrite <- Hp; set_solver).
  pose proof pool_nodup as Hn. rewrite <- Hp in Hn. apply NoDup_app in Hn as (_ & Hn1 & Hn). apply NoDup_app in Hn as (_ & Hn2 & _).
  split_and!; [done|by eapply Forall_forall in pool_pages| |].
  - intros Hl. eapply Hn1; [exact Hl|]. set_solver.
  - apply eq_None_not_Some. intros Hs%elem_of_tables. by apply (Hn2 p).
Qed.
Lemma mem_nodup s R U l own : mem_at s R U l own -> NoDup U.
Proof. intros [_ _ _ Hp]. pose proof pool_nodup as Hn. rewrite <- Hp, !NoDup_app in Hn. tauto. Qed.
Lemma stays_outside U s R l own x : mem_at s R U l own -> (forall p, p ∈ pool -> p ∉ U -> off_page x p) -> outside l own x.
Proof.
  intros Hm Hx. assert (forall p, p ∈ l ++ tables own -> off_page x p) as H.
  { intros p Hp. apply Hx; [rewrite <- (ma_pool _ _ _ _ _ Hm); set_solver|]. intros Hu.
    destruct (mem_disjoint _ _ _ _ _ p Hm Hu) as (_ & _ & Hl & Ho). apply elem_of_app in Hp as [Hp|Hp%elem_of_tables]; [done|].
    rewrite Ho in Hp. by destruct Hp. }
  split; [|intros p Hp; apply H; set_solver]. intros p Hp. apply H. apply elem_of_app. right. by apply elem_of_tables.
Qed.
Lemma kept_off s R U l own p o : mem_at s R U l own -> p ∈ U -> 0 <= o < 4096 -> forall q, q ∈ pool -> q ∉ U -> off_page (p + o) q.
Proof.
  intros Hm Hp Ho q Hq Hn. destruct (mem_disjoint _ _ _ _ _ p Hm Hp) as (_ & Hpp & _). unfold off_page.
  destruct (page_disjoint kend p q Hpp); [by eapply Forall_forall in pool_pages|set_solver|lia..].
Qed.
(** The bytes of the pages in use. *)
Lemma stays_page s R U s' p o : mem_ok s R U -> stays U s s' -> p ∈ U -> 0 <= o < 4096 -> rd (ram s') (p + o) = rd (ram s) (p + o).
Proof. intros (l & own & Hm) Hs Hp Ho. apply Hs. by eapply kept_off. Qed.

(** Stores to pages in use, or outside the pool. *)
Lemma mem_at_write s R U l own m' : mem_at s R U l own ->
  (forall x, (exists p, p ∈ pool /\ (p ∉ U) /\ ~ off_page x p) -> rd m' x = rd (ram s) x) -> mem_at (Kmem m' (freelist s)) R U l own.
Proof.
  intros Hm Hw. pose proof Hm as [[Hfl Hpt Hdj] Hr Hlk Hp].
  assert (forall p, p ∈ l \/ is_Some (own !! p) -> same_page (ram s) m' p) as Hsame.
  { intros p Hpp x Hx. apply Hw. exists p. split_and!.
    - rewrite <- Hp. rewrite !elem_of_app, elem_of_tables. tauto.
    - intros Hu. destruct (mem_disjoint _ _ _ _ _ p Hm Hu) as (_ & _ & Hl & Ho). destruct Hpp as [?|Hs]; [done|]. rewrite Ho in Hs. by destruct Hs.
    - unfold off_page. lia. }
  assert (agree own (ent (ram s)) (ent m')) as Hag by (apply agree_frame; intros; apply Hsame; by right).
  split; try done.
  - split; [|by eapply pt_ok_agree|done]. destruct Hfl as (H1 & H2 & H3). split_and!; try done. cbn. eapply chain_frame; [exact H3|].
    apply Forall_forall. intros p Hl. apply Hsame. by left.
  - intros r f va Hf Hva. cbn [ram]. rewrite <- (Hlk r f va Hf Hva). eapply lk_agree; [exact Hag|exact Hpt|]. apply Hr. eauto.
Qed.
Lemma mem_ok_write s R U m' : mem_ok s R U ->
  (forall x, (exists p, p ∈ pool /\ (p ∉ U) /\ ~ off_page x p) -> rd m' x = rd (ram s) x) -> mem_ok (Kmem m' (freelist s)) R U.
Proof. intros (l & own & Hm) Hw. exists l, own. by apply mem_at_write. Qed.
Lemma mem_ok_write_page s R U p m' : mem_ok s R U -> p ∈ U -> only_page (ram s) m' p -> mem_ok (Kmem m' (freelist s)) R U.
Proof.
  intros Hm Hp Ho. apply mem_ok_write; [done|]. intros x (q & Hq & Hn & Hx). apply Ho. destruct Hm as (l & own & Hm).
  destruct (mem_disjoint _ _ _ _ _ p Hm Hp) as (_ & Hpp & _). unfold off_page in Hx.
  destruct (page_disjoint kend p q Hpp); [by eapply Forall_forall in pool_pages|set_solver|lia..].
Qed.

(** ** kalloc and kfree *)

Lemma kalloc_pool h s R U : kmem_lock ∉ h -> mem_ok s R U ->
  wp kalloc (KSt h s) (fun r k => held k = h /\ stays U s (st k) /\
    ((r = 0 /\ mem_ok (st k) R U) \/ (r <> 0 /\ page kend r /\ (r ∉ U) /\ r ∈ pool /\ mem_ok (st k) R (r :: U)))).
Proof.
  intros Hh (l & own & Hm). pose proof Hm as [Hvm Hr Hlk Hp].
  eapply wp_mono; [apply (kalloc_spec kend kend_kern h s l Hh (vi_fl _ _ _ _ Hvm))|]. intros r [h' s'] [Eh Hc]. cbn [held st] in *. subst h'.
  split; [done|]. destruct l as [|q l].
  { destruct Hc as [-> ->]. split; [apply stays_refl|]. left. split; [done|]. by exists [], own. }
  destruct Hc as (-> & Hfl & Hop & _). assert (q ∈ pool) as Hqp by (rewrite <- Hp; set_solver).
  pose proof pool_nodup as Hn. rewrite <- Hp in Hn. cbn in Hn. apply NoDup_cons in Hn as [Hq Hn].
  assert (page kend q) as Hqq by (by eapply Forall_forall in pool_pages).
  assert (own !! q = None) as Hqo by (apply Hvm; set_solver).
  assert (agree own (ent (ram s)) (ent (ram s'))) as Hag.
  { apply agree_frame. intros p Hpp. eapply (only_page_same kend); [exact Hqq|by eapply vm_pages| |done]. intros ->. rewrite Hqo in Hpp. by destruct Hpp. }
  split; [|right; split_and!; [pose proof (page_pos kend kend_kern q Hqq); lia|done|set_solver|done|]].
  - intros x Hx. apply Hop. apply Hx; [done|set_solver].
  - exists l, own. split; try done.
    + split; [done|eapply pt_ok_agree; [exact Hag|apply Hvm]|]. intros p Hl. apply Hvm. set_solver.
    + intros r f va Hf Hva. rewrite <- (Hlk r f va Hf Hva). eapply lk_agree; [exact Hag|apply Hvm|]. apply Hr. eauto.
    + rewrite <- Hp. cbn. rewrite <- (Permutation_middle (tables own) U q), <- (Permutation_middle l). done.
Qed.

Lemma kfree_pool h s R U q : kmem_lock ∉ h -> mem_ok s R (q :: U) ->
  wp (kfree kend q) (KSt h s) (fun _ k => held k = h /\ stays U s (st k) /\ mem_ok (st k) R U).
Proof.
  intros Hh (l & own & Hm). pose proof Hm as [Hvm Hr Hlk Hp]. destruct (mem_disjoint _ _ _ _ _ q Hm) as (Hq & Hqp & Hql & Hqo); [set_solver|].
  pose proof (mem_nodup _ _ _ _ _ Hm) as [Hqu _]%NoDup_cons.
  eapply wp_mono; [apply (kfree_vm kend kend_kern h s l own q Hh Hvm Hqp Hql Hqo)|]. intros _ [h' s'] (Eh & Hi & Hop & Hag). cbn [held st] in *. subst h'.
  split_and!; [done|intros x Hx; by apply Hop, Hx|]. exists (q :: l), own. split; try done.
  - intros r f va Hf Hva. rewrite <- (Hlk r f va Hf Hva). eapply lk_agree; [exact Hag|apply Hvm|]. apply Hr. eauto.
  - rewrite <- Hp. cbn. rewrite <- (Permutation_middle (tables own) U q), <- (Permutation_middle l). done.
Qed.

(** ** Page tables *)

Lemma changes_mem g s R U l own s' R' l' own' : mem_at s R U l own -> vm_inv kend s' l' own' -> changes g s l own s' l' own' ->
  (forall r, is_Some (R !! r) <-> is_Some (R' !! r)) ->
  (forall r f f' va, R !! r = Some f -> R' !! r = Some f' -> 0 <= va < MAXVA -> f' (va / 4096) = g r va (f (va / 4096))) ->
  mem_ok s' R' U /\ stays U s s'.
Proof.
  intros Hm Hi Hx Hd Hf. pose proof Hm as [Hvm Hr Hlk Hp]. destruct (ch_list _ _ _ _ _ _ _ Hx) as (n & -> & Hn). split.
  - exists l', own'. split; [done|..].
    + intros r. rewrite <- Hd, <- Hr. split; [apply Hx|by eapply root_changes].
    + intros r f' va Hr' Hva. destruct (proj2 (Hd r) (mk_is_Some _ _ Hr')) as [f Hf0].
      rewrite (ch_lk _ _ _ _ _ _ _ Hx) by (done || (apply Hr; eauto)). rewrite (Hlk r f) by done. symmetry. by eapply Hf.
    + rewrite <- Hp. assert (tables own' ≡ₚ n ++ tables own) as ->; [|by rewrite <- !app_assoc, (app_assoc l' n), (Permutation_app_comm l' n), <- app_assoc].
      destruct (vi_fl _ _ _ _ Hvm) as (Hnd & _). apply NoDup_app in Hnd as (Hnd & _ & _). apply tables_add; [done| |done].
      intros p Hpn. apply Hvm. set_solver.
  - intros x Hx'. apply (ch_frame _ _ _ _ _ _ _ Hx). destruct (stays_outside _ _ _ _ _ _ Hm Hx') as [Ho Hl].
    intros p Hpo. apply Hn in Hpo as [Hpo|Hpo]; [by apply Ho|]. apply Hl. set_solver.
Qed.

(** A zeroed page in use becomes an empty page table. *)
Lemma add_root s R U q : mem_ok s R (q :: U) -> (forall o, 0 <= o < 4096 -> rd (ram s) (q + o) = 0) ->
  R !! q = None /\ mem_ok s (<[q := fun _ => 0]> R) U.
Proof.
  intros (l & own & Hm) Hz. pose proof Hm as [Hvm Hr Hlk Hp]. destruct (mem_disjoint _ _ _ _ _ q Hm) as (Hq & Hqp & Hql & Hqo); [set_solver|].
  assert (R !! q = None) as HR.
  { apply eq_None_not_Some. intros Hs. apply Hr in Hs. unfold root_of in Hs. congruence. }
  split; [done|]. assert (forall i, 0 <= i < 512 -> ent (ram s) q i = 0) as He.
  { intros i Hi. unfold ent. apply load64_zero. intros b Hb. replace b with (q + (b - q)) by lia. apply Hz. lia. }
  pose proof (vi_pt _ _ _ _ Hvm) as Hok. exists l, (<[q := (q, 2, 0)]> own). split.
  - split; [apply Hvm| |].
    + assert (forall p r lev pre i, <[q := (q, 2, 0)]> own !! p = Some (r, lev, pre) -> 0 <= i < 512 -> bits_set (ent (ram s) p i) PTE_V = true -> own !! p = Some (r, lev, pre)) as Hold.
      { intros p r lev pre i Hpo Hi Hv. destruct (decide (q = p)) as [<-|]; [by rewrite He in Hv|]. by rewrite lookup_insert_ne in Hpo. }
      split.
      * intros p r lev pre Hpo. destruct (decide (q = p)) as [<-|]; [rewrite lookup_insert_eq in Hpo; injection Hpo as <- <- <-; split; [done|lia]|].
        rewrite lookup_insert_ne in Hpo by done. by eapply Hok.
      * intros p r lev pre i Hpo Hlev Hi Hv. pose proof (Hold _ _ _ _ _ Hpo Hi Hv) as Ho. pose proof (pt_link _ _ _ Hok _ _ _ _ i Ho Hlev Hi Hv) as Hc.
        rewrite lookup_insert_ne; [done|]. intros E. rewrite <- E in Hc. congruence.
      * intros p r lev pre i Hpo Hlev Hi Hv. pose proof (Hold _ _ _ _ _ Hpo Hi Hv) as Ho. by eapply (pt_ptr _ _ _ Hok).
      * intros p r lev pre Hpo. destruct (decide (q = p)) as [<-|]; [rewrite lookup_insert_eq in Hpo; injection Hpo as <- <- <-; by left|].
        rewrite lookup_insert_ne in Hpo by done. destruct (pt_up _ _ _ Hok _ _ _ _ Hpo) as [?|(? & q' & Hq' & ?)]; [by left|right].
        split; [done|]. exists q'. rewrite lookup_insert_ne by (intros ->; congruence). done.
      * intros p r pre Hpo. destruct (decide (q = p)) as [<-|]; [by rewrite lookup_insert_eq in Hpo|].
        rewrite lookup_insert_ne in Hpo by done. by eapply Hok.
    + intros p Hpl. rewrite lookup_insert_ne; [by apply Hvm|]. intros ->. done.
  - intros r. unfold root_of. destruct (decide (q = r)) as [<-|Hne]; [rewrite !lookup_insert_eq; split; [eauto|done]|].
    rewrite !lookup_insert_ne by done. apply Hr.
  - intros r f va Hf Hva. destruct (decide (q = r)) as [<-|Hne].
    + rewrite lookup_insert_eq in Hf. injection Hf as <-. unfold lk, path0. pose proof (PX_range 2 va). rewrite He by lia. done.
    + rewrite lookup_insert_ne in Hf by done. by apply Hlk.
  - rewrite <- Hp. assert (tables (<[q := (q, 2, 0)]> own) ≡ₚ [q] ++ tables own) as ->.
    { apply tables_add; [by apply NoDup_singleton|by intros p ->%list_elem_of_singleton|]. intros p. rewrite lookup_insert_is_Some, list_elem_of_singleton.
      split; [intros [->|[_ ?]]; auto|]. intros [?| ->]; [|by left]. destruct (decide (q = p)); auto. }
    cbn. by rewrite <- (Permutation_middle (tables own) U q).
Qed.

Lemma uvmcreate_pool h s R U : kmem_lock ∉ h -> mem_ok s R U ->
  wp uvmcreate (KSt h s) (fun r k => held k = h /\ stays U s (st k) /\
    ((r = 0 /\ mem_ok (st k) R U) \/ (r <> 0 /\ R !! r = None /\ mem_ok (st k) (<[r := fun _ => 0]> R) U))).
Proof.
  intros Hh Hm. unfold uvmcreate. wstep. eapply wp_mono; [by apply (kalloc_pool h s R U)|]. intros q [h' s1] (Eh & Hs & Hc).
  cbn [held st] in *. subst h'. destruct Hc as [[-> Hm1]|(Hq & Hqp & Hqu & Hqq & Hm1)]; [rewrite Z.eqb_refl; wstep; split_and!; [done|done|by left]|].
  destruct (Z.eqb_spec q 0); [done|]. unfold on_ram. wstep. wstep. wstep. cbn [held st].
  assert (only_page (ram s1) (memset (ram s1) q 0 PGSIZE) q) as Ho by (intros x Hx; unfold PGSIZE; apply rd_memset_out; lia).
  split_and!; [done| |right; split; [done|]].
  - eapply stays_trans; [exact Hs|]. intros x Hx. cbn [ram]. apply Ho. by apply Hx.
  - apply add_root; [eapply (mem_ok_write_page _ _ _ q); [exact Hm1|set_solver|done]|]. intros o Hoo. cbn [ram]. unfold PGSIZE. by rewrite rd_memset_in by lia.
Qed.

(** Mapping one page. *)
Lemma mappages_pool h s R U root f va pa perm : kmem_lock ∉ h -> mem_ok s R U -> R !! root = Some f ->
  va mod 4096 = 0 -> 0 <= va < MAXVA -> 0 <= pa -> pa + 4096 <= 2 ^ 56 -> 0 <= perm < 1024 -> bits_set (f (va / 4096)) PTE_V = false ->
  wp (mappages root va PGSIZE pa perm) (KSt h s) (fun r k => held k = h /\ stays U s (st k) /\
    ((r = -1 /\ mem_ok (st k) R U) \/ (r = 0 /\ mem_ok (st k) (<[root := fupd f (va / 4096) (mkpte pa (Z.lor perm PTE_V))]> R) U))).
Proof.
  intros Hh (l & own & Hm) HR Ha Hva Hpa Hpa2 Hperm Hv. pose proof Hm as [Hvm Hr Hlk Hp]. change PGSIZE with (4096 * 1).
  assert (MAXVA = 4096 * 2 ^ 26) by done.
  eapply wp_mono; [apply (mappages_spec kend kend_kern h s l own); try done; try lia; try dlia|].
  { apply Hr. eauto. } { intros j Hj. replace (va + 4096 * j) with va by lia. by rewrite (Hlk root f). }
  intros r [h' s'] (Eh & j & l' & own' & Hi & Hx & Hc). cbn [held st] in *. subst h'. split; [done|].
  destruct Hc as [(-> & ->)|(-> & Hj & ->)].
  - destruct (changes_mem _ s R U l own s' (<[root := fupd f (va / 4096) (mkpte pa (Z.lor perm PTE_V))]> R) l' own' Hm Hi Hx) as [Hm' Hs]; [| |split; [done|by right]].
    + intros r. rewrite lookup_insert_is_Some. split; [|naive_solver]. intros ?. destruct (decide (root = r)); auto.
    + intros r f0 f' va' Hf Hf' Hva'. rewrite <- map_range_1. unfold map_one. destruct (Z.eqb_spec r root) as [->|]; cbn [andb].
      * rewrite lookup_insert_eq in Hf'. injection Hf' as <-. rewrite HR in Hf. injection Hf as <-. unfold fupd. by destruct (va' / 4096 =? va / 4096).
      * rewrite lookup_insert_ne in Hf' by done. congruence.
  - destruct (changes_mem _ s R U l own s' R [] own' Hm Hi Hx) as [Hm' Hs]; [done| |split; [done|by left]].
    intros r f0 f' va' Hf Hf' Hva'. assert (j = 0) as -> by lia. rewrite map_range_0. congruence.
Qed.

(** ** uvmunmap and uvmfree *)

Definition cut (f : Z -> Z) (v n : Z) : Z -> Z := fun w => if (v <=? w) && (w <? v + n) then 0 else f w.
Definition pages_at (f : Z -> Z) (v : Z) (n : nat) : list Z := (fun j => PTE2PA (f (v + j))) <$> seqZ 0 (Z.of_nat n).

Lemma uvmunmap_pool h s R U U' root f va n (do_free : bool) : kmem_lock ∉ h -> mem_ok s R U -> R !! root = Some f ->
  va mod 4096 = 0 -> 0 <= va -> 0 <= n -> va + 4096 * n <= MAXVA ->
  (forall j, 0 <= j < n -> is_leaf (f (va / 4096 + j))) ->
  U ≡ₚ (if do_free then pages_at f (va / 4096) (Z.to_nat n) else []) ++ U' ->
  wp (uvmunmap kend root va n do_free) (KSt h s) (fun _ k => held k = h /\ stays U' s (st k) /\
    mem_ok (st k) (<[root := cut f (va / 4096) n]> R) U').
Proof.
  intros Hh (l & own & Hm) HR Ha Hva Hn Hmax Hleaf HU. pose proof Hm as [Hvm Hr Hlk Hp].
  assert (forall j, 0 <= j < n -> lk (ent (ram s)) root (va + 4096 * j) = f (va / 4096 + j)) as Hlkj.
  { intros j Hj. rewrite (Hlk root f) by (done || lia). f_equal. dlia. }
  assert (freed do_free (ram s) root va (Z.to_nat n) = if do_free then pages_at f (va / 4096) (Z.to_nat n) else []) as Ef.
  { destruct do_free; [|done]. unfold freed, leaves, pages_at. apply list_fmap_ext. intros i j Hj%lookup_seqZ. cbn. rewrite Hlkj by lia. done. }
  set (ps := if do_free then pages_at f (va / 4096) (Z.to_nat n) else []) in *.
  assert (freeable kend l own ps) as Hfr.
  { pose proof (mem_nodup _ _ _ _ _ Hm) as Hnd. rewrite HU in Hnd. split; [by apply NoDup_app in Hnd as [? _]|]. apply Forall_forall. intros p Hpp.
    destruct (mem_disjoint _ _ _ _ _ p Hm) as (_ & ? & ? & ?); [rewrite HU; set_solver|done]. }
  eapply wp_mono; [apply (uvmunmap_spec kend kend_kern h s l own root va n do_free); try done|].
  { apply Hr. eauto. } { intros j Hj. rewrite Hlkj by done. by apply Hleaf. } { by rewrite Ef. }
  rewrite Ef. intros _ [h' s'] (Eh & Hi & Hl & Hfm). cbn [held st] in *. subst h'. split; [done|]. split.
  - intros x Hx. destruct (stays_outside U s R l own x Hm) as [Ho1 Ho2].
    { intros p Hpp Hpu. apply Hx; [done|]. rewrite HU in Hpu. set_solver. }
    apply Hfm; [done|]. intros p Hpp. apply Hx; [rewrite <- Hp, HU; set_solver|]. intros Hu'.
    pose proof (mem_nodup _ _ _ _ _ Hm) as Hnd. rewrite HU, NoDup_app in Hnd. by eapply Hnd.
  - exists (rev ps ++ l), own. split; [done|..].
    + intros r. rewrite Hr, lookup_insert_is_Some. split; [|naive_solver]. intros ?. destruct (decide (root = r)); auto.
    + intros r f' va' Hf' Hva'. destruct (decide (root = r)) as [<-|Hne].
      * rewrite lookup_insert_eq in Hf'. injection Hf' as <-. rewrite Hl by (done || (apply Hr; eauto)). rewrite (Hlk root f) by done.
        unfold unmap_range, cut. by rewrite Z.eqb_refl.
      * rewrite lookup_insert_ne in Hf' by done. rewrite Hl by (done || (apply Hr; eauto)). rewrite (Hlk r f') by done.
        unfold unmap_range. destruct (Z.eqb_spec r root); [congruence|done].
    + rewrite <- Hp, HU, <- Permutation_rev, <- !app_assoc, (Permutation_app_comm ps). rewrite <- !app_assoc. do 2 f_equiv. apply Permutation_app_comm.
Qed.

(** Below MAXVA no entry is valid, so no level-0 table has a valid entry. *)
Lemma no_leaf_of own s r : pt_ok kend own (ent (ram s)) -> (forall va, 0 <= va < MAXVA -> bits_set (lk (ent (ram s)) r va) PTE_V = false) -> no_leaf r s own.
Proof.
  intros Hok Hv q pre i Hq Hi. destruct (pt_up _ _ _ Hok _ _ _ _ Hq) as [(? & _)|(_ & q1 & Hq1 & Hv1 & E1)]; [done|].
  destruct (pt_up _ _ _ Hok _ _ _ _ Hq1) as [(? & _)|(_ & q2 & Hq2 & Hv2 & E2)]; [done|].
  destruct (pt_up _ _ _ Hok _ _ _ _ Hq2) as [(_ & -> & Ep)|(? & _)]; [|lia]. pose proof (pt_low _ _ _ Hok _ _ _ Hq1) as Hlow.
  specialize (Hv ((pre * 512 + i) * 4096)). change MAXVA with (2 ^ 38) in Hv. unfold lk, path0 in Hv.
  assert (PX 2 ((pre * 512 + i) * 4096) = pre / 512 mod 512) as EP2 by (rewrite PX_div by lia; change (2 ^ (12 + 9 * 2)) with (2 ^ 30); dlia).
  assert (PX 1 ((pre * 512 + i) * 4096) = pre mod 512) as EP1 by (rewrite PX_div by lia; change (2 ^ (12 + 9 * 1)) with (2 ^ 21); dlia).
  assert (PX 0 ((pre * 512 + i) * 4096) = i) as EP0 by (rewrite PX_div by lia; change (2 ^ (12 + 9 * 0)) with (2 ^ 12); dlia).
  rewrite EP2, EP1, EP0, Hv2, E2, Hv1, E1 in Hv. apply Hv. dlia.
Qed.

Lemma freewalk_pool h s R U root f : kmem_lock ∉ h -> mem_ok s R U -> R !! root = Some f ->
  (forall v, 0 <= v < MAXVA / 4096 -> f v = 0) ->
  wp (freewalk kend 3 root) (KSt h s) (fun _ k => held k = h /\ stays U s (st k) /\ mem_ok (st k) (delete root R) U).
Proof.
  intros Hh (l & own & Hm) HR Hz. pose proof Hm as [Hvm Hr Hlk Hp]. assert (root_of own root) as Hroot by (apply Hr; eauto).
  assert (no_leaf root s own) as Hn.
  { apply no_leaf_of; [apply Hvm|]. intros va Hva. rewrite (Hlk root f), Hz; [done| |done|done]. change MAXVA with (2 ^ 26 * 4096) in *.
    rewrite Z.div_mul by lia. split; [apply Z.div_pos; lia|apply Z.div_lt_upper_bound; lia]. }
  eapply wp_mono; [apply (freewalk_spec kend kend_kern h 2 s l own root root 0 Hh Hvm Hroot Hn)|].
  intros _ [h' s'] (Eh & ps & [Hfl Hps Hag Hfr]). cbn [held st Z.of_nat Pos.of_succ_nat Pos.succ] in *. subst h'. set (own' := prune own root 2 0) in *.
  assert (forall r, root_of own' r <-> root_of own r /\ r <> root) as Hroots.
  { intros r. unfold root_of, own'. rewrite prune_Some. split; intros [H1 H2]; (split; [done|]).
    - intros ->. apply H2, in_sub_self.
    - intros (E & _). cbn in E. done. }
  assert (pt_ok kend own' (ent (ram s'))) as Hpt.
  { eapply pt_ok_agree; [exact Hag|]. eapply pt_ok_prune; [apply Hvm|done|]. intros p Hpo. destruct (pt_page _ _ _ (vi_pt _ _ _ _ Hvm) _ _ _ _ Hpo). lia. }
  assert (forall p, is_Some (own !! p) <-> is_Some (own' !! p) \/ p ∈ ps) as Hdom.
  { intros p. rewrite Hps. split.
    - intros Hs. destruct (own' !! p) eqn:E; [left; by eexists|by right].
    - intros [[x Hx]|[? _]]; [|done]. apply prune_Some in Hx as [Hx _]. by eexists. }
  split_and!; [done| |].
  - intros x Hx. apply Hfr. intros p Hpo. apply Hx.
    + rewrite <- Hp, !elem_of_app, elem_of_tables. auto.
    + intros Hu. destruct (mem_disjoint _ _ _ _ _ p Hm Hu) as (_ & _ & _ & Ho). rewrite Ho in Hpo. by destruct Hpo.
  - exists (ps ++ l), own'. split.
    + split; [done|done|]. intros p [Hpp|Hpp]%elem_of_app; [by apply Hps in Hpp as [_ Hpp]|]. apply eq_None_not_Some. intros [x Hx].
      apply prune_Some in Hx as [Hx _]. rewrite (vi_dj _ _ _ _ Hvm p Hpp) in Hx. done.
    + intros r. rewrite Hroots, Hr, lookup_delete_is_Some. naive_solver.
    + intros r f' va [Hne Hf]%lookup_delete_Some Hva. rewrite <- (Hlk r f' va Hf Hva).
      assert (root_of own' r) as Hr' by (apply Hroots; split; [apply Hr; eauto|congruence]).
      symmetry. eapply (lk_agree kend own'); [|exact Hpt|done]. intros p i Hpo Hi. symmetry. by apply Hag.
    + rewrite <- Hp. rewrite (tables_add own' own ps); [|destruct Hfl as (Hnd & _); by apply NoDup_app in Hnd as [? _]| |exact Hdom].
      * rewrite <- !app_assoc, (app_assoc ps l), (Permutation_app_comm ps l), <- app_assoc. done.
      * intros p Hpp. by apply Hps in Hpp as [_ Hpp].
Qed.

(** uvmfree of an address space of [n] pages. *)
Lemma uvmfree_pool h s R U U' root f sz n : kmem_lock ∉ h -> mem_ok s R U -> R !! root = Some f ->
  0 <= sz -> n = (sz + 4095) / 4096 -> 4096 * n <= MAXVA -> (forall j, 0 <= j < n -> is_leaf (f j)) ->
  (forall v, n <= v < MAXVA / 4096 -> f v = 0) -> U ≡ₚ pages_at f 0 (Z.to_nat n) ++ U' ->
  wp (uvmfree kend root sz) (KSt h s) (fun _ k => held k = h /\ stays U' s (st k) /\ mem_ok (st k) (delete root R) U').
Proof.
  intros Hh Hm HR Hsz -> Hmax Hleaf Hz HU. unfold uvmfree. wstep. assert (MAXVA = 2 ^ 26 * 4096) as HM by done.
  assert (sz < 2 ^ 40) by dlia. destruct (Z.ltb_spec 0 sz).
  - assert (PGROUNDUP sz / PGSIZE = (sz + 4095) / 4096) as -> by (rewrite PGROUNDUP_div by lia; unfold PGSIZE; rewrite Z.div_mul by lia; done).
    eapply wp_mono; [apply (uvmunmap_pool h s R U U' root f 0 ((sz + 4095) / 4096) true); try done; try lia; dlia|].
    intros _ [h' s1] (Eh & Hs1 & Hm1). cbn [held st] in *. subst h'.
    eapply wp_mono; [eapply (freewalk_pool h s1 _ U' root); [done|exact Hm1|apply lookup_insert_eq|]|].
    + intros v Hv. unfold cut. change (0 / 4096) with 0. destruct (Z.leb_spec 0 v), (Z.ltb_spec v (0 + (sz + 4095) / 4096)); cbn [andb]; try done; apply Hz; lia.
    + intros _ k (Hk & Hs2 & Hm2). rewrite delete_insert_eq in Hm2. split_and!; try done. by eapply stays_trans.
  - assert (sz = 0) as -> by lia. change ((0 + 4095) / 4096) with 0 in *. cbn in HU. wstep.
    eapply wp_mono; [eapply (freewalk_pool h s R U root f); done|].
    intros _ k (Hk & Hs2 & Hm2). split_and!; [done| |by eapply mem_ok_perm].
    eapply stays_sub; [|exact Hs2]. intros p _. by rewrite HU.
Qed.

(** ** uvmalloc, uvmdealloc and uvmcopy *)

Definition ext (f : Z -> Z) (v : Z) (ps : list Z) (fl : nat -> Z) : Z -> Z := fun w =>
  if v <=? w then match ps !! Z.to_nat (w - v) with Some p => mkpte p (fl (Z.to_nat (w - v))) | None => f w end else f w.
Lemma mem_ok_id s R U root f g : R !! root = Some f -> same_space f g -> mem_ok s (<[root := g]> R) U -> mem_ok s R U.
Proof. intros HR E Hm. rewrite <- (insert_id R root f HR). eapply mem_ok_ext; [|exact Hm]. intros v Hv. symmetry. by apply E. Qed.

Lemma grown_mem root a0 fl data s0 l0 own0 R U f ps s l own : mem_at s0 R U l0 own0 -> R !! root = Some f ->
  grown kend root a0 fl data s0 l0 own0 ps s l own ->
  mem_ok s (<[root := ext f (a0 / 4096) ps fl]> R) (ps ++ U) /\ stays U s0 s.
Proof.
  intros Hm HR G. pose proof Hm as [Hvm Hr Hlk Hp]. pose proof (gr_list _ _ _ _ _ _ _ _ _ _ _ _ G) as (ts & Hl & Hd). split.
  - exists l, own. split.
    + apply G.
    + intros r. rewrite lookup_insert_is_Some. split.
      * intros Hro. destruct (decide (root = r)); [by left|right]. split; [done|]. apply Hr. by apply (gr_root _ _ _ _ _ _ _ _ _ _ _ _ G).
      * intros Hx. assert (is_Some (R !! r)) as Hx' by (destruct Hx as [<-|[_ ?]]; eauto). apply Hr in Hx'. eapply lookup_weaken; [exact Hx'|apply G].
    + intros r f' va Hf Hva. destruct (decide (root = r)) as [<-|Hne].
      * rewrite lookup_insert_eq in Hf. injection Hf as <-. rewrite (gr_lk _ _ _ _ _ _ _ _ _ _ _ _ G) by (done || (apply Hr; eauto)).
        rewrite (Hlk root f) by done. unfold alloc_range, ext. rewrite Z.eqb_refl. cbn [andb]. done.
      * rewrite lookup_insert_ne in Hf by done. rewrite (gr_lk _ _ _ _ _ _ _ _ _ _ _ _ G) by (done || (apply Hr; eauto)).
        rewrite (Hlk r f') by done. unfold alloc_range. destruct (Z.eqb_spec r root); [congruence|done].
    + rewrite <- Hp, Hl. rewrite (tables_add own0 own ts); [|..|exact Hd].
      * rewrite <- !app_assoc. f_equiv. rewrite (app_assoc ps), (Permutation_app_comm ps ts), <- app_assoc. f_equiv.
        rewrite app_assoc, (Permutation_app_comm (tables own0) ps), <- app_assoc. done.
      * destruct (vi_fl _ _ _ _ Hvm) as (Hn & _). rewrite Hl, !NoDup_app in Hn. tauto.
      * intros p Hpt. apply Hvm. rewrite Hl. set_solver.
  - intros x Hx. apply (gr_frame _ _ _ _ _ _ _ _ _ _ _ _ G). by eapply stays_outside.
Qed.

Lemma ext_nil f v fl : same_space f (ext f v [] fl).
Proof. intros w _. unfold ext. by rewrite lookup_nil; destruct (v <=? w). Qed.

Definition npages (sz : Z) : Z := (sz + 4095) / 4096.
Lemma uvmalloc_pool h s R U root f oldsz newsz : kmem_lock ∉ h -> mem_ok s R U -> R !! root = Some f ->
  0 <= oldsz <= newsz -> newsz <= MAXVA -> (forall v, npages oldsz <= v < npages newsz -> f v = 0) ->
  wp (uvmalloc kend root oldsz newsz) (KSt h s) (fun r k => held k = h /\ stays U s (st k) /\
    ((r = 0 /\ mem_ok (st k) R U) \/
     (r = newsz /\ exists ps, Z.of_nat (length ps) = npages newsz - npages oldsz /\
        mem_ok (st k) (<[root := ext f (npages oldsz) ps (fun _ => UFLAGS)]> R) (ps ++ U) /\
        forall p o, p ∈ ps -> 0 <= o < 4096 -> rd (ram (st k)) (p + o) = 0))).
Proof.
  intros Hh (l & own & Hm) HR Hsz Hmax Hz. pose proof Hm as [Hvm Hr Hlk Hp]. assert (MAXVA = 2 ^ 26 * 4096) as HM by done.
  assert (forall sz, 0 <= sz <= MAXVA -> PGROUNDUP sz = npages sz * 4096) as Hup by (intros; rewrite PGROUNDUP_div by lia; done).
  eapply wp_mono; [apply (uvmalloc_spec kend h root oldsz newsz s l own); try done|].
  { apply Hr. eauto. }
  { intros va Hva. rewrite !Hup in Hva by lia. rewrite (Hlk root f); [|done|unfold npages in *; dlia]. apply Hz. unfold npages in *. dlia. }
  intros r [h' s'] (Eh & ps & l' & own' & G & Hc). cbn [held st] in *. subst h'. split; [done|].
  pose proof G as G'. unfold zgrown in G'. rewrite Hup in G' by lia. destruct (grown_mem _ _ _ _ _ _ _ R U f _ _ _ _ Hm HR G') as [Hm' Hs].
  split; [done|]. rewrite Z.div_mul in Hm' by lia. destruct Hc as [[-> ->]|[-> Hl]].
  - left. split; [done|]. eapply mem_ok_id; [exact HR| |exact Hm']. apply ext_nil.
  - right. split; [done|]. exists ps. rewrite !Hup in Hl by lia. split_and!; [rewrite Hl; dlia|done|].
    intros p o Hpp Ho. apply list_elem_of_lookup in Hpp as [j Hj]. by apply (gr_data _ _ _ _ _ _ _ _ _ _ _ _ G' j p o Hj).
Qed.

Lemma uvmdealloc_pool h s R U U' root f oldsz newsz : kmem_lock ∉ h -> mem_ok s R U -> R !! root = Some f ->
  0 <= newsz -> 0 <= oldsz <= MAXVA -> (newsz < oldsz -> forall v, npages newsz <= v < npages oldsz -> is_leaf (f v)) ->
  U ≡ₚ pages_at f (npages newsz) (Z.to_nat (npages oldsz - npages newsz)) ++ U' ->
  wp (uvmdealloc kend root oldsz newsz) (KSt h s) (fun r k => held k = h /\ stays U' s (st k) /\ r = Z.min oldsz newsz /\
    mem_ok (st k) (<[root := cut f (npages newsz) (npages oldsz - npages newsz)]> R) U').
Proof.
  intros Hh Hm HR Hn Ho Hleaf HU. assert (MAXVA = 2 ^ 26 * 4096) as HM by done.
  assert (forall sz, 0 <= sz <= MAXVA -> PGROUNDUP sz = npages sz * 4096) as Hup by (intros; rewrite PGROUNDUP_div by lia; done).
  assert (npages oldsz <= npages newsz -> mem_ok s (<[root := cut f (npages newsz) (npages oldsz - npages newsz)]> R) U' /\ stays U' s s) as Hsame.
  { intros Hle. replace (Z.to_nat (npages oldsz - npages newsz)) with 0%nat in HU by lia. cbn in HU. split; [|done].
    eapply mem_ok_ext; [|rewrite (insert_id R root f) by done; by eapply mem_ok_perm]. intros v Hv. unfold cut. zbool; lia || done. }
  unfold uvmdealloc. destruct (Z.leb_spec oldsz newsz).
  { wstep. destruct Hsame as [Hm' Hs']; [unfold npages; dlia|]. split_and!; [done|done|lia|done]. }
  rewrite !Hup by lia. wstep. destruct (Z.ltb_spec (npages newsz * 4096) (npages oldsz * 4096)); cycle 1.
  { wstep. wstep. destruct Hsame as [Hm' Hs']; [lia|]. split_and!; [done|done|lia|done]. }
  assert ((npages oldsz * 4096 - npages newsz * 4096) / PGSIZE = npages oldsz - npages newsz) as -> by (unfold PGSIZE; dlia).
  assert (0 <= npages newsz /\ npages oldsz <= 2 ^ 26) as [Hb1 Hb2] by (unfold npages; dlia).
  replace (i32 (npages oldsz - npages newsz)) with (npages oldsz - npages newsz) by (unfold i32; rewrite Z.mod_small; lia).
  rewrite u64_small by lia.
  eapply wp_mono; [apply (uvmunmap_pool h s R U U' root f (npages newsz * 4096) (npages oldsz - npages newsz) true); try done; try lia|].
  - by rewrite Z.mod_mul.
  - intros j Hj. rewrite Z.div_mul by lia. apply Hleaf; lia.
  - by rewrite Z.div_mul.
  - intros _ k (Hk & Hs & Hm'). rewrite Z.div_mul in Hm' by lia. wstep. split_and!; try done. lia.
Qed.

Lemma uvmcopy_pool h s R U old new fo fn sz n : kmem_lock ∉ h -> mem_ok s R U -> R !! old = Some fo -> R !! new = Some fn -> old <> new ->
  0 <= sz <= MAXVA -> npages sz = Z.of_nat n -> (forall j, (j < n)%nat -> is_leaf (fo (Z.of_nat j)) /\ PTE2PA (fo (Z.of_nat j)) ∈ U) ->
  (forall v, 0 <= v < Z.of_nat n -> fn v = 0) ->
  wp (uvmcopy kend old new sz) (KSt h s) (fun r k => held k = h /\ stays U s (st k) /\
    ((r = -1 /\ mem_ok (st k) R U) \/
     (r = 0 /\ exists ps, length ps = n /\ mem_ok (st k) (<[new := ext fn 0 ps (fun j => PTE_FLAGS (fo (Z.of_nat j)))]> R) (ps ++ U) /\
        forall j p o, ps !! j = Some p -> 0 <= o < 4096 -> rd (ram (st k)) (p + o) = rd (ram s) (PTE2PA (fo (Z.of_nat j)) + o)))).
Proof.
  intros Hh (l & own & Hm) Ho Hn Hne Hsz Hnp Hleaf Hz. pose proof Hm as [Hvm Hr Hlk Hp]. assert (MAXVA = 2 ^ 26 * 4096) as HM by done.
  unfold npages in Hnp. assert (forall j, (j < n)%nat -> old_pte old s j = fo (Z.of_nat j)) as Hpte.
  { intros j Hj. unfold old_pte. rewrite (Hlk old fo) by (done || dlia). f_equal. dlia. }
  eapply wp_mono; [apply (uvmcopy_spec kend h old new sz s l own n); try done; try (apply Hr; eauto); try lia; try dlia|].
  { intros j Hj. rewrite Hpte by done. by apply Hleaf. }
  { intros j o Hj Hoo. rewrite Hpte by done. eapply (stays_outside U s R l own); [exact Hm|]. eapply kept_off; [exact Hm|by apply Hleaf|done]. }
  { intros va Hva. rewrite (Hlk new fn) by (done || dlia). apply Hz. dlia. }
  intros r [h' s'] (Eh & ps & l' & own' & G & Hc). cbn [held st] in *. subst h'. split; [done|].
  destruct (grown_mem _ _ _ _ _ _ _ R U fn _ _ _ _ Hm Hn G) as [Hm' Hs]. split; [done|]. change (0 / 4096) with 0 in Hm'.
  destruct Hc as [[-> ->]|[-> Hl]].
  - left. split; [done|]. eapply mem_ok_id; [exact Hn| |exact Hm']. apply ext_nil.
  - right. split; [done|]. exists ps. split_and!; [done| |].
    + eapply mem_ok_ext; [|exact Hm']. intros v Hv. unfold ext. destruct (Z.leb_spec 0 v); [|done]. destruct (ps !! Z.to_nat (v - 0)) as [p|] eqn:E; [|done].
      apply lookup_lt_Some in E. unfold copy_flags. rewrite decide_True by lia. rewrite Hpte by lia. done.
    + intros j p o Hj Hoo. pose proof (gr_data _ _ _ _ _ _ _ _ _ _ _ _ G j p o Hj Hoo) as ->. unfold copy_data. apply lookup_lt_Some in Hj. by rewrite Hpte by lia.
Qed.
End Pool.
