(* ===== verification/VmThms.v ===== *)
(** * Virtual memory: the theorems, and a small machine that satisfies their premises *)
From S2P Require Import Prelude Mem Riscv Kalloc Vm VmTree VmSpec VmCopy VmAlloc.

(** ** Deciding the invariant on a concrete state *)

Lemma forallb_elem {A} (f : A -> bool) l : forallb f l = true <-> forall x, x ∈ l -> f x = true.
Proof. rewrite forallb_forall. by setoid_rewrite list_elem_of_In. Qed.

Section Decide.
Variable kend : Z.

#[export] Instance page_dec p : Decision (page kend p).
Proof. unfold page. apply _. Defined.
#[export] Instance chain_dec m l : forall p, Decision (chain m p l).
Proof. induction l as [|x l IH]; intros p; cbn; apply _. Defined.
#[export] Instance fl_ok_dec s l : Decision (fl_ok kend s l).
Proof. unfold fl_ok. apply _. Defined.

Definition table_okb (own : owner) (m : mem) (x : Z * (Z * Z * Z)) : bool :=
  let '(p, (r, l, pre)) := x in
  bool_decide (page kend p) && (0 <=? l) && (l <=? 2) &&
  ((l =? 0) || forallb (fun i => negb (bits_set (ent m p i) PTE_V) ||
      (bool_decide (own !! PTE2PA (ent m p i) = Some (r, l - 1, pre * 512 + i)) &&
       negb (bits_set (ent m p i) (Z.lor (Z.lor PTE_R PTE_W) PTE_X)))) (seqZ 0 512)) &&
  ((negb (l =? 1)) || ((0 <=? pre) && (pre <? 256))) &&
  (if l =? 2 then (p =? r) && (pre =? 0) else
   existsb (fun y => bool_decide (y.2 = (r, l + 1, pre / 512)) && bits_set (ent m y.1 (pre mod 512)) PTE_V &&
                     (PTE2PA (ent m y.1 (pre mod 512)) =? p)) (map_to_list own)).
Definition vm_invb (s : kmem) (l : list Z) (own : owner) : bool :=
  bool_decide (fl_ok kend s l) && forallb (table_okb own (ram s)) (map_to_list own) &&
  forallb (fun p => bool_decide (own !! p = None)) l.

Lemma vm_invb_ok s l own : vm_invb s l own = true -> vm_inv kend s l own.
Proof.
  unfold vm_invb. rewrite !andb_true_iff, !forallb_elem, bool_decide_eq_true.
  intros [[Hfl Ht] Hd]. split; [done| |].
  - assert (forall p r l' pre, own !! p = Some (r, l', pre) -> table_okb own (ram s) (p, (r, l', pre)) = true) as Ht'.
    { intros p r l' pre Hp. by apply Ht, elem_of_map_to_list. }
    assert (forall p r l' pre i, own !! p = Some (r, l', pre) -> 0 < l' -> 0 <= i < 512 -> bits_set (ent (ram s) p i) PTE_V = true ->
      own !! PTE2PA (ent (ram s) p i) = Some (r, l' - 1, pre * 512 + i) /\ bits_set (ent (ram s) p i) (Z.lor (Z.lor PTE_R PTE_W) PTE_X) = false) as Hent.
    { intros p r l' pre i Hp Hl Hi Hv. apply Ht' in Hp. unfold table_okb in Hp.
      rewrite !andb_true_iff, orb_true_iff, forallb_elem in Hp.
      destruct Hp as [[[_ [E|Hp]] _] _]; [apply Z.eqb_eq in E; lia|].
      assert (i ∈ seqZ 0 512) as Hin by (rewrite elem_of_seqZ; lia). apply Hp in Hin as Hp'. rewrite Hv in Hp'.
      cbn [negb orb] in Hp'. apply andb_true_iff in Hp' as [Hp1 Hp2]. by apply bool_decide_eq_true in Hp1; apply negb_true_iff in Hp2. }
    split; [|by intros; eapply Hent|by intros; eapply Hent|..].
    + intros p r l' pre Hp%Ht'. unfold table_okb in Hp.
      rewrite !andb_true_iff, bool_decide_eq_true, !Z.leb_le in Hp. destruct Hp as [[[[[? ?] ?] _] _] _]. split; [done|lia].
    + intros p r l' pre Hp%Ht'. unfold table_okb in Hp. rewrite !andb_true_iff, !Z.leb_le in Hp. destruct Hp as [[[[_ Hl] _] _] Hp].
      destruct (Z.eqb_spec l' 2); [left; rewrite andb_true_iff, !Z.eqb_eq in Hp; tauto|right; split; [lia|]].
      apply existsb_exists in Hp as ([q x] & Hin & Hp). apply list_elem_of_In, elem_of_map_to_list in Hin.
      rewrite !andb_true_iff, bool_decide_eq_true, Z.eqb_eq in Hp. cbn in Hp. destruct Hp as [[-> ?] ?]. eauto.
    + intros p r pre Hp%Ht'. unfold table_okb in Hp. rewrite !andb_true_iff, !orb_true_iff in Hp. destruct Hp as [[_ [Hp|Hp]] _]; [done|].
      apply andb_true_iff in Hp as [H1%Z.leb_le H2%Z.ltb_lt]. lia.
  - intros p Hp. apply Hd in Hp. by apply bool_decide_eq_true in Hp.
Qed.

(** A root page of zeros translates nothing. *)
Definition blankb (m : mem) (p : Z) : bool := forallb (fun i => ent m p i =? 0) (seqZ 0 512).
Lemma blank_lk m p va : blankb m p = true -> lk (ent m) p va = 0.
Proof.
  unfold blankb. rewrite forallb_elem. intros H. unfold lk, path0.
  assert (ent m p (PX 2 va) = 0) as ->; [|done].
  apply Z.eqb_eq, H. rewrite elem_of_seqZ. pose proof (PX_range 2 va). lia.
Qed.

(** Pages that are neither free nor tables lie outside. *)
Lemma outside_page s l own q o :
  vm_inv kend s l own -> page kend q -> q ∉ l -> own !! q = None -> 0 <= o < 4096 ->
  outside l own (q + o).
Proof.
  intros Hi Hq Hl Ho Hoo. split.
  - eapply off_tables_page; [by intros; eapply vm_pages|exact Hq|done|lia].
  - intros p Hp. destruct (vi_fl _ _ _ _ Hi) as (_ & Hpg & _). rewrite Forall_forall in Hpg.
    unfold off_page. destruct (page_disjoint kend p q); [by apply Hpg|done| |lia..]. by intros ->.
Qed.
End Decide.

(** ** Theorems *)

(** C22: [mappages] of [n] pages that are not mapped yet, from any state whose page
    tables and free list are in order, returns.  On success exactly those pages
    translate to the given physical pages with the given flags; when memory for
    interior tables runs out it returns -1 with a prefix mapped.  In both cases every
    other translation, in every address space, and all memory outside the tables are
    unchanged, and the state is in order again. *)
Theorem mappages_correct kend h s l own root va n pa perm
    (Hk : KERNBASE <= kend) (Hh : kmem_lock ∉ h) (Hi : vm_inv kend s l own) (Hr : root_of own root)
    (Hva : va mod 4096 = 0 /\ 0 <= va /\ va + 4096 * n <= MAXVA) (Hn : 0 < n)
    (Hpa : 0 <= pa /\ pa + 4096 * n <= 2 ^ 56) (Hperm : 0 <= perm < 1024)
    (Hfree : forall j, 0 <= j < n -> bits_set (lk (ent (ram s)) root (va + 4096 * j)) PTE_V = false) :
  exists r s' j l' own', mappages root va (4096 * n) pa perm (KSt h s) = Ok r (KSt h s') /\
    ((r = 0 /\ j = n) \/ (r = -1 /\ 0 <= j < n /\ l' = [])) /\
    vm_inv kend s' l' own' /\ changes (map_range root va pa (Z.lor perm PTE_V) j) s l own s' l' own'.
Proof.
  destruct Hva as (Hv1 & Hv2 & Hv3), Hpa as (Hp1 & Hp2).
  destruct (wp_elim _ _ _ (mappages_spec kend Hk h s l own root va n pa perm Hh Hi Hr Hv1 Hv2 Hn Hv3
    Hp1 Hp2 Hperm Hfree)) as (r & [h' s'] & E & Eh & j & l' & own' & H1 & H2 & H3).
  cbn in *. subst h'. eauto 10.
Qed.

(** C25: [uvmunmap] of [n] mapped pages returns with exactly those leaf entries cleared
    and, when asked to, every page behind them pushed on the free list once; other
    translations and other memory are untouched. *)
Theorem uvmunmap_correct kend h s l own root va n do_free
    (Hk : KERNBASE <= kend) (Hh : kmem_lock ∉ h) (Hi : vm_inv kend s l own) (Hr : root_of own root)
    (Hva : va mod 4096 = 0 /\ 0 <= va /\ va + 4096 * n <= MAXVA) (Hn : 0 <= n)
    (Hleaf : forall j, 0 <= j < n -> is_leaf (lk (ent (ram s)) root (va + 4096 * j)))
    (Hfree : freeable kend l own (freed do_free (ram s) root va (Z.to_nat n))) :
  exists s', uvmunmap kend root va n do_free (KSt h s) = Ok tt (KSt h s') /\
    unmap_post kend root va n (freed do_free (ram s) root va (Z.to_nat n)) s l own s'.
Proof.
  destruct Hva as (Hv1 & Hv2 & Hv3).
  destruct (wp_elim _ _ _ (uvmunmap_spec kend Hk h s l own root va n do_free Hh Hi Hr Hv1 Hv2 Hn Hv3
    Hleaf Hfree)) as ([] & [h' s'] & E & Eh & Hp).
  cbn in *. subst h'. eauto.
Qed.

(** C26: [uvmalloc] is all or nothing.  Either it returns the new size, with every page
    up to it mapped to its own fresh, zero-filled page; or memory runs out and it
    returns 0 with every translation as before and every page it took back on the free
    list (new interior tables excepted). *)
Theorem uvmalloc_correct kend h root oldsz newsz s l own
    (Hk : KERNBASE <= kend) (Hh : kmem_lock ∉ h) (Hi : vm_inv kend s l own) (Hr : root_of own root)
    (Hsz : 0 <= oldsz <= newsz) (Hmax : newsz <= MAXVA)
    (Hfree : forall va, PGROUNDUP oldsz <= va < PGROUNDUP newsz -> lk (ent (ram s)) root va = 0) :
  exists r s' ps l' own', uvmalloc kend root oldsz newsz (KSt h s) = Ok r (KSt h s') /\
    grown kend root (PGROUNDUP oldsz) (fun _ => UFLAGS) (fun _ _ => 0) s l own ps s' l' own' /\
    ((r = 0 /\ ps = []) \/
     (r = newsz /\ Z.of_nat (length ps) = (PGROUNDUP newsz - PGROUNDUP oldsz) / 4096)).
Proof.
  destruct (wp_elim _ _ _ (uvmalloc_spec kend h root oldsz newsz s l own Hk Hh Hi Hr Hsz Hmax Hfree))
    as (r & [h' s'] & E & Eh & ps & l' & own' & G & Hc).
  cbn in *. subst h'. eauto 10.
Qed.

(** C17: [uvmcopy] gives the child, for each page of the parent, a page of its own with
    the same bytes and the same flags, and leaves the parent's translations and memory
    alone; if memory runs out it returns -1 with the child empty again and nothing
    leaked but interior tables. *)
Theorem uvmcopy_correct kend h old new sz s l own n
    (Hk : KERNBASE <= kend) (Hh : kmem_lock ∉ h) (Hi : vm_inv kend s l own)
    (Hold : root_of own old) (Hnew : root_of own new) (Hne : old <> new)
    (Hsz : 4096 * (Z.of_nat n - 1) < sz <= 4096 * Z.of_nat n) (Hmax : sz <= MAXVA)
    (Hleaf : forall j, (j < n)%nat -> is_leaf (old_pte old s j))
    (Hout : forall j o, (j < n)%nat -> 0 <= o < 4096 -> outside l own (PTE2PA (old_pte old s j) + o))
    (Hfree : forall va, 0 <= va < 4096 * Z.of_nat n -> lk (ent (ram s)) new va = 0) :
  exists r s' ps l' own', uvmcopy kend old new sz (KSt h s) = Ok r (KSt h s') /\
    grown kend new 0 (copy_flags old s n) (copy_data old s) s l own ps s' l' own' /\
    ((r = -1 /\ ps = []) \/ (r = 0 /\ length ps = n)).
Proof.
  destruct (wp_elim _ _ _ (uvmcopy_spec kend h old new sz s l own n Hk Hh Hi Hold Hnew Hne Hsz Hmax
    Hleaf Hout Hfree)) as (r & [h' s'] & E & Eh & ps & l' & own' & G & Hc).
  cbn in *. subst h'. eauto 10.
Qed.

(** C23: [copyout] to a user range whose first [k] bytes are mapped: with all [len]
    mapped it returns 0 and stores every byte at its translated address; otherwise it
    returns -1 having stored those before the first bad page.  No other byte changes. *)
Theorem copyout_correct kend h s own root va src len k
    (Hk : KERNBASE <= kend) (Hok : pt_ok kend own (ent (ram s))) (Hr : root_of own root) (Hva : 0 <= va)
    (Hto : umapped_to own (ram s) root va len k)
    (Hinj : uinj (ram s) root va k) (Hfresh : ufresh (ram s) root va src k) :
  exists s', copyout root va src len (KSt h s) = Ok (if k =? len then 0 else -1) (KSt h s') /\
    freelist s' = freelist s /\ copied_out (ram s) (ram s') root va src k.
Proof.
  destruct (wp_elim _ _ _ (copyout_loop_spec kend Hk h (Z.to_nat len) s own root va src len k Hok Hr Hva
    ltac:(destruct Hto; lia) Hto Hinj Hfresh)) as (r & [h' s'] & E & -> & Eh & Hf & Hc).
  cbn in *. subst h'. eauto.
Qed.

(** [copyout] to a mapped user range followed by [copyin] of it brings the bytes
    back: the destination buffer then equals the source buffer. *)
Theorem copyout_copyin kend h s own root va src dst len
    (Hk : KERNBASE <= kend) (Hok : pt_ok kend own (ent (ram s))) (Hr : root_of own root)
    (Hlen : 0 <= len) (Hva : 0 <= va)
    (Hmap : umapped own (ram s) root va len) (Hinj : uinj (ram s) root va len)
    (Hsrc : ufresh (ram s) root va src len) (Hdst : ufresh (ram s) root va dst len)
    (Hoff : buf_off own dst len) :
  exists s1 s2, copyout root va src len (KSt h s) = Ok 0 (KSt h s1) /\
    copyin root dst va len (KSt h s1) = Ok 0 (KSt h s2) /\
    forall i, 0 <= i < len -> rd (ram s2) (dst + i) = rd (ram s) (src + i).
Proof.
  assert (umapped_to own (ram s) root va len len) as Hto by (split_and!; done || lia).
  destruct (wp_elim _ _ _ (copyout_loop_spec kend Hk h (Z.to_nat len) s own root va src len len Hok Hr Hva
    ltac:(lia) Hto Hinj Hsrc)) as (r & [h' s1] & E & -> & Eh & Hf & Hc).
  cbn [held st] in *. subst h'. rewrite Z.eqb_refl in E.
  pose proof (copied_out_tables _ _ _ _ _ _ _ Hmap Hc) as Hst.
  assert (forall a, uaddr (ram s1) root a = uaddr (ram s) root a) as Hua by (intros a; by eapply uaddr_same).
  destruct (wp_elim _ _ _ (copyin_loop_spec kend Hk h (Z.to_nat len) s1 own root dst va len len
    ltac:(eapply pt_ok_agree; [by apply same_tables_agree|done]) Hr Hva ltac:(lia)
    ltac:(split_and!; [lia..|intros i Hi; rewrite Hua; by apply Hmap|lia]) Hoff
    ltac:(intros i j; rewrite Hua; apply Hdst))) as (r & [h' s2] & E2 & -> & Eh & Hf2 & [Hc2 _]).
  cbn [held st] in *. subst h'. rewrite Z.eqb_refl in E2. exists s1, s2. split_and!; try done.
  intros i Hi. destruct (Hmap i Hi) as (pa & Hpa & _). rewrite (Hc2 i pa) by (done || by rewrite Hua).
  by apply Hc.
Qed.

(** ** A machine with twelve pages *)

Definition wkend : Z := PHYSTOP - 12 * 4096.
Definition wp_ (i : Z) : Z := wkend + 4096 * i.
Fixpoint link (m : mem) (l : list Z) : mem :=
  match l with [] => m | p :: l' => link (store64 m p (hd 0 l')) l' end.
Definition wfree (i n : Z) : list Z := wp_ <$> seqZ i n.

(** All pages free; then an empty address space; then two pages in it; then a second,
    empty one. *)
Definition w0 : kmem := Kmem (link ∅ (wfree 0 12)) (wp_ 0).
Definition w1 : kmem := st (after uvmcreate (KSt [] w0)).
Definition w2 : kmem := st (after (uvmalloc wkend (wp_ 0) 0 8192) (KSt [] w1)).
Definition w3 : kmem := st (after uvmcreate (KSt [] w2)).
Definition wown1 : owner := {[wp_ 0 := (wp_ 0, 2, 0)]}.
Definition wown2 : owner := <[wp_ 2 := (wp_ 0, 1, 0)]> (<[wp_ 3 := (wp_ 0, 0, 0)]> wown1).
Definition wown3 : owner := <[wp_ 5 := (wp_ 5, 2, 0)]> wown2.

Lemma w1_inv : vm_inv wkend w1 (wfree 1 11) wown1.
Proof. apply vm_invb_ok. vm_compute. reflexivity. Qed.
Lemma w2_inv : vm_inv wkend w2 (wfree 5 7) wown2.
Proof. apply vm_invb_ok. vm_compute. reflexivity. Qed.
Lemma w3_inv : vm_inv wkend w3 (wfree 6 6) wown3.
Proof. apply vm_invb_ok. vm_compute. reflexivity. Qed.

Lemma forall_seqZ (P : Z -> bool) n :
  forallb P (seqZ 0 n) = true -> forall i, 0 <= i < n -> P i = true.
Proof. rewrite forallb_elem. intros H i Hi. apply H. rewrite elem_of_seqZ. lia. Qed.

(** The closed side conditions of the theorems. *)
Ltac facts := first [apply not_elem_of_nil | repeat split; vm_compute; (reflexivity || discriminate)].

Lemma mappages_correct_witness :
  (forall j, 0 <= j < 3 -> bits_set (lk (ent (ram w1)) (wp_ 0) (0x1000 + 4096 * j)) PTE_V = false) /\
  exists r s' j l' own', mappages (wp_ 0) 0x1000 (4096 * 3) 0x10000000 (Z.lor PTE_R PTE_W) (KSt [] w1) = Ok r (KSt [] s') /\
    ((r = 0 /\ j = 3) \/ (r = -1 /\ 0 <= j < 3 /\ l' = [])) /\ vm_inv wkend s' l' own' /\
    changes (map_range (wp_ 0) 0x1000 0x10000000 (Z.lor (Z.lor PTE_R PTE_W) PTE_V) j) w1 (wfree 1 11) wown1 s' l' own'.
Proof.
  assert (forall j, 0 <= j < 3 -> bits_set (lk (ent (ram w1)) (wp_ 0) (0x1000 + 4096 * j)) PTE_V = false) as Hf.
  { intros j _. rewrite blank_lk; [done|vm_compute; reflexivity]. }
  split; [exact Hf|].
  apply (mappages_correct wkend [] w1 (wfree 1 11) wown1 (wp_ 0) 0x1000 3 0x10000000 (Z.lor PTE_R PTE_W));
    [facts|facts|exact w1_inv|facts..|exact Hf].
Defined.

Definition pte_leafb (pte : Z) : bool := bits_set pte PTE_V && negb (PTE_FLAGS pte =? PTE_V).
Lemma pte_leafb_ok pte : pte_leafb pte = true -> is_leaf pte.
Proof. unfold pte_leafb, is_leaf. rewrite andb_true_iff, negb_true_iff, Z.eqb_neq. done. Qed.

Lemma w2_leaf j : 0 <= j < 2 -> is_leaf (lk (ent (ram w2)) (wp_ 0) (0 + 4096 * j)).
Proof.
  intros Hj. apply pte_leafb_ok.
  apply (forall_seqZ (fun j => pte_leafb (lk (ent (ram w2)) (wp_ 0) (0 + 4096 * j))) 2); [|done].
  vm_compute. reflexivity.
Qed.

Lemma uvmunmap_correct_witness :
  freed true (ram w2) (wp_ 0) 0 2 = [wp_ 1; wp_ 4] /\
  exists s', uvmunmap wkend (wp_ 0) 0 2 true (KSt [] w2) = Ok tt (KSt [] s') /\
    unmap_post wkend (wp_ 0) 0 2 (freed true (ram w2) (wp_ 0) 0 2) w2 (wfree 5 7) wown2 s'.
Proof.
  assert (freed true (ram w2) (wp_ 0) 0 2 = [wp_ 1; wp_ 4]) as Ef by (vm_compute; reflexivity).
  split; [exact Ef|].
  apply (uvmunmap_correct wkend [] w2 (wfree 5 7) wown2 (wp_ 0) 0 2 true);
    [facts|facts|exact w2_inv|facts..|exact w2_leaf|].
  change (Z.to_nat 2) with 2%nat. rewrite Ef. unfold freeable.
  apply (bool_decide_unpack _). vm_compute. exact I.
Defined.

Lemma uvmalloc_correct_witness :
  exists r s' ps l' own', uvmalloc wkend (wp_ 0) 0 8192 (KSt [] w1) = Ok r (KSt [] s') /\
    grown wkend (wp_ 0) (PGROUNDUP 0) (fun _ => UFLAGS) (fun _ _ => 0) w1 (wfree 1 11) wown1 ps s' l' own' /\
    ((r = 0 /\ ps = []) \/ (r = 8192 /\ Z.of_nat (length ps) = (PGROUNDUP 8192 - PGROUNDUP 0) / 4096)).
Proof.
  apply (uvmalloc_correct wkend [] (wp_ 0) 0 8192 w1 (wfree 1 11) wown1);
    [facts|facts|exact w1_inv|facts..|].
  intros va _. apply blank_lk. vm_compute. reflexivity.
Defined.

(** The pages of the first address space, seen from the state with both. *)
Definition wdata (j : nat) : Z := match j with O => wp_ 1 | _ => wp_ 4 end.
Lemma w3_old j : (j < 2)%nat -> is_leaf (old_pte (wp_ 0) w3 j) /\ PTE2PA (old_pte (wp_ 0) w3 j) = wdata j.
Proof.
  intros Hj. destruct j as [|[|j]]; [..|lia]; (split; [apply pte_leafb_ok|]; vm_compute; reflexivity).
Qed.
Lemma w3_outside j o : (j < 2)%nat -> 0 <= o < 4096 -> outside (wfree 6 6) wown3 (wdata j + o).
Proof.
  intros Hj. destruct j as [|[|j]]; [..|lia]; apply (outside_page wkend w3 _ _ _ o w3_inv);
    apply (bool_decide_unpack _); vm_compute; exact I.
Qed.

Lemma uvmcopy_correct_witness :
  exists r s' ps l' own', uvmcopy wkend (wp_ 0) (wp_ 5) 8000 (KSt [] w3) = Ok r (KSt [] s') /\
    grown wkend (wp_ 5) 0 (copy_flags (wp_ 0) w3 2) (copy_data (wp_ 0) w3) w3 (wfree 6 6) wown3 ps s' l' own' /\
    ((r = -1 /\ ps = []) \/ (r = 0 /\ length ps = 2%nat)).
Proof.
  apply (uvmcopy_correct wkend [] (wp_ 0) (wp_ 5) 8000 w3 (wfree 6 6) wown3 2);
    [facts|facts|exact w3_inv|facts|facts|discriminate|facts|facts|..].
  - intros j Hj. by apply w3_old.
  - intros j o Hj Ho. destruct (w3_old j Hj) as [_ ->]. by apply w3_outside.
  - intros va _. apply blank_lk. vm_compute. reflexivity.
Defined.

(** Bytes 4090..4099 of the address space straddle its two pages. *)
Definition wpa (i : Z) : Z := if i <? 6 then wp_ 1 + 4090 + i else wp_ 4 + (i - 6).
Lemma w2_uaddr i : 0 <= i < 10 -> uaddr (ram w2) (wp_ 0) (4090 + i) = Some (wpa i).
Proof.
  set (P i := bool_decide (uaddr (ram w2) (wp_ 0) (4090 + i) = Some (wpa i))).
  assert (forallb P (seqZ 0 10) = true) as H by (vm_compute; reflexivity).
  intros Hi. apply (forall_seqZ P 10 H) in Hi. by apply bool_decide_eq_true in Hi.
Qed.
Lemma wpa_page i : 0 <= i < 10 -> exists q, (q = wp_ 1 \/ q = wp_ 4) /\ q <= wpa i < q + 4096.
Proof. intros Hi. unfold wpa. destruct (Z.ltb_spec i 6); [exists (wp_ 1)|exists (wp_ 4)]; split; auto; lia. Qed.
Lemma w2_off x q : q = wp_ 1 \/ q = wp_ 4 \/ q = wp_ 7 -> q <= x < q + 4096 -> off_tables wown2 x.
Proof.
  intros Hq Hx. eapply (off_tables_page wkend); [intros p Hp; exact (vm_pages _ _ _ _ _ w2_inv Hp)| | |exact Hx];
    destruct Hq as [->|[->| ->]]; apply (bool_decide_unpack _); vm_compute; exact I.
Qed.

Lemma w2_umapped : umapped wown2 (ram w2) (wp_ 0) 4090 10.
Proof.
  intros i Hi. exists (wpa i). split; [by apply w2_uaddr|]. destruct (wpa_page i Hi) as (q & Hq & Hx).
  split; [|eapply w2_off; [|exact Hx]; naive_solver].
  destruct Hq as [->| ->]; unfold wp_, wkend, PHYSTOP, KERNBASE in *; lia.
Qed.
Lemma w2_uinj : uinj (ram w2) (wp_ 0) 4090 10.
Proof.
  intros i j pa Hi Hj. rewrite !w2_uaddr by done. intros [= <-] [= E]. revert E. unfold wpa, wp_.
  zbool; lia.
Qed.
(** A kernel buffer in a free page, at offset [o]. *)
Lemma w2_ufresh o : 0 <= o < 4000 -> ufresh (ram w2) (wp_ 0) 4090 (wp_ 7 + o) 10.
Proof.
  intros Ho i j Hi Hj. rewrite !w2_uaddr by done. unfold wpa, wp_. intros [= E]. revert E. zbool; lia.
Qed.

Lemma copyout_correct_witness :
  exists s', copyout (wp_ 0) 4090 (wp_ 7) 10 (KSt [] w2) = Ok (if 10 =? 10 then 0 else -1) (KSt [] s') /\
    freelist s' = freelist w2 /\ copied_out (ram w2) (ram s') (wp_ 0) 4090 (wp_ 7) 10.
Proof.
  apply (copyout_correct wkend [] w2 wown2 (wp_ 0) 4090 (wp_ 7) 10 10);
    [facts|exact (vi_pt _ _ _ _ w2_inv)|facts|facts| |exact w2_uinj|].
  - split; [lia|]. split; [exact w2_umapped|lia].
  - rewrite <- (Z.add_0_r (wp_ 7)). by apply w2_ufresh.
Defined.

Lemma copyout_copyin_witness :
  exists s1 s2, copyout (wp_ 0) 4090 (wp_ 7 + 0) 10 (KSt [] w2) = Ok 0 (KSt [] s1) /\
    copyin (wp_ 0) (wp_ 7 + 100) 4090 10 (KSt [] s1) = Ok 0 (KSt [] s2) /\
    forall i, 0 <= i < 10 -> rd (ram s2) (wp_ 7 + 100 + i) = rd (ram w2) (wp_ 7 + 0 + i).
Proof.
  apply (copyout_copyin wkend [] w2 wown2 (wp_ 0) 4090 (wp_ 7 + 0) (wp_ 7 + 100) 10);
    [facts|exact (vi_pt _ _ _ _ w2_inv)|facts|facts|facts|exact w2_umapped|exact w2_uinj|..].
  - by apply w2_ufresh.
  - by apply w2_ufresh.
  - intros i Hi. apply (w2_off _ (wp_ 7)); [naive_solver|lia].
Defined.
