(* ===== verification/Proc.v ===== *)
(** * Processes (kernel/proc.c, kernel/proc.h): definitions

    The process table is a map from slots to records; a pointer to a process is its slot.
    The state of the code below is the table, physical memory with its allocator (Kalloc.v,
    Vm.v), the process that runs on this CPU, and a rest [T] with the open files and the file
    system, which proc.c uses through the interface [ProcFiles].  swtch is the argument
    [swtch]: what happens between the moment a process (or the scheduler) gives up the CPU and
    the moment control is back.  ProcSys.v has the runs of several processes. *)
From S2P Require Import Prelude Mem Riscv Kalloc Vm.

Definition NPROC : Z := 64.
Definition NOFILE : Z := 16.
Definition ROOTDEV : Z := 1.

Inductive procstate := UNUSED | SLEEPING | RUNNABLE | RUNNING | ZOMBIE.
#[export] Instance procstate_eq_dec : EqDecision procstate.
Proof. solve_decision. Defined.

(** [ra] and [sp]; the callee-saved registers are zero in a context that has not run. *)
Record context := Context { c_ra : Z; c_sp : Z }.

(** Null pointers are [None] for processes, channels and inodes, 0 for addresses. *)
Record proc := Proc {
  p_state : procstate; p_parent : option Z; p_chan : option chan; p_killed : Z; p_xstate : Z; p_pid : Z;
  p_kstack : Z; p_sz : Z; p_pagetable : Z; p_trapframe : Z; p_context : context;
  p_ofile : gmap Z Z; p_cwd : option Z; p_name : list Z }.
Definition proc0 : proc := Proc UNUSED None None 0 0 0 0 0 0 0 (Context 0 0) ∅ None [].

Definition set_state v (p : proc) := Proc v (p_parent p) (p_chan p) (p_killed p) (p_xstate p) (p_pid p) (p_kstack p) (p_sz p) (p_pagetable p) (p_trapframe p) (p_context p) (p_ofile p) (p_cwd p) (p_name p).
Definition set_parent v (p : proc) := Proc (p_state p) v (p_chan p) (p_killed p) (p_xstate p) (p_pid p) (p_kstack p) (p_sz p) (p_pagetable p) (p_trapframe p) (p_context p) (p_ofile p) (p_cwd p) (p_name p).
Definition set_chan v (p : proc) := Proc (p_state p) (p_parent p) v (p_killed p) (p_xstate p) (p_pid p) (p_kstack p) (p_sz p) (p_pagetable p) (p_trapframe p) (p_context p) (p_ofile p) (p_cwd p) (p_name p).
Definition set_killed v (p : proc) := Proc (p_state p) (p_parent p) (p_chan p) v (p_xstate p) (p_pid p) (p_kstack p) (p_sz p) (p_pagetable p) (p_trapframe p) (p_context p) (p_ofile p) (p_cwd p) (p_name p).
Definition set_xstate v (p : proc) := Proc (p_state p) (p_parent p) (p_chan p) (p_killed p) v (p_pid p) (p_kstack p) (p_sz p) (p_pagetable p) (p_trapframe p) (p_context p) (p_ofile p) (p_cwd p) (p_name p).
Definition set_pid v (p : proc) := Proc (p_state p) (p_parent p) (p_chan p) (p_killed p) (p_xstate p) v (p_kstack p) (p_sz p) (p_pagetable p) (p_trapframe p) (p_context p) (p_ofile p) (p_cwd p) (p_name p).
Definition set_kstack v (p : proc) := Proc (p_state p) (p_parent p) (p_chan p) (p_killed p) (p_xstate p) (p_pid p) v (p_sz p) (p_pagetable p) (p_trapframe p) (p_context p) (p_ofile p) (p_cwd p) (p_name p).
Definition set_sz v (p : proc) := Proc (p_state p) (p_parent p) (p_chan p) (p_killed p) (p_xstate p) (p_pid p) (p_kstack p) v (p_pagetable p) (p_trapframe p) (p_context p) (p_ofile p) (p_cwd p) (p_name p).
Definition set_pagetable v (p : proc) := Proc (p_state p) (p_parent p) (p_chan p) (p_killed p) (p_xstate p) (p_pid p) (p_kstack p) (p_sz p) v (p_trapframe p) (p_context p) (p_ofile p) (p_cwd p) (p_name p).
Definition set_trapframe v (p : proc) := Proc (p_state p) (p_parent p) (p_chan p) (p_killed p) (p_xstate p) (p_pid p) (p_kstack p) (p_sz p) (p_pagetable p) v (p_context p) (p_ofile p) (p_cwd p) (p_name p).
Definition set_context v (p : proc) := Proc (p_state p) (p_parent p) (p_chan p) (p_killed p) (p_xstate p) (p_pid p) (p_kstack p) (p_sz p) (p_pagetable p) (p_trapframe p) v (p_ofile p) (p_cwd p) (p_name p).
Definition set_ofile v (p : proc) := Proc (p_state p) (p_parent p) (p_chan p) (p_killed p) (p_xstate p) (p_pid p) (p_kstack p) (p_sz p) (p_pagetable p) (p_trapframe p) (p_context p) v (p_cwd p) (p_name p).
Definition set_cwd v (p : proc) := Proc (p_state p) (p_parent p) (p_chan p) (p_killed p) (p_xstate p) (p_pid p) (p_kstack p) (p_sz p) (p_pagetable p) (p_trapframe p) (p_context p) (p_ofile p) v (p_name p).
Definition set_name v (p : proc) := Proc (p_state p) (p_parent p) (p_chan p) (p_killed p) (p_xstate p) (p_pid p) (p_kstack p) (p_sz p) (p_pagetable p) (p_trapframe p) (p_context p) (p_ofile p) (p_cwd p) v.

(** What proc.c calls of file.c, fs.c and log.c. *)
Class ProcFiles (T : Type) := {
  pf_filedup : Z -> M T Z;
  pf_fileclose : Z -> M T unit;
  pf_idup : Z -> M T Z;
  pf_iput : Z -> M T unit;
  pf_begin_op : M T unit;
  pf_end_op : M T unit;
  pf_namei : list Z -> M T (option Z);
  pf_fsinit : Z -> M T unit;
}.

(** Offsets of struct trapframe. *)
Definition TF_SIZE : Z := 288.
Definition tf_epc : Z := 24.
Definition tf_sp : Z := 48.
Definition tf_a0 : Z := 112.

(** ** User page tables *)

Section Pagetable.
(** [end] of the kernel image and the physical address of trampoline.S. *)
Variables (kend trampoline : Z).

Definition proc_pagetable (trapframe : Z) : M kmem Z :=
  pagetable ← uvmcreate;
  if pagetable =? 0 then mret 0 else
  r ← mappages pagetable TRAMPOLINE PGSIZE trampoline (Z.lor PTE_R PTE_X);
  if r <? 0 then uvmfree kend pagetable 0 ;; mret 0 else
  r ← mappages pagetable TRAPFRAME PGSIZE trapframe (Z.lor PTE_R PTE_W);
  if r <? 0 then
    uvmunmap kend pagetable TRAMPOLINE 1 false ;;
    uvmfree kend pagetable 0 ;;
    mret 0
  else mret pagetable.

Definition proc_freepagetable (pagetable sz : Z) : M kmem unit :=
  uvmunmap kend pagetable TRAMPOLINE 1 false ;;
  uvmunmap kend pagetable TRAPFRAME 1 false ;;
  uvmfree kend pagetable sz.
End Pagetable.

(** A page for the kernel stack of each process. *)
Fixpoint proc_mapstacks_loop (kpgtbl : Z) (l : list Z) : M kmem unit :=
  match l with
  | [] => mret tt
  | p :: l' =>
    pa ← kalloc;
    if pa =? 0 then panic "kalloc" else
    kvmmap kpgtbl (KSTACK p) pa PGSIZE (Z.lor PTE_R PTE_W) ;;
    proc_mapstacks_loop kpgtbl l'
  end.
Definition proc_mapstacks (kpgtbl : Z) : M kmem unit := proc_mapstacks_loop kpgtbl (seqZ 0 NPROC).

(** ** The process table *)

Definition proc_lock (p : Z) : lockid := ("proc", p).
Definition pid_lock : lockid := ("nextpid", 0).
(** The address of a process, used as a sleep channel. *)
Definition proc_chan (p : Z) : chan := ("proc", p).

Section Proc.
Context {T : Type} `{!ProcFiles T}.
Variables (kend trampoline forkret_at initcode_at : Z) (xstate_at : Z -> Z).

(** [cur] is mycpu()->proc; [first_run] is the static variable of forkret. *)
Record kern := Kern { procs : gmap Z proc; nextpid : Z; initproc : option Z; cur : option Z; first_run : bool; km : kmem; rest : T }.

Definition getp (s : kern) (p : Z) : proc := default proc0 (procs s !! p).
Definition with_procs f (s : kern) : kern := Kern (f (procs s)) (nextpid s) (initproc s) (cur s) (first_run s) (km s) (rest s).
Definition with_nextpid v (s : kern) : kern := Kern (procs s) v (initproc s) (cur s) (first_run s) (km s) (rest s).
Definition with_initproc v (s : kern) : kern := Kern (procs s) (nextpid s) v (cur s) (first_run s) (km s) (rest s).
Definition with_cur v (s : kern) : kern := Kern (procs s) (nextpid s) (initproc s) v (first_run s) (km s) (rest s).
Definition with_first v (s : kern) : kern := Kern (procs s) (nextpid s) (initproc s) (cur s) v (km s) (rest s).
Definition with_km v (s : kern) : kern := Kern (procs s) (nextpid s) (initproc s) (cur s) (first_run s) v (rest s).
Definition with_rest v (s : kern) : kern := Kern (procs s) (nextpid s) (initproc s) (cur s) (first_run s) (km s) v.
Definition upd_proc (p : Z) (f : proc -> proc) (s : kern) : kern := with_procs (fun t => <[p := f (getp s p)]> t) s.

Definition updp (p : Z) (f : proc -> proc) : M kern unit := modify (upd_proc p f).
Definition onkm {A} (m : M kmem A) : M kern A := zoom km with_km m.
Definition onrest {A} (m : M T A) : M kern A := zoom rest with_rest m.
(** A field read or a store through a null pointer faults in the kernel. *)
Definition fault {A} : M kern A := panic "kerneltrap".
Definition nonnull {A} (o : option A) : M kern A := match o with Some a => mret a | None => fault end.
Definition myproc : M kern Z := o ← gets cur; nonnull o.

Fixpoint procinit_loop (l : list Z) : M kern unit :=
  match l with
  | [] => mret tt
  | p :: l' => updp p (set_kstack (KSTACK p)) ;; procinit_loop l'
  end.
Definition procinit : M kern unit := procinit_loop (seqZ 0 NPROC).

Definition allocpid : M kern Z :=
  acquire pid_lock ;;
  pid ← gets nextpid;
  modify (with_nextpid (i32 (pid + 1))) ;;
  release pid_lock ;;
  mret pid.

Definition freeproc (p : Z) : M kern unit :=
  x ← gets (fun s => getp s p);
  (if p_trapframe x =? 0 then mret tt else onkm (kfree kend (p_trapframe x))) ;;
  updp p (set_trapframe 0) ;;
  (if p_pagetable x =? 0 then mret tt else onkm (proc_freepagetable kend (p_pagetable x) (p_sz x))) ;;
  updp p (fun x => set_state UNUSED (set_xstate 0 (set_killed 0 (set_chan None (set_name [] (set_parent None (set_pid 0 (set_sz 0 (set_pagetable 0 x))))))))).

(** The search of allocproc: the lock of the slot found is held on return. *)
Fixpoint find_unused (l : list Z) : M kern (option Z) :=
  match l with
  | [] => mret None
  | p :: l' =>
    acquire (proc_lock p) ;;
    st ← gets (fun s => p_state (getp s p));
    if bool_decide (st = UNUSED) then mret (Some p) else
    release (proc_lock p) ;;
    find_unused l'
  end.
Definition allocproc : M kern (option Z) :=
  o ← find_unused (seqZ 0 NPROC);
  match o with
  | None => mret None
  | Some p =>
    pid ← allocpid;
    updp p (set_pid pid) ;;
    tf ← onkm kalloc;
    updp p (set_trapframe tf) ;;
    if tf =? 0 then release (proc_lock p) ;; mret None else
    pt ← onkm (proc_pagetable kend trampoline tf);
    updp p (set_pagetable pt) ;;
    if pt =? 0 then freeproc p ;; release (proc_lock p) ;; mret None else
    updp p (fun x => set_context (Context forkret_at (p_kstack x + PGSIZE)) x) ;;
    mret (Some p)
  end.

Definition initcode : list Z := [
  0x17; 0x05; 0x00; 0x00; 0x13; 0x05; 0x45; 0x02;
  0x97; 0x05; 0x00; 0x00; 0x93; 0x85; 0x35; 0x02;
  0x93; 0x08; 0x70; 0x00; 0x73; 0x00; 0x00; 0x00;
  0x93; 0x08; 0x20; 0x00; 0x73; 0x00; 0x00; 0x00;
  0xef; 0xf0; 0x9f; 0xff; 0x2f; 0x69; 0x6e; 0x69;
  0x74; 0x00; 0x00; 0x24; 0x00; 0x00; 0x00; 0x00;
  0x00; 0x00; 0x00; 0x00].

(** [safestrcpy(name, s, sizeof(name))]: names are C strings of at most 15 characters. *)
Definition copy_name (s : list Z) : list Z := take 15 s.
Definition name_initcode : list Z := [105; 110; 105; 116; 99; 111; 100; 101].

Definition userinit : M kern unit :=
  o ← allocproc;
  modify (with_initproc o) ;;
  p ← nonnull o;
  x ← gets (fun s => getp s p);
  onkm (uvminit (p_pagetable x) initcode_at (Z.of_nat (length initcode))) ;;
  updp p (set_sz PGSIZE) ;;
  onkm (sd (p_trapframe x + tf_epc) 0) ;;
  onkm (sd (p_trapframe x + tf_sp) PGSIZE) ;;
  updp p (set_name (copy_name name_initcode)) ;;
  ip ← onrest (pf_namei [47]);
  updp p (set_cwd ip) ;;
  updp p (set_state RUNNABLE) ;;
  release (proc_lock p).

(** [sz] is a uint: the sizes wrap around at 32 bits. *)
Definition growproc (n : Z) : M kern Z :=
  p ← myproc;
  x ← gets (fun s => getp s p);
  let sz := u32 (p_sz x) in
  if 0 <? n then
    r ← onkm (uvmalloc kend (p_pagetable x) sz (u32 (sz + n)));
    if u32 r =? 0 then mret (-1) else
    updp p (set_sz (u32 r)) ;; mret 0
  else if n <? 0 then
    r ← onkm (uvmdealloc kend (p_pagetable x) sz (u32 (sz + n)));
    updp p (set_sz (u32 r)) ;; mret 0
  else updp p (set_sz sz) ;; mret 0.

(** The loop of fork over the open files. *)
Fixpoint dup_files (p np : Z) (l : list Z) : M kern unit :=
  match l with
  | [] => mret tt
  | i :: l' =>
    o ← gets (fun s => p_ofile (getp s p) !! i);
    match o with
    | None => mret tt
    | Some f => f' ← onrest (pf_filedup f); updp np (fun x => set_ofile (<[i := f']> (p_ofile x)) x)
    end ;;
    dup_files p np l'
  end.
Definition fork : M kern Z :=
  p ← myproc;
  o ← allocproc;
  match o with
  | None => mret (-1)
  | Some np =>
    x ← gets (fun s => getp s p);
    y ← gets (fun s => getp s np);
    r ← onkm (uvmcopy kend (p_pagetable x) (p_pagetable y) (p_sz x));
    if r <? 0 then freeproc np ;; release (proc_lock np) ;; mret (-1) else
    updp np (set_sz (p_sz x)) ;;
    updp np (set_parent (Some p)) ;;
    onkm (on_ram (fun m => memmove m (p_trapframe y) (p_trapframe x) TF_SIZE)) ;;
    onkm (sd (p_trapframe y + tf_a0) 0) ;;
    dup_files p np (seqZ 0 NOFILE) ;;
    cwd ← nonnull (p_cwd x);
    ip ← onrest (pf_idup cwd);
    updp np (set_cwd (Some ip)) ;;
    updp np (set_name (copy_name (p_name x))) ;;
    pid ← gets (fun s => p_pid (getp s np));
    updp np (set_state RUNNABLE) ;;
    release (proc_lock np) ;;
    mret pid
  end.

Fixpoint reparent_loop (p : Z) (l : list Z) : M kern unit :=
  match l with
  | [] => mret tt
  | pp :: l' =>
    parent ← gets (fun s => p_parent (getp s pp));
    (if bool_decide (parent = Some p) then
       acquire (proc_lock pp) ;;
       ip ← gets initproc;
       updp pp (set_parent ip) ;;
       release (proc_lock pp)
     else mret tt) ;;
    reparent_loop p l'
  end.
Definition reparent (p : Z) : M kern unit := reparent_loop p (seqZ 0 NPROC).

(** ** Giving up the CPU *)

(** swtch to the scheduler of this CPU and back. *)
Variable swtch : M kern unit.

(** The lock depth [noff] is the number of spin locks held, and interrupts are off while it
    is positive (Spinlock.v). *)
Definition sched : M kern unit :=
  p ← myproc;
  h ← holding (proc_lock p);
  if negb h then panic "sched p->lock" else
  n ← (fun k => Ok (length (held k)) k);
  if negb (Nat.eqb n 1) then panic "sched locks" else
  x ← gets (fun s => getp s p);
  if bool_decide (p_state x = RUNNING) then panic "sched running" else
  swtch.

Definition yield : M kern unit :=
  p ← myproc;
  acquire (proc_lock p) ;;
  updp p (set_state RUNNABLE) ;;
  sched ;;
  release (proc_lock p).

Definition sleep (c : chan) (lk : lockid) : M kern unit :=
  p ← myproc;
  (if bool_decide (lk = proc_lock p) then mret tt else acquire (proc_lock p) ;; release lk) ;;
  updp p (fun x => set_state SLEEPING (set_chan (Some c) x)) ;;
  sched ;;
  updp p (set_chan None) ;;
  (if bool_decide (lk = proc_lock p) then mret tt else release (proc_lock p) ;; acquire lk).

Fixpoint wakeup_loop (c : chan) (l : list Z) : M kern unit :=
  match l with
  | [] => mret tt
  | p :: l' =>
    acquire (proc_lock p) ;;
    x ← gets (fun s => getp s p);
    (if bool_decide (p_state x = SLEEPING) && bool_decide (p_chan x = Some c) then updp p (set_state RUNNABLE) else mret tt) ;;
    release (proc_lock p) ;;
    wakeup_loop c l'
  end.
Definition wakeup (c : chan) : M kern unit := wakeup_loop c (seqZ 0 NPROC).

Definition wakeup1 (p : Z) : M kern unit :=
  h ← holding (proc_lock p);
  if negb h then panic "wakeup1" else
  x ← gets (fun s => getp s p);
  if bool_decide (p_chan x = Some (proc_chan p)) && bool_decide (p_state x = SLEEPING) then updp p (set_state RUNNABLE) else mret tt.

Fixpoint kill_loop (pid : Z) (l : list Z) : M kern Z :=
  match l with
  | [] => mret (-1)
  | p :: l' =>
    acquire (proc_lock p) ;;
    x ← gets (fun s => getp s p);
    if p_pid x =? pid then
      updp p (set_killed 1) ;;
      (if bool_decide (p_state x = SLEEPING) then updp p (set_state RUNNABLE) else mret tt) ;;
      release (proc_lock p) ;;
      mret 0
    else release (proc_lock p) ;; kill_loop pid l'
  end.
Definition kill (pid : Z) : M kern Z := kill_loop pid (seqZ 0 NPROC).

(** ** exit and wait *)

Fixpoint close_files (p : Z) (l : list Z) : M kern unit :=
  match l with
  | [] => mret tt
  | fd :: l' =>
    o ← gets (fun s => p_ofile (getp s p) !! fd);
    match o with
    | None => mret tt
    | Some f => onrest (pf_fileclose f) ;; updp p (fun x => set_ofile (delete fd (p_ofile x)) x)
    end ;;
    close_files p l'
  end.
Definition exit (status : Z) : M kern unit :=
  p ← myproc;
  ip ← gets initproc;
  if bool_decide (ip = Some p) then panic "init exiting" else
  close_files p (seqZ 0 NOFILE) ;;
  onrest pf_begin_op ;;
  x ← gets (fun s => getp s p);
  cwd ← nonnull (p_cwd x);
  onrest (pf_iput cwd) ;;
  onrest pf_end_op ;;
  updp p (set_cwd None) ;;
  ip ← nonnull ip;
  acquire (proc_lock ip) ;;
  wakeup1 ip ;;
  release (proc_lock ip) ;;
  acquire (proc_lock p) ;;
  x ← gets (fun s => getp s p);
  release (proc_lock p) ;;
  original_parent ← nonnull (p_parent x);
  acquire (proc_lock original_parent) ;;
  acquire (proc_lock p) ;;
  reparent p ;;
  wakeup1 original_parent ;;
  updp p (set_xstate status) ;;
  updp p (set_state ZOMBIE) ;;
  release (proc_lock original_parent) ;;
  sched ;;
  panic "zombie exit".

(** [np->xstate] lives at [xstate_at np]; the copy in memory is brought up to date before its
    address is passed on. *)
Definition xstate_ptr (np : Z) : M kern Z :=
  x ← gets (fun s => getp s np);
  onkm (on_ram (fun m => le_store m (xstate_at np) (u32 (p_xstate x)) 4)) ;;
  mret (xstate_at np).

(** One pass of wait over the table: the result of the call, or whether there are children. *)
Fixpoint wait_scan (p addr : Z) (havekids : bool) (l : list Z) : M kern (Z + bool) :=
  match l with
  | [] => mret (inr havekids)
  | np :: l' =>
    x ← gets (fun s => getp s np);
    if bool_decide (p_parent x = Some p) then
      acquire (proc_lock np) ;;
      x ← gets (fun s => getp s np);
      if bool_decide (p_state x = ZOMBIE) then
        pt ← gets (fun s => p_pagetable (getp s p));
        r ← (if addr =? 0 then mret 0 else a ← xstate_ptr np; onkm (copyout pt addr a 4));
        if r <? 0 then
          release (proc_lock np) ;; release (proc_lock p) ;; mret (inl (-1))
        else
          freeproc np ;;
          release (proc_lock np) ;;
          release (proc_lock p) ;;
          mret (inl (p_pid x))
      else release (proc_lock np) ;; wait_scan p addr true l'
    else wait_scan p addr havekids l'
  end.
(** The loop of wait; [fuel] bounds the number of times the process goes to sleep. *)
Fixpoint wait_loop (fuel : nat) (p addr : Z) : M kern Z :=
  r ← wait_scan p addr false (seqZ 0 NPROC);
  match r with
  | inl v => mret v
  | inr havekids =>
    killed ← gets (fun s => p_killed (getp s p));
    if negb havekids || negb (killed =? 0) then release (proc_lock p) ;; mret (-1) else
    sleep (proc_chan p) (proc_lock p) ;;
    match fuel with O => panic no_fuel | S fuel => wait_loop fuel p addr end
  end.
Definition wait (fuel : nat) (addr : Z) : M kern Z :=
  p ← myproc;
  acquire (proc_lock p) ;;
  wait_loop fuel p addr.

(** ** The scheduler *)

(** One pass of the scheduler over the table: the number of processes seen. *)
Fixpoint scheduler_loop (l : list Z) (nproc : Z) : M kern Z :=
  match l with
  | [] => mret nproc
  | p :: l' =>
    acquire (proc_lock p) ;;
    x ← gets (fun s => getp s p);
    let nproc := if bool_decide (p_state x = UNUSED) then nproc else nproc + 1 in
    (if bool_decide (p_state x = RUNNABLE) then
       updp p (set_state RUNNING) ;;
       modify (with_cur (Some p)) ;;
       swtch ;;
       modify (with_cur None)
     else mret tt) ;;
    release (proc_lock p) ;;
    scheduler_loop l' nproc
  end.
(** One round: whether the CPU then waits for an interrupt. *)
Definition scheduler : M kern bool :=
  modify (with_cur None) ;;
  nproc ← scheduler_loop (seqZ 0 NPROC) 0;
  mret (nproc <=? 2).

(** [usertrapret] continues in user space. *)
Definition forkret (usertrapret : M kern unit) : M kern unit :=
  p ← myproc;
  release (proc_lock p) ;;
  f ← gets (fun s : kern => first_run s);
  (if negb f then mret tt else modify (with_first false) ;; onrest (pf_fsinit ROOTDEV)) ;;
  usertrapret.

(** ** Copying to and from user or kernel addresses *)

Definition either_copyout (user_dst : bool) (dst src len : Z) : M kern Z :=
  p ← myproc;
  x ← gets (fun s => getp s p);
  if user_dst then onkm (copyout (p_pagetable x) dst src len)
  else onkm (on_ram (fun m => memmove m dst src len)) ;; mret 0.
Definition either_copyin (dst : Z) (user_src : bool) (src len : Z) : M kern Z :=
  p ← myproc;
  x ← gets (fun s => getp s p);
  if user_src then onkm (copyin (p_pagetable x) dst src len)
  else onkm (on_ram (fun m => memmove m dst src len)) ;; mret 0.

Definition state_name (st : procstate) : string :=
  match st with
  | UNUSED => "unused" | SLEEPING => "sleep " | RUNNABLE => "runble" | RUNNING => "run   " | ZOMBIE => "zombie"
  end.
(** The lines procdump prints: pid, state and name. *)
Definition procdump (s : kern) : list (Z * string * list Z) :=
  omap (fun p : Z => let x := getp s p in
                 if bool_decide (p_state x = UNUSED) then None else Some (p_pid x, state_name (p_state x), p_name x)) (seqZ 0 NPROC).
End Proc.
