(* ===== verification/ProcMem.v ===== *)
(** * The memory of processes

    Every process owns a page table, a trap frame and its data pages; [pmem] says that these,
    the free list and the rest of the kernel's pages divide the pool, for all processes at
    once.  allocproc, freeproc, growproc, fork and wait keep it: no page is leaked, shared
    between processes, or freed twice. *)
From S2P Require Import Prelude Mem Riscv Kalloc Vm VmTree VmSpec VmAlloc VmFree VmPool Proc.

Section Space.
Variables (kend trampoline : Z) (pool : list Z).
Hypothesis kend_kern : KERNBASE <= kend.
Hypothesis pool_nodup : NoDup pool.
Hypothesis pool_pages : Forall (page kend) pool.
Hypothesis tramp_ok : trampoline mod 4096 = 0 /\ 0 <= trampoline /\ trampoline + 4096 <= 2 ^ 56.
Implicit Types (s : kmem) (R : spaces) (U : list Z) (tf root : Z) (pages : list (Z * Z)).

Abbreviation mem_ok := (mem_ok kend pool).
Abbreviation stays := (stays pool).

Definition VTRAMP : Z := TRAMPOLINE / 4096.
Definition VTF : Z := TRAPFRAME / 4096.
(** The address space of a process: its pages from 0 on, trap frame and trampoline on top. *)
Definition user_space tf pages : Z -> Z := fun v =>
  if v =? VTRAMP then mkpte trampoline 11 else
  if v =? VTF then mkpte tf 7 else
  match pages !! Z.to_nat v with Some (p, f) => mkpte p f | None => 0 end.
(** Flags of a user page. *)
Definition uflags (f : Z) : Prop := 0 <= f < 1024 /\ bits_set f PTE_V = true /\ f <> PTE_V.

Lemma space_consts : VTRAMP = 2 ^ 26 - 1 /\ VTF = 2 ^ 26 - 2 /\ MAXVA = 2 ^ 26 * 4096 /\ TRAMPOLINE = VTRAMP * 4096 /\ TRAPFRAME = VTF * 4096.
Proof. done. Qed.

Lemma proc_pagetable_pool h s R U tf : kmem_lock ∉ h -> mem_ok s R U -> page kend tf ->
  wp (proc_pagetable kend trampoline tf) (KSt h s) (fun r k => held k = h /\ stays U s (st k) /\
    ((r = 0 /\ mem_ok (st k) R U) \/ (r <> 0 /\ R !! r = None /\ mem_ok (st k) (<[r := user_space tf []]> R) U))).
Proof using kend_kern pool_nodup pool_pages tramp_ok.
  intros Hh Hm Htf. destruct space_consts as (C1 & C2 & C3 & C4 & C5). destruct tramp_ok as (T1 & T2 & T3).
  pose proof (page_pos kend kend_kern tf Htf) as Htf0. destruct Htf as [Htf1 Htf2].
  assert (tf + 4096 <= 2 ^ 56) as Htf3 by (unfold PHYSTOP, KERNBASE in Htf2; lia).
  unfold proc_pagetable. wstep. eapply wp_mono; [by apply (uvmcreate_pool kend pool kend_kern pool_nodup pool_pages h s R U)|].
  intros root [h' s1] (Eh & Hs1 & Hc). cbn [held st] in *. subst h'.
  destruct Hc as [[-> Hm1]|(Hroot & HR & Hm1)]; [rewrite Z.eqb_refl; wstep; split_and!; [done|done|by left]|].
  destruct (Z.eqb_spec root 0); [done|]. wstep.
  eapply wp_mono; [eapply (mappages_pool kend pool kend_kern pool_nodup pool_pages h s1 _ U root (fun _ => 0) TRAMPOLINE trampoline (Z.lor PTE_R PTE_X));
    [done|exact Hm1|apply lookup_insert_eq|done|by rewrite C4; lia|lia|done|done|done]|].
  intros r [h' s2] (Eh & Hs2 & Hc). cbn [held st] in *. subst h'. destruct Hc as [[-> Hm2]|[-> Hm2]].
  - change (-1 <? 0) with true. cbv iota. wstep.
    eapply wp_mono; [eapply (uvmfree_pool kend pool kend_kern pool_nodup pool_pages h s2 _ U U root (fun _ => 0) 0 0); [done|exact Hm2|apply lookup_insert_eq|lia|done|by rewrite C3; lia|lia|done|done]|].
    intros _ [h' s3] (Eh & Hs3 & Hm3). cbn [held st] in *. subst h'. rewrite delete_insert_id in Hm3 by done. wstep.
    split_and!; [done|eauto using stays_trans|by left].
  - change (0 <? 0) with false. cbv iota. wstep. rewrite insert_insert_eq in Hm2.
    set (f1 := fupd (fun _ => 0) (TRAMPOLINE / 4096) (mkpte trampoline (Z.lor (Z.lor PTE_R PTE_X) PTE_V))) in *.
    eapply wp_mono; [eapply (mappages_pool kend pool kend_kern pool_nodup pool_pages h s2 _ U root f1 TRAPFRAME tf (Z.lor PTE_R PTE_W));
      [done|exact Hm2|apply lookup_insert_eq|done|by rewrite C5; lia|lia|done|done|done]|].
    intros r [h' s3] (Eh & Hs3 & Hc). cbn [held st] in *. subst h'. destruct Hc as [[-> Hm3]|[-> Hm3]].
    + change (-1 <? 0) with true. cbv iota. wstep.
      eapply wp_mono; [eapply (uvmunmap_pool kend pool kend_kern pool_nodup pool_pages h s3 _ U U root f1 TRAMPOLINE 1 false);
        [done|exact Hm3|apply lookup_insert_eq|done|done|lia|done| |done]|].
      { intros j Hj. assert (j = 0) as -> by lia. unfold f1. rewrite Z.add_0_r, fupd_eq. split; [rewrite bits_set_mkpte; done|rewrite PTE_FLAGS_mkpte; done]. }
      intros _ [h' s4] (Eh & Hs4 & Hm4). cbn [held st] in *. subst h'. rewrite insert_insert_eq in Hm4. wstep.
      eapply wp_mono; [eapply (uvmfree_pool kend pool kend_kern pool_nodup pool_pages h s4 _ U U root (cut f1 (TRAMPOLINE / 4096) 1) 0 0);
        [done|exact Hm4|apply lookup_insert_eq|lia|done|by rewrite C3; lia|lia| |done]|].
      { intros v Hv. unfold cut, f1, fupd. fold VTRAMP. zbool; lia || done. }
      intros _ [h' s5] (Eh & Hs5 & Hm5). cbn [held st] in *. subst h'. rewrite delete_insert_id in Hm5 by done. wstep.
      split_and!; [done|eauto 6 using stays_trans|by left].
    + change (0 <? 0) with false. cbv iota. wstep. rewrite insert_insert_eq in Hm3. split_and!; [done|eauto using stays_trans|right].
      split_and!; [done|done|]. eapply mem_ok_ext; [|exact Hm3]. intros v Hv. unfold user_space, f1, fupd. fold VTRAMP VTF.
      rewrite lookup_nil. zbool; lia || done.
Qed.

(** The pages behind an address space. *)
Lemma pages_at_space tf pages : Z.of_nat (length pages) <= VTF -> Forall (fun x => 0 <= x.1 < 2 ^ 56 /\ x.1 mod 4096 = 0 /\ uflags x.2) pages ->
  pages_at (user_space tf pages) 0 (length pages) = pages.*1.
Proof using.
  clear kend_kern pool_nodup pool_pages tramp_ok.
  intros Hl Hp. destruct space_consts as (C1 & C2 & _). unfold pages_at. apply list_eq_same_length with (length pages).
  - by rewrite length_fmap.
  - by rewrite length_fmap, length_seqZ, Nat2Z.id.
  - intros i x y Hi Hx Hy. apply list_lookup_fmap_Some in Hx as (j & -> & Hj). apply lookup_seqZ in Hj as [-> _]. cbn.
    apply list_lookup_fmap_Some in Hy as ([p f] & -> & Hy). cbn. unfold user_space. rewrite !Z.add_0_l, Nat2Z.id, Hy.
    pose proof (lookup_lt_Some _ _ _ Hy). destruct (Z.eqb_spec (Z.of_nat i) VTRAMP); [lia|]. destruct (Z.eqb_spec (Z.of_nat i) VTF); [lia|].
    eapply Forall_lookup_1 in Hp as (H1 & H2 & [H3 _]); [|exact Hy]. by apply PTE2PA_mkpte.
Qed.
Lemma space_leaf tf pages j p f : Z.of_nat (length pages) <= VTF -> pages !! j = Some (p, f) -> user_space tf pages (Z.of_nat j) = mkpte p f.
Proof using.
  clear kend_kern pool_nodup pool_pages tramp_ok.
  intros Hl Hj. destruct space_consts as (C1 & C2 & _). pose proof (lookup_lt_Some _ _ _ Hj). unfold user_space. rewrite Nat2Z.id, Hj. zbool; lia || done.
Qed.
Lemma leaf_uflags p f : uflags f -> is_leaf (mkpte p f).
Proof. intros (H1 & H2 & H3). split; [by rewrite bits_set_mkpte|by rewrite PTE_FLAGS_mkpte]. Qed.

(** The pages of a process: mapped, well-flagged, as many as its size asks for. *)
Record space_ok (sz : Z) pages : Prop := {
  sp_sz : 0 <= sz <= TRAPFRAME;
  sp_len : npages sz = Z.of_nat (length pages);
  sp_flags : Forall (fun x => uflags x.2) pages;
}.
Lemma space_ok_len sz pages : space_ok sz pages -> Z.of_nat (length pages) <= VTF.
Proof using.
  clear kend_kern pool_nodup pool_pages tramp_ok. intros [H1 H2 _]. destruct space_consts as (_ & C2 & _ & _ & C5). rewrite <- H2. unfold npages. dlia.
Qed.
Lemma pages_fine s R U pages l own : mem_at kend pool s R U l own -> Forall (fun x => uflags x.2) pages -> (forall p, p ∈ pages.*1 -> p ∈ U) ->
  Forall (fun x => 0 <= x.1 < 2 ^ 56 /\ x.1 mod 4096 = 0 /\ uflags x.2) pages.
Proof using kend_kern pool_nodup pool_pages.
  intros Hm Hf Hu. apply Forall_forall. intros [p f] Hin. cbn. assert (p ∈ U) as Hp by (apply Hu; apply list_elem_of_fmap; by exists (p, f)).
  destruct (mem_disjoint kend pool kend_kern pool_nodup pool_pages _ _ _ _ _ p Hm Hp) as (_ & Hpp & _). pose proof (page_pos kend kend_kern p Hpp).
  rewrite Forall_forall in Hf. split_and!; [lia|lia|apply Hpp|apply (Hf _ Hin)..].
Qed.

Lemma proc_freepagetable_pool h s R U U' root tf sz pages : kmem_lock ∉ h -> mem_ok s R U -> R !! root = Some (user_space tf pages) ->
  space_ok sz pages -> U ≡ₚ pages.*1 ++ U' ->
  wp (proc_freepagetable kend root sz) (KSt h s) (fun _ k => held k = h /\ stays U' s (st k) /\ mem_ok (st k) (delete root R) U').
Proof using kend_kern pool_nodup pool_pages tramp_ok.
  intros Hh Hm HR Hsp HU. destruct space_consts as (C1 & C2 & C3 & C4 & C5). pose proof (space_ok_len _ _ Hsp) as Hlen.
  assert (Forall (fun x => 0 <= x.1 < 2 ^ 56 /\ x.1 mod 4096 = 0 /\ uflags x.2) pages) as Hfine.
  { destruct Hm as (l & own & Hm). eapply pages_fine; [exact Hm|apply Hsp|]. intros p Hp. rewrite HU. set_solver. }
  unfold proc_freepagetable. wstep.
  eapply wp_mono; [eapply (uvmunmap_pool kend pool kend_kern pool_nodup pool_pages h s R U U root _ TRAMPOLINE 1 false);
    [done|exact Hm|exact HR|done|done|lia|done| |done]|].
  { intros j Hj. assert (j = 0) as -> by lia. rewrite Z.add_0_r. apply (leaf_uflags trampoline 11). done. }
  intros _ [h' s1] (Eh & Hs1 & Hm1). cbn [held st] in *. subst h'. wstep.
  eapply wp_mono; [eapply (uvmunmap_pool kend pool kend_kern pool_nodup pool_pages h s1 _ U U root _ TRAPFRAME 1 false);
    [done|exact Hm1|apply lookup_insert_eq|done|done|lia|done| |done]|].
  { intros j Hj. assert (j = 0) as -> by lia. rewrite Z.add_0_r. apply (leaf_uflags tf 7). done. }
  intros _ [h' s2] (Eh & Hs2 & Hm2). cbn [held st] in *. subst h'. rewrite insert_insert_eq in Hm2.
  set (f2 := cut (cut (user_space tf pages) (TRAMPOLINE / 4096) 1) (TRAPFRAME / 4096) 1) in *.
  assert (forall j, 0 <= j < Z.of_nat (length pages) -> f2 j = user_space tf pages j) as Hf2.
  { intros j Hj. unfold f2, cut. fold VTRAMP VTF. zbool; lia || done. }
  assert (pages_at f2 0 (length pages) = pages.*1) as Hpa.
  { rewrite <- (pages_at_space tf pages) by done. unfold pages_at. apply list_fmap_ext. intros i j Hj%lookup_seqZ. cbn. rewrite Hf2 by lia. done. }
  eapply wp_mono; [eapply (uvmfree_pool kend pool kend_kern pool_nodup pool_pages h s2 _ U U' root f2 sz (npages sz)); [done|exact Hm2|apply lookup_insert_eq|..]|].
  - apply Hsp.
  - done.
  - rewrite (sp_len _ _ Hsp). lia.
  - rewrite (sp_len _ _ Hsp). intros j Hj. rewrite Hf2 by done. destruct (lookup_lt_is_Some_2 pages (Z.to_nat j)) as [[p f] Hp]; [lia|].
    replace j with (Z.of_nat (Z.to_nat j)) by lia. rewrite (space_leaf tf pages _ p f Hlen Hp). apply leaf_uflags.
    by eapply Forall_lookup_1 in Hfine as (_ & _ & Hf); [|exact Hp].
  - rewrite (sp_len _ _ Hsp). intros v Hv. unfold f2, cut, user_space. fold VTRAMP VTF. rewrite lookup_ge_None_2 by lia. zbool; lia || done.
  - rewrite (sp_len _ _ Hsp), Nat2Z.id, Hpa. done.
  - intros _ [h' s3] (Eh & Hs3 & Hm3). cbn [held st] in *. subst h'. rewrite delete_insert_eq in Hm3. split_and!; [done| |done].
    eapply stays_trans; [|exact Hs3]. eapply (stays_sub pool U' U); [|eauto using stays_trans]. intros p _ Hp. rewrite HU. set_solver.
Qed.
End Space.
