(* ===== verification/ProcInv.v ===== *)
(** * The process table keeps memory in order: allocproc, freeproc and growproc *)
From S2P Require Import Prelude Mem Riscv Kalloc Vm VmTree VmSpec VmAlloc VmFree VmPool Proc ProcMem.

Abbreviation aspaces := (gmap Z (list (Z * Z))).

Section ProcInv.
Context {T : Type} `{!ProcFiles T}.
Variables (kend trampoline : Z) (pool : list Z) (R0 : spaces).
Hypothesis kend_kern : KERNBASE <= kend.
Hypothesis pool_nodup : NoDup pool.
Hypothesis pool_pages : Forall (page kend) pool.
Hypothesis tramp_ok : trampoline mod 4096 = 0 /\ 0 <= trampoline /\ trampoline + 4096 <= 2 ^ 56.

Abbreviation kern := (@kern T).
Implicit Types (s : kern) (A : aspaces) (R : spaces) (K : list Z) (i : Z).

Lemma getp_upd_eq s i f : getp (upd_proc i f s) i = f (getp s i).
Proof. unfold getp, upd_proc, with_procs. cbn. by rewrite lookup_insert_eq. Qed.
Lemma getp_upd_ne s i j f : j <> i -> getp (upd_proc i f s) j = getp s j.
Proof. intros H. unfold getp, upd_proc, with_procs. cbn. by rewrite lookup_insert_ne. Qed.
Lemma getp_km s v i : getp (with_km v s) i = getp s i.
Proof. done. Qed.
Lemma getp_rest s v i : getp (with_rest v s) i = getp s i.
Proof. done. Qed.

Lemma wp_onkm {B} (m : M kmem B) h s (Q : B -> kst kern -> Prop) :
  wp m (KSt h (km s)) (fun a k => Q a (KSt (held k) (with_km (st k) s))) -> wp (onkm m) (KSt h s) Q.
Proof. unfold wp, onkm, zoom. cbn. by destruct (m _). Qed.
Lemma wp_onrest {B} (m : M T B) h s (Q : B -> kst kern -> Prop) :
  wp m (KSt h (rest s)) (fun a k => Q a (KSt (held k) (with_rest (st k) s))) -> wp (onrest m) (KSt h s) Q.
Proof. unfold wp, onrest, zoom. cbn. by destruct (m _). Qed.

(** The trap frames and data pages of the address spaces [A]. *)
Definition users s A : list Z := concat ((fun x => p_trapframe (getp s x.1) :: x.2.*1) <$> map_to_list A).
Lemma users_ext s s' A : (forall i, is_Some (A !! i) -> p_trapframe (getp s' i) = p_trapframe (getp s i)) -> users s' A = users s A.
Proof.
  intros H. unfold users. f_equal. apply list_fmap_ext. intros j [i pages] Hj%list_elem_of_lookup_2%elem_of_map_to_list. cbn.
  rewrite H by eauto. done.
Qed.
Lemma users_insert s A i pages : A !! i = None -> users s (<[i := pages]> A) ≡ₚ p_trapframe (getp s i) :: pages.*1 ++ users s A.
Proof. intros H. unfold users. rewrite (map_to_list_insert A i pages H). done. Qed.
Lemma users_delete s A i pages : A !! i = Some pages -> users s A ≡ₚ p_trapframe (getp s i) :: pages.*1 ++ users s (delete i A).
Proof. intros H. rewrite <- users_insert by apply lookup_delete_eq. rewrite insert_delete_id; done. Qed.

(** Memory is divided between the address spaces [A], other pages in use [K], tables and free
    pages; [R0] are page tables that belong to no process. *)
Record pmem_at K s A R : Prop := {
  pm_mem : mem_ok kend pool (km s) R (users s A ++ K);
  pm_space : forall i pages, A !! i = Some pages -> p_pagetable (getp s i) <> 0 /\ p_trapframe (getp s i) <> 0 /\ space_ok (p_sz (getp s i)) pages /\
    R !! p_pagetable (getp s i) = Some (user_space trampoline (p_trapframe (getp s i)) pages);
  pm_inj : forall i j, is_Some (A !! i) -> is_Some (A !! j) -> p_pagetable (getp s i) = p_pagetable (getp s j) -> i = j;
  pm_R : forall r, is_Some (R !! r) -> is_Some (R0 !! r) \/ exists i, is_Some (A !! i) /\ r = p_pagetable (getp s i);
  pm_R0 : forall r f, R0 !! r = Some f -> R !! r = Some f /\ forall i, is_Some (A !! i) -> r <> p_pagetable (getp s i);
}.
Definition pmem K s A : Prop := exists R, pmem_at K s A R.

(** Only these fields matter. *)
Lemma pmem_at_ext K s s' A R : (forall i, is_Some (A !! i) -> p_trapframe (getp s' i) = p_trapframe (getp s i) /\ p_pagetable (getp s' i) = p_pagetable (getp s i) /\ p_sz (getp s' i) = p_sz (getp s i)) ->
  mem_ok kend pool (km s') R (users s A ++ K) -> pmem_at K s A R -> pmem_at K s' A R.
Proof.
  intros He Hm [H1 H2 H3 H4 H5]. split.
  - by rewrite (users_ext s s') by (intros; by apply He).
  - intros i pages Hi. destruct (He i) as (-> & -> & ->); [eauto|]. by apply H2.
  - intros i j Hi Hj. destruct (He i Hi) as (_ & -> & _), (He j Hj) as (_ & -> & _). by apply H3.
  - intros r Hr. destruct (H4 r Hr) as [?|(i & Hi & ->)]; [by left|right]. exists i. split; [done|]. symmetry. by apply He.
  - intros r f Hr. destruct (H5 r f Hr) as [? Hn]. split; [done|]. intros i Hi. destruct (He i Hi) as (_ & -> & _). by apply Hn.
Qed.
Lemma pmem_same K s s' A : (forall i, is_Some (A !! i) -> p_trapframe (getp s' i) = p_trapframe (getp s i) /\ p_pagetable (getp s' i) = p_pagetable (getp s i) /\ p_sz (getp s' i) = p_sz (getp s i)) ->
  km s' = km s -> pmem K s A -> pmem K s' A.
Proof. intros He Ek [R H]. exists R. eapply pmem_at_ext; [done| |exact H]. rewrite Ek. apply H. Qed.
Lemma pmem_perm K K' s A R : K ≡ₚ K' -> pmem_at K s A R -> pmem_at K' s A R.
Proof. intros E [H1 H2 H3 H4 H5]. split; try done. eapply mem_ok_perm; [|exact H1]. by rewrite E. Qed.

(** A change of one slot that keeps the fields above, or of a slot without address space. *)
Lemma pmem_upd K s A i f : (is_Some (A !! i) -> p_trapframe (f (getp s i)) = p_trapframe (getp s i) /\ p_pagetable (f (getp s i)) = p_pagetable (getp s i) /\ p_sz (f (getp s i)) = p_sz (getp s i)) ->
  pmem K s A -> pmem K (upd_proc i f s) A.
Proof.
  intros Hf. apply pmem_same; [|done]. intros j Hj. destruct (decide (j = i)) as [->|]; [rewrite getp_upd_eq; by apply Hf|by rewrite getp_upd_ne].
Qed.

(** A page in use moves to the free list, or back. *)
Lemma pmem_kfree h K s A q : kmem_lock ∉ h -> pmem (q :: K) s A ->
  wp (onkm (kfree kend q)) (KSt h s) (fun _ k => held k = h /\ exists m, st k = with_km m s /\ stays pool (users s A ++ K) (km s) m /\ pmem K (st k) A).
Proof using kend_kern pool_nodup pool_pages.
  intros Hh [R Hp]. apply wp_onkm. pose proof (pm_mem _ _ _ _ Hp) as Hm.
  eapply wp_mono; [eapply (kfree_pool kend pool kend_kern pool_nodup pool_pages h (km s) R (users s A ++ K) q Hh)|].
  { eapply mem_ok_perm; [|exact Hm]. symmetry. apply Permutation_middle. }
  intros _ [h' m] (Eh & Hs & Hm'). cbn [held st] in *. split; [done|]. exists m. split_and!; [done|done|]. exists R.
  destruct Hp as [_ H2 H3 H4 H5]. by split.
Qed.
Lemma pmem_kalloc h K s A : kmem_lock ∉ h -> pmem K s A ->
  wp (onkm kalloc) (KSt h s) (fun q k => held k = h /\ exists m, st k = with_km m s /\ stays pool (users s A ++ K) (km s) m /\
    ((q = 0 /\ pmem K (st k) A) \/ (q <> 0 /\ page kend q /\ pmem (q :: K) (st k) A))).
Proof using kend_kern pool_nodup pool_pages.
  intros Hh [R Hp]. apply wp_onkm. pose proof (pm_mem _ _ _ _ Hp) as Hm.
  eapply wp_mono; [eapply (kalloc_pool kend pool kend_kern pool_nodup pool_pages h (km s) R (users s A ++ K) Hh Hm)|].
  intros q [h' m] (Eh & Hs & Hc). cbn [held st] in *. split; [done|]. exists m. split_and!; [done|done|].
  destruct Hp as [_ H2 H3 H4 H5]. destruct Hc as [[-> Hm']|(Hq & Hqp & _ & _ & Hm')].
  - left. split; [done|]. exists R. by split.
  - right. split_and!; [done|done|]. exists R. split; try done. eapply mem_ok_perm; [|exact Hm']. apply Permutation_middle.
Qed.

(** Everything but slot [i], memory and the next pid is unchanged. *)
Record others i s s' : Prop := {
  ot_procs : forall j, j <> i -> getp s' j = getp s j;
  ot_cur : cur s' = cur s;
  ot_init : initproc s' = initproc s;
  ot_first : first_run s' = first_run s;
  ot_rest : rest s' = rest s;
}.
Lemma others_refl i s : others i s s.
Proof. by split. Qed.
Lemma others_trans i s1 s2 s3 : others i s1 s2 -> others i s2 s3 -> others i s1 s3.
Proof. intros [A1 A2 A3 A4 A5] [B1 B2 B3 B4 B5]. split; try congruence. intros j Hj. by rewrite B1, A1. Qed.
Lemma others_upd i f s : others i s (upd_proc i f s).
Proof. split; try done. intros j Hj. by apply getp_upd_ne. Qed.
Lemma others_km i m s : others i s (with_km m s).
Proof. by split. Qed.

(** ** freeproc *)

Definition reset (x : proc) : proc :=
  set_state UNUSED (set_xstate 0 (set_killed 0 (set_chan None (set_name [] (set_parent None (set_pid 0 (set_sz 0 (set_pagetable 0 (set_trapframe 0 x))))))))).

Lemma users_drop s s' A i : others i s s' -> users s' (delete i A) = users s (delete i A).
Proof. intros Ho. apply users_ext. intros j [x [Hj _]%lookup_delete_Some]. by rewrite (ot_procs _ _ _ Ho) by done. Qed.

Lemma freeproc_spec h K s A i pages : kmem_lock ∉ h -> pmem K s A -> A !! i = Some pages ->
  wp (freeproc kend i) (KSt h s) (fun _ k => held k = h /\ others i s (st k) /\ nextpid (st k) = nextpid s /\
    getp (st k) i = reset (getp s i) /\ pmem K (st k) (delete i A) /\ stays pool (users s (delete i A) ++ K) (km s) (km (st k))).
Proof using kend_kern pool_nodup pool_pages tramp_ok.
  intros Hh [R [H1 H2 H3 H4 H5]] Hi. destruct (H2 i pages Hi) as (Hpt & Htf & Hsp & HR). set (x := getp s i) in *.
  set (U := users s (delete i A) ++ K). assert (users s A ++ K ≡ₚ p_trapframe x :: pages.*1 ++ U) as HU.
  { rewrite (users_delete s A i pages Hi). unfold U. cbn. by rewrite <- app_assoc. }
  unfold freeproc. wstep. wstep. fold x. wstep. destruct (Z.eqb_spec (p_trapframe x) 0); [done|]. apply wp_onkm.
  eapply wp_mono; [apply (kfree_pool kend pool kend_kern pool_nodup pool_pages h (km s) R (pages.*1 ++ U) (p_trapframe x) Hh); by eapply mem_ok_perm|].
  intros _ [h' m1] (Eh & Hs1 & Hm1). cbn [held st] in *. subst h'. unfold updp. wstep. wstep. wstep.
  destruct (Z.eqb_spec (p_pagetable x) 0); [done|]. apply wp_onkm. cbn [km upd_proc with_procs with_km].
  eapply wp_mono; [eapply (proc_freepagetable_pool kend trampoline pool kend_kern pool_nodup pool_pages tramp_ok h m1 R _ U); [done|exact Hm1|exact HR|exact Hsp|done]|].
  intros _ [h' m2] (Eh & Hs2 & Hm2). cbn [held st] in *. subst h'. wstep.
  set (s' := upd_proc i _ _). assert (others i s s') as Ho.
  { unfold s'. eapply others_trans; [|apply others_upd]. eapply others_trans; [|apply others_km]. eapply others_trans; [|apply others_upd]. apply others_km. }
  assert (getp s' i = reset x) as Ex by (unfold s'; rewrite getp_upd_eq, getp_km, getp_upd_eq, getp_km; done).
  assert (forall j, is_Some (delete i A !! j) -> j <> i /\ is_Some (A !! j) /\ getp s' j = getp s j) as Hj.
  { intros j [y [Hne Hj]%lookup_delete_Some]. split_and!; [done|by eexists|by apply Ho]. }
  split_and!; [done|exact Ho|done|exact Ex| |].
  - exists (delete (p_pagetable x) R). split.
    + rewrite (users_drop s s') by done. exact Hm2.
    + intros j pages' Hj'. destruct (Hj j) as (Hne & HAj & ->); [eauto|]. apply lookup_delete_Some in Hj' as [_ Hj']. destruct (H2 j pages' Hj') as (G1 & G2 & G3 & G4).
      split_and!; try done; [apply G3..|]. rewrite lookup_delete_ne; [done|]. intros E. apply Hne. symmetry. by apply H3; [eexists..|].
    + intros j j' Hjj Hjj'. destruct (Hj j Hjj) as (_ & ? & ->), (Hj j' Hjj') as (_ & ? & ->). by apply H3.
    + intros r [f [Hne Hr]%lookup_delete_Some]. destruct (H4 r) as [?|(j & HAj & ->)]; [by eexists|by left|right]. exists j.
      assert (j <> i) by (intros ->; done). split; [rewrite lookup_delete_ne; done|]. by rewrite (ot_procs _ _ _ Ho).
    + intros r f Hr. destruct (H5 r f Hr) as [HRr Hn]. split.
      * rewrite lookup_delete_ne; [done|]. intros E. by apply (Hn i); [eexists|].
      * intros j Hjj. destruct (Hj j Hjj) as (_ & HAj & ->). by apply Hn.
  - unfold s'. cbn. eapply stays_trans; [|exact Hs2]. eapply stays_sub; [|exact Hs1]. intros p _ Hp. fold U in Hp. set_solver.
Qed.

(** A slot that has a trap frame but no page table yet. *)
Lemma freeproc_partial_spec h K s A i : kmem_lock ∉ h -> pmem (p_trapframe (getp s i) :: K) s A -> A !! i = None ->
  p_trapframe (getp s i) <> 0 -> p_pagetable (getp s i) = 0 ->
  wp (freeproc kend i) (KSt h s) (fun _ k => held k = h /\ others i s (st k) /\ nextpid (st k) = nextpid s /\
    getp (st k) i = reset (getp s i) /\ pmem K (st k) A /\ stays pool (users s A ++ K) (km s) (km (st k))).
Proof using kend_kern pool_nodup pool_pages tramp_ok.
  intros Hh Hp Hi Htf Hpt. unfold freeproc. wstep. wstep. wstep. destruct (Z.eqb_spec (p_trapframe (getp s i)) 0); [done|].
  eapply wp_mono; [by apply (pmem_kfree h K s A)|]. intros _ [h' s1] (Eh & m & Es & Hs & Hp1). cbn [held st] in *. subst h' s1.
  unfold updp. wstep. wstep. rewrite Hpt. rewrite Z.eqb_refl. wstep. wstep. wstep. split_and!; [done| |done| | |done].
  - eapply others_trans; [|apply others_upd]. eapply others_trans; [|apply others_upd]. apply others_km.
  - by rewrite !getp_upd_eq, getp_km.
  - apply pmem_upd; [intros [? ?]; congruence|]. apply pmem_upd; [intros [? ?]; congruence|]. done.
Qed.

(** ** allocproc *)

(** Exactly the used slots have an address space. *)
Record slots s A : Prop := {
  sl_free : forall i, A !! i = None -> p_state (getp s i) = UNUSED /\ p_pagetable (getp s i) = 0 /\ p_trapframe (getp s i) = 0 /\ p_sz (getp s i) = 0;
  sl_used : forall i, is_Some (A !! i) -> 0 <= i < NPROC /\ p_state (getp s i) <> UNUSED;
}.

Lemma proc_lock_inj p q : proc_lock p = proc_lock q -> p = q.
Proof. by intros [=]. Qed.
Lemma find_unused_spec s l : wp (find_unused l) (KSt [] s) (fun o k => st k = s /\
  match o with
  | None => held k = []
  | Some p => held k = [proc_lock p] /\ p ∈ l /\ p_state (getp s p) = UNUSED
  end).
Proof using.
  clear kend_kern pool_nodup pool_pages tramp_ok.
  induction l as [|p l IH]; cbn [find_unused]; [by wstep|]. wstep. wstep. wstep. wstep. case_bool_decide.
  - wstep. split_and!; try done. apply elem_of_cons. by left.
  - wstep. wstep. eapply wp_mono; [exact IH|]. intros [q|] k [-> Hq]; split; try done. destruct Hq as (? & ? & ?). split_and!; try done. apply elem_of_cons. by right.
Qed.

Lemma space_ok_0 : space_ok 0 [].
Proof. split; [done|done|constructor]. Qed.

(** A fresh address space in slot [i]. *)
Lemma pmem_new K s A R s' i pt : pmem_at (p_trapframe (getp s i) :: K) s A R -> A !! i = None -> p_trapframe (getp s i) <> 0 -> p_sz (getp s i) = 0 ->
  pt <> 0 -> R !! pt = None -> mem_ok kend pool (km s') (<[pt := user_space trampoline (p_trapframe (getp s i)) []]> R) (users s A ++ p_trapframe (getp s i) :: K) ->
  (forall j, j <> i -> getp s' j = getp s j) -> p_pagetable (getp s' i) = pt -> p_trapframe (getp s' i) = p_trapframe (getp s i) -> p_sz (getp s' i) = 0 ->
  pmem K s' (<[i := []]> A).
Proof.
  intros [H1 H2 H3 H4 H5] Hi Htf Hsz Hpt HRpt Hm Ho E1 E2 E3. exists (<[pt := user_space trampoline (p_trapframe (getp s i)) []]> R).
  assert (forall j, is_Some (A !! j) -> j <> i /\ getp s' j = getp s j) as Hj.
  { intros j [y Hy]. assert (j <> i) by congruence. split; [done|]. by apply Ho. }
  assert (forall j, is_Some (A !! j) -> p_pagetable (getp s j) <> pt) as Hnpt.
  { intros j [y Hy] E. destruct (H2 j y Hy) as (_ & _ & _ & HR). rewrite E in HR. congruence. }
  split.
  - rewrite users_insert by done. rewrite E2, (users_ext s s') by (intros j Hjj; by destruct (Hj j Hjj) as [_ ->]).
    eapply mem_ok_perm; [|exact Hm]. cbn. by rewrite <- Permutation_middle.
  - intros j pages Hjp. destruct (decide (i = j)) as [<-|Hne].
    + rewrite lookup_insert_eq in Hjp. injection Hjp as <-. rewrite E1, E2, E3, lookup_insert_eq. split_and!; done || apply space_ok_0.
    + rewrite lookup_insert_ne in Hjp by done. rewrite Ho by done. destruct (H2 j pages Hjp) as (G1 & G2 & G3 & G4).
      split_and!; try done; [apply G3..|]. rewrite lookup_insert_ne; [done|]. intros E. eapply Hnpt; [by eexists|]. by rewrite <- E.
  - intros j j' Hjj Hjj'. rewrite lookup_insert_is_Some in Hjj, Hjj'. destruct Hjj as [<-|[Hne Hjj]], Hjj' as [<-|[Hne' Hjj']]; [done|..].
    + rewrite E1, (Ho j') by done. intros E. by destruct (Hnpt j' Hjj').
    + rewrite E1, (Ho j) by done. intros E. by destruct (Hnpt j Hjj).
    + rewrite !Ho by done. by apply H3.
  - intros r Hr. rewrite lookup_insert_is_Some in Hr. destruct Hr as [<-|[_ Hr]].
    + right. exists i. rewrite lookup_insert_eq. split; [eauto|done].
    + destruct (H4 r Hr) as [?|(j & HAj & ->)]; [by left|right]. exists j. destruct (Hj j HAj) as [Hne ->]. by rewrite lookup_insert_ne.
  - intros r f Hr. destruct (H5 r f Hr) as [HRr Hn]. split; [rewrite lookup_insert_ne; [done|congruence]|].
    intros j Hjj. rewrite lookup_insert_is_Some in Hjj. destruct Hjj as [<-|[Hne Hjj]]; [rewrite E1; congruence|]. rewrite Ho by done. by apply Hn.
Qed.
End ProcInv.
