(* ===== verification/ProcOps.v ===== *)
(** * allocproc, growproc, fork and wait *)
From S2P Require Import Prelude Mem Riscv Kalloc Vm VmTree VmSpec VmAlloc VmFree VmPool Proc ProcMem ProcInv.

(** What fork, exit and wait need of the file layer: [files_ok t F] says that [t] has counted
    every reference in the descriptor tables and current directories [F] of the processes, and
    [files_txn] the same inside a transaction. *)
Abbreviation ftables := (Z -> gmap Z Z * option Z).
Definition set_fd (F : ftables) (p fd : Z) (o : option Z) : ftables := fupd F p (partial_alter (fun _ => o) fd (F p).1, (F p).2).
Definition set_dir (F : ftables) (p : Z) (o : option Z) : ftables := fupd F p ((F p).1, o).
Class ProcFilesLaws (T : Type) `{!ProcFiles T} := {
  files_ok : T -> ftables -> Prop;
  files_txn : T -> ftables -> Prop;
  law_files_ext t F F' : (forall p, F p = F' p) -> files_ok t F -> files_ok t F';
  law_filedup t F p q fd f i : files_ok t F -> 0 <= q < NPROC -> 0 <= fd < NOFILE -> (F p).1 !! fd = Some f -> (F q).1 !! fd = None ->
    wp (pf_filedup f) (KSt [proc_lock i] t) (fun r k => r = f /\ held k = [proc_lock i] /\ files_ok (st k) (set_fd F q fd (Some f)));
  law_idup t F p q c i : files_ok t F -> 0 <= q < NPROC -> (F p).2 = Some c -> (F q).2 = None ->
    wp (pf_idup c) (KSt [proc_lock i] t) (fun r k => r = c /\ held k = [proc_lock i] /\ files_ok (st k) (set_dir F q (Some c)));
  law_namei t F q i : files_ok t F -> 0 <= q < NPROC -> (F q).2 = None ->
    wp (pf_namei [47]) (KSt [proc_lock i] t) (fun r k => exists c, r = Some c /\ held k = [proc_lock i] /\ files_ok (st k) (set_dir F q (Some c)));
  law_fileclose t F p fd f : files_ok t F -> 0 <= p < NPROC -> 0 <= fd < NOFILE -> (F p).1 !! fd = Some f ->
    wp (pf_fileclose f) (KSt [] t) (fun _ k => held k = [] /\ files_ok (st k) (set_fd F p fd None));
  law_begin t F : files_ok t F -> wp pf_begin_op (KSt [] t) (fun _ k => held k = [] /\ files_txn (st k) F);
  law_iput t F p c : files_txn t F -> 0 <= p < NPROC -> (F p).2 = Some c ->
    wp (pf_iput c) (KSt [] t) (fun _ k => held k = [] /\ files_txn (st k) (set_dir F p None));
  law_end t F : files_txn t F -> wp pf_end_op (KSt [] t) (fun _ k => held k = [] /\ files_ok (st k) F);
}.

Section ProcOps.
Context {T : Type} `{!ProcFiles T}.
Variables (kend trampoline forkret_at : Z) (pool : list Z) (R0 : spaces).
Hypothesis kend_kern : KERNBASE <= kend.
Hypothesis pool_nodup : NoDup pool.
Hypothesis pool_pages : Forall (page kend) pool.
Hypothesis tramp_ok : trampoline mod 4096 = 0 /\ 0 <= trampoline /\ trampoline + 4096 <= 2 ^ 56.

Abbreviation kern := (@kern T).
Abbreviation pmem := (pmem kend trampoline pool R0).
Implicit Types (s : kern) (A : aspaces) (R : spaces) (K : list Z) (i : Z).

(** allocproc found no slot or no memory: at most an unused slot has a new pid. *)
Record no_proc s s' : Prop := {
  np_slot : exists i, others i s s' /\ (getp s' i = getp s i \/
    (p_state (getp s i) = UNUSED /\ p_state (getp s' i) = UNUSED /\ p_pagetable (getp s' i) = 0 /\ p_trapframe (getp s' i) = 0 /\ p_sz (getp s' i) = 0 /\
     p_ofile (getp s' i) = p_ofile (getp s i) /\ p_cwd (getp s' i) = p_cwd (getp s i) /\
     (p_parent (getp s' i) = p_parent (getp s i) \/ p_parent (getp s' i) = None)));
  np_pid : nextpid s' = nextpid s \/ nextpid s' = i32 (nextpid s + 1);
}.
(** allocproc made a process in slot [i]. *)
Record new_proc s s' i : Prop := {
  nw_others : others i s s';
  nw_range : 0 <= i < NPROC;
  nw_unused : p_state (getp s i) = UNUSED;
  nw_pid : nextpid s' = i32 (nextpid s + 1);
  nw_proc : getp s' i = set_context (Context forkret_at (p_kstack (getp s i) + PGSIZE))
    (set_pagetable (p_pagetable (getp s' i)) (set_trapframe (p_trapframe (getp s' i)) (set_pid (nextpid s) (getp s i))));
}.

Lemma allocproc_spec K s A : pmem K s A -> slots s A ->
  wp (allocproc kend trampoline forkret_at) (KSt [] s) (fun o k => stays pool (users s A ++ K) (km s) (km (st k)) /\
    match o with
    | None => held k = [] /\ no_proc s (st k) /\ pmem K (st k) A
    | Some i => held k = [proc_lock i] /\ A !! i = None /\ new_proc s (st k) i /\ pmem K (st k) (<[i := []]> A)
    end).
Proof using kend_kern pool_nodup pool_pages tramp_ok.
  intros Hp Hsl. unfold allocproc. wstep. eapply wp_mono; [apply find_unused_spec|]. intros [i|] [h' s0] [E Hh]; cbn [held st] in *; subst s0; cycle 1.
  { subst h'. wstep. split_and!; [done|done| |done]. split; [exists 0; split; [apply others_refl|by left]|by left]. }
  destruct Hh as (-> & Hi%elem_of_seqZ & Hun). assert (A !! i = None) as HA.
  { apply eq_None_not_Some. intros Hs. by destruct (sl_used _ _ Hsl i Hs). }
  destruct (sl_free _ _ Hsl i HA) as (_ & Hpt0 & Htf0 & Hsz0).
  unfold allocpid. wstep. wstep. wstep. wstep. wstep. wstep. wstep. wstep. wstep. wstep. unfold updp. wstep. wstep.
  set (s1 := upd_proc i (set_pid (nextpid s)) (with_nextpid (i32 (nextpid s + 1)) s)).
  assert (others i s s1) as Ho1 by (eapply others_trans; [|apply others_upd]; by split).
  assert (getp s1 i = set_pid (nextpid s) (getp s i)) as E1 by (unfold s1; by rewrite getp_upd_eq).
  assert (pmem K s1 A) as Hp1 by (apply pmem_upd; [intros [? ?]; congruence|]; by apply (pmem_same kend trampoline pool R0 K s)).
  wstep. eapply wp_mono; [apply (pmem_kalloc kend trampoline pool R0 kend_kern pool_nodup pool_pages [proc_lock i] K s1 A); [set_solver|done]|].
  intros tf [h' s2] (Eh & m & Es & Hs & Hc). cbn [held st] in *. subst h' s2. rewrite (users_ext s s1) in Hs by (intros j [y Hj]; rewrite (ot_procs _ _ _ Ho1) by congruence; done).
  unfold updp. wstep. wstep. set (s2 := upd_proc i (set_trapframe tf) (with_km m s1)).
  assert (others i s s2) as Ho2 by (eapply others_trans; [exact Ho1|]; eapply others_trans; [apply others_km|apply others_upd]).
  assert (getp s2 i = set_trapframe tf (set_pid (nextpid s) (getp s i))) as E2 by (unfold s2; by rewrite getp_upd_eq, getp_km, E1).
  destruct Hc as [[-> Hp2]|(Htf & Htfp & Hp2)].
  - rewrite Z.eqb_refl. wstep. wstep. wstep. split; [done|]. split_and!; [done| |].
    + split; [exists i; split; [exact Ho2|right]|by right]. rewrite E2. split_and!; try done. by left.
    + apply pmem_upd; [intros [? ?]; congruence|done].
  - destruct (Z.eqb_spec tf 0); [done|]. wstep. apply wp_onkm.
    assert (pmem (tf :: K) s2 A) as Hp2' by (apply pmem_upd; [intros [? ?]; congruence|done]). destruct Hp2' as [R Hp2'].
    assert (users s2 A = users s A) as Eu by (apply users_ext; intros j [y Hj]; rewrite (ot_procs _ _ _ Ho2) by congruence; done).
    eapply wp_mono; [apply (proc_pagetable_pool kend trampoline pool kend_kern pool_nodup pool_pages tramp_ok [proc_lock i] (km s2) R (users s2 A ++ tf :: K) tf);
      [set_solver|apply (pm_mem _ _ _ _ _ _ _ _ Hp2')|done]|].
    intros pt [h' m3] (Eh & Hs3 & Hc). cbn [held st] in *. subst h'. unfold updp. wstep. wstep. set (s3 := upd_proc i (set_pagetable pt) (with_km m3 s2)).
    assert (others i s s3) as Ho3 by (eapply others_trans; [exact Ho2|]; eapply others_trans; [apply others_km|apply others_upd]).
    assert (getp s3 i = set_pagetable pt (set_trapframe tf (set_pid (nextpid s) (getp s i)))) as E3 by (unfold s3; by rewrite getp_upd_eq, getp_km, E2).
    assert (stays pool (users s A ++ K) (km s) m3) as Hstays.
    { eapply stays_trans; [exact Hs|]. rewrite Eu in Hs3. eapply stays_sub; [|exact Hs3]. set_solver. }
    assert (pmem_at kend trampoline pool R0 (tf :: K) (with_km m3 s2) A R \/ pt <> 0) as Hpm.
    { destruct Hc as [[_ Hm]|[? _]]; [left|by right]. eapply (pmem_at_ext _ _ _ _ _ s2); [done|exact Hm|done]. }
    destruct Hc as [[-> Hm3]|(Hpt & HR & Hm3)].
    + rewrite Z.eqb_refl. wstep. destruct Hpm as [Hpm|]; [|done].
      eapply wp_mono; [apply (freeproc_partial_spec kend trampoline pool R0 kend_kern pool_nodup pool_pages tramp_ok [proc_lock i] K s3 A i)|].
      * set_solver.
      * rewrite E3. cbn [p_trapframe set_pagetable set_trapframe]. apply pmem_upd; [intros [? ?]; congruence|]. by exists R.
      * done.
      * by rewrite E3.
      * by rewrite E3.
      * intros _ [h' s4] (Eh & Ho4 & En & E4 & Hp4 & Hs4). cbn [held st] in *. subst h'. wstep. wstep. wstep.
        split; [|split_and!; [done| |done]].
        -- eapply stays_trans; [exact Hstays|]. rewrite (users_ext s s3) in Hs4; [exact Hs4|]. intros j [y Hj]. rewrite (ot_procs _ _ _ Ho3) by congruence. done.
        -- split; [exists i; split; [by eapply others_trans|right]|right; rewrite En; done]. rewrite E4, E3. split_and!; try done. by right.
    + destruct (Z.eqb_spec pt 0); [done|]. wstep. wstep. wstep. split; [done|]. set (s4 := upd_proc i _ s3).
      assert (others i s s4) as Ho4 by (eapply others_trans; [exact Ho3|apply others_upd]).
      assert (getp s4 i = set_context (Context forkret_at (p_kstack (getp s i) + PGSIZE)) (getp s3 i)) as E4 by (unfold s4; rewrite getp_upd_eq, E3; done).
      split_and!; [done|done| |].
      * split; [done|lia|done|done|]. rewrite E4, E3. done.
      * eapply (pmem_new kend trampoline pool R0 K s2 A R s4 i pt); rewrite ?E2; cbn [p_trapframe p_sz set_trapframe set_pid]; try done.
        -- intros j Hj. by rewrite (ot_procs _ _ _ Ho4), (ot_procs _ _ _ Ho2).
        -- by rewrite E4, E3.
        -- by rewrite E4, E3.
        -- by rewrite E4, E3.
Qed.
End ProcOps.
