(* ===== verification/ProcFork.v ===== *)
(** * growproc and fork *)
From S2P Require Import Prelude Mem Riscv Kalloc Vm VmTree VmSpec VmAlloc VmFree VmPool Proc ProcMem ProcInv ProcOps.

Section Resize.
Context {T : Type} `{!ProcFiles T}.
Variables (kend trampoline : Z) (pool : list Z) (R0 : spaces).
Hypothesis kend_kern : KERNBASE <= kend.
Hypothesis pool_nodup : NoDup pool.
Hypothesis pool_pages : Forall (page kend) pool.
Hypothesis tramp_ok : trampoline mod 4096 = 0 /\ 0 <= trampoline /\ trampoline + 4096 <= 2 ^ 56.

Abbreviation kern := (@kern T).
Abbreviation pmem := (pmem kend trampoline pool R0).
Abbreviation pmem_at := (pmem_at kend trampoline pool R0).
Abbreviation mem_ok := (mem_ok kend pool).
Implicit Types (s : kern) (A : aspaces) (R : spaces) (K : list Z) (i : Z).

(** The pages of slot [i] change from [pages] to [pages']. *)
Lemma pmem_set K s A R i pages pages' s' : pmem_at K s A R -> A !! i = Some pages ->
  (forall j, j <> i -> getp s' j = getp s j) -> p_pagetable (getp s' i) = p_pagetable (getp s i) -> p_trapframe (getp s' i) = p_trapframe (getp s i) ->
  space_ok (p_sz (getp s' i)) pages' ->
  mem_ok (km s') (<[p_pagetable (getp s i) := user_space trampoline (p_trapframe (getp s i)) pages']> R)
    (p_trapframe (getp s i) :: pages'.*1 ++ users s (delete i A) ++ K) ->
  pmem K s' (<[i := pages']> A).
Proof.
  intros [H1 H2 H3 H4 H5] Hi Ho E1 E2 Hsp Hm. eexists. assert (forall j, is_Some (<[i := pages']> A !! j) <-> is_Some (A !! j)) as Hd.
  { intros j. rewrite lookup_insert_is_Some. split; [intros [<-|[_ ?]]; eauto|]. intros ?. destruct (decide (i = j)); auto. }
  assert (forall j, p_pagetable (getp s' j) = p_pagetable (getp s j)) as Ept by (intros j; destruct (decide (j = i)) as [->|]; [done|by rewrite Ho]).
  split; [|..| |].
  - rewrite (users_delete s' _ i pages') by apply lookup_insert_eq. rewrite delete_insert_eq, E2.
    rewrite (users_ext s s') by (intros j [y [? _]%lookup_delete_Some]; by rewrite Ho). cbn. rewrite <- app_assoc. exact Hm.
  - intros j pg Hj. rewrite Ept. destruct (decide (i = j)) as [<-|Hne].
    + rewrite lookup_insert_eq in Hj. injection Hj as <-. destruct (H2 i pages Hi) as (G1 & G2 & G3 & G4). rewrite E2, lookup_insert_eq. split_and!; try done; apply Hsp.
    + rewrite lookup_insert_ne in Hj by done. destruct (H2 j pg Hj) as (G1 & G2 & G3 & G4). rewrite Ho by done. split_and!; try done; [apply G3..|].
      rewrite lookup_insert_ne; [done|]. intros E. apply Hne. apply H3; [by eexists..|done].
  - intros j j'. rewrite !Hd, !Ept. apply H3.
  - intros r Hr. assert (is_Some (R !! r)) as Hr'.
    { apply lookup_insert_is_Some in Hr as [<-|[_ ?]]; [|done]. destruct (H2 i pages Hi) as (_ & _ & _ & ->). eauto. }
    destruct (H4 r Hr') as [?|(j & Hj & ->)]; [by left|right]. exists j. by rewrite Hd, Ept.
  - intros r f Hr. destruct (H5 r f Hr) as [HR Hn]. split.
    + rewrite lookup_insert_ne; [done|]. intros E. by apply (Hn i); [eexists|].
    + intros j. rewrite Hd, Ept. apply Hn.
Qed.

Lemma pmem_delete K s A R i pages : pmem_at K s A R -> A !! i = Some pages -> mem_ok (km s) R (p_trapframe (getp s i) :: pages.*1 ++ users s (delete i A) ++ K).
Proof. intros [H1 _ _ _ _] Hi. rewrite (users_delete s A i pages Hi) in H1. cbn in H1. by rewrite <- app_assoc in H1. Qed.

(** A process is no larger than physical memory. *)
Lemma pool_length : Z.of_nat (length pool) <= 32768.
Proof.
  assert (pool ⊆+ (fun i => KERNBASE + 4096 * i) <$> seqZ 0 32768) as Hs.
  { apply NoDup_submseteq; [done|]. intros p Hp. rewrite Forall_forall in pool_pages. destruct (pool_pages p Hp) as [H1 H2].
    apply list_elem_of_fmap. exists ((p - KERNBASE) / 4096). unfold PHYSTOP, KERNBASE in *. rewrite elem_of_seqZ. dlia. }
  apply submseteq_length in Hs. rewrite length_fmap, length_seqZ in Hs. lia.
Qed.
Lemma pmem_sz K s A i pages : pmem K s A -> A !! i = Some pages -> 0 <= p_sz (getp s i) <= 2 ^ 27.
Proof.
  intros [R Hp] Hi. destruct (pm_space _ _ _ _ _ _ _ _ Hp i pages Hi) as (_ & _ & [H1 H2 _] & _). split; [lia|].
  assert (length pages <= length pool)%nat.
  { destruct (pm_mem _ _ _ _ _ _ _ _ Hp) as (l & own & Hm). rewrite <- (Permutation_length (ma_pool _ _ _ _ _ _ _ Hm)).
    rewrite !length_app, (Permutation_length (users_delete s A i pages Hi)). cbn. rewrite length_app, length_fmap. lia. }
  pose proof pool_length. unfold npages in H2. dlia.
Qed.

Lemma uflags_U : uflags UFLAGS.
Proof. done. Qed.
Lemma space_ext tf pages ps fl : Z.of_nat (length pages + length ps) <= VTF ->
  same_space (ext (user_space trampoline tf pages) (Z.of_nat (length pages)) ps fl) (user_space trampoline tf (pages ++ imap (fun j p => (p, fl j)) ps)).
Proof.
  intros Hl v Hv. destruct space_consts as (C1 & C2 & _). unfold ext, user_space.
  destruct (Z.leb_spec (Z.of_nat (length pages)) v) as [Hle|Hlt].
  - rewrite lookup_app_r, list_lookup_imap by lia. replace (Z.to_nat v - length pages)%nat with (Z.to_nat (v - Z.of_nat (length pages))) by lia.
    destruct (ps !! Z.to_nat (v - Z.of_nat (length pages))) as [p|] eqn:E; cbn.
    + apply lookup_lt_Some in E. zbool; lia || done.
    + rewrite lookup_ge_None_2 by lia. done.
  - rewrite lookup_app_l by lia. done.
Qed.
Lemma space_cut tf pages n : Z.of_nat (length pages) <= VTF -> (n <= length pages)%nat ->
  same_space (cut (user_space trampoline tf pages) (Z.of_nat n) (Z.of_nat (length pages) - Z.of_nat n)) (user_space trampoline tf (take n pages)).
Proof.
  intros Hl Hn v Hv. destruct space_consts as (C1 & C2 & _). unfold cut, user_space.
  destruct (Z.leb_spec (Z.of_nat n) v); cbn [andb].
  - rewrite lookup_take_ge by lia. destruct (Z.ltb_spec v (Z.of_nat n + (Z.of_nat (length pages) - Z.of_nat n))); [zbool; lia || done|].
    rewrite lookup_ge_None_2 by lia. done.
  - rewrite lookup_take_lt by lia. done.
Qed.
Lemma imap_fst {B C} (f : nat -> B -> C) (l : list B) : (imap (fun j p => (p, f j p)) l).*1 = l.
Proof. revert f. induction l as [|x l IH]; intros f; [done|]. cbn. f_equal. apply (IH (fun j => f (S j))). Qed.
Lemma npages_0 : npages 0 = 0.
Proof. done. Qed.

(** ** growproc *)

(** sbrk: the process grows by zeroed pages, or shrinks, or nothing changes. *)
Lemma growproc_grow K s A p pages n : pmem K s A -> cur s = Some p -> A !! p = Some pages -> 0 < n < 2 ^ 31 ->
  wp (growproc kend n) (KSt [] s) (fun r k => held k = [] /\ others p s (st k) /\ nextpid (st k) = nextpid s /\ stays pool (users s A ++ K) (km s) (km (st k)) /\
    ((r = -1 /\ getp (st k) p = getp s p /\ pmem K (st k) A) \/
     (r = 0 /\ getp (st k) p = set_sz (p_sz (getp s p) + n) (getp s p) /\ exists ps,
        pmem K (st k) (<[p := pages ++ imap (fun _ q => (q, UFLAGS)) ps]> A) /\ forall q o, q ∈ ps -> 0 <= o < 4096 -> rd (ram (km (st k))) (q + o) = 0))).
Proof using kend_kern pool_nodup pool_pages tramp_ok.
  intros [R Hp] Hc HA Hn. pose proof (pmem_sz K s A p pages (ex_intro _ R Hp) HA) as Hw. destruct space_consts as (C1 & C2 & C3 & C4 & C5).
  destruct (pm_space _ _ _ _ _ _ _ _ Hp p pages HA) as (Hpt & Htf & Hsp & HR). pose proof (sp_sz _ _ Hsp) as Hsz. pose proof (sp_len _ _ Hsp) as Hlen. pose proof (space_ok_len _ _ Hsp) as Hlv.
  unfold growproc, myproc. wstep. wstep. wstep. rewrite Hc. cbn [nonnull]. wstep. wstep. wstep.
  rewrite (u32_small (p_sz (getp s p))) by lia. destruct (Z.ltb_spec 0 n); [|lia]. wstep. rewrite u32_small by lia. apply wp_onkm.
  eapply wp_mono; [eapply (uvmalloc_pool kend pool kend_kern pool_nodup pool_pages [] (km s) R (users s A ++ K)); [set_solver|apply Hp|exact HR|lia|lia|]|].
  { intros v Hv. unfold user_space. fold VTRAMP. unfold npages in *. rewrite lookup_ge_None_2 by dlia. zbool; try done; exfalso; dlia. }
  intros r [h' m] (Eh & Hs & Hcase). cbn [held st] in *. subst h'. destruct Hcase as [[-> Hm]|(-> & ps & Hps & Hm & Hz)].
  - change (u32 0 =? 0) with true. cbv iota. wstep. split_and!; [done|apply others_km|done|done|]. left. split_and!; try done.
    exists R. by eapply (pmem_at_ext _ _ _ _ K s).
  - rewrite u32_small by lia. destruct (Z.eqb_spec (p_sz (getp s p) + n) 0); [lia|]. unfold updp. wstep. wstep. wstep.
    set (s' := upd_proc p _ _). assert (others p s s') as Ho by (eapply others_trans; [apply others_km|apply others_upd]).
    assert (getp s' p = set_sz (p_sz (getp s p) + n) (getp s p)) as E by (unfold s'; by rewrite getp_upd_eq).
    split_and!; [done|done|done|done|]. right. split_and!; [done|done|]. exists ps. split; [|done].
    assert (Z.of_nat (length pages + length ps) = npages (p_sz (getp s p) + n)) as Hl by lia.
    assert (Z.of_nat (length pages + length ps) <= VTF) as Hl2 by (rewrite Hl; unfold npages; dlia).
    eapply (pmem_set K s A R p pages); [done|done|apply Ho|by rewrite E|by rewrite E|..].
    + rewrite E. split; cbn [p_sz set_sz]; [lia|rewrite length_app, length_imap; lia|]. apply Forall_app. split; [apply Hsp|].
      apply Forall_forall. intros [q f] Hin. apply list_elem_of_lookup in Hin as [j Hj]. rewrite list_lookup_imap in Hj. destruct (ps !! j); [|done]. injection Hj as <- <-. apply uflags_U.
    + rewrite fmap_app, (imap_fst (fun _ _ => UFLAGS)). eapply mem_ok_ext; [apply (space_ext _ pages ps (fun _ => UFLAGS) Hl2)|]. rewrite Hlen in Hm.
      eapply mem_ok_perm; [|exact Hm]. rewrite (users_delete s A p pages HA). cbn. rewrite <- Permutation_middle, <- !app_assoc. f_equiv.
      rewrite !app_assoc. do 2 f_equiv. apply Permutation_app_comm.
Qed.

Lemma take_pages s A R K p pages n : pmem_at K s A R -> A !! p = Some pages -> (n <= length pages)%nat ->
  pages_at (user_space trampoline (p_trapframe (getp s p)) pages) (Z.of_nat n) (length pages - n) = (drop n pages).*1.
Proof using kend_kern pool_nodup pool_pages tramp_ok.
  intros Hp HA Hn. destruct (pm_space _ _ _ _ _ _ _ _ Hp p pages HA) as (_ & _ & Hsp & _). pose proof (space_ok_len _ _ Hsp) as Hlv.
  destruct (pm_mem _ _ _ _ _ _ _ _ Hp) as (l & own & Hm).
  pose proof (pages_at_space trampoline (p_trapframe (getp s p)) pages Hlv (pages_fine kend pool kend_kern pool_nodup pool_pages _ _ _ _ _ _ Hm (sp_flags _ _ Hsp)
    ltac:(intros q Hq; rewrite (users_delete s A p pages HA); set_solver))) as E.
  rewrite fmap_drop, <- E. unfold pages_at. rewrite <- fmap_drop. apply list_eq. intros j. rewrite !list_lookup_fmap, lookup_drop.
  destruct (decide (j < length pages - n)%nat).
  - rewrite !lookup_seqZ_lt by lia. cbn. do 3 f_equal. lia.
  - rewrite !lookup_seqZ_ge by lia. done.
Qed.

Lemma growproc_shrink K s A p pages n (newsz := u32 (p_sz (getp s p) + n)) : pmem K s A -> cur s = Some p -> A !! p = Some pages -> - 2 ^ 31 <= n <= 0 ->
  wp (growproc kend n) (KSt [] s) (fun r k => held k = [] /\ others p s (st k) /\ nextpid (st k) = nextpid s /\ r = 0 /\
    getp (st k) p = set_sz (Z.min (p_sz (getp s p)) newsz) (getp s p) /\
    pmem K (st k) (<[p := take (Z.to_nat (npages newsz)) pages]> A) /\
    stays pool ((p_trapframe (getp s p) :: (take (Z.to_nat (npages newsz)) pages).*1 ++ users s (delete p A)) ++ K) (km s) (km (st k))).
Proof using kend_kern pool_nodup pool_pages tramp_ok.
  intros Hpm Hc HA Hn. pose proof (pmem_sz K s A p pages Hpm HA) as Hw. destruct Hpm as [R Hp]. destruct space_consts as (C1 & C2 & C3 & C4 & C5).
  destruct (pm_space _ _ _ _ _ _ _ _ Hp p pages HA) as (Hpt & Htf & Hsp & HR). pose proof (sp_sz _ _ Hsp) as Hsz. pose proof (sp_len _ _ Hsp) as Hlen. pose proof (space_ok_len _ _ Hsp) as Hlv.
  set (sz := p_sz (getp s p)) in *. assert (0 <= newsz) as Hnew by (apply u32_range).
  assert (0 <= npages newsz) as Hnn by (unfold npages; dlia). set (pages' := take (Z.to_nat (npages newsz)) pages).
  assert (space_ok (Z.min sz newsz) pages') as Hsp'.
  { unfold pages'. split; [lia| |apply Forall_take, Hsp]. rewrite length_take. unfold npages in *. dlia. }
  unfold growproc, myproc. wstep. wstep. wstep. rewrite Hc. cbn [nonnull]. wstep. wstep. wstep. fold sz. rewrite (u32_small sz) by lia.
  destruct (Z.ltb_spec 0 n); [lia|]. fold newsz. destruct (Z.ltb_spec n 0) as [Hneg|].
  - wstep. apply wp_onkm. set (n' := Z.to_nat (Z.min (npages newsz) (npages sz))).
    assert (n' <= length pages)%nat as Hn' by lia.
    assert (pages' = take n' pages) as Ep.
    { unfold pages', n'. destruct (Z.min_spec (npages newsz) (npages sz)) as [[_ ->]|[Hle ->]]; [done|]. rewrite !take_ge by lia. done. }
    assert (users s A ++ K ≡ₚ (drop n' pages).*1 ++ (p_trapframe (getp s p) :: pages'.*1 ++ users s (delete p A)) ++ K) as HU.
    { rewrite (users_delete s A p pages HA), Ep. rewrite <- (take_drop n' pages) at 1. rewrite fmap_app. cbn. rewrite <- Permutation_middle. f_equiv.
      rewrite <- !app_assoc. rewrite (app_assoc (take n' pages).*1), (Permutation_app_comm (take n' pages).*1), <- app_assoc. done. }
    eapply wp_mono; [eapply (uvmdealloc_pool kend pool kend_kern pool_nodup pool_pages [] (km s) R _ ((p_trapframe (getp s p) :: pages'.*1 ++ users s (delete p A)) ++ K) _ _ sz newsz); [set_solver|apply Hp|exact HR|done|lia| |]|].
    + intros _ v Hv. destruct (lookup_lt_is_Some_2 pages (Z.to_nat v)) as [[q f] Hq]; [unfold npages in *; dlia|]. replace v with (Z.of_nat (Z.to_nat v)) by (unfold npages in *; dlia).
      rewrite (space_leaf trampoline _ pages _ q f Hlv Hq). apply leaf_uflags. pose proof (sp_flags _ _ Hsp) as Hf. eapply Forall_lookup_1 in Hf; [|exact Hq]. done.
    + rewrite HU. f_equiv. destruct (Z.le_gt_cases (npages newsz) (npages sz)) as [Hle|Hgt].
      * rewrite <- (take_pages s A R K p pages n' Hp HA Hn'). unfold n'. rewrite Z.min_l by done. replace (Z.of_nat (Z.to_nat (npages newsz))) with (npages newsz) by (unfold npages in *; dlia).
        replace (Z.to_nat (npages sz - npages newsz)) with (length pages - Z.to_nat (npages newsz))%nat by lia. done.
      * unfold n'. rewrite drop_ge by lia. replace (Z.to_nat (npages sz - npages newsz)) with 0%nat by lia. done.
    + intros r [h' m] (Eh & Hs & -> & Hm). cbn [held st] in *. subst h'. rewrite u32_small by lia. unfold updp. wstep. wstep. wstep.
      set (s' := upd_proc p _ _). assert (others p s s') as Ho by (eapply others_trans; [apply others_km|apply others_upd]).
      assert (getp s' p = set_sz (Z.min sz newsz) (getp s p)) as E by (unfold s'; by rewrite getp_upd_eq).
      split_and!; [done|done|done|done|done| |done].
      eapply (pmem_set K s A R p pages); [done|done|apply Ho|by rewrite E|by rewrite E|by rewrite E|].
      cbn in Hm. rewrite <- app_assoc in Hm. eapply mem_ok_ext; [|exact Hm]. intros v Hv. rewrite Ep. rewrite <- (space_cut _ pages n') by done. unfold cut, n'. rewrite Hlen. zbool; try done; exfalso; unfold npages in *; dlia.
  - assert (n = 0) as -> by lia. assert (newsz = sz) as Enew by (unfold newsz; fold sz; rewrite Z.add_0_r; apply u32_small; lia).
    assert (pages' = pages) as -> by (unfold pages'; rewrite Enew, Hlen, Nat2Z.id; by apply take_ge).
    unfold updp. wstep. wstep. wstep. split_and!; [done|apply others_upd|done|done| | |done].
    + rewrite getp_upd_eq, Enew, Z.min_id. done.
    + rewrite insert_id by done. apply pmem_upd; [done|by exists R].
Qed.
(** ** The memory of fork *)

Lemma pmem_write K s A q m' : pmem K s A -> q ∈ users s A ++ K -> only_page (ram (km s)) m' q -> pmem K (with_km (Kmem m' (freelist (km s))) s) A.
Proof using kend_kern pool_nodup pool_pages.
  intros [R Hp] Hq Ho. exists R. eapply (pmem_at_ext _ _ _ _ K s); [done| |exact Hp].
  by eapply (mem_ok_write_page kend pool kend_kern pool_nodup pool_pages); [apply Hp|exact Hq|].
Qed.
Lemma pmem_page K s A q : pmem K s A -> q ∈ users s A ++ K -> q ∈ pool /\ page kend q.
Proof using kend_kern pool_nodup pool_pages.
  intros [R Hp] Hq. destruct (pm_mem _ _ _ _ _ _ _ _ Hp) as (l & own & Hm).
  destruct (mem_disjoint kend pool kend_kern pool_nodup pool_pages _ _ _ _ _ q Hm Hq) as (H1 & H2 & _). done.
Qed.
Lemma pmem_nodup K s A : pmem K s A -> NoDup (users s A ++ K).
Proof using kend_kern pool_nodup pool_pages.
  intros [R Hp]. destruct (pm_mem _ _ _ _ _ _ _ _ Hp) as (l & own & Hm). by eapply (mem_nodup kend pool pool_nodup).
Qed.

(** Every page of the parent has a copy with the same flags and bytes. *)
Definition same_image (m m' : mem) (pages pages' : list (Z * Z)) : Prop :=
  pages'.*2 = pages.*2 /\ forall j x x' o, pages !! j = Some x -> pages' !! j = Some x' -> 0 <= o < 4096 -> rd m' (x'.1 + o) = rd m (x.1 + o).

Lemma uvmcopy_pmem h K s A p np pages : kmem_lock ∉ h -> pmem K s A -> p <> np -> A !! p = Some pages -> A !! np = Some [] ->
  wp (onkm (uvmcopy kend (p_pagetable (getp s p)) (p_pagetable (getp s np)) (p_sz (getp s p)))) (KSt h s) (fun r k => held k = h /\ exists m, st k = with_km m s /\
    stays pool (users s A ++ K) (km s) m /\
    ((r = -1 /\ pmem K (with_km m s) A) \/
     (r = 0 /\ exists pages', same_image (ram (km s)) (ram m) pages pages' /\ pmem K (upd_proc np (set_sz (p_sz (getp s p))) (with_km m s)) (<[np := pages']> A)))).
Proof using kend_kern pool_nodup pool_pages tramp_ok.
  intros Hh [R Hp] Hne HA HAn. destruct space_consts as (C1 & C2 & C3 & C4 & C5).
  destruct (pm_space _ _ _ _ _ _ _ _ Hp p pages HA) as (Hpt & Htf & Hsp & HR). destruct (pm_space _ _ _ _ _ _ _ _ Hp np [] HAn) as (Hptn & Htfn & Hspn & HRn).
  pose proof (sp_sz _ _ Hsp) as Hsz. pose proof (sp_len _ _ Hsp) as Hlen. pose proof (space_ok_len _ _ Hsp) as Hlv.
  assert (Forall (fun x => 0 <= x.1 < 2 ^ 56 /\ x.1 mod 4096 = 0 /\ uflags x.2) pages) as Hfine.
  { destruct (pm_mem _ _ _ _ _ _ _ _ Hp) as (l & own & Hm). eapply pages_fine; [done..|exact Hm|apply Hsp|]. intros q Hq. rewrite (users_delete s A p pages HA). set_solver. }
  assert (forall j q f, pages !! j = Some (q, f) -> let e := user_space trampoline (p_trapframe (getp s p)) pages (Z.of_nat j) in PTE2PA e = q /\ PTE_FLAGS e = f /\ is_leaf e) as Hpg.
  { intros j q f Hj. cbn zeta. rewrite (space_leaf _ _ _ _ q f Hlv Hj). eapply Forall_lookup_1 in Hfine as (F1 & F2 & F3); [|exact Hj]. cbn in *.
    split_and!; [apply PTE2PA_mkpte; try done; apply F3|apply PTE_FLAGS_mkpte, F3|by apply leaf_uflags]. }
  apply wp_onkm. eapply wp_mono; [eapply (uvmcopy_pool kend pool kend_kern pool_nodup pool_pages h (km s) R (users s A ++ K) _ _ _ _ _ (length pages)); [done|apply Hp|exact HR|exact HRn|..]|].
  - intros E. apply Hne. eapply (pm_inj _ _ _ _ _ _ _ _ Hp); eauto.
  - lia.
  - done.
  - intros j Hj. destruct (lookup_lt_is_Some_2 pages j Hj) as [[q f] Hq]. destruct (Hpg j q f Hq) as (-> & _ & Hl). split; [done|].
    rewrite (users_delete s A p pages HA). apply elem_of_app. left. right. apply elem_of_app. left. apply list_elem_of_fmap. exists (q, f). split; [done|]. by eapply list_elem_of_lookup_2.
  - intros v Hv. unfold user_space. rewrite lookup_nil. zbool; lia || done.
  - intros r [h' m] (Eh & Hs & Hc). cbn [held st] in *. split; [done|]. exists m. split_and!; [done|done|].
    destruct Hc as [[-> Hm]|(-> & ps & Hps & Hm & Hb)]; [left; split; [done|]; exists R; by eapply (pmem_at_ext _ _ _ _ K s)|right].
    split; [done|]. set (fl := fun j => PTE_FLAGS (user_space trampoline (p_trapframe (getp s p)) pages (Z.of_nat j))) in *.
    assert ((imap (fun j q => (q, fl j)) ps).*2 = pages.*2) as E2.
    { apply list_eq. intros j. rewrite !list_lookup_fmap, list_lookup_imap. destruct (pages !! j) as [[q f]|] eqn:Ej; cbn.
      - destruct (lookup_lt_is_Some_2 ps j) as [q' Hq']; [rewrite Hps; by eapply lookup_lt_Some|]. rewrite Hq'. cbn. f_equal. unfold fl. by destruct (Hpg j q f Ej) as (_ & -> & _).
      - rewrite (lookup_ge_None_2 ps) by (rewrite Hps; by apply lookup_ge_None_1). done. }
    exists (imap (fun j q => (q, fl j)) ps). split; [split; [done|]|].
    + intros j [q f] x' o Hj Hj' Ho. rewrite list_lookup_imap in Hj'. destruct (ps !! j) as [q'|] eqn:Ej'; [|done]. injection Hj' as <-. cbn [fst]. rewrite (Hb j q' o Ej' Ho). destruct (Hpg j q f Hj) as (-> & _). done.
    + eapply (pmem_set K s A R np []); [done|done|intros j Hj; by rewrite getp_upd_ne|by rewrite getp_upd_eq|by rewrite getp_upd_eq|..].
      * rewrite getp_upd_eq. split; cbn; [done|rewrite length_imap; lia|].
        apply Forall_forall. intros x Hx. assert (Forall uflags pages.*2) as Hf by (apply Forall_fmap; exact (sp_flags _ _ Hsp)).
        rewrite <- E2, Forall_forall in Hf. apply Hf. apply list_elem_of_fmap. by exists x.
      * rewrite (imap_fst (fun j _ => fl j)). eapply mem_ok_ext; [apply (space_ext (p_trapframe (getp s np)) [] ps fl)|].
        { cbn. lia. }
        eapply mem_ok_perm; [|exact Hm]. rewrite (users_delete s A np [] HAn). cbn. rewrite <- Permutation_middle. f_equiv.
Qed.
End Resize.
