(* ===== verification/ProcCopy.v ===== *)
(** * Copies to and from a process

    The copy functions of vm.c on the memory of processes: which physical byte a user address
    names, copyout as a change of pages of the process alone, and copyin and copyinstr. *)
From S2P Require Import Prelude Mem Riscv Kalloc Vm VmTree VmSpec VmCopy VmAlloc VmFree VmPool Proc ProcMem ProcInv ProcOps ProcFork.

(** The physical address of the user address [va] of a process with these pages. *)
Definition upa (pages : list (Z * Z)) (va : Z) : option Z :=
  if (0 <=? va) && (va <? MAXVA) then
    match pages !! Z.to_nat (va / 4096) with
    | Some (q, f) => if bits_set f PTE_U then Some (q + va mod 4096) else None
    | None => None
    end
  else None.
Lemma upa_Some pages va pa : upa pages va = Some pa -> exists q f, pages !! Z.to_nat (va / 4096) = Some (q, f) /\ pa = q + va mod 4096 /\ 0 <= va < MAXVA.
Proof.
  unfold upa. intros H. destruct (Z.leb_spec 0 va); [|done]. destruct (Z.ltb_spec va MAXVA); [|done]. cbn in H.
  destruct (pages !! Z.to_nat (va / 4096)) as [[q f]|]; [|done]. destruct (bits_set f PTE_U); [|done]. injection H as <-. by exists q, f.
Qed.

(** ** A page table and its pages *)

Section PoolCopy.
Variables (kend trampoline : Z) (pool : list Z).
Hypothesis kend_kern : KERNBASE <= kend.
Hypothesis pool_nodup : NoDup pool.
Hypothesis pool_pages : Forall (page kend) pool.
Abbreviation mem_ok := (mem_ok kend pool).
Implicit Types (s : kmem) (R : spaces) (U : list Z) (pages : list (Z * Z)).

(** [root] maps [pages] from address 0 on; they are among the pages in use. *)
Record maps s R U root tf pages : Prop := {
  mp_mem : mem_ok s R U;
  mp_root : R !! root = Some (user_space trampoline tf pages);
  mp_len : Z.of_nat (length pages) <= VTF;
  mp_flags : Forall (fun x => uflags x.2) pages;
  mp_in : forall q, q ∈ pages.*1 -> q ∈ U;
  mp_nodup : NoDup pages.*1;
}.

Lemma maps_fine s R U root tf pages : maps s R U root tf pages -> Forall (fun x => 0 <= x.1 < 2 ^ 56 /\ x.1 mod 4096 = 0 /\ uflags x.2) pages.
Proof using kend_kern pool_nodup pool_pages. intros [(l & own & Hm) _ _ Hf Hin _]. by eapply pages_fine. Qed.

Lemma uaddr_maps s R U root tf pages va : maps s R U root tf pages -> uaddr (ram s) root va = upa pages va.
Proof using kend_kern pool_nodup pool_pages.
  intros Hp. pose proof (maps_fine _ _ _ _ _ _ Hp) as Hfine. destruct Hp as [(l & own & Hm) HR Hlv _ _ _]. destruct space_consts as (C1 & C2 & C3 & _).
  unfold uaddr, upa. destruct (Z.leb_spec 0 va); [|done]. destruct (Z.ltb_spec va MAXVA); [|done]. cbn [andb].
  rewrite (ma_lk _ _ _ _ _ _ _ Hm _ _ va HR) by lia. unfold user_space, user_leaf. assert (0 <= va / 4096) by dlia.
  destruct (Z.eqb_spec (va / 4096) VTRAMP) as [E|].
  { rewrite !bits_set_mkpte by done. rewrite lookup_ge_None_2 by lia. done. }
  destruct (Z.eqb_spec (va / 4096) VTF) as [E|].
  { rewrite !bits_set_mkpte by done. rewrite lookup_ge_None_2 by lia. done. }
  destruct (pages !! Z.to_nat (va / 4096)) as [[q f]|] eqn:E; [|done].
  eapply Forall_lookup_1 in Hfine as (F1 & F2 & F3 & F4 & F5); [|exact E]. cbn in *. rewrite !bits_set_mkpte by done. rewrite F4. cbn.
  destruct (bits_set f PTE_U); [|done]. by rewrite PTE2PA_mkpte.
Qed.
Lemma upa_page pages va pa : upa pages va = Some pa -> exists q, q ∈ pages.*1 /\ q <= pa < q + 4096.
Proof.
  intros (q & f & Hq & -> & _)%upa_Some. exists q. pose proof (Z.mod_pos_bound va 4096). split; [|lia].
  apply list_elem_of_fmap. exists (q, f). split; [done|]. by eapply list_elem_of_lookup_2.
Qed.
(** The bytes of a user range up to the first address that is not mapped. *)
Lemma umapped_prefix s R U l own root tf pages va len : maps s R U root tf pages -> mem_at kend pool s R U l own -> 0 <= len ->
  exists k, umapped_to own (ram s) root va len k.
Proof using kend_kern pool_nodup pool_pages.
  intros Hp Hm. revert len. apply (natlike_ind (fun len => exists k, umapped_to own (ram s) root va len k)).
  { exists 0. split_and!; [lia..| |lia]. intros i Hi. lia. }
  intros len Hlen (k & Hk & Hu & He). destruct (decide (k < len)) as [Hlt|Hge].
  { exists k. split_and!; [lia..|done|]. intros _. by apply He. }
  assert (k = len) as -> by lia. destruct (uaddr (ram s) root (va + len)) as [pa|] eqn:E; [|exists len; split_and!; [lia..|done|done]].
  exists (len + 1). split_and!; [lia..| |lia]. intros i Hi. destruct (decide (i = len)) as [->|]; [|apply Hu; lia].
  exists pa. split; [done|]. rewrite (uaddr_maps s R U root tf pages) in E by done. apply upa_page in E as (q & Hq & Hr).
  destruct (mem_disjoint kend pool kend_kern pool_nodup pool_pages _ _ _ _ _ q Hm (mp_in _ _ _ _ _ _ Hp q Hq)) as (_ & Hqp & _ & Ho). pose proof (page_pos kend kend_kern q Hqp).
  split; [unfold KERNBASE in *; destruct Hqp; lia|].
  intros q' Hq'. assert (page kend q') as Hqp' by (eapply vm_pages; [apply (ma_vm _ _ _ _ _ _ _ Hm)|done]).
  destruct (page_disjoint kend q q'); [done|done|intros ->; rewrite Ho in Hq'; by destruct Hq'|lia|lia].
Qed.
Lemma upa_inj s R U root tf pages va va' pa : maps s R U root tf pages -> upa pages va = Some pa -> upa pages va' = Some pa -> va = va'.
Proof using kend_kern pool_nodup pool_pages.
  intros Hp (q & f & Hq & -> & Hv)%upa_Some (q' & f' & Hq' & E & Hv')%upa_Some. pose proof (maps_fine _ _ _ _ _ _ Hp) as Hfine.
  pose proof (Forall_lookup_1 _ _ _ _ Hfine Hq) as (_ & M1 & _). pose proof (Forall_lookup_1 _ _ _ _ Hfine Hq') as (_ & M2 & _). cbn in *.
  assert (q = q') as <- by dlia. assert (Z.to_nat (va / 4096) = Z.to_nat (va' / 4096)) as Ej.
  { eapply NoDup_lookup; [apply (mp_nodup _ _ _ _ _ _ Hp)|rewrite list_lookup_fmap, Hq; done|rewrite list_lookup_fmap, Hq'; done]. }
  dlia.
Qed.

(** Bytes of [pages] may change. *)
Lemma maps_write s R U root tf pages m : maps s R U root tf pages -> (forall x, (forall va, upa pages va <> Some x) -> rd m x = rd (ram s) x) ->
  maps (Kmem m (freelist s)) R U root tf pages.
Proof using kend_kern pool_nodup pool_pages.
  intros Hp Hw. pose proof Hp as [Hm HR Hl Hf Hin Hn]. split; try done. apply (mem_ok_write kend pool kend_kern pool_nodup pool_pages); [done|].
  intros x (q & Hq & HqU & Hx). apply Hw. intros va (q' & Hq' & Hr)%upa_page. destruct Hm as (l & own & Hm).
  destruct (mem_disjoint kend pool kend_kern pool_nodup pool_pages _ _ _ _ _ q' Hm (Hin q' Hq')) as (_ & Hqp' & _). unfold off_page in Hx. rewrite Forall_forall in pool_pages.
  destruct (page_disjoint kend q' q); [done|by apply pool_pages|intros ->; apply HqU, Hin, Hq'|lia|lia].
Qed.

(** copyout from outside the pages: all of the range is written, or its part before the first
    address that is not mapped. *)
Lemma copyout_maps h s R U root tf pages va src len : maps s R U root tf pages -> 0 <= va -> 0 <= len ->
  (forall i q, 0 <= i < len -> q ∈ pages.*1 -> off_page (src + i) q) ->
  wp (copyout root va src len) (KSt h s) (fun r k => held k = h /\ exists m n, st k = Kmem m (freelist s) /\ maps (st k) R U root tf pages /\
    0 <= n <= len /\ r = (if n =? len then 0 else -1) /\ (n < len -> upa pages (va + n) = None) /\
    (forall i, 0 <= i < n -> exists pa, upa pages (va + i) = Some pa /\ rd m pa = rd (ram s) (src + i)) /\
    (forall x, (forall i, 0 <= i < n -> upa pages (va + i) <> Some x) -> rd m x = rd (ram s) x)).
Proof using kend_kern pool_nodup pool_pages.
  intros Hp Hva Hlen Hsrc. destruct (mp_mem _ _ _ _ _ _ Hp) as (l & own & Hm).
  destruct (umapped_prefix s R U l own root tf pages va len Hp Hm Hlen) as (n & Hn). pose proof (fun v => uaddr_maps s R U root tf pages v Hp) as Eu.
  unfold copyout. eapply wp_mono; [eapply (copyout_loop_spec kend kend_kern h (Z.to_nat len) s own _ va src len n)|].
  - apply Hm.
  - apply (ma_roots _ _ _ _ _ _ _ Hm). rewrite (mp_root _ _ _ _ _ _ Hp). by eexists.
  - done.
  - lia.
  - done.
  - intros i j pa Hi Hj. rewrite !Eu. intros E1 E2. pose proof (upa_inj _ _ _ _ _ _ _ _ _ Hp E1 E2). lia.
  - intros i j Hi Hj. rewrite Eu. intros (q & Hq & Hr)%upa_page. destruct Hn as (? & _). destruct (Hsrc j q); [lia|done|lia..].
  - intros r [h' m] (-> & -> & Hfl & Hco1 & Hco2). cbn [held st] in *. split; [done|]. exists (ram m), n. destruct Hn as (Hn & Hu & He).
    assert (forall x, (forall i, 0 <= i < n -> upa pages (va + i) <> Some x) -> rd (ram m) x = rd (ram s) x) as Hout.
    { intros x Hx. apply Hco2. intros i Hi. rewrite Eu. by apply Hx. }
    assert (m = Kmem (ram m) (freelist s)) as Em by (rewrite <- Hfl; by destruct m).
    split_and!; [done| |lia..|done| | |exact Hout].
    + rewrite Em. apply (maps_write s); [done|]. intros x Hx. by apply Hout.
    + intros Hlt. rewrite <- Eu. by apply He.
    + intros i Hi. destruct (Hu i Hi) as (pa & Hpa & _). exists pa. rewrite <- Eu. split; [done|]. by eapply Hco1.
Qed.

(** ** copyin and copyinstr *)

Lemma walkaddr_maps h s R U root tf pages va (Q : Z -> kst kmem -> Prop) : maps s R U root tf pages -> 0 <= va ->
  Q (match upa pages va with Some pa => pa - va mod 4096 | None => 0 end) (KSt h s) -> wp (walkaddr root va) (KSt h s) Q.
Proof using kend_kern pool_nodup pool_pages.
  intros Hmp Hva HQ. pose proof Hmp as [(l & own & Hm) HR _ _ _ _]. eapply wp_intro; [eapply (walkaddr_eq kend kend_kern); [apply Hm| |done]|].
  - apply (ma_roots _ _ _ _ _ _ _ Hm). rewrite HR. by eexists.
  - by rewrite (uaddr_maps _ _ _ _ _ _ va Hmp).
Qed.

(** Stores to pages in use that are not among [pages], or outside the pool. *)
Lemma maps_other s R U root tf pages m : maps s R U root tf pages -> (forall x, (exists q, q ∈ pool /\ (q ∉ U) /\ ~ off_page x q) -> rd m x = rd (ram s) x) ->
  maps (Kmem m (freelist s)) R U root tf pages.
Proof using kend_kern pool_nodup pool_pages.
  intros [Hm HR Hl Hf Hin Hn] Hw. split; try done. by apply (mem_ok_write kend pool kend_kern pool_nodup pool_pages).
Qed.
(** A buffer of the kernel: in use or outside the pool, and apart from [pages]. *)
Definition kbuf U pages (x : Z) : Prop := (forall q, q ∈ pool -> q ∉ U -> off_page x q) /\ (forall q, q ∈ pages.*1 -> off_page x q).
Lemma kbuf_tables s R U l own pages x : mem_at kend pool s R U l own -> kbuf U pages x -> off_tables own x.
Proof using kend_kern pool_nodup pool_pages. intros Hm [H _]. by apply (stays_outside kend pool kend_kern pool_nodup pool_pages U s R l own x Hm). Qed.
Lemma kbuf_upa U pages x va : kbuf U pages x -> upa pages va <> Some x.
Proof using. clear kend_kern pool_nodup pool_pages. intros [_ H] (q & Hq & Hr)%upa_page. destruct (H q Hq); lia. Qed.

Lemma copyin_maps h s R U root tf pages dst va len : maps s R U root tf pages -> 0 <= va -> 0 <= len -> (forall i, 0 <= i < len -> kbuf U pages (dst + i)) ->
  wp (copyin root dst va len) (KSt h s) (fun r k => held k = h /\ exists m n, st k = Kmem m (freelist s) /\ maps (st k) R U root tf pages /\
    0 <= n <= len /\ r = (if n =? len then 0 else -1) /\ (n < len -> upa pages (va + n) = None) /\
    (forall i, 0 <= i < n -> exists pa, upa pages (va + i) = Some pa /\ rd m (dst + i) = rd (ram s) pa) /\
    (forall x, ~ dst <= x < dst + n -> rd m x = rd (ram s) x)).
Proof using kend_kern pool_nodup pool_pages.
  intros Hp Hva Hlen Hdst. destruct (mp_mem _ _ _ _ _ _ Hp) as (l & own & Hm).
  destruct (umapped_prefix s R U l own root tf pages va len Hp Hm Hlen) as (n & Hn). pose proof (fun v => uaddr_maps s R U root tf pages v Hp) as Eu. pose proof Hn as (Hnl & Hu & He).
  unfold copyin. eapply wp_mono; [eapply (copyin_loop_spec kend kend_kern h (Z.to_nat len) s own root dst va len n)|].
  - apply Hm.
  - apply (ma_roots _ _ _ _ _ _ _ Hm). rewrite (mp_root _ _ _ _ _ _ Hp). by eexists.
  - done.
  - lia.
  - done.
  - intros i Hi. eapply kbuf_tables; [exact Hm|]. apply Hdst. lia.
  - intros i j Hi Hj. rewrite Eu. eapply kbuf_upa. apply Hdst. lia.
  - intros r [h' m] (-> & -> & Hfl & Hc1 & Hc2). cbn [held st] in *. split; [done|]. exists (ram m), n. assert (m = Kmem (ram m) (freelist s)) as Em by (rewrite <- Hfl; by destruct m).
    split_and!; [done| |lia..|done| | |done].
    + rewrite Em. apply (maps_other s); [done|]. intros x (q & Hq & Hn' & Hx). apply Hc2. intros Hr. destruct (Hdst (x - dst) ltac:(lia)) as [Hk _]. replace (dst + (x - dst)) with x in Hk by lia. by apply Hx, Hk.
    + intros Hlt. rewrite <- Eu. by apply He.
    + intros i Hi. destruct (Hu i Hi) as (pa & Hpa & _). exists pa. rewrite <- Eu. split; [done|]. by eapply Hc1.
Qed.

(** The string of at most [max] bytes, its end included, at the user address [va]. *)
Fixpoint ustr (m : mem) pages (va : Z) (max : nat) : option (list Z) :=
  match max with
  | O => None
  | S k => match upa pages va with
           | None => None
           | Some pa => if rd m pa =? 0 then Some [] else cons (rd m pa) <$> ustr m pages (va + 1) k
           end
  end.
Lemma ustr_ext m m' pages max : (forall va pa, upa pages va = Some pa -> rd m' pa = rd m pa) -> forall va, ustr m' pages va max = ustr m pages va max.
Proof using.
  clear kend_kern pool_nodup pool_pages. intros H. induction max as [|max IH]; intros va; [done|]. cbn [ustr]. destruct (upa pages va) as [pa|] eqn:E; [|done]. by rewrite (H va pa E), IH.
Qed.
Lemma ustr_length m pages max : forall va str, ustr m pages va max = Some str -> (length str < max)%nat /\ Forall (fun c => 0 < c < 256) str.
Proof using.
  clear kend_kern pool_nodup pool_pages. induction max as [|max IH]; intros va str E; [done|]. cbn [ustr] in E. destruct (upa pages va) as [pa|]; [|done]. destruct (Z.eqb_spec (rd m pa) 0); [injection E as <-; cbn; split; [lia|constructor]|].
  destruct (ustr m pages (va + 1) max) as [str'|] eqn:E'; [|done]. injection E as <-. destruct (IH _ _ E'). cbn. split; [lia|]. constructor; [|done]. pose proof (rd_range m pa). lia.
Qed.
(** [str] with its end at [dst]; without the end when it does not end within [n] bytes. *)
Lemma copyinstr_bytes_spec n : forall m pa dst max, (forall i j, 0 <= i < Z.of_nat n -> 0 <= j < Z.of_nat n -> pa + i <> dst + j) ->
  let '(m', got, dst', max') := copyinstr_bytes m pa dst max n in exists k, 0 <= k <= Z.of_nat n /\
    (forall i, 0 <= i < k -> rd m (pa + i) <> 0 /\ rd m' (dst + i) = rd m (pa + i)) /\
    if (got : bool) then k < Z.of_nat n /\ rd m (pa + k) = 0 /\ rd m' (dst + k) = 0 /\ (forall x, ~ dst <= x <= dst + k -> rd m' x = rd m x)
    else k = Z.of_nat n /\ dst' = dst + k /\ max' = max - k /\ (forall x, ~ dst <= x < dst + k -> rd m' x = rd m x).
Proof using.
  clear kend_kern pool_nodup pool_pages. induction n as [|n IH]; intros m pa dst max Hd; cbn [copyinstr_bytes].
  { exists 0. split_and!; done || lia. }
  destruct (Z.eqb_spec (rd m pa) 0) as [E|E].
  { exists 0. rewrite !Z.add_0_r. split_and!; try lia; [by rewrite rd_wr_eq|]. intros x Hx. apply rd_wr_ne. lia. }
  assert (forall i, 1 <= i < Z.of_nat (S n) -> rd (wr m dst (rd m pa)) (pa + i) = rd m (pa + i)) as Hw.
  { intros i Hi. apply rd_wr_ne. intros Hx. apply (Hd i 0); lia. }
  specialize (IH (wr m dst (rd m pa)) (pa + 1) (dst + 1) (max - 1)). destruct (copyinstr_bytes _ _ _ _ n) as [[[m' got] dst'] max'].
  destruct IH as (k & Hk & H1 & H2); [intros i j Hi Hj Hx; apply (Hd (i + 1) (j + 1)); lia|]. exists (k + 1).
  assert (rd m' dst = rd m pa) as Hfst.
  { rewrite <- (u8_rd m pa), <- (rd_wr_eq m dst (rd m pa)). destruct got; [destruct H2 as (_ & _ & _ & H2)|destruct H2 as (_ & _ & _ & H2)]; apply H2; lia. }
  split; [lia|]. split.
  - intros i Hi. destruct (decide (i = 0)) as [->|]; [by rewrite !Z.add_0_r|]. specialize (H1 (i - 1) ltac:(lia)). replace (pa + 1 + (i - 1)) with (pa + i) in H1 by lia. replace (dst + 1 + (i - 1)) with (dst + i) in H1 by lia. by rewrite Hw in H1 by lia.
  - replace (pa + 1 + k) with (pa + (k + 1)) in H2 by lia. replace (dst + 1 + k) with (dst + (k + 1)) in H2 by lia. destruct got.
    + destruct H2 as (G1 & G2 & G3 & G4). rewrite Hw in G2 by lia. split_and!; [lia|done|done|]. intros x Hx. rewrite G4 by lia. apply rd_wr_ne. lia.
    + destruct H2 as (G1 & G2 & G3 & G4). split_and!; [lia|lia|lia|]. intros x Hx. rewrite G4 by lia. apply rd_wr_ne. lia.
Qed.
(** A run of bytes of one page. *)
Lemma ustr_run m pages va pa k : forall max, (forall i, 0 <= i < Z.of_nat k -> upa pages (va + i) = Some (pa + i) /\ rd m (pa + i) <> 0) -> (k <= max)%nat ->
  ustr m pages va max = app ((fun i => rd m (pa + i)) <$> seqZ 0 (Z.of_nat k)) <$> ustr m pages (va + Z.of_nat k) (max - k).
Proof using.
  clear kend_kern pool_nodup pool_pages. revert va pa. induction k as [|k IH]; intros va pa max H Hk.
  { rewrite Z.add_0_r, Nat.sub_0_r. cbn. by destruct (ustr m pages va max). }
  destruct max as [|max]; [lia|]. cbn [ustr]. destruct (H 0) as [E1 E2]; [lia|]. rewrite Z.add_0_r in E2. rewrite (Z.add_0_r va), (Z.add_0_r pa) in E1. rewrite E1. destruct (Z.eqb_spec (rd m pa) 0); [done|].
  rewrite (IH (va + 1) (pa + 1) max); [|intros i Hi; rewrite <- !(Z.add_assoc _ 1 i), (Z.add_comm 1 i); apply H; lia|lia].
  replace (va + 1 + Z.of_nat k) with (va + Z.of_nat (S k)) by lia. replace (S max - S k)%nat with (max - k)%nat by lia. destruct (ustr m pages _ _) as [str|]; [|done]. cbn [fmap option_fmap option_map]. f_equal.
  rewrite Nat2Z.inj_succ, (seqZ_cons 0 (Z.succ (Z.of_nat k))), Z.pred_succ by lia. rewrite fmap_cons. cbn [app]. rewrite Z.add_0_r. do 2 f_equal.
  change (Z.succ 0) with (1 + 0). rewrite <- fmap_add_seqZ, <- list_fmap_compose. apply list_fmap_ext. intros i x _. cbn. f_equal. lia.
Qed.

Lemma upa_run pages va pa i : upa pages va = Some pa -> 0 <= i -> va mod 4096 + i < 4096 -> upa pages (va + i) = Some (pa + i).
Proof using.
  clear kend_kern pool_nodup pool_pages. unfold upa. intros H Hi Hl. assert (MAXVA = 2 ^ 26 * 4096) as HM by done. destruct (Z.leb_spec 0 va); [|done]. destruct (Z.ltb_spec va MAXVA); [|done]. cbn [andb] in H.
  destruct (Z.leb_spec 0 (va + i)); [|lia]. destruct (Z.ltb_spec (va + i) MAXVA); [|dlia]. cbn [andb]. replace ((va + i) / 4096) with (va / 4096) by dlia.
  destruct (pages !! _) as [[q f]|]; [|done]. destruct (bits_set f PTE_U); [|done]. injection H as <-. f_equal. dlia.
Qed.
Lemma upa_round pages va : 0 <= va -> upa pages (PGROUNDDOWN va) = (fun pa => pa - va mod 4096) <$> upa pages va.
Proof using.
  clear kend_kern pool_nodup pool_pages. intros Hva. rewrite PGROUNDDOWN_div. unfold upa. assert (MAXVA = 2 ^ 26 * 4096) as HM by done. rewrite Z.div_mul, Z.mod_mul by lia.
  destruct (Z.leb_spec 0 va), (Z.leb_spec 0 (va / 4096 * 4096)); try dlia. destruct (Z.ltb_spec va MAXVA), (Z.ltb_spec (va / 4096 * 4096) MAXVA); try dlia; [|done]. cbn [andb].
  destruct (pages !! _) as [[q f]|]; [|done]. destruct (bits_set f PTE_U); [|done]. cbn. f_equal. lia.
Qed.
Lemma upa_pos s R U root tf pages va pa : maps s R U root tf pages -> upa pages va = Some pa -> pa - va mod 4096 <> 0.
Proof using kend_kern pool_nodup pool_pages.
  intros [(l & own & Hm) _ _ _ Hin _] (q & f & Hq & -> & _)%upa_Some. assert (q ∈ U) as HqU by (apply Hin, list_elem_of_fmap; exists (q, f); split; [done|by eapply list_elem_of_lookup_2]).
  destruct (mem_disjoint kend pool kend_kern pool_nodup pool_pages _ _ _ _ _ q Hm HqU) as (_ & Hqp & _). pose proof (page_pos kend kend_kern q Hqp). lia.
Qed.

(** What copyinstr leaves at [dst]. *)
Definition str_copied (m m' : mem) pages (dst va max r : Z) : Prop :=
  (forall x, ~ dst <= x < dst + max -> rd m' x = rd m x) /\
  match ustr m pages va (Z.to_nat max) with
  | Some str => r = 0 /\ forall i b, (str ++ [0]) !! i = Some b -> rd m' (dst + Z.of_nat i) = b
  | None => r = -1
  end.
Lemma str_copied_next m m1 m2 pages dst va pa n max r : 0 <= n <= max -> (forall i, 0 <= i < n -> upa pages (va + i) = Some (pa + i) /\ rd m (pa + i) <> 0 /\ rd m1 (dst + i) = rd m (pa + i)) ->
  (forall x, ~ dst <= x < dst + n -> rd m1 x = rd m x) -> (forall va pa, upa pages va = Some pa -> rd m1 pa = rd m pa) -> str_copied m1 m2 pages (dst + n) (va + n) (max - n) r -> str_copied m m2 pages dst va max r.
Proof using.
  clear kend_kern pool_nodup pool_pages. intros Hn H1 H2 H3 [G1 G2]. split; [intros x Hx; rewrite G1, H2 by lia; done|]. rewrite (ustr_ext m m1 pages _ H3) in G2.
  rewrite (ustr_run m pages va pa (Z.to_nat n)); [|intros i Hi; destruct (H1 i); [lia|tauto]|lia]. rewrite !Z2Nat.id by lia. replace (Z.to_nat max - Z.to_nat n)%nat with (Z.to_nat (max - n)) by lia.
  destruct (ustr m pages (va + n) _) as [str|]; [|done]. cbn [fmap option_fmap option_map]. destruct G2 as [-> G2]. split; [done|]. intros i b Hb. rewrite <- app_assoc in Hb.
  destruct (decide (Z.of_nat i < n)) as [Hlt|Hge].
  - rewrite lookup_app_l in Hb by (rewrite length_fmap, length_seqZ; lia). apply list_lookup_fmap_Some in Hb as (x & -> & Hx). apply lookup_seqZ in Hx as [-> _]. rewrite G1 by lia. apply H1. lia.
  - rewrite lookup_app_r in Hb by (rewrite length_fmap, length_seqZ; lia). rewrite length_fmap, length_seqZ in Hb. rewrite <- (G2 _ _ Hb). f_equal. lia.
Qed.
Lemma copyinstr_loop_maps h R U root tf pages f : forall s dst va max, maps s R U root tf pages -> 0 <= va -> max <= Z.of_nat f -> (forall i, 0 <= i < max -> kbuf U pages (dst + i)) ->
  wp (copyinstr_loop f root dst va max) (KSt h s) (fun r k => held k = h /\ exists m, st k = Kmem m (freelist s) /\ maps (st k) R U root tf pages /\ str_copied (ram s) m pages dst va max r).
Proof using kend_kern pool_nodup pool_pages.
  induction f as [|f IH]; intros s dst va max Hp Hva Hf Hd; cbn [copyinstr_loop]; (destruct (Z.ltb_spec 0 max); cbn [negb];
    [|wstep; split; [done|]; exists (ram s); replace (Kmem (ram s) (freelist s)) with s by (by destruct s); split_and!; try done; split; [done|]; by replace (Z.to_nat max) with 0%nat by lia]); [lia|].
  assert (0 <= PGROUNDDOWN va) as Hr0 by (rewrite PGROUNDDOWN_div; dlia). wstep. eapply walkaddr_maps; [exact Hp|done|]. rewrite upa_round by done. replace (PGROUNDDOWN va mod 4096) with 0 by (rewrite PGROUNDDOWN_div, Z.mod_mul; lia).
  destruct (upa pages va) as [pa|] eqn:Epa; cbn [fmap option_fmap option_map]; cycle 1.
  { rewrite Z.eqb_refl. wstep. split; [done|]. exists (ram s). replace (Kmem (ram s) (freelist s)) with s by (by destruct s). split_and!; try done. split; [done|].
    replace (Z.to_nat max) with (S (Z.to_nat (max - 1))) by lia. cbn [ustr]. by rewrite Epa. }
  pose proof (upa_pos _ _ _ _ _ _ _ _ Hp Epa) as Hpa. rewrite Z.sub_0_r. destruct (Z.eqb_spec (pa - va mod 4096) 0) as [|_]; [done|]. fold (chunk va max). destruct (chunk_bounds va max Hva ltac:(lia)) as (C1 & C2 & C3 & C4).
  rewrite C3. replace (pa - va mod 4096 + va mod 4096) with pa by lia. wstep. wstep. cbn [st]. set (n := chunk va max) in *.
  assert (forall i, 0 <= i < n -> upa pages (va + i) = Some (pa + i)) as Hrun by (intros i Hi; apply upa_run; [done|lia|lia]).
  pose proof (copyinstr_bytes_spec (Z.to_nat n) (ram s) pa dst max) as Hb. destruct (copyinstr_bytes _ _ _ _ _) as [[[m1 got] dst'] max'].
  destruct Hb as (k & Hk & Hb1 & Hb2); [intros i j Hi Hj E; destruct (kbuf_upa U pages (dst + j) (va + i)); [apply Hd; lia|rewrite <- E; apply Hrun; lia]|]. rewrite Z2Nat.id in * by lia.
  assert (forall x, ~ dst <= x < dst + max -> rd m1 x = rd (ram s) x) as Hfr by (intros x Hx; destruct got; apply Hb2; lia).
  assert (maps (Kmem m1 (freelist s)) R U root tf pages) as Hp1.
  { apply maps_other; [done|]. intros x (q & Hq & Hn & Hx). apply Hfr. intros Hr. destruct (Hd (x - dst) ltac:(lia)) as [Hk' _]. replace (dst + (x - dst)) with x in Hk' by lia. by apply Hx, Hk'. }
  assert (forall v x, upa pages v = Some x -> rd m1 x = rd (ram s) x) as Hsame.
  { intros v x Ex. apply Hfr. intros Hr. apply (kbuf_upa U pages x v); [|done]. replace x with (dst + (x - dst)) by lia. apply Hd. lia. }
  unfold on_ram. wstep. wstep. cbn [held st]. destruct got.
  - destruct Hb2 as (B1 & B2 & B3 & B4). wstep. split; [done|]. exists m1. split_and!; try done.
    apply (str_copied_next (ram s) (ram s) m1 pages dst va pa 0); [lia|lia|done|done|]. rewrite !Z.add_0_r, Z.sub_0_r. split; [done|].
    rewrite (ustr_run (ram s) pages va pa (Z.to_nat k)); [|intros i Hi; split; [apply Hrun; lia|apply Hb1; lia]|lia]. rewrite Z2Nat.id by lia.
    replace (Z.to_nat max - Z.to_nat k)%nat with (S (Z.to_nat (max - k - 1))) by lia. cbn [ustr]. rewrite (Hrun k), B2, Z.eqb_refl by lia. cbn [fmap option_fmap option_map]. split; [done|].
    rewrite app_nil_r. intros i b Hib. pose proof (lookup_lt_Some _ _ _ Hib) as Hil. rewrite length_app, length_fmap, length_seqZ in Hil. cbn in Hil. destruct (decide (Z.of_nat i = k)) as [Ek|].
    + rewrite lookup_app_r in Hib by (rewrite length_fmap, length_seqZ; lia). rewrite length_fmap, length_seqZ in Hib. replace (i - Z.to_nat k)%nat with 0%nat in Hib by lia. injection Hib as <-. by rewrite Ek.
    + rewrite lookup_app_l in Hib by (rewrite length_fmap, length_seqZ; lia). apply list_lookup_fmap_Some in Hib as (x & -> & Hx). apply lookup_seqZ in Hx as [-> _]. apply Hb1. lia.
  - destruct Hb2 as (-> & -> & -> & B4). assert (forall r m2, str_copied m1 m2 pages (dst + n) (va + n) (max - n) r -> str_copied (ram s) m2 pages dst va max r) as Hnext.
    { intros r m2. apply (str_copied_next (ram s) m1 m2 pages dst va pa n max r); [lia| |done|done]. intros i Hi. split; [by apply Hrun|by apply Hb1]. }
    destruct (decide (n = max)) as [En|En].
    + rewrite En, Z.sub_diag. assert (copyinstr_loop f root (dst + max) (u64 (PGROUNDDOWN va + PGSIZE)) 0 = mret (-1)) as -> by (by destruct f). wstep. split; [done|]. exists m1. split_and!; try done.
      apply Hnext. rewrite En, Z.sub_diag. split; [done|done].
    + assert (u64 (PGROUNDDOWN va + PGSIZE) = va + n) as ->.
      { unfold PGSIZE. rewrite <- C4 by lia. apply u64_small. apply upa_Some in Epa as (? & ? & _ & _ & Hv). change MAXVA with (2 ^ 38) in Hv. pose proof (Z.mod_pos_bound va 4096). lia. }
      eapply wp_mono; [apply (IH (Kmem m1 (freelist s)) (dst + n) (va + n) (max - n) Hp1); [lia..|]; intros i Hi; rewrite <- Z.add_assoc; apply Hd; lia|].
      intros r k (Hk' & m2 & Ek & Hp2 & Hs2). split; [done|]. exists m2. split_and!; try done. by apply Hnext.
Qed.
End PoolCopy.

(** ** Processes *)

Section ProcCopy.
Context {T : Type} `{!ProcFiles T}.
Variables (kend trampoline : Z) (pool : list Z) (R0 : spaces).
Hypothesis kend_kern : KERNBASE <= kend.
Hypothesis pool_nodup : NoDup pool.
Hypothesis pool_pages : Forall (page kend) pool.

Abbreviation kern := (@kern T).
Abbreviation pmem := (pmem kend trampoline pool R0).
Abbreviation pmem_at := (pmem_at kend trampoline pool R0).
Implicit Types (s : kern) (A : aspaces) (R : spaces) (K : list Z) (i p : Z).

Lemma proc_maps K s A R p pages : pmem_at K s A R -> A !! p = Some pages ->
  maps kend trampoline pool (km s) R (users s A ++ K) (p_pagetable (getp s p)) (p_trapframe (getp s p)) pages.
Proof using kend_kern pool_nodup pool_pages.
  intros Hp HA. destruct (pm_space _ _ _ _ _ _ _ _ Hp p pages HA) as (_ & _ & Hsp & HR). split.
  - apply Hp.
  - done.
  - by eapply space_ok_len.
  - apply Hsp.
  - intros q Hq. rewrite (users_delete s A p pages HA). set_solver.
  - destruct (pm_mem _ _ _ _ _ _ _ _ Hp) as (l & own & Hm). pose proof (mem_nodup kend pool pool_nodup _ _ _ _ _ Hm) as Hn.
    rewrite (users_delete s A p pages HA) in Hn. cbn in Hn. rewrite !NoDup_cons, !NoDup_app in Hn. tauto.
Qed.
Lemma uaddr_space K s A R p pages va : pmem_at K s A R -> A !! p = Some pages -> uaddr (ram (km s)) (p_pagetable (getp s p)) va = upa pages va.
Proof using kend_kern pool_nodup pool_pages. intros Hp HA. eapply uaddr_maps; [done..|]. by eapply proc_maps. Qed.

(** copyout from outside the pool. *)
Lemma copyout_pmem h K s A p pages va src len : pmem K s A -> A !! p = Some pages -> 0 <= va -> 0 <= len ->
  (forall i q, 0 <= i < len -> q ∈ pool -> off_page (src + i) q) ->
  wp (onkm (copyout (p_pagetable (getp s p)) va src len)) (KSt h s) (fun r k => held k = h /\ exists m n, st k = with_km m s /\ pmem K (with_km m s) A /\
    0 <= n <= len /\ r = (if n =? len then 0 else -1) /\ (n < len -> upa pages (va + n) = None) /\
    (forall i, 0 <= i < n -> exists pa, upa pages (va + i) = Some pa /\ rd (ram m) pa = rd (ram (km s)) (src + i)) /\
    (forall x, (forall i, 0 <= i < n -> upa pages (va + i) <> Some x) -> rd (ram m) x = rd (ram (km s)) x)).
Proof using kend_kern pool_nodup pool_pages.
  intros [R Hp] HA Hva Hlen Hsrc. pose proof (proc_maps K s A R p pages Hp HA) as Hmp. apply wp_onkm.
  eapply wp_mono; [apply (copyout_maps kend trampoline pool kend_kern pool_nodup pool_pages h (km s) R _ _ _ pages va src len Hmp Hva Hlen)|].
  { intros i q Hi Hq. apply Hsrc; [done|]. destruct (mp_mem _ _ _ _ _ _ _ _ _ Hmp) as (l & own & Hm).
    apply (mem_disjoint kend pool kend_kern pool_nodup pool_pages _ _ _ _ _ q Hm). by apply (mp_in _ _ _ _ _ _ _ _ _ Hmp). }
  intros r [h' k] (-> & m & n & -> & Hmp' & Hn & -> & He & H1 & H2). cbn [held st] in *. split; [done|]. exists (Kmem m (freelist (km s))), n.
  split_and!; try done; try lia. exists R. eapply (pmem_at_ext _ _ _ _ K s); [done| |exact Hp]. cbn. apply Hmp'.
Qed.
End ProcCopy.
