(* ===== verification/ProcThms.v ===== *)
(** * fork: the invariant of the process table *)
From S2P Require Import Prelude Mem Riscv Kalloc Vm VmTree VmSpec VmAlloc VmFree VmPool Proc ProcMem ProcInv ProcOps ProcFork.

Section ProcThms.
Context {T : Type} `{!ProcFiles T, !ProcFilesLaws T}.
Variables (kend trampoline forkret_at : Z) (pool : list Z) (R0 : spaces) (K : list Z).
Hypothesis kend_kern : KERNBASE <= kend.
Hypothesis pool_nodup : NoDup pool.
Hypothesis pool_pages : Forall (page kend) pool.
Hypothesis tramp_ok : trampoline mod 4096 = 0 /\ 0 <= trampoline /\ trampoline + 4096 <= 2 ^ 56.

Abbreviation kern := (@kern T).
Abbreviation pmem := (pmem kend trampoline pool R0).
Implicit Types (s : kern) (A : aspaces) (i p np : Z).

Definition tabs s : ftables := fun p => (p_ofile (getp s p), p_cwd (getp s p)).
Definition used s i : Prop := p_state (getp s i) <> UNUSED.
Definition alive s i : Prop := p_state (getp s i) <> UNUSED /\ p_state (getp s i) <> ZOMBIE.

#[local] Instance used_dec s i : Decision (used s i).
Proof. unfold used. apply _. Defined.

Record proc_inv s A : Prop := {
  pi_mem : pmem K s A;
  pi_slots : slots s A;
  pi_files : files_ok (rest s) (tabs s);
  pi_closed : forall i, ~ alive s i -> tabs s i = (∅, None);
  pi_fds : forall i fd f, p_ofile (getp s i) !! fd = Some f -> 0 <= fd < NOFILE;
  pi_cwd : forall i, alive s i -> is_Some (p_cwd (getp s i));
  pi_pid : forall i, used s i -> 0 < p_pid (getp s i) < nextpid s;
  pi_pids : forall i j, used s i -> used s j -> p_pid (getp s i) = p_pid (getp s j) -> i = j;
  pi_next : 0 < nextpid s;
  pi_init : exists ip, initproc s = Some ip /\ alive s ip;
  pi_parent : forall i, used s i -> initproc s <> Some i -> exists q, p_parent (getp s i) = Some q /\ alive s q /\ p_pid (getp s q) < p_pid (getp s i);
  pi_root : forall i, ~ used s i \/ initproc s = Some i -> p_parent (getp s i) = None;
}.

(** Only slot [i] and the file layer change. *)
Record near i s s' : Prop := {
  nr_procs : forall j, j <> i -> getp s' j = getp s j;
  nr_cur : cur s' = cur s;
  nr_init : initproc s' = initproc s;
  nr_first : first_run s' = first_run s;
  nr_km : km s' = km s;
  nr_next : nextpid s' = nextpid s;
}.
Lemma near_trans i s1 s2 s3 : near i s1 s2 -> near i s2 s3 -> near i s1 s3.
Proof. intros [A1 A2 A3 A4 A5 A6] [B1 B2 B3 B4 B5 B6]. split; try congruence. intros j Hj. by rewrite B1, A1. Qed.
Lemma near_upd i f s : near i s (upd_proc i f s).
Proof. split; try done. intros j Hj. by apply getp_upd_ne. Qed.
Lemma near_rest i t s : near i s (with_rest t s).
Proof. by split. Qed.

Lemma tabs_upd i f s p : tabs (upd_proc i f s) p = if decide (p = i) then (p_ofile (f (getp s i)), p_cwd (f (getp s i))) else tabs s p.
Proof. unfold tabs. destruct (decide (p = i)) as [->|]; [by rewrite getp_upd_eq|by rewrite getp_upd_ne]. Qed.
Lemma files_keep i f s : p_ofile (f (getp s i)) = p_ofile (getp s i) -> p_cwd (f (getp s i)) = p_cwd (getp s i) ->
  files_ok (rest s) (tabs s) -> files_ok (rest (upd_proc i f s)) (tabs (upd_proc i f s)).
Proof. intros E1 E2. apply law_files_ext. intros p. rewrite tabs_upd. destruct (decide (p = i)) as [->|]; [|done]. unfold tabs. by rewrite E1, E2. Qed.

(** The descriptors of the child. *)
Lemma dup_files_spec p np l : p <> np -> 0 <= np < NPROC -> NoDup l -> (forall fd, fd ∈ l -> 0 <= fd < NOFILE) -> forall s, files_ok (rest s) (tabs s) -> (forall fd, fd ∈ l -> p_ofile (getp s np) !! fd = None) ->
  wp (dup_files p np l) (KSt [proc_lock np] s) (fun _ k => held k = [proc_lock np] /\ near np s (st k) /\ files_ok (rest (st k)) (tabs (st k)) /\
    exists O, getp (st k) np = set_ofile O (getp s np) /\
      forall fd, O !! fd = if decide (fd ∈ l) then p_ofile (getp s p) !! fd else p_ofile (getp s np) !! fd).
Proof using.
  clear kend_kern pool_nodup pool_pages tramp_ok. intros Hne Hr. induction l as [|fd l IH]; intros Hnd Hin s Hf Hnone; cbn [dup_files].
  { wstep. split_and!; [done|by split|done|]. exists (p_ofile (getp s np)). split; [by destruct (getp s np)|]. intros fd. by destruct (decide (fd ∈ [])); [set_solver|]. }
  apply NoDup_cons in Hnd as [Hfd Hnd]. assert (forall fd, fd ∈ l -> 0 <= fd < NOFILE) as Hin' by (intros; apply Hin; set_solver).
  wstep. wstep. wstep. destruct (p_ofile (getp s p) !! fd) as [f|] eqn:Ef.
  - wstep. apply wp_onrest. eapply wp_mono; [apply (law_filedup (rest s) (tabs s) p np fd f np Hf Hr ltac:(apply Hin; set_solver) Ef); apply Hnone; set_solver|].
    intros f' [h' t] (-> & Eh & Hf'). cbn [held st] in *. subst h'. unfold updp. wstep. set (s1 := upd_proc np _ _).
    assert (getp s1 np = set_ofile (<[fd := f]> (p_ofile (getp s np))) (getp s np)) as E1 by (unfold s1; by rewrite getp_upd_eq, getp_rest).
    assert (near np s s1) as Hn1 by (eapply near_trans; [apply near_rest|apply near_upd]).
    eapply wp_mono; [apply (IH Hnd Hin' s1)|].
    + eapply law_files_ext; [|exact Hf']. intros q. unfold s1. rewrite tabs_upd. unfold set_fd, fupd, tabs. destruct (decide (q = np)) as [->|].
      * rewrite Z.eqb_refl. cbn. done.
      * destruct (Z.eqb_spec q np); done.
    + intros fd' Hfd'. rewrite E1. cbn. rewrite lookup_insert_ne by (intros ->; done). apply Hnone. set_solver.
    + intros _ k (Hk & Hn2 & Hf2 & O & E2 & HO). split_and!; [done|by eapply near_trans|done|]. exists O. split; [rewrite E2, E1; done|].
      intros fd'. rewrite HO, (nr_procs _ _ _ Hn1 p Hne), E1. cbn. destruct (decide (fd' = fd)) as [->|Hfd'].
      * rewrite (decide_False (P := fd ∈ l)), (decide_True (P := fd ∈ fd :: l)), lookup_insert_eq by set_solver. done.
      * rewrite lookup_insert_ne by done. destruct (decide (fd' ∈ l)), (decide (fd' ∈ fd :: l)); set_solver.
  - wstep. eapply wp_mono; [apply (IH Hnd Hin' s Hf)|]. { intros fd' ?. apply Hnone. set_solver. }
    intros _ k (Hk & Hn2 & Hf2 & O & E2 & HO). split_and!; [done..|]. exists O. split; [done|]. intros fd'. rewrite HO.
    destruct (decide (fd' = fd)) as [->|Hfd'].
    + rewrite (decide_False (P := fd ∈ l)), (decide_True (P := fd ∈ fd :: l)), Ef by set_solver. apply Hnone. set_solver.
    + destruct (decide (fd' ∈ l)), (decide (fd' ∈ fd :: l)); set_solver.
Qed.
(** ** fork *)

(** The registers of the child: those of the parent, with 0 returned. *)
Definition frame_copy (m m' : mem) (tf tf' : Z) : Prop :=
  forall o, 0 <= o -> o mod 8 = 0 -> o + 8 <= TF_SIZE -> load64 m' (tf' + o) = if o =? tf_a0 then 0 else load64 m (tf + o).
Lemma frame_store m tf tf' (m' := store64 (memmove m tf' tf TF_SIZE) (tf' + tf_a0) 0) : only_page m m' tf' /\ frame_copy m m' tf tf'.
Proof using.
  clear kend_kern pool_nodup pool_pages tramp_ok. unfold m', TF_SIZE, tf_a0. split.
  - intros x Hx. rewrite rd_store64_ne, rd_memmove by lia. zbool; done || lia.
  - intros o Ho Hd Hl. unfold tf_a0, TF_SIZE in *. destruct (Z.eqb_spec o 112) as [->|]; [by apply load_store64_eq|].
    rewrite load_store64_ne by dlia. apply load64_shift. intros b Hb. rewrite rd_memmove by lia. zbool; try lia. f_equal. lia.
Qed.

(** The child: a copy of the parent [x] in the slot [y]. *)
Definition child_of (x y : proc) (p pid pt tf : Z) : proc :=
  Proc RUNNABLE (Some p) (p_chan y) (p_killed y) (p_xstate y) pid (p_kstack y) (p_sz x) pt tf
    (Context forkret_at (p_kstack y + PGSIZE)) (p_ofile x) (p_cwd x) (copy_name (p_name x)).

Record forked s s' A p np pages pages' : Prop := {
  fk_others : forall j, j <> np -> getp s' j = getp s j;
  fk_cur : cur s' = cur s;
  fk_init : initproc s' = initproc s;
  fk_next : nextpid s' = i32 (nextpid s + 1);
  fk_unused : p_state (getp s np) = UNUSED;
  fk_child : getp s' np = child_of (getp s p) (getp s np) p (nextpid s) (p_pagetable (getp s' np)) (p_trapframe (getp s' np));
  fk_image : same_image (ram (km s)) (ram (km s')) pages pages';
  fk_frame : frame_copy (ram (km s)) (ram (km s')) (p_trapframe (getp s p)) (p_trapframe (getp s' np));
  fk_stays : stays pool (users s A ++ K) (km s) (km s');
}.
(** No process changed; an unused slot may have a new pid. *)
Record idle s s' : Prop := {
  id_used : forall j, used s j -> getp s' j = getp s j;
  id_free : forall j, ~ used s j -> ~ used s' j /\ p_pagetable (getp s' j) = 0 /\ p_trapframe (getp s' j) = 0 /\ p_sz (getp s' j) = 0 /\
    tabs s' j = tabs s j /\ (p_parent (getp s' j) = p_parent (getp s j) \/ p_parent (getp s' j) = None);
  id_cur : cur s' = cur s;
  id_init : initproc s' = initproc s;
  id_rest : rest s' = rest s;
  id_next : nextpid s' = nextpid s \/ nextpid s' = i32 (nextpid s + 1);
}.
Lemma not_used s j : ~ used s j -> p_state (getp s j) = UNUSED.
Proof using. clear kend_kern pool_nodup pool_pages tramp_ok. unfold used. destruct (decide (p_state (getp s j) = UNUSED)); tauto. Qed.
Lemma slots_used s A j : slots s A -> used s j -> is_Some (A !! j).
Proof. intros H Hu. destruct (A !! j) eqn:E; [eauto|]. by destruct (sl_free _ _ H j E). Qed.
Lemma idle_slot s s' A i : slots s A -> others i s s' -> (nextpid s' = nextpid s \/ nextpid s' = i32 (nextpid s + 1)) -> ~ used s i ->
  ~ used s' i -> p_pagetable (getp s' i) = 0 -> p_trapframe (getp s' i) = 0 -> p_sz (getp s' i) = 0 ->
  p_ofile (getp s' i) = p_ofile (getp s i) -> p_cwd (getp s' i) = p_cwd (getp s i) -> (p_parent (getp s' i) = p_parent (getp s i) \/ p_parent (getp s' i) = None) -> idle s s'.
Proof.
  intros Hsl Ho Hn Hu Hu' H1 H2 H3 H4 H5 H6. split; try apply Ho; [|..|done].
  - intros j Hj. apply Ho. intros ->. done.
  - intros j Hj. destruct (decide (j = i)) as [->|Hne].
    + split_and!; try done. unfold tabs. congruence.
    + assert (A !! j = None) as HA by (apply eq_None_not_Some; intros Hs; by destruct (sl_used _ _ Hsl j Hs)).
      destruct (sl_free _ _ Hsl j HA) as (G1 & G2 & G3 & G4). pose proof (ot_procs _ _ _ Ho j Hne) as E. unfold used, tabs. rewrite !E. split_and!; try done; by left.
Qed.
Lemma no_proc_idle s s' A : slots s A -> no_proc s s' -> idle s s'.
Proof.
  intros Hsl [(i & Ho & Hc) Hn]. destruct Hc as [E|(H1 & H2 & H3 & H4 & H5 & H6 & H7 & H8)]; [|eapply idle_slot; try done; unfold used; tauto].
  assert (forall j, getp s' j = getp s j) as Eg by (intros j; destruct (decide (j = i)) as [->|]; [done|by apply Ho]).
  split; try apply Ho; [done|..|done].
  intros j Hj. unfold used, tabs. rewrite !Eg.
  assert (A !! j = None) as HA by (apply eq_None_not_Some; intros Hs; by destruct (sl_used _ _ Hsl j Hs)).
  destruct (sl_free _ _ Hsl j HA) as (G1 & G2 & G3 & G4). split_and!; try done; by left.
Qed.

Lemma inv_idle s s' A : proc_inv s A -> nextpid s < 2 ^ 31 - 1 -> idle s s' -> pmem K s' A -> proc_inv s' A.
Proof.
  intros I Hb D Hp. assert (nextpid s <= nextpid s') as Hn.
  { pose proof (pi_next _ _ I). destruct (id_next _ _ D) as [->| ->]; [done|]. rewrite i32_small by lia. lia. }
  assert (forall j, used s' j <-> used s j) as Hu.
  { intros j. destruct (decide (used s j)) as [Hj|Hj]; [|pose proof (proj1 (id_free _ _ D j Hj)); tauto]. unfold used in *. by rewrite (id_used _ _ D j Hj). }
  assert (forall j, alive s' j <-> alive s j) as Ha.
  { intros j. assert (used s j -> p_state (getp s' j) = p_state (getp s j)) as E by (intros Hj; by rewrite (id_used _ _ D j Hj)).
    pose proof (Hu j). unfold alive, used in *. destruct (decide (p_state (getp s j) = UNUSED)) as [E1|E1]; [tauto|]. rewrite E by done. tauto. }
  assert (forall j, tabs s' j = tabs s j) as Ht.
  { intros j. destruct (decide (used s j)) as [Hj|Hj]; [unfold tabs; by rewrite (id_used _ _ D j Hj)|apply (id_free _ _ D j Hj)]. }
  assert (forall j, alive s j -> used s j) as Hau by (intros j [? _]; done).
  split.
  - done.
  - split.
    + intros j Hj. destruct (decide (used s j)) as [Hu'|Hn']; [destruct (slots_used s A j (pi_slots _ _ I) Hu'); congruence|].
      destruct (id_free _ _ D j Hn') as (G1 & G2 & G3 & G4 & _). split_and!; try done. by apply not_used.
    + intros j Hj. destruct (sl_used _ _ (pi_slots _ _ I) j Hj) as [H1 H2]. split; [done|]. by apply (Hu j).
  - rewrite (id_rest _ _ D). eapply law_files_ext; [|apply (pi_files _ _ I)]. done.
  - intros j Hj. rewrite Ht. apply (pi_closed _ _ I). by rewrite <- Ha.
  - intros j fd f Hf. apply (pi_fds _ _ I j fd f). pose proof (Ht j) as E. unfold tabs in E. injection E as E1 _. by rewrite <- E1.
  - intros j Hj. rewrite Ha in Hj. rewrite (id_used _ _ D j) by auto. by apply (pi_cwd _ _ I).
  - intros j Hj. rewrite Hu in Hj. rewrite (id_used _ _ D j Hj). pose proof (pi_pid _ _ I j Hj). lia.
  - intros j j' Hj Hj'. rewrite Hu in Hj, Hj'. rewrite (id_used _ _ D j Hj), (id_used _ _ D j' Hj'). by apply (pi_pids _ _ I).
  - pose proof (pi_next _ _ I). lia.
  - destruct (pi_init _ _ I) as (ip & E & Hip). exists ip. rewrite (id_init _ _ D), Ha. done.
  - intros j Hj Hne. rewrite Hu in Hj. rewrite (id_init _ _ D) in Hne. destruct (pi_parent _ _ I j Hj Hne) as (q & H1 & H2 & H3). exists q.
    rewrite (id_used _ _ D j Hj), Ha, (id_used _ _ D q) by auto. done.
  - intros j Hj. rewrite Hu, (id_init _ _ D) in Hj. pose proof (pi_root _ _ I j Hj) as E. destruct (decide (used s j)) as [Hj'|Hj']; [by rewrite (id_used _ _ D j Hj')|].
    destruct (id_free _ _ D j Hj') as (_ & _ & _ & _ & _ & [->|]); done.
Qed.

Lemma inv_fork s s' A p np pages pages' : proc_inv s A -> nextpid s < 2 ^ 31 - 1 -> alive s p -> 0 <= np < NPROC -> forked s s' A p np pages pages' ->
  files_ok (rest s') (tabs s') -> pmem K s' (<[np := pages']> A) -> proc_inv s' (<[np := pages']> A).
Proof.
  intros I Hb Hp Hr F Hf Hm. pose proof (fk_others _ _ _ _ _ _ _ F) as Ho. pose proof (fk_child _ _ _ _ _ _ _ F) as Ec. pose proof (fk_next _ _ _ _ _ _ _ F) as En.
  pose proof (fk_init _ _ _ _ _ _ _ F) as Ei. pose proof (pi_next _ _ I) as Hpos. rewrite i32_small in En by lia.
  assert (~ used s np) as Hun by (unfold used; rewrite (fk_unused _ _ _ _ _ _ _ F); tauto).
  assert (alive s' np) as Hnp by (split; by rewrite Ec).
  assert (forall j, used s j -> j <> np /\ getp s' j = getp s j) as Hu by (intros j Hj; assert (j <> np) by (intros ->; done); auto).
  assert (forall j, alive s j -> j <> np /\ alive s' j /\ getp s' j = getp s j) as Ha.
  { intros j [H1 H2]. destruct (Hu j H1) as [H3 H4]. split_and!; try done. unfold alive. by rewrite H4. }
  destruct (Ha p Hp) as (Hpn & Hp' & Ep).
  assert (forall j, used s' j -> j = np \/ used s j) as Hu' by (intros j Hj; destruct (decide (j = np)) as [->|Hj']; [by left|right]; unfold used in *; by rewrite <- Ho).
  assert (forall j, j <> np -> alive s' j -> alive s j) as Ha' by (intros j Hj [H1 H2]; rewrite Ho in H1, H2 by done; done).
  split.
  - done.
  - split.
    + intros j [Hj Hne]%lookup_insert_None. rewrite Ho by done. by apply (pi_slots _ _ I).
    + intros j Hj. destruct (decide (j = np)) as [->|Hne]; [split; [done|apply Hnp]|]. rewrite lookup_insert_ne in Hj by done. rewrite Ho by done. by apply (pi_slots _ _ I).
  - done.
  - intros j Hj. destruct (decide (j = np)) as [->|Hne]; [done|]. unfold tabs. rewrite Ho by done. apply (pi_closed _ _ I). intros H. by apply Hj, Ha.
  - intros j fd f. destruct (decide (j = np)) as [->|Hne]; [rewrite Ec; apply (pi_fds _ _ I p)|rewrite Ho by done; apply (pi_fds _ _ I)].
  - intros j Hj. destruct (decide (j = np)) as [->|Hne]; [rewrite Ec; by apply (pi_cwd _ _ I)|]. rewrite Ho by done. by apply (pi_cwd _ _ I), Ha'.
  - intros j Hj. destruct (Hu' j Hj) as [->|Hj']; [rewrite Ec; cbn; lia|]. destruct (Hu j Hj') as [_ ->]. pose proof (pi_pid _ _ I j Hj'). lia.
  - intros j j' Hj Hj'. destruct (Hu' j Hj) as [->|Gj], (Hu' j' Hj') as [->|Gj']; [done|..].
    + destruct (Hu j' Gj') as [_ ->]. rewrite Ec. cbn. pose proof (pi_pid _ _ I j' Gj'). lia.
    + destruct (Hu j Gj) as [_ ->]. rewrite Ec. cbn. pose proof (pi_pid _ _ I j Gj). lia.
    + destruct (Hu j Gj) as [_ ->], (Hu j' Gj') as [_ ->]. by apply (pi_pids _ _ I).
  - lia.
  - destruct (pi_init _ _ I) as (ip & E & Hip). exists ip. split; [congruence|]. by apply Ha.
  - intros j Hj Hne. destruct (Hu' j Hj) as [->|Gj].
    + exists p. rewrite Ep, Ec. split_and!; [done|done|]. cbn. apply (pi_pid _ _ I p), Hp.
    + rewrite Ei in Hne. destruct (pi_parent _ _ I j Gj Hne) as (q & H1 & H2 & H3). destruct (Hu j Gj) as [_ ->], (Ha q H2) as (_ & H4 & E4). exists q. by rewrite E4.
  - intros j Hj. destruct (decide (j = np)) as [->|Hne].
    + exfalso. destruct Hj as [Hj|Hj]; [by apply Hj, Hnp|]. rewrite Ei in Hj. destruct (pi_init _ _ I) as (ip & E & Hip). rewrite Hj in E. injection E as <-. by apply Hun, Hip.
    + rewrite Ho by done. apply (pi_root _ _ I). rewrite Ei in Hj. unfold used in *. by rewrite Ho in Hj.
Qed.
Lemma pmem_byte s A s' q o : pmem K s A -> stays pool (users s A ++ K) (km s) (km s') -> q ∈ users s A -> 0 <= o < 4096 -> rd (ram (km s')) (q + o) = rd (ram (km s)) (q + o).
Proof using kend_kern pool_nodup pool_pages.
  clear tramp_ok. intros [R Hp] Hs Hq Ho. eapply (stays_page kend pool kend_kern pool_nodup pool_pages); [apply Hp|done|set_solver|done].
Qed.
Lemma users_page s A i pages q f j : A !! i = Some pages -> pages !! j = Some (q, f) -> q ∈ users s A.
Proof.
  intros HA Hj. rewrite (users_delete s A i pages HA). right. apply elem_of_app. left. apply list_elem_of_fmap. exists (q, f). split; [done|]. by eapply list_elem_of_lookup_2.
Qed.
Lemma users_frame s A i : is_Some (A !! i) -> p_trapframe (getp s i) ∈ users s A.
Proof. intros [pages HA]. rewrite (users_delete s A i pages HA). left. Qed.

(** What fork does to memory: the child's pages and trap frame. *)
Lemma fork_memory s s1 A p np pages pages' m (s2 := upd_proc np (set_sz (p_sz (getp s1 p))) (with_km m s1)) (tf := p_trapframe (getp s p)) (tf' := p_trapframe (getp s1 np))
    (m' := Kmem (store64 (memmove (ram m) tf' tf TF_SIZE) (tf' + tf_a0) 0) (freelist m)) :
  pmem K s A -> A !! p = Some pages -> A !! np = None -> (forall j, j <> np -> getp s1 j = getp s j) ->
  stays pool (users s A ++ K) (km s) (km s1) -> stays pool (users s A ++ K) (km s1) m -> same_image (ram (km s1)) (ram m) pages pages' ->
  pmem K s2 (<[np := pages']> A) ->
  same_image (ram (km s)) (ram m') pages pages' /\ frame_copy (ram (km s)) (ram m') tf tf' /\ stays pool (users s A ++ K) (km s) m' /\ pmem K (with_km m' s2) (<[np := pages']> A).
Proof using kend_kern pool_nodup pool_pages tramp_ok.
  intros Hp HA HAn Ho Hs1 Hs2 [Hi1 Hi2] Hp2. destruct (frame_store (ram m) tf tf') as [Hop Hfc]. change (store64 _ _ _) with (ram m') in Hop, Hfc.
  assert (users s2 (<[np := pages']> A) ≡ₚ tf' :: pages'.*1 ++ users s A) as HU.
  { rewrite (users_insert s2 A np pages' HAn). unfold s2. rewrite getp_upd_eq. cbn. erewrite (users_ext s); [done|]. intros j [y Hj].
    assert (j <> np) by congruence. rewrite getp_upd_ne, getp_km, Ho by done. done. }
  pose proof (pmem_nodup _ _ _ _ kend_kern pool_nodup pool_pages K s2 _ Hp2) as Hnd. rewrite HU in Hnd. cbn in Hnd. apply NoDup_cons in Hnd as [Hn1 _].
  assert (forall q, q ∈ tf' :: pages'.*1 ++ users s A -> q ∈ pool /\ page kend q) as Hpg.
  { intros q Hq. eapply (pmem_page _ _ _ _ kend_kern pool_nodup pool_pages K s2); [exact Hp2|]. rewrite HU. set_solver. }
  destruct (Hpg tf') as [Htp Htf]; [left|].
  assert (forall q o, q ∈ users s A -> 0 <= o < 4096 -> rd (ram m) (q + o) = rd (ram (km s)) (q + o)) as Hold.
  { intros q o Hq Hoo. apply (pmem_byte s A (with_km m s) q o Hp); [|done|done]. eapply stays_trans; [exact Hs1|exact Hs2]. }
  split_and!.
  - split; [done|]. intros j [q f] [q' f'] o Hj Hj' Hoo. cbn [fst].
    assert (q' ∈ pages'.*1) as Hq' by (apply list_elem_of_fmap; exists (q', f'); split; [done|by eapply list_elem_of_lookup_2]).
    destruct (Hpg q') as [_ Hq'p]; [set_solver|]. assert (rd (ram m') (q' + o) = rd (ram m) (q' + o)) as ->.
    { apply Hop. assert (q' <> tf') by set_solver. destruct (page_disjoint kend q' tf'); [done..|lia|lia]. }
    etrans; [exact (Hi2 j (q, f) (q', f') o Hj Hj' Hoo)|]. cbn [fst]. apply (pmem_byte s A s1 q o); [done|done|by eapply users_page|done].
  - intros o H1 H2 H3. rewrite Hfc by done. destruct (o =? tf_a0); [done|]. apply load64_shift. intros o' Ho'. unfold TF_SIZE in *. rewrite <- Z.add_assoc.
    apply Hold; [by apply users_frame; eexists|lia].
  - eapply stays_trans; [exact Hs1|]. eapply stays_trans; [exact Hs2|]. intros x Hx. apply Hop. apply (Hx tf'); [done|set_solver].
  - apply (pmem_write kend trampoline pool R0 kend_kern pool_nodup pool_pages K s2 _ tf'); [done|rewrite HU; set_solver|exact Hop].
Qed.

(** The second half of fork: files, directory, name and state. *)
Lemma fork_files s p np x : p <> np -> 0 <= np < NPROC -> files_ok (rest s) (tabs s) -> tabs s np = (∅, None) -> tabs s p = (p_ofile x, p_cwd x) ->
  (forall fd f, p_ofile x !! fd = Some f -> 0 <= fd < NOFILE) -> is_Some (p_cwd x) ->
  wp (dup_files p np (seqZ 0 NOFILE) ;;
      cwd ← nonnull (p_cwd x);
      ip ← onrest (pf_idup cwd);
      updp np (set_cwd (Some ip)) ;;
      updp np (set_name (copy_name (p_name x))) ;;
      pid ← gets (fun s => p_pid (getp s np));
      updp np (set_state RUNNABLE) ;;
      release (proc_lock np) ;;
      mret pid) (KSt [proc_lock np] s)
    (fun r k => held k = [] /\ r = p_pid (getp s np) /\ near np s (st k) /\ files_ok (rest (st k)) (tabs (st k)) /\
       getp (st k) np = set_state RUNNABLE (set_name (copy_name (p_name x)) (set_cwd (p_cwd x) (set_ofile (p_ofile x) (getp s np))))).
Proof using.
  clear kend_kern pool_nodup pool_pages tramp_ok. intros Hne Hr Hf Enp Ep Hfd [c Ecwd]. unfold tabs in Enp, Ep. injection Enp as Eo Ec. injection Ep as Epo Epc.
  wstep. eapply wp_mono; [apply (dup_files_spec p np (seqZ 0 NOFILE) Hne Hr (NoDup_seqZ _ _) ltac:(intros fd ?%elem_of_seqZ; lia) s Hf)|].
  { intros fd _. by rewrite Eo. }
  intros _ [h s1] (Eh & N1 & Hf1 & O & E1 & HO). cbn [held st] in *. subst h.
  assert (O = p_ofile x) as ->.
  { apply map_eq. intros fd. rewrite HO, Epo, Eo. destruct (decide (fd ∈ seqZ 0 NOFILE)) as [|Hn]; [done|]. rewrite lookup_empty.
    destruct (p_ofile x !! fd) as [f|] eqn:E; [|done]. destruct Hn. apply elem_of_seqZ. pose proof (Hfd fd f E). lia. }
  wstep. rewrite Ecwd. cbn [nonnull]. wstep. wstep. apply wp_onrest.
  eapply wp_mono; [apply (law_idup (rest s1) (tabs s1) p np c np Hf1 Hr)|].
  { unfold tabs. cbn. rewrite (nr_procs _ _ _ N1 p Hne). congruence. }
  { unfold tabs. cbn. by rewrite E1. }
  intros ip [h t] (-> & Eh & Hf2). cbn [held st] in *. subst h. unfold updp. wstep. wstep. wstep. wstep. wstep. wstep. wstep. wstep. wstep. wstep.
  split_and!; [done| | | |].
  - rewrite !getp_upd_eq, getp_rest, E1. done.
  - eapply near_trans; [exact N1|]. repeat (eapply near_trans; [|apply near_upd]). apply near_rest.
  - apply files_keep; [done..|]. apply files_keep; [done..|]. eapply law_files_ext; [|exact Hf2]. intros q. rewrite tabs_upd. unfold set_dir, fupd, tabs. cbn.
    destruct (decide (q = np)) as [->|]; [by rewrite Z.eqb_refl|]. destruct (Z.eqb_spec q np); done.
  - cbn [st]. rewrite !getp_upd_eq, getp_rest, E1. done.
Qed.

Lemma fork_spec s A p pages : proc_inv s A -> nextpid s < 2 ^ 31 - 1 -> cur s = Some p -> alive s p -> A !! p = Some pages ->
  wp (fork kend trampoline forkret_at) (KSt [] s) (fun r k => held k = [] /\
    ((r = -1 /\ idle s (st k) /\ stays pool (users s A ++ K) (km s) (km (st k)) /\ proc_inv (st k) A) \/
     exists np pages', r = nextpid s /\ A !! np = None /\ forked s (st k) A p np pages pages' /\ proc_inv (st k) (<[np := pages']> A))).
Proof using kend_kern pool_nodup pool_pages tramp_ok.
  intros I Hb Hc Hal HA. pose proof (pi_mem _ _ I) as Hp. pose proof (pi_slots _ _ I) as Hsl.
  unfold fork, myproc. wstep. wstep. wstep. rewrite Hc. cbn [nonnull]. wstep. wstep.
  eapply wp_mono; [apply (allocproc_spec kend trampoline forkret_at pool R0 kend_kern pool_nodup pool_pages tramp_ok K s A Hp Hsl)|].
  intros [np|] [h s1] [Hs1 Hpost]; cbn [held st] in *; cycle 1.
  { destruct Hpost as (-> & Hno & Hp1). wstep. split; [done|]. left. pose proof (no_proc_idle s s1 A Hsl Hno). split_and!; try done. by eapply inv_idle. }
  destruct Hpost as (-> & HAn & N & Hp1). destruct N as [No Nr Nu Nn Ec]. assert (p <> np) as Hne by congruence.
  set (pt' := p_pagetable (getp s1 np)) in *. set (tf' := p_trapframe (getp s1 np)) in *.
  pose proof (ot_procs _ _ _ No p Hne) as Ep. wstep. wstep. wstep. wstep. wstep.
  eapply wp_mono; [apply (uvmcopy_pmem kend trampoline pool R0 kend_kern pool_nodup pool_pages tramp_ok [proc_lock np] K s1 (<[np := []]> A) p np pages); [set_solver|done|done|by rewrite lookup_insert_ne|by apply lookup_insert_eq]|].
  intros r [h s2] (Eh & m & Es & Hs2 & Hcase). cbn [held st] in *. subst h s2.
  assert (users s1 (<[np := []]> A) ≡ₚ tf' :: users s A) as HU1.
  { rewrite (users_insert s1 A np [] HAn). cbn. erewrite (users_ext s); [done|]. intros j [y Hj]. rewrite (ot_procs _ _ _ No) by congruence. done. }
  assert (stays pool (users s A ++ K) (km s1) m) as Hs2' by (eapply stays_sub; [|exact Hs2]; intros q _ Hq; rewrite HU1; set_solver).
  destruct Hcase as [[-> Hp2]|(-> & pages' & Him & Hp2)].
  - change (-1 <? 0) with true. cbv iota. wstep.
    eapply wp_mono; [apply (freeproc_spec kend trampoline pool R0 kend_kern pool_nodup pool_pages tramp_ok [proc_lock np] K (with_km m s1) (<[np := []]> A) np []); [set_solver|done|apply lookup_insert_eq]|].
    intros _ [h s3] (Eh & Ho3 & En3 & E3 & Hp3 & Hs3). cbn [held st] in *. subst h. rewrite delete_insert_id in Hp3, Hs3 by done. wstep. wstep. wstep. split; [done|]. left.
    assert (others np s s3) as Ho by (eapply others_trans; [exact No|]; eapply others_trans; [apply others_km|exact Ho3]).
    assert (idle s s3) as D.
    { eapply idle_slot; [done|exact Ho|right; rewrite En3; exact Nn|..]; unfold used; rewrite ?E3; try done; [tauto|..].
      - cbn. tauto.
      - rewrite getp_km, Ec. done.
      - rewrite getp_km, Ec. done.
      - by right. }
    split_and!; [done|done| |by eapply inv_idle].
    eapply stays_trans; [exact Hs1|]. eapply stays_trans; [exact Hs2'|]. rewrite (users_ext s) in Hs3; [done|]. intros j [y Hj]. rewrite getp_km, (ot_procs _ _ _ No) by congruence. done.
  - change (0 <? 0) with false. cbv iota. rewrite insert_insert_eq in Hp2.
    destruct (fork_memory s s1 A p np pages pages' m Hp HA HAn (ot_procs _ _ _ No) Hs1 Hs2' Him Hp2) as (Fi & Ff & Fs & Fp). fold tf' in Fi, Ff, Fs, Fp.
    rewrite Ep in *. unfold updp. wstep. wstep. wstep. wstep. wstep. apply wp_onkm. unfold on_ram. wstep. wstep. apply wp_onkm. unfold sd. wstep. cbn [held st].
    match goal with |- wp _ (KSt _ ?s5') _ => set (s5 := s5') end.
    assert (getp s5 np = set_parent (Some p) (set_sz (p_sz (getp s p)) (getp s1 np))) as E5.
    { unfold s5. rewrite !getp_km, !getp_upd_eq, getp_km. done. }
    assert (forall j, j <> np -> getp s5 j = getp s j) as Ho5.
    { intros j Hj. unfold s5. rewrite !getp_km, !getp_upd_ne, getp_km by done. by apply No. }
    assert (tabs s5 np = (∅, None)) as Tn.
    { unfold tabs. rewrite E5, Ec. cbn. change (tabs s np = (∅, None)). apply (pi_closed _ _ I). intros [? _]. done. }
    eapply wp_mono; [apply (fork_files s5 p np (getp s p) Hne Nr)|].
    + eapply law_files_ext; [|unfold s5; cbn; rewrite (ot_rest _ _ _ No); apply (pi_files _ _ I)].
      intros j. destruct (decide (j = np)) as [->|Hj]; [|unfold tabs; by rewrite Ho5]. rewrite Tn. apply (pi_closed _ _ I). intros [? _]. done.
    + done.
    + unfold tabs. by rewrite Ho5.
    + apply (pi_fds _ _ I p).
    + by apply (pi_cwd _ _ I).
    + intros r [h s6] (Eh & -> & N6 & Hf6 & E6). cbn [held st] in *. split; [done|]. right. exists np, pages'.
      assert (forked s s6 A p np pages pages') as F.
      { assert (p_trapframe (getp s6 np) = tf') as Etf by (rewrite E6, E5; done). split.
        - intros j Hj. rewrite (nr_procs _ _ _ N6 j Hj). by apply Ho5.
        - rewrite (nr_cur _ _ _ N6). apply No.
        - rewrite (nr_init _ _ _ N6). apply No.
        - rewrite (nr_next _ _ _ N6). done.
        - done.
        - rewrite E6, E5, Ec. done.
        - rewrite (nr_km _ _ _ N6). exact Fi.
        - rewrite (nr_km _ _ _ N6), Etf. exact Ff.
        - rewrite (nr_km _ _ _ N6). exact Fs. }
      split_and!; [rewrite E5, Ec; done|done|done|]. eapply inv_fork; try done.
      eapply (pmem_same _ _ _ _ K); [|exact (nr_km _ _ _ N6)|].
      2: { eapply (pmem_same _ _ _ _ K); [| |exact Fp]; [|done]. intros j Hj. unfold s5. rewrite !getp_km.
           destruct (decide (j = np)) as [->|]; [rewrite !getp_upd_eq; done|rewrite !getp_upd_ne by done; done]. }
      intros j Hj. destruct (decide (j = np)) as [->|Hn]; [rewrite E6; done|by rewrite (nr_procs _ _ _ N6 j Hn)].
Qed.
End ProcThms.
