(* ===== verification/ProcExit.v ===== *)
(** * kill, wait and exit

    How the operations of proc.c that end processes change the table, and that they keep its
    invariant: wait frees everything a zombie child owns, exit closes files, hands children to
    init and wakes the parent. *)
From S2P Require Import Prelude Mem Riscv Kalloc Vm VmTree VmSpec VmAlloc VmFree VmPool Proc ProcMem ProcInv ProcOps ProcFork ProcCopy ProcThms.

(** [m] run from [k] gets to the point where only [m'] is left to run, in a state with [Q]. *)
Definition reaches {S A} (m : M S A) (k : kst S) (m' : M S A) (Q : kst S -> Prop) : Prop := exists k', m k = m' k' /\ Q k'.
Lemma reaches_bind {S A B} (m : M S A) (f : A -> M S B) k m' (Q : kst S -> Prop) :
  wp m k (fun a k' => reaches (f a) k' m' Q) -> reaches (m ≫= f) k m' Q.
Proof. unfold wp, reaches, mbind, M_bind. by destruct (m k). Qed.
Lemma reaches_app {S A B} (m : M S A) (f : A -> M S B) k m' (Q : kst S -> Prop) : reaches m k m' Q -> reaches (m ≫= f) k (m' ≫= f) Q.
Proof. intros (k' & E & HQ). exists k'. unfold mbind, M_bind. by rewrite E. Qed.
Lemma reaches_here {S A} (m : M S A) k (Q : kst S -> Prop) : Q k -> reaches m k m Q.
Proof. by exists k. Qed.
Ltac rstep := apply reaches_bind.

Lemma wp_release_any {S} l h (s : S) (Q : unit -> kst S -> Prop) : l ∈ h -> Q tt (KSt (filter (fun x => x <> l) h) s) -> wp (release l) (KSt h s) Q.
Proof. intros Hl HQ. unfold wp, release. cbn [held st]. by rewrite bool_decide_eq_true_2. Qed.

Section ProcExit.
Context {T : Type} `{!ProcFiles T, !ProcFilesLaws T}.
Variables (kend trampoline forkret_at : Z) (pool : list Z) (R0 : spaces) (K : list Z).
Hypothesis kend_kern : KERNBASE <= kend.
Hypothesis pool_nodup : NoDup pool.
Hypothesis pool_pages : Forall (page kend) pool.
Hypothesis tramp_ok : trampoline mod 4096 = 0 /\ 0 <= trampoline /\ trampoline + 4096 <= 2 ^ 56.

Abbreviation kern := (@kern T).
Abbreviation pmem := (pmem kend trampoline pool R0).
Abbreviation proc_inv := (proc_inv kend trampoline pool R0 K).
Implicit Types (s : kern) (A : aspaces) (i p np : Z).

(** ** Changes the invariant does not see *)

Record same_proc (x y : proc) : Prop := {
  sm_unused : p_state y = UNUSED <-> p_state x = UNUSED;
  sm_zombie : p_state y = ZOMBIE <-> p_state x = ZOMBIE;
  sm_tf : p_trapframe y = p_trapframe x;
  sm_pt : p_pagetable y = p_pagetable x;
  sm_sz : p_sz y = p_sz x;
  sm_ofile : p_ofile y = p_ofile x;
  sm_cwd : p_cwd y = p_cwd x;
  sm_pid : p_pid y = p_pid x;
  sm_parent : p_parent y = p_parent x;
}.
Lemma same_proc_refl x : same_proc x x.
Proof using.
  clear kend_kern pool_nodup pool_pages tramp_ok. by split. Qed.
Lemma same_proc_trans x y z : same_proc x y -> same_proc y z -> same_proc x z.
Proof using.
  clear kend_kern pool_nodup pool_pages tramp_ok. intros [] []. split; (by etrans) || congruence. Qed.
Lemma inv_same s s' A : proc_inv s A -> (forall j, same_proc (getp s j) (getp s' j)) -> pmem K s' A ->
  nextpid s' = nextpid s -> initproc s' = initproc s -> rest s' = rest s -> proc_inv s' A.
Proof using.
  clear kend_kern pool_nodup pool_pages tramp_ok.   intros I E Hp En Ei Er. assert (forall j, used s' j <-> used s j) as Hu by (intros j; unfold used; by rewrite (sm_unused _ _ (E j))).
  assert (forall j, alive s' j <-> alive s j) as Ha by (intros j; unfold alive; by rewrite (sm_unused _ _ (E j)), (sm_zombie _ _ (E j))).
  assert (forall j, tabs s' j = tabs s j) as Ht by (intros j; unfold tabs; by rewrite (sm_ofile _ _ (E j)), (sm_cwd _ _ (E j))).
  split.
  - done.
  - split; intros j Hj.
    + rewrite (sm_unused _ _ (E j)), (sm_pt _ _ (E j)), (sm_tf _ _ (E j)), (sm_sz _ _ (E j)). by apply (pi_slots _ _ _ _ _ _ _ I).
    + rewrite (sm_unused _ _ (E j)). by apply (pi_slots _ _ _ _ _ _ _ I).
  - rewrite Er. eapply law_files_ext; [|apply (pi_files _ _ _ _ _ _ _ I)]. done.
  - intros j Hj. rewrite Ht. apply (pi_closed _ _ _ _ _ _ _ I). by rewrite <- Ha.
  - intros j fd f. rewrite (sm_ofile _ _ (E j)). apply (pi_fds _ _ _ _ _ _ _ I).
  - intros j Hj. rewrite (sm_cwd _ _ (E j)). apply (pi_cwd _ _ _ _ _ _ _ I). by rewrite <- Ha.
  - intros j Hj. rewrite (sm_pid _ _ (E j)), En. apply (pi_pid _ _ _ _ _ _ _ I). by rewrite <- Hu.
  - intros j j' Hj Hj'. rewrite (sm_pid _ _ (E j)), (sm_pid _ _ (E j')). apply (pi_pids _ _ _ _ _ _ _ I); by rewrite <- Hu.
  - rewrite En. apply (pi_next _ _ _ _ _ _ _ I).
  - destruct (pi_init _ _ _ _ _ _ _ I) as (ip & H1 & H2). exists ip. by rewrite Ei, Ha.
  - intros j Hj Hne. rewrite Ei in Hne. rewrite Hu in Hj. destruct (pi_parent _ _ _ _ _ _ _ I j Hj Hne) as (q & H1 & H2 & H3). exists q.
    by rewrite Ha, (sm_parent _ _ (E j)), (sm_pid _ _ (E j)), (sm_pid _ _ (E q)).
  - intros j Hj. rewrite (sm_parent _ _ (E j)). apply (pi_root _ _ _ _ _ _ _ I). by rewrite <- Hu, <- Ei.
Qed.
(** New memory, size or name of process [p], or another state of the file layer. *)
Lemma inv_image s s' A p pages' : proc_inv s A -> (forall j, j <> p -> getp s' j = getp s j) -> is_Some (A !! p) ->
  (forall x, x = getp s p -> p_state (getp s' p) = p_state x /\ p_pid (getp s' p) = p_pid x /\ p_parent (getp s' p) = p_parent x /\ p_cwd (getp s' p) = p_cwd x /\ p_ofile (getp s' p) = p_ofile x) ->
  nextpid s' = nextpid s -> initproc s' = initproc s -> files_ok (rest s') (tabs s) -> pmem K s' (<[p := pages']> A) -> proc_inv s' (<[p := pages']> A).
Proof using.
  clear kend_kern pool_nodup pool_pages tramp_ok. intros I Ho HA Ep En Ei Hf Hp.
  assert (forall j, p_state (getp s' j) = p_state (getp s j) /\ p_pid (getp s' j) = p_pid (getp s j) /\ p_parent (getp s' j) = p_parent (getp s j) /\ p_cwd (getp s' j) = p_cwd (getp s j) /\ p_ofile (getp s' j) = p_ofile (getp s j)) as F.
  { intros j. destruct (decide (j = p)) as [->|Hj]; [by apply Ep|by rewrite Ho]. }
  assert (forall j, alive s' j <-> alive s j) as Ha by (intros j; unfold alive; destruct (F j) as (-> & _); done).
  split.
  - done.
  - split; intros j Hj.
    + apply lookup_insert_None in Hj as [Hj Hne]. rewrite Ho by done. by apply (pi_slots _ _ _ _ _ _ _ I).
    + destruct (F j) as (-> & _). apply (pi_slots _ _ _ _ _ _ _ I). apply lookup_insert_is_Some in Hj as [<-|[_ ?]]; done.
  - eapply law_files_ext; [|exact Hf]. intros j. unfold tabs. destruct (F j) as (_ & _ & _ & -> & ->). done.
  - intros j Hj. unfold tabs. destruct (F j) as (_ & _ & _ & -> & ->). apply (pi_closed _ _ _ _ _ _ _ I). by rewrite <- Ha.
  - intros j. destruct (F j) as (_ & _ & _ & _ & ->). apply (pi_fds _ _ _ _ _ _ _ I).
  - intros j Hj. destruct (F j) as (_ & _ & _ & -> & _). apply (pi_cwd _ _ _ _ _ _ _ I). by rewrite <- Ha.
  - intros j. unfold used. destruct (F j) as (-> & -> & _). rewrite En. apply (pi_pid _ _ _ _ _ _ _ I).
  - intros j j'. unfold used. destruct (F j) as (-> & -> & _), (F j') as (-> & -> & _). apply (pi_pids _ _ _ _ _ _ _ I).
  - rewrite En. apply (pi_next _ _ _ _ _ _ _ I).
  - destruct (pi_init _ _ _ _ _ _ _ I) as (ip & H1 & H2). exists ip. by rewrite Ei, Ha.
  - intros j. unfold used. destruct (F j) as (-> & -> & -> & _). intros Hj Hne. rewrite Ei in Hne. destruct (pi_parent _ _ _ _ _ _ _ I j Hj Hne) as (q & H1 & H2 & H3).
    exists q. destruct (F q) as (_ & -> & _). by rewrite Ha.
  - intros j. unfold used. destruct (F j) as (-> & _ & -> & _). rewrite Ei. apply (pi_root _ _ _ _ _ _ _ I).
Qed.
(** A change of one slot. *)
Lemma inv_upd s A i f : proc_inv s A -> same_proc (getp s i) (f (getp s i)) -> proc_inv (upd_proc i f s) A.
Proof using.
  clear kend_kern pool_nodup pool_pages tramp_ok.   intros I E. eapply inv_same; try done.
  - intros j. destruct (decide (j = i)) as [->|]; [by rewrite getp_upd_eq|rewrite getp_upd_ne by done; apply same_proc_refl].
  - apply pmem_upd; [|apply I]. intros _. split_and!; apply E.
Qed.
Lemma inv_km s A m : proc_inv s A -> pmem K (with_km m s) A -> proc_inv (with_km m s) A.
Proof using.
  clear kend_kern pool_nodup pool_pages tramp_ok. intros I Hp. by eapply inv_same. Qed.

(** init has the smallest pid. *)
Lemma init_least s A ip : proc_inv s A -> initproc s = Some ip -> forall i, used s i -> i <> ip -> p_pid (getp s ip) < p_pid (getp s i).
Proof using.
  clear kend_kern pool_nodup pool_pages tramp_ok.   intros I Hip. assert (forall n : nat, forall i, p_pid (getp s i) <= Z.of_nat n -> used s i -> i <> ip -> p_pid (getp s ip) < p_pid (getp s i)) as H.
  { induction n as [|n IH]; intros i Hn Hu Hne; [pose proof (pi_pid _ _ _ _ _ _ _ I i Hu); lia|].
    destruct (pi_parent _ _ _ _ _ _ _ I i Hu) as (q & H1 & H2 & H3); [congruence|]. destruct (decide (q = ip)) as [->|Hq]; [done|].
    assert (p_pid (getp s ip) < p_pid (getp s q)); [|lia]. apply IH; [lia|apply H2|done]. }
  intros i Hu. pose proof (pi_pid _ _ _ _ _ _ _ I i Hu). apply (H (Z.to_nat (p_pid (getp s i)))); [lia|done].
Qed.

(** ** kill *)

Lemma kill_loop_spec pid s A l : proc_inv s A -> wp (kill_loop pid l) (KSt [] s) (fun r k => held k = [] /\ proc_inv (st k) A /\
  match find (fun p => p_pid (getp s p) =? pid) l with
  | None => r = -1 /\ st k = s
  | Some p => r = 0 /\ st k = upd_proc p (fun x => set_killed 1 (set_state (if bool_decide (p_state x = SLEEPING) then RUNNABLE else p_state x) x)) s
  end).
Proof using.
  clear kend_kern pool_nodup pool_pages tramp_ok. intros I. induction l as [|p l IH]; cbn [kill_loop find]; [by wstep|].
  wstep. wstep. wstep. wstep. destruct (Z.eqb_spec (p_pid (getp s p)) pid) as [E|].
  - wstep. unfold updp. wstep. wstep. set (f := fun x => set_killed 1 _).
    assert (forall s', s' = upd_proc p f s -> proc_inv s' A) as Hinv.
    { intros s' ->. apply inv_upd; [done|]. unfold f. case_bool_decide as Es; split; cbn; rewrite ?Es; done. }
    case_bool_decide as Es.
    + wstep. wstep. wstep. wstep. match goal with |- _ /\ _ /\ _ /\ ?s1 = _ => assert (s1 = upd_proc p f s) as E1 end.
      { unfold upd_proc, with_procs. cbn. rewrite insert_insert_eq. unfold getp. cbn. rewrite lookup_insert_eq. cbn. f_equal. f_equal. unfold f. fold (getp s p). rewrite bool_decide_eq_true_2 by done. done. }
      rewrite E1. split_and!; try done. by apply Hinv.
    + wstep. wstep. wstep. wstep. match goal with |- _ /\ _ /\ _ /\ ?s1 = _ => assert (s1 = upd_proc p f s) as E1 end.
      { unfold upd_proc, with_procs. f_equal. f_equal. unfold f. rewrite bool_decide_eq_false_2 by done. by destruct (getp s p). }
      rewrite E1. split_and!; try done. by apply Hinv.
  - wstep. wstep. apply IH.
Qed.
(** ** wait *)

Lemma inv_reap s s' A np : proc_inv s A -> p_state (getp s np) = ZOMBIE -> (forall j, j <> np -> getp s' j = getp s j) -> getp s' np = reset (getp s np) ->
  nextpid s' = nextpid s -> initproc s' = initproc s -> rest s' = rest s -> pmem K s' (delete np A) -> proc_inv s' (delete np A).
Proof using.
  clear kend_kern pool_nodup pool_pages tramp_ok.   intros I Hz Ho Ez En Ei Er Hp. assert (~ alive s np) as Hnp by (intros [_ ?]; done). assert (~ used s' np) as Hun by (unfold used; rewrite Ez; cbn; tauto).
  assert (forall j, used s' j -> j <> np /\ used s j /\ getp s' j = getp s j) as Hu.
  { intros j Hj. assert (j <> np) as Hne by (intros ->; done). unfold used in *. rewrite Ho in Hj by done. auto. }
  assert (forall j, alive s j <-> alive s' j) as Ha.
  { intros j. destruct (decide (j = np)) as [->|Hne]; [|unfold alive; by rewrite Ho]. split; [done|]. intros [? _]. done. }
  assert (forall j, alive s j -> getp s' j = getp s j) as Hal by (intros j Hj; apply Ho; intros ->; done).
  assert (forall j, tabs s' j = tabs s j) as Ht.
  { intros j. unfold tabs. destruct (decide (j = np)) as [->|Hne]; [by rewrite Ez|by rewrite Ho]. }
  split.
  - done.
  - split; intros j Hj.
    + destruct (decide (j = np)) as [->|Hne]; [rewrite Ez; done|]. rewrite lookup_delete_ne in Hj by done. rewrite Ho by done. by apply (pi_slots _ _ _ _ _ _ _ I).
    + destruct Hj as [y [Hne Hj]%lookup_delete_Some]. rewrite Ho by done. apply (pi_slots _ _ _ _ _ _ _ I). eauto.
  - rewrite Er. eapply law_files_ext; [|apply (pi_files _ _ _ _ _ _ _ I)]. done.
  - intros j Hj. rewrite Ht. apply (pi_closed _ _ _ _ _ _ _ I). by rewrite Ha.
  - intros j fd f Hf. apply (pi_fds _ _ _ _ _ _ _ I j fd f). pose proof (Ht j) as E. unfold tabs in E. injection E as E1 _. by rewrite <- E1.
  - intros j Hj%Ha. rewrite Hal by done. by apply (pi_cwd _ _ _ _ _ _ _ I).
  - intros j (_ & Hj & ->)%Hu. rewrite En. by apply (pi_pid _ _ _ _ _ _ _ I).
  - intros j j' (_ & Hj & ->)%Hu (_ & Hj' & ->)%Hu. by apply (pi_pids _ _ _ _ _ _ _ I).
  - rewrite En. apply (pi_next _ _ _ _ _ _ _ I).
  - destruct (pi_init _ _ _ _ _ _ _ I) as (ip & H1 & H2). exists ip. by rewrite Ei, <- Ha.
  - intros j (_ & Hj & ->)%Hu Hne. rewrite Ei in Hne. destruct (pi_parent _ _ _ _ _ _ _ I j Hj Hne) as (q & H1 & H2 & H3). exists q. by rewrite <- Ha, (Hal q H2).
  - intros j Hj. destruct (decide (j = np)) as [->|Hne]; [by rewrite Ez|]. rewrite Ho by done. apply (pi_root _ _ _ _ _ _ _ I). rewrite Ei in Hj. unfold used in *. by rewrite Ho in Hj.
Qed.

Definition zombie_child s p np : bool := bool_decide (p_parent (getp s np) = Some p) && bool_decide (p_state (getp s np) = ZOMBIE).
Definition has_child s p np : bool := bool_decide (p_parent (getp s np) = Some p).
(** The bytes of an exit status. *)
Definition status_byte (status i : Z) : Z := u32 status / 256 ^ i mod 256.

Lemma rd_le_store_in n : forall m a v i, 0 <= i < Z.of_nat n -> rd (le_store m a v n) (a + i) = v / 256 ^ i mod 256.
Proof using.
  clear kend_kern pool_nodup pool_pages tramp_ok. induction n as [|n IH]; intros m a v i Hi; [lia|]. cbn [le_store]. destruct (decide (i = 0)) as [->|].
  - rewrite Z.add_0_r, rd_le_store_other, rd_wr_eq by lia. rewrite Z.pow_0_r, Z.div_1_r. apply u8_small. apply Z.mod_pos_bound. lia.
  - replace (a + i) with (a + 1 + (i - 1)) by lia. rewrite IH by lia. f_equal. rewrite Z.div_div by lia. f_equal. rewrite <- Z.pow_succ_r by lia. f_equal. lia.
Qed.

(** struct proc lies outside the pages kalloc hands out. *)
Variable xstate_at : Z -> Z.
Hypothesis xstate_off : forall np i q, 0 <= i < 4 -> q ∈ pool -> off_page (xstate_at np + i) q.

(** wait has found the zombie [np]: its status goes to [addr], unless that is null or not
    mapped; then everything it owned is free. *)
Record reaped s s' A p np addr pages : Prop := {
  rp_others : forall j, j <> np -> getp s' j = getp s j;
  rp_slot : getp s' np = reset (getp s np);
  rp_cur : cur s' = cur s;
  rp_rest : rest s' = rest s;
  rp_inv : proc_inv s' (delete np A);
  rp_status : addr <> 0 -> forall i, 0 <= i < 4 -> exists pa, upa pages (addr + i) = Some pa /\ rd (ram (km s')) pa = status_byte (p_xstate (getp s np)) i;
  rp_mem : forall q o, q ∈ users s (delete np A) ++ K -> 0 <= o < 4096 -> (forall i, addr <> 0 -> 0 <= i < 4 -> upa pages (addr + i) <> Some (q + o)) ->
    rd (ram (km s')) (q + o) = rd (ram (km s)) (q + o);
}.
Lemma status_copy h s A p np addr pages : pmem K s A -> A !! p = Some pages -> 0 <= addr ->
  wp (if addr =? 0 then mret 0 else a ← xstate_ptr xstate_at np; onkm (copyout (p_pagetable (getp s p)) addr a 4)) (KSt h s)
    (fun r k => held k = h /\ exists m, st k = with_km m s /\ pmem K (with_km m s) A /\
      ((r = 0 /\ (addr <> 0 -> forall i, 0 <= i < 4 -> exists pa, upa pages (addr + i) = Some pa /\ rd (ram m) pa = status_byte (p_xstate (getp s np)) i)) \/
       (r = -1 /\ addr <> 0 /\ exists i, 0 <= i < 4 /\ upa pages (addr + i) = None)) /\
      (forall q o, q ∈ users s A ++ K -> 0 <= o < 4096 -> (forall i, addr <> 0 -> 0 <= i < 4 -> upa pages (addr + i) <> Some (q + o)) -> rd (ram m) (q + o) = rd (ram (km s)) (q + o))).
Proof using kend_kern pool_nodup pool_pages xstate_off.
  clear tramp_ok. intros Hp HA Ha. destruct (Z.eqb_spec addr 0) as [->|Hne].
  { wstep. split; [done|]. exists (km s). assert (with_km (km s) s = s) as E by by destruct s. rewrite E. split_and!; try done. left. done. }
  unfold xstate_ptr. wstep. wstep. wstep. wstep. apply wp_onkm. unfold on_ram. wstep. wstep. set (m1 := le_store _ _ _ _).
  assert (forall x, (forall i, 0 <= i < 4 -> x <> xstate_at np + i) -> rd m1 x = rd (ram (km s)) x) as Hm1.
  { intros x Hx. apply rd_le_store_other. destruct (decide (x < xstate_at np)); [by left|right]. destruct (decide (xstate_at np + 4 <= x)); [done|]. destruct (Hx (x - xstate_at np)); lia. }
  assert (forall x q, q ∈ pool -> ~ off_page x q -> rd m1 x = rd (ram (km s)) x) as Hpool.
  { intros x q Hq Hx. apply Hm1. intros i Hi ->. apply Hx. by apply xstate_off. }
  set (s1 := with_km (Kmem m1 (freelist (km s))) s).
  assert (pmem K s1 A) as Hp1.
  { destruct Hp as [R Hp]. exists R. eapply (pmem_at_ext _ _ _ _ K s); [done| |exact Hp]. apply (mem_ok_write kend pool kend_kern pool_nodup pool_pages); [apply Hp|].
    intros x (q & Hq & _ & Hx). by apply (Hpool x q). }
  eapply wp_mono; [apply (copyout_pmem kend trampoline pool R0 kend_kern pool_nodup pool_pages h K s1 A p pages addr (xstate_at np) 4 Hp1 HA Ha ltac:(lia))|].
  { intros i q Hi Hq. by apply xstate_off. }
  intros r [h' s2] (Eh & m & n & Es & Hp2 & Hn & -> & Hend & Hin & Hout). cbn [held st] in *. subst h' s2. split; [done|]. exists m. split_and!; [done|done| |].
  - destruct (Z.eqb_spec n 4) as [->|Hn4]; [left|right].
    + split; [done|]. intros _ i Hi. destruct (Hin i Hi) as (pa & E1 & E2). exists pa. split; [done|]. rewrite E2. change (ram (km s1)) with m1. unfold m1, status_byte. apply (rd_le_store_in 4). lia.
    + split_and!; [done|done|]. exists n. split; [lia|]. apply Hend. lia.
  - intros q o Hq Ho Hi. rewrite Hout by (intros i Hin'; apply Hi; [done|lia]). unfold s1. cbn. apply (Hpool _ q).
    + by eapply (pmem_page kend trampoline pool R0 kend_kern pool_nodup pool_pages K s).
    + unfold off_page. lia.
Qed.

Lemma wait_scan_spec s A p addr pages hk l : proc_inv s A -> A !! p = Some pages -> 0 <= addr ->
  wp (wait_scan kend xstate_at p addr hk l) (KSt [proc_lock p] s) (fun r k =>
    match find (zombie_child s p) l with
    | None => r = inr (hk || existsb (has_child s p) l) /\ k = KSt [proc_lock p] s
    | Some np => held k = [] /\
        ((r = inl (p_pid (getp s np)) /\ reaped s (st k) A p np addr pages) \/
         (r = inl (-1) /\ addr <> 0 /\ (exists i, 0 <= i < 4 /\ upa pages (addr + i) = None) /\ exists m, st k = with_km m s /\ proc_inv (st k) A /\
            forall q o, q ∈ users s A ++ K -> 0 <= o < 4096 -> (forall i, addr <> 0 -> 0 <= i < 4 -> upa pages (addr + i) <> Some (q + o)) -> rd (ram m) (q + o) = rd (ram (km s)) (q + o)))
    end).
Proof using kend_kern pool_nodup pool_pages tramp_ok xstate_off.
  intros I HA Ha. revert hk. induction l as [|np l IH]; intros hk; cbn [wait_scan find existsb]; [wstep; by rewrite orb_false_r|].
  wstep. wstep. unfold zombie_child, has_child. case_bool_decide as Epar; cbn [andb orb]; [|apply IH].
  assert (used s np) as Hu.
  { intros Hun. pose proof (pi_root _ _ _ _ _ _ _ I np) as E. rewrite E in Epar; [done|]. left. unfold used. tauto. }
  assert (initproc s <> Some np) as Hni by (intros E; pose proof (pi_root _ _ _ _ _ _ _ I np (or_intror E)); congruence).
  assert (np <> p) as Hne.
  { intros ->. destruct (pi_parent _ _ _ _ _ _ _ I p Hu Hni) as (q & H1 & _ & H3). assert (q = p) as -> by congruence. lia. }
  wstep. wstep.
  wstep. wstep. case_bool_decide as Ez; cbn [andb]; cycle 1.
  { wstep. wstep. rewrite orb_true_r. apply (IH true). }
  wstep. wstep. wstep. eapply wp_mono; [apply (status_copy [proc_lock np; proc_lock p] s A p np addr pages (pi_mem _ _ _ _ _ _ _ I) HA Ha)|].
  intros r [h s1] (Eh & m & Es & Hp1 & Hc & Hmem). cbn [held st] in *. subst h s1.
  assert (proc_lock np ∉ [proc_lock p]) as Hlk by (apply not_elem_of_cons; split; [intros E%proc_lock_inj; done|set_solver]).
  destruct Hc as [[-> Hst]|(-> & Hne0 & Hbad)].
  - change (0 <? 0) with false. cbv iota. destruct (slots_used s A np (pi_slots _ _ _ _ _ _ _ I) Hu) as [zpages HAz]. wstep.
    eapply wp_mono; [apply (freeproc_spec kend trampoline pool R0 kend_kern pool_nodup pool_pages tramp_ok [proc_lock np; proc_lock p] K (with_km m s) A np zpages); [set_solver|done|done]|].
    intros _ [h s2] (Eh & Ho & En & Ez2 & Hp2 & Hs2). cbn [held st] in *. subst h. wstep. wstep. wstep. wstep. wstep. split; [done|left]. split; [done|].
    assert (users (with_km m s) (delete np A) = users s (delete np A)) as EU by (by apply users_ext). rewrite EU in Hs2.
    assert (forall q o, q ∈ users s (delete np A) ++ K -> 0 <= o < 4096 -> rd (ram (km s2)) (q + o) = rd (ram m) (q + o)) as Hb.
    { intros q o Hq Hoo. apply Hs2. intros q' Hq' Hn'. destruct (pmem_page kend trampoline pool R0 kend_kern pool_nodup pool_pages K s2 (delete np A) q Hp2) as [_ Hqp].
      { rewrite (users_drop (with_km m s) s2 A np Ho), EU. done. }
      unfold off_page. rewrite Forall_forall in pool_pages. destruct (page_disjoint kend q q'); [done|by apply pool_pages|intros ->; done|lia|lia]. }
    assert (forall q, q ∈ users s (delete np A) ++ K -> q ∈ users s A ++ K) as Hsub.
    { intros q. rewrite (users_delete s A np zpages HAz). set_solver. }
    split.
    + apply Ho.
    + exact Ez2.
    + apply Ho.
    + apply Ho.
    + apply (inv_reap s s2 A np); try done; apply Ho.
    + intros Hne0 i Hi. destruct (Hst Hne0 i Hi) as (pa & E1 & E2). exists pa. split; [done|]. apply upa_Some in E1 as (q & f & Hq & -> & _). rewrite Hb; [done| |apply Z.mod_pos_bound; lia].
      apply elem_of_app. left. eapply (users_page s (delete np A) p); [by rewrite lookup_delete_ne|exact Hq].
    + intros q o Hq Hoo Hi. rewrite Hb by done. apply Hmem; auto.
  - change (-1 <? 0) with true. cbv iota. wstep. wstep. wstep. wstep. wstep. split; [done|right]. split_and!; [done|done|done|]. exists m. split; [done|]. split; [by apply inv_km|exact Hmem].
Qed.
(** ** Giving up the CPU *)

Variable swtch : M kern unit.

(** sched reaches the context switch: only the lock of the process is held, and it is not
    marked running. *)
Lemma sched_reaches s p Q : cur s = Some p -> p_state (getp s p) <> RUNNING -> Q (KSt [proc_lock p] s) -> reaches (sched swtch) (KSt [proc_lock p] s) swtch Q.
Proof using.
  clear kend_kern pool_nodup pool_pages tramp_ok xstate_off xstate_at. intros Hc Hs HQ. unfold sched, myproc. rstep. wstep. wstep. rewrite Hc. cbn [nonnull]. wstep. rstep. unfold wp, holding. cbn [held st].
  rewrite bool_decide_eq_true_2 by set_solver. cbn [negb]. rstep. unfold wp. cbn [held length Nat.eqb negb]. rstep. wstep. rewrite bool_decide_eq_false_2 by done. by apply reaches_here.
Qed.

(** wait with children but no zombie among them: the process sleeps on its own address, and
    goes through the table again when it is back. *)
Lemma wait_sleeps fuel s A p addr pages : proc_inv s A -> cur s = Some p -> A !! p = Some pages -> 0 <= addr ->
  find (zombie_child s p) (seqZ 0 NPROC) = None -> existsb (has_child s p) (seqZ 0 NPROC) = true -> p_killed (getp s p) = 0 -> alive s p ->
  reaches (wait kend xstate_at swtch fuel addr) (KSt [] s)
    ((swtch ;; updp p (set_chan None) ;; mret tt) ;; match fuel with O => panic no_fuel | S fuel => wait_loop kend xstate_at swtch fuel p addr end)
    (fun k => exists s', k = KSt [proc_lock p] s' /\ s' = upd_proc p (fun x => set_state SLEEPING (set_chan (Some (proc_chan p)) x)) s /\ proc_inv s' A).
Proof using kend_kern pool_nodup pool_pages tramp_ok xstate_off.
  intros I Hc HA Ha Hz Hk Hkill [Hal1 Hal2]. unfold wait, myproc. rstep. wstep. wstep. rewrite Hc. cbn [nonnull]. wstep. rstep. wstep.
  destruct fuel as [|fuel]; cbn [wait_loop]; rstep; (eapply wp_mono; [apply (wait_scan_spec s A p addr pages false _ I HA Ha)|]); rewrite Hz, Hk; intros r k [-> ->]; cbn [orb];
    rstep; wstep; rewrite Hkill; cbn [negb orb Z.eqb]; apply reaches_app; unfold sleep; (rstep; unfold myproc; wstep; wstep; rewrite Hc; cbn [nonnull]; wstep);
    rewrite !bool_decide_eq_true_2 by done; (rstep; wstep; rstep; unfold updp at 1; wstep); apply reaches_app;
    (apply sched_reaches; [done|rewrite getp_upd_eq; done|]); (eexists; split_and!; [done|done|]; apply inv_upd; [done|]; split; cbn; done || tauto).
Qed.

(** ** exit *)

Lemma close_files_spec p l : 0 <= p < NPROC -> NoDup l -> (forall fd, fd ∈ l -> 0 <= fd < NOFILE) -> forall s, files_ok (rest s) (tabs s) ->
  wp (close_files p l) (KSt [] s) (fun _ k => held k = [] /\ near p s (st k) /\ files_ok (rest (st k)) (tabs (st k)) /\
    exists O, getp (st k) p = set_ofile O (getp s p) /\ forall fd, O !! fd = if decide (fd ∈ l) then None else p_ofile (getp s p) !! fd).
Proof using.
  clear kend_kern pool_nodup pool_pages tramp_ok xstate_off xstate_at. intros Hr. induction l as [|fd l IH]; intros Hnd Hin s Hf; cbn [close_files].
  { wstep. split_and!; [done|by split|done|]. exists (p_ofile (getp s p)). split; [by destruct (getp s p)|]. intros fd. by destruct (decide (fd ∈ [])); [set_solver|]. }
  apply NoDup_cons in Hnd as [Hfd Hnd]. assert (forall fd, fd ∈ l -> 0 <= fd < NOFILE) as Hin' by (intros; apply Hin; set_solver).
  wstep. wstep. wstep. destruct (p_ofile (getp s p) !! fd) as [f|] eqn:Ef.
  - wstep. apply wp_onrest. eapply wp_mono; [apply (law_fileclose (rest s) (tabs s) p fd f Hf Hr ltac:(apply Hin; set_solver) Ef)|].
    intros _ [h t] (Eh & Hf'). cbn [held st] in *. subst h. unfold updp. wstep. set (s1 := upd_proc p _ _).
    assert (getp s1 p = set_ofile (delete fd (p_ofile (getp s p))) (getp s p)) as E1 by (unfold s1; by rewrite getp_upd_eq, getp_rest).
    assert (near p s s1) as Hn1 by (eapply near_trans; [apply near_rest|apply near_upd]).
    eapply wp_mono; [apply (IH Hnd Hin' s1)|].
    + eapply law_files_ext; [|exact Hf']. intros q. unfold s1. rewrite tabs_upd. unfold set_fd, fupd, tabs. destruct (decide (q = p)) as [->|].
      * rewrite Z.eqb_refl. done.
      * destruct (Z.eqb_spec q p); done.
    + intros _ k (Hk & Hn2 & Hf2 & O & E2 & HO). split_and!; [done|by eapply near_trans|done|]. exists O. split; [rewrite E2, E1; done|].
      intros fd'. rewrite HO, E1. cbn. destruct (decide (fd' = fd)) as [->|Hfd'].
      * rewrite (decide_False (P := fd ∈ l)), (decide_True (P := fd ∈ fd :: l)), lookup_delete_eq by set_solver. done.
      * rewrite lookup_delete_ne by done. destruct (decide (fd' ∈ l)), (decide (fd' ∈ fd :: l)); set_solver.
  - wstep. eapply wp_mono; [apply (IH Hnd Hin' s Hf)|]. intros _ k (Hk & Hn2 & Hf2 & O & E2 & HO). split_and!; [done..|]. exists O. split; [done|]. intros fd'. rewrite HO.
    destruct (decide (fd' = fd)) as [->|Hfd'].
    + rewrite (decide_False (P := fd ∈ l)), (decide_True (P := fd ∈ fd :: l)), Ef by set_solver. done.
    + destruct (decide (fd' ∈ l)), (decide (fd' ∈ fd :: l)); set_solver.
Qed.

(** A process asleep in wait becomes runnable. *)
Definition woken i (x : proc) : proc := if bool_decide (p_chan x = Some (proc_chan i)) && bool_decide (p_state x = SLEEPING) then set_state RUNNABLE x else x.
Lemma wakeup1_spec h i s : proc_lock i ∈ h -> wp (wakeup1 i) (KSt h s) (fun _ k => held k = h /\ near i s (st k) /\ rest (st k) = rest s /\ getp (st k) i = woken i (getp s i)).
Proof using.
  clear kend_kern pool_nodup pool_pages tramp_ok xstate_off xstate_at. intros Hh. unfold wakeup1. wstep. unfold wp at 1, holding. cbn [held st]. rewrite bool_decide_eq_true_2 by done. cbn [negb].
  wstep. wstep. unfold woken. destruct (_ && _).
  - unfold updp. wstep. split_and!; [done|apply near_upd|done|]. by rewrite getp_upd_eq.
  - wstep. split_and!; [done|by split|done|done].
Qed.
Lemma reparent_loop_spec h p ip l : forall s, initproc s = Some ip -> ip <> p -> (forall j, p_parent (getp s j) = Some p -> proc_lock j ∉ h) ->
  wp (reparent_loop p l) (KSt h s) (fun _ k => held k = h /\ (cur (st k) = cur s /\ initproc (st k) = initproc s /\ km (st k) = km s /\ nextpid (st k) = nextpid s /\ rest (st k) = rest s) /\
    forall j, getp (st k) j = if decide (j ∈ l /\ p_parent (getp s j) = Some p) then set_parent (Some ip) (getp s j) else getp s j).
Proof using.
  clear kend_kern pool_nodup pool_pages tramp_ok xstate_off xstate_at. induction l as [|pp l IH]; intros s Hi Hne Hlk; cbn [reparent_loop].
  { wstep. by split_and!. }
  wstep. wstep. wstep. case_bool_decide as Ep.
  - wstep. wstep. wstep. wstep. wstep. unfold updp. wstep. wstep. set (s1 := upd_proc _ _ _).
    assert (forall j, getp s1 j = if decide (j = pp) then set_parent (Some ip) (getp s j) else getp s j) as E1.
    { intros j. unfold s1. destruct (decide (j = pp)) as [->|]; [by rewrite getp_upd_eq, Hi|by rewrite getp_upd_ne]. }
    eapply wp_mono; [apply (IH s1)|].
    + done.
    + done.
    + intros j. rewrite E1. destruct (decide (j = pp)); [cbn; congruence|apply Hlk].
    + intros _ k (Hk & (F1 & F2 & F3 & F4 & F5) & Hp). split_and!; try done. intros j. rewrite Hp, E1. destruct (decide (j = pp)) as [->|Hj].
      * rewrite decide_False by (cbn; intros [_ ?]; congruence). rewrite decide_True by set_solver. done.
      * destruct (decide (j ∈ l /\ _)), (decide (j ∈ pp :: l /\ _)); try done; set_solver.
  - wstep. eapply wp_mono; [by apply (IH s)|]. intros _ k (Hk & F & Hp). split_and!; try apply F; try done. intros j. rewrite Hp.
    destruct (decide (j = pp)) as [->|Hj]; [rewrite !decide_False by tauto; done|]. destruct (decide (j ∈ l /\ _)), (decide (j ∈ pp :: l /\ _)); try done; set_solver.
Qed.
(** The other processes after the exit of [p]: its children belong to init, and init and the
    parent are awake. *)
Definition exit_other s p ip op j : proc :=
  let x := if bool_decide (j = ip) || bool_decide (j = op) then woken j (getp s j) else getp s j in
  if bool_decide (p_parent x = Some p) then set_parent (Some ip) x else x.
Definition exit_self (status : Z) (x : proc) : proc := set_state ZOMBIE (set_xstate status (set_cwd None (set_ofile ∅ x))).
Record exited s s' p ip op status : Prop := {
  ex_self : getp s' p = exit_self status (getp s p);
  ex_other : forall j, j <> p -> getp s' j = exit_other s p ip op j;
  ex_cur : cur s' = cur s;
  ex_init : initproc s' = initproc s;
  ex_next : nextpid s' = nextpid s;
  ex_km : km s' = km s;
}.
Lemma woken_same i x : same_proc x (woken i x).
Proof using.
  clear kend_kern pool_nodup pool_pages tramp_ok xstate_off xstate_at swtch.
  unfold woken. destruct (bool_decide (p_chan x = _)); [|apply same_proc_refl]. case_bool_decide as E; [|apply same_proc_refl]. split; cbn; rewrite ?E; done.
Qed.
Lemma exit_other_same s p ip op j (x := exit_other s p ip op j) : same_proc (getp s j) (set_parent (p_parent (getp s j)) x) /\
  p_parent x = if bool_decide (p_parent (getp s j) = Some p) then Some ip else p_parent (getp s j).
Proof using.
  clear kend_kern pool_nodup pool_pages tramp_ok xstate_off xstate_at swtch.
  subst x. unfold exit_other. set (y := if _ || _ then _ else _). assert (same_proc (getp s j) y) as Hy by (unfold y; destruct (_ || _); [apply woken_same|apply same_proc_refl]).
  rewrite (sm_parent _ _ Hy). destruct Hy. case_bool_decide; (split; [split; cbn; done|]); [done|congruence].
Qed.

Lemma inv_exit s s' A p ip op status : proc_inv s A -> alive s p -> initproc s = Some ip -> ip <> p -> exited s s' p ip op status ->
  files_ok (rest s') (tabs s') -> proc_inv s' A.
Proof using.
  clear kend_kern pool_nodup pool_pages tramp_ok xstate_off xstate_at swtch.   intros I Hal Hip Hne [Es Eo Ec Ei En Ek] Hf. pose proof (fun j => exit_other_same s p ip op j) as Ho.
  assert (forall j, (used s' j <-> used s j) /\ (j <> p -> (alive s' j <-> alive s j))) as Hu.
  { intros j. unfold used, alive. destruct (decide (j = p)) as [->|Hj].
    - rewrite Es. cbn. split; [|done]. destruct Hal. split; [done|intros _; done].
    - rewrite Eo by done. destruct (Ho j) as [[H1 H2 _ _ _ _ _ _ _] _]. cbn in H1, H2. rewrite H1, H2. done. }
  assert (~ alive s' p) as Hdead by (intros [_ H]; rewrite Es in H; done).
  assert (forall j, p_pid (getp s' j) = p_pid (getp s j)) as Hpid.
  { intros j. destruct (decide (j = p)) as [->|Hj]; [by rewrite Es|]. rewrite Eo by done. destruct (Ho j) as [[] _]. done. }
  assert (forall j, j <> p -> tabs s' j = tabs s j) as Ht.
  { intros j Hj. unfold tabs. rewrite Eo by done. destruct (Ho j) as [[] _]. cbn in *. congruence. }
  assert (forall j, p_trapframe (getp s' j) = p_trapframe (getp s j) /\ p_pagetable (getp s' j) = p_pagetable (getp s j) /\ p_sz (getp s' j) = p_sz (getp s j)) as Hm.
  { intros j. destruct (decide (j = p)) as [->|Hj]; [by rewrite Es|]. rewrite Eo by done. destruct (Ho j) as [[] _]. done. }
  split.
  - eapply pmem_same; [|exact Ek|apply I]. intros j _. apply Hm.
  - split; intros j Hj.
    + destruct (Hm j) as (-> & -> & ->). destruct (sl_free _ _ (pi_slots _ _ _ _ _ _ _ I) j Hj) as (H1 & H2). split; [|done]. apply not_used. rewrite (proj1 (Hu j)). unfold used. tauto.
    + destruct (sl_used _ _ (pi_slots _ _ _ _ _ _ _ I) j Hj) as [H1 H2]. split; [done|]. by apply (proj1 (Hu j)).
  - done.
  - intros j Hj. destruct (decide (j = p)) as [->|Hjp]; [unfold tabs; by rewrite Es|]. rewrite Ht by done. apply (pi_closed _ _ _ _ _ _ _ I). by rewrite <- (proj2 (Hu j) Hjp).
  - intros j fd f Hj. destruct (decide (j = p)) as [->|Hjp]; [by rewrite Es in Hj|]. apply (pi_fds _ _ _ _ _ _ _ I j fd f). pose proof (Ht j Hjp) as E. unfold tabs in E. injection E as E1 _. by rewrite <- E1.
  - intros j Hj. assert (j <> p) as Hjp by (intros ->; done). pose proof (Ht j Hjp) as E. unfold tabs in E. injection E as _ ->. apply (pi_cwd _ _ _ _ _ _ _ I). by apply (proj2 (Hu j) Hjp).
  - intros j Hj. rewrite Hpid, En. apply (pi_pid _ _ _ _ _ _ _ I). by apply (proj1 (Hu j)).
  - intros j j' Hj Hj'. rewrite !Hpid. apply (pi_pids _ _ _ _ _ _ _ I); [by apply (proj1 (Hu j))|by apply (proj1 (Hu j'))].
  - rewrite En. apply (pi_next _ _ _ _ _ _ _ I).
  - destruct (pi_init _ _ _ _ _ _ _ I) as (ip' & H1 & H2). exists ip'. rewrite Ei. split; [done|]. apply Hu; [congruence|done].
  - assert (alive s' ip) as Hip' by (apply Hu; [done|]; destruct (pi_init _ _ _ _ _ _ _ I) as (ip' & H1 & H2); congruence).
    intros j Hj Hnj. rewrite Ei in Hnj. rewrite (proj1 (Hu j)) in Hj. destruct (pi_parent _ _ _ _ _ _ _ I j Hj Hnj) as (q & H1 & H2 & H3).
    assert (p_parent (getp s' j) = if bool_decide (p_parent (getp s j) = Some p) then Some ip else p_parent (getp s j)) as Ep.
    { destruct (decide (j = p)) as [->|Hjp]; [|rewrite Eo by done; apply Ho]. rewrite Es. cbn. rewrite bool_decide_eq_false_2; [done|]. intros E. assert (q = p) as -> by congruence. lia. }
    rewrite Ep, H1. clear Ep Ho. case_bool_decide as E.
    + exists ip. rewrite !Hpid. split; [done|split; [done|]]. apply (init_least s A ip I Hip); [done|]. congruence.
    + exists q. rewrite !Hpid. split; [done|split; [|done]]. apply Hu; [congruence|done].
  - intros j Hj. rewrite Ei, (proj1 (Hu j)) in Hj. pose proof (pi_root _ _ _ _ _ _ _ I j Hj) as E. destruct (decide (j = p)) as [->|Hjp]; [by rewrite Es|].
    rewrite Eo by done. rewrite (proj2 (Ho j)), E. done.
Qed.
Lemma woken_idem i x : woken i (woken i x) = woken i x.
Proof using.
  clear kend_kern pool_nodup pool_pages tramp_ok xstate_off xstate_at swtch. unfold woken.
  destruct (decide (p_chan x = Some (proc_chan i) /\ p_state x = SLEEPING)) as [[E1 E2]|Hn].
  - rewrite (bool_decide_eq_true_2 _ E1), (bool_decide_eq_true_2 _ E2). cbn [andb p_chan p_state set_state]. by rewrite (bool_decide_eq_true_2 _ E1).
  - assert (bool_decide (p_chan x = Some (proc_chan i)) && bool_decide (p_state x = SLEEPING) = false) as E by (repeat case_bool_decide; tauto). by rewrite !E.
Qed.
Lemma child_used s A p j : proc_inv s A -> p_parent (getp s j) = Some p -> used s j /\ initproc s <> Some j /\ 0 <= j < NPROC /\ p_pid (getp s p) < p_pid (getp s j).
Proof using.
  clear kend_kern pool_nodup pool_pages tramp_ok xstate_off xstate_at swtch.   intros I Hp. assert (used s j) as Hu by (intros E; rewrite (pi_root _ _ _ _ _ _ _ I j) in Hp; [done|]; left; unfold used; tauto).
  assert (initproc s <> Some j) as Hn by (intros E; rewrite (pi_root _ _ _ _ _ _ _ I j) in Hp; [done|]; by right).
  destruct (sl_used _ _ (pi_slots _ _ _ _ _ _ _ I) j (slots_used s A j (pi_slots _ _ _ _ _ _ _ I) Hu)) as [Hr _].
  split; [done|split; [done|split; [done|]]].
  destruct (pi_parent _ _ _ _ _ _ _ I j Hu Hn) as (q & H1 & _ & H3). by assert (q = p) as <- by congruence.
Qed.

(** The first half of exit: files and directory are given back. *)
Lemma exit_files s A p c : proc_inv s A -> 0 <= p < NPROC -> p_cwd (getp s p) = Some c -> forall (f : unit -> M kern unit) m' Q,
  (forall t, let s' := upd_proc p (fun x => set_cwd None (set_ofile ∅ x)) (with_rest t s) in files_ok t (tabs s') -> forall s'', near p s s'' -> rest s'' = t -> getp s'' p = getp s' p -> reaches (f tt) (KSt [] s'') m' Q) ->
  reaches (close_files p (seqZ 0 NOFILE) ;; onrest pf_begin_op ;; x ← gets (fun s : kern => getp s p); cwd ← nonnull (p_cwd x); onrest (pf_iput cwd) ;; onrest pf_end_op ;; updp p (set_cwd None) ;; f tt)
    (KSt [] s) m' Q.
Proof using.
  clear kend_kern pool_nodup pool_pages tramp_ok xstate_off xstate_at swtch. intros I Hr Hc f m' Q HQ.
  rstep. eapply wp_mono; [apply (close_files_spec p (seqZ 0 NOFILE) Hr (NoDup_seqZ _ _) ltac:(intros fd ?%elem_of_seqZ; lia) s (pi_files _ _ _ _ _ _ _ I))|]. intros _ [h s1] (Eh & N1 & Hf1 & O & E1 & HO). cbn [held st] in *. subst h.
  assert (O = ∅) as ->.
  { apply map_eq. intros fd. rewrite HO, lookup_empty. destruct (decide (fd ∈ seqZ 0 NOFILE)) as [|Hn]; [done|].
    destruct (p_ofile (getp s p) !! fd) as [g|] eqn:E; [|done]. destruct Hn. apply elem_of_seqZ. pose proof (pi_fds _ _ _ _ _ _ _ I p fd g E). lia. }
  rstep. apply wp_onrest. eapply wp_mono; [by apply (law_begin (rest s1) (tabs s1))|]. intros _ [h t2] (Eh & Hf2). cbn [held st] in *. subst h.
  rstep. wstep. rstep. rewrite getp_rest, E1. cbn [p_cwd set_ofile]. rewrite Hc. cbn [nonnull]. wstep.
  rstep. apply wp_onrest. cbn [rest with_rest]. eapply wp_mono; [apply (law_iput t2 (tabs s1) p c Hf2 Hr)|]. { unfold tabs. cbn. by rewrite E1. } intros _ [h t3] (Eh & Hf3). cbn [held st] in *. subst h.
  rstep. apply wp_onrest. cbn [rest with_rest]. eapply wp_mono; [by apply (law_end t3 (set_dir (tabs s1) p None))|]. intros _ [h t4] (Eh & Hf4). cbn [held st] in *. subst h.
  rstep. unfold updp. wstep. apply (HQ t4).
  - eapply law_files_ext; [|exact Hf4]. intros q. rewrite tabs_upd. unfold set_dir, fupd, tabs. cbn. destruct (decide (q = p)) as [->|].
    + rewrite Z.eqb_refl. cbn. by rewrite E1.
    + destruct (Z.eqb_spec q p); [done|]. rewrite getp_rest, (nr_procs _ _ _ N1) by done. done.
  - eapply near_trans; [exact N1|]. eapply near_trans; [|apply near_upd]. split; try done. 
  - done.
  - rewrite !getp_upd_eq, !getp_rest. change (getp _ p) with (getp s1 p) at 1. rewrite E1. done.
Qed.
(** The table after reparent and the two wakeups. *)
Lemma exit_other_eq s s6 s7 s8 A p ip op : proc_inv s A -> alive s p -> initproc s = Some ip -> ip <> p -> p_parent (getp s p) = Some op ->
  (forall j, j <> p -> getp s6 j = if decide (j = ip) then woken ip (getp s j) else getp s j) ->
  (forall j, getp s7 j = if decide (j ∈ seqZ 0 NPROC /\ p_parent (getp s6 j) = Some p) then set_parent (Some ip) (getp s6 j) else getp s6 j) ->
  (forall j, getp s8 j = if decide (j = op) then woken op (getp s7 j) else getp s7 j) ->
  forall j, j <> p -> getp s8 j = exit_other s p ip op j.
Proof using.
  clear kend_kern pool_nodup pool_pages tramp_ok xstate_off xstate_at swtch. intros I Hal Hip Hne Hop E6 E7 E8 j Hj.
  assert (p_parent (getp s6 j) = p_parent (getp s j)) as Ep by (rewrite E6 by done; destruct (decide (j = ip)) as [->|]; [apply woken_same|done]).
  unfold exit_other. rewrite E8, E7, Ep. set (y := if _ || _ then _ else _).
  assert (p_parent y = p_parent (getp s j)) as Ey by (unfold y; destruct (_ || _); [apply woken_same|done]). rewrite Ey.
  assert (p_parent (getp s j) = Some p -> j ∈ seqZ 0 NPROC /\ j <> op) as Hch.
  { intros E. destruct (child_used s A p j I E) as (_ & _ & Hr & Hlt). split; [rewrite elem_of_seqZ; lia|]. intros ->. destruct (child_used s A op p I Hop) as (_ & _ & _ & Hlt'). lia. }
  assert ((if decide (j = op) then woken op (getp s6 j) else getp s6 j) = y) as E.
  { unfold y. rewrite E6 by done.
    destruct (decide (j = ip)) as [E1|E1]; [rewrite (bool_decide_eq_true_2 _ E1)|rewrite (bool_decide_eq_false_2 _ E1)];
      (destruct (decide (j = op)) as [E2|E2]; [rewrite (bool_decide_eq_true_2 _ E2)|rewrite (bool_decide_eq_false_2 _ E2)]); cbn [orb]; rewrite <- ?E1, <- ?E2; try done.
    apply woken_idem. }
  case_bool_decide as Hc.
  - destruct (Hch Hc) as [H1 H2]. rewrite (decide_False (P := j = op)), decide_True in * by done. by rewrite E.
  - rewrite (decide_False (P := j ∈ _ /\ _)) by tauto. done.
Qed.

Lemma exit_spec s A p ip status : proc_inv s A -> cur s = Some p -> alive s p -> initproc s = Some ip -> ip <> p ->
  reaches (exit swtch status) (KSt [] s) (swtch ;; panic "zombie exit") (fun k => exists s' op, k = KSt [proc_lock p] s' /\ p_parent (getp s p) = Some op /\ exited s s' p ip op status /\ proc_inv s' A).
Proof using.
  clear kend_kern pool_nodup pool_pages tramp_ok xstate_off xstate_at. intros I Hc Hal Hip Hne. destruct (pi_cwd _ _ _ _ _ _ _ I p Hal) as [c Ec].
  destruct (pi_parent _ _ _ _ _ _ _ I p (proj1 Hal)) as (op & Hop & _ & Hlt); [congruence|]. assert (op <> p) as Hopp by (intros ->; lia).
  destruct (child_used s A op p I Hop) as (_ & _ & Hr & _).
  unfold exit, myproc. rstep. wstep. wstep. rewrite Hc. cbn [nonnull]. wstep. rstep. wstep. rewrite Hip, bool_decide_eq_false_2 by congruence.
  match goal with |- reaches _ _ ?m' ?Q => refine (exit_files s A p c I Hr Ec (fun _ => _) m' Q _) end.
  intros t s0 Hf s5 N5 Er5 E5. rstep. wstep. rstep. eapply wp_mono; [apply wakeup1_spec; set_solver|]. intros _ [h s6] (Eh & N6 & Er6 & E6). cbn [held st] in *. subst h.
  rstep. wstep. rstep. wstep. rstep. wstep. rstep. wstep.
  assert (getp s0 p = set_cwd None (set_ofile ∅ (getp s p))) as E0 by (unfold s0; by rewrite getp_upd_eq).
  assert (getp s6 p = set_cwd None (set_ofile ∅ (getp s p))) as E6p by (rewrite (nr_procs _ _ _ N6) by done; congruence).
  assert (forall j, j <> p -> getp s6 j = if decide (j = ip) then woken ip (getp s j) else getp s j) as E6j.
  { intros j Hj. destruct (decide (j = ip)) as [->|Hji]; [rewrite E6|rewrite (nr_procs _ _ _ N6) by done]; by rewrite (nr_procs _ _ _ N5). }
  rewrite E6p. cbn [p_parent set_cwd set_ofile]. rewrite Hop. cbn [nonnull]. rstep. wstep. rstep. wstep. rstep. wstep.
  rstep. unfold reparent. eapply wp_mono; [apply (reparent_loop_spec [proc_lock p; proc_lock op] p ip _ s6)|].
  { rewrite (nr_init _ _ _ N6), (nr_init _ _ _ N5). done. }
  { done. }
  { intros j Hj. destruct (decide (j = p)) as [->|Hjp]; [rewrite E6p in Hj; cbn in Hj; congruence|]. rewrite E6j in Hj by done.
    assert (p_parent (getp s j) = Some p) as Hj' by (destruct (decide (j = ip)) as [->|]; [rewrite <- Hj; symmetry; apply woken_same|done]).
    destruct (child_used s A p j I Hj') as (_ & _ & _ & Hlt'). rewrite !not_elem_of_cons. split_and!; [intros E%proc_lock_inj; lia|intros E%proc_lock_inj; subst; lia|set_solver]. }
  intros _ [h s7] (Eh & (F1 & F2 & F3 & F4 & F5) & E7). cbn [held st] in *. subst h.
  rstep. eapply wp_mono; [apply wakeup1_spec; set_solver|]. intros _ [h s8] (Eh & N8 & Er8 & E8). cbn [held st] in *. subst h.
  rstep. unfold updp at 1. wstep. rstep. unfold updp at 1. wstep. rstep. apply wp_release_any; [set_solver|].
  assert (filter (fun x => x <> proc_lock op) [proc_lock p; proc_lock op] = [proc_lock p]) as ->.
  { rewrite filter_cons_True by (intros E%proc_lock_inj; congruence). rewrite filter_cons_False by tauto. done. }
  set (s' := upd_proc p _ _). apply reaches_app. apply sched_reaches.
  - unfold s'. cbn. rewrite (nr_cur _ _ _ N8), F1, (nr_cur _ _ _ N6), (nr_cur _ _ _ N5). done.
  - unfold s'. rewrite getp_upd_eq. done.
  - assert (exited s s' p ip op status) as X.
    { split.
      - unfold s'. rewrite !getp_upd_eq, (nr_procs _ _ _ N8) by done. rewrite E7, decide_False, E6p; [done|]. rewrite E6p. cbn. intros [_ ?]. congruence.
      - intros j Hj. unfold s'. rewrite !getp_upd_ne by done. apply (exit_other_eq s s6 s7 s8 A); try done.
        intros j'. destruct (decide (j' = op)) as [->|]; [done|by apply N8].
      - unfold s'. cbn. rewrite (nr_cur _ _ _ N8), F1, (nr_cur _ _ _ N6). apply N5.
      - unfold s'. cbn. rewrite (nr_init _ _ _ N8), F2, (nr_init _ _ _ N6). apply N5.
      - unfold s'. cbn. rewrite (nr_next _ _ _ N8), F4, (nr_next _ _ _ N6). apply N5.
      - unfold s'. cbn. rewrite (nr_km _ _ _ N8), F3, (nr_km _ _ _ N6). apply N5. }
    exists s', op. split_and!; [done|done|done|]. eapply inv_exit; try done. unfold s'. apply files_keep; [done..|]. apply files_keep; [done..|].
    rewrite Er8, F5, Er6, Er5. eapply law_files_ext; [|exact Hf]. intros j. destruct (decide (j = p)) as [->|Hj].
    + unfold tabs. rewrite E0, (nr_procs _ _ _ N8), E7, decide_False, E6p by (done || rewrite E6p; cbn; intros [_ ?]; congruence). done.
    + pose proof (ex_other _ _ _ _ _ _ X j Hj) as E. unfold s' in E. rewrite !getp_upd_ne in E by done. unfold tabs. rewrite E. destruct (exit_other_same s p ip op j) as [[] _]. cbn in *.
      unfold s0. rewrite getp_upd_ne, getp_rest by done. congruence.
Qed.
End ProcExit.
