(* ===== verification/Exec.v ===== *)
(** * exec (kernel/exec.c, kernel/elf.h): definitions

    exec replaces the memory of the running process by that of an ELF file: it builds a new
    page table beside the old one, fills it from the file, pushes the arguments on the new
    stack, and only then gives up the old one.  What it needs of fs.c beyond the interface
    [ProcFiles] of proc.c is [ExecFiles]. *)
From S2P Require Import Prelude Mem Riscv Kalloc Vm Proc.

Definition MAXARG : Z := 32.
Definition ELF_MAGIC : Z := 0x464C457F.
Definition ELF_PROG_LOAD : Z := 1.

(** [readi(ip, 0, dst, off, n)] is the list of the bytes it copies to [dst], whose length is
    the value it returns. *)
Class ExecFiles (T : Type) := {
  xf_namei : list Z -> M T (option Z);
  xf_ilock : Z -> M T unit;
  xf_readi : Z -> Z -> Z -> M T (list Z);
  xf_iunlockput : Z -> M T unit;
}.

(** ** ELF headers *)

(** A little-endian field of [n] bytes at offset [o] of a structure in memory. *)
Fixpoint le_get (bs : list Z) : Z := match bs with [] => 0 | b :: bs' => b + 256 * le_get bs' end.
Definition field (bs : list Z) (o n : nat) : Z := le_get (take n (drop o bs)).

Record elfhdr := Elfhdr {
  e_magic : Z; e_elf : list Z; e_type : Z; e_machine : Z; e_version : Z; e_entry : Z; e_phoff : Z; e_shoff : Z;
  e_flags : Z; e_ehsize : Z; e_phentsize : Z; e_phnum : Z; e_shentsize : Z; e_shnum : Z; e_shstrndx : Z }.
Definition SIZEOF_ELFHDR : Z := 64.
Definition elfhdr_of (b : list Z) : elfhdr :=
  Elfhdr (field b 0 4) (take 12 (drop 4 b)) (field b 16 2) (field b 18 2) (field b 20 4) (field b 24 8) (field b 32 8) (field b 40 8)
    (field b 48 4) (field b 52 2) (field b 54 2) (field b 56 2) (field b 58 2) (field b 60 2) (field b 62 2).

Record proghdr := Proghdr {
  ph_type : Z; ph_flags : Z; ph_off : Z; ph_vaddr : Z; ph_paddr : Z; ph_filesz : Z; ph_memsz : Z; ph_align : Z }.
Definition SIZEOF_PROGHDR : Z := 56.
Definition proghdr_of (b : list Z) : proghdr :=
  Proghdr (field b 0 4) (field b 4 4) (field b 8 8) (field b 16 8) (field b 24 8) (field b 32 8) (field b 40 8) (field b 48 8).

(** The part of a path after its last slash. *)
Fixpoint last_elem (last s : list Z) : list Z :=
  match s with [] => last | c :: s' => last_elem (if c =? 47 then s' else last) s' end.

Definition tf_a1 : Z := 120.

Section Exec.
Context {T : Type} `{!ProcFiles T, !ExecFiles T}.
(** [ustack_at] is the address of the local array ustack on the kernel stack. *)
Variables (kend trampoline ustack_at : Z).
Abbreviation kern := (@kern T).

Fixpoint loadseg_loop (fuel : nat) (pagetable va ip offset sz i : Z) : M kern Z :=
  if negb (i <? sz) then mret 0 else
  match fuel with
  | O => panic no_fuel
  | S f =>
    pa ← onkm (walkaddr pagetable (u64 (va + i)));
    if pa =? 0 then panic "loadseg: address should exist" else
    let n := if u32 (sz - i) <? PGSIZE then u32 (sz - i) else PGSIZE in
    bs ← onrest (xf_readi ip (u32 (offset + i)) n);
    onkm (on_ram (fun m => store_bytes m pa bs)) ;;
    if negb (Z.of_nat (length bs) =? n) then mret (-1) else
    loadseg_loop f pagetable va ip offset sz (u32 (i + PGSIZE))
  end.
Definition loadseg (pagetable va ip offset sz : Z) : M kern Z :=
  if negb (va mod PGSIZE =? 0) then panic "loadseg: va must be page aligned" else
  loadseg_loop (Z.to_nat (sz / PGSIZE + 1)) pagetable va ip offset sz 0.

(** The loop over the [n] program headers left, at [off]: [inl sz] is [goto bad], and [inr sz]
    the end of the loop, with the size of the image so far. *)
Fixpoint load_loop (n : nat) (pagetable ip off sz : Z) : M kern (Z + Z) :=
  match n with
  | O => mret (inr sz)
  | S n' =>
    b ← onrest (xf_readi ip (u32 off) SIZEOF_PROGHDR);
    if negb (Z.of_nat (length b) =? SIZEOF_PROGHDR) then mret (inl sz) else
    let ph := proghdr_of b in
    let off' := i32 (off + SIZEOF_PROGHDR) in
    if negb (ph_type ph =? ELF_PROG_LOAD) then load_loop n' pagetable ip off' sz else
    if ph_memsz ph <? ph_filesz ph then mret (inl sz) else
    if u64 (ph_vaddr ph + ph_memsz ph) <? ph_vaddr ph then mret (inl sz) else
    sz1 ← onkm (uvmalloc kend pagetable sz (u64 (ph_vaddr ph + ph_memsz ph)));
    if sz1 =? 0 then mret (inl sz) else
    if negb (ph_vaddr ph mod PGSIZE =? 0) then mret (inl sz1) else
    r ← loadseg pagetable (ph_vaddr ph) ip (u32 (ph_off ph)) (u32 (ph_filesz ph));
    if r <? 0 then mret (inl sz1) else
    load_loop n' pagetable ip off' sz1
  end.

(** The loop over argv: [None] is [goto bad], [Some (argc, sp)] the end of the loop. *)
Fixpoint push_args (pagetable stackbase : Z) (argv : list Z) (argc sp : Z) : M kern (option (Z * Z)) :=
  match argv with
  | [] => mret (Some (argc, sp))
  | a :: argv' =>
    if MAXARG <=? argc then mret None else
    m ← gets (fun s => ram (km s));
    match strlen (Z.to_nat PGSIZE) m a with
    | None => panic no_fuel
    | Some len =>
      let sp := u64 (sp - (len + 1)) in
      let sp := sp - sp mod 16 in
      if sp <? stackbase then mret None else
      r ← onkm (copyout pagetable sp a (len + 1));
      if r <? 0 then mret None else
      onkm (sd (ustack_at + 8 * argc) sp) ;;
      push_args pagetable stackbase argv' (argc + 1) sp
    end
  end.

Definition bad (pagetable sz : Z) (ip : option Z) : M kern Z :=
  (if pagetable =? 0 then mret tt else onkm (proc_freepagetable kend pagetable sz)) ;;
  match ip with
  | Some ip => onrest (xf_iunlockput ip) ;; onrest pf_end_op ;; mret (-1)
  | None => mret (-1)
  end.

(** From the allocation of the stack on (line 64): the file is closed. *)
Definition exec_stack (path argv : list Z) (entry pagetable sz : Z) : M kern Z :=
  p ← myproc;
  oldsz ← gets (fun s => p_sz (getp s p));
  let sz := PGROUNDUP sz in
  sz1 ← onkm (uvmalloc kend pagetable sz (u64 (sz + 2 * PGSIZE)));
  if sz1 =? 0 then bad pagetable sz None else
  let sz := sz1 in
  onkm (uvmclear pagetable (u64 (sz - 2 * PGSIZE))) ;;
  let stackbase := u64 (sz - PGSIZE) in
  r ← push_args pagetable stackbase argv 0 sz;
  match r with
  | None => bad pagetable sz None
  | Some (argc, sp) =>
    onkm (sd (ustack_at + 8 * argc) 0) ;;
    let sp := u64 (sp - (argc + 1) * 8) in
    let sp := sp - sp mod 16 in
    if sp <? stackbase then bad pagetable sz None else
    r ← onkm (copyout pagetable sp ustack_at ((argc + 1) * 8));
    if r <? 0 then bad pagetable sz None else
    tf ← gets (fun s => p_trapframe (getp s p));
    onkm (sd (tf + tf_a1) sp) ;;
    updp p (set_name (copy_name (last_elem path path))) ;;
    oldpagetable ← gets (fun s => p_pagetable (getp s p));
    updp p (set_pagetable pagetable) ;;
    updp p (set_sz sz) ;;
    onkm (sd (tf + tf_epc) entry) ;;
    onkm (sd (tf + tf_sp) sp) ;;
    onkm (proc_freepagetable kend oldpagetable oldsz) ;;
    mret argc
  end.

Definition exec (path argv : list Z) : M kern Z :=
  p ← myproc;
  onrest pf_begin_op ;;
  o ← onrest (xf_namei path);
  match o with
  | None => onrest pf_end_op ;; mret (-1)
  | Some ip =>
    onrest (xf_ilock ip) ;;
    b ← onrest (xf_readi ip 0 SIZEOF_ELFHDR);
    let elf := elfhdr_of b in
    if negb (Z.of_nat (length b) =? SIZEOF_ELFHDR) then bad 0 0 (Some ip) else
    if negb (e_magic elf =? ELF_MAGIC) then bad 0 0 (Some ip) else
    tf ← gets (fun s => p_trapframe (getp s p));
    pagetable ← onkm (proc_pagetable kend trampoline tf);
    if pagetable =? 0 then bad 0 0 (Some ip) else
    r ← load_loop (Z.to_nat (e_phnum elf)) pagetable ip (i32 (e_phoff elf)) 0;
    match r with
    | inl sz => bad pagetable sz (Some ip)
    | inr sz =>
      onrest (xf_iunlockput ip) ;;
      onrest pf_end_op ;;
      exec_stack path argv (e_entry elf) pagetable sz
    end
  end.
End Exec.
