(* ===== verification/ExecMem.v ===== *)
(** * exec: the new address space

    What uvmalloc, uvmclear and a store of bytes do to a page table that is being filled: the
    sizes come from a file, so uvmalloc is specified here for any request. *)
From S2P Require Import Prelude Mem Riscv Kalloc Vm VmTree VmSpec VmCopy VmAlloc VmFree VmPool Proc ProcMem ProcInv ProcOps ProcFork ProcCopy Exec.

(** A request that fails also fails when more is asked for, in the same way. *)
Lemma uvmalloc_loop_more kend root old n1 n2 k' : n1 <> 0 -> n1 <= n2 -> forall f1 f2 a k, (f1 <= f2)%nat ->
  uvmalloc_loop kend f1 root a old n1 k = Ok 0 k' -> uvmalloc_loop kend f2 root a old n2 k = Ok 0 k'.
Proof.
  intros Hn Hle. induction f1 as [|f1 IH]; intros f2 a k Hf E; (destruct f2 as [|f2]; [try lia|]); cbn [uvmalloc_loop] in E |- *;
    destruct (Z.ltb_spec a n1); cbn [negb] in E; try (injection E as ? _; done); try done.
  all: destruct (Z.ltb_spec a n2); [|lia]; cbn [negb].
  unfold mbind, M_bind in *. destruct (kalloc k) as [q k1| |]; [|done..]. destruct (q =? 0); [done|].
  destruct (on_ram _ k1) as [u k2| |]; [|done..]. destruct (mappages _ _ _ _ _ k2) as [r k3| |]; [|done..].
  destruct (negb (r =? 0)); [done|]. apply IH; [lia|done].
Qed.
Lemma uvmalloc_more kend root old n1 n2 k k' : n1 <> 0 -> 0 <= old <= n1 -> n1 <= n2 -> uvmalloc kend root old n1 k = Ok 0 k' -> uvmalloc kend root old n2 k = Ok 0 k'.
Proof.
  intros Hn Ho Hle. unfold uvmalloc. destruct (Z.ltb_spec n1 old), (Z.ltb_spec n2 old); try lia. apply uvmalloc_loop_more; [done|done|].
  unfold PGSIZE. dlia.
Qed.

Lemma pool_small kend pool : KERNBASE <= kend -> NoDup pool -> Forall (page kend) pool -> Z.of_nat (length pool) <= 32768.
Proof.
  intros Hk Hn Hp. set (all := (fun j => KERNBASE + 4096 * j) <$> seqZ 0 32768). assert (length all = Z.to_nat 32768) as El by (unfold all; by rewrite length_fmap, length_seqZ).
  assert (pool ⊆+ all) as Hs%submseteq_length; [|rewrite El in Hs; lia]. apply NoDup_submseteq; [done|]. intros q Hq. rewrite Forall_forall in Hp. destruct (Hp q Hq) as [H1 H2].
  apply list_elem_of_fmap. exists ((q - KERNBASE) / 4096). rewrite elem_of_seqZ. unfold PHYSTOP, KERNBASE in *. split; dlia.
Qed.

Section ExecMem.
Variables (kend trampoline : Z) (pool : list Z).
Hypothesis kend_kern : KERNBASE <= kend.
Hypothesis pool_nodup : NoDup pool.
Hypothesis pool_pages : Forall (page kend) pool.
Abbreviation mem_ok := (mem_ok kend pool).
Abbreviation maps := (maps kend trampoline pool).
Abbreviation stays := (stays pool).
Abbreviation user_space := (user_space trampoline).
Implicit Types (s : kmem) (R : spaces) (U : list Z) (pages : list (Z * Z)).

Definition fresh (ps : list Z) : list (Z * Z) := (fun q => (q, UFLAGS)) <$> ps.
Lemma fresh_fst ps : (fresh ps).*1 = ps.
Proof. unfold fresh. rewrite <- list_fmap_compose. induction ps as [|q ps IH]; [done|]. cbn. by rewrite IH. Qed.

(** More pages behind those of an address space. *)
Lemma ext_space tf pages ps : Z.of_nat (length pages + length ps) <= VTF ->
  same_space (ext (user_space tf pages) (Z.of_nat (length pages)) ps (fun _ => UFLAGS)) (user_space tf (pages ++ fresh ps)).
Proof.
  intros Hl v Hv. destruct space_consts as (C1 & C2 & _). unfold ext. destruct (Z.leb_spec (Z.of_nat (length pages)) v).
  - destruct (ps !! Z.to_nat (v - Z.of_nat (length pages))) as [q|] eqn:E.
    + pose proof (lookup_lt_Some _ _ _ E). unfold ProcMem.user_space. rewrite lookup_app_r by lia. unfold fresh. rewrite list_lookup_fmap.
      replace (Z.to_nat v - length pages)%nat with (Z.to_nat (v - Z.of_nat (length pages))) by lia. rewrite E. cbn. zbool; lia || done.
    + unfold ProcMem.user_space. rewrite (lookup_ge_None_2 pages) by lia. apply lookup_ge_None_1 in E. rewrite lookup_ge_None_2; [done|].
      unfold fresh. rewrite length_app, length_fmap. lia.
  - unfold ProcMem.user_space. by rewrite lookup_app_l by lia.
Qed.

Lemma maps_stays s s' R U root tf pages : maps s R U root tf pages -> mem_ok s' R U -> maps s' R U root tf pages.
Proof. intros [H1 H2 H3 H4 H5 H6] Hm. by split. Qed.

(** As many pages as there are in the pool. *)
Lemma maps_len s R U root tf pages : maps s R U root tf pages -> Z.of_nat (length pages) <= 32768.
Proof using kend_kern pool_nodup pool_pages.
  intros [(l & own & Hm) _ _ _ Hin Hn]. pose proof (pool_small kend pool kend_kern pool_nodup pool_pages). assert (pages.*1 ⊆+ pool) as Hs%submseteq_length; [|rewrite length_fmap in Hs; lia].
  apply NoDup_submseteq; [done|]. intros q Hq. by apply (mem_disjoint kend pool kend_kern pool_nodup pool_pages _ _ _ _ _ q Hm), Hin.
Qed.

(** uvmalloc of a size below MAXVA. *)
Lemma uvmalloc_maps_low h s R U root tf pages sz newsz : kmem_lock ∉ h -> maps s R U root tf pages -> space_ok sz pages -> sz <= newsz <= TRAPFRAME ->
  wp (uvmalloc kend root sz newsz) (KSt h s) (fun r k => held k = h /\ stays U s (st k) /\ ((r = 0 /\ mem_ok (st k) R U) \/
    (r = newsz /\ exists ps, space_ok newsz (pages ++ fresh ps) /\ maps (st k) (<[root := user_space tf (pages ++ fresh ps)]> R) (ps ++ U) root tf (pages ++ fresh ps) /\
      forall q o, q ∈ ps -> 0 <= o < 4096 -> rd (ram (st k)) (q + o) = 0))).
Proof using kend_kern pool_nodup pool_pages.
  intros Hh Hmp [Hs1 Hs2 Hs3] Hnew. pose proof Hmp as [Hm HR Hl Hf Hin Hn]. destruct space_consts as (C1 & C2 & C3 & C4 & C5).
  eapply wp_mono; [eapply (uvmalloc_pool kend pool kend_kern pool_nodup pool_pages h s R U root _ sz newsz Hh Hm HR); try lia|].
  { intros v Hv. assert (v < VTF) by (unfold npages in Hv; dlia). unfold ProcMem.user_space. rewrite lookup_ge_None_2 by lia. zbool; lia || done. }
  intros r k (Hk & Hst & Hc). split; [done|]. split; [done|]. destruct Hc as [Hc|(-> & ps & El & Hm' & Hz)]; [by left|right]. split; [done|]. exists ps.
  rewrite Hs2 in El, Hm'. assert (npages newsz <= VTF) as Hnp by (unfold npages; dlia). split; [|split; [|done]].
  - split; [lia|unfold fresh; rewrite length_app, length_fmap; lia|]. apply Forall_app. split; [done|]. apply Forall_fmap, Forall_true. intros q. apply (UFLAGS_ok 0).
  - apply (mem_ok_ext kend pool _ _ _ root _ (user_space tf (pages ++ fresh ps))) in Hm'; [|apply ext_space; lia]. split.
    + done.
    + apply lookup_insert_eq.
    + unfold fresh. rewrite length_app, length_fmap. lia.
    + apply Forall_app. split; [done|]. apply Forall_fmap, Forall_true. intros q. apply (UFLAGS_ok 0).
    + intros q. rewrite fmap_app, fresh_fst, !elem_of_app. naive_solver.
    + destruct Hm' as (l & own & Hm'). pose proof (mem_nodup kend pool pool_nodup _ _ _ _ _ Hm') as Hnd. rewrite fmap_app, fresh_fst. apply NoDup_app in Hnd as (N1 & N2 & _).
      apply NoDup_app. split_and!; [done| |done]. intros q Hq Hq'. by apply (N2 q), Hin.
Qed.

(** Any request: more than the pool holds fails. *)
Lemma uvmalloc_maps h s R U root tf pages sz newsz : kmem_lock ∉ h -> maps s R U root tf pages -> space_ok sz pages -> sz <= newsz ->
  wp (uvmalloc kend root sz newsz) (KSt h s) (fun r k => held k = h /\ stays U s (st k) /\ ((r = 0 /\ mem_ok (st k) R U) \/
    (r = newsz /\ exists ps, space_ok newsz (pages ++ fresh ps) /\ maps (st k) (<[root := user_space tf (pages ++ fresh ps)]> R) (ps ++ U) root tf (pages ++ fresh ps) /\
      forall q o, q ∈ ps -> 0 <= o < 4096 -> rd (ram (st k)) (q + o) = 0))).
Proof using kend_kern pool_nodup pool_pages.
  intros Hh Hmp Hsp Hnew. destruct (decide (newsz <= TRAPFRAME)) as [Hlo|Hhi]; [by apply uvmalloc_maps_low|].
  assert (TRAPFRAME = 2 ^ 38 - 8192) as ET by done. destruct Hsp as [Hs1 Hs2 Hs3].
  destruct (wp_elim _ _ _ (uvmalloc_maps_low h s R U root tf pages sz TRAPFRAME Hh Hmp ltac:(by split) ltac:(lia))) as (r & k & E & Hk & Hst & Hc).
  destruct Hc as [[-> Hm']|(_ & ps & Hsp' & Hmp' & _)]; cycle 1.
  { pose proof (maps_len _ _ _ _ _ _ Hmp') as Hl. rewrite <- (sp_len _ _ Hsp') in Hl. unfold npages in Hl. rewrite ET in Hl. exfalso. dlia. }
  eapply wp_intro; [eapply uvmalloc_more; [|..|exact E]; lia|]. cbv beta. split_and!; [done|done|by left].
Qed.

(** Addresses of the user range. *)
Lemma upa_lookup pages va q f : pages !! Z.to_nat (va / 4096) = Some (q, f) -> bits_set f PTE_U = true -> 0 <= va < MAXVA -> upa pages va = Some (q + va mod 4096).
Proof. intros E Hf Hv. unfold upa. destruct (Z.leb_spec 0 va); [|lia]. destruct (Z.ltb_spec va MAXVA); [|lia]. cbn. by rewrite E, Hf. Qed.
Lemma upa_app_l pages pages' va pa : upa pages va = Some pa -> upa (pages ++ pages') va = Some pa.
Proof.
  unfold upa. destruct (_ && _); [|done]. destruct (pages !! _) as [[q f]|] eqn:E; [|done]. by rewrite (lookup_app_l_Some _ _ _ _ E).
Qed.
Lemma upa_fresh pages ps va : Z.of_nat (length pages) * 4096 <= va < Z.of_nat (length pages + length ps) * 4096 -> va < MAXVA ->
  exists q, q ∈ ps /\ upa (pages ++ fresh ps) va = Some (q + va mod 4096).
Proof.
  intros Hv Hm. destruct (lookup_lt_is_Some_2 ps (Z.to_nat (va / 4096) - length pages)) as [q Hq]; [dlia|]. exists q. split; [by eapply list_elem_of_lookup_2|].
  apply (upa_lookup _ _ _ UFLAGS); [|done|lia]. rewrite lookup_app_r by dlia. unfold fresh. by rewrite list_lookup_fmap, Hq.
Qed.
(** ** uvmclear *)

Lemma clear_flags q : Z.land (mkpte q UFLAGS) (Z.lnot PTE_U) = mkpte q 15.
Proof.
  rewrite <- Z.ldiff_land. rewrite <- Z.sub_nocarry_ldiff; [unfold mkpte; change UFLAGS with 31; change PTE_U with 16; lia|]. rewrite Z.ldiff_land.
  assert (Z.land PTE_U (mkpte q UFLAGS) = PTE_U) as E by (rewrite Z.land_comm, (land_mkpte q UFLAGS PTE_U); done). rewrite <- E at 1.
  rewrite <- Z.land_assoc, Z.land_lnot_diag. apply Z.land_0_r.
Qed.

Lemma uvmclear_maps h s R U root tf pages j q : maps s R U root tf pages -> pages !! j = Some (q, UFLAGS) ->
  wp (uvmclear root (4096 * Z.of_nat j)) (KSt h s) (fun _ k => held k = h /\ stays U s (st k) /\
    maps (st k) (<[root := user_space tf (<[j := (q, 15)]> pages)]> R) U root tf (<[j := (q, 15)]> pages)).
Proof using kend_kern pool_nodup pool_pages.
  intros Hmp Hj. pose proof Hmp as [(l & own & Hm) HR Hl Hf Hin Hn]. pose proof (maps_fine _ _ _ kend_kern pool_nodup pool_pages _ _ _ _ _ _ Hmp) as Hfine.
  pose proof (Forall_lookup_1 _ _ _ _ Hfine Hj) as (Hq1 & Hq2 & _). cbn in Hq1, Hq2.
  destruct space_consts as (C1 & C2 & C3 & _). pose proof (lookup_lt_Some _ _ _ Hj) as Hjl. pose proof Hm as [Hvm Hr Hlk Hp].
  assert (lk (ent (ram s)) root (4096 * Z.of_nat j) = mkpte q UFLAGS) as Elk.
  { rewrite (Hlk root _ _ HR) by lia. rewrite Z.mul_comm, Z.div_mul by lia. by apply space_leaf. }
  assert (root_of own root) as Hroot by (apply Hr; rewrite HR; by eexists).
  unfold uvmclear. eapply wp_walk_ld; [exact kend_kern|exact Hvm|exact Hroot|lia| |].
  { rewrite Elk. apply leaf_uflags. apply (UFLAGS_ok 0). }
  intros p0 Hp0. rewrite Elk, clear_flags. unfold sd. wsteps.
  destruct (set_leaf_ok kend kend_kern s l own root (4096 * Z.of_nat j) p0 (mkpte q 15) Hvm Hroot ltac:(lia) ltac:(apply pte_range; lia) Hp0) as [Hi Hx].
  destruct (changes_mem kend pool kend_kern pool_nodup pool_pages _ s R U l own _ (<[root := user_space tf (<[j := (q, 15)]> pages)]> R) l own Hm Hi Hx) as [Hm' Hs].
  - intros r. rewrite lookup_insert_is_Some. split; [|naive_solver]. intros ?. destruct (decide (root = r)); auto.
  - intros r f0 f' va' Hf0 Hf' Hva'. unfold map_one. destruct (Z.eqb_spec r root) as [->|]; cbn [andb].
    + rewrite lookup_insert_eq in Hf'. injection Hf' as <-. rewrite HR in Hf0. injection Hf0 as <-. rewrite (Z.mul_comm 4096), Z.div_mul by lia.
      assert (0 <= va' / 4096) by dlia. unfold ProcMem.user_space. destruct (Z.eqb_spec (va' / 4096) (Z.of_nat j)) as [E|E].
      * rewrite E, Nat2Z.id, list_lookup_insert_eq by done. zbool; lia || done.
      * rewrite list_lookup_insert_ne by lia. done.
    + rewrite lookup_insert_ne in Hf' by done. congruence.
  - assert ((<[j := (q, 15)]> pages).*1 = pages.*1) as E1 by (rewrite list_fmap_insert; apply list_insert_id; by rewrite list_lookup_fmap, Hj).
    split_and!; [done|exact Hs|]. split; [exact Hm'|apply lookup_insert_eq|by rewrite length_insert| |by rewrite E1|by rewrite E1].
    apply Forall_insert; [done|]. done.
Qed.

(** ** Stores *)

(** A byte of a list that ends in zeros. *)
Definition img_byte (img : list Z) (va : Z) : Z := default 0 (img !! Z.to_nat va).

Lemma rd_store_bytes bs : forall m a x, Forall (fun b => 0 <= b < 256) bs ->
  rd (store_bytes m a bs) x = if decide (a <= x < a + Z.of_nat (length bs)) then img_byte bs (x - a) else rd m x.
Proof.
  induction bs as [|b bs IH]; intros m a x Hb; cbn [store_bytes length].
  - destruct (decide _); [lia|done].
  - apply Forall_cons in Hb as [Hb0 Hb]. rewrite IH by done. destruct (decide (x = a)) as [->|Hne].
    + rewrite decide_False, decide_True by lia. rewrite rd_wr_eq, Z.sub_diag. unfold u8. by rewrite Z.mod_small.
    + rewrite rd_wr_ne by congruence. destruct (decide (a + 1 <= x < a + 1 + Z.of_nat (length bs))).
      * rewrite decide_True by lia. unfold img_byte. by replace (Z.to_nat (x - a)) with (S (Z.to_nat (x - (a + 1)))) by lia.
      * rewrite decide_False by lia. done.
Qed.
End ExecMem.
