(* ===== verification/ExecSpec.v ===== *)
(** * exec: a page table under construction

    exec fills a page table that belongs to no process yet.  [bld] says that its pages are
    apart from those of all processes; each step of exec keeps it, and [bld_free] and
    [bld_commit] are the two ways it ends. *)
From S2P Require Import Prelude Mem Riscv Kalloc Vm VmTree VmSpec VmCopy VmAlloc VmFree VmPool Proc ProcMem ProcInv ProcOps ProcFork ProcCopy ProcThms Exec ExecMem.

(** Another table outside the processes, or one less. *)
Section Roots.
Context {T : Type} `{!ProcFiles T}.
Variables (kend trampoline : Z) (pool : list Z).
Implicit Types (s : @kern T) (A : aspaces) (R : spaces) (K : list Z).
Abbreviation pmem_at := (pmem_at kend trampoline pool).

Lemma pmem_root R0 K K' s A R pt f m : pmem_at R0 K s A R -> (forall i, is_Some (A !! i) -> pt <> p_pagetable (getp s i)) ->
  mem_ok kend pool m (<[pt := f]> R) (users s A ++ K') -> pmem_at (<[pt := f]> R0) K' (with_km m s) A (<[pt := f]> R).
Proof.
  intros [H1 H2 H3 H4 H5] Hne Hm. split.
  - exact Hm.
  - intros i pages Hi. rewrite getp_km. destruct (H2 i pages Hi) as (G1 & G2 & G3 & G4). split_and!; try done; [apply G3..|].
    rewrite lookup_insert_ne; [done|]. apply Hne. by eexists.
  - exact H3.
  - intros r Hr. rewrite lookup_insert_is_Some in Hr. rewrite lookup_insert_is_Some. destruct Hr as [<-|[Hn Hr]]; [left; by left|].
    destruct (H4 r Hr) as [?|?]; [left; by right|by right].
  - intros r f' Hr. destruct (decide (pt = r)) as [<-|Hn].
    + rewrite lookup_insert_eq in Hr |- *. split; [done|]. exact Hne.
    + rewrite lookup_insert_ne in Hr |- * by done. by apply H5.
Qed.
Lemma pmem_unroot R0 K K' s A R pt m : pmem_at R0 K s A R -> is_Some (R0 !! pt) ->
  mem_ok kend pool m (delete pt R) (users s A ++ K') -> pmem_at (delete pt R0) K' (with_km m s) A (delete pt R).
Proof.
  intros [H1 H2 H3 H4 H5] [f Hpt] Hm. destruct (H5 _ _ Hpt) as [_ Hne]. split.
  - exact Hm.
  - intros i pages Hi. rewrite getp_km. destruct (H2 i pages Hi) as (G1 & G2 & G3 & G4). split_and!; try done; [apply G3..|].
    rewrite lookup_delete_ne; [done|]. apply Hne. by eexists.
  - exact H3.
  - intros r [Hn Hr]%lookup_delete_is_Some. rewrite lookup_delete_is_Some. destruct (H4 r Hr) as [?|?]; [left; by split|by right].
  - intros r f' [Hn Hr]%lookup_delete_Some. rewrite lookup_delete_ne by done. by apply H5.
Qed.
(** Process [p] takes over the table [pt]; its old one belongs to no process any more. *)
Lemma pmem_swap R0 K K' s s' A R p tf pt f old pages pages' : pmem_at (<[pt := f]> R0) K s A R -> R0 !! pt = None -> A !! p = Some pages ->
  old = p_pagetable (getp s p) -> f = user_space trampoline tf pages' -> tf = p_trapframe (getp s p) -> pt <> 0 ->
  (forall j, j <> p -> getp s' j = getp s j) -> p_pagetable (getp s' p) = pt -> p_trapframe (getp s' p) = tf -> space_ok (p_sz (getp s' p)) pages' ->
  km s' = km s -> K ≡ₚ pages'.*1 ++ K' -> pmem_at (<[old := user_space trampoline tf pages]> R0) (pages.*1 ++ K') s' (<[p := pages']> A) R.
Proof.
  intros [H1 H2 H3 H4 H5] HR0 HA Eold -> -> Hpt0 Ho E1 E2 E3 Ek EK. destruct (H5 pt _ ltac:(apply lookup_insert_eq)) as [HRpt Hne].
  destruct (H2 p pages HA) as (P1 & P2 & P3 & P4). assert (forall j, p <> j -> (<[p := pages']> A) !! j = A !! j) as Hlk by (intros; by rewrite lookup_insert_ne).
  split.
  - rewrite Ek. eapply mem_ok_perm; [|exact H1]. rewrite <- insert_delete_eq. rewrite users_insert by apply lookup_delete_eq.
    rewrite (users_delete s A p pages HA), EK, E2. assert (users s' (delete p A) = users s (delete p A)) as ->.
    { apply users_ext. intros j [x [Hj _]%lookup_delete_Some]. by rewrite Ho by done. }
    cbn. rewrite <- !app_assoc. f_equiv. rewrite (Permutation_app_swap_app (users _ _)), (Permutation_app_swap_app pages.*1). f_equiv. apply Permutation_app_swap_app.
  - intros i pages1 Hi. destruct (decide (p = i)) as [<-|Hn].
    + rewrite lookup_insert_eq in Hi. injection Hi as <-. rewrite E1, E2. split_and!; done || apply E3.
    + rewrite lookup_insert_ne in Hi by done. rewrite Ho by done. by apply H2.
  - intros i j Hi Hj. destruct (decide (p = i)) as [<-|Hn], (decide (p = j)) as [<-|Hn']; [done|..].
    + rewrite Hlk in Hj by done. rewrite E1, (Ho j) by done. intros E. by destruct (Hne j Hj).
    + rewrite Hlk in Hi by done. rewrite E1, (Ho i) by done. intros E. by destruct (Hne i Hi).
    + rewrite Hlk in Hi, Hj by done. rewrite !Ho by done. by apply H3.
  - intros r Hr. destruct (decide (r = pt)) as [->|Hn].
    { right. exists p. rewrite lookup_insert_eq. split; [eauto|done]. }
    destruct (H4 r Hr) as [Hx|(i & Hi & ->)].
    + rewrite lookup_insert_is_Some in Hx. destruct Hx as [?|[_ Hx]]; [done|]. left. rewrite lookup_insert_is_Some. destruct (decide (old = r)); auto.
    + destruct (decide (p = i)) as [<-|Hpi]; [left; rewrite lookup_insert_is_Some; by left|]. right. exists i. rewrite Hlk, Ho by done. done.
  - intros r f' Hr. destruct (decide (old = r)) as [<-|Hn].
    + rewrite lookup_insert_eq in Hr. injection Hr as <-. subst old. split; [done|]. intros i Hi. destruct (decide (p = i)) as [<-|Hpi].
      * rewrite E1. intros E. by apply (Hne p); [eexists|].
      * rewrite Hlk in Hi by done. rewrite Ho by done. intros E. apply Hpi. apply H3; [by eexists|done|done].
    + rewrite lookup_insert_ne in Hr by done. destruct (H5 r f') as [Hr1 Hr2]; [rewrite lookup_insert_ne; [done|]; intros <-; congruence|]. split; [done|].
      intros i Hi. destruct (decide (p = i)) as [<-|Hpi]; [rewrite E1; intros ->; congruence|]. rewrite Hlk in Hi by done. rewrite Ho by done. by apply Hr2.
Qed.
End Roots.

Section Build.
Context {T : Type} `{!ProcFiles T}.
Variables (kend trampoline : Z) (pool : list Z) (R0 : spaces) (K : list Z).
Hypothesis kend_kern : KERNBASE <= kend.
Hypothesis pool_nodup : NoDup pool.
Hypothesis pool_pages : Forall (page kend) pool.
Hypothesis tramp_ok : trampoline mod 4096 = 0 /\ 0 <= trampoline /\ trampoline + 4096 <= 2 ^ 56.
(** exec runs in state [s], for a process with the trap frame [tf]. *)
Variables (s : @kern T) (A : aspaces) (tf : Z).
Abbreviation pmem := (pmem kend trampoline pool).
Abbreviation maps := (maps kend trampoline pool).
Abbreviation stays := (stays pool).
Implicit Types (m : kmem) (pages : list (Z * Z)).

(** The pages of the processes and those [K] of the rest of the kernel. *)
Definition theirs : list Z := users s A ++ K.
Record bld m pt pages sz : Prop := {
  bd_pt : pt <> 0;
  bd_R0 : R0 !! pt = None;
  bd_space : space_ok sz pages;
  bd_mem : pmem (<[pt := user_space trampoline tf pages]> R0) (pages.*1 ++ K) (with_km m s) A;
}.

Lemma stays_theirs pages m m' : stays (users s A ++ pages.*1 ++ K) m m' -> stays theirs m m'.
Proof using. clear kend_kern pool_nodup pool_pages tramp_ok. apply stays_sub. intros q _. unfold theirs. rewrite !elem_of_app. tauto. Qed.

Lemma bld_maps m pt pages sz : bld m pt pages sz -> exists R, pmem_at kend trampoline pool (<[pt := user_space trampoline tf pages]> R0) (pages.*1 ++ K) (with_km m s) A R /\
  maps m R (users s A ++ pages.*1 ++ K) pt tf pages /\ forall i, is_Some (A !! i) -> pt <> p_pagetable (getp (with_km m s) i).
Proof using kend_kern pool_nodup pool_pages tramp_ok.
  intros [H1 H2 H3 [R H4]]. exists R. split; [done|]. destruct (pm_R0 _ _ _ _ _ _ _ _ H4 pt _ ltac:(apply lookup_insert_eq)) as [HR Hne]. split; [|done]. pose proof (pm_mem _ _ _ _ _ _ _ _ H4) as Hm. split.
  - exact Hm.
  - done.
  - by eapply space_ok_len.
  - apply H3.
  - intros q Hq. rewrite !elem_of_app. tauto.
  - destruct Hm as (l & own & Hm). pose proof (mem_nodup kend pool pool_nodup _ _ _ _ _ Hm) as Hn. rewrite !NoDup_app in Hn. tauto.
Qed.
(** A step that leaves the table at [pt] with [pages']. *)
Lemma bld_step m m' R pt pages pages' sz sz' : bld m pt pages sz ->
  pmem_at kend trampoline pool (<[pt := user_space trampoline tf pages]> R0) (pages.*1 ++ K) (with_km m s) A R ->
  maps m' (<[pt := user_space trampoline tf pages']> R) (users s A ++ pages'.*1 ++ K) pt tf pages' -> space_ok sz' pages' -> bld m' pt pages' sz'.
Proof using.
  clear kend_kern pool_nodup pool_pages tramp_ok. intros [H1 H2 _ _] Hp Hm Hsp. split; try done. exists (<[pt := user_space trampoline tf pages']> R).
  destruct (pm_R0 _ _ _ _ _ _ _ _ Hp pt _ ltac:(apply lookup_insert_eq)) as [_ Hne].
  pose proof (pmem_root kend trampoline pool _ _ (pages'.*1 ++ K) _ _ _ pt (user_space trampoline tf pages') m' Hp Hne (mp_mem _ _ _ _ _ _ _ _ _ Hm)) as Hp'.
  by rewrite insert_insert_eq in Hp'.
Qed.

Lemma bld_new m : pmem R0 K (with_km m s) A -> page kend tf ->
  wp (proc_pagetable kend trampoline tf) (KSt [] m) (fun r k => held k = [] /\ stays theirs m (st k) /\
    ((r = 0 /\ pmem R0 K (with_km (st k) s) A) \/ (r <> 0 /\ bld (st k) r [] 0))).
Proof using kend_kern pool_nodup pool_pages tramp_ok.
  intros [R Hp] Htf. pose proof (pm_mem _ _ _ _ _ _ _ _ Hp) as Hm.
  eapply wp_mono; [eapply (proc_pagetable_pool kend trampoline pool kend_kern pool_nodup pool_pages tramp_ok [] m R theirs tf); [apply not_elem_of_nil|exact Hm|done]|].
  intros r [h m'] (-> & Hs & Hc). cbn [held st] in *. split; [done|]. split; [done|]. destruct Hc as [[-> Hm']|(Hr & HR & Hm')].
  - left. split; [done|]. exists R. by eapply (pmem_at_ext _ _ _ _ K (with_km m s)).
  - right. split; [done|]. assert (forall i, is_Some (A !! i) -> r <> p_pagetable (getp (with_km m s) i)) as Hne.
    { intros i [pages Hi] ->. destruct (pm_space _ _ _ _ _ _ _ _ Hp i pages Hi) as (_ & _ & _ & Hx). congruence. }
    split; [done| |apply space_ok_0|].
    + destruct (R0 !! r) eqn:E; [|done]. destruct (pm_R0 _ _ _ _ _ _ _ _ Hp r _ E). congruence.
    + exists (<[r := user_space trampoline tf []]> R). apply (pmem_root kend trampoline pool R0 K K (with_km m s) A R r _ m'); done.
Qed.

Lemma bld_alloc m pt pages sz newsz : bld m pt pages sz -> sz <= newsz ->
  wp (uvmalloc kend pt sz newsz) (KSt [] m) (fun r k => held k = [] /\ stays (users s A ++ pages.*1 ++ K) m (st k) /\ ((r = 0 /\ bld (st k) pt pages sz) \/
    (r = newsz /\ exists ps, bld (st k) pt (pages ++ fresh ps) newsz /\ forall q o, q ∈ ps -> 0 <= o < 4096 -> rd (ram (st k)) (q + o) = 0))).
Proof using kend_kern pool_nodup pool_pages tramp_ok.
  intros B Hsz. destruct (bld_maps _ _ _ _ B) as (R & Hp & Hm & Hne).
  eapply wp_mono; [eapply (uvmalloc_maps kend trampoline pool kend_kern pool_nodup pool_pages [] m R _ pt tf pages sz newsz); [apply not_elem_of_nil|exact Hm|apply B|done]|].
  intros r [h m'] (-> & Hs & Hc). cbn [held st] in *. split; [done|]. split; [done|]. destruct Hc as [[-> Hm']|(-> & ps & Hsp & Hm' & Hz)].
  - left. split; [done|]. eapply (bld_step m m' R); [done|done| |apply B]. rewrite insert_id by apply Hm. by eapply maps_stays.
  - right. split; [done|]. exists ps. split; [|done]. eapply (bld_step m m' R); [done|done| |done]. rewrite fmap_app, fresh_fst.
    destruct Hm' as [G1 G2 G3 G4 G5 G6]. split; try done.
    + eapply mem_ok_perm; [|exact G1]. rewrite <- app_assoc. rewrite (Permutation_app_swap_app (users s A) pages.*1), (Permutation_app_swap_app (users s A)), (Permutation_app_swap_app ps pages.*1), (Permutation_app_swap_app (users s A) ps). done.
    + intros q Hq. rewrite fmap_app, fresh_fst in Hq. rewrite !elem_of_app in *. tauto.
Qed.

Lemma bld_clear m pt pages sz j q : bld m pt pages sz -> pages !! j = Some (q, UFLAGS) ->
  wp (uvmclear pt (4096 * Z.of_nat j)) (KSt [] m) (fun _ k => held k = [] /\ stays (users s A ++ pages.*1 ++ K) m (st k) /\ bld (st k) pt (<[j := (q, 15)]> pages) sz).
Proof using kend_kern pool_nodup pool_pages tramp_ok.
  intros B Hj. destruct (bld_maps _ _ _ _ B) as (R & Hp & Hm & Hne).
  eapply wp_mono; [by eapply (uvmclear_maps kend trampoline pool kend_kern pool_nodup pool_pages [] m R _ pt tf pages j q)|].
  intros _ [h m'] (-> & Hs & Hm'). cbn [held st] in *. split_and!; [done|done|]. assert ((<[j := (q, 15)]> pages).*1 = pages.*1) as E1.
  { rewrite list_fmap_insert. apply list_insert_id. by rewrite list_lookup_fmap, Hj. }
  eapply (bld_step m m' R); [done|done|by rewrite E1|]. destruct (bd_space _ _ _ _ B) as [S1 S2 S3]. split; [done|by rewrite length_insert|]. apply Forall_insert; done.
Qed.

Lemma bld_off m pt pages sz q : bld m pt pages sz -> q ∈ pages.*1 -> q ∈ pool /\ (q ∉ theirs).
Proof using kend_kern pool_nodup pool_pages tramp_ok.
  intros B Hq. destruct (bld_maps _ _ _ _ B) as (R & _ & Hm & _). destruct (mp_mem _ _ _ _ _ _ _ _ _ Hm) as (l & own & Hat).
  split; [apply (mem_disjoint kend pool kend_kern pool_nodup pool_pages _ _ _ _ _ q Hat (mp_in _ _ _ _ _ _ _ _ _ Hm q Hq))|].
  pose proof (mem_nodup kend pool pool_nodup _ _ _ _ _ Hat) as Hn. apply NoDup_app in Hn as (_ & N1 & N2). apply NoDup_app in N2 as (_ & N2 & _).
  unfold theirs. rewrite elem_of_app. intros [?|?]; [|by apply (N2 q)]. apply (N1 q); [done|]. rewrite elem_of_app. by left.
Qed.
(** Stores to the new pages. *)
Lemma bld_write m (w : mem) pt pages sz : bld m pt pages sz -> (forall x, (forall va, upa pages va <> Some x) -> rd w x = rd (ram m) x) ->
  bld (Kmem w (freelist m)) pt pages sz /\ stays theirs m (Kmem w (freelist m)).
Proof using kend_kern pool_nodup pool_pages tramp_ok.
  intros B Hw. destruct (bld_maps _ _ _ _ B) as (R & Hp & Hm & Hne). split.
  - eapply (bld_step m _ R); [done|done| |apply B]. rewrite insert_id by apply Hm. by apply (maps_write kend trampoline pool kend_kern pool_nodup pool_pages).
  - intros x Hx. apply Hw. intros va (q & Hq & Hr)%upa_page. destruct (bld_off _ _ _ _ q B Hq) as [Hqp Hn]. destruct (Hx q Hqp Hn); lia.
Qed.
Lemma bld_inj m pt pages sz va va' pa : bld m pt pages sz -> upa pages va = Some pa -> upa pages va' = Some pa -> va = va'.
Proof using kend_kern pool_nodup pool_pages tramp_ok. intros B. destruct (bld_maps _ _ _ _ B) as (R & Hp & Hm & Hne). by eapply upa_inj. Qed.
(** Stores to pages in use elsewhere, or outside the pool. *)
Lemma bld_other m (w : mem) pt pages sz : bld m pt pages sz -> (forall x, (exists q, q ∈ pool /\ (q ∉ theirs) /\ ~ off_page x q) -> rd w x = rd (ram m) x) ->
  bld (Kmem w (freelist m)) pt pages sz.
Proof using kend_kern pool_nodup pool_pages tramp_ok.
  intros B Hw. destruct (bld_maps _ _ _ _ B) as (R & Hp & Hm & Hne). eapply (bld_step m _ R); [done|done| |apply B]. rewrite insert_id by apply Hm.
  eapply maps_stays; [exact Hm|]. apply (mem_ok_write kend pool kend_kern pool_nodup pool_pages); [apply Hm|]. intros x (q & Hq & Hn & Hx). apply Hw. exists q. split_and!; try done.
  unfold theirs. rewrite !elem_of_app in *. tauto.
Qed.

(** Memory of the rest of the kernel: not of a process, not free, not a page table. *)
Definition kaddr (x : Z) : Prop := forall q, q ∈ pool -> q ∉ K -> off_page x q.
Lemma bld_copyout m pt pages sz va src len : bld m pt pages sz -> 0 <= va -> 0 <= len -> (forall i, 0 <= i < len -> kaddr (src + i)) ->
  (forall i, 0 <= i < len -> is_Some (upa pages (va + i))) ->
  wp (copyout pt va src len) (KSt [] m) (fun r k => held k = [] /\ r = 0 /\ bld (st k) pt pages sz /\ stays theirs m (st k) /\
    (forall i, 0 <= i < len -> exists pa, upa pages (va + i) = Some pa /\ rd (ram (st k)) pa = rd (ram m) (src + i)) /\
    (forall x, (forall i, 0 <= i < len -> upa pages (va + i) <> Some x) -> rd (ram (st k)) x = rd (ram m) x)).
Proof using kend_kern pool_nodup pool_pages tramp_ok.
  intros B Hva Hlen Hsrc Hmap. destruct (bld_maps _ _ _ _ B) as (R & _ & Hm & _).
  eapply wp_mono; [apply (copyout_maps kend trampoline pool kend_kern pool_nodup pool_pages [] m R _ pt tf pages va src len Hm Hva Hlen)|].
  - intros i q Hi Hq. destruct (bld_off _ _ _ _ q B Hq) as [Hqp Hn]. apply Hsrc; [done|done|]. intros Hk. apply Hn. unfold theirs. rewrite elem_of_app. by right.
  - intros r [h k] (-> & w & n & -> & _ & Hn & -> & He & H1 & H2). cbn [held st ram] in *. assert (n = len) as ->.
    { destruct (decide (n < len)) as [Hlt|]; [|lia]. destruct (Hmap n ltac:(lia)) as [pa Hpa]. rewrite He in Hpa by done. done. }
    rewrite Z.eqb_refl. destruct (bld_write m w pt pages sz B) as [B' Hs]; [intros x Hx; apply H2; intros i _; apply Hx|]. done.
Qed.

(** Giving up. *)
Lemma bld_free m pt pages sz sz' : bld m pt pages sz -> npages sz' = npages sz -> 0 <= sz' <= TRAPFRAME ->
  wp (proc_freepagetable kend pt sz') (KSt [] m) (fun _ k => held k = [] /\ stays theirs m (st k) /\ pmem R0 K (with_km (st k) s) A).
Proof using kend_kern pool_nodup pool_pages tramp_ok.
  intros B Hn Hsz. destruct (bld_maps _ _ _ _ B) as (R & Hp & Hm & Hne). destruct B as [B1 B2 [S1 S2 S3] B4].
  eapply wp_mono; [eapply (proc_freepagetable_pool kend trampoline pool kend_kern pool_nodup pool_pages tramp_ok [] m R (users s A ++ pages.*1 ++ K) theirs pt tf sz' pages);
    [apply not_elem_of_nil|apply Hm|apply Hm|split; [lia|lia|done]|apply Permutation_app_swap_app]|].
  intros _ [h m'] (-> & Hs & Hm'). cbn [held st] in *. split_and!; [done|done|]. exists (delete pt R).
  pose proof (pmem_unroot kend trampoline pool _ _ K _ _ _ pt m' Hp ltac:(rewrite lookup_insert_eq; by eexists) Hm') as Hp'.
  by rewrite delete_insert_id in Hp'.
Qed.

(** Process [p] takes over the new table; its old memory is freed. *)
Lemma bld_commit m pt pages sz p pages0 (s6 : @kern T) : bld m pt pages sz -> A !! p = Some pages0 -> tf = p_trapframe (getp s p) ->
  (forall j, j <> p -> getp s6 j = getp s j) -> p_pagetable (getp s6 p) = pt -> p_trapframe (getp s6 p) = tf -> p_sz (getp s6 p) = sz -> km s6 = m ->
  wp (onkm (proc_freepagetable kend (p_pagetable (getp s p)) (p_sz (getp s p)))) (KSt [] s6) (fun _ k => held k = [] /\ exists m', st k = with_km m' s6 /\
    pmem R0 K (with_km m' s6) (<[p := pages]> A) /\ stays (users s6 (<[p := pages]> A) ++ K) m m').
Proof using kend_kern pool_nodup pool_pages tramp_ok.
  intros [B1 B2 B3 [R Hp]] HA Etf Ho E1 E2 E3 Ek. set (old := p_pagetable (getp s p)). destruct (pm_space _ _ _ _ _ _ _ _ Hp p pages0 HA) as (_ & _ & Hsp0 & HR). rewrite getp_km in Hsp0, HR.
  assert (R0 !! old = None) as Hold.
  { destruct (R0 !! old) as [f|] eqn:E; [|done]. exfalso. assert (pt <> old) by (intros <-; congruence).
    destruct (pm_R0 _ _ _ _ _ _ _ _ Hp old f) as [_ Hne]; [by rewrite lookup_insert_ne|]. apply (Hne p); [by eexists|done]. }
  pose proof (pmem_swap kend trampoline pool R0 (pages.*1 ++ K) K (with_km m s) s6 A R p tf pt _ old pages0 pages Hp B2 HA eq_refl eq_refl Etf B1 Ho E1 E2 ltac:(by rewrite E3) Ek ltac:(done)) as Hsw.
  apply wp_onkm. rewrite Ek. pose proof (pm_mem _ _ _ _ _ _ _ _ Hsw) as Hm. rewrite Ek in Hm.
  eapply wp_mono; [eapply (proc_freepagetable_pool kend trampoline pool kend_kern pool_nodup pool_pages tramp_ok [] m R _ (users s6 (<[p := pages]> A) ++ K) old tf _ pages0);
    [apply not_elem_of_nil|exact Hm|by rewrite Etf|exact Hsp0|apply Permutation_app_swap_app]|].
  intros _ [h m'] (-> & Hs & Hm'). cbn [held st] in *. split; [done|]. exists m'. split_and!; [done| |done]. exists (delete old R).
  pose proof (pmem_unroot kend trampoline pool _ _ K _ _ _ old m' Hsw ltac:(rewrite lookup_insert_eq; by eexists) Hm') as Hp'. by rewrite delete_insert_id in Hp'.
Qed.
End Build.
