(* ===== verification/ExecLoad.v ===== *)
(** * exec: loading the program

    [load_image] is the memory image an ELF file describes; load_loop leaves exactly it in the
    new pages, with zeros up to the end of the last page. *)
From S2P Require Import Prelude Mem Riscv Kalloc Vm VmTree VmSpec VmCopy VmAlloc VmFree VmPool Proc ProcMem ProcInv ProcOps ProcFork ProcCopy ProcThms Exec ExecMem ExecSpec.

(** What readi copies of a file with the content [D]. *)
Definition readi_bytes (D : list Z) (off n : Z) : list Z :=
  if (Z.of_nat (length D) <? off) || (2 ^ 32 <=? off + n) then [] else take (Z.to_nat n) (drop (Z.to_nat off) D).
Lemma readi_bytes_length D off n : 0 <= off -> 0 < n -> Z.of_nat (length D) < 2 ^ 32 ->
  Z.of_nat (length (readi_bytes D off n)) = n <-> off + n <= Z.of_nat (length D).
Proof.
  intros Ho Hn HD. unfold readi_bytes. destruct (Z.ltb_spec (Z.of_nat (length D)) off); [cbn; lia|]. destruct (Z.leb_spec (2 ^ 32) (off + n)); [cbn; lia|]. cbn [orb].
  rewrite length_take, length_drop. lia.
Qed.
Lemma readi_bytes_le D off n : 0 <= n -> Z.of_nat (length (readi_bytes D off n)) <= n.
Proof. intros Hn. unfold readi_bytes. destruct (_ || _); [cbn; lia|]. rewrite length_take. lia. Qed.
Lemma readi_bytes_img D off n i : 0 <= off -> off + n <= Z.of_nat (length D) < 2 ^ 32 -> 0 <= i < n -> img_byte (readi_bytes D off n) i = img_byte D (off + i).
Proof.
  intros Ho HD Hi. unfold readi_bytes, img_byte. destruct (Z.ltb_spec (Z.of_nat (length D)) off); [lia|]. destruct (Z.leb_spec (2 ^ 32) (off + n)); [lia|]. cbn [orb].
  rewrite lookup_take_lt, lookup_drop by lia. do 2 f_equal. lia.
Qed.
Lemma readi_bytes_range D off n : Forall (fun b => 0 <= b < 256) D -> Forall (fun b => 0 <= b < 256) (readi_bytes D off n).
Proof. intros HD. unfold readi_bytes. destruct (_ || _); [constructor|]. by apply Forall_take, Forall_drop. Qed.

(** What exec relies on of log.c and fs.c: begin_op changes no file; namei finds the file a path
    names ([file_named], with its content) and gives a reference to its inode ([file_ref]), with
    which ilock gives access to the content ([file_open]), which readi reads and iunlockput
    gives back. *)
Class ExecFilesLaws (T : Type) `{!ProcFiles T, !ProcFilesLaws T, !ExecFiles T} := {
  file_named : T -> list Z -> list Z -> Prop;
  file_ref : T -> ftables -> Z -> list Z -> Prop;
  file_open : T -> ftables -> Z -> list Z -> Prop;
  law_xbegin t F : files_ok t F -> wp pf_begin_op (KSt [] t) (fun _ k => held k = [] /\ files_txn (st k) F /\ forall path D, file_named (st k) path D -> file_named t path D);
  law_xnamei t F path : files_txn t F -> wp (xf_namei path) (KSt [] t) (fun r k => held k = [] /\
    match r with None => files_txn (st k) F | Some ip => exists D, file_named t path D /\ file_ref (st k) F ip D end);
  law_xilock t F ip D : file_ref t F ip D -> wp (xf_ilock ip) (KSt [] t) (fun _ k => held k = [] /\ file_open (st k) F ip D);
  law_xsize t F ip D : file_open t F ip D -> Z.of_nat (length D) < 2 ^ 32 /\ Forall (fun b => 0 <= b < 256) D;
  law_xreadi t F ip D off n : file_open t F ip D -> 0 <= off < 2 ^ 32 -> 0 <= n ->
    wp (xf_readi ip off n) (KSt [] t) (fun bs k => held k = [] /\ bs = readi_bytes D off n /\ file_open (st k) F ip D);
  law_xput t F ip D : file_open t F ip D -> wp (xf_iunlockput ip) (KSt [] t) (fun _ k => held k = [] /\ files_txn (st k) F);
}.

(** ** The image of a file *)

Definition zpad (n : Z) (img : list Z) : list Z := img ++ replicate (Z.to_nat n - length img) 0.
Definition overwrite (img : list Z) (off : Z) (bs : list Z) : list Z := take (Z.to_nat off) img ++ bs ++ drop (Z.to_nat off + length bs) img.

(** A segment that can be loaded. *)
Definition loadable (D img : list Z) (ph : proghdr) : bool :=
  (ph_filesz ph <=? ph_memsz ph) && (ph_vaddr ph + ph_memsz ph <? 2 ^ 64) && (0 <? Z.max (Z.of_nat (length img)) (ph_vaddr ph + ph_memsz ph)) &&
  (ph_vaddr ph mod PGSIZE =? 0) && ((ph_filesz ph =? 0) || (u32 (ph_off ph) + ph_filesz ph <=? Z.of_nat (length D))).
Definition load_segment (D img : list Z) (ph : proghdr) : list Z :=
  overwrite (zpad (ph_vaddr ph + ph_memsz ph) img) (ph_vaddr ph) (take (Z.to_nat (ph_filesz ph)) (drop (Z.to_nat (u32 (ph_off ph))) D)).
(** The segments of [n] program headers at [off] over the image [img]. *)
Fixpoint load_image (D : list Z) (n : nat) (off : Z) (img : list Z) : option (list Z) :=
  match n with
  | O => Some img
  | S n' =>
    let b := readi_bytes D (u32 off) SIZEOF_PROGHDR in
    if negb (Z.of_nat (length b) =? SIZEOF_PROGHDR) then None else
    let ph := proghdr_of b in
    let off' := i32 (off + SIZEOF_PROGHDR) in
    if negb (ph_type ph =? ELF_PROG_LOAD) then load_image D n' off' img else
    if loadable D img ph then load_image D n' off' (load_segment D img ph) else None
  end.

Lemma overwrite_length img off bs : 0 <= off -> off + Z.of_nat (length bs) <= Z.of_nat (length img) -> length (overwrite img off bs) = length img.
Proof. intros Ho Hl. unfold overwrite. rewrite !length_app, length_take, length_drop. lia. Qed.
Lemma overwrite_lookup img off bs (i : nat) : 0 <= off -> off + Z.of_nat (length bs) <= Z.of_nat (length img) ->
  overwrite img off bs !! i = if decide (off <= Z.of_nat i < off + Z.of_nat (length bs)) then bs !! (i - Z.to_nat off)%nat else img !! i.
Proof.
  intros Ho Hl. unfold overwrite. destruct (decide _) as [H|H].
  - rewrite lookup_app_r by (rewrite length_take; lia). rewrite length_take, lookup_app_l by lia. f_equal. lia.
  - destruct (decide (Z.of_nat i < off)).
    + rewrite lookup_app_l by (rewrite length_take; lia). by rewrite lookup_take_lt by lia.
    + rewrite lookup_app_r by (rewrite length_take; lia). rewrite length_take, lookup_app_r, lookup_drop by lia. f_equal. lia.
Qed.
Lemma zpad_length n img : 0 <= n -> Z.of_nat (length (zpad n img)) = Z.max (Z.of_nat (length img)) n.
Proof. intros Hn. unfold zpad. rewrite length_app, length_replicate. lia. Qed.
Lemma zpad_byte n img va : img_byte (zpad n img) va = img_byte img va.
Proof.
  unfold img_byte, zpad. destruct (decide (Z.to_nat va < length img)%nat).
  - by rewrite lookup_app_l.
  - rewrite lookup_app_r by lia. rewrite (lookup_ge_None_2 img) by lia. destruct (replicate _ 0 !! _) eqn:E; [|done]. by apply lookup_replicate in E as [-> _].
Qed.
Lemma seg_byte D img ph va : 0 <= (ph_vaddr ph) -> 0 <= (ph_filesz ph) <= ph_memsz ph -> ((ph_filesz ph) = 0 \/ u32 (ph_off ph) + (ph_filesz ph) <= Z.of_nat (length D)) -> 0 <= va ->
  img_byte (load_segment D img ph) va = if decide ((ph_vaddr ph) <= va < (ph_vaddr ph) + (ph_filesz ph)) then img_byte D (u32 (ph_off ph) + (va - ph_vaddr ph)) else img_byte img va.
Proof.
  intros Hv Hf HD Hva. unfold load_segment. pose proof (u32_range (ph_off ph)) as Hu. set (bs := take _ _).
  assert (Z.of_nat (length bs) = (ph_filesz ph)) as El by (unfold bs; rewrite length_take, length_drop; destruct HD; lia).
  assert ((ph_vaddr ph) + Z.of_nat (length bs) <= Z.of_nat (length (zpad ((ph_vaddr ph) + ph_memsz ph) img))) as Hfit by (rewrite zpad_length by lia; lia).
  unfold img_byte at 1. rewrite overwrite_lookup by (lia || exact Hfit). rewrite El, Z2Nat.id by lia. destruct (decide _) as [H|H]; [|apply zpad_byte].
  unfold bs, img_byte. rewrite lookup_take_lt, lookup_drop by lia. do 2 f_equal. lia.
Qed.
Lemma seg_length D img ph : 0 <= ph_vaddr ph -> 0 <= ph_filesz ph <= ph_memsz ph -> (ph_filesz ph = 0 \/ u32 (ph_off ph) + ph_filesz ph <= Z.of_nat (length D)) ->
  Z.of_nat (length (load_segment D img ph)) = Z.max (Z.of_nat (length img)) (ph_vaddr ph + ph_memsz ph).
Proof.
  intros Hv Hf HD. unfold load_segment. pose proof (u32_range (ph_off ph)) as Hu. rewrite overwrite_length; [apply zpad_length; lia|lia|].
  rewrite zpad_length, length_take, length_drop by lia. destruct HD; lia.
Qed.
Lemma le_get_range bs : Forall (fun b => 0 <= b < 256) bs -> 0 <= le_get bs < 256 ^ Z.of_nat (length bs).
Proof.
  induction bs as [|b bs IH]; intros H; cbn [le_get length]; [done|]. apply Forall_cons in H as [Hb H]. specialize (IH H).
  rewrite Nat2Z.inj_succ, Z.pow_succ_r by lia. lia.
Qed.
Lemma field_range b o n : Forall (fun b => 0 <= b < 256) b -> 0 <= field b o n < 256 ^ Z.of_nat n.
Proof.
  intros H. unfold field. pose proof (le_get_range (take n (drop o b)) ltac:(by apply Forall_take, Forall_drop)) as Hr.
  assert (256 ^ Z.of_nat (length (take n (drop o b))) <= 256 ^ Z.of_nat n); [|lia]. apply Z.pow_le_mono_r; [lia|]. rewrite length_take. lia.
Qed.

(** ** The loader *)

Section Load.
Context {T : Type} `{!ProcFiles T, !ProcFilesLaws T, !ExecFiles T, !ExecFilesLaws T}.
Variables (kend trampoline : Z) (pool : list Z) (R0 : spaces) (K : list Z).
Hypothesis kend_kern : KERNBASE <= kend.
Hypothesis pool_nodup : NoDup pool.
Hypothesis pool_pages : Forall (page kend) pool.
Hypothesis tramp_ok : trampoline mod 4096 = 0 /\ 0 <= trampoline /\ trampoline + 4096 <= 2 ^ 56.
Variables (s : @kern T) (A : aspaces) (tf : Z) (F : ftables) (ip : Z) (D : list Z).
Abbreviation stays := (stays pool).
Abbreviation bld := (bld kend trampoline pool R0 K s A tf).
Abbreviation theirs := (theirs K s A).
Implicit Types (m : kmem) (t : T) (pages : list (Z * Z)).

(** The state exec has reached: only memory and the file layer have changed. *)
Definition at_ t m : @kern T := with_rest t (with_km m s).

(** The pages hold [img], with zeros behind it. *)
Definition img_at m pages img : Prop := forall va, 0 <= va < 4096 * Z.of_nat (length pages) -> exists pa, upa pages va = Some pa /\ rd (ram m) pa = img_byte img va.

(** [pages] hold the bytes [i] to [n] of the segment at [off] in the file, from [va] on. *)
Record seg_loaded m m' pages va off i n : Prop := {
  sg_in : forall j, i <= j < n -> exists pa, upa pages (va + j) = Some pa /\ rd (ram m') pa = img_byte D (off + j);
  sg_out : forall x, (forall j, i <= j < n -> upa pages (va + j) <> Some x) -> rd (ram m') x = rd (ram m) x;
}.

Lemma page_bytes m pt pages sz va n bs (Hb : Forall (fun b => 0 <= b < 256) bs) : bld m pt pages sz -> (forall j, 0 <= j < n -> is_Some (upa pages (va + j))) ->
  va mod 4096 = 0 -> 0 < n <= 4096 -> Z.of_nat (length bs) <= n -> forall pa, upa pages va = Some pa ->
  let m' := Kmem (store_bytes (ram m) pa bs) (freelist m) in bld m' pt pages sz /\ stays theirs m m' /\
    (forall j, 0 <= j < Z.of_nat (length bs) -> upa pages (va + j) = Some (pa + j) /\ rd (ram m') (pa + j) = img_byte bs j) /\
    (forall x, (forall j, 0 <= j < Z.of_nat (length bs) -> upa pages (va + j) <> Some x) -> rd (ram m') x = rd (ram m) x).
Proof using kend_kern pool_nodup pool_pages tramp_ok.
  clear F ip D. intros B Hu Ha Hn Hl pa Hpa m'. assert (forall j, 0 <= j < n -> upa pages (va + j) = Some (pa + j)) as Hj.
  { intros j Hj. destruct (Hu j Hj) as [pa' Hpa']. apply upa_Some in Hpa as (q & f & Hq & -> & Hv). pose proof Hpa' as (q' & f' & Hq' & -> & Hv')%upa_Some.
    replace ((va + j) / 4096) with (va / 4096) in Hq' by dlia. rewrite Hq in Hq'. injection Hq' as <- <-. rewrite Hpa'. f_equal. dlia. }
  assert (forall x, (forall j, 0 <= j < Z.of_nat (length bs) -> upa pages (va + j) <> Some x) -> rd (ram m') x = rd (ram m) x) as Hout.
  { intros x Hx. cbn. rewrite rd_store_bytes by done. rewrite decide_False; [done|]. intros Hr. apply (Hx (x - pa)); [lia|]. rewrite Hj by lia. f_equal. lia. }
  destruct (bld_write kend trampoline pool R0 K kend_kern pool_nodup pool_pages tramp_ok s A tf m (store_bytes (ram m) pa bs) pt pages sz B) as [B' Hs].
  { intros x Hx. apply Hout. intros j _. apply Hx. }
  split_and!; [done|done| |done]. intros j Hjl. split; [apply Hj; lia|]. cbn. rewrite rd_store_bytes by done. rewrite decide_True by lia. f_equal. lia.
Qed.

Lemma loadseg_loop_spec pt pages sz va off n f : forall t m i, bld m pt pages sz -> file_open t F ip D -> va mod 4096 = 0 -> 0 <= va -> va + n <= 2 ^ 40 -> 0 <= off < 2 ^ 32 ->
  (forall j, 0 <= j < n -> is_Some (upa pages (va + j))) -> 0 <= i -> i mod 4096 = 0 -> i < n + 4096 -> (i < n -> off + i < 2 ^ 32) -> n < 2 ^ 31 -> n <= i + 4096 * Z.of_nat f ->
  wp (loadseg_loop f pt va ip off n i) (KSt [] (at_ t m)) (fun r k => held k = [] /\ exists t' m', st k = at_ t' m' /\ file_open t' F ip D /\ bld m' pt pages sz /\ stays theirs m m' /\
    ((r = -1 /\ Z.of_nat (length D) < off + n) \/ (r = 0 /\ (n <= i \/ off + n <= Z.of_nat (length D)) /\ seg_loaded m m' pages va off i n))).
Proof using kend_kern pool_nodup pool_pages tramp_ok.
  induction f as [|f IH]; intros t m i B Ho Ha Hva Hmax Hoff Hu Hi Hi0 Hi1 Hw Hn Hf; cbn [loadseg_loop];
    (destruct (Z.ltb_spec i n); cbn [negb]; [|wstep; split; [done|]; exists t, m; split_and!; try done; right; split_and!; [done|by left|]; split; [lia|done]]); [lia|].
  destruct (bld_maps kend trampoline pool R0 K kend_kern pool_nodup pool_pages tramp_ok s A tf m pt pages sz B) as (R & _ & Hm & _).
  specialize (Hw ltac:(lia)). destruct (law_xsize t F ip D Ho) as [HD HDb]. destruct (Hu i ltac:(lia)) as [pa Hpa]. wstep. apply wp_onkm. rewrite u64_small by lia.
  eapply (walkaddr_maps kend trampoline pool kend_kern pool_nodup pool_pages); [exact Hm|lia|]. cbn [held st]. rewrite Hpa. replace ((va + i) mod 4096) with 0 by dlia. rewrite Z.sub_0_r.
  assert (pa <> 0) as Hpa0.
  { destruct (upa_page _ _ _ Hpa) as (q & Hq & Hr). destruct (mp_mem _ _ _ _ _ _ _ _ _ Hm) as (l & own & Hat).
    destruct (mem_disjoint kend pool kend_kern pool_nodup pool_pages _ _ _ _ _ q Hat (mp_in _ _ _ _ _ _ _ _ _ Hm q Hq)) as (_ & Hqp & _). pose proof (page_pos kend kend_kern q Hqp). lia. }
  destruct (Z.eqb_spec pa 0); [done|]. rewrite (u32_small (n - i)), (u32_small (off + i)) by lia. set (c := if n - i <? PGSIZE then n - i else PGSIZE).
  assert (0 < c <= 4096 /\ c <= n - i /\ (c = 4096 \/ c = n - i)) as (Hc & Hcn & Hcc) by (unfold c, PGSIZE; destruct (Z.ltb_spec (n - i) 4096); lia).
  wstep. apply wp_onrest. eapply wp_mono; [apply (law_xreadi t F ip D (off + i) c Ho); lia|]. intros bs [h' t1] (-> & Ebs & Ho1). cbn [held st] in *.
  pose proof (readi_bytes_le D (off + i) c ltac:(lia)) as Hble. rewrite <- Ebs in Hble. pose proof (readi_bytes_range D (off + i) c HDb) as Hbr. rewrite <- Ebs in Hbr.
  destruct (page_bytes m pt pages sz (va + i) c bs Hbr B) with (pa := pa) as (B1 & Hs1 & Hin & Hout); try done; [intros j Hj; rewrite <- Z.add_assoc; apply Hu; lia|dlia|].
  unfold on_ram. wstep. apply wp_onkm. wstep. cbn [held st]. set (m1 := Kmem _ _) in *. change (with_km m1 (with_rest t1 (with_km m (at_ t m)))) with (at_ t1 m1).
  destruct (Z.eqb_spec (Z.of_nat (length bs)) c) as [El|El]; cbn [negb]; cycle 1.
  { wstep. split; [done|]. exists t1, m1. split_and!; try done. left. split; [done|]. rewrite Ebs, readi_bytes_length in El by lia. lia. }
  assert (off + i + c <= Z.of_nat (length D)) as Hfit by (by rewrite Ebs, readi_bytes_length in El by lia).
  unfold PGSIZE. rewrite u32_small by lia. eapply wp_mono; [apply (IH t1 m1 (i + 4096)); try done; try lia; try dlia|].
  intros r k (Hk & t2 & m2 & Ek & Ho2 & B2 & Hs2 & Hc2). split; [done|]. exists t2, m2. split_and!; try done; [by eapply stays_trans|].
  destruct Hc2 as [[-> Hbad]|(-> & Hok & [G1 G2])]; [left; by split|right]. split; [done|]. split; [right; lia|]. split.
  - intros j Hj. destruct (decide (i + 4096 <= j)) as [Hge|Hlt]; [apply G1; lia|]. destruct (Hin (j - i)) as [E1 E2]; [lia|]. replace (va + i + (j - i)) with (va + j) in E1 by lia.
    exists (pa + (j - i)). split; [done|]. rewrite G2; [|intros j' Hj' E; pose proof (bld_inj kend trampoline pool R0 K kend_kern pool_nodup pool_pages tramp_ok s A tf _ _ _ _ _ _ _ B E1 E); lia].
    rewrite E2, Ebs, readi_bytes_img by lia. f_equal. lia.
  - intros x Hx. rewrite G2 by (intros j Hj; apply Hx; lia). apply Hout. intros j Hj. replace (va + i + j) with (va + (i + j)) by lia. apply Hx. lia.
Qed.

(** ** Images *)

Definition uniform pages : Prop := Forall (fun x => x.2 = UFLAGS) pages.
Lemma bld_size m pt pages sz : bld m pt pages sz -> Z.of_nat (length pages) <= 32768 /\ 0 <= sz <= 4096 * Z.of_nat (length pages) /\ 4096 * Z.of_nat (length pages) < sz + 4096.
Proof using kend_kern pool_nodup pool_pages tramp_ok.
  clear F. intros B. destruct (bld_maps kend trampoline pool R0 K kend_kern pool_nodup pool_pages tramp_ok s A tf m pt pages sz B) as (R & _ & Hm & _).
  split; [by eapply (maps_len kend trampoline pool kend_kern pool_nodup pool_pages)|]. destruct (bd_space _ _ _ _ _ _ _ _ _ _ _ _ B) as [S1 S2 _]. unfold npages in S2. dlia.
Qed.
(** A byte of a new page does not change in a step that keeps the new pages. *)
Lemma bld_rd m m' pt pages sz va pa : bld m pt pages sz -> stays (users s A ++ pages.*1 ++ K) m m' -> upa pages va = Some pa -> rd (ram m') pa = rd (ram m) pa.
Proof using kend_kern pool_nodup pool_pages tramp_ok.
  clear F. intros B Hs (q & Hq & Hr)%upa_page. destruct (bld_maps kend trampoline pool R0 K kend_kern pool_nodup pool_pages tramp_ok s A tf m pt pages sz B) as (R & _ & Hm & _).
  replace pa with (q + (pa - q)) by lia. apply (stays_page kend pool kend_kern pool_nodup pool_pages m R (users s A ++ pages.*1 ++ K)); [apply Hm|done|by apply (mp_in _ _ _ _ _ _ _ _ _ Hm)|lia].
Qed.

Lemma img_alloc m m' pt pages sz ps sz' img : bld m pt pages sz -> stays (users s A ++ pages.*1 ++ K) m m' -> bld m' pt (pages ++ fresh ps) sz' ->
  (forall q o, q ∈ ps -> 0 <= o < 4096 -> rd (ram m') (q + o) = 0) -> Z.of_nat (length img) <= 4096 * Z.of_nat (length pages) -> img_at m pages img -> img_at m' (pages ++ fresh ps) img.
Proof using kend_kern pool_nodup pool_pages tramp_ok.
  clear F. intros B Hs B' Hz Hl Him va Hva. destruct (bld_size _ _ _ _ B') as (Hmax & _). unfold fresh in Hva, Hmax. rewrite length_app, length_fmap in Hva, Hmax.
  destruct (decide (va < 4096 * Z.of_nat (length pages))) as [Hlt|Hge].
  - destruct (Him va ltac:(lia)) as (pa & Hpa & <-). exists pa. split; [by apply upa_app_l|]. by eapply bld_rd.
  - destruct (upa_fresh pages ps va) as (q & Hq & E); [lia|change MAXVA with (2 ^ 38); lia|]. exists (q + va mod 4096). split; [done|].
    rewrite Hz by (done || apply Z.mod_pos_bound; lia). unfold img_byte. rewrite lookup_ge_None_2 by lia. done.
Qed.
Lemma img_segment m m' pt pages sz img ph (fsz := ph_filesz ph) : bld m pt pages sz -> img_at m pages img -> 0 <= ph_vaddr ph -> 0 <= fsz <= ph_memsz ph ->
  (fsz = 0 \/ u32 (ph_off ph) + fsz <= Z.of_nat (length D)) -> seg_loaded m m' pages (ph_vaddr ph) (u32 (ph_off ph)) 0 fsz -> img_at m' pages (load_segment D img ph).
Proof using kend_kern pool_nodup pool_pages tramp_ok.
  clear F. intros B Him Hv Hf HD [G1 G2] va Hva. rewrite seg_byte by (done || lia). destruct (decide _) as [H|H].
  - destruct (G1 (va - ph_vaddr ph)) as (pa & E1 & E2); [unfold fsz; lia|]. exists pa. by replace (ph_vaddr ph + (va - ph_vaddr ph)) with va in E1 by lia.
  - destruct (Him va Hva) as (pa & Hpa & <-). exists pa. split; [done|]. apply G2. intros j Hj E.
    pose proof (bld_inj kend trampoline pool R0 K kend_kern pool_nodup pool_pages tramp_ok s A tf _ _ _ _ _ _ _ B Hpa E). unfold fsz in Hj. lia.
Qed.

(** uvmalloc in the loader. *)
Lemma alloc_image m pt pages sz newsz img : bld m pt pages sz -> 0 <= newsz -> uniform pages -> Z.of_nat (length img) = sz -> img_at m pages img ->
  wp (uvmalloc kend pt sz newsz) (KSt [] m) (fun r k => held k = [] /\ stays theirs m (st k) /\ ((r = 0 /\ exists pages', bld (st k) pt pages' sz) \/
    (r <> 0 /\ r = Z.max sz newsz /\ exists pages', bld (st k) pt pages' r /\ uniform pages' /\ img_at (st k) pages' img))).
Proof using kend_kern pool_nodup pool_pages tramp_ok.
  clear F. intros B Hnew Hu Hl Him. destruct (bld_size _ _ _ _ B) as (_ & Hsz & _). destruct (decide (newsz < sz)) as [Hlt|Hge].
  { unfold uvmalloc. destruct (Z.ltb_spec newsz sz); [|lia]. wstep. split_and!; [done|done|]. right. split_and!; [lia..|]. eauto. }
  eapply wp_mono; [apply (bld_alloc kend trampoline pool R0 K kend_kern pool_nodup pool_pages tramp_ok s A tf m pt pages sz newsz B); lia|].
  intros r [h m'] (-> & Hs & Hc). cbn [held st] in *. split; [done|]. split; [by eapply (stays_theirs pool K s A pages)|]. destruct Hc as [[-> B']|(-> & ps & B' & Hz)]; [left; eauto|].
  destruct (decide (newsz = 0)) as [->|]; [left; assert (sz = 0) as -> by lia; eauto|]. right. split_and!; [done|lia|]. exists (pages ++ fresh ps). split_and!; [done| |].
  - apply Forall_app. split; [done|]. by apply Forall_fmap, Forall_true.
  - eapply img_alloc; try done. lia.
Qed.

Lemma loadseg_spec t m pt pages sz img va off n : bld m pt pages sz -> img_at m pages img -> file_open t F ip D -> va mod 4096 = 0 -> 0 <= va -> 0 <= n -> va + n <= sz -> 0 <= off < 2 ^ 32 ->
  wp (loadseg pt va ip off n) (KSt [] (at_ t m)) (fun r k => held k = [] /\ exists t' m', st k = at_ t' m' /\ file_open t' F ip D /\ bld m' pt pages sz /\ stays theirs m m' /\
    ((r = -1 /\ Z.of_nat (length D) < off + n) \/ (r = 0 /\ (n = 0 \/ off + n <= Z.of_nat (length D)) /\ seg_loaded m m' pages va off 0 n))).
Proof using kend_kern pool_nodup pool_pages tramp_ok.
  intros B Him Ho Ha Hva Hn Hsz Hoff. destruct (bld_size _ _ _ _ B) as (Hmax & Hs1 & _). unfold loadseg, PGSIZE. rewrite Ha, Z.eqb_refl. cbn [negb].
  eapply wp_mono; [apply (loadseg_loop_spec pt pages sz va off n (Z.to_nat (n / 4096 + 1)) t m 0); try done; try lia; try dlia|].
  - intros j Hj. destruct (Him (va + j)) as (pa & Hpa & _); [lia|]. by eexists.
  - intros r k (Hk & t' & m' & Ek & Ho' & B' & Hs' & Hc). split; [done|]. exists t', m'. split_and!; try done. destruct Hc as [?|(-> & Hc & ?)]; [by left|right].
    split_and!; [done| |done]. destruct Hc; [left|right]; lia.
Qed.

Definition loaded_to n off img m pt (r : Z + Z) (k : kst (@kern T)) : Prop :=
  held k = [] /\ exists t' m', st k = at_ t' m' /\ file_open t' F ip D /\ stays theirs m m' /\
    match r with
    | inl sz' => exists pages', bld m' pt pages' sz'
    | inr sz' => exists pages' img', bld m' pt pages' sz' /\ uniform pages' /\ load_image D n off img = Some img' /\ Z.of_nat (length img') = sz' /\ img_at m' pages' img'
    end.
Lemma loaded_stays n n' off off' img img' m m1 pt r k : load_image D n off img = load_image D n' off' img' -> stays theirs m m1 ->
  loaded_to n' off' img' m1 pt r k -> loaded_to n off img m pt r k.
Proof using. intros E Hs (Hk & t' & m' & Ek & Ho & Hs' & Hr). split; [done|]. exists t', m'. rewrite E. split_and!; try done. by eapply stays_trans. Qed.

Lemma load_loop_spec n : forall t m pt pages sz img off, bld m pt pages sz -> uniform pages -> Z.of_nat (length img) = sz -> img_at m pages img -> file_open t F ip D ->
  wp (load_loop kend n pt ip off sz) (KSt [] (at_ t m)) (loaded_to n off img m pt).
Proof using kend_kern pool_nodup pool_pages tramp_ok.
  induction n as [|n IH]; intros t m pt pages sz img off B Hu Hl Him Ho; cbn [load_loop].
  { wstep. split; [done|]. exists t, m. split_and!; try done. exists pages, img. done. }
  assert (forall t' m' pages' sz', file_open t' F ip D -> stays theirs m m' -> bld m' pt pages' sz' -> loaded_to (S n) off img m pt (inl sz') (KSt [] (at_ t' m'))) as Hbad.
  { intros t' m' pages' sz' Ho' Hs' B'. split; [done|]. exists t', m'. split_and!; try done. by exists pages'. }
  wstep. apply wp_onrest. eapply wp_mono; [apply (law_xreadi t F ip D (u32 off) SIZEOF_PROGHDR Ho); [apply u32_range|done]|].
  intros b [h' t1] (-> & Eb & Ho1). cbn [held st] in *. change (with_rest t1 (at_ t m)) with (at_ t1 m). destruct (law_xsize t F ip D Ho) as [HD HDb].
  destruct (Z.eqb_spec (Z.of_nat (length b)) SIZEOF_PROGHDR) as [Elen|]; cbn [negb]; [|wstep; by eapply Hbad].
  set (ph := proghdr_of b) in *. set (off' := i32 (off + SIZEOF_PROGHDR)).
  assert (load_image D (S n) off img = if negb (ph_type ph =? ELF_PROG_LOAD) then load_image D n off' img else if loadable D img ph then load_image D n off' (load_segment D img ph) else None) as Eim.
  { cbn [load_image]. rewrite <- Eb, Elen, Z.eqb_refl. done. }
  destruct (Z.eqb_spec (ph_type ph) ELF_PROG_LOAD); cbn [negb] in *; [|eapply wp_mono; [by eapply IH|intros r k; by apply loaded_stays]].
  pose proof (readi_bytes_range D (u32 off) SIZEOF_PROGHDR HDb) as Hbr. rewrite <- Eb in Hbr.
  assert (0 <= ph_vaddr ph < 2 ^ 64 /\ 0 <= ph_filesz ph < 2 ^ 64 /\ 0 <= ph_memsz ph < 2 ^ 64) as (Rv & Rf & Rm) by (split_and!; apply (field_range b _ 8 Hbr)).
  destruct (Z.ltb_spec (ph_memsz ph) (ph_filesz ph)); [wstep; by eapply Hbad|].
  destruct (Z.ltb_spec (u64 (ph_vaddr ph + ph_memsz ph)) (ph_vaddr ph)) as [|Hov]; [wstep; by eapply Hbad|].
  assert (ph_vaddr ph + ph_memsz ph < 2 ^ 64) as Hno. { destruct (decide (ph_vaddr ph + ph_memsz ph < 2 ^ 64)); [done|]. unfold u64 in Hov. dlia. }
  rewrite u64_small by lia. wstep. apply wp_onkm. eapply wp_mono; [eapply (alloc_image m pt pages sz _ img); done || lia|].
  intros sz1 [h1 m1] (-> & Hs1 & Hc). cbn [held st] in *. change (with_km m1 (at_ t1 m)) with (at_ t1 m1).
  destruct Hc as [(-> & pages1 & B1)|(Hn0 & Esz & pages1 & B1 & Hu1 & Him1)]; [rewrite Z.eqb_refl; wstep; by eapply Hbad|].
  destruct (Z.eqb_spec sz1 0); [done|]. destruct (bld_size _ _ _ _ B1) as (Hlen & Hsz & _).
  destruct (Z.eqb_spec (ph_vaddr ph mod PGSIZE) 0) as [Hal|]; cbn [negb]; [|wstep; by eapply Hbad].
  wstep. rewrite (u32_small (ph_filesz ph)) by lia.
  eapply wp_mono; [apply (loadseg_spec t1 m1 pt pages1 sz1 img (ph_vaddr ph) (u32 (ph_off ph)) (ph_filesz ph) B1 Him1 Ho1 Hal); try lia; apply u32_range|].
  intros r [h2 k] (Eh & t2 & m2 & Ek & Ho2 & B2 & Hs2 & Hc). cbn [held st] in *. subst h2 k. assert (stays theirs m m2) as Hs by (by eapply stays_trans).
  destruct Hc as [[-> _]|(-> & Hfit & Hseg)]; cbn [Z.ltb Z.compare]; [wstep; by eapply Hbad|].
  assert (loadable D img ph = true) as El by (unfold loadable; rewrite Hal; zbool; try lia; done). rewrite El in Eim.
  eapply wp_mono; [eapply (IH t2 m2 pt pages1 sz1 (load_segment D img ph) off'); try done|].
  - rewrite seg_length by (done || lia). lia.
  - eapply (img_segment m1); done || lia.
  - intros r k. by apply loaded_stays.
Qed.
End Load.
