(* ===== verification/ExecArgs.v ===== *)
(** * exec: the arguments

    What push_args leaves on the new stack and in ustack. *)
From S2P Require Import Prelude Mem Riscv Kalloc Vm VmTree VmSpec VmCopy VmAlloc VmFree VmPool Proc ProcMem ProcInv ProcOps ProcFork ProcCopy ProcThms Exec ExecMem ExecSpec ExecLoad.

(** [str] is the C string at [a]. *)
Definition cstring (m : mem) (a : Z) (str : list Z) : Prop :=
  (forall i c, str !! i = Some c -> rd m (a + Z.of_nat i) = c /\ c <> 0) /\ rd m (a + Z.of_nat (length str)) = 0.
Lemma strlen_loop_cstring m a str : cstring m a str -> forall f n, (n <= length str)%nat -> (length str < n + f)%nat ->
  strlen_loop m a (Z.of_nat n) f = Some (Z.of_nat (length str)).
Proof.
  intros [H1 H2]. induction f as [|f IH]; intros n Hn Hf; [lia|]. cbn [strlen_loop]. destruct (decide (n = length str)) as [->|].
  - by rewrite H2, Z.eqb_refl.
  - destruct (lookup_lt_is_Some_2 str n) as [c Hc]; [lia|]. destruct (H1 n c Hc) as [-> Hne]. destruct (Z.eqb_spec c 0); [done|].
    replace (Z.of_nat n + 1) with (Z.of_nat (S n)) by lia. apply IH; lia.
Qed.
Lemma strlen_cstring m a str : cstring m a str -> Z.of_nat (length str) < PGSIZE -> strlen (Z.to_nat PGSIZE) m a = Some (Z.of_nat (length str)).
Proof. intros H Hl. unfold strlen. apply (strlen_loop_cstring m a str H (Z.to_nat PGSIZE) 0); lia. Qed.

Section Args.
Context {T : Type} `{!ProcFiles T, !ProcFilesLaws T, !ExecFiles T, !ExecFilesLaws T}.
Variables (kend trampoline : Z) (pool : list Z) (R0 : spaces) (K : list Z).
Hypothesis kend_kern : KERNBASE <= kend.
Hypothesis pool_nodup : NoDup pool.
Hypothesis pool_pages : Forall (page kend) pool.
Hypothesis tramp_ok : trampoline mod 4096 = 0 /\ 0 <= trampoline /\ trampoline + 4096 <= 2 ^ 56.
Variables (s : @kern T) (A : aspaces) (tf ustack_at : Z).
Abbreviation stays := (stays pool).
Abbreviation bld := (bld kend trampoline pool R0 K s A tf).
Abbreviation theirs := (theirs K s A).
Abbreviation kaddr := (kaddr pool K).
Abbreviation at_ := (at_ s).
Implicit Types (m : kmem) (t : T) (pages : list (Z * Z)).

Definition in_ustack (x : Z) : Prop := ustack_at <= x < ustack_at + 8 * (MAXARG + 1).
Hypothesis ustack_ok : forall x, in_ustack x -> kaddr x.

(** What belongs to others is unchanged, but for ustack. *)
Definition kept m m' : Prop := forall x, (forall q, q ∈ pool -> q ∉ theirs -> off_page x q) -> ~ in_ustack x -> rd (ram m') x = rd (ram m) x.
Lemma kept_trans m1 m2 m3 : kept m1 m2 -> kept m2 m3 -> kept m1 m3.
Proof using. intros H1 H2 x Hx Hn. by rewrite H2, H1. Qed.
Lemma kept_stays m m' : stays theirs m m' -> kept m m'.
Proof using. intros H x Hx _. by apply H. Qed.
Lemma kaddr_theirs x : kaddr x -> forall q, q ∈ pool -> q ∉ theirs -> off_page x q.
Proof using. clear. intros H q Hq Hn. apply H; [done|]. intros Hk. apply Hn. unfold ExecSpec.theirs. rewrite elem_of_app. by right. Qed.

(** An argument in the memory of the kernel, as sys_exec leaves it. *)
Record arg_at m (a : Z) (str : list Z) : Prop := {
  ag_str : cstring (ram m) a str;
  ag_len : Z.of_nat (length str) < PGSIZE;
  ag_mem : forall i, 0 <= i <= Z.of_nat (length str) -> kaddr (a + i) /\ ~ in_ustack (a + i);
}.
Lemma arg_kept m m' a str : kept m m' -> arg_at m a str -> arg_at m' a str.
Proof using.
  clear ustack_ok kend_kern pool_nodup pool_pages tramp_ok. intros Hk [[H1 H2] H3 H4]. assert (forall i, 0 <= i <= Z.of_nat (length str) -> rd (ram m') (a + i) = rd (ram m) (a + i)) as E.
  { intros i Hi. destruct (H4 i Hi) as [K1 K2]. apply Hk; [by apply kaddr_theirs|done]. }
  split; [split|done|done].
  - intros i c Hc. rewrite E by (apply lookup_lt_Some in Hc; lia). by apply H1.
  - rewrite E by lia. done.
Qed.

(** A store to ustack. *)
Lemma ustack_store m pt pages sz i v (m' := Kmem (store64 (ram m) (ustack_at + 8 * i) v) (freelist m)) : bld m pt pages sz -> 0 <= i <= MAXARG ->
  bld m' pt pages sz /\ kept m m' /\ (forall va pa, upa pages va = Some pa -> rd (ram m') pa = rd (ram m) pa).
Proof using kend_kern pool_nodup pool_pages tramp_ok ustack_ok.
  intros B Hi. assert (forall x, ~ in_ustack x -> rd (ram m') x = rd (ram m) x) as Hout.
  { intros x Hx. unfold m'. cbn. apply rd_store64_ne. unfold in_ustack in Hx. lia. }
  assert (forall x q, q ∈ pool -> (q ∉ theirs) -> ~ off_page x q -> rd (ram m') x = rd (ram m) x) as Hfr.
  { intros x q Hq Hn Hx. apply Hout. intros Hu. apply Hx. by apply (kaddr_theirs x (ustack_ok x Hu)). }
  split_and!.
  - apply (bld_other kend trampoline pool R0 K kend_kern pool_nodup pool_pages tramp_ok); [done|]. intros x (q & Hq & Hn & Hx). by apply (Hfr x q).
  - intros x _. apply Hout.
  - intros va pa (q & Hq & Hr)%upa_page. destruct (bld_off kend trampoline pool R0 K kend_kern pool_nodup pool_pages tramp_ok s A tf m pt pages sz q B Hq) as [Hqp Hn].
    apply (Hfr pa q); [done|done|]. unfold off_page. lia.
Qed.

(** The bytes [bs] at the user address [va]. *)
Definition ubytes m pages va (bs : list Z) : Prop := forall i b, bs !! i = Some b -> exists pa, upa pages (va + Z.of_nat i) = Some pa /\ rd (ram m) pa = b.
(** No byte outside [lo, hi) of the new memory has changed. *)
Definition usame m m' pages lo hi : Prop := forall va pa, upa pages va = Some pa -> ~ (lo <= va < hi) -> rd (ram m') pa = rd (ram m) pa.
Lemma usame_bytes m m' pages lo hi va bs : usame m m' pages lo hi -> va + Z.of_nat (length bs) <= lo \/ hi <= va -> ubytes m pages va bs -> ubytes m' pages va bs.
Proof using.
  clear ustack_ok kend_kern pool_nodup pool_pages tramp_ok. intros Hu Hd Hb i b Hi. destruct (Hb i b Hi) as (pa & E & <-). exists pa. split; [done|]. apply (Hu _ _ E). apply lookup_lt_Some in Hi. lia.
Qed.

(** One argument on the stack. *)
Lemma push_one m pt pages sz a str sp : bld m pt pages sz -> arg_at m a str -> 0 <= sp -> (forall va, sp <= va <= sp + Z.of_nat (length str) -> is_Some (upa pages va)) ->
  wp (copyout pt sp a (Z.of_nat (length str) + 1)) (KSt [] m) (fun r k => held k = [] /\ r = 0 /\ bld (st k) pt pages sz /\ stays theirs m (st k) /\
    ubytes (st k) pages sp (str ++ [0]) /\ usame m (st k) pages sp (sp + Z.of_nat (length str) + 1)).
Proof using kend_kern pool_nodup pool_pages tramp_ok.
  intros B [[H1 H2] H3 H4] Hsp Hmap.
  eapply wp_mono; [apply (bld_copyout kend trampoline pool R0 K kend_kern pool_nodup pool_pages tramp_ok s A tf m pt pages sz sp a (Z.of_nat (length str) + 1) B Hsp); [lia| |]|].
  - intros i Hi. apply H4. lia.
  - intros i Hi. apply Hmap. lia.
  - intros r k (Hk & -> & B' & Hs & G1 & G2). split_and!; try done.
    + intros i b Hb. pose proof (lookup_lt_Some _ _ _ Hb) as Hi. rewrite length_app in Hi. cbn in Hi. destruct (G1 (Z.of_nat i)) as (pa & E1 & E2); [lia|]. exists pa. split; [done|]. rewrite E2.
      destruct (decide (i = length str)) as [->|]; [rewrite lookup_app_r, Nat.sub_diag in Hb by lia; injection Hb as <-; done|]. rewrite lookup_app_l in Hb by lia. by apply H1.
    + intros va pa E Hn. apply G2. intros i Hi E'. pose proof (bld_inj kend trampoline pool R0 K kend_kern pool_nodup pool_pages tramp_ok s A tf _ _ _ _ _ _ _ B E E'). lia.
Qed.

(** The arguments [strs] are between [sp'] and [sp], at the addresses [ptrs]. *)
Definition pushed m pages sp' sp (ptrs : list Z) (strs : list (list Z)) : Prop :=
  Forall2 (fun ptr str => ptr mod 16 = 0 /\ sp' <= ptr /\ ptr + Z.of_nat (length str) + 1 <= sp /\ ubytes m pages ptr (str ++ [0])) ptrs strs.
Record args_done m m' pages sp sp' argc (ptrs : list Z) (strs : list (list Z)) : Prop := {
  ad_str : pushed m' pages sp' sp ptrs strs;
  ad_ptr : forall i ptr, ptrs !! i = Some ptr -> load64 (ram m') (ustack_at + 8 * (argc + Z.of_nat i)) = ptr;
  ad_old : forall i, 0 <= i < argc -> load64 (ram m') (ustack_at + 8 * i) = load64 (ram m) (ustack_at + 8 * i);
  ad_same : usame m m' pages sp' sp;
}.
Lemma args_cons m m1 m2 pages sp sp1 sp' argc str ptrs strs : ubytes m1 pages sp1 (str ++ [0]) -> sp1 mod 16 = 0 -> sp' <= sp1 -> sp1 + Z.of_nat (length str) + 1 <= sp ->
  usame m m1 pages sp1 sp -> 0 <= argc -> (forall i, 0 <= i < argc -> load64 (ram m1) (ustack_at + 8 * i) = load64 (ram m) (ustack_at + 8 * i)) ->
  load64 (ram m1) (ustack_at + 8 * argc) = sp1 -> args_done m1 m2 pages sp1 sp' (argc + 1) ptrs strs -> args_done m m2 pages sp sp' argc (sp1 :: ptrs) (str :: strs).
Proof using.
  clear ustack_ok kend_kern pool_nodup pool_pages tramp_ok. intros Hb Ha Hle Hfit Hu Hc Hold Hnew [D1 D2 D3 D4]. split.
  - constructor.
    + split_and!; [done..|]. eapply usame_bytes; [exact D4|by right|done].
    + eapply Forall2_impl; [exact D1|]. intros ptr st (? & ? & ? & ?). split_and!; try done. lia.
  - intros [|i] ptr Hi.
    + injection Hi as <-. rewrite Z.add_0_r. rewrite <- Hnew. apply D3. lia.
    + rewrite <- (D2 i ptr Hi). do 3 f_equal. lia.
  - intros i Hi. rewrite D3 by lia. by apply Hold.
  - intros va pa E Hn. rewrite (D4 va pa E) by lia. apply (Hu va pa E). lia.
Qed.

Lemma push_args_spec pt pages sz base t : base = sz - PGSIZE -> 8192 <= sz < 2 ^ 40 -> (forall va, base <= va < sz -> is_Some (upa pages va)) ->
  forall argv strs m argc sp, bld m pt pages sz -> Forall2 (arg_at m) argv strs -> base <= sp <= sz -> 0 <= argc <= MAXARG ->
  wp (push_args ustack_at pt base argv argc sp) (KSt [] (at_ t m)) (fun r k => held k = [] /\ exists m', st k = at_ t m' /\ bld m' pt pages sz /\ kept m m' /\
    match r with
    | None => True
    | Some (argc', sp') => exists ptrs, argc' = argc + Z.of_nat (length argv) /\ argc' <= MAXARG /\ base <= sp' <= sp /\ args_done m m' pages sp sp' argc ptrs strs
    end).
Proof using kend_kern pool_nodup pool_pages tramp_ok ustack_ok.
  intros Hbase Hsz Hmap. unfold PGSIZE in Hbase. induction argv as [|a argv IH]; intros strs m argc sp B Hargs Hsp Hc; cbn [push_args].
  { apply Forall2_nil_inv_l in Hargs as ->. wstep. split; [done|]. exists m. split_and!; try done. exists []. cbn. split_and!; try lia. split; [constructor|done|done|by intros va pa E _]. }
  apply Forall2_cons_inv_l in Hargs as (str & strs' & Ha & Hargs & ->). rename strs' into strs.
  assert (forall m', kept m m' -> bld m' pt pages sz -> held (KSt [] (at_ t m')) = [] /\ exists m'', st (KSt [] (at_ t m')) = at_ t m'' /\ bld m'' pt pages sz /\ kept m m'' /\ True) as Hbad by (intros m' Hk B'; split; [done|]; by exists m').
  destruct (Z.leb_spec MAXARG argc); [wstep; by apply Hbad|]. wstep. wstep. cbn [st]. change (ram (km (at_ t m))) with (ram m).
  pose proof (ag_len _ _ _ Ha) as Hl. rewrite (strlen_cstring _ _ _ (ag_str _ _ _ Ha) Hl). unfold PGSIZE in Hl. rewrite u64_small by lia. set (sp0 := sp - _). set (sp1 := sp0 - sp0 mod 16).
  assert (sp1 mod 16 = 0 /\ sp1 <= sp0) as [Hal Hle] by (unfold sp1; dlia). destruct (Z.ltb_spec sp1 base); [wstep; by apply Hbad|].
  wstep. apply wp_onkm. change (km (at_ t m)) with m. eapply wp_mono; [apply (push_one m pt pages sz a str sp1 B Ha); [lia|intros va Hva; apply Hmap; lia]|].
  intros r [h m1] (Eh & -> & B1 & Hs1 & Hb1 & Hu1). cbn [held st] in *. subst h. cbn [Z.ltb Z.compare]. change (with_km m1 (at_ t m)) with (at_ t m1).
  wstep. apply wp_onkm. unfold sd. wstep. cbn [held st]. change (km (at_ t m1)) with m1.
  destruct (ustack_store m1 pt pages sz argc sp1 B1 ltac:(lia)) as (B2 & Hk2 & Hu2). set (m2 := Kmem _ _) in *. change (with_km m2 (at_ t m1)) with (at_ t m2).
  assert (kept m m2) as Hk by (eapply kept_trans; [by apply kept_stays|done]).
  eapply wp_mono; [apply (IH strs m2 (argc + 1) sp1 B2); try lia; eapply Forall2_impl; [exact Hargs|intros; by eapply arg_kept]|].
  intros r [h k] (Eh & m3 & Ek & B3 & Hk3 & Hr). cbn [held st] in *. subst h k. split; [done|]. exists m3. split_and!; try done; [by eapply kept_trans|].
  destruct r as [[argc' sp']|]; [|done]. destruct Hr as (ptrs & E1 & E2 & E3 & D). exists (sp1 :: ptrs). cbn [length]. split_and!; try lia.
  eapply (args_cons m m2); try done; try lia.
  - intros i b Hib. destruct (Hb1 i b Hib) as (pa & Epa & <-). exists pa. split; [done|]. by eapply Hu2.
  - intros va pa E Hn. rewrite (Hu2 va pa E). apply (Hu1 va pa E). lia.
  - intros i Hi. unfold m2. cbn [ram]. rewrite load_store64_ne by lia. apply load64_ext. intros b Hb. apply Hs1. apply kaddr_theirs, ustack_ok. unfold in_ustack. lia.
  - unfold m2. cbn [ram]. apply load_store64_eq. lia.
Qed.
End Args.
