(* ===== verification/ExecThms.v ===== *)
(** * exec: the whole call *)
From S2P Require Import Prelude Mem Riscv Kalloc Vm VmTree VmSpec VmCopy VmAlloc VmFree VmPool Proc ProcMem ProcInv ProcOps ProcFork ProcCopy ProcThms ProcExit Exec ExecMem ExecSpec ExecLoad ExecArgs.

(** The bytes of a word in memory. *)
Definition word_bytes (v : Z) : list Z := (fun i => v / 256 ^ i mod 256) <$> seqZ 0 8.
Lemma le_load_byte n : forall m a i, 0 <= i < Z.of_nat n -> rd m (a + i) = le_load m a n / 256 ^ i mod 256.
Proof.
  induction n as [|n IH]; intros m a i Hi; [lia|]. cbn [le_load]. pose proof (rd_range m a). destruct (decide (i = 0)) as [->|].
  - rewrite Z.add_0_r, Z.pow_0_r, Z.div_1_r, (Z.mul_comm 256), Z.mod_add by lia. symmetry. by apply Z.mod_small.
  - replace i with (Z.succ (i - 1)) at 2 by lia. rewrite Z.pow_succ_r, <- Z.div_div by lia. rewrite (Z.mul_comm 256), Z.div_add, (Z.div_small (rd m a)), Z.add_0_l by lia.
    rewrite <- IH by lia. f_equal. lia.
Qed.
Lemma load64_byte m a i : 0 <= i < 8 -> rd m (a + i) = load64 m a / 256 ^ i mod 256.
Proof. apply (le_load_byte 8). Qed.

(** exec of [path] by [p] has succeeded: the memory of [p] is the image [img] of the file, a page
    without access and a stack page with the arguments [strs]; the registers are set up for
    main(argc, argv) at [entry]. *)
Record exec_done {T} (s s' : @kern T) (A : aspaces) (p : Z) (pages' : list (Z * Z)) (path : list Z) (entry : Z) (img : list Z) (strs : list (list Z)) (sp : Z) (ptrs : list Z) : Prop := {
  xd_proc : getp s' p = set_sz (4096 * npages (Z.of_nat (length img)) + 8192) (set_pagetable (p_pagetable (getp s' p)) (set_name (copy_name (last_elem path path)) (getp s p)));
  xd_others : forall j, j <> p -> getp s' j = getp s j;
  xd_global : cur s' = cur s /\ initproc s' = initproc s /\ nextpid s' = nextpid s /\ first_run s' = first_run s;
  xd_image : img_at (km s') (take (Z.to_nat (npages (Z.of_nat (length img)))) pages') img;
  xd_guard : forall va, p_sz (getp s' p) - 8192 <= va < p_sz (getp s' p) - 4096 -> upa pages' va = None;
  xd_sp : sp mod 16 = 0 /\ p_sz (getp s' p) - 4096 <= sp;
  xd_args : pushed (km s') pages' sp (p_sz (getp s' p)) ptrs strs;
  xd_vec : forall i ptr, (ptrs ++ [0]) !! i = Some ptr -> ubytes (km s') pages' (sp + 8 * Z.of_nat i) (word_bytes ptr);
  xd_regs : forall o, 0 <= o -> o mod 8 = 0 -> o + 8 <= TF_SIZE -> load64 (ram (km s')) (p_trapframe (getp s p) + o) =
    if o =? tf_epc then entry else if o =? tf_sp then sp else if o =? tf_a1 then sp else load64 (ram (km s)) (p_trapframe (getp s p) + o);
  xd_mem : forall q, q ∈ users s (delete p A) -> same_page (ram (km s)) (ram (km s')) q;
}.

Lemma km_id {T} (s : @kern T) : with_km (km s) s = s.
Proof. by destruct s. Qed.

Section ExecThms.
Context {T : Type} `{!ProcFiles T, !ProcFilesLaws T, !ExecFiles T, !ExecFilesLaws T}.
Variables (kend trampoline : Z) (pool : list Z) (R0 : spaces) (K : list Z).
Hypothesis kend_kern : KERNBASE <= kend.
Hypothesis pool_nodup : NoDup pool.
Hypothesis pool_pages : Forall (page kend) pool.
Hypothesis tramp_ok : trampoline mod 4096 = 0 /\ 0 <= trampoline /\ trampoline + 4096 <= 2 ^ 56.
Variables (s : @kern T) (A : aspaces) (p ustack_at : Z) (pages0 : list (Z * Z)).
Abbreviation kern := (@kern T).
Abbreviation pmem := (pmem kend trampoline pool R0).
Abbreviation tf := (p_trapframe (getp s p)).
Abbreviation stays := (stays pool).
Abbreviation bld := (bld kend trampoline pool R0 K s A (p_trapframe (getp s p))).
Abbreviation theirs := (theirs K s A).
Abbreviation kaddr := (kaddr pool K).
Abbreviation kept := (kept pool K s A ustack_at).
Abbreviation at_ := (at_ s).
Abbreviation in_ustack := (in_ustack ustack_at).
Implicit Types (m : kmem) (t : T) (pages : list (Z * Z)).
Hypothesis ustack_ok : forall x, in_ustack x -> kaddr x.
Hypothesis cur_p : cur s = Some p.
Hypothesis A_p : A !! p = Some pages0.

(** exec has failed: the processes are as before. *)
Definition exec_failed (k : kst kern) : Prop :=
  held k = [] /\ exists t m, st k = at_ t m /\ pmem K (with_km m s) A /\ files_ok t (tabs s) /\ kept (km s) m.

Lemma bad_none t m pt pages sz sz' : bld m pt pages sz -> npages sz' = npages sz -> 0 <= sz' <= TRAPFRAME -> kept (km s) m -> files_ok t (tabs s) ->
  wp (bad kend pt sz' None) (KSt [] (at_ t m)) (fun r k => r = -1 /\ exec_failed k).
Proof using kend_kern pool_nodup pool_pages tramp_ok.
  intros B Hn Hr Hk Hf. unfold bad. wstep. destruct (Z.eqb_spec pt 0); [by destruct (bd_pt _ _ _ _ _ _ _ _ _ _ _ _ B)|]. apply wp_onkm.
  eapply wp_mono; [apply (bld_free kend trampoline pool R0 K kend_kern pool_nodup pool_pages tramp_ok s A tf m pt pages sz sz' B Hn Hr)|].
  intros _ [h m'] (Eh & Hs & Hp). cbn [held st] in *. subst h. wstep. split; [done|]. split; [done|]. exists t, m'. split_and!; try done. eapply kept_trans; [exact Hk|by apply kept_stays].
Qed.

(** What the arguments and the stack pointer look like before the last copyout. *)
Lemma round_space sz pages : space_ok sz pages -> 4096 * Z.of_nat (length pages) <= TRAPFRAME -> PGROUNDUP sz = 4096 * Z.of_nat (length pages) /\ space_ok (PGROUNDUP sz) pages.
Proof using.
  clear kend_kern tramp_ok ustack_ok. intros [S1 S2 S3] Hle. assert (TRAPFRAME = 2 ^ 38 - 8192) as ET by done. assert (PGROUNDUP sz = 4096 * Z.of_nat (length pages)) as E by (rewrite PGROUNDUP_div by lia; fold (npages sz); lia).
  split; [done|]. rewrite E. split; [lia| |done]. unfold npages. dlia.
Qed.
Lemma bld_round m pt pages sz : bld m pt pages sz -> PGROUNDUP sz = 4096 * Z.of_nat (length pages) /\ bld m pt pages (PGROUNDUP sz).
Proof using kend_kern pool_nodup pool_pages tramp_ok.
  intros B. destruct (bld_size kend trampoline pool R0 K kend_kern pool_nodup pool_pages tramp_ok s A tf m pt pages sz B) as (Hl & _).
  destruct (round_space sz pages (bd_space _ _ _ _ _ _ _ _ _ _ _ _ B)) as [E Hs]; [change TRAPFRAME with (2 ^ 38 - 8192); lia|]. split; [done|]. destruct B as [B1 B2 B3 B4]. by split.
Qed.

(** The two pages behind the image: a guard page and the stack. *)
Definition with_stack pages (q1 q2 : Z) : list (Z * Z) := pages ++ [(q1, 15); (q2, UFLAGS)].
Lemma stack_upa pages q1 q2 va n : n = Z.of_nat (length pages) -> n <= 32768 ->
  (0 <= va < 4096 * n -> upa (with_stack pages q1 q2) va = upa pages va) /\
  (4096 * n <= va < 4096 * n + 4096 -> upa (with_stack pages q1 q2) va = None) /\
  (4096 * n + 4096 <= va < 4096 * n + 8192 -> is_Some (upa (with_stack pages q1 q2) va)).
Proof using.
  clear -n. intros -> Hl. assert (MAXVA = 2 ^ 38) as EM by done. unfold upa, with_stack. split_and!; intros Hva.
  - by rewrite lookup_app_l by dlia.
  - destruct (_ && _); [|done]. rewrite lookup_app_r by dlia. replace (Z.to_nat (va / 4096) - length pages)%nat with 0%nat by dlia. done.
  - destruct (Z.leb_spec 0 va); [|lia]. destruct (Z.ltb_spec va MAXVA); [|lia]. cbn [andb]. rewrite lookup_app_r by dlia.
    replace (Z.to_nat (va / 4096) - length pages)%nat with 1%nat by dlia. cbn. by eexists.
Qed.

(** Lines 69 to 74: the stack. *)
Lemma stack_spec m pt pages sz : bld m pt pages sz -> uniform pages ->
  wp (uvmalloc kend pt (PGROUNDUP sz) (u64 (PGROUNDUP sz + 2 * PGSIZE))) (KSt [] m) (fun r k => held k = [] /\ stays (users s A ++ pages.*1 ++ K) m (st k) /\
    ((r = 0 /\ bld (st k) pt pages (PGROUNDUP sz)) \/
     (r = PGROUNDUP sz + 8192 /\ wp (uvmclear pt (u64 (r - 2 * PGSIZE))) (KSt [] (st k)) (fun _ k' => held k' = [] /\ exists q1 q2,
        stays (users s A ++ pages.*1 ++ K) m (st k') /\ bld (st k') pt (with_stack pages q1 q2) r)))).
Proof using kend_kern pool_nodup pool_pages tramp_ok.
  intros B Hu. destruct (bld_round m pt pages sz B) as [E Br]. destruct (bld_size kend trampoline pool R0 K kend_kern pool_nodup pool_pages tramp_ok s A tf m pt pages sz B) as (Hl & _).
  unfold PGSIZE. rewrite u64_small by (rewrite E; lia).
  eapply wp_mono; [apply (bld_alloc kend trampoline pool R0 K kend_kern pool_nodup pool_pages tramp_ok s A tf m pt pages _ (PGROUNDUP sz + 2 * 4096) Br); lia|].
  intros r [h m1] (Eh & Hs & Hc). cbn [held st] in *. subst h. split; [done|]. split; [done|]. destruct Hc as [[-> B1]|(-> & ps & B1 & _)]; [by left|right]. split; [lia|].
  assert (exists q1 q2, ps = [q1; q2]) as (q1 & q2 & ->).
  { pose proof (sp_len _ _ (bd_space _ _ _ _ _ _ _ _ _ _ _ _ B1)) as El. unfold fresh in El. rewrite E, length_app, length_fmap in El. unfold npages in El.
    assert (length ps = 2%nat) as E2 by dlia. destruct ps as [|q1 [|q2 [|? ?]]]; try done. by exists q1, q2. }
  replace (PGROUNDUP sz + 2 * 4096 - 2 * 4096) with (4096 * Z.of_nat (length pages)) by lia. rewrite u64_small by lia.
  eapply wp_mono; [apply (bld_clear kend trampoline pool R0 K kend_kern pool_nodup pool_pages tramp_ok s A tf m1 pt _ _ (length pages) q1 B1); by rewrite lookup_app_r, Nat.sub_diag by lia|].
  intros _ [h m2] (Eh & Hs2 & B2). cbn [held st] in *. subst h. split; [done|]. exists q1, q2. split.
  - eapply stays_trans; [exact Hs|]. eapply stays_sub; [|exact Hs2]. intros q _. rewrite fmap_app, !elem_of_app. tauto.
  - replace (with_stack pages q1 q2) with (<[length pages := (q1, 15)]> (pages ++ fresh [q1; q2])); [done|]. unfold with_stack. rewrite insert_app_r_alt, Nat.sub_diag by lia. done.
Qed.

(** The vector of pointers. *)
Lemma vec_spec m pt pages sz sp (ws : list Z) : bld m pt pages sz -> Z.of_nat (length ws) <= MAXARG + 1 -> 0 <= sp ->
  (forall i w, ws !! i = Some w -> load64 (ram m) (ustack_at + 8 * Z.of_nat i) = w) -> (forall va, sp <= va < sp + 8 * Z.of_nat (length ws) -> is_Some (upa pages va)) ->
  wp (copyout pt sp ustack_at (Z.of_nat (length ws) * 8)) (KSt [] m) (fun r k => held k = [] /\ r = 0 /\ bld (st k) pt pages sz /\ stays theirs m (st k) /\
    (forall i w, ws !! i = Some w -> ubytes (st k) pages (sp + 8 * Z.of_nat i) (word_bytes w)) /\ usame m (st k) pages sp (sp + 8 * Z.of_nat (length ws))).
Proof using kend_kern pool_nodup pool_pages tramp_ok ustack_ok.
  intros B Hl Hsp Hw Hmap.
  eapply wp_mono; [apply (bld_copyout kend trampoline pool R0 K kend_kern pool_nodup pool_pages tramp_ok s A tf m pt pages sz sp ustack_at (Z.of_nat (length ws) * 8) B Hsp); [lia| |]|].
  - intros i Hi. apply ustack_ok. unfold ExecArgs.in_ustack. lia.
  - intros i Hi. apply Hmap. lia.
  - intros r k (Hk & -> & B' & Hs & G1 & G2). split_and!; try done.
    + intros i w Hi j b Hb. pose proof (lookup_lt_Some _ _ _ Hi). unfold word_bytes in Hb. apply list_lookup_fmap_Some in Hb as (x & -> & Hx). apply lookup_seqZ in Hx as [-> Hx].
      destruct (G1 (8 * Z.of_nat i + Z.of_nat j)) as (pa & E1 & E2); [lia|]. exists pa. split; [by rewrite <- Z.add_assoc|]. rewrite E2, Z.add_assoc, load64_byte, (Hw i w Hi) by lia. done.
    + intros va pa E Hn. apply G2. intros i Hi E'. pose proof (bld_inj kend trampoline pool R0 K kend_kern pool_nodup pool_pages tramp_ok s A tf _ _ _ _ _ _ _ B E E'). lia.
Qed.

(** The registers of the new program. *)
Definition set_regs (m : mem) (entry sp : Z) : mem := store64 (store64 (store64 m (tf + tf_a1) sp) (tf + tf_epc) entry) (tf + tf_sp) sp.
Lemma set_regs_load (m : mem) entry sp o : 0 <= entry < 2 ^ 64 -> 0 <= sp < 2 ^ 64 -> o mod 8 = 0 ->
  load64 (set_regs m entry sp) (tf + o) = if o =? tf_epc then entry else if o =? tf_sp then sp else if o =? tf_a1 then sp else load64 m (tf + o).
Proof using.
  clear kend_kern tramp_ok ustack_ok. intros He Hs Ho. unfold set_regs, tf_epc, tf_sp, tf_a1.
  destruct (Z.eqb_spec o 24) as [->|]; [rewrite load_store64_ne, load_store64_eq by lia; done|].
  destruct (Z.eqb_spec o 48) as [->|]; [by rewrite load_store64_eq|]. rewrite load_store64_ne by dlia.
  destruct (Z.eqb_spec o 120) as [->|]; [rewrite load_store64_ne, load_store64_eq by lia; done|]. by rewrite !load_store64_ne by dlia.
Qed.
Lemma set_regs_only (m : mem) entry sp : only_page m (set_regs m entry sp) tf.
Proof using. clear kend_kern tramp_ok ustack_ok. intros x Hx. unfold set_regs, tf_epc, tf_sp, tf_a1. by rewrite !rd_store64_ne by lia. Qed.

Lemma users_theirs m pt pages sz q : bld m pt pages sz -> q ∈ users s A -> page kend q /\ q ∈ pool /\ (q ∉ pages.*1) /\ (q ∉ K).
Proof using kend_kern pool_nodup pool_pages tramp_ok.
  intros B Hq. destruct (bld_maps kend trampoline pool R0 K kend_kern pool_nodup pool_pages tramp_ok s A tf m pt pages sz B) as (R & _ & Hm & _). destruct (mp_mem _ _ _ _ _ _ _ _ _ Hm) as (l & own & Hat).
  destruct (mem_disjoint kend pool kend_kern pool_nodup pool_pages _ _ _ _ _ q Hat) as (H1 & H2 & _); [rewrite elem_of_app; by left|]. split; [done|]. split; [done|].
  pose proof (mem_nodup kend pool pool_nodup _ _ _ _ _ Hat) as Hn. apply NoDup_app in Hn as (_ & Hn & _). specialize (Hn q Hq). rewrite elem_of_app in Hn. tauto.
Qed.
Lemma tf_user : tf ∈ users s A.
Proof using A_p. rewrite (users_delete s A p pages0 A_p). by left. Qed.
(** A page of a process is not in ustack, and unchanged as long as exec has not committed. *)
Lemma kept_user m m' pt pages sz q : bld m' pt pages sz -> kept m m' -> q ∈ users s A -> same_page (ram m) (ram m') q.
Proof using kend_kern pool_nodup pool_pages tramp_ok ustack_ok.
  intros B Hk Hq x Hx. destruct (users_theirs _ _ _ _ q B Hq) as (H1 & H2 & _ & H4). apply Hk.
  - intros q' Hq' Hn. unfold off_page. rewrite Forall_forall in pool_pages. destruct (page_disjoint kend q q'); [done|by apply pool_pages| |lia|lia].
    intros ->. apply Hn. unfold ExecSpec.theirs. rewrite elem_of_app. by left.
  - intros Hu. destruct (ustack_ok x Hu q H2 H4); lia.
Qed.

Lemma stays_in U m m' q : page kend q -> q ∈ U -> stays U m m' -> same_page (ram m) (ram m') q.
Proof using pool_pages.
  clear kend_kern tramp_ok ustack_ok. intros Hq HU Hs x Hx. apply Hs. intros q' Hq' Hn. unfold off_page. rewrite Forall_forall in pool_pages.
  destruct (page_disjoint kend q q'); [done|by apply pool_pages|intros ->; done|lia|lia].
Qed.
Lemma upa_same (w w' : mem) pages : (forall q, q ∈ pages.*1 -> same_page w w' q) -> forall va pa, upa pages va = Some pa -> rd w' pa = rd w pa.
Proof using. intros H va pa (q & Hq & Hr)%upa_page. by apply (H q Hq). Qed.
Lemma ubytes_same m m' pages va bs : (forall va pa, upa pages va = Some pa -> rd (ram m') pa = rd (ram m) pa) -> ubytes m pages va bs -> ubytes m' pages va bs.
Proof using. intros H Hb i b Hi. destruct (Hb i b Hi) as (pa & E & <-). exists pa. split; [done|]. by eapply H. Qed.

(** Lines 103 to 119. *)
Definition exec_commit path entry pt sz sp argc : M kern Z :=
  tf ← gets (fun s => p_trapframe (getp s p));
  onkm (sd (tf + tf_a1) sp) ;;
  updp p (set_name (copy_name (last_elem path path))) ;;
  oldpagetable ← gets (fun s => p_pagetable (getp s p));
  updp p (set_pagetable pt) ;;
  updp p (set_sz sz) ;;
  onkm (sd (tf + tf_epc) entry) ;;
  onkm (sd (tf + tf_sp) sp) ;;
  onkm (proc_freepagetable kend oldpagetable (p_sz (getp s p))) ;;
  mret argc.
Lemma commit_run path entry pt pages sz sp argc t m : bld m pt pages sz -> 
  wp (exec_commit path entry pt sz sp argc) (KSt [] (at_ t m)) (fun r k => r = argc /\ held k = [] /\ rest (st k) = t /\ pmem K (st k) (<[p := pages]> A) /\
    getp (st k) p = set_sz sz (set_pagetable pt (set_name (copy_name (last_elem path path)) (getp s p))) /\ (forall j, j <> p -> getp (st k) j = getp s j) /\
    (cur (st k) = cur s /\ initproc (st k) = initproc s /\ nextpid (st k) = nextpid s /\ first_run (st k) = first_run s) /\
    forall q, q ∈ tf :: pages.*1 ++ users s (delete p A) -> same_page (set_regs (ram m) entry sp) (ram (km (st k))) q).
Proof using kend_kern pool_nodup pool_pages tramp_ok A_p.
  intros B. unfold exec_commit. wstep. wstep. cbn [st]. change (getp (at_ t m) p) with (getp s p). wstep. apply wp_onkm. unfold sd. wstep. cbn [held st]. unfold updp. wstep. wstep. wstep. wstep.
  wstep. wstep. wstep. wstep. wstep. apply wp_onkm. wstep. cbn [held st]. wstep. apply wp_onkm. wstep. cbn [held st]. rewrite !getp_upd_eq, !getp_km. set (s6 := with_km _ _). cbn [st].
  set (m6 := Kmem (set_regs (ram m) entry sp) (freelist m)). assert (km s6 = m6) as Ek by done.
  assert (getp s6 p = set_sz sz (set_pagetable pt (set_name (copy_name (last_elem path path)) (getp s p)))) as Ep by (unfold s6; rewrite !getp_km, !getp_upd_eq; done).
  assert (forall j, j <> p -> getp s6 j = getp s j) as Ho by (intros j Hj; unfold s6; rewrite !getp_km, !getp_upd_ne by done; done).
  pose proof tf_user as Htu. assert (bld m6 pt pages sz) as B6.
  { apply (bld_other kend trampoline pool R0 K kend_kern pool_nodup pool_pages tramp_ok); [done|]. intros x (q & Hq & Hn & Hx). apply set_regs_only. unfold off_page in Hx.
    destruct (users_theirs m pt pages sz tf B tf_user) as (Htf & _). rewrite Forall_forall in pool_pages. destruct (page_disjoint kend q tf); [by apply pool_pages|done| |lia|lia]. intros ->. apply Hn. unfold ExecSpec.theirs. rewrite elem_of_app. left. exact Htu. }
  wstep. change (p_pagetable (set_name (copy_name (last_elem path path)) (getp (at_ t m) p))) with (p_pagetable (getp s p)).
  eapply wp_mono; [apply (bld_commit kend trampoline pool R0 K kend_kern pool_nodup pool_pages tramp_ok s A tf m6 pt pages sz p pages0 s6 B6 A_p eq_refl Ho); by rewrite ?Ep|].
  intros _ [h k] (Eh & m7 & Es & Hp & Hs). cbn [held st] in *. subst h k. wstep. cbn [held st]. split_and!; try done.
  assert (tf :: pages.*1 ++ users s (delete p A) ≡ₚ users s6 (<[p := pages]> A)) as EU.
  { rewrite <- insert_delete_eq, users_insert by apply lookup_delete_eq. rewrite Ep. cbn. do 2 f_equiv. symmetry. assert (users s6 (delete p A) = users s (delete p A)) as ->; [|done].
    apply users_ext. intros j [x [Hj _]%lookup_delete_Some]. by rewrite Ho by done. }
  intros q Hq. cbn [km with_km]. change (set_regs (ram m) entry sp) with (ram m6). eapply stays_in; [| |exact Hs]; [|rewrite elem_of_app; left; by rewrite <- EU].
  destruct Hp as [R Hp]. destruct (pm_mem _ _ _ _ _ _ _ _ Hp) as (l & own & Hat). apply (mem_disjoint kend pool kend_kern pool_nodup pool_pages _ _ _ _ _ q Hat).
  rewrite elem_of_app. left. change (users (with_km m7 s6) (<[p := pages]> A)) with (users s6 (<[p := pages]> A)). by rewrite <- EU.
Qed.

(** Committing gives the new program its image, arguments and registers. *)
Lemma exec_commit_done path entry img strs ptrs pt pages q1 q2 sp argc t m (pages2 := with_stack pages q1 q2) (sz := 4096 * Z.of_nat (length pages) + 8192) :
  bld m pt pages2 sz -> Z.of_nat (length pages) = npages (Z.of_nat (length img)) -> Z.of_nat (length pages) <= 32768 -> img_at m pages img -> kept (km s) m -> 0 <= entry < 2 ^ 64 ->
  sp mod 16 = 0 -> sz - 4096 <= sp <= sz -> pushed m pages2 sp sz ptrs strs -> (forall i w, (ptrs ++ [0]) !! i = Some w -> ubytes m pages2 (sp + 8 * Z.of_nat i) (word_bytes w)) ->
  wp (exec_commit path entry pt sz sp argc) (KSt [] (at_ t m)) (fun r k => r = argc /\ held k = [] /\ rest (st k) = t /\ pmem K (st k) (<[p := pages2]> A) /\
    exec_done s (st k) A p pages2 path entry img strs sp ptrs).
Proof using kend_kern pool_nodup pool_pages tramp_ok ustack_ok A_p.
  intros B Hn Hl Him Hk He Ha Hsp Hpu Hw. eapply wp_mono; [by apply (commit_run path entry pt pages2 sz sp argc t m)|].
  intros r k (-> & Hh & Hr & Hp & Ep & Ho & Hg & Hq). split_and!; try done. pose proof (users_theirs m pt pages2 sz) as Hut. pose proof tf_user as Htu.
  assert (forall q, q ∈ pages2.*1 -> same_page (ram m) (ram (km (st k))) q) as Hnew.
  { intros q Hq2 x Hx. rewrite (Hq q) by (done || (right; rewrite elem_of_app; by left)). apply set_regs_only. destruct (Hut tf B Htu) as (Htf & _ & Hne & _).
    destruct (bld_off kend trampoline pool R0 K kend_kern pool_nodup pool_pages tramp_ok s A tf m pt pages2 sz q B Hq2) as [Hqp _]. rewrite Forall_forall in pool_pages.
    destruct (page_disjoint kend q tf); [by apply pool_pages|done|intros ->; done|lia|lia]. }
  pose proof (upa_same _ _ _ Hnew) as Hu. split; try done.
  - rewrite Ep. cbn. by rewrite <- Hn.
  - intros va Hva. replace (take _ pages2) with pages in * by (unfold pages2, with_stack; rewrite <- Hn, Nat2Z.id, take_app_length; done).
    destruct (Him va Hva) as (pa & E & <-). exists pa. split; [done|]. apply (Hu va). unfold pages2. rewrite (proj1 (stack_upa pages q1 q2 va _ eq_refl Hl)); done.
  - intros va. rewrite Ep. cbn. intros Hva. apply (stack_upa pages q1 q2 va _ eq_refl Hl). unfold sz in *. lia.
  - rewrite Ep. cbn. lia.
  - rewrite Ep. cbn. eapply Forall2_impl; [exact Hpu|]. intros ptr str (? & ? & ? & ?). split_and!; try done. by eapply ubytes_same.
  - intros i ptr Hi. eapply ubytes_same; [exact Hu|by apply Hw].
  - intros o Ho1 Ho2 Ho3. assert (forall b, tf + o <= b < tf + o + 8 -> rd (ram (km (st k))) b = rd (set_regs (ram m) entry sp) b) as Eb.
    { intros b Hb. apply (Hq tf); [by left|]. unfold TF_SIZE in Ho3. lia. }
    rewrite (load64_ext _ _ _ Eb). rewrite set_regs_load by (done || unfold sz in *; lia). repeat (case_match; [done|]). apply load64_ext. intros b Hb.
    apply (kept_user (km s) m pt pages2 sz tf B Hk Htu). unfold TF_SIZE in Ho3. lia.
  - intros q Hqu x Hx. assert (q ∈ users s A) as Hqa by (rewrite (users_delete s A p pages0 A_p); right; rewrite elem_of_app; by right).
    rewrite (Hq q) by (done || (right; rewrite elem_of_app; by right)). rewrite <- (kept_user (km s) m pt pages2 sz q B Hk Hqa x Hx). apply set_regs_only.
    destruct (Hut tf B Htu) as (Htf & _), (Hut q B Hqa) as (Hqp & _). destruct (page_disjoint kend q tf); [done|done| |lia|lia]. intros ->.
    destruct (bld_maps kend trampoline pool R0 K kend_kern pool_nodup pool_pages tramp_ok s A tf m pt pages2 sz B) as (R & _ & Hm & _). destruct (mp_mem _ _ _ _ _ _ _ _ _ Hm) as (l & own & Hat).
    pose proof (mem_nodup kend pool pool_nodup _ _ _ _ _ Hat) as Hnd. rewrite (users_delete s A p pages0 A_p) in Hnd. cbn in Hnd. apply NoDup_cons in Hnd as [Hnd _]. apply Hnd. rewrite !elem_of_app. tauto.
Qed.

(** The stack is built above the image. *)
Lemma img_below m m' pages q1 q2 lo hi img : Z.of_nat (length pages) <= 32768 -> 4096 * Z.of_nat (length pages) <= lo -> usame m m' (with_stack pages q1 q2) lo hi -> img_at m pages img -> img_at m' pages img.
Proof using.
  clear kend_kern tramp_ok ustack_ok. intros Hl Hlo Hu Him va Hva. destruct (Him va Hva) as (pa & E & <-). exists pa. split; [done|]. apply (Hu va); [|lia].
  rewrite (proj1 (stack_upa pages q1 q2 va _ eq_refl Hl)); done.
Qed.

Definition exec_post path (argv : list Z) strs entry img t (r : Z) (k : kst kern) : Prop :=
  (r = -1 /\ exec_failed k) \/ (r = Z.of_nat (length argv) /\ held k = [] /\ rest (st k) = t /\
    exists pages' sp ptrs, pmem K (st k) (<[p := pages']> A) /\ exec_done s (st k) A p pages' path entry img strs sp ptrs).

Lemma exec_stack_spec path argv strs entry img pt pages sz t m : bld m pt pages sz -> uniform pages -> Z.of_nat (length img) = sz -> img_at m pages img ->
  kept (km s) m -> files_ok t (tabs s) -> Forall2 (arg_at pool K ustack_at (km s)) argv strs -> 0 <= entry < 2 ^ 64 ->
  wp (exec_stack kend ustack_at path argv entry pt sz) (KSt [] (at_ t m)) (exec_post path argv strs entry img t).
Proof using kend_kern pool_nodup pool_pages tramp_ok ustack_ok cur_p A_p.
  intros B Hu Hlen Him Hk Hf Hargs He. destruct (bld_round m pt pages sz B) as [Er Br]. destruct (bld_size kend trampoline pool R0 K kend_kern pool_nodup pool_pages tramp_ok s A tf m pt pages sz B) as (Hl & Hsz & _).
  assert (TRAPFRAME = 2 ^ 38 - 8192) as ET by done. assert (forall t' m' pages' sz', kept (km s) m' -> files_ok t' (tabs s) -> bld m' pt pages' sz' ->
    wp (bad kend pt sz' None) (KSt [] (at_ t' m')) (exec_post path argv strs entry img t)) as Hbad.
  { intros t' m' pages' sz' Hk' Hf' B'. eapply wp_mono; [eapply (bad_none t' m' pt pages' sz' sz'); [done|done| |done|done]; apply (bd_space _ _ _ _ _ _ _ _ _ _ _ _ B')|]. intros r k H. by left. }
  unfold exec_stack, myproc. wstep. wstep. wstep. change (cur (at_ t m)) with (cur s). rewrite cur_p. cbn [nonnull]. wstep. wstep. wstep. cbn [st]. change (getp (at_ t m) p) with (getp s p).
  wstep. apply wp_onkm. eapply wp_mono; [by apply (stack_spec m pt pages sz)|]. intros r [h m1] (Eh & Hs1 & Hc). cbn [held st] in *. subst h. change (with_km m1 (at_ t m)) with (at_ t m1).
  assert (kept (km s) m1) as Hk1 by (eapply kept_trans; [exact Hk|]; by eapply kept_stays, (stays_theirs pool K s A pages)).
  destruct Hc as [[-> B1]|[-> Hc]]; [rewrite Z.eqb_refl; by eapply Hbad|]. destruct (Z.eqb_spec (PGROUNDUP sz + 8192) 0); [lia|].
  wstep. apply wp_onkm. eapply wp_mono; [exact Hc|]. intros _ [h m2] (Eh & q1 & q2 & Hs2 & B2). cbn [held st] in *. subst h. change (with_km m2 (at_ t m1)) with (at_ t m2).
  assert (kept (km s) m2) as Hk2 by (eapply kept_trans; [exact Hk|]; by eapply kept_stays, (stays_theirs pool K s A pages)). rewrite Er in B2 |- *. set (top := 4096 * Z.of_nat (length pages) + 8192) in *.
  assert (img_at m2 pages img) as Him2.
  { intros va Hva. destruct (Him va Hva) as (pa & E & <-). exists pa. split; [done|]. by eapply (bld_rd kend trampoline pool R0 K kend_kern pool_nodup pool_pages tramp_ok s A tf m). }
  assert (forall va, top - 4096 <= va < top -> is_Some (upa (with_stack pages q1 q2) va)) as Hmap by (intros va Hva; apply (stack_upa pages q1 q2 va _ eq_refl Hl); unfold top in Hva; lia).
  unfold PGSIZE. rewrite u64_small by lia. wstep.
  eapply wp_mono; [apply (push_args_spec kend trampoline pool R0 K kend_kern pool_nodup pool_pages tramp_ok s A tf ustack_at ustack_ok pt _ top (top - 4096) t eq_refl ltac:(lia) Hmap argv strs m2 0 top B2); try lia|].
  { eapply Forall2_impl; [exact Hargs|]. intros a str. by apply (arg_kept pool K s A ustack_at). } { unfold MAXARG. lia. }
  intros r [h k] (Eh & m3 & Ek & B3 & Hk3 & Hr). cbn [held st] in *. subst h k. assert (kept (km s) m3) as Hk3' by (by eapply kept_trans). destruct r as [[argc sp0]|]; [|by eapply Hbad].
  destruct Hr as (ptrs & Ec & Hmx & Hsp0 & [D1 D2 _ D4]). rewrite Z.add_0_l in Ec. wstep. apply wp_onkm. unfold sd. wstep. cbn [held st].
  destruct (ustack_store kend trampoline pool R0 K kend_kern pool_nodup pool_pages tramp_ok s A tf ustack_at ustack_ok m3 pt _ top argc 0 B3 ltac:(lia)) as (B4 & Hk4 & Hu4). change (km (at_ t m3)) with m3.
  set (m4 := Kmem (store64 (ram m3) _ 0) _) in *. change (with_km m4 (at_ t m3)) with (at_ t m4). assert (kept (km s) m4) as Hk4' by (by eapply kept_trans).
  assert (length ptrs = length argv) as Elen by (rewrite (Forall2_length _ _ _ Hargs); by eapply Forall2_length).
  assert (Z.of_nat (length (ptrs ++ [0])) = argc + 1) as Ews by (rewrite length_app; cbn; lia).
  unfold MAXARG in Hmx. rewrite u64_small by lia. set (sp1 := sp0 - (argc + 1) * 8). set (sp := sp1 - sp1 mod 16). assert (sp mod 16 = 0 /\ sp <= sp1) as [Hal Hle] by (unfold sp; dlia).
  destruct (Z.ltb_spec sp (top - 4096)); [by eapply Hbad|]. wstep. apply wp_onkm. change (km (at_ t m4)) with m4. rewrite <- Ews.
  eapply wp_mono; [apply (vec_spec m4 pt _ top sp (ptrs ++ [0]) B4); [unfold MAXARG; lia|lia| |intros va Hva; apply Hmap; lia]|].
  { intros i w Hi. unfold m4. cbn [ram]. destruct (decide (i = length ptrs)) as [->|].
    - rewrite lookup_app_r, Nat.sub_diag in Hi by lia. injection Hi as <-. rewrite Elen, <- Ec. by apply load_store64_eq.
    - pose proof (lookup_lt_Some _ _ _ Hi) as Hil. rewrite length_app in Hil. cbn in Hil. rewrite lookup_app_l in Hi by lia. rewrite load_store64_ne by lia. rewrite <- (D2 i w Hi). by rewrite Z.add_0_l. }
  intros r [h m5] (Eh & -> & B5 & Hs5 & Hw5 & Hu5). cbn [held st] in *. subst h. cbn [Z.ltb Z.compare]. change (with_km m5 (at_ t m4)) with (at_ t m5).
  assert (kept (km s) m5) as Hk5 by (eapply kept_trans; [exact Hk4'|by apply kept_stays]).
  eapply wp_mono; [apply (exec_commit_done path entry img strs ptrs pt pages q1 q2 sp argc t m5); try done; try lia|].
  - rewrite Hlen. symmetry. apply (sp_len _ _ (bd_space _ _ _ _ _ _ _ _ _ _ _ _ B)).
  - eapply (img_below m4); [lia| |exact Hu5|]; [lia|]. eapply (img_below m3 m4 pages q1 q2 top top img Hl); [|intros va pa E _; by eapply Hu4|]; [lia|]. eapply (img_below m2); [lia| |exact D4|done]. lia.
  - eapply Forall2_impl; [exact D1|]. intros ptr str (P1 & P2 & P3 & P4). split_and!; [done|lia|lia|]. eapply usame_bytes; [exact Hu5|right; lia|]. by eapply ubytes_same.
  - intros r k (-> & Hh & Hr & Hp & HD). right. split_and!; [lia|done|done|]. eauto.
Qed.

(** ** The whole call *)

Hypothesis inv_p : pmem K s A.
Hypothesis files_p : files_ok (rest s) (tabs s).

Lemma at_km m : pmem K (with_km m s) A -> forall t, pmem K (at_ t m) A.
Proof using. intros Hp t. by apply (pmem_same kend trampoline pool R0 K (with_km m s)). Qed.

(** [bad:], with the inode still locked. *)
Lemma bad_close t m ip D : file_open t (tabs s) ip D -> pmem K (with_km m s) A -> kept (km s) m ->
  wp (onrest (xf_iunlockput ip) ;; onrest pf_end_op ;; mret (-1)) (KSt [] (at_ t m)) (fun r k => r = -1 /\ exec_failed k).
Proof using.
  clear kend_kern pool_nodup pool_pages tramp_ok ustack_ok. intros Ho Hp Hk. wstep. apply wp_onrest. eapply wp_mono; [apply (law_xput t (tabs s) ip D Ho)|]. intros _ [h t1] (Eh & Ht). cbn [held st] in *. subst h.
  wstep. apply wp_onrest. eapply wp_mono; [apply (law_end t1 (tabs s) Ht)|]. intros _ [h t2] (Eh & Hf). cbn [held st] in *. subst h. wstep. split; [done|]. split; [done|]. exists t2, m. done.
Qed.
Lemma bad_some t m pt pages sz ip D : bld m pt pages sz -> file_open t (tabs s) ip D -> kept (km s) m ->
  wp (bad kend pt sz (Some ip)) (KSt [] (at_ t m)) (fun r k => r = -1 /\ exec_failed k).
Proof using kend_kern pool_nodup pool_pages tramp_ok.
  intros B Ho Hk. unfold bad. wstep. destruct (Z.eqb_spec pt 0); [by destruct (bd_pt _ _ _ _ _ _ _ _ _ _ _ _ B)|]. apply wp_onkm.
  eapply wp_mono; [apply (bld_free kend trampoline pool R0 K kend_kern pool_nodup pool_pages tramp_ok s A tf m pt pages sz sz B eq_refl); apply (bd_space _ _ _ _ _ _ _ _ _ _ _ _ B)|].
  intros _ [h m'] (Eh & Hs & Hp). cbn [held st] in *. subst h. apply (bad_close t m' ip D Ho Hp). eapply kept_trans; [exact Hk|by apply kept_stays].
Qed.

(** exec with the file of content [D], which [path] names, gets to the new program. *)
Record exec_file path (argv : list Z) strs D (r : Z) (k : kst kern) : Prop := {
  ef_ret : r = Z.of_nat (length argv) /\ held k = [];
  ef_named : file_named (rest s) path D;
  ef_elf : e_magic (elfhdr_of (readi_bytes D 0 SIZEOF_ELFHDR)) = ELF_MAGIC;
  ef_files : files_ok (rest (st k)) (tabs s);
  ef_done : let elf := elfhdr_of (readi_bytes D 0 SIZEOF_ELFHDR) in exists img pages' sp ptrs,
    load_image D (Z.to_nat (e_phnum elf)) (i32 (e_phoff elf)) [] = Some img /\ pmem K (st k) (<[p := pages']> A) /\
    exec_done s (st k) A p pages' path (e_entry elf) img strs sp ptrs;
}.

Lemma exec_open t path argv strs ip D : file_ref t (tabs s) ip D -> file_named (rest s) path D -> Forall2 (arg_at pool K ustack_at (km s)) argv strs ->
  wp (onrest (xf_ilock ip) ;; b ← onrest (xf_readi ip 0 SIZEOF_ELFHDR);
      let elf := elfhdr_of b in
      if negb (Z.of_nat (length b) =? SIZEOF_ELFHDR) then bad kend 0 0 (Some ip) else
      if negb (e_magic elf =? ELF_MAGIC) then bad kend 0 0 (Some ip) else
      tf ← gets (fun s => p_trapframe (getp s p));
      pagetable ← onkm (proc_pagetable kend trampoline tf);
      if pagetable =? 0 then bad kend 0 0 (Some ip) else
      r ← load_loop kend (Z.to_nat (e_phnum elf)) pagetable ip (i32 (e_phoff elf)) 0;
      match r with
      | inl sz => bad kend pagetable sz (Some ip)
      | inr sz => onrest (xf_iunlockput ip) ;; onrest pf_end_op ;; exec_stack kend ustack_at path argv (e_entry elf) pagetable sz
      end) (KSt [] (at_ t (km s))) (fun r k => (r = -1 /\ exec_failed k) \/ exists D, exec_file path argv strs D r k).
Proof using kend_kern pool_nodup pool_pages tramp_ok ustack_ok cur_p A_p inv_p.
  intros Hr Hnm Hargs. wstep. apply wp_onrest. eapply wp_mono; [apply (law_xilock t (tabs s) ip D Hr)|]. intros _ [h t1] (Eh & Ho). cbn [held st] in *. subst h.
  wstep. apply wp_onrest. eapply wp_mono; [apply (law_xreadi t1 (tabs s) ip D 0 SIZEOF_ELFHDR Ho); done|]. intros b [h t2] (Eh & Eb & Ho2). cbn [held st] in *. subst h.
  change (with_rest t2 (with_rest t1 (at_ t (km s)))) with (at_ t2 (km s)). assert (pmem K (with_km (km s) s) A) as Hp0 by (by rewrite km_id). assert (kept (km s) (km s)) as Hk0 by done.
  assert (forall m, pmem K (with_km m s) A -> kept (km s) m -> wp (bad kend 0 0 (Some ip)) (KSt [] (at_ t2 m)) (fun r k => (r = -1 /\ exec_failed k) \/ exists D, exec_file path argv strs D r k)) as Hbad.
  { intros m Hp Hk. unfold bad. rewrite Z.eqb_refl. wstep. wstep. eapply wp_mono; [by apply (bad_close t2 m ip D)|]. intros r k H. by left. }
  cbv zeta. destruct (Z.eqb_spec (Z.of_nat (length b)) SIZEOF_ELFHDR); cbn [negb]; [|by apply Hbad]. destruct (Z.eqb_spec (e_magic (elfhdr_of b)) ELF_MAGIC) as [Emag|]; cbn [negb]; [|by apply Hbad].
  wstep. wstep. cbn [st]. change (getp (at_ t2 (km s)) p) with (getp s p). wstep. apply wp_onkm. assert (page kend tf) as Htf.
  { destruct inv_p as [R Hp]. destruct (pm_mem _ _ _ _ _ _ _ _ Hp) as (l & own & Hat). apply (mem_disjoint kend pool kend_kern pool_nodup pool_pages _ _ _ _ _ tf Hat). rewrite elem_of_app. left. by apply tf_user. }
  eapply wp_mono; [apply (bld_new kend trampoline pool R0 K kend_kern pool_nodup pool_pages tramp_ok s A tf (km s) Hp0 Htf)|].
  intros pt [h m1] (Eh & Hs1 & Hc). cbn [held st] in *. subst h. change (with_km m1 (at_ t2 (km s))) with (at_ t2 m1). assert (kept (km s) m1) as Hk1 by (by apply kept_stays).
  destruct Hc as [[-> Hp1]|[Hpt B1]]; [rewrite Z.eqb_refl; by apply Hbad|]. destruct (Z.eqb_spec pt 0); [done|]. wstep.
  eapply wp_mono; [apply (load_loop_spec kend trampoline pool R0 K kend_kern pool_nodup pool_pages tramp_ok s A tf (tabs s) ip D _ t2 m1 pt [] 0 [] (i32 (e_phoff (elfhdr_of b))) B1); try done|].
  { constructor. } { intros va Hva. cbn in Hva. lia. }
  intros r [h k] (Eh & t3 & m3 & Ek & Ho3 & Hs3 & Hr3). cbn [held st] in *. subst h k. assert (kept (km s) m3) as Hk3 by (eapply kept_trans; [exact Hk1|by apply kept_stays]). destruct r as [sz|sz].
  { destruct Hr3 as [pages3 B3]. eapply wp_mono; [by apply (bad_some t3 m3 pt pages3 sz ip D)|]. intros r k H. by left. }
  destruct Hr3 as (pages3 & img & B3 & Hu3 & Eimg & Hlen & Him). wstep. apply wp_onrest. eapply wp_mono; [apply (law_xput t3 (tabs s) ip D Ho3)|]. intros _ [h t4] (Eh & Ht4). cbn [held st] in *. subst h.
  wstep. apply wp_onrest. eapply wp_mono; [apply (law_end t4 (tabs s) Ht4)|]. intros _ [h t5] (Eh & Hf5). cbn [held st] in *. subst h. change (with_rest t5 (with_rest t4 (at_ t3 m3))) with (at_ t5 m3).
  destruct (law_xsize t1 (tabs s) ip D Ho) as [_ HDb]. pose proof (readi_bytes_range D 0 SIZEOF_ELFHDR HDb) as Hbr. rewrite <- Eb in Hbr.
  eapply wp_mono; [apply (exec_stack_spec path argv strs (e_entry (elfhdr_of b)) img pt pages3 sz t5 m3); try done; apply (field_range b 24 8 Hbr)|].
  intros r k [H|(-> & Hh & Et & pages' & sp & ptrs & Hp & HD)]; [by left|right]. exists D. rewrite Eb in *. split; try done; [by rewrite Et|]. exists img, pages', sp, ptrs. done.
Qed.

Lemma exec_spec path argv strs : Forall2 (arg_at pool K ustack_at (km s)) argv strs ->
  wp (exec kend trampoline ustack_at path argv) (KSt [] s) (fun r k => (r = -1 /\ exec_failed k) \/ exists D, exec_file path argv strs D r k).
Proof using kend_kern pool_nodup pool_pages tramp_ok ustack_ok cur_p A_p inv_p files_p ExecFilesLaws0.
  intros Hargs. unfold exec, myproc. wstep. wstep. wstep. rewrite cur_p. cbn [nonnull]. wstep. wstep. apply wp_onrest. eapply wp_mono; [apply (law_xbegin (rest s) (tabs s) files_p)|].
  intros _ [h t1] (Eh & Ht1 & Hnm). cbn [held st] in *. subst h. wstep. apply wp_onrest. eapply wp_mono; [apply (law_xnamei t1 (tabs s) path Ht1)|]. intros o [h t2] (Eh & Ht2). cbn [held st] in *. subst h.
  replace (with_rest t2 (with_rest t1 s)) with (at_ t2 (km s)) by (unfold ExecLoad.at_; by rewrite km_id). destruct o as [ip|]; [destruct Ht2 as (D & Hn & Ht2); apply (exec_open t2 path argv strs ip D); auto|].
  wstep. apply wp_onrest. eapply wp_mono; [apply (law_end t2 (tabs s) Ht2)|]. intros _ [h t3] (Eh & Hf). cbn [held st] in *. subst h. wstep. left. split; [done|]. split; [done|]. exists t3, (km s).
  split_and!; try done. by rewrite km_id.
Qed.
End ExecThms.
