(* ===== verification/Syscall.v ===== *)
(** * System calls and traps (kernel/syscall.c, kernel/sysproc.c, kernel/trap.c, sys_exec of kernel/sysfile.c): definitions

    The way from a trap in user mode to the handler of a system call and back, over the state
    of Proc.v.  The calls on files, whose models have states of their own (Sysfile.v, Net.v),
    are the argument [file_call]; interrupt handlers of devices and the PLIC are arguments of
    devintr.  Registers that only exist in the hardware are arguments or results. *)
From S2P Require Import Prelude Mem Riscv Kalloc Vm Proc Exec.

Definition MAXPATH : Z := 128.

(** The clock of trap.c. *)
Class HasTicks (T : Type) := { ticks : T -> Z; set_ticks : Z -> T -> T }.
Definition tickslock : lockid := ("time", 0).
Definition ticks_chan : chan := ("ticks", 0).

Definition tf_a7 : Z := 168.
Definition tf_kernel_satp : Z := 0.
Definition tf_kernel_sp : Z := 8.
Definition tf_kernel_trap : Z := 16.
Definition tf_kernel_hartid : Z := 32.

(** The C string at [a], of fewer than [n] bytes. *)
Fixpoint read_str (n : nat) (m : mem) (a : Z) : list Z :=
  match n with O => [] | S n' => if rd m a =? 0 then [] else rd m a :: read_str n' m (a + 1) end.

Section Syscall.
Context {T : Type} `{!ProcFiles T, !ExecFiles T, !HasTicks T}.
Variables (kend trampoline forkret_at : Z) (xstate_at : Z -> Z).
(** The addresses of the local variables ustack of exec, path and uarg of sys_exec. *)
Variables (ustack_at path_at uarg_at : Z).
Abbreviation kern := (@kern T).

(** ** Arguments *)

Definition fetchaddr (addr ip : Z) : M kern Z :=
  p ← myproc;
  x ← gets (fun s => getp s p);
  if (p_sz x <=? addr) || (p_sz x <? u64 (addr + 8)) then mret (-1) else
  r ← onkm (copyin (p_pagetable x) ip addr 8);
  if negb (r =? 0) then mret (-1) else mret 0.

Definition fetchstr (addr buf max : Z) : M kern Z :=
  p ← myproc;
  x ← gets (fun s => getp s p);
  err ← onkm (copyinstr (p_pagetable x) buf addr max);
  if err <? 0 then mret err else
  m ← gets (fun s => ram (km s));
  match strlen (Z.to_nat max) m buf with
  | None => panic no_fuel
  | Some n => mret n
  end.

Definition argraw (n : Z) : M kern Z :=
  p ← myproc;
  x ← gets (fun s => getp s p);
  if (0 <=? n) && (n <=? 5) then onkm (ld (p_trapframe x + tf_a0 + 8 * n)) else panic "argraw".
Definition argint (n : Z) : M kern Z := v ← argraw n; mret (i32 v).
Definition argaddr (n : Z) : M kern Z := argraw n.
Definition argstr (n buf max : Z) : M kern Z := addr ← argaddr n; fetchstr addr buf max.

(** ** exec *)

(** The loop of sys_exec from [i] = MAXARG - [n] on: whether it gets to the null pointer, and the
    pages it has allocated. *)
Fixpoint fetch_args (n : nat) (i uargv : Z) (argv : list Z) : M kern (bool * list Z) :=
  match n with
  | O => mret (false, argv)
  | S n' =>
    r ← fetchaddr (u64 (uargv + 8 * i)) uarg_at;
    if r <? 0 then mret (false, argv) else
    uarg ← onkm (ld uarg_at);
    if uarg =? 0 then mret (true, argv) else
    a ← onkm kalloc;
    if a =? 0 then mret (false, argv) else
    r ← fetchstr uarg a PGSIZE;
    if r <? 0 then mret (false, argv ++ [a]) else
    fetch_args n' (i + 1) uargv (argv ++ [a])
  end.
Fixpoint free_args (argv : list Z) : M kern unit :=
  match argv with
  | [] => mret tt
  | a :: argv' => onkm (kfree kend a) ;; free_args argv'
  end.
Definition sys_exec : M kern Z :=
  r ← argstr 0 path_at MAXPATH;
  if r <? 0 then mret (-1) else
  uargv ← argaddr 1;
  x ← fetch_args (Z.to_nat MAXARG) 0 uargv [];
  let '(ok, argv) := x in
  if (ok : bool) then
    path ← gets (fun s => read_str (Z.to_nat MAXPATH) (ram (km s)) path_at);
    ret ← exec kend trampoline ustack_at path argv;
    free_args argv ;;
    mret ret
  else
    free_args argv ;;
    mret (-1).

(** ** sysproc.c *)

Variable swtch : M kern unit.

Definition sys_exit : M kern Z := n ← argint 0; exit swtch n ;; mret 0.
Definition sys_getpid : M kern Z := p ← myproc; gets (fun s => p_pid (getp s p)).
Definition sys_fork : M kern Z := fork kend trampoline forkret_at.
Definition sys_wait (fuel : nat) : M kern Z := p ← argaddr 0; wait kend xstate_at swtch fuel p.
Definition sys_sbrk : M kern Z :=
  n ← argint 0;
  p ← myproc;
  addr ← gets (fun s => i32 (p_sz (getp s p)));
  r ← growproc kend n;
  if r <? 0 then mret (-1) else mret addr.
Definition get_ticks : M kern Z := gets (fun s => ticks (rest s)).
(** [ticks - ticks0 < n] is a comparison of unsigned numbers; [fuel] bounds the number of times
    the process goes to sleep. *)
Fixpoint sleep_loop (fuel : nat) (ticks0 n : Z) : M kern Z :=
  t ← get_ticks;
  if negb (u32 (t - ticks0) <? u32 n) then release tickslock ;; mret 0 else
  p ← myproc;
  killed ← gets (fun s => p_killed (getp s p));
  if negb (killed =? 0) then release tickslock ;; mret (-1) else
  sleep swtch ticks_chan tickslock ;;
  match fuel with O => panic no_fuel | S fuel' => sleep_loop fuel' ticks0 n end.
Definition sys_sleep (fuel : nat) : M kern Z :=
  n ← argint 0;
  acquire tickslock ;;
  ticks0 ← get_ticks;
  sleep_loop fuel ticks0 n.
Definition sys_kill : M kern Z := pid ← argint 0; kill pid.
Definition sys_uptime : M kern Z :=
  acquire tickslock ;;
  xticks ← get_ticks;
  release tickslock ;;
  mret xticks.

(** ** The table of system calls *)

Variables (fuel : nat) (file_call : Z -> M kern Z).
Definition syscalls (num : Z) : option (M kern Z) :=
  match num with
  | 1 => Some sys_fork
  | 2 => Some sys_exit
  | 3 => Some (sys_wait fuel)
  | 6 => Some sys_kill
  | 7 => Some sys_exec
  | 11 => Some sys_getpid
  | 12 => Some sys_sbrk
  | 13 => Some (sys_sleep fuel)
  | 14 => Some sys_uptime
  | 4 | 5 | 8 | 9 | 10 | 15 | 16 | 17 | 18 | 19 | 20 | 21 | 29 => Some (file_call num)
  | _ => None
  end.
Definition NSYSCALLS : Z := 30.

(** The message about an unknown number goes to the console. *)
Definition syscall : M kern unit :=
  p ← myproc;
  tf ← gets (fun s => p_trapframe (getp s p));
  a7 ← onkm (ld (tf + tf_a7));
  let num := i32 a7 in
  match (if (0 <? num) && (num <? NSYSCALLS) then syscalls num else None) with
  | Some f => r ← f; onkm (sd (tf + tf_a0) (u64 r))
  | None => onkm (sd (tf + tf_a0) (u64 (-1)))
  end.

(** ** trap.c *)

Definition clockintr : M kern unit :=
  acquire tickslock ;;
  modify (fun s => with_rest (set_ticks (u32 (ticks (rest s) + 1)) (rest s)) s) ;;
  wakeup ticks_chan ;;
  release tickslock.

Definition UART0_IRQ : Z := 10.
Definition VIRTIO0_IRQ : Z := 1.
Definition E1000_IRQ : Z := 33.
Variables (plic_claim : M kern Z) (plic_complete : Z -> M kern unit) (uartintr virtio_disk_intr e1000_intr : M kern unit) (cpuid : Z).
Definition devintr (scause : Z) : M kern Z :=
  if negb (Z.land scause 0x8000000000000000 =? 0) && (Z.land scause 0xff =? 9) then
    irq ← plic_claim;
    (if irq =? UART0_IRQ then uartintr
     else if irq =? VIRTIO0_IRQ then virtio_disk_intr
     else if irq =? E1000_IRQ then e1000_intr
     else mret tt) ;;
    (if irq =? 0 then mret tt else plic_complete irq) ;;
    mret 1
  else if scause =? 0x8000000000000001 then
    (if cpuid =? 0 then clockintr else mret tt) ;;
    mret 2
  else mret 0.

Definition SSTATUS_SPP : Z := Z.shiftl 1 8.
Definition SSTATUS_SPIE : Z := Z.shiftl 1 5.
(** The kernel page table and the address of usertrap, as uservec needs them. *)
Variables (kernel_satp usertrap_at : Z).
(** The registers sstatus, sepc and satp with which userret enters user mode. *)
Definition usertrapret (sstatus : Z) : M kern (Z * Z * Z) :=
  p ← myproc;
  x ← gets (fun s => getp s p);
  onkm (sd (p_trapframe x + tf_kernel_satp) kernel_satp) ;;
  onkm (sd (p_trapframe x + tf_kernel_sp) (u64 (p_kstack x + PGSIZE))) ;;
  onkm (sd (p_trapframe x + tf_kernel_trap) usertrap_at) ;;
  onkm (sd (p_trapframe x + tf_kernel_hartid) cpuid) ;;
  epc ← onkm (ld (p_trapframe x + tf_epc));
  mret (Z.lor (Z.land sstatus (Z.lnot SSTATUS_SPP)) SSTATUS_SPIE, epc, MAKE_SATP (p_pagetable x)).

(** exit does not return; when it does, the model has nothing to go on with. *)
Definition killed (p : Z) : M kern bool := gets (fun s => negb (p_killed (getp s p) =? 0)).
Definition usertrap (sstatus scause sepc : Z) : M kern (Z * Z * Z) :=
  if negb (Z.land sstatus SSTATUS_SPP =? 0) then panic "usertrap: not from user mode" else
  p ← myproc;
  tf ← gets (fun s => p_trapframe (getp s p));
  onkm (sd (tf + tf_epc) sepc) ;;
  which_dev ←
    (if scause =? 8 then
       b ← killed p;
       (if (b : bool) then exit swtch (-1) else mret tt) ;;
       epc ← onkm (ld (tf + tf_epc));
       onkm (sd (tf + tf_epc) (u64 (epc + 4))) ;;
       syscall ;;
       mret 0
     else
       d ← devintr scause;
       if negb (d =? 0) then mret d else
       updp p (set_killed 1) ;;
       mret 0);
  b ← killed p;
  (if (b : bool) then exit swtch (-1) else mret tt) ;;
  (if which_dev =? 2 then yield swtch else mret tt) ;;
  usertrapret sstatus.

(** The registers sepc and sstatus are restored to these values. *)
Definition kerneltrap (sstatus scause sepc : Z) (intr_get : bool) : M kern (Z * Z) :=
  if Z.land sstatus SSTATUS_SPP =? 0 then panic "kerneltrap: not from supervisor mode" else
  if intr_get then panic "kerneltrap: interrupts enabled" else
  which_dev ← devintr scause;
  if which_dev =? 0 then panic "kerneltrap" else
  o ← gets (fun s : kern => cur s);
  running ← gets (fun s => match o with Some p => bool_decide (p_state (getp s p) = RUNNING) | None => false end);
  (if (which_dev =? 2) && running then yield swtch else mret tt) ;;
  mret (sepc, sstatus).
End Syscall.
