(* ===== verification/SyscallThms.v ===== *)
(** * System calls: the arguments of exec

    sys_exec copies a path and a vector of strings from user memory; [ustr] and [uargs] are
    what user memory holds there. *)
From S2P Require Import Prelude Mem Riscv Kalloc Vm VmTree VmSpec VmCopy VmAlloc VmFree VmPool Proc ProcMem ProcInv ProcOps ProcFork ProcCopy ProcThms ProcExit Exec ExecMem ExecSpec ExecLoad ExecArgs ExecThms Syscall.

(** The word at the user address [va] of a process of [sz] bytes. *)
Definition uword (m : mem) (pages : list (Z * Z)) (sz va : Z) : option Z :=
  if (sz <=? va) || (sz <? u64 (va + 8)) then None else
  le_get <$> mapM (fun i => rd m <$> upa pages (va + i)) (seqZ 0 8).
(** The strings of the vector at [uargv], from element [i] on: [n] elements at most, the null
    pointer included. *)
Fixpoint uargs (m : mem) (pages : list (Z * Z)) (sz uargv : Z) (n : nat) (i : Z) : option (list (list Z)) :=
  match n with
  | O => None
  | S n' =>
    match uword m pages sz (u64 (uargv + 8 * i)) with
    | None => None
    | Some 0 => Some []
    | Some ptr =>
      match ustr m pages ptr (Z.to_nat PGSIZE) with
      | None => None
      | Some str => cons str <$> uargs m pages sz uargv n' (i + 1)
      end
    end
  end.

Lemma le_load_get m a n : le_load m a n = le_get ((fun i => rd m (a + i)) <$> seqZ 0 (Z.of_nat n)).
Proof.
  revert a. induction n as [|n IH]; intros a; [done|]. rewrite Nat2Z.inj_succ, (seqZ_cons 0) by lia. rewrite Z.pred_succ, fmap_cons. cbn [le_load le_get]. rewrite Z.add_0_r. do 2 f_equal.
  rewrite IH. f_equal. change (Z.succ 0) with (1 + 0). rewrite <- fmap_add_seqZ, <- list_fmap_compose. apply list_fmap_ext. intros i x _. cbn. f_equal. lia.
Qed.
Lemma load64_get m a : load64 m a = le_get ((fun i => rd m (a + i)) <$> seqZ 0 8).
Proof. exact (le_load_get m a 8). Qed.
Lemma uword_Some m m' pages sz va a : (sz <=? va) || (sz <? u64 (va + 8)) = false -> (forall i, 0 <= i < 8 -> exists pa, upa pages (va + i) = Some pa /\ rd m' (a + i) = rd m pa) ->
  uword m pages sz va = Some (load64 m' a).
Proof.
  intros E H. unfold uword. rewrite E, load64_get.
  assert (mapM (fun i => rd m <$> upa pages (va + i)) (seqZ 0 8) = Some ((fun i => rd m' (a + i)) <$> seqZ 0 8)) as ->; [|done].
  apply mapM_Some. apply Forall2_same_length_lookup. split; [by rewrite length_fmap|]. intros i x y Hx Hy. rewrite list_lookup_fmap, Hx in Hy. injection Hy as <-.
  apply lookup_seqZ in Hx as [-> Hx]. destruct (H (0 + Z.of_nat i)) as (pa & -> & ->); [lia|]. done.
Qed.
Lemma uword_None m pages sz va i : 0 <= i < 8 -> upa pages (va + i) = None -> uword m pages sz va = None.
Proof.
  intros Hi E. unfold uword. destruct (_ || _); [done|]. destruct (mapM _ _) as [l|] eqn:Em; [|done]. exfalso. apply mapM_Some_1 in Em.
  destruct (Forall2_lookup_l _ _ _ (Z.to_nat i) i Em) as (y & _ & Hy); [apply lookup_seqZ; lia|]. by rewrite E in Hy.
Qed.

Lemma read_str_cstring m a str n : cstring m a str -> (length str < n)%nat -> read_str n m a = str.
Proof.
  revert a n. induction str as [|c str IH]; intros a n [H1 H2] Hn; (destruct n as [|n]; [cbn in Hn; lia|]); cbn [read_str].
  - cbn in H2. rewrite Z.add_0_r in H2. by rewrite H2, Z.eqb_refl.
  - destruct (H1 0%nat c eq_refl) as [E Hc]. rewrite Z.add_0_r in E. rewrite E. destruct (Z.eqb_spec c 0); [done|]. f_equal. apply IH; [|cbn in Hn; lia]. split.
    + intros i d Hd. destruct (H1 (S i) d Hd) as [<- Hne]. split; [f_equal; lia|done].
    + rewrite <- H2. cbn [length]. f_equal. lia.
Qed.

(** [exec_done] looks at the pages of processes only. *)
Lemma exec_done_move {T} (s s2 : @kern T) m m' A p pages' path entry img strs sp ptrs pages0 : A !! p = Some pages0 ->
  exec_done (with_km m s) s2 A p pages' path entry img strs sp ptrs -> (forall q, q ∈ users s A -> same_page (ram (km s)) (ram m) q) ->
  (forall q, q ∈ p_trapframe (getp s p) :: pages'.*1 ++ users s (delete p A) -> same_page (ram (km s2)) (ram m') q) ->
  exec_done s (with_km m' s2) A p pages' path entry img strs sp ptrs.
Proof.
  intros HA [D1 D2 D3 D4 D5 D6 D7 D8 D9 D10] Hs Hq. rewrite !getp_km in *. assert (forall va pa, upa pages' va = Some pa -> rd (ram m') pa = rd (ram (km s2)) pa) as Hu.
  { apply (upa_same (ram (km s2))). intros q Hin. apply Hq. right. rewrite elem_of_app. by left. }
  assert (p_trapframe (getp s p) ∈ users s A) as Htf by (rewrite (users_delete s A p pages0 HA); by left). split; rewrite ?getp_km; try done.
  - intros va Hva. destruct (D4 va Hva) as (pa & E & <-). exists pa. split; [done|]. apply (upa_same (ram (km s2)) _ (take (Z.to_nat (npages (Z.of_nat (length img)))) pages')) with (va := va); [|done].
    intros q Hin. apply Hq. right. rewrite elem_of_app. left. rewrite fmap_take in Hin. by apply elem_of_take in Hin as (j & Hj%list_elem_of_lookup_2 & _).
  - eapply Forall2_impl; [exact D7|]. intros ptr str (? & ? & ? & ?). split_and!; try done. by eapply ubytes_same.
  - intros i ptr Hi. eapply ubytes_same; [exact Hu|by apply D8].
  - intros o O1 O2 O3. specialize (D9 o O1 O2 O3). unfold TF_SIZE in O3. assert (load64 (ram m') (p_trapframe (getp s p) + o) = load64 (ram (km s2)) (p_trapframe (getp s p) + o)) as E.
    { apply load64_ext. intros b Hb. apply (Hq (p_trapframe (getp s p))); [by left|lia]. }
    cbn [km with_km]. rewrite E, D9. assert (load64 (ram m) (p_trapframe (getp s p) + o) = load64 (ram (km s)) (p_trapframe (getp s p) + o)) as E2.
    { apply load64_ext. intros b Hb. apply (Hs (p_trapframe (getp s p)) Htf). lia. }
    cbn [km with_km]. by rewrite E2.
  - intros q Hin x Hx. cbn [km with_km]. rewrite (Hq q) by (done || (right; rewrite elem_of_app; by right)). rewrite (D10 q Hin x Hx). apply (Hs q); [|done]. rewrite (users_delete s A p pages0 HA). right. rewrite elem_of_app. by right.
Qed.

Section SysExec.
Context {T : Type} `{!ProcFiles T, !ProcFilesLaws T, !ExecFiles T, !ExecFilesLaws T}.
Variables (kend trampoline : Z) (pool : list Z) (R0 : spaces).
Hypothesis kend_kern : KERNBASE <= kend.
Hypothesis pool_nodup : NoDup pool.
Hypothesis pool_pages : Forall (page kend) pool.
Hypothesis tramp_ok : trampoline mod 4096 = 0 /\ 0 <= trampoline /\ trampoline + 4096 <= 2 ^ 56.
Variables (s : @kern T) (A : aspaces) (p : Z) (pages0 : list (Z * Z)).
Hypothesis cur_p : cur s = Some p.
Hypothesis A_p : A !! p = Some pages0.
Abbreviation kern := (@kern T).
Abbreviation pmem := (pmem kend trampoline pool R0).
Abbreviation sz := (p_sz (getp s p)).
Implicit Types (m : kmem) (K : list Z).

(** Only [n] bytes at [a] change. *)
Definition only_range (m m' : mem) (a n : Z) : Prop := forall x, ~ a <= x < a + n -> rd m' x = rd m x.
(** Memory that calls may use: outside the pool or in the pages [K]. *)
Definition kmine K (a n : Z) : Prop := forall i, 0 <= i < n -> kaddr pool K (a + i).

Lemma cur_maps K m : pmem K (with_km m s) A -> exists R, pmem_at kend trampoline pool R0 K (with_km m s) A R /\
  maps kend trampoline pool m R (users s A ++ K) (p_pagetable (getp s p)) (p_trapframe (getp s p)) pages0.
Proof using kend_kern pool_nodup pool_pages A_p.
  intros [R Hp]. exists R. split; [done|]. apply (proc_maps kend trampoline pool R0 kend_kern pool_nodup pool_pages K (with_km m s) A R p pages0 Hp A_p).
Qed.
Lemma kmine_kbuf K m a n : pmem K (with_km m s) A -> kmine K a n -> forall i, 0 <= i < n -> kbuf pool (users s A ++ K) pages0 (a + i).
Proof using kend_kern pool_nodup pool_pages A_p.
  intros Hp Hk i Hi. destruct (cur_maps K m Hp) as (R & _ & Hm). destruct (mp_mem _ _ _ _ _ _ _ _ _ Hm) as (l & own & Hat). split; intros q Hq.
  - intros Hn. apply (Hk i Hi q Hq). intros Hx. apply Hn. rewrite elem_of_app. by right.
  - pose proof (mem_nodup kend pool pool_nodup _ _ _ _ _ Hat) as Hnd. apply NoDup_app in Hnd as (_ & Hnd & _). assert (q ∈ users s A) as Hu by (rewrite (users_delete s A p pages0 A_p); right; rewrite elem_of_app; by left).
    apply (Hk i Hi q); [|by apply Hnd]. apply (mem_disjoint kend pool kend_kern pool_nodup pool_pages _ _ _ _ _ q Hat). rewrite elem_of_app. by left.
Qed.
Lemma pmem_maps K m m' R : pmem_at kend trampoline pool R0 K (with_km m s) A R -> maps kend trampoline pool m' R (users s A ++ K) (p_pagetable (getp s p)) (p_trapframe (getp s p)) pages0 -> pmem K (with_km m' s) A.
Proof using. intros Hp Hm. exists R. eapply (pmem_at_ext _ _ _ _ K (with_km m s)); [done|apply Hm|done]. Qed.

Lemma fetchaddr_spec K m addr buf : pmem K (with_km m s) A -> kmine K buf 8 -> 0 <= addr ->
  wp (fetchaddr addr buf) (KSt [] (with_km m s)) (fun r k => held k = [] /\ exists m', st k = with_km m' s /\ pmem K (with_km m' s) A /\ only_range (ram m) (ram m') buf 8 /\
    ((r = 0 /\ uword (ram m) pages0 sz addr = Some (load64 (ram m') buf)) \/ (r = -1 /\ uword (ram m) pages0 sz addr = None))).
Proof using kend_kern pool_nodup pool_pages A_p cur_p.
  intros Hp Hk Ha. unfold fetchaddr, myproc. wstep. wstep. wstep. change (cur (with_km m s)) with (cur s). rewrite cur_p. cbn [nonnull]. wstep. wstep. wstep. cbn [st]. rewrite getp_km.
  destruct ((sz <=? addr) || (sz <? u64 (addr + 8))) eqn:Esz.
  { wstep. split; [done|]. exists m. split_and!; try done. right. split; [done|]. unfold uword. by rewrite Esz. }
  destruct (cur_maps K m Hp) as (R & Hpa & Hm). wstep. apply wp_onkm.
  eapply wp_mono; [apply (copyin_maps kend trampoline pool kend_kern pool_nodup pool_pages [] m R _ _ _ pages0 buf addr 8 Hm Ha ltac:(lia)); by apply (kmine_kbuf K m)|].
  intros r [h k] (Eh & w & n & Ek & Hm' & Hn & -> & He & H1 & H2). cbn [held st] in *. subst h k. change (with_km (Kmem w (freelist m)) (with_km m s)) with (with_km (Kmem w (freelist m)) s).
  assert (pmem K (with_km (Kmem w (freelist m)) s) A) as Hp' by (by eapply (pmem_maps K m)). destruct (Z.eqb_spec n 8) as [->|Hne]; cbn [negb Z.eqb]; wstep; (split; [done|]); exists (Kmem w (freelist m)); (split_and!; try done).
  - left. split; [done|]. by apply uword_Some.
  - intros x Hx. apply H2. lia.
  - right. split; [done|]. apply (uword_None _ _ _ _ n); [lia|]. apply He. lia.
Qed.

Lemma fetchstr_spec K m addr buf max : pmem K (with_km m s) A -> kmine K buf max -> 0 <= addr -> 0 <= max ->
  wp (fetchstr addr buf max) (KSt [] (with_km m s)) (fun r k => held k = [] /\ exists m', st k = with_km m' s /\ pmem K (with_km m' s) A /\ only_range (ram m) (ram m') buf max /\
    match ustr (ram m) pages0 addr (Z.to_nat max) with Some str => r = Z.of_nat (length str) /\ cstring (ram m') buf str | None => r = -1 end).
Proof using kend_kern pool_nodup pool_pages A_p cur_p.
  intros Hp Hk Ha Hmax. unfold fetchstr, myproc. wstep. wstep. wstep. change (cur (with_km m s)) with (cur s). rewrite cur_p. cbn [nonnull]. wstep. wstep. wstep. cbn [st]. rewrite getp_km.
  destruct (cur_maps K m Hp) as (R & Hpa & Hm). wstep. apply wp_onkm. unfold copyinstr.
  eapply wp_mono; [apply (copyinstr_loop_maps kend trampoline pool kend_kern pool_nodup pool_pages [] R _ _ _ pages0 (Z.to_nat max) m buf addr max Hm Ha ltac:(lia)); by apply (kmine_kbuf K m)|].
  intros r [h k] (Eh & w & Ek & Hm' & H1 & H2). cbn [held st] in *. subst h k. change (with_km (Kmem w (freelist m)) (with_km m s)) with (with_km (Kmem w (freelist m)) s).
  assert (pmem K (with_km (Kmem w (freelist m)) s) A) as Hp' by (by eapply (pmem_maps K m)). destruct (ustr (ram m) pages0 addr (Z.to_nat max)) as [str|] eqn:Es; cycle 1.
  { subst r. cbn [Z.ltb Z.compare]. wstep. split; [done|]. exists (Kmem w (freelist m)). done. }
  destruct H2 as [-> H2]. cbn [Z.ltb Z.compare]. wstep. wstep. cbn [st]. change (ram (km (with_km (Kmem w (freelist m)) s))) with w. destruct (ustr_length _ _ _ _ _ Es) as [Hl Hc].
  assert (cstring w buf str) as Hs.
  { split.
    - intros i c Hi. split; [apply H2; rewrite lookup_app_l by (by eapply lookup_lt_Some); done|]. eapply Forall_lookup_1 in Hc; [|exact Hi]. lia.
    - apply H2. by rewrite lookup_app_r, Nat.sub_diag by lia. }
  assert (strlen (Z.to_nat max) w buf = Some (Z.of_nat (length str))) as -> by (apply (strlen_loop_cstring w buf str Hs (Z.to_nat max) 0); lia). wstep. split; [done|]. exists (Kmem w (freelist m)). done.
Qed.

(** ** Fetching the arguments *)

Lemma uword_ext (m m' : mem) pages z va : (forall va pa, upa pages va = Some pa -> rd m' pa = rd m pa) -> uword m' pages z va = uword m pages z va.
Proof using.
  clear kend_kern pool_nodup pool_pages tramp_ok. intros H. unfold uword. destruct (_ || _); [done|]. f_equal. apply mapM_ext. intros i. destruct (upa pages (va + i)) as [pa|] eqn:E; [|done]. cbn. by rewrite (H _ _ E).
Qed.

Variables (K : list Z) (ustack_at path_at uarg_at : Z).
Hypothesis bufs_ok : forall x, in_ustack ustack_at x \/ path_at <= x < path_at + MAXPATH \/ uarg_at <= x < uarg_at + 8 -> kaddr pool K x.
Hypothesis bufs_apart : uarg_at + 8 <= path_at \/ path_at + MAXPATH <= uarg_at.
Abbreviation arg_at := (fun argv => arg_at pool (argv ++ K) ustack_at).

(** Memory [m] with the pages [argv] taken from the free list: processes and path as in [m0]. *)
Record taken m0 m argv : Prop := {
  tk_mem : pmem (argv ++ K) (with_km m s) A;
  tk_same : forall q, q ∈ users s A -> same_page (ram (km s)) (ram m) q;
  tk_path : forall x, path_at <= x < path_at + MAXPATH -> rd (ram m) x = rd (ram m0) x;
}.
Lemma taken_pages m0 m argv a : taken m0 m argv -> a ∈ argv -> a ∈ pool /\ page kend a /\ (a ∉ K) /\ (a ∉ users s A).
Proof using kend_kern pool_nodup pool_pages tramp_ok cur_p A_p bufs_ok bufs_apart.
  intros [[R Hp] _ _] Ha. destruct (pm_mem _ _ _ _ _ _ _ _ Hp) as (l & own & Hat). destruct (mem_disjoint kend pool kend_kern pool_nodup pool_pages _ _ _ _ _ a Hat) as (H1 & H2 & _); [rewrite !elem_of_app; tauto|].
  pose proof (mem_nodup kend pool pool_nodup _ _ _ _ _ Hat) as Hn. apply NoDup_app in Hn as (_ & N1 & N2). apply NoDup_app in N2 as (_ & N2 & _). split_and!; [done|done|by apply N2|]. intros Hu. apply (N1 a Hu). rewrite elem_of_app. by left.
Qed.
Lemma user_page m0 m argv q : taken m0 m argv -> q ∈ users s A -> q ∈ pool /\ page kend q /\ (q ∉ K).
Proof using kend_kern pool_nodup pool_pages tramp_ok cur_p A_p bufs_ok bufs_apart.
  intros [[R Hp] _ _] Hq. destruct (pm_mem _ _ _ _ _ _ _ _ Hp) as (l & own & Hat). destruct (mem_disjoint kend pool kend_kern pool_nodup pool_pages _ _ _ _ _ q Hat) as (H1 & H2 & _); [rewrite elem_of_app; by left|].
  split_and!; [done|done|]. pose proof (mem_nodup kend pool pool_nodup _ _ _ _ _ Hat) as Hn. apply NoDup_app in Hn as (_ & N1 & _). specialize (N1 q Hq). rewrite elem_of_app in N1. tauto.
Qed.
(** User memory is that of [s]. *)
Lemma taken_user m0 m argv va pa : taken m0 m argv -> upa pages0 va = Some pa -> rd (ram m) pa = rd (ram (km s)) pa.
Proof using kend_kern pool_nodup pool_pages tramp_ok cur_p A_p bufs_ok bufs_apart.
  intros Ht (q & Hq & Hr)%upa_page. apply (tk_same _ _ _ Ht q); [|done]. rewrite (users_delete s A p pages0 A_p). right. rewrite elem_of_app. by left.
Qed.
(** An argument is untouched when its page is. *)
Lemma arg_same m m' argv argv' a str : (forall x, x ∈ argv -> x ∈ argv') -> same_page (ram m) (ram m') a -> arg_at argv m a str -> arg_at argv' m' a str.
Proof using.
  clear kend_kern pool_nodup pool_pages tramp_ok bufs_ok bufs_apart. intros Hsub Hs [[H1 H2] H3 H4]. unfold PGSIZE in H3. split; [split|done|].
  - intros i c Hc. rewrite Hs by (apply lookup_lt_Some in Hc; lia). by apply H1.
  - by rewrite Hs by lia.
  - intros i Hi. destruct (H4 i Hi) as [G1 G2]. split; [|done]. intros q Hq Hn. apply (G1 q Hq). intros Hx. apply Hn. rewrite !elem_of_app in *. naive_solver.
Qed.
Lemma range_page (w w' : mem) buf n q : (forall x, buf <= x < buf + n -> off_page x q) -> only_range w w' buf n -> same_page w w' q.
Proof using. clear kend_kern pool_nodup pool_pages tramp_ok bufs_ok bufs_apart. intros Ho Hr x Hx. apply Hr. intros Hin. destruct (Ho x Hin); lia. Qed.

(** The pointer is read into uarg. *)
Lemma taken_uarg m0 m m' argv strs : taken m0 m argv -> Forall2 (arg_at argv m) argv strs -> pmem (argv ++ K) (with_km m' s) A -> only_range (ram m) (ram m') uarg_at 8 ->
  taken m0 m' argv /\ Forall2 (arg_at argv m') argv strs.
Proof using kend_kern pool_nodup pool_pages tramp_ok cur_p A_p bufs_ok bufs_apart.
  intros Ht Ha Hp Hr. assert (forall q, q ∈ pool -> (q ∉ K) -> same_page (ram m) (ram m') q) as Hs by (intros q Hq Hn; apply (range_page _ _ uarg_at 8); [intros x Hx; by apply bufs_ok; auto|done]).
  split; [split; [done|..]|].
  - intros q Hq x Hx. destruct (user_page _ _ _ q Ht Hq) as (H1 & _ & H2). rewrite (Hs q H1 H2 x Hx). by apply (tk_same _ _ _ Ht q).
  - intros x Hx. rewrite Hr by lia. by apply Ht.
  - apply Forall2_same_length_lookup. split; [by eapply Forall2_length|]. intros i a str Hi Hj. destruct (taken_pages _ _ _ a Ht) as (H1 & _ & H2 & _); [by eapply list_elem_of_lookup_2|].
    eapply (arg_same m m' argv); [done|by apply Hs|]. by eapply Forall2_lookup_lr.
Qed.
(** A new page. *)
Lemma taken_new m0 m m' argv strs a : taken m0 m argv -> Forall2 (arg_at argv m) argv strs -> pmem (a :: argv ++ K) (with_km m' s) A -> stays pool (users s A ++ argv ++ K) m m' ->
  taken m0 m' (argv ++ [a]) /\ Forall2 (arg_at (argv ++ [a]) m') argv strs.
Proof using kend_kern pool_nodup pool_pages tramp_ok cur_p A_p bufs_ok bufs_apart.
  intros Ht Ha [R Hp] Hs. assert (pmem ((argv ++ [a]) ++ K) (with_km m' s) A) as Hp' by (exists R; eapply pmem_perm; [|exact Hp]; rewrite <- app_assoc; apply Permutation_middle).
  assert (forall q, page kend q -> q ∈ users s A ++ argv ++ K -> same_page (ram m) (ram m') q) as Hq.
  { intros q H1 H2 x Hx. apply Hs. intros q' Hq' Hn. unfold off_page. rewrite Forall_forall in pool_pages. destruct (page_disjoint kend q q'); [done|by apply pool_pages|intros ->; done|lia|lia]. }
  split; [split; [done|..]|].
  - intros q Hu x Hx. destruct (user_page _ _ _ q Ht Hu) as (_ & H1 & _). rewrite (Hq q H1) by (done || (rewrite elem_of_app; by left)). by apply (tk_same _ _ _ Ht q).
  - intros x Hx. rewrite <- (tk_path _ _ _ Ht x Hx). apply Hs. intros q Hqp Hn. apply (bufs_ok x); [tauto|done|]. intros Hk. apply Hn. rewrite !elem_of_app. tauto.
  - apply Forall2_same_length_lookup. split; [by eapply Forall2_length|]. intros i b str Hi Hj. assert (b ∈ argv) as Hb by (by eapply list_elem_of_lookup_2). destruct (taken_pages _ _ _ b Ht Hb) as (_ & H1 & _).
    eapply (arg_same m m' argv); [intros x; rewrite elem_of_app; by left|apply Hq; [done|rewrite !elem_of_app; tauto]|]. by eapply Forall2_lookup_lr.
Qed.
(** A string in the new page. *)
Lemma taken_str m0 m m' argv strs a str : taken m0 m (argv ++ [a]) -> Forall2 (arg_at (argv ++ [a]) m) argv strs -> pmem ((argv ++ [a]) ++ K) (with_km m' s) A -> only_range (ram m) (ram m') a PGSIZE ->
  taken m0 m' (argv ++ [a]) /\ (cstring (ram m') a str -> Z.of_nat (length str) < PGSIZE -> Forall2 (arg_at (argv ++ [a]) m') (argv ++ [a]) (strs ++ [str])).
Proof using kend_kern pool_nodup pool_pages tramp_ok cur_p A_p bufs_ok bufs_apart.
  intros Ht Ha Hp Hr. assert (a ∈ argv ++ [a]) as Hain by (rewrite elem_of_app; right; by left). destruct (taken_pages _ _ _ a Ht Hain) as (A1 & A2 & A3 & A4).
  assert (forall q, page kend q -> q <> a -> same_page (ram m) (ram m') q) as Hs.
  { intros q H1 H2. apply (range_page _ _ a PGSIZE); [|done]. intros x Hx. unfold off_page, PGSIZE in *. destruct (page_disjoint kend a q); [done|done|done|lia|lia]. }
  assert (NoDup (argv ++ [a])) as Hnd.
  { destruct Hp as [R Hp]. destruct (pm_mem _ _ _ _ _ _ _ _ Hp) as (l & own & Hat). pose proof (mem_nodup kend pool pool_nodup _ _ _ _ _ Hat) as Hn. apply NoDup_app in Hn as (_ & _ & Hn). by apply NoDup_app in Hn as [Hn _]. }
  split; [split; [done|..]|].
  - intros q Hq x Hx. destruct (user_page _ _ _ q Ht Hq) as (_ & H1 & _). rewrite (Hs q H1) by (done || by intros ->). by apply (tk_same _ _ _ Ht q).
  - intros x Hx. rewrite <- (tk_path _ _ _ Ht x Hx). apply Hr. unfold PGSIZE. intros Hin. destruct (bufs_ok x ltac:(tauto) a A1 A3); lia.
  - intros Hc Hl. apply Forall2_app.
    + apply Forall2_same_length_lookup. split; [by eapply Forall2_length|]. intros i b str' Hi Hj. assert (b ∈ argv) as Hb by (by eapply list_elem_of_lookup_2).
      destruct (taken_pages _ _ _ b Ht) as (_ & H1 & _); [rewrite elem_of_app; by left|]. eapply (arg_same m m' (argv ++ [a])); [done| |by eapply Forall2_lookup_lr].
      apply Hs; [done|]. intros ->. apply NoDup_app in Hnd as (_ & Hnd & _). apply (Hnd a Hb). by left.
    + constructor; [|constructor]. split; [done|done|]. unfold PGSIZE in Hl. intros i Hi. split.
      * intros q Hq Hn. unfold off_page. rewrite Forall_forall in pool_pages. destruct (page_disjoint kend a q); [done|by apply pool_pages| |lia|lia]. intros <-. apply Hn. rewrite !elem_of_app. left. right. by left.
      * intros Hu. destruct (bufs_ok (a + i) ltac:(tauto) a A1 A3); lia.
Qed.

Lemma fetch_args_spec m0 uargv n : forall i m argv strs, taken m0 m argv -> Forall2 (arg_at argv m) argv strs ->
  wp (fetch_args uarg_at n i uargv argv) (KSt [] (with_km m s)) (fun r k => held k = [] /\ exists m', st k = with_km m' s /\ taken m0 m' r.2 /\
    (r.1 = true -> exists strs', uargs (ram (km s)) pages0 sz uargv n i = Some strs' /\ Forall2 (arg_at r.2 m') r.2 (strs ++ strs'))).
Proof using kend_kern pool_nodup pool_pages tramp_ok cur_p A_p bufs_ok bufs_apart.
  induction n as [|n IH]; intros i m argv strs Ht Ha; cbn [fetch_args uargs]; [wstep; split; [done|]; by exists m|].
  assert (forall m' argv', taken m0 m' argv' -> held (KSt [] (with_km m' s)) = [] /\ exists m'', st (KSt [] (with_km m' s)) = with_km m'' s /\ taken m0 m'' (false, argv').2 /\
    ((false, argv').1 = true -> exists strs', match uword (ram (km s)) pages0 sz (u64 (uargv + 8 * i)) with None => None | Some 0 => Some [] | Some ptr =>
      match ustr (ram (km s)) pages0 ptr (Z.to_nat PGSIZE) with None => None | Some str => cons str <$> uargs (ram (km s)) pages0 sz uargv n (i + 1) end end = Some strs' /\
      Forall2 (arg_at argv' m'') argv' (strs ++ strs'))) as Hbad by (intros m' argv' Ht'; split; [done|]; by exists m').
  assert (kmine (argv ++ K) uarg_at 8) as Hku by (intros j Hj q Hq Hn; apply (bufs_ok (uarg_at + j)); [right; right; lia|done|]; intros Hx; apply Hn; rewrite elem_of_app; by right).
  wstep. eapply wp_mono; [apply (fetchaddr_spec (argv ++ K) m _ uarg_at (tk_mem _ _ _ Ht) Hku); apply u64_range|].
  intros r [h k] (Eh & m1 & Ek & Hp1 & Hr1 & Hc). cbn [held st] in *. subst h k. destruct (taken_uarg m0 m m1 argv strs Ht Ha Hp1 Hr1) as [Ht1 Ha1].
  rewrite (uword_ext (ram (km s)) (ram m)) in Hc by (intros va pa; by apply (taken_user m0 m argv)). destruct Hc as [[-> Eu]|[-> Eu]]; cbn [Z.ltb Z.compare]; [|wstep; by apply Hbad].
  wstep. apply wp_onkm. unfold ld. wstep. cbn [held st]. change (with_km (km (with_km m1 s)) (with_km m1 s)) with (with_km m1 s). change (ram (km (with_km m1 s))) with (ram m1).
  set (uarg := load64 (ram m1) uarg_at) in *. pose proof (load64_range (ram m1) uarg_at) as Hua. fold uarg in Hua. rewrite Eu in *. destruct (Z.eqb_spec uarg 0) as [E0|E0].
  { wstep. rewrite E0. split; [done|]. exists m1. split_and!; try done. intros _. exists []. by rewrite app_nil_r. }
  wstep. eapply wp_mono; [apply (pmem_kalloc kend trampoline pool R0 kend_kern pool_nodup pool_pages [] (argv ++ K) (with_km m1 s) A); [apply not_elem_of_nil|apply Ht1]|].
  intros a [h k] (Eh & m2 & Ek & Hs2 & Hc). cbn [held st] in *. subst h k. change (with_km m2 (with_km m1 s)) with (with_km m2 s) in *. destruct Hc as [[-> Hp2]|(Ha0 & _ & Hp2)].
  { rewrite Z.eqb_refl. wstep. apply Hbad. destruct Ht1 as [T1 T2 T3]. split; [done|..].
    - intros q Hq x Hx. rewrite <- (T2 q Hq x Hx). destruct (user_page m0 m1 argv q) as (_ & H1 & _); [by split|done|]. apply Hs2. intros q' Hq' Hn. unfold off_page. pose proof pool_pages as Hpp. rewrite Forall_forall in Hpp.
      destruct (page_disjoint kend q q'); [done|by apply Hpp|intros ->; apply Hn; rewrite elem_of_app; by left|lia|lia].
    - intros x Hx. rewrite <- (T3 x Hx). apply Hs2. intros q Hqp Hn. apply (bufs_ok x); [tauto|done|]. intros Hk. apply Hn. rewrite !elem_of_app. tauto. }
  destruct (Z.eqb_spec a 0); [done|]. destruct (taken_new m0 m1 m2 argv strs a Ht1 Ha1 Hp2 Hs2) as [Ht2 Ha2].
  assert (kmine ((argv ++ [a]) ++ K) a PGSIZE) as Hka.
  { intros j Hj q Hq Hn. unfold off_page, PGSIZE in *. destruct (taken_pages _ _ _ a Ht2) as (_ & H1 & _); [rewrite elem_of_app; right; by left|]. pose proof pool_pages as Hpp. rewrite Forall_forall in Hpp.
    destruct (page_disjoint kend a q); [done|by apply Hpp|intros <-; apply Hn; rewrite !elem_of_app; left; right; by left|lia|lia]. }
  wstep. eapply wp_mono; [apply (fetchstr_spec ((argv ++ [a]) ++ K) m2 uarg a PGSIZE (tk_mem _ _ _ Ht2) Hka); [lia|done]|].
  intros r [h k] (Eh & m3 & Ek & Hp3 & Hr3 & Hc). cbn [held st] in *. subst h k. rewrite (ustr_ext (ram (km s)) (ram m2)) in Hc by (intros va pa; by apply (taken_user m0 m2 (argv ++ [a]))).
  destruct (ustr (ram (km s)) pages0 uarg (Z.to_nat PGSIZE)) as [str|] eqn:Estr; cycle 1.
  { subst r. cbn [Z.ltb Z.compare]. wstep. apply Hbad. by destruct (taken_str m0 m2 m3 argv strs a [] Ht2 Ha2 Hp3 Hr3). }
  destruct Hc as [-> Hcs]. destruct (Z.ltb_spec (Z.of_nat (length str)) 0); [lia|]. destruct (ustr_length _ _ _ _ _ Estr) as [Hl _].
  destruct (taken_str m0 m2 m3 argv strs a str Ht2 Ha2 Hp3 Hr3) as [Ht3 Ha3]. specialize (Ha3 Hcs ltac:(lia)).
  eapply wp_mono; [apply (IH (i + 1) m3 (argv ++ [a]) (strs ++ [str]) Ht3 Ha3)|]. intros [ok argv'] k (Hk & m4 & Ek & Ht4 & Hc). split; [done|]. exists m4. split_and!; try done.
  intros Hok. destruct (Hc Hok) as (strs' & E1 & E2). exists (str :: strs'). rewrite E1. rewrite <- app_assoc in E2. split; [|done]. by destruct uarg.
Qed.

(** ** The whole call *)

Lemma free_args_spec argv : forall (s1 : kern) A1, pmem (argv ++ K) s1 A1 ->
  wp (free_args kend argv) (KSt [] s1) (fun _ k => held k = [] /\ exists m, st k = with_km m s1 /\ pmem K (with_km m s1) A1 /\ stays pool (users s1 A1 ++ K) (km s1) m).
Proof using kend_kern pool_nodup pool_pages.
  clear tramp_ok bufs_ok bufs_apart. induction argv as [|a argv IH]; intros s1 A1 Hp; cbn [free_args].
  { wstep. split; [done|]. exists (km s1). rewrite km_id. done. }
  wstep. eapply wp_mono; [apply (pmem_kfree kend trampoline pool R0 kend_kern pool_nodup pool_pages [] (argv ++ K) s1 A1 a); [apply not_elem_of_nil|done]|].
  intros _ [h k] (Eh & m & Ek & Hs & Hp1). cbn [held st] in *. subst h k. eapply wp_mono; [apply (IH _ _ Hp1)|]. intros _ [h k] (Eh & m2 & Ek & Hp2 & Hs2). cbn [held st] in *. subst h k.
  split; [done|]. exists m2. split_and!; try done. eapply stays_trans; [|exact Hs2]. eapply stays_sub; [|exact Hs]. intros q _. rewrite !elem_of_app. change (users (with_km m s1) A1) with (users s1 A1). tauto.
Qed.

(** What sys_exec does: nothing the processes can see, or a new program with the path and the
    arguments that user memory holds. *)
Definition exec_noop (k : kst kern) : Prop := held k = [] /\ exists t m, st k = at_ s t m /\ pmem K (with_km m s) A /\ files_ok t (tabs s) /\
  forall q, q ∈ users s A -> same_page (ram (km s)) (ram m) q.
Record exec_user D path strs (r : Z) (k : kst kern) : Prop := {
  xu_ret : r = Z.of_nat (length strs) /\ held k = [];
  xu_named : file_named (rest s) path D;
  xu_path : ustr (ram (km s)) pages0 (load64 (ram (km s)) (p_trapframe (getp s p) + tf_a0)) (Z.to_nat MAXPATH) = Some path;
  xu_args : uargs (ram (km s)) pages0 sz (load64 (ram (km s)) (p_trapframe (getp s p) + tf_a1)) (Z.to_nat MAXARG) 0 = Some strs;
  xu_elf : e_magic (elfhdr_of (readi_bytes D 0 SIZEOF_ELFHDR)) = ELF_MAGIC;
  xu_files : files_ok (rest (st k)) (tabs s);
  xu_done : let elf := elfhdr_of (readi_bytes D 0 SIZEOF_ELFHDR) in exists img pages' sp ptrs,
    load_image D (Z.to_nat (e_phnum elf)) (i32 (e_phoff elf)) [] = Some img /\ pmem K (st k) (<[p := pages']> A) /\
    exec_done s (st k) A p pages' path (e_entry elf) img strs sp ptrs;
}.

Lemma argraw_spec m n (Q : Z -> kst kern -> Prop) : 0 <= n <= 5 -> Q (load64 (ram m) (p_trapframe (getp s p) + tf_a0 + 8 * n)) (KSt [] (with_km m s)) -> wp (argraw n) (KSt [] (with_km m s)) Q.
Proof using cur_p.
  clear tramp_ok kend_kern bufs_ok bufs_apart. intros Hn HQ. unfold argraw, myproc. wstep. wstep. wstep. change (cur (with_km m s)) with (cur s). rewrite cur_p. cbn [nonnull]. wstep. wstep. wstep. destruct (Z.leb_spec 0 n); [|lia]. destruct (Z.leb_spec n 5); [|lia].
  cbn [andb]. apply wp_onkm. unfold ld. wstep. exact HQ.
Qed.

Hypothesis inv_p : pmem K s A.
Hypothesis files_p : files_ok (rest s) (tabs s).

(** From the fetched arguments on. *)
Lemma exec_fetched m0 m argv strs path : taken m0 m argv -> Forall2 (arg_at argv m) argv strs ->
  wp (ret ← exec kend trampoline ustack_at path argv; free_args kend argv ;; mret ret) (KSt [] (with_km m s)) (fun r k => (r = -1 /\ exec_noop k) \/
    exists D, r = Z.of_nat (length strs) /\ held k = [] /\ file_named (rest s) path D /\ e_magic (elfhdr_of (readi_bytes D 0 SIZEOF_ELFHDR)) = ELF_MAGIC /\ files_ok (rest (st k)) (tabs s) /\
      let elf := elfhdr_of (readi_bytes D 0 SIZEOF_ELFHDR) in exists img pages' sp ptrs,
      load_image D (Z.to_nat (e_phnum elf)) (i32 (e_phoff elf)) [] = Some img /\ pmem K (st k) (<[p := pages']> A) /\ exec_done s (st k) A p pages' path (e_entry elf) img strs sp ptrs).
Proof using kend_kern pool_nodup pool_pages tramp_ok cur_p A_p bufs_ok bufs_apart files_p ExecFilesLaws0.
  intros Ht Ha. assert (forall x, in_ustack ustack_at x -> kaddr pool (argv ++ K) x) as Hus by (intros x Hx q Hq Hn; apply (bufs_ok x); [by left|done|]; intros Hk; apply Hn; rewrite elem_of_app; by right).
  wstep. eapply wp_mono; [apply (exec_spec kend trampoline pool R0 (argv ++ K) kend_kern pool_nodup pool_pages tramp_ok (with_km m s) A p ustack_at pages0 Hus cur_p A_p (tk_mem _ _ _ Ht) files_p path argv strs Ha)|].
  intros r [h k] [(-> & Eh & t & m1 & Ek & Hp1 & Hf1 & Hk1)|(D & [[Er Eh] Hnm Emag Hf Hd])]; cbn [held st] in *.
  - subst h k. change (at_ (with_km m s) t m1) with (at_ s t m1). change (with_km m1 (with_km m s)) with (with_km m1 s) in Hp1. wstep.
    eapply wp_mono; [apply (free_args_spec argv (at_ s t m1) A); by apply (pmem_same kend trampoline pool R0 _ (with_km m1 s))|].
    intros _ [h k] (Eh & m2 & Ek & Hp2 & Hs2). cbn [held st] in *. subst h k. wstep. left. split; [done|]. split; [done|]. exists t, m2. change (with_km m2 (at_ s t m1)) with (at_ s t m2).
    split_and!; try done; [by apply (pmem_same kend trampoline pool R0 _ (at_ s t m2))|]. intros q Hq x Hx. destruct (user_page m0 m argv q Ht Hq) as (H1 & H2 & H3).
    assert (same_page (ram m1) (ram m2) q) as S2 by (apply (stays_in kend pool pool_pages (users s A ++ K)); [done|rewrite elem_of_app; by left|exact Hs2]). rewrite (S2 x Hx). rewrite <- (tk_same _ _ _ Ht q Hq x Hx). apply Hk1.
    + intros q' Hq' Hn. unfold off_page. pose proof pool_pages as Hpp. rewrite Forall_forall in Hpp. destruct (page_disjoint kend q q'); [done|by apply Hpp| |lia|lia]. intros ->. apply Hn. unfold theirs. rewrite elem_of_app. by left.
    + intros Hu. destruct (bufs_ok x ltac:(by left) q H1 H3); lia.
  - subst h. destruct Hd as (img & pages' & sp & ptrs & Eimg & Hp1 & Hd). wstep. eapply wp_mono; [apply (free_args_spec argv k _ Hp1)|]. intros _ [h k2] (Eh & m2 & Ek & Hp2 & Hs2). cbn [held st] in *. subst h k2. wstep. right. exists D.
    split_and!; [rewrite <- (Forall2_length _ _ _ Ha); apply Er|done|exact Hnm|done|done|]. exists img, pages', sp, ptrs. split_and!; [done|done|]. eapply exec_done_move; [exact A_p|exact Hd|apply Ht|].
    destruct Hp2 as [R Hp2]. destruct (pm_mem _ _ _ _ _ _ _ _ Hp2) as (l & own & Hat).
    assert (p_trapframe (getp s p) :: pages'.*1 ++ users s (delete p A) ≡ₚ users k (<[p := pages']> A)) as EU.
    { rewrite <- insert_delete_eq, users_insert by apply lookup_delete_eq. rewrite (xd_proc _ _ _ _ _ _ _ _ _ _ _ Hd). cbn. do 2 f_equiv. assert (users k (delete p A) = users s (delete p A)) as ->; [|done].
      apply users_ext. intros j [x [Hj _]%lookup_delete_Some]. by rewrite (xd_others _ _ _ _ _ _ _ _ _ _ _ Hd) by done. }
    intros q Hq. rewrite EU in Hq. apply (stays_in kend pool pool_pages (users k (<[p := pages']> A) ++ K)); [|rewrite elem_of_app; by left|exact Hs2].
    apply (mem_disjoint kend pool kend_kern pool_nodup pool_pages _ _ _ _ _ q Hat). rewrite elem_of_app. left. done.
Qed.

Lemma sys_exec_spec : wp (sys_exec kend trampoline ustack_at path_at uarg_at) (KSt [] s) (fun r k => (r = -1 /\ exec_noop k) \/ exists D path strs, exec_user D path strs r k).
Proof using kend_kern pool_nodup pool_pages tramp_ok cur_p A_p bufs_ok bufs_apart files_p inv_p ExecFilesLaws0.
  assert (taken (km s) (km s) []) as Ht0 by (split; [by rewrite km_id|done|done]).
  assert (forall m argv, taken m m argv -> wp (free_args kend argv ;; mret (-1)) (KSt [] (with_km m s)) (fun r k => (r = -1 /\ exec_noop k) \/ exists D path strs, exec_user D path strs r k)) as Hbad.
  { intros m argv Ht. wstep. eapply wp_mono; [apply (free_args_spec argv (with_km m s) A), Ht|]. intros _ [h k] (Eh & m1 & Ek & Hp & Hs). cbn [held st] in *. subst h k. wstep. left. split; [done|]. split; [done|].
    exists (rest s), m1. split_and!; [by destruct s|done|done|]. intros q Hq x Hx. destruct (user_page m m argv q Ht Hq) as (_ & H1 & _). rewrite <- (tk_same _ _ _ Ht q Hq x Hx).
    apply (stays_in kend pool pool_pages (users s A ++ K) m m1 q); [done|rewrite elem_of_app; by left|exact Hs|done]. }
  unfold sys_exec, argstr, argaddr. rewrite <- (km_id s) at 1. wstep. wstep. apply argraw_spec; [lia|]. rewrite Z.mul_0_r, Z.add_0_r. set (a0 := load64 _ _).
  assert (kmine K path_at MAXPATH) as Hkp by (intros j Hj; apply bufs_ok; right; left; lia).
  eapply wp_mono; [apply (fetchstr_spec K (km s) a0 path_at MAXPATH (tk_mem _ _ _ Ht0) Hkp); [apply load64_range|done]|].
  intros r [h k] (Eh & m1 & Ek & Hp1 & Hr1 & Hc). cbn [held st] in *. subst h k. assert (taken m1 m1 []) as Ht1.
  { split; [done| |done]. intros q Hq. destruct (user_page (km s) (km s) [] q Ht0 Hq) as (H1 & _ & H2). apply (range_page _ _ path_at MAXPATH); [|done]. intros x Hx. apply (bufs_ok x); auto. }
  destruct (ustr (ram (km s)) pages0 a0 (Z.to_nat MAXPATH)) as [path|] eqn:Epath; cycle 1.
  { subst r. cbn [Z.ltb Z.compare]. specialize (Hbad m1 [] Ht1). cbn [free_args] in Hbad. exact Hbad. }
  destruct Hc as [-> Hcs]. destruct (Z.ltb_spec (Z.of_nat (length path)) 0); [lia|]. wstep. apply argraw_spec; [lia|].
  assert (load64 (ram m1) (p_trapframe (getp s p) + tf_a0 + 8 * 1) = load64 (ram (km s)) (p_trapframe (getp s p) + tf_a1)) as ->.
  { replace (p_trapframe (getp s p) + tf_a0 + 8 * 1) with (p_trapframe (getp s p) + tf_a1) by (unfold tf_a0, tf_a1; lia). apply load64_ext. intros b Hb. apply (tk_same _ _ _ Ht1 (p_trapframe (getp s p))).
    - rewrite (users_delete s A p pages0 A_p). by left.
    - unfold tf_a1 in Hb. lia. }
  set (a1 := load64 _ _). wstep. eapply wp_mono; [apply (fetch_args_spec m1 a1 (Z.to_nat MAXARG) 0 m1 [] [] Ht1); constructor|].
  intros [ok argv] [h k] (Eh & m2 & Ek & Ht2 & Hc). cbn [held st fst snd] in *. subst h k. destruct ok; cycle 1.
  { apply Hbad. destruct Ht2 as [G1 G2 _]. by split. }
  destruct (Hc eq_refl) as (strs & Eargs & Ha2). wstep. wstep. cbn [st app] in *. change (ram (km (with_km m2 s))) with (ram m2).
  assert (cstring (ram m2) path_at path) as Hcs2.
  { destruct (ustr_length _ _ _ _ _ Epath) as [Hl _]. destruct Hcs as [C1 C2]. split.
    - intros i c Hi. rewrite (tk_path _ _ _ Ht2) by (apply lookup_lt_Some in Hi; lia). by apply C1.
    - by rewrite (tk_path _ _ _ Ht2) by lia. }
  rewrite (read_str_cstring _ _ path _ Hcs2) by apply (ustr_length _ _ _ _ _ Epath).
  eapply wp_mono; [apply (exec_fetched m1 m2 argv strs path Ht2 Ha2)|]. intros r k [H1|(D & E1 & E2 & E3 & E4 & E5 & E6)]; [by left|right]. exists D, path, strs. by split.
Qed.
End SysExec.
