(* ===== verification/ProcSys.v ===== *)
(** * Runs of the process table

    What processes do, one after the other on one CPU, with the scheduler in between: run in
    user mode, where a process may change its registers and whatever its page table lets it
    reach, and make system calls.  [run_op] executes one call of the running process with the
    code of Proc.v and Syscall.v and, when the process gives up the CPU, the code of scheduler
    until the next process is back from its own sched.  In a state with the invariant no call
    panics, the invariant holds again, and a runnable process runs after at most NPROC turns
    of others. *)
From S2P Require Import Prelude Mem Riscv Kalloc Vm VmTree VmSpec VmAlloc VmFree VmPool Proc ProcMem ProcInv ProcOps ProcFork ProcCopy ProcThms ProcExit Exec ExecMem ExecSpec ExecLoad ExecArgs ExecThms Syscall SyscallThms VmCopy.

(** The calls, and [OUser w]: a run in user mode that leaves physical memory as [w]. *)
Inductive op := OFork | OGrow (n : Z) | OKill (pid : Z) | OWait (addr : Z) | OExit (status : Z) | OYield | OExec | OUser (w : mem).

(** The addresses of the local variables ustack of exec, path and uarg of sys_exec. *)
Record frame := Frame { fr_ustack : Z; fr_path : Z; fr_uarg : Z }.
Definition in_frame (fr : frame) (x : Z) : Prop :=
  in_ustack (fr_ustack fr) x \/ fr_path fr <= x < fr_path fr + MAXPATH \/ fr_uarg fr <= x < fr_uarg fr + 8.
Definition frame_disj (fr : frame) : Prop := fr_uarg fr + 8 <= fr_path fr \/ fr_path fr + MAXPATH <= fr_uarg fr.

Section ProcSys.
Context {T : Type} `{!ProcFiles T, !ProcFilesLaws T, !ExecFiles T, !ExecFilesLaws T}.
Variables (kend trampoline forkret_at : Z) (xstate_at : Z -> Z) (fr : frame) (pool : list Z) (R0 : spaces) (K : list Z).

Abbreviation kern := (@kern T).
Abbreviation pmem := (pmem kend trampoline pool R0).
Abbreviation proc_inv := (proc_inv kend trampoline pool R0 K).
Implicit Types (s : kern) (A : aspaces) (i p q np : Z).

(** swtch: control leaves the code that calls it. *)
Definition away : M kern unit := fun k => Sleeping ("swtch", 0) k.
Definition call (o : op) : M kern unit :=
  match o with
  | OFork => fork kend trampoline forkret_at ;; mret tt
  | OGrow n => growproc kend n ;; mret tt
  | OKill pid => kill pid ;; mret tt
  | OWait addr => wait kend xstate_at away 0 addr ;; mret tt
  | OExit status => exit away status
  | OYield => yield away
  | OExec => sys_exec kend trampoline (fr_ustack fr) (fr_path fr) (fr_uarg fr) ;; mret tt
  | OUser w => modify (fun s => with_km (Kmem w (freelist (km s))) s)
  end.
(** The scheduler after [p] has switched to it: the rest of its pass over the table, then one
    more pass. *)
Definition continue (p : Z) : M kern unit :=
  modify (with_cur None) ;;
  release (proc_lock p) ;;
  scheduler_loop away (seqZ (p + 1) (NPROC - 1 - p)) 0 ;;
  scheduler away ;;
  mret tt.
(** The end of sleep, or of yield, in the process that runs now. *)
Definition resume : M kern unit :=
  q ← myproc;
  updp q (set_chan None) ;;
  release (proc_lock q).
(** One call; [None] if the kernel panics.  With no runnable process the CPU is idle. *)
Definition run_op (o : op) (s : kern) : option kern :=
  match cur s with
  | None => Some s
  | Some p =>
    match call o (KSt [] s) with
    | Ok _ k => Some (st k)
    | Panic _ => None
    | Sleeping _ k =>
      match continue p k with
      | Ok _ k => Some (st k)
      | Panic _ => None
      | Sleeping _ k => match resume k with Ok _ k => Some (st k) | _ => None end
      end
    end
  end.

Definition runnable s p : bool := bool_decide (p_state (getp s p) = RUNNABLE).
Definition dispatched q s : kern := with_cur (Some q) (upd_proc q (set_state RUNNING) s).

Lemma with_cur_id s : with_cur (cur s) s = s.
Proof. by destruct s. Qed.
(** A pass of the scheduler stops at the first runnable process. *)
Lemma scheduler_loop_spec l : forall n s, cur s = None ->
  match find (runnable s) l with
  | Some q => scheduler_loop away l n (KSt [] s) = Sleeping ("swtch", 0) (KSt [proc_lock q] (dispatched q s))
  | None => exists n', scheduler_loop away l n (KSt [] s) = Ok n' (KSt [] s)
  end.
Proof.
  induction l as [|p l IH]; intros n s Hc; cbn [find scheduler_loop]; [by exists n|]. unfold runnable at 1.
  unfold acquire, release, gets, updp, modify, away, mbind, M_bind, mret, M_ret. cbn [held st]. rewrite (bool_decide_eq_false_2 (proc_lock p ∈ [])) by set_solver.
  cbn [held st]. case_bool_decide as E; [done|]. cbn [held st]. rewrite (bool_decide_eq_true_2 (proc_lock p ∈ [proc_lock p])) by set_solver. rewrite filter_cons_False by tauto. by apply IH.
Qed.
Definition next_proc s p : option Z := find (runnable s) (seqZ (p + 1) (NPROC - 1 - p) ++ seqZ 0 NPROC).
Lemma find_app {X} (f : X -> bool) l l' : find f (l ++ l') = match find f l with Some x => Some x | None => find f l' end.
Proof. induction l as [|x l IH]; cbn; [done|]. by destruct (f x). Qed.
Lemma continue_spec s p : match next_proc (with_cur None s) p with
  | Some q => continue p (KSt [proc_lock p] s) = Sleeping ("swtch", 0) (KSt [proc_lock q] (dispatched q (with_cur None s)))
  | None => continue p (KSt [proc_lock p] s) = Ok tt (KSt [] (with_cur None s))
  end.
Proof.
  set (s0 := with_cur None s). assert (cur s0 = None) as Hc by done. unfold next_proc, continue. rewrite find_app.
  pose proof (scheduler_loop_spec (seqZ (p + 1) (NPROC - 1 - p)) 0 s0 Hc) as H1. pose proof (scheduler_loop_spec (seqZ 0 NPROC) 0 s0 Hc) as H2.
  unfold scheduler, release, modify, mbind, M_bind, mret, M_ret in *. cbn [held st]. rewrite (bool_decide_eq_true_2 (proc_lock p ∈ [proc_lock p])) by (left; done).
  rewrite filter_cons_False by (intros E; by apply E). change (filter (fun x => x <> proc_lock p) []) with (@nil lockid). fold s0.
  destruct (find (runnable s0) (seqZ (p + 1) (NPROC - 1 - p))) as [q|]; [by rewrite H1|]. destruct H1 as [n1 ->]. cbn [held st]. change (with_cur None s0) with s0.
  destruct (find (runnable s0) (seqZ 0 NPROC)) as [q|]; [by rewrite H2|]. by destruct H2 as [n2 ->].
Qed.
Lemma resume_spec q s : cur s = Some q -> resume (KSt [proc_lock q] s) = Ok tt (KSt [] (upd_proc q (set_chan None) s)).
Proof.
  intros Hc. unfold resume, myproc, gets, updp, release, modify, mbind, M_bind. cbn [held st]. rewrite Hc. cbn [nonnull]. unfold mret, M_ret. cbn [held st].
  rewrite (bool_decide_eq_true_2 (proc_lock q ∈ [proc_lock q])) by set_solver. rewrite filter_cons_False by tauto. done.
Qed.
(** The state when the process [p] has given up the CPU in [s] and another runs. *)
Definition switched s p : kern :=
  match next_proc (with_cur None s) p with
  | Some q => upd_proc q (set_chan None) (dispatched q (with_cur None s))
  | None => with_cur None s
  end.

(** ** The invariant *)

Record sys_inv s A : Prop := {
  si_proc : proc_inv s A;
  si_cur : forall p, cur s = Some p -> p_state (getp s p) = RUNNING;
  si_run : forall p, p_state (getp s p) = RUNNING -> cur s = Some p;
}.
(** The bytes the process may change in user mode: those its page table gives it, and the
    registers, which the trap handler saves in its trap frame. *)
Definition reaches_byte s p x : Prop :=
  (exists va, uaddr (ram (km s)) (p_pagetable (getp s p)) va = Some x) \/ p_trapframe (getp s p) <= x < p_trapframe (getp s p) + TF_SIZE.
(** What a call may assume: the pids are not used up, the arguments are a C int or an
    unsigned address, and init does not exit. *)
Definition ok_op s (o : op) : Prop :=
  match o with
  | OFork => nextpid s < 2 ^ 31 - 1
  | OGrow n => - 2 ^ 31 <= n < 2 ^ 31
  | OWait addr => 0 <= addr
  | OExit _ => cur s <> initproc s
  | OUser w => forall p x, cur s = Some p -> ~ reaches_byte s p x -> rd w x = rd (ram (km s)) x
  | _ => True
  end.

Lemma find_runnable s l q : find (runnable s) l = Some q -> p_state (getp s q) = RUNNABLE /\ q ∈ l.
Proof. intros H. apply List.find_some in H as [H1 H2]. unfold runnable in H2. apply bool_decide_eq_true_1 in H2. by apply list_elem_of_In in H1. Qed.
Lemma getp_cur v s q : getp (with_cur v s) q = getp s q.
Proof. done. Qed.
Lemma getp_dispatched q s j : getp (upd_proc q (set_chan None) (dispatched q (with_cur None s))) j = if decide (j = q) then set_chan None (set_state RUNNING (getp s q)) else getp s j.
Proof. unfold dispatched. destruct (decide (j = q)) as [->|]; [rewrite getp_upd_eq, getp_cur, getp_upd_eq, getp_cur; done|]. rewrite getp_upd_ne, getp_cur, getp_upd_ne, getp_cur by done. done. Qed.

Lemma switched_inv s p A : proc_inv s A -> (forall j, p_state (getp s j) <> RUNNING) -> sys_inv (switched s p) A.
Proof.
  intros I Hn. unfold switched. destruct (next_proc _ p) as [q|] eqn:E; cycle 1.
  - split; [|done|intros j Hj; by destruct (Hn j)]. eapply inv_same; try done. apply (pmem_same kend trampoline pool R0 K s); [done|done|apply I].
  - apply find_runnable in E as [E _]. rewrite getp_cur in E. pose proof (getp_dispatched q s) as G. set (s' := upd_proc q _ _) in *.
    assert (forall j, same_proc (getp s j) (getp s' j)) as Hs.
    { intros j. rewrite G. destruct (decide (j = q)) as [->|]; [|apply same_proc_refl]. split; cbn; try done; rewrite E; done. }
    split.
    + eapply inv_same; try done. apply (pmem_same kend trampoline pool R0 K s); [|done|apply I]. intros j _. split_and!; apply (Hs j).
    + intros j [= <-]. rewrite G, decide_True by done. done.
    + intros j Hj. rewrite G in Hj. destruct (decide (j = q)) as [->|]; [done|]. by destruct (Hn j).
Qed.
Lemma inv_resize s s' A p v pages' : proc_inv s A -> others p s s' -> nextpid s' = nextpid s -> getp s' p = set_sz v (getp s p) -> is_Some (A !! p) ->
  pmem K s' (<[p := pages']> A) -> proc_inv s' (<[p := pages']> A).
Proof.
  intros I [Ho _ Ei _ Er] En Ep HA Hp. eapply (inv_image kend trampoline pool R0 K s); try done.
  - intros x ->. by rewrite Ep.
  - rewrite Er. apply (pi_files _ _ _ _ _ _ _ I).
Qed.

Section Calls.
Hypothesis kend_kern : KERNBASE <= kend.
Hypothesis pool_nodup : NoDup pool.
Hypothesis pool_pages : Forall (page kend) pool.
Hypothesis tramp_ok : trampoline mod 4096 = 0 /\ 0 <= trampoline /\ trampoline + 4096 <= 2 ^ 56.
Hypothesis xstate_off : forall np i q, 0 <= i < 4 -> q ∈ pool -> off_page (xstate_at np + i) q.
Hypothesis frame_off : forall x q, in_frame fr x -> q ∈ pool -> off_page x q.
Hypothesis frame_apart : frame_disj fr.

(** A process that is neither [p] nor new keeps its state, except that a sleeper may be woken. *)
Definition keeps p s s' : Prop := forall q, q <> p -> p_state (getp s q) <> UNUSED ->
  p_state (getp s' q) = p_state (getp s q) \/ (p_state (getp s q) = SLEEPING /\ p_state (getp s' q) = RUNNABLE) \/ (p_state (getp s q) = ZOMBIE /\ p_state (getp s' q) = UNUSED).
(** What the processes other than [p] have in memory stays: their pages are mapped where they
    were and hold the same bytes, and so do their saved registers.  (A zombie may be freed.) *)
Definition unharmed p s A s' A' : Prop := forall q pages, q <> p -> alive s q -> A !! q = Some pages ->
  A' !! q = Some pages /\ p_trapframe (getp s' q) = p_trapframe (getp s q) /\
  forall x, x ∈ p_trapframe (getp s q) :: pages.*1 -> same_page (ram (km s)) (ram (km s')) x.
(** A call returns, or the process gives up the CPU. *)
Definition call_post o s A p : Prop :=
  (o <> OYield /\ exists s' A', call o (KSt [] s) = Ok tt (KSt [] s') /\ sys_inv s' A' /\ cur s' = Some p /\ keeps p s s' /\ unharmed p s A s' A') \/
  (exists s', call o (KSt [] s) = Sleeping ("swtch", 0) (KSt [proc_lock p] s') /\ proc_inv s' A /\ (forall j, p_state (getp s' j) <> RUNNING) /\ keeps p s s' /\ unharmed p s A s' A).

Lemma sys_alive s A p : sys_inv s A -> cur s = Some p -> alive s p /\ exists pages, A !! p = Some pages.
Proof using.
  clear kend_kern pool_nodup pool_pages tramp_ok xstate_off frame_off frame_apart. intros [I Hc _] Hp. pose proof (Hc p Hp) as E. assert (used s p) as Hu by (unfold used; by rewrite E). split; [unfold alive; by rewrite E|].
  destruct (slots_used s A p (pi_slots _ _ _ _ _ _ _ I) Hu) as [pages HA]. by exists pages.
Qed.

Lemma users_their s A p q pages x : q <> p -> A !! q = Some pages -> x ∈ p_trapframe (getp s q) :: pages.*1 -> x ∈ users s (delete p A).
Proof using.
  clear. intros Hne HA Hx. assert (delete p A !! q = Some pages) as HA' by (by rewrite lookup_delete_ne).
  rewrite (users_delete s _ q pages HA'). rewrite elem_of_cons in Hx. rewrite elem_of_cons, elem_of_app. tauto.
Qed.
(** The pages of [p] are not those of others. *)
Lemma theirs_apart s A p pages x y : pmem K s A -> A !! p = Some pages -> x ∈ users s (delete p A) -> y ∈ p_trapframe (getp s p) :: pages.*1 -> forall a, x <= a < x + 4096 -> ~ y <= a < y + 4096.
Proof using kend_kern pool_nodup pool_pages.
  clear tramp_ok frame_off frame_apart xstate_off xstate_at forkret_at. intros Hpm HA Hx Hy a Ha Hb. pose proof (users_delete s A p pages HA) as Hperm.
  assert (x ∈ users s A ++ K) as Hxu by (rewrite elem_of_app, Hperm, elem_of_cons, elem_of_app; tauto).
  assert (y ∈ users s A ++ K) as Hyu by (rewrite elem_of_app, Hperm, elem_of_cons, elem_of_app; rewrite elem_of_cons in Hy; tauto).
  destruct (pmem_page kend trampoline pool R0 kend_kern pool_nodup pool_pages K s A x Hpm Hxu) as [_ Hpx]. destruct (pmem_page kend trampoline pool R0 kend_kern pool_nodup pool_pages K s A y Hpm Hyu) as [_ Hpy].
  destruct Hpm as [R Hp]. destruct (pm_mem _ _ _ _ _ _ _ _ Hp) as (l & own & Hat). pose proof (mem_nodup kend pool pool_nodup _ _ _ _ _ Hat) as Hnd.
  assert (x <> y) as Hxy.
  { intros ->. rewrite Hperm in Hnd. change (p_trapframe (getp s p) :: pages.*1 ++ users s (delete p A)) with ((p_trapframe (getp s p) :: pages.*1) ++ users s (delete p A)) in Hnd.
    rewrite <- app_assoc in Hnd. apply NoDup_app in Hnd as (_ & Hd & _). apply (Hd y Hy). rewrite elem_of_app. by left. }
  destruct (page_disjoint kend x y); [done|done|done|lia|lia].
Qed.
Lemma unharmed_mem p s A s' A' : pmem K s A -> (forall q pages, q <> p -> alive s q -> A !! q = Some pages -> A' !! q = Some pages /\ p_trapframe (getp s' q) = p_trapframe (getp s q)) ->
  (forall x, x ∈ users s (delete p A) -> page kend x -> same_page (ram (km s)) (ram (km s')) x) -> unharmed p s A s' A'.
Proof using kend_kern pool_nodup pool_pages.
  clear tramp_ok frame_off frame_apart xstate_off xstate_at forkret_at. intros Hpm H1 H2 q pages Hne Hal HA. destruct (H1 q pages Hne Hal HA) as [H3 H4]. split_and!; [done|done|]. intros x Hx.
  apply H2; [by eapply users_their|]. apply (pmem_page kend trampoline pool R0 kend_kern pool_nodup pool_pages K s A x Hpm). rewrite elem_of_app, (users_delete s A q pages HA), elem_of_cons, elem_of_app. rewrite elem_of_cons in Hx. tauto.
Qed.
Lemma unharmed_km p s A s' : km s' = km s -> (forall q, q <> p -> p_trapframe (getp s' q) = p_trapframe (getp s q)) -> unharmed p s A s' A.
Proof using.
  clear kend_kern pool_nodup pool_pages tramp_ok xstate_off frame_off frame_apart. intros Ek Et q pages Hne _ HA. split_and!; [done|by apply Et|]. rewrite Ek. intros x _ a _. done.
Qed.
Lemma stays_users p s A m m' U x : x ∈ users s (delete p A) -> page kend x -> (forall y, y ∈ users s (delete p A) -> y ∈ U) -> stays pool U m m' -> same_page (ram m) (ram m') x.
Proof using pool_pages.
  clear kend_kern pool_nodup tramp_ok xstate_off frame_off frame_apart. intros Hx Hpg HU Hs. apply (stays_in kend pool pool_pages U m m'); auto.
Qed.

Lemma call_fork s A p : sys_inv s A -> cur s = Some p -> ok_op s OFork -> call_post OFork s A p.
Proof using kend_kern pool_nodup pool_pages tramp_ok.
  intros S Hc Hok. left. split; [done|]. destruct (sys_alive s A p S Hc) as [Hal [pages HA]]. pose proof S as [I H1 H2].
  destruct (wp_elim _ _ _ (fork_spec kend trampoline forkret_at pool R0 K kend_kern pool_nodup pool_pages tramp_ok s A p pages I Hok Hc Hal HA)) as (r & [h s'] & E & Hh & Hcase). cbn [held st] in *. subst h.
  assert (call OFork (KSt [] s) = Ok tt (KSt [] s')) as Ecall by (unfold call, mbind, M_bind; by rewrite E).
  assert (forall y, y ∈ users s (delete p A) -> y ∈ users s A ++ K) as HU by (intros y Hy; rewrite elem_of_app, (users_delete s A p pages HA), elem_of_cons, elem_of_app; tauto).
  destruct Hcase as [(_ & D & Hst & I')|(np & pages' & _ & HAn & F & I')].
  - exists s', A. split; [done|]. assert (forall j, p_state (getp s' j) = p_state (getp s j)) as Es.
    { intros j. destruct (decide (p_state (getp s j) = UNUSED)) as [Eu|Eu]; [|by rewrite (id_used _ _ D j)]. rewrite Eu. apply not_used, (id_free _ _ D). unfold used. tauto. }
    split_and!; [split; [done|..]|rewrite (id_cur _ _ D); done| |]; try (intros j; rewrite Es; intros; rewrite ?(id_cur _ _ D) in *; auto).
    apply unharmed_mem; [apply I|intros q pg _ [Hu _] HAq; by rewrite (id_used _ _ D q Hu)|]. intros x Hx Hpg. by eapply stays_users.
  - exists s', (<[np := pages']> A). pose proof (fk_others _ _ _ _ _ _ _ _ _ _ F) as Ho. pose proof (fk_cur _ _ _ _ _ _ _ _ _ _ F) as Ec. pose proof (fk_child _ _ _ _ _ _ _ _ _ _ F) as Ech. pose proof (fk_unused _ _ _ _ _ _ _ _ _ _ F) as Eu.
    assert (p <> np) as Hne by (intros ->; destruct Hal; congruence). split; [done|]. split_and!; [split; [done|..]|congruence| |].
    + intros j Hj. rewrite Ho by congruence. apply H1. congruence.
    + intros j Hj. rewrite Ec. destruct (decide (j = np)) as [->|Hj']; [by rewrite Ech in Hj|]. rewrite Ho in Hj by done. by apply H2.
    + intros j _ Hj. left. by rewrite Ho by congruence.
    + apply unharmed_mem; [apply I|intros q pg _ Hq HAq|intros x Hx Hpg; by eapply stays_users; [..|apply F]]. assert (q <> np) as Hqn by (intros ->; congruence). by rewrite lookup_insert_ne, Ho.
Qed.

Lemma call_grow s A p n : sys_inv s A -> cur s = Some p -> ok_op s (OGrow n) -> call_post (OGrow n) s A p.
Proof using kend_kern pool_nodup pool_pages tramp_ok.
  intros S Hc Hok. left. split; [done|]. destruct (sys_alive s A p S Hc) as [Hal [pages HA]]. pose proof S as [I H1 H2]. unfold ok_op in Hok.
  assert (wp (growproc kend n) (KSt [] s) (fun r k => held k = [] /\ others p s (st k) /\ nextpid (st k) = nextpid s /\
    stays pool (users s (delete p A)) (km s) (km (st k)) /\ exists v pages', getp (st k) p = set_sz v (getp s p) /\ pmem K (st k) (<[p := pages']> A))) as H.
  { destruct (decide (0 < n)).
    - eapply wp_mono; [eapply (growproc_grow kend trampoline pool R0 kend_kern pool_nodup pool_pages tramp_ok K s A p pages n (pi_mem _ _ _ _ _ _ _ I) Hc HA); lia|].
      intros r k (Hh & Ho & En & Hst & Hcase). split_and!; [done|done|done|eapply stays_sub; [|exact Hst]; intros y _ Hy; rewrite elem_of_app, (users_delete s A p pages HA), elem_of_cons, elem_of_app; tauto|]. destruct Hcase as [(_ & E & Hp)|(_ & E & ps & Hp & _)].
      + exists (p_sz (getp s p)), pages. rewrite E, insert_id by done. split; [by destruct (getp s p)|done].
      + eauto.
    - eapply wp_mono; [eapply (growproc_shrink kend trampoline pool R0 kend_kern pool_nodup pool_pages tramp_ok K s A p pages n (pi_mem _ _ _ _ _ _ _ I) Hc HA); lia|].
      intros r k (Hh & Ho & En & _ & E & Hp & Hst). split_and!; [done|done|done|eapply stays_sub; [|exact Hst]; intros y _ Hy; rewrite elem_of_app, elem_of_cons, elem_of_app; tauto|eauto]. }
  destruct (wp_elim _ _ _ H) as (r & [h s'] & E & Hh & Ho & En & Hst & v & pages' & Ep & Hp). cbn [held st] in *. subst h. exists s', (<[p := pages']> A).
  assert (forall j, p_state (getp s' j) = p_state (getp s j)) as Es by (intros j; destruct (decide (j = p)) as [->|]; [by rewrite Ep|by rewrite (ot_procs _ _ _ Ho)]).
  split; [unfold call, mbind, M_bind; by rewrite E|]. split_and!.
  - split; [by eapply inv_resize; eauto|..]; intros j; rewrite Es, (ot_cur _ _ _ Ho); auto.
  - by rewrite (ot_cur _ _ _ Ho).
  - intros j _ _. left. apply Es.
  - apply unharmed_mem; [apply I|intros q pg Hq _ HAq; by rewrite lookup_insert_ne, (ot_procs _ _ _ Ho)|]. intros x Hx Hpg. by eapply stays_users.
Qed.
Lemma call_kill s A p pid : sys_inv s A -> cur s = Some p -> call_post (OKill pid) s A p.
Proof using.
  clear kend_kern pool_nodup pool_pages tramp_ok xstate_off frame_off frame_apart. intros [I H1 H2] Hc. left. split; [done|].
  destruct (wp_elim _ _ _ (kill_loop_spec kend trampoline pool R0 K pid s A (seqZ 0 NPROC) I)) as (r & [h s'] & E & Hh & I' & Hcase). cbn [held st] in *. subst h.
  exists s', A. split; [unfold call, kill, mbind, M_bind; by rewrite E|]. destruct (find _ (seqZ 0 NPROC)) as [q|]; [destruct Hcase as [_ ->]|destruct Hcase as [_ ->]; split_and!; [done|done|intros j _ _; by left|by apply unharmed_km]].
  set (f := fun x => set_killed 1 _). set (s' := upd_proc q f s) in *.
  assert (forall j, p_state (getp s' j) = p_state (getp s j) \/ (p_state (getp s j) = SLEEPING /\ p_state (getp s' j) = RUNNABLE)) as Es.
  { intros j. unfold s'. destruct (decide (j = q)) as [->|]; [|rewrite getp_upd_ne by done; by left]. rewrite getp_upd_eq. unfold f. cbn. case_bool_decide; auto. }
  split_and!; [split; [done|..]|done| |].
  - intros j Hj. specialize (H1 j Hj). destruct (Es j) as [->|[? _]]; [done|congruence].
  - intros j Hj. apply H2. destruct (Es j) as [<-|[_ ?]]; [done|congruence].
  - intros j _ _. destruct (Es j); auto.
  - apply unharmed_km; [done|]. intros j _. unfold s'. destruct (decide (j = q)) as [->|]; [by rewrite getp_upd_eq|by rewrite getp_upd_ne].
Qed.

Lemma call_yield s A p : sys_inv s A -> cur s = Some p -> call_post OYield s A p.
Proof using.
  clear kend_kern pool_nodup pool_pages tramp_ok xstate_off frame_off frame_apart. intros [I H1 H2] Hc. right. exists (upd_proc p (set_state RUNNABLE) s).
  assert (reaches (yield away) (KSt [] s) (away ;; release (proc_lock p)) (fun k => k = KSt [proc_lock p] (upd_proc p (set_state RUNNABLE) s))) as (k & E & ->).
  { unfold yield, myproc. rstep. wstep. wstep. rewrite Hc. cbn [nonnull]. wstep. rstep. wstep. rstep. unfold updp. wstep. apply reaches_app. apply sched_reaches; [done| |done]. by rewrite getp_upd_eq. }
  split; [done|]. specialize (H1 p Hc). split_and!.
  - apply inv_upd; [done|]. split; cbn; rewrite ?H1; done.
  - intros j. destruct (decide (j = p)) as [->|Hj]; [by rewrite getp_upd_eq|]. rewrite getp_upd_ne by done. intros Hr%H2. congruence.
  - intros j Hj _. left. by rewrite getp_upd_ne.
  - apply unharmed_km; [done|]. intros j Hj. by rewrite getp_upd_ne.
Qed.

Lemma call_exit s A p status : sys_inv s A -> cur s = Some p -> ok_op s (OExit status) -> call_post (OExit status) s A p.
Proof using.
  clear kend_kern pool_nodup pool_pages tramp_ok xstate_off frame_off frame_apart. intros S Hc Hok. destruct (sys_alive s A p S Hc) as [Hal _]. destruct S as [I H1 H2]. right. unfold ok_op in Hok.
  destruct (pi_init _ _ _ _ _ _ _ I) as (ip & Hip & _). assert (ip <> p) as Hne by congruence.
  destruct (exit_spec kend trampoline pool R0 K away s A p ip status I Hc Hal Hip Hne) as (k & E & s' & op & -> & _ & X & I'). exists s'. split; [exact E|].
  assert (forall j, j <> p -> p_state (getp s' j) = p_state (getp s j) \/ (p_state (getp s j) = SLEEPING /\ p_state (getp s' j) = RUNNABLE)) as Es.
  { intros j Hj. rewrite (ex_other _ _ _ _ _ _ X j Hj). unfold exit_other. set (y := if _ || _ then _ else _).
    assert (p_state y = p_state (getp s j) \/ (p_state (getp s j) = SLEEPING /\ p_state y = RUNNABLE)) as Hy.
    { unfold y, woken. destruct (_ || _); [|by left]. destruct (bool_decide (p_chan (getp s j) = _)); [|by left]. case_bool_decide; [right|left]; done. }
    case_bool_decide; done. }
  split_and!; [done| | |].
  - intros j. destruct (decide (j = p)) as [->|Hj]; [by rewrite (ex_self _ _ _ _ _ _ X)|]. intros Hr. destruct (Es j Hj) as [Ej|[_ ?]]; [|congruence]. rewrite Ej in Hr. apply H2 in Hr. congruence.
  - intros j Hj _. destruct (Es j Hj); auto.
  - apply unharmed_km; [apply X|]. intros j Hj. rewrite (ex_other _ _ _ _ _ _ X j Hj). destruct (exit_other_same s p ip op j) as [Hs _]. exact (sm_tf _ _ Hs).
Qed.

Lemma call_wait_eq s p addr : cur s = Some p ->
  call (OWait addr) (KSt [] s) = match wait_scan kend xstate_at p addr false (seqZ 0 NPROC) (KSt [proc_lock p] s) with
    | Ok (inl _) k => Ok tt k
    | _ => (wait_loop kend xstate_at away 0 p addr ;; mret tt) (KSt [proc_lock p] s)
    end.
Proof using.
  clear kend_kern pool_nodup pool_pages tramp_ok xstate_off frame_off frame_apart. intros Hc. unfold call, wait, myproc, gets, acquire, mbind, M_bind. cbn [held st]. rewrite Hc. cbn [nonnull]. unfold mret at 1, M_ret at 1. cbn [held st wait_loop].
  rewrite (bool_decide_eq_false_2 (proc_lock p ∈ [])) by apply not_elem_of_nil. unfold mbind, M_bind. destruct (wait_scan _ _ _ _ _ _ _) as [[]| |]; done.
Qed.
Lemma call_wait_none s p addr kids : cur s = Some p -> wait_scan kend xstate_at p addr false (seqZ 0 NPROC) (KSt [proc_lock p] s) = Ok (inr kids) (KSt [proc_lock p] s) ->
  negb kids || negb (p_killed (getp s p) =? 0) = true -> call (OWait addr) (KSt [] s) = Ok tt (KSt [] s).
Proof using.
  clear kend_kern pool_nodup pool_pages tramp_ok xstate_off frame_off frame_apart. intros Hc E Hk. rewrite (call_wait_eq s p addr Hc), E. cbn [wait_loop]. unfold mbind, M_bind. rewrite E. unfold gets. cbn [held st]. rewrite Hk.
  unfold release. cbn [held st]. rewrite (bool_decide_eq_true_2 (proc_lock p ∈ [proc_lock p])) by (left; done). rewrite filter_cons_False by (intros X; by apply X). done.
Qed.

Lemma call_wait s A p addr : sys_inv s A -> cur s = Some p -> ok_op s (OWait addr) -> call_post (OWait addr) s A p.
Proof using kend_kern pool_nodup pool_pages tramp_ok xstate_off frame_off frame_apart ExecFilesLaws0.
  intros S Hc Ha. destruct (sys_alive s A p S Hc) as [Hal [pages HA]]. pose proof S as [I H1 H2]. unfold ok_op in Ha.
  pose proof (wait_scan_spec kend trampoline pool R0 K kend_kern pool_nodup pool_pages tramp_ok xstate_at xstate_off s A p addr pages false (seqZ 0 NPROC) I HA Ha) as Hscan.
  assert (forall r k, wait_scan kend xstate_at p addr false (seqZ 0 NPROC) (KSt [proc_lock p] s) = Ok (inl r) k -> call (OWait addr) (KSt [] s) = Ok tt k) as Hret by (intros r k E; by rewrite (call_wait_eq s p addr Hc), E).
  destruct (find (zombie_child s p) (seqZ 0 NPROC)) as [np|] eqn:Ez.
  - left. split; [done|]. destruct (wp_elim _ _ _ Hscan) as (r & [h s'] & E & Hh & Hcase). cbn [held st] in *. subst h. apply List.find_some in Ez as [_ Ez]. unfold zombie_child in Ez.
    apply andb_true_iff in Ez as [_ Ez%bool_decide_eq_true_1]. assert (forall q, q <> p -> forall w : mem, (forall x o, x ∈ users s (delete np A) ++ K -> 0 <= o < 4096 -> (forall i, addr <> 0 -> 0 <= i < 4 -> upa pages (addr + i) <> Some (x + o)) -> rd w (x + o) = rd (ram (km s)) (x + o)) ->
      forall pg, q <> np -> A !! q = Some pg -> forall x, x ∈ p_trapframe (getp s q) :: pg.*1 -> same_page (ram (km s)) w x) as Hsame.
    { intros q Hq w Hw pg Hqn HAq x Hx a Hr. replace a with (x + (a - x)) by lia. apply Hw; [|lia|].
      - rewrite elem_of_app. left. by eapply users_their.
      - intros i _ _ (y & Hy & Hyr)%upa_page. eapply (theirs_apart s A p pages x y (pi_mem _ _ _ _ _ _ _ I) HA); [by eapply users_their|by right|exact Hr|lia]. }
    destruct Hcase as [[-> P]|(-> & _ & _ & m & -> & I' & Hmem)].
    + exists s', (delete np A). pose proof (rp_others _ _ _ _ _ _ _ _ _ _ _ _ P) as Ho. pose proof (rp_cur _ _ _ _ _ _ _ _ _ _ _ _ P) as Ec. pose proof (rp_slot _ _ _ _ _ _ _ _ _ _ _ _ P) as En.
      split; [by eapply Hret|]. split_and!; [split; [apply P|..]|congruence| |].
      * intros j Hj. rewrite Ec in Hj. rewrite Ho; [by apply H1|]. intros ->. specialize (H1 np Hj). congruence.
      * intros j Hj. rewrite Ec. destruct (decide (j = np)) as [->|Hj']; [by rewrite En in Hj|]. rewrite Ho in Hj by done. by apply H2.
      * intros j _ _. destruct (decide (j = np)) as [->|Hj']; [right; right; by rewrite En|left; by rewrite Ho].
      * intros q pg Hq [_ Hal'] HAq. assert (q <> np) as Hqn by (intros ->; done). split_and!; [by rewrite lookup_delete_ne|by rewrite Ho|]. apply (Hsame q Hq _ (rp_mem _ _ _ _ _ _ _ _ _ _ _ _ P)); done.
    + exists (with_km m s), A. split; [by eapply Hret|]. split_and!; [by split|done|intros j _ _; by left|]. intros q pg Hq [_ Hal'] HAq. assert (q <> np) as Hqn by (intros ->; done). split_and!; [done|done|].
      apply (Hsame q Hq (ram m)); try done. intros x o Hx. apply Hmem. rewrite elem_of_app in *. destruct Hx as [Hx|Hx]; [left|by right]. assert (is_Some (A !! np)) as [zp HAz] by (apply slots_used with s; [apply I|unfold used; congruence]).
      rewrite (users_delete s A np zp HAz), elem_of_cons, elem_of_app. tauto.
  - destruct (existsb (has_child s p) (seqZ 0 NPROC)) eqn:Ek; [destruct (decide (p_killed (getp s p) = 0)) as [Hk|Hk]|].
    + right. destruct (wait_sleeps kend trampoline pool R0 K kend_kern pool_nodup pool_pages tramp_ok xstate_at xstate_off away 0 s A p addr pages I Hc HA Ha Ez Ek Hk Hal) as (k & E & s' & -> & -> & I').
      eexists. split; [|split_and!; [exact I'|..]].
      * unfold call. unfold mbind at 1, M_bind at 1. by rewrite E.
      * intros j. destruct (decide (j = p)) as [->|Hj]; [by rewrite getp_upd_eq|]. rewrite getp_upd_ne by done. intros Hr%H2. congruence.
      * intros j Hj _. left. by rewrite getp_upd_ne.
      * apply unharmed_km; [done|]. intros j Hj. by rewrite getp_upd_ne.
    + left. split; [done|]. exists s, A. split; [|split_and!; [done|done|intros j _ _; by left|by apply unharmed_km]]. destruct (wp_elim _ _ _ Hscan) as (r & k & E & -> & ->).
      eapply call_wait_none; [done|exact E|]. destruct (Z.eqb_spec (p_killed (getp s p)) 0); [done|]. apply orb_true_r.
    + left. split; [done|]. exists s, A. split; [|split_and!; [done|done|intros j _ _; by left|by apply unharmed_km]]. destruct (wp_elim _ _ _ Hscan) as (r & k & E & -> & ->).
      by eapply call_wait_none.
Qed.

(** User mode. *)
Lemma call_user s A p w : sys_inv s A -> cur s = Some p -> ok_op s (OUser w) -> call_post (OUser w) s A p.
Proof using kend_kern pool_nodup pool_pages tramp_ok.
  intros S Hc Hok. left. split; [done|]. destruct (sys_alive s A p S Hc) as [Hal [pages HA]]. pose proof S as [I H1 H2]. set (s' := with_km (Kmem w (freelist (km s))) s).
  exists s', A. split; [done|]. assert (forall va pa, uaddr (ram (km s)) (p_pagetable (getp s p)) va = Some pa -> exists y, y ∈ pages.*1 /\ y <= pa < y + 4096) as Hpg.
  { intros va pa Hva. destruct (pi_mem _ _ _ _ _ _ _ I) as [R Hp]. rewrite (uaddr_space kend trampoline pool R0 kend_kern pool_nodup pool_pages K s A R p pages va Hp HA) in Hva. by apply upa_page in Hva. }
  split_and!; [|done|intros j _ _; by left|]; cycle 1.
  { apply unharmed_mem; [apply I|done|]. intros x Hx _ a Ha. apply (Hok p a Hc). intros [[va (y & Hy & Hr)%Hpg]|Hr].
    - eapply (theirs_apart s A p pages x y); [apply I|done|done|by right|exact Ha|done].
    - eapply (theirs_apart s A p pages x (p_trapframe (getp s p))); [apply I|done|done|by left|exact Ha|unfold TF_SIZE in Hr; lia]. }
  split; [|done|done]. apply inv_km; [done|]. destruct (pi_mem _ _ _ _ _ _ _ I) as [R Hp]. exists R.
  eapply (pmem_at_ext _ _ _ _ K s); [done| |exact Hp]. apply (mem_ok_write kend pool kend_kern pool_nodup pool_pages (km s)); [apply Hp|]. intros x (q & Hq & Hn & Hx).
  pose proof (pm_mem _ _ _ _ _ _ _ _ Hp) as (l & own & Hat). apply (Hok p x Hc).
  assert (forall y, y ∈ p_trapframe (getp s p) :: pages.*1 -> ~ y <= x < y + 4096) as Hoff.
  { intros y Hy Hr. assert (y ∈ users s A ++ K) as Hyu by (rewrite (users_delete s A p pages HA); rewrite elem_of_cons in Hy; rewrite !elem_of_app, elem_of_cons, elem_of_app; tauto).
    destruct (mem_disjoint kend pool kend_kern pool_nodup pool_pages _ _ _ _ _ y Hat Hyu) as (_ & Hyp & _). unfold off_page in Hx. rewrite Forall_forall in pool_pages.
    destruct (page_disjoint kend y q); [done|by apply pool_pages|intros ->; done|lia|lia]. }
  intros [[va (y & Hy & Hr)%Hpg]|Hr]; [apply (Hoff y); [by right|done]|apply (Hoff (p_trapframe (getp s p))); [by left|unfold TF_SIZE in Hr; lia]].
Qed.
Lemma call_exec s A p : sys_inv s A -> cur s = Some p -> call_post OExec s A p.
Proof using kend_kern pool_nodup pool_pages tramp_ok frame_off frame_apart ExecFilesLaws0.
  intros S Hc. left. split; [done|]. destruct (sys_alive s A p S Hc) as [Hal [pages HA]]. pose proof S as [I H1 H2].
  assert (forall x, in_frame fr x -> kaddr pool K x) as Hfr by (intros x Hx q Hq _; by apply frame_off).
  destruct (wp_elim _ _ _ (sys_exec_spec kend trampoline pool R0 kend_kern pool_nodup pool_pages tramp_ok s A p pages Hc HA K (fr_ustack fr) (fr_path fr) (fr_uarg fr) Hfr frame_apart
    (pi_mem _ _ _ _ _ _ _ I) (pi_files _ _ _ _ _ _ _ I))) as (r & [h s'] & E & Hcase). assert (is_Some (A !! p)) as HAs by (by eexists).
  destruct Hcase as [(-> & Eh & t & m & Es & Hp & Hf & Hsm)|(D & path & strs & [[Er Eh] _ _ _ _ Hf (img & pages' & sp & ptrs & _ & Hp & X)])]; cbn [held st] in *; subst h.
  - subst s'. exists (at_ s t m), A. split; [unfold call, mbind, M_bind; by rewrite E|]. split_and!; [|done|intros j _ _; by left|]; cycle 1.
    { apply unharmed_mem; [apply I|done|]. intros x Hx _. apply Hsm. rewrite (users_delete s A p pages HA), elem_of_cons, elem_of_app. tauto. }
    split; [|done|done]. rewrite <- (insert_id A p pages HA).
    eapply (inv_image kend trampoline pool R0 K s); try done; [by intros x ->|]. rewrite (insert_id A p pages HA). by apply (pmem_same kend trampoline pool R0 K (with_km m s)).
  - exists s', (<[p := pages']> A). pose proof (xd_global _ _ _ _ _ _ _ _ _ _ _ X) as (G1 & G2 & G3 & _). pose proof (xd_proc _ _ _ _ _ _ _ _ _ _ _ X) as Ep. pose proof (xd_others _ _ _ _ _ _ _ _ _ _ _ X) as Eo.
    assert (forall j, p_state (getp s' j) = p_state (getp s j)) as Es by (intros j; destruct (decide (j = p)) as [->|]; [by rewrite Ep|by rewrite Eo]).
    split; [unfold call, mbind, M_bind; by rewrite E|]. split_and!; [|congruence|intros j _ _; left; apply Es|]; cycle 1.
    { apply unharmed_mem; [apply I|intros q pg Hq _ HAq; by rewrite lookup_insert_ne, Eo|]. intros x Hx _. by apply (xd_mem _ _ _ _ _ _ _ _ _ _ _ X). }
    split; [|intros j; rewrite Es, G1; auto..].
    eapply (inv_image kend trampoline pool R0 K s); try done. intros x ->. rewrite Ep. done.
Qed.

Lemma call_spec s A p o : sys_inv s A -> cur s = Some p -> ok_op s o -> call_post o s A p.
Proof using kend_kern pool_nodup pool_pages tramp_ok xstate_off frame_off frame_apart ExecFilesLaws0.
  destruct o; eauto using call_fork, call_grow, call_kill, call_wait, call_exit, call_yield, call_exec, call_user.
Qed.
Lemma switched_unharmed p s s1 A : unharmed p s A s1 A -> unharmed p s A (switched s1 p) A.
Proof using.
  clear kend_kern pool_nodup pool_pages tramp_ok xstate_off frame_off frame_apart. intros Hu q pages Hne Hal HA. destruct (Hu q pages Hne Hal HA) as (_ & Et & Hs). unfold switched.
  destruct (next_proc (with_cur None s1) p) as [r|]; [|done]. split_and!; [done| |done]. rewrite getp_dispatched. destruct (decide (q = r)) as [->|]; done.
Qed.
(** A call that returns leaves the caller on the CPU; otherwise the scheduler's choice runs. *)
Lemma run_op_spec s A p o : sys_inv s A -> cur s = Some p -> ok_op s o -> exists s' A', run_op o s = Some s' /\ sys_inv s' A' /\ unharmed p s A s' A' /\
  ((o <> OYield /\ cur s' = Some p /\ keeps p s s') \/ exists s1, s' = switched s1 p /\ keeps p s s1).
Proof using kend_kern pool_nodup pool_pages tramp_ok xstate_off frame_off frame_apart ExecFilesLaws0.
  intros S Hc Hok. unfold run_op. rewrite Hc. destruct (call_spec s A p o S Hc Hok) as [(Ho & s' & A' & -> & S' & Hc' & Hk & Hu)|(s1 & -> & I & Hn & Hk & Hu)].
  - exists s', A'. split; [done|]. split; [done|]. split; [done|]. by left.
  - exists (switched s1 p), A. split; [|split; [by apply switched_inv|split; [by apply switched_unharmed|right; by exists s1]]]. pose proof (continue_spec s1 p) as C. unfold switched.
    destruct (next_proc (with_cur None s1) p) as [q|]; rewrite C; [|done]. by rewrite resume_spec.
Qed.

(** The states a run of calls goes through. *)
Inductive reach (s0 : kern) : kern -> Prop :=
| reach_refl : reach s0 s0
| reach_step s o s' : reach s0 s -> ok_op s o -> run_op o s = Some s' -> reach s0 s'.

Lemma run_op_inv s A o : sys_inv s A -> ok_op s o -> exists s' A', run_op o s = Some s' /\ sys_inv s' A'.
Proof using kend_kern pool_nodup pool_pages tramp_ok xstate_off frame_off frame_apart ExecFilesLaws0.
  intros S Hok. destruct (cur s) as [p|] eqn:Hc; [|unfold run_op; rewrite Hc; eauto]. destruct (run_op_spec s A p o S Hc Hok) as (s' & A' & E & S' & _). eauto.
Qed.
Lemma reach_inv s0 A0 s : sys_inv s0 A0 -> reach s0 s -> exists A, sys_inv s A.
Proof using kend_kern pool_nodup pool_pages tramp_ok xstate_off frame_off frame_apart ExecFilesLaws0.
  intros S0. induction 1 as [|s o s' _ [A IH] Hok E]; [by exists A0|]. destruct (run_op_inv s A o IH Hok) as (s2 & A' & E' & S'). exists A'. by assert (s2 = s') as <- by congruence.
Qed.

(** ** Round robin *)

(** The number of slots the scheduler looks at before [q] when [p] gives up the CPU. *)
Definition ahead p q : Z := (q - p - 1) mod NPROC.
Lemma find_index {X} (f : X -> bool) l x : find f l = Some x -> exists i : nat, l !! i = Some x /\ forall j y, (j < i)%nat -> l !! j = Some y -> f y = false.
Proof using.
  clear. induction l as [|y l IH]; cbn [find]; [done|]. destruct (f y) eqn:E.
  - intros [= <-]. exists 0%nat. split; [done|]. intros; lia.
  - intros (i & H1 & H2)%IH. exists (S i). split; [done|]. intros [|j] z Hj; cbn; [by intros [= <-]|]. intros Hz. eapply H2; [|exact Hz]. lia.
Qed.
Lemma scan_order p (i : nat) q : 0 <= p < NPROC -> (seqZ (p + 1) (NPROC - 1 - p) ++ seqZ 0 NPROC) !! i = Some q -> Z.of_nat i < NPROC -> q = (p + 1 + Z.of_nat i) mod NPROC.
Proof using.
  clear. unfold NPROC. intros Hp Hl Hi. apply lookup_app_Some in Hl as [Hl|[Hge Hl]]; apply lookup_seqZ in Hl as [-> Hr].
  - rewrite Z.mod_small; lia.
  - rewrite length_seqZ in *. replace (p + 1 + Z.of_nat i) with (0 + Z.of_nat (i - Z.to_nat (64 - 1 - p)) + 1 * 64) by lia. rewrite Z.mod_add by lia. rewrite Z.mod_small; lia.
Qed.
Lemma next_closer s p q r : 0 <= p < NPROC -> 0 <= q < NPROC -> q <> p -> p_state (getp s q) = RUNNABLE -> next_proc s p = Some r -> r = q \/ (0 <= r < NPROC /\ r <> p /\ ahead r q < ahead p q).
Proof using.
  clear. intros Hp Hq Hne Hr Hn. unfold next_proc in Hn. apply find_index in Hn as (i & Hi & Hmin). set (L := _ ++ _) in *.
  assert (L !! Z.to_nat (ahead p q) = Some q) as Hidx.
  { unfold L, ahead, NPROC in *. destruct (decide (p < q)).
    - rewrite lookup_app_l by (rewrite length_seqZ; dlia). rewrite lookup_seqZ. split; dlia.
    - rewrite lookup_app_r by (rewrite length_seqZ; dlia). rewrite length_seqZ, lookup_seqZ. split; dlia. }
  assert (i <= Z.to_nat (ahead p q))%nat as Hle.
  { destruct (decide (i <= Z.to_nat (ahead p q))%nat) as [|Hgt]; [done|]. assert (runnable s q = false) as E by (eapply Hmin; [|exact Hidx]; lia).
    unfold runnable in E. by rewrite bool_decide_eq_true_2 in E. }
  assert (0 <= ahead p q < NPROC - 1) as Hb by (unfold ahead, NPROC in *; dlia). pose proof (scan_order p i r Hp Hi ltac:(lia)) as Er.
  destruct (decide (i = Z.to_nat (ahead p q))) as [->|Hlt]; [left; congruence|right]. unfold ahead, NPROC in *. subst r. dlia.
Qed.

(** Runs in which [q] does not get the CPU, with the number of yields. *)
Inductive starved q s0 : nat -> kern -> Prop :=
| starved_nil : starved q s0 0 s0
| starved_step n s o s' : starved q s0 n s -> ok_op s o -> run_op o s = Some s' -> cur s' <> Some q ->
    starved q s0 (match o with OYield => S n | _ => n end) s'.

Lemma starved_bound s0 A0 p0 q n s : sys_inv s0 A0 -> cur s0 = Some p0 -> p_state (getp s0 q) = RUNNABLE -> starved q s0 n s ->
  exists A p, sys_inv s A /\ cur s = Some p /\ p_state (getp s q) = RUNNABLE /\ Z.of_nat n + ahead p q <= ahead p0 q.
Proof using kend_kern pool_nodup pool_pages tramp_ok xstate_off frame_off frame_apart ExecFilesLaws0.
  intros S0 Hc0 Hq0. induction 1 as [|n s o s' _ (A & p & S & Hc & Hq & Hb) Hok E Hnq]; [exists A0, p0; split_and!; [apply S0..|done|done|lia]|].
  destruct (run_op_spec s A p o S Hc Hok) as (s2 & A' & E' & S' & _ & Hcase). assert (s2 = s') as -> by congruence.
  assert (forall j, p_state (getp s j) <> UNUSED -> 0 <= j < NPROC) as Hrange.
  { intros j Hj. destruct S as [I _ _]. apply (sl_used _ _ (pi_slots _ _ _ _ _ _ _ I)). by apply slots_used with s; [apply I|]. }
  assert (q <> p) as Hqp by (intros ->; pose proof (si_cur _ _ S p Hc); congruence).
  assert (forall s1, keeps p s s1 -> p_state (getp s1 q) = RUNNABLE) as Hkeep.
  { intros s1 Hk. destruct (Hk q Hqp) as [->|[[? _]|[? _]]]; [congruence|done|congruence|congruence]. }
  assert (0 <= p < NPROC) as Hpr by (apply Hrange; rewrite (si_cur _ _ S p Hc); done). assert (0 <= q < NPROC) as Hqr by (apply Hrange; congruence).
  destruct Hcase as [(Ho & Hc' & Hk)|(s1 & -> & Hk)].
  - exists A', p. split; [done|]. split_and!; [done|by apply Hkeep|]. destruct o; done.
  - pose proof (Hkeep s1 Hk) as Hq1. unfold switched in *. destruct (next_proc (with_cur None s1) p) as [r|] eqn:En.
    + destruct (next_closer (with_cur None s1) p q r Hpr Hqr Hqp Hq1 En) as [->|(Hr & _ & Hlt)]; [done|]. exists A', r. split; [done|].
      split_and!; [done| |destruct o; lia]. rewrite getp_dispatched. destruct (decide (q = r)) as [->|]; [done|done].
    + exfalso. unfold next_proc in En. eapply List.find_none in En; [|apply list_elem_of_In, elem_of_app; right; apply elem_of_seqZ; instantiate (1 := q); lia].
      unfold runnable in En. rewrite getp_cur, Hq1 in En. by rewrite bool_decide_eq_true_2 in En.
Qed.
End Calls.
End ProcSys.
