(* ===== verification/ProcBoot.v ===== *)
(** * userinit: the first process

    From a table of unused slots userinit makes a process with one page of code, and the
    invariant of the table holds from then on. *)
From S2P Require Import Prelude Mem Riscv Kalloc Vm VmTree VmSpec VmCopy VmAlloc VmFree VmPool Proc ProcMem ProcInv ProcOps ProcFork ProcCopy ProcThms.

(** Partial correctness, for boot code that gives up when memory runs out. *)
Definition wlp {S A} (m : M S A) (k : kst S) (Q : A -> kst S -> Prop) : Prop := match m k with Ok a k' => Q a k' | _ => True end.
Lemma wlp_bind {S A B} (m : M S A) (f : A -> M S B) k (Q : B -> kst S -> Prop) : wlp m k (fun a k' => wlp (f a) k' Q) -> wlp (m ≫= f) k Q.
Proof. unfold wlp, mbind, M_bind. by destruct (m k). Qed.
Lemma wlp_wp {S A} (m : M S A) k (P Q : A -> kst S -> Prop) : wp m k P -> (forall a k', P a k' -> Q a k') -> wlp m k Q.
Proof. unfold wp, wlp. destruct (m k); naive_solver. Qed.
Lemma wlp_mono {S A} (m : M S A) k (P Q : A -> kst S -> Prop) : wlp m k P -> (forall a k', P a k' -> Q a k') -> wlp m k Q.
Proof. unfold wlp. destruct (m k); naive_solver. Qed.
Lemma wp_wlp {S A} (m : M S A) k (Q : A -> kst S -> Prop) : wp m k Q -> wlp m k Q.
Proof. unfold wp, wlp. by destruct (m k). Qed.
Lemma wlp_ret {S A} (a : A) k (Q : A -> kst S -> Prop) : Q a k -> wlp (mret a) k Q.
Proof. done. Qed.
Lemma wlp_gets {S A} (f : S -> A) k (Q : A -> kst S -> Prop) : Q (f (st k)) k -> wlp (gets f) k Q.
Proof. done. Qed.
Lemma wlp_modify {S} (f : S -> S) k (Q : unit -> kst S -> Prop) : Q tt (KSt (held k) (f (st k))) -> wlp (modify f) k Q.
Proof. done. Qed.
Ltac lstep :=
  lazymatch goal with
  | |- wlp (mret _) _ _ => apply wlp_ret
  | |- wlp (mbind _ _) _ _ => apply wlp_bind
  | |- wlp (gets _) _ _ => apply wlp_gets
  | |- wlp (modify _) _ _ => apply wlp_modify
  end; cbn [held st].

Section Boot.
Context {T : Type} `{!ProcFiles T, !ProcFilesLaws T}.
Variables (kend trampoline forkret_at initcode_at : Z) (pool : list Z) (R0 : spaces) (K : list Z).
Hypothesis kend_kern : KERNBASE <= kend.
Hypothesis pool_nodup : NoDup pool.
Hypothesis pool_pages : Forall (page kend) pool.
Hypothesis tramp_ok : trampoline mod 4096 = 0 /\ 0 <= trampoline /\ trampoline + 4096 <= 2 ^ 56.

Abbreviation kern := (@kern T).
Abbreviation pmem := (pmem kend trampoline pool R0).
Abbreviation proc_inv := (proc_inv kend trampoline pool R0 K).
Implicit Types (s : kern) (A : aspaces) (i p q : Z).

Lemma wlp_onkm {B} (m : M kmem B) h s (Q : B -> kst kern -> Prop) : wlp m (KSt h (km s)) (fun a k => Q a (KSt (held k) (with_km (st k) s))) -> wlp (onkm m) (KSt h s) Q.
Proof. unfold wlp, onkm, zoom. cbn. by destruct (m _). Qed.
Lemma wlp_onrest {B} (m : M T B) h s (Q : B -> kst kern -> Prop) : wlp m (KSt h (rest s)) (fun a k => Q a (KSt (held k) (with_rest (st k) s))) -> wlp (onrest m) (KSt h s) Q.
Proof. unfold wlp, onrest, zoom. cbn. by destruct (m _). Qed.

Definition INITFLAGS : Z := 31.
Lemma uvminit_pool h (s : kmem) R U root f src sz : kmem_lock ∉ h -> mem_ok kend pool s R U -> R !! root = Some f -> f 0 = 0 -> 0 <= sz < 4096 ->
  wlp (uvminit root src sz) (KSt h s) (fun _ k => held k = h /\ exists q, page kend q /\
    (mem_ok kend pool (st k) (<[root := fupd f 0 (mkpte q INITFLAGS)]> R) (q :: U) \/ mem_ok kend pool (st k) R (q :: U))).
Proof using kend_kern pool_nodup pool_pages.
  intros Hh Hm HR Hf Hsz. unfold uvminit. destruct (Z.leb_spec PGSIZE sz); [unfold PGSIZE in *; lia|]. apply wlp_bind.
  eapply wlp_wp; [apply (kalloc_pool kend pool kend_kern pool_nodup pool_pages h s R U Hh Hm)|]. intros q [h' s1] (Eh & Hs1 & Hc). cbn [held st] in *. subst h'.
  destruct (Z.eqb_spec q 0) as [|Hq0]; [done|]. destruct Hc as [[E _]|(_ & Hq & _ & _ & Hm1)]; [by destruct (Hq0 E)|]. apply wlp_bind.
  set (s2 := Kmem (memset (ram s1) q 0 PGSIZE) (freelist s1)).
  assert (mem_ok kend pool s2 R (q :: U)) as Hm2.
  { eapply (mem_ok_write_page kend pool kend_kern pool_nodup pool_pages s1 R _ q); [done|left|]. intros x Hx. unfold PGSIZE. rewrite rd_memset_out by lia. done. }
  unfold on_ram at 1. lstep. fold s2.
  apply wlp_bind. pose proof (page_pos kend kend_kern q Hq). destruct Hq as [Hq1 Hq2].
  eapply wlp_wp; [eapply (mappages_pool kend pool kend_kern pool_nodup pool_pages h s2 R (q :: U) root f 0 q (Z.lor (Z.lor (Z.lor PTE_W PTE_R) PTE_X) PTE_U)); [done|exact Hm2|exact HR|done|done|lia|unfold PHYSTOP, KERNBASE in *; lia|done|change (0 / 4096) with 0; by rewrite Hf]|].
  intros r [h' s3] (Eh & Hs3 & Hc). cbn [held st] in *. subst h'.
  assert (forall R', mem_ok kend pool s3 R' (q :: U) -> mem_ok kend pool (Kmem (memmove (ram s3) q src sz) (freelist s3)) R' (q :: U)) as Hmv.
  { intros R' HR'. eapply (mem_ok_write_page kend pool kend_kern pool_nodup pool_pages s3 R' _ q); [done|left|]. intros x Hx. rewrite rd_memmove by lia. zbool; done || lia. }
  unfold on_ram. lstep. split; [done|]. exists q. split; [done|]. destruct Hc as [[_ Hm3]|[_ Hm3]]; [right|left]; by apply Hmv.
Qed.
(** Before the first process: all slots unused. *)
Record boot_ok s : Prop := {
  bt_mem : pmem K s ∅;
  bt_files : files_ok (rest s) (fun _ => (∅, None));
  bt_slot : forall i, p_state (getp s i) = UNUSED /\ p_pagetable (getp s i) = 0 /\ p_trapframe (getp s i) = 0 /\ p_sz (getp s i) = 0 /\ p_parent (getp s i) = None /\ p_ofile (getp s i) = ∅ /\ p_cwd (getp s i) = None;
  bt_next : 0 < nextpid s < 2 ^ 31 - 1;
}.
(** The only process is [i]. *)
Lemma inv_first s s' i q pid : boot_ok s -> 0 <= i < NPROC -> (forall j, j <> i -> getp s' j = getp s j) -> nextpid s' = pid + 1 -> 0 < pid -> initproc s' = Some i ->
  p_pid (getp s' i) = pid -> p_state (getp s' i) = RUNNABLE -> p_parent (getp s' i) = None -> p_ofile (getp s' i) = ∅ -> is_Some (p_cwd (getp s' i)) ->
  files_ok (rest s') (tabs s') -> pmem K s' {[i := [(q, INITFLAGS)]]} -> proc_inv s' {[i := [(q, INITFLAGS)]]}.
Proof using.
  clear kend_kern pool_nodup pool_pages tramp_ok. intros B Hi Ho En Hpid Hip Ep Es Epar Eof Hcwd Hf Hm.
  assert (forall j, j <> i -> p_state (getp s' j) = UNUSED) as Hun by (intros j Hj; rewrite Ho by done; apply (bt_slot _ B)).
  assert (forall j, used s' j -> j = i) as Hu by (intros j Hj; destruct (decide (j = i)); [done|]; by destruct Hj; apply Hun).
  assert (alive s' i) as Ha by (unfold alive; by rewrite Es).
  split.
  - done.
  - split; intros j Hj.
    + apply lookup_singleton_None in Hj. rewrite Ho by done. destruct (bt_slot _ B j) as (? & ? & ? & ? & _). done.
    + apply lookup_singleton_is_Some in Hj as ->. split; [done|apply Ha].
  - done.
  - intros j Hj. destruct (decide (j = i)) as [->|Hne]; [done|]. unfold tabs. rewrite Ho by done. destruct (bt_slot _ B j) as (_ & _ & _ & _ & _ & -> & ->). done.
  - intros j fd f. destruct (decide (j = i)) as [->|Hne]; [by rewrite Eof|]. rewrite Ho by done. destruct (bt_slot _ B j) as (_ & _ & _ & _ & _ & -> & _). done.
  - intros j [Hj _]. by rewrite (Hu j Hj).
  - intros j Hj. rewrite (Hu j Hj), Ep, En. lia.
  - intros j j' Hj Hj' _. by rewrite (Hu j Hj), (Hu j' Hj').
  - lia.
  - by exists i.
  - intros j Hj Hne. rewrite (Hu j Hj) in Hne. done.
  - intros j _. destruct (decide (j = i)) as [->|Hne]; [done|]. rewrite Ho by done. apply (bt_slot _ B).
Qed.

Lemma boot_slots s : boot_ok s -> slots s ∅.
Proof using.
  clear kend_kern pool_nodup pool_pages tramp_ok. intros B. split; [intros j _; destruct (bt_slot _ B j) as (? & ? & ? & ? & _); done|]. intros j Hj. by apply lookup_empty_is_Some in Hj.
Qed.
Lemma userinit_spec s : boot_ok s ->
  wlp (userinit kend trampoline forkret_at initcode_at) (KSt [] s) (fun _ k => held k = [] /\ exists i, initproc (st k) = Some i /\ p_state (getp (st k) i) = RUNNABLE /\ cur (st k) = cur s /\
    (forall j, j <> i -> p_state (getp (st k) j) = UNUSED) /\
    (uaddr (ram (km (st k))) (p_pagetable (getp (st k) i)) 0 = None \/ exists q, proc_inv (st k) {[i := [(q, INITFLAGS)]]})).
Proof using kend_kern pool_nodup pool_pages tramp_ok.
  intros B. pose proof (bt_next _ B) as Hnx. unfold userinit. apply wlp_bind.
  eapply wlp_wp; [apply (allocproc_spec kend trampoline forkret_at pool R0 kend_kern pool_nodup pool_pages tramp_ok K s ∅ (bt_mem _ B) (boot_slots s B))|].
  intros [i|] [h s1] [_ Hpost]; cbn [held st] in *; [|done]. destruct Hpost as (-> & _ & [No Nr Nu Nn Ec] & Hp1).
  rewrite insert_empty in Hp1. rewrite i32_small in Nn by lia. destruct (bt_slot _ B i) as (_ & _ & _ & _ & Bpar & Bof & Bcwd).
  lstep. lstep. lstep. cbn [nonnull]. lstep. lstep. lstep. lstep.
  set (s2 := with_initproc (Some i) s1). change (getp s2 i) with (getp s1 i). set (x := getp s1 i) in *.
  destruct Hp1 as [R Hp1]. destruct (pm_space _ _ _ _ _ _ _ _ Hp1 i [] ltac:(by rewrite lookup_singleton_eq)) as (Hpt & Htf & Hsp & HR). fold x in Hpt, Htf, HR.
  set (f := user_space trampoline (p_trapframe x) []) in *. set (U := users s1 {[i := []]} ++ K) in *.
  apply wlp_onkm. eapply wlp_mono; [apply (uvminit_pool [proc_lock i] (km s2) R U (p_pagetable x) f initcode_at _); [set_solver|apply Hp1|exact HR|done|done]|].
  intros _ [h m] (Eh & q & Hq & Hm). cbn [held st] in *. subst h. unfold updp, sd. lstep. lstep. lstep. apply wlp_onkm. lstep. lstep. apply wlp_onkm. lstep. lstep. lstep. lstep. cbn [km with_km ram freelist upd_proc with_procs].
  match goal with |- context [with_km ?v] => set (m' := v) end.
  assert (only_page (ram m) (ram m') (p_trapframe x)) as Hop.
  { intros y Hy. unfold m'. cbn. rewrite !rd_store64_ne by (unfold tf_epc, tf_sp; lia). done. }
  assert (forall R', mem_ok kend pool m R' (q :: U) -> mem_ok kend pool m' R' (q :: U)) as Hm'.
  { intros R' HR'. eapply (mem_ok_write_page kend pool kend_kern pool_nodup pool_pages m R' _ (p_trapframe x)); [done| |exact Hop].
    right. unfold U. apply elem_of_app. left. apply users_frame. by rewrite lookup_singleton_eq. }
  apply wlp_onrest. match goal with |- wlp _ (KSt _ (rest ?s')) _ => set (s5 := s') end.
  assert (forall j, j <> i -> getp s5 j = getp s j) as Ho5 by (intros j Hj; unfold s5; rewrite getp_upd_ne, !getp_km, getp_upd_ne, getp_km by done; by apply No).
  assert (getp s5 i = set_name (copy_name name_initcode) (set_sz PGSIZE x)) as E5 by (unfold s5; rewrite getp_upd_eq, !getp_km, getp_upd_eq, getp_km; done).
  eapply wlp_wp; [apply (law_namei (rest s5) (fun _ => (∅, None)) i i); [|done|done]|].
  { change (rest s5) with (rest s1). rewrite (ot_rest _ _ _ No). apply (bt_files _ B). }
  intros r [h t] (c & -> & Eh & Hf). cbn [held st] in *. subst h. lstep. lstep. lstep. lstep. apply wp_wlp. apply wp_release; [set_solver|]. cbn [held st].
  set (s' := upd_proc i (set_state RUNNABLE) _). split; [done|]. exists i.
  assert (getp s' i = set_state RUNNABLE (set_cwd (Some c) (set_name (copy_name name_initcode) (set_sz PGSIZE x)))) as E' by (unfold s'; rewrite !getp_upd_eq, getp_rest, E5; done).
  assert (forall j, j <> i -> getp s' j = getp s j) as Ho' by (intros j Hj; unfold s'; rewrite !getp_upd_ne, getp_rest by done; by apply Ho5).
  split_and!; [done|by rewrite E'|apply No|intros j Hj; rewrite Ho' by done; apply (bt_slot _ B)|].
  change (km s') with m'. rewrite E'. cbn [p_pagetable set_state set_cwd set_name set_sz]. destruct Hm as [Hm%Hm'|Hm%Hm']; [right; exists q|left].
  - apply (inv_first s s' i q (nextpid s)); try done.
    + lia.
    + rewrite E', Ec. done.
    + by rewrite E'.
    + rewrite E', Ec. done.
    + rewrite E', Ec. done.
    + by rewrite E'.
    + eapply law_files_ext; [|exact Hf]. intros j. unfold set_dir, fupd, tabs. cbn. destruct (Z.eqb_spec j i) as [->|Hj]; [rewrite E', Ec; cbn; by rewrite Bof|].
      rewrite Ho' by done. destruct (bt_slot _ B j) as (_ & _ & _ & _ & _ & -> & ->). done.
    + replace {[i := [(q, INITFLAGS)]]} with (<[i := [(q, INITFLAGS)]]> ({[i := []]} : aspaces)) by apply insert_singleton_eq.
      eapply (pmem_set kend trampoline pool R0 K s1 {[i := []]} R i []); [done|by rewrite lookup_singleton_eq|intros j Hj; rewrite Ho' by done; symmetry; by apply No|by rewrite E'|by rewrite E'|..].
      * rewrite E'. split; cbn; [done|done|]. repeat constructor; done.
      * fold x. eapply mem_ok_ext; [|eapply mem_ok_perm; [|exact Hm]].
        -- intros v Hv. destruct space_consts as (C1 & C2 & _). unfold fupd, f, user_space. destruct (Z.eqb_spec v 0) as [->|Hv0]; [done|].
           rewrite lookup_nil. replace (Z.to_nat v) with (S (Z.to_nat (v - 1))) by lia. done.
        -- unfold U. rewrite (users_delete s1 {[i := []]} i []) by (by rewrite lookup_singleton_eq). cbn. fold x. by rewrite Permutation_swap.
  - destruct Hm as (l & own & Hm). unfold uaddr. change (user_leaf _) with (user_leaf (lk (ent (ram m')) (p_pagetable x) 0)). rewrite (ma_lk _ _ _ _ _ _ _ Hm _ _ 0 HR) by done. done.
Qed.
End Boot.
