(* ===== verification/ProcMain.v ===== *)
(** * Processes: the theorems

    fork, exec, exit and wait on a table with its invariant, runs of calls and of user code
    from any such table, and what they mean for the memory of processes. *)
From S2P Require Import Prelude Mem Riscv Kalloc Vm VmTree VmSpec VmCopy VmAlloc VmFree VmPool Proc ProcMem ProcInv ProcOps ProcFork ProcCopy ProcThms ProcExit Exec ExecMem ExecSpec ExecLoad ExecArgs ExecThms Syscall SyscallThms ProcSys ProcBoot.

(** Where things are in physical memory: the pages kalloc may hand out, the trampoline, and
    struct proc and the local variables of exec and sys_exec outside those pages. *)
Record layout_ok (kend trampoline : Z) (xstate_at : Z -> Z) (fr : frame) (pool : list Z) : Prop := {
  ly_kend : KERNBASE <= kend;
  ly_nodup : NoDup pool;
  ly_pages : Forall (page kend) pool;
  ly_tramp : trampoline mod 4096 = 0 /\ 0 <= trampoline /\ trampoline + 4096 <= 2 ^ 56;
  ly_xstate : forall np i q, 0 <= i < 4 -> q ∈ pool -> off_page (xstate_at np + i) q;
  ly_frame : forall x q, in_frame fr x -> q ∈ pool -> off_page x q;
  ly_disj : frame_disj fr;
}.

Section Main.
Context {T : Type} `{!ProcFiles T, !ProcFilesLaws T, !ExecFiles T, !ExecFilesLaws T}.
Variables (kend trampoline forkret_at : Z) (xstate_at : Z -> Z) (fr : frame) (pool : list Z) (R0 : spaces) (K : list Z).
Hypothesis L : layout_ok kend trampoline xstate_at fr pool.
Abbreviation kern := (@kern T).
Abbreviation proc_inv := (proc_inv kend trampoline pool R0 K).
Abbreviation sys_inv := (sys_inv kend trampoline pool R0 K).
Abbreviation run_op := (run_op kend trampoline forkret_at xstate_at fr).
Abbreviation reach := (reach kend trampoline forkret_at xstate_at fr).
Implicit Types (s : kern) (A : aspaces) (i p q np : Z).

(** C6: fork of the running process returns -1 and changes no process, or returns the pid of a
    new process: a runnable child of the caller with its size, open files, current directory
    and name, whose pages hold the same bytes with the same permissions in physical pages of
    its own, whose saved registers are the caller's with a0 = 0, and which runs from forkret on
    its own kernel stack.  No other process and none of their pages change, and the invariant
    of the table (every page owned once, every reference counted, pids distinct, parents
    alive) holds again. *)
Theorem fork_correct s A p pages (I : proc_inv s A) (Hpid : nextpid s < 2 ^ 31 - 1) (Hc : cur s = Some p) (Ha : alive s p) (HA : A !! p = Some pages) :
  exists r s', fork kend trampoline forkret_at (KSt [] s) = Ok r (KSt [] s') /\
    ((r = -1 /\ idle s s' /\ stays pool (users s A ++ K) (km s) (km s') /\ proc_inv s' A) \/
     exists np pages', r = nextpid s /\ A !! np = None /\ forked forkret_at pool K s s' A p np pages pages' /\ proc_inv s' (<[np := pages']> A)).
Proof using L.
  destruct L as [L1 L2 L3 L4 _ _ _].
  destruct (wp_elim _ _ _ (fork_spec kend trampoline forkret_at pool R0 K L1 L2 L3 L4 s A p pages I Hpid Hc Ha HA)) as (r & [h s'] & E & Hh & Hcase). cbn [held st] in *. subst h.
  by exists r, s'.
Qed.


Lemma used_pages s A p va pa : proc_inv s A -> used s p -> uaddr (ram (km s)) (p_pagetable (getp s p)) va = Some pa ->
  exists pages q f j, A !! p = Some pages /\ pages !! j = Some (q, f) /\ q <= pa < q + 4096.
Proof using L.
  destruct L as [L1 L2 L3 L4 _ _ _]. intros I Hu E. destruct (slots_used s A p (pi_slots _ _ _ _ _ _ _ I) Hu) as [pages HA]. destruct (pi_mem _ _ _ _ _ _ _ I) as [R Hp].
  rewrite (uaddr_space kend trampoline pool R0 L1 L2 L3 K s A R p pages va Hp HA) in E. apply upa_Some in E as (q & f & Hq & -> & _).
  exists pages, q, f, (Z.to_nat (va / 4096)). split_and!; [done|done|..]; pose proof (Z.mod_pos_bound va 4096); lia.
Qed.


(** C2: integrity.  In every state that such a run reaches, whatever the running process does
    next, in user mode or by a call, the other live processes keep what they have: each of
    their addresses is still mapped to the same physical byte, the byte is unchanged, and so
    are their saved registers. *)
Theorem integrity s0 A0 s o s' p q (S0 : sys_inv s0 A0) (Hr : reach s0 s) (Hok : ok_op s o) (Hc : cur s = Some p) (Hne : q <> p) (Hq : alive s q) (E : run_op o s = Some s') :
  (forall va pa, uaddr (ram (km s)) (p_pagetable (getp s q)) va = Some pa ->
     uaddr (ram (km s')) (p_pagetable (getp s' q)) va = Some pa /\ rd (ram (km s')) pa = rd (ram (km s)) pa) /\
  p_trapframe (getp s' q) = p_trapframe (getp s q) /\
  (forall i, 0 <= i < TF_SIZE -> rd (ram (km s')) (p_trapframe (getp s q) + i) = rd (ram (km s)) (p_trapframe (getp s q) + i)).
Proof using L ExecFilesLaws0.
  destruct L as [L1 L2 L3 L4 L5 L6 L7]. destruct (reach_inv kend trampoline forkret_at xstate_at fr pool R0 K L1 L2 L3 L4 L5 L6 L7 s0 A0 s S0 Hr) as [A S].
  destruct (run_op_spec kend trampoline forkret_at xstate_at fr pool R0 K L1 L2 L3 L4 L5 L6 L7 s A p o S Hc Hok) as (s1 & A' & E' & [I' _ _] & Hu & _). assert (s1 = s') as -> by congruence. destruct S as [I _ _].
  destruct (slots_used s A q (pi_slots _ _ _ _ _ _ _ I) (proj1 Hq)) as [pages HA]. destruct (Hu q pages Hne Hq HA) as (HA' & Et & Hs).
  destruct (pi_mem _ _ _ _ _ _ _ I) as [R Hp]. destruct (pi_mem _ _ _ _ _ _ _ I') as [R' Hp']. split; [|split; [exact Et|]].
  - intros va pa Hva. rewrite (uaddr_space kend trampoline pool R0 L1 L2 L3 K s A R q pages va Hp HA) in Hva. rewrite (uaddr_space kend trampoline pool R0 L1 L2 L3 K s' A' R' q pages va Hp' HA').
    split; [exact Hva|]. apply upa_page in Hva as (y & Hy & Hr'). apply (Hs y); [by right|done].
  - intros i Hi. apply (Hs (p_trapframe (getp s q))); [by left|unfold TF_SIZE in Hi; lia].
Qed.

(** C7: exec, from the system call on.  The running process gets -1, and then its memory and its
    registers and all other processes are as they were; or the path and the arguments are the
    strings its registers point to, the path names an ELF file, and the process continues in the
    image of that file: its memory holds the bytes of the segments where the program headers put
    them and zeros elsewhere, above it a page that user code cannot access and a stack with the
    argument strings and the vector of pointers to them; pc is the entry point, the result,
    for a0, the number of arguments, a1 and sp the 16-byte aligned address of the vector.  Open
    files, pid and parent stay, no other process and none of their pages change, and the
    invariant of the table, by which the old memory is free, holds again. *)
Theorem exec_correct s A p pages (I : proc_inv s A) (Hc : cur s = Some p) (HA : A !! p = Some pages) (regs := fun o => load64 (ram (km s)) (p_trapframe (getp s p) + o)) :
  exists r s', sys_exec kend trampoline (fr_ustack fr) (fr_path fr) (fr_uarg fr) (KSt [] s) = Ok r (KSt [] s') /\
    ((r = -1 /\ (exists t m, s' = with_km m (with_rest t s)) /\ proc_inv s' A /\ forall q, q ∈ users s A -> same_page (ram (km s)) (ram (km s')) q) \/
     exists path strs D img pages' sp ptrs, let elf := elfhdr_of (readi_bytes D 0 SIZEOF_ELFHDR) in r = Z.of_nat (length strs) /\
       ustr (ram (km s)) pages (regs tf_a0) (Z.to_nat MAXPATH) = Some path /\
       uargs (ram (km s)) pages (p_sz (getp s p)) (regs tf_a1) (Z.to_nat MAXARG) 0 = Some strs /\
       file_named (rest s) path D /\ e_magic elf = ELF_MAGIC /\ load_image D (Z.to_nat (e_phnum elf)) (i32 (e_phoff elf)) [] = Some img /\
       exec_done s s' A p pages' path (e_entry elf) img strs sp ptrs /\ proc_inv s' (<[p := pages']> A)).
Proof using L ExecFilesLaws0.
  destruct L as [L1 L2 L3 L4 L5 L6 L7]. assert (forall x, in_frame fr x -> kaddr pool K x) as Hfr by (intros x Hx q Hq _; by apply L6).
  destruct (wp_elim _ _ _ (sys_exec_spec kend trampoline pool R0 L1 L2 L3 L4 s A p pages Hc HA K (fr_ustack fr) (fr_path fr) (fr_uarg fr) Hfr L7
    (pi_mem _ _ _ _ _ _ _ I) (pi_files _ _ _ _ _ _ _ I))) as (r & [h s'] & E & Hcase). exists r, s'. assert (is_Some (A !! p)) as HAs by (by eexists).
  destruct Hcase as [(-> & Eh & t & m & Es & Hp & Hf & Hsm)|(D & path & strs & [[Er Eh] H1 H2 H3 H4 Hf (img & pages' & sp & ptrs & Him & Hp & X)])]; cbn [held st] in *; subst h; (split; [exact E|]).
  - left. subst s'. split_and!; [done|by exists t, m| |exact Hsm]. rewrite <- (insert_id A p pages HA). eapply (inv_image kend trampoline pool R0 K s); try done; [by intros x ->|].
    rewrite (insert_id A p pages HA). by apply (pmem_same kend trampoline pool R0 K (with_km m s)).
  - right. exists path, strs, D, img, pages', sp, ptrs. split_and!; try done. pose proof (xd_global _ _ _ _ _ _ _ _ _ _ _ X) as (G1 & G2 & G3 & _). pose proof (xd_proc _ _ _ _ _ _ _ _ _ _ _ X) as Ep.
    eapply (inv_image kend trampoline pool R0 K s); try done; [apply X|]. intros x ->. by rewrite Ep.
Qed.

(** C12: round robin.  A runnable process gets the CPU: in a run of calls in which it does not,
    the others yield fewer than NPROC times in all. *)
Theorem scheduler_live s0 A0 p0 q n s (S0 : sys_inv s0 A0) (Hc : cur s0 = Some p0) (Hq : p_state (getp s0 q) = RUNNABLE)
    (Hs : starved kend trampoline forkret_at xstate_at fr q s0 n s) : Z.of_nat n < NPROC.
Proof using L ExecFilesLaws0.
  destruct L as [L1 L2 L3 L4 L5 L6 L7]. destruct (starved_bound kend trampoline forkret_at xstate_at fr pool R0 K L1 L2 L3 L4 L5 L6 L7 s0 A0 p0 q n s S0 Hc Hq Hs) as (A & p & _ & _ & _ & Hb).
  unfold ahead, NPROC in *. pose proof (Z.mod_pos_bound (q - p - 1) 64). pose proof (Z.mod_pos_bound (q - p0 - 1) 64). lia.
Qed.
(** After the exit of [p], its parent has one zombie child. *)
Lemma exit_zombie s s1 A p ip op status : proc_inv s A -> alive s p -> ip <> p -> op <> p -> p_parent (getp s p) = Some op -> exited s s1 p ip op status ->
  (forall j, p_parent (getp s j) = Some op \/ p_parent (getp s j) = Some p -> p_state (getp s j) <> ZOMBIE) ->
  find (zombie_child s1 op) (seqZ 0 NPROC) = Some p.
Proof using.
  clear L. intros I Hal Hne Hop Hpar [Es Eo _ _ _ _] Hz. assert (forall j, zombie_child s1 op j = true -> j = p) as Honly.
  { intros j [H1%bool_decide_eq_true_1 H2%bool_decide_eq_true_1]%andb_true_iff. destruct (decide (j = p)) as [|Hj]; [done|exfalso]. rewrite Eo in H1, H2 by done.
    destruct (exit_other_same s p ip op j) as [Hs Epar]. rewrite Epar in H1. apply (sm_zombie _ _ Hs) in H2.
    apply (Hz j); [|done]. case_bool_decide as E; [by right|left; done]. }
  assert (zombie_child s1 op p = true) as Hp by (unfold zombie_child; rewrite Es; cbn; by rewrite Hpar, !bool_decide_eq_true_2).
  destruct (find (zombie_child s1 op) (seqZ 0 NPROC)) as [j|] eqn:E; [apply List.find_some in E as [_ E]; by rewrite (Honly j E)|].
  exfalso. destruct (child_used kend trampoline pool R0 K s A op p I Hpar) as (_ & _ & Hr & _).
  eapply List.find_none in E; [|apply list_elem_of_In, elem_of_seqZ; instantiate (1 := p); lia]. congruence.
Qed.

(** C10: exit and wait.  exit of a process that is not init gets to the context switch with only
    its own lock held; it has no open files and no directory, its children belong to init, and
    it is a zombie.  When its parent then calls wait (and has no other zombie), wait returns
    its pid, the exit status is at the address given, and the slot and all pages of the
    process are free again. *)
Theorem exit_then_wait swtch fuel s A p ip op addr status opages (I : proc_inv s A) (Hc : cur s = Some p) (Ha : alive s p) (Hip : initproc s = Some ip) (Hne : ip <> p)
    (Hpar : p_parent (getp s p) = Some op) (Hz : forall j, p_parent (getp s j) = Some op \/ p_parent (getp s j) = Some p -> p_state (getp s j) <> ZOMBIE)
    (HA : A !! op = Some opages) (Hva : 0 <= addr) (Hmap : addr <> 0 -> forall i, 0 <= i < 4 -> is_Some (upa opages (addr + i))) :
  exists s1 s2, exit swtch status (KSt [] s) = (swtch ;; panic "zombie exit") (KSt [proc_lock p] s1) /\ exited s s1 p ip op status /\
    wait kend xstate_at swtch fuel addr (KSt [] (with_cur (Some op) s1)) = Ok (p_pid (getp s p)) (KSt [] s2) /\
    p_state (getp s2 p) = UNUSED /\ proc_inv s2 (delete p A) /\
    (addr <> 0 -> forall i, 0 <= i < 4 -> exists pa, upa opages (addr + i) = Some pa /\ rd (ram (km s2)) pa = status_byte status i).
Proof using L.
  destruct L as [L1 L2 L3 L4 L5 L6 L7]. destruct (exit_spec kend trampoline pool R0 K swtch s A p ip status I Hc Ha Hip Hne) as (k & E & s1 & op' & -> & Hpar' & X & I1).
  assert (op' = op) as -> by congruence. assert (op <> p) as Hop by (intros ->; destruct (child_used kend trampoline pool R0 K s A p p I Hpar) as (_ & _ & _ & ?); lia).
  exists s1. set (s1' := with_cur (Some op) s1). assert (proc_inv s1' A) as I1'.
  { eapply (inv_same kend trampoline pool R0 K s1); try done. apply (pmem_same kend trampoline pool R0 K s1); [done|done|apply I1]. }
  pose proof (wait_scan_spec kend trampoline pool R0 K L1 L2 L3 L4 xstate_at L5 s1' A op addr opages false (seqZ 0 NPROC) I1' HA Hva) as W.
  change (zombie_child s1' op) with (zombie_child s1 op) in W. rewrite (exit_zombie s s1 A p ip op status I Ha Hne Hop Hpar X Hz) in W.
  destruct (wp_elim _ _ _ W) as (r & [h s2] & Ew & Hh & Hcase). cbn [held st] in *. subst h. destruct Hcase as [[-> P]|(_ & Hn0 & (i & Hi & Hbad) & _)]; [|destruct (Hmap Hn0 i Hi); congruence].
  exists s2. pose proof (ex_self _ _ _ _ _ _ X) as Es. change (getp s1' p) with (getp s1 p) in *. split; [exact E|]. split; [done|]. split; [|split; [|split]].
  - replace (p_pid (getp s p)) with (p_pid (getp s1 p)) by (by rewrite Es). unfold wait, myproc, gets, acquire, mbind, M_bind. cbn [held st nonnull cur with_cur s1']. unfold mret at 1, M_ret at 1. cbn [held st].
    rewrite (bool_decide_eq_false_2 (proc_lock op ∈ [])) by apply not_elem_of_nil. destruct fuel; cbn [wait_loop]; unfold mbind, M_bind; rewrite Ew; done.
  - rewrite (rp_slot _ _ _ _ _ _ _ _ _ _ _ _ P). done.
  - apply P.
  - intros Hn0 i Hi. destruct (rp_status _ _ _ _ _ _ _ _ _ _ _ _ P Hn0 i Hi) as (pa & E1 & E2). exists pa. split; [done|]. rewrite E2. change (getp s1' p) with (getp s1 p). by rewrite Es.
Qed.

(** C39: kill(0) does not fail.  It marks the first slot whose pid is 0, which may be unused, as
    killed; allocproc does not clear the mark, so a process that fork then makes in that slot
    is born killed. *)
Theorem kill_unused s A np (I : proc_inv s A) (Hf : find (fun j => p_pid (getp s j) =? 0) (seqZ 0 NPROC) = Some np) (Hu : p_state (getp s np) = UNUSED) :
  exists s', kill 0 (KSt [] s) = Ok 0 (KSt [] s') /\ p_state (getp s' np) = UNUSED /\ p_killed (getp s' np) = 1 /\
    forall p pages r s2, nextpid s < 2 ^ 31 - 1 -> cur s = Some p -> alive s p -> A !! p = Some pages ->
      fork kend trampoline forkret_at (KSt [] s') = Ok r (KSt [] s2) -> r <> -1 -> p_pid (getp s2 np) = r -> p_killed (getp s2 np) = 1 /\ p_state (getp s2 np) = RUNNABLE.
Proof using L.
  destruct L as [L1 L2 L3 L4 _ _ _]. destruct (wp_elim _ _ _ (kill_loop_spec kend trampoline pool R0 K 0 s A (seqZ 0 NPROC) I)) as (r0 & [h s'] & E & Hh & I' & Hcase). cbn [held st] in *. subst h.
  rewrite Hf in Hcase. destruct Hcase as [-> Es']. exists s'. assert (getp s' np = set_killed 1 (getp s np)) as En.
  { rewrite Es', getp_upd_eq, bool_decide_eq_false_2 by congruence. by destruct (getp s np). }
  split; [exact E|]. split; [by rewrite En|]. split; [by rewrite En|]. intros p pages r s2 Hpid Hc Hal HA Hfk Hr Hnp.
  assert (p <> np) as Hne by (intros ->; destruct Hal; done). assert (getp s' p = getp s p) as Ep by (rewrite Es', getp_upd_ne; done).
  assert (nextpid s' < 2 ^ 31 - 1) as Hp' by (by rewrite Es'). assert (cur s' = Some p) as Hc' by (by rewrite Es'). assert (alive s' p) as Hal' by (unfold alive in *; by rewrite Ep).
  destruct (wp_elim _ _ _ (fork_spec kend trampoline forkret_at pool R0 K L1 L2 L3 L4 s' A p pages I' Hp' Hc' Hal' HA)) as (r' & k & E' & Hh & Hcase).
  rewrite Hfk in E'. injection E' as <- <-. cbn [held st] in *. destruct Hcase as [(? & _)|(np' & pages' & Er & _ & F & _)]; [done|].
  destruct (decide (np = np')) as [<-|Hnn].
  - rewrite (fk_child _ _ _ _ _ _ _ _ _ _ F). cbn. rewrite En. done.
  - exfalso. rewrite (fk_others _ _ _ _ _ _ _ _ _ _ F np Hnn), En in Hnp. cbn in Hnp. apply List.find_some in Hf as [_ Hf%Z.eqb_eq].
    pose proof (pi_next _ _ _ _ _ _ _ I') as Hn. lia.
Qed.
End Main.
