(* ===== verification/TrapThms.v ===== *)
(** * Traps: the theorem

    A system call as user code sees it: from the ecall instruction through usertrap, syscall and
    the handler to the registers with which the process is back in user mode. *)
From S2P Require Import Prelude Mem Riscv Kalloc Vm VmTree VmSpec VmCopy VmAlloc VmFree VmPool Proc ProcMem ProcInv ProcOps ProcFork ProcCopy ProcThms ProcExit Exec ExecMem ExecSpec ExecLoad ExecArgs ExecThms Syscall SyscallThms ProcSys ProcBoot ProcMain.

(** The frame when the process goes back: the result, and what uservec needs at the next trap. *)
Definition returned (m : mem) (tf r satp kstack trap hart : Z) : mem :=
  store64 (store64 (store64 (store64 (store64 m (tf + tf_a0) (u64 r)) (tf + tf_kernel_satp) satp) (tf + tf_kernel_sp) (u64 (kstack + PGSIZE))) (tf + tf_kernel_trap) trap) (tf + tf_kernel_hartid) hart.
Definition kernel_slot (o : Z) : bool := (o =? tf_kernel_satp) || (o =? tf_kernel_sp) || (o =? tf_kernel_trap) || (o =? tf_kernel_hartid).

Lemma returned_load (m : mem) tf r satp kstack trap hart o : o mod 8 = 0 -> kernel_slot o = false ->
  load64 (returned m tf r satp kstack trap hart) (tf + o) = if o =? tf_a0 then u64 r else load64 m (tf + o).
Proof.
  unfold kernel_slot, returned, tf_kernel_satp, tf_kernel_sp, tf_kernel_trap, tf_kernel_hartid, tf_a0. intros Ho Hk. rewrite !load_store64_ne by dlia.
  destruct (Z.eqb_spec o 112) as [->|]; [apply load_store64_eq, u64_range|]. by rewrite load_store64_ne by dlia.
Qed.
Lemma returned_only (m : mem) tf r satp kstack trap hart : only_page m (returned m tf r satp kstack trap hart) tf.
Proof. intros x Hx. unfold returned, tf_kernel_satp, tf_kernel_sp, tf_kernel_trap, tf_kernel_hartid, tf_a0. by rewrite !rd_store64_ne by lia. Qed.

(** sstatus for sret: previous mode user, interrupts on in user mode. *)
Lemma sstatus_bits x i : 0 <= i -> Z.testbit (Z.lor (Z.land x (Z.lnot SSTATUS_SPP)) SSTATUS_SPIE) i = if i =? 8 then false else if i =? 5 then true else Z.testbit x i.
Proof.
  intros Hi. unfold SSTATUS_SPP, SSTATUS_SPIE. rewrite Z.lor_spec, Z.land_spec, Z.lnot_spec, !Z.shiftl_1_l, !Z.pow2_bits_eqb by lia.
  destruct (Z.eqb_spec i 8) as [->|]; [cbn; by rewrite andb_false_r|]. destruct (Z.eqb_spec i 5) as [->|]; [cbn; by rewrite orb_true_r|].
  destruct (Z.eqb_spec 8 i); [lia|]. destruct (Z.eqb_spec 5 i); [lia|]. cbn. by rewrite andb_true_r, orb_false_r.
Qed.

Section Trap.
Context {T : Type} `{!ProcFiles T, !ProcFilesLaws T, !ExecFiles T, !HasTicks T}.
Variables (kend trampoline forkret_at : Z) (xstate_at : Z -> Z) (fr : frame) (pool : list Z) (R0 : spaces) (K : list Z).
Hypothesis L : layout_ok kend trampoline xstate_at fr pool.
Abbreviation kern := (@kern T).
Abbreviation proc_inv := (proc_inv kend trampoline pool R0 K).
Implicit Types (s : kern) (A : aspaces) (p q : Z).
Variables (swtch : M kern unit) (fuel : nat) (file_call : Z -> M kern Z).
Variables (plic_claim : M kern Z) (plic_complete : Z -> M kern unit) (uartintr virtio_disk_intr e1000_intr : M kern unit) (cpuid kernel_satp usertrap_at : Z).
Abbreviation syscalls := (syscalls kend trampoline forkret_at xstate_at (fr_ustack fr) (fr_path fr) (fr_uarg fr) swtch fuel file_call).
Abbreviation syscall := (syscall kend trampoline forkret_at xstate_at (fr_ustack fr) (fr_path fr) (fr_uarg fr) swtch fuel file_call).
Abbreviation usertrap := (usertrap kend trampoline forkret_at xstate_at (fr_ustack fr) (fr_path fr) (fr_uarg fr) swtch fuel file_call plic_claim plic_complete uartintr virtio_disk_intr e1000_intr cpuid kernel_satp usertrap_at).
Abbreviation usertrapret := (usertrapret cpuid kernel_satp usertrap_at).

(** The state when the handler starts. *)
Definition trapped s p sepc : kern :=
  with_km (Kmem (store64 (store64 (ram (km s)) (p_trapframe (getp s p) + tf_epc) sepc) (p_trapframe (getp s p) + tf_epc) (u64 (sepc + 4))) (freelist (km s))) s.
Definition handler (num : Z) : M kern Z := default (mret (-1)) (if (0 <? num) && (num <? NSYSCALLS) then syscalls num else None).
Definition back s p r : kern :=
  with_km (Kmem (returned (ram (km s)) (p_trapframe (getp s p)) r kernel_satp (p_kstack (getp s p)) usertrap_at cpuid) (freelist (km s))) s.

Lemma trapped_a7 s p sepc : load64 (ram (km (trapped s p sepc))) (p_trapframe (getp s p) + tf_a7) = load64 (ram (km s)) (p_trapframe (getp s p) + tf_a7).
Proof. unfold trapped, tf_epc, tf_a7. cbn [ram km with_km]. by rewrite !load_store64_ne by lia. Qed.
Lemma wp_returns {B} (m : M kern B) k a k' (Q : B -> kst kern -> Prop) : m k = Ok a k' -> Q a k' -> wp m k Q.
Proof using. intros E HQ. unfold wp. by rewrite E. Qed.
(** syscall runs the handler and stores its result. *)
Lemma syscall_spec s p r s2 : cur s = Some p -> handler (i32 (load64 (ram (km s)) (p_trapframe (getp s p) + tf_a7))) (KSt [] s) = Ok r (KSt [] s2) ->
  wp syscall (KSt [] s) (fun _ k => k = KSt [] (with_km (Kmem (store64 (ram (km s2)) (p_trapframe (getp s p) + tf_a0) (u64 r)) (freelist (km s2))) s2)).
Proof using.
  clear L. intros Hc Hh. unfold Syscall.syscall, myproc. wstep. wstep. wstep. rewrite Hc. cbn [nonnull]. wstep. wstep. wstep. wstep. apply wp_onkm. unfold ld. wstep. rewrite km_id.
  unfold handler in Hh. destruct (if _ && _ then syscalls _ else None) as [f|]; cbn [default] in Hh.
  - wstep. eapply wp_returns; [exact Hh|]. apply wp_onkm. unfold sd. by wstep.
  - injection Hh as <- <-. apply wp_onkm. unfold sd. by wstep.
Qed.
Lemma usertrapret_spec s p sstatus : cur s = Some p -> wp (usertrapret sstatus) (KSt [] s) (fun x k =>
  exists m, k = KSt [] (with_km (Kmem m (freelist (km s))) s) /\ x = (Z.lor (Z.land sstatus (Z.lnot SSTATUS_SPP)) SSTATUS_SPIE, load64 m (p_trapframe (getp s p) + tf_epc), MAKE_SATP (p_pagetable (getp s p))) /\
    m = store64 (store64 (store64 (store64 (ram (km s)) (p_trapframe (getp s p) + tf_kernel_satp) kernel_satp) (p_trapframe (getp s p) + tf_kernel_sp) (u64 (p_kstack (getp s p) + PGSIZE)))
      (p_trapframe (getp s p) + tf_kernel_trap) usertrap_at) (p_trapframe (getp s p) + tf_kernel_hartid) cpuid).
Proof using.
  clear L. intros Hc. unfold Syscall.usertrapret, myproc. wstep. wstep. wstep. rewrite Hc. cbn [nonnull]. wstep. wstep. wstep. do 4 (wstep; apply wp_onkm; unfold sd; wstep).
  wstep. apply wp_onkm. unfold ld. wstep. wstep. eexists. split; [|split; reflexivity]. done.
Qed.
Lemma usertrap_spec s p r s2 sstatus sepc : cur s = Some p -> Z.land sstatus SSTATUS_SPP = 0 -> 0 <= sepc < 2 ^ 64 -> p_killed (getp s p) = 0 ->
  handler (i32 (load64 (ram (km s)) (p_trapframe (getp s p) + tf_a7))) (KSt [] (trapped s p sepc)) = Ok r (KSt [] s2) ->
  cur s2 = Some p -> p_trapframe (getp s2 p) = p_trapframe (getp s p) -> p_killed (getp s2 p) = 0 ->
  wp (usertrap sstatus 8 sepc) (KSt [] s) (fun x k => k = KSt [] (back s2 p r) /\
    x = (Z.lor (Z.land sstatus (Z.lnot SSTATUS_SPP)) SSTATUS_SPIE, load64 (ram (km s2)) (p_trapframe (getp s p) + tf_epc), MAKE_SATP (p_pagetable (getp s2 p)))).
Proof using.
  clear L. intros Hc Hspp Hpc Hk Hh Hc2 Htf Hk2. unfold Syscall.usertrap, myproc, killed. rewrite Hspp, Z.eqb_refl. cbn [negb]. wstep. wstep. wstep. rewrite Hc. cbn [nonnull]. wstep. wstep. wstep. set (tf := p_trapframe (getp s p)) in *.
  wstep. apply wp_onkm. unfold sd at 1. wstep. wstep. rewrite Z.eqb_refl. do 3 wstep. rewrite getp_km, Hk, Z.eqb_refl. cbn [negb]. wstep. wstep. apply wp_onkm. unfold ld. wstep. wstep. apply wp_onkm. unfold sd at 1. wstep.
  cbn [ram km with_km freelist]. rewrite load_store64_eq by done.
  match goal with |- wp _ (KSt [] ?x) _ => change x with (trapped s p sepc) end.
  wstep. eapply wp_mono; [eapply (syscall_spec (trapped s p sepc) p r s2); [exact Hc|change (p_trapframe (getp (trapped s p sepc) p)) with (p_trapframe (getp s p)); by rewrite trapped_a7]|]. intros _ k ->. change (p_trapframe (getp (trapped s p sepc) p)) with tf. wstep. wstep. wstep. rewrite getp_km, Hk2, Z.eqb_refl. cbn [negb]. do 3 wstep. change (0 =? 2) with false. cbv iota. wstep.
  eapply wp_mono; [by eapply usertrapret_spec|]. intros x k (m & -> & -> & Em). cbn [ram km with_km freelist] in *. rewrite getp_km, Htf in *.
  change (km (with_km ?a ?b)) with a in Em. cbn [ram] in Em. split.
  - unfold back, returned. rewrite Htf. fold tf. by rewrite Em.
  - f_equal. f_equal. rewrite Em. unfold tf_kernel_satp, tf_kernel_sp, tf_kernel_trap, tf_kernel_hartid, tf_epc, tf_a0. by rewrite !load_store64_ne by lia.
Qed.

(** C11: a system call, from ecall to sret.  When a process that is not killed executes ecall, and
    the handler that syscall finds for the number in a7 (-1 is the result for a number that has
    none) returns in a state with the invariant, with the process still running and not
    killed, then usertrap does not panic and the process is back in user mode: at the saved
    epc, which is the instruction after the ecall unless the handler, as exec does, has set
    another; with the handler's result in a0 and all other user registers as the handler left
    them; on its own page table; with interrupts on and supervisor mode left.  No page but the
    trap frame has changed since the handler returned, and the invariant holds. *)
Theorem syscall_returns s s2 A p r sstatus sepc (tf := p_trapframe (getp s p)) (num := i32 (load64 (ram (km s)) (tf + tf_a7)))
    (Hc : cur s = Some p) (Hu : Z.land sstatus SSTATUS_SPP = 0) (Hpc : 0 <= sepc < 2 ^ 64) (Hk : p_killed (getp s p) = 0)
    (Hh : handler num (KSt [] (trapped s p sepc)) = Ok r (KSt [] s2))
    (I : proc_inv s2 A) (Hc2 : cur s2 = Some p) (Ha2 : alive s2 p) (Ht2 : p_trapframe (getp s2 p) = tf) (Hk2 : p_killed (getp s2 p) = 0) :
  load64 (ram (km (trapped s p sepc))) (tf + tf_epc) = u64 (sepc + 4) /\
  exists sstatus' s', usertrap sstatus 8 sepc (KSt [] s) = Ok (sstatus', load64 (ram (km s2)) (tf + tf_epc), MAKE_SATP (p_pagetable (getp s2 p))) (KSt [] s') /\
    (forall i, 0 <= i -> Z.testbit sstatus' i = if i =? 8 then false else if i =? 5 then true else Z.testbit sstatus i) /\
    (forall o, o mod 8 = 0 -> kernel_slot o = false -> load64 (ram (km s')) (tf + o) = if o =? tf_a0 then u64 r else load64 (ram (km s2)) (tf + o)) /\
    (forall q, q ∈ users s2 A -> q <> tf -> same_page (ram (km s2)) (ram (km s')) q) /\
    (forall j, getp s' j = getp s2 j) /\ proc_inv s' A.
Proof using L.
  split; [unfold trapped; cbn [ram km with_km]; apply load_store64_eq, u64_range|]. destruct L as [L1 L2 L3 L4 _ _ _]. pose proof (usertrap_spec s p r s2 sstatus sepc Hc Hu Hpc Hk Hh Hc2 Ht2 Hk2) as W.
  destruct (wp_elim _ _ _ W) as (x & k & E & -> & ->). eexists _, (back s2 p r). split; [exact E|]. split; [intros i Hi; by apply sstatus_bits|].
  assert (p_trapframe (getp s2 p) ∈ users s2 A) as Hin by (apply users_frame, slots_used with s2; [apply I|apply Ha2]).
  pose proof (returned_only (ram (km s2)) tf r kernel_satp (p_kstack (getp s2 p)) usertrap_at cpuid) as Ho. split_and!.
  - intros o Ho1 Ho2. unfold back. rewrite Ht2. by apply returned_load.
  - intros q Hq Hne y Hy. unfold back. rewrite Ht2. cbn [ram km with_km]. apply Ho.
    assert (forall z, z ∈ users s2 A -> page kend z) as Hpg by (intros z Hz; apply (pmem_page kend trampoline pool R0 L1 L2 L3 K s2 A z (pi_mem _ _ _ _ _ _ _ I)); rewrite elem_of_app; by left).
    rewrite Ht2 in Hin. destruct (page_disjoint kend q tf); [by apply Hpg|by apply Hpg|done|lia|lia].
  - done.
  - apply inv_km; [done|]. destruct (pi_mem _ _ _ _ _ _ _ I) as [R Hp]. exists R. eapply (pmem_at_ext _ _ _ _ K s2); [done| |exact Hp]. eapply (mem_ok_write_page kend pool L1 L2 L3 (km s2) R _ tf); [apply Hp|rewrite elem_of_app; left; by rewrite <- Ht2|].
    unfold back. rewrite Ht2. exact Ho.
Qed.
End Trap.
