(* ===== verification/Sleeplock.v ===== *)
(** * Sleep locks (kernel/sleeplock.c)

    The routines are written once, over any state [T] that holds the lock (buffers and
    inodes both do): [get] and [set] reach the lock inside [T], [lk] names the spinlock
    that protects it.  [acquiresleep] as a function covers one pass of its loop: it
    takes a free lock, and on a held one it goes to sleep; a process that is woken
    re-tests the condition, which is the same function run again. *)
From S2P Require Import Prelude.

(** [locked] and [pid] of struct sleeplock. *)
Record sleeplock := Sleeplock { locked : bool; lpid : Z }.
Definition initsleeplock : sleeplock := Sleeplock false 0.

(** The state knows which process runs, and records the channels it has woken. *)
Class Proclike (T : Type) := { mypid : T -> Z; add_wake : chan -> T -> T }.
Definition wakeup {T} `{Proclike T} (c : chan) : M T unit := modify (add_wake c).

Section Sleeplock.
Context {T : Type} `{Proclike T}.
Variables (lk : lockid) (get : T -> sleeplock) (set : sleeplock -> T -> T).

Definition acquiresleep : M T unit :=
  acquire lk ;;
  l ← gets get;
  if locked l then sleep lk lk else
  pid ← gets mypid;
  modify (set (Sleeplock true pid)) ;;
  release lk.

Definition releasesleep : M T unit :=
  acquire lk ;;
  modify (set (Sleeplock false 0)) ;;
  wakeup lk ;;
  release lk.

Definition holdingsleep : M T bool :=
  acquire lk ;;
  l ← gets get;
  pid ← gets mypid;
  release lk ;;
  mret (locked l && (lpid l =? pid)).

Lemma wp_acquiresleep h s Q :
  lk ∉ h -> locked (get s) = false ->
  Q tt (KSt h (set (Sleeplock true (mypid s)) s)) -> wp acquiresleep (KSt h s) Q.
Proof. intros Hh Hl HQ. unfold acquiresleep. wsteps. rewrite Hl. by wsteps. Qed.

(** A held lock puts the caller to sleep on it, with no spinlock held. *)
Lemma acquiresleep_sleeps s :
  locked (get s) = true -> acquiresleep (KSt [] s) = Sleeping lk (KSt [] s).
Proof.
  intros Hl. unfold acquiresleep, acquire, mbind, M_bind. cbn [held st].
  rewrite bool_decide_eq_false_2 by set_solver. unfold gets, sleep. cbn [held st].
  rewrite Hl. by rewrite bool_decide_eq_true_2.
Qed.

Lemma wp_releasesleep h s Q :
  lk ∉ h -> Q tt (KSt h (add_wake lk (set (Sleeplock false 0) s))) -> wp releasesleep (KSt h s) Q.
Proof. intros Hh HQ. unfold releasesleep, wakeup. wsteps. by wsteps. Qed.

Lemma wp_holdingsleep h s Q :
  lk ∉ h -> Q (locked (get s) && (lpid (get s) =? mypid s)) (KSt h s) -> wp holdingsleep (KSt h s) Q.
Proof. intros Hh HQ. unfold holdingsleep. wsteps. by wsteps. Qed.
End Sleeplock.
