(* ===== verification/Bio.v ===== *)
(** * Buffer cache (kernel/bio.c)

    [bufs] holds the NBUF buffers and, at index NBUF, the list head [bcache.head];
    pointers between buffers are indices.  The disk is a map from block numbers to
    blocks, each read or written as a whole, and [writes] records the order of the
    disk writes, which is what a crash may cut short.  Blocks are byte maps from
    offsets in the block. *)
From S2P Require Import Prelude Mem Sleeplock.

Abbreviation block := mem.

Definition NBUF : Z := 30.
Definition bhead : Z := NBUF.

Record buf := Buf {
  b_valid : bool; b_dev : Z; b_blockno : Z; b_lock : sleeplock; b_refcnt : Z;
  b_prev : Z; b_next : Z; b_data : block }.
Definition buf0 : buf := Buf false 0 0 initsleeplock 0 0 0 ∅.

Definition set_valid (v : bool) (b : buf) : buf :=
  Buf v (b_dev b) (b_blockno b) (b_lock b) (b_refcnt b) (b_prev b) (b_next b) (b_data b).
Definition set_id (dev blockno : Z) (b : buf) : buf :=
  Buf (b_valid b) dev blockno (b_lock b) (b_refcnt b) (b_prev b) (b_next b) (b_data b).
Definition set_lock (l : sleeplock) (b : buf) : buf :=
  Buf (b_valid b) (b_dev b) (b_blockno b) l (b_refcnt b) (b_prev b) (b_next b) (b_data b).
Definition set_refcnt (n : Z) (b : buf) : buf :=
  Buf (b_valid b) (b_dev b) (b_blockno b) (b_lock b) n (b_prev b) (b_next b) (b_data b).
Definition set_prev (p : Z) (b : buf) : buf :=
  Buf (b_valid b) (b_dev b) (b_blockno b) (b_lock b) (b_refcnt b) p (b_next b) (b_data b).
Definition set_next (n : Z) (b : buf) : buf :=
  Buf (b_valid b) (b_dev b) (b_blockno b) (b_lock b) (b_refcnt b) (b_prev b) n (b_data b).
Definition set_data (d : block) (b : buf) : buf :=
  Buf (b_valid b) (b_dev b) (b_blockno b) (b_lock b) (b_refcnt b) (b_prev b) (b_next b) d.

Record bcache := Bcache {
  bufs : gmap Z buf; disk : gmap Z block; writes : list (Z * block);
  bpid : Z; bwoken : list chan }.

Definition bf (s : bcache) (i : Z) : buf := default buf0 (bufs s !! i).
Definition dk (s : bcache) (b : Z) : block := default ∅ (disk s !! b).
Definition upd_buf (i : Z) (f : buf -> buf) (s : bcache) : bcache :=
  Bcache (<[i := f (bf s i)]> (bufs s)) (disk s) (writes s) (bpid s) (bwoken s).
Definition write_block (b : Z) (d : block) (s : bcache) : bcache :=
  Bcache (bufs s) (<[b := d]> (disk s)) (writes s ++ [(b, d)]) (bpid s) (bwoken s).

#[export] Instance bcache_proc : Proclike bcache := {
  mypid := bpid;
  add_wake c s := Bcache (bufs s) (disk s) (writes s) (bpid s) (c :: bwoken s) }.

Definition bcache_lock : lockid := ("bcache", 0).
Definition buf_lock (i : Z) : lockid := ("sleep lock", i).
Definition lock_of (i : Z) (s : bcache) : sleeplock := b_lock (bf s i).
Definition set_lock_of (i : Z) (l : sleeplock) : bcache -> bcache := upd_buf i (set_lock l).

(** The first loop of [bget]: from the head along [next]. *)
Fixpoint find_cached (s : bcache) (dev blockno b : Z) (fuel : nat) : option Z :=
  match fuel with
  | O => None
  | S f => if b =? bhead then None
           else if (b_dev (bf s b) =? dev) && (b_blockno (bf s b) =? blockno) then Some b
           else find_cached s dev blockno (b_next (bf s b)) f
  end.
(** The second loop: from the head along [prev], to an unused buffer. *)
Fixpoint find_free (s : bcache) (b : Z) (fuel : nat) : option Z :=
  match fuel with
  | O => None
  | S f => if b =? bhead then None
           else if b_refcnt (bf s b) =? 0 then Some b
           else find_free s (b_prev (bf s b)) f
  end.

Definition bget (dev blockno : Z) : M bcache Z :=
  acquire bcache_lock ;;
  s ← gets id;
  match find_cached s dev blockno (b_next (bf s bhead)) (S (Z.to_nat NBUF)) with
  | Some b =>
    modify (upd_buf b (fun x => set_refcnt (u32 (b_refcnt x + 1)) x)) ;;
    release bcache_lock ;;
    acquiresleep (buf_lock b) (lock_of b) (set_lock_of b) ;;
    mret b
  | None =>
    match find_free s (b_prev (bf s bhead)) (S (Z.to_nat NBUF)) with
    | Some b =>
      modify (upd_buf b (fun x => set_refcnt 1 (set_valid false (set_id dev blockno x)))) ;;
      release bcache_lock ;;
      acquiresleep (buf_lock b) (lock_of b) (set_lock_of b) ;;
      mret b
    | None => panic "bget: no buffers"
    end
  end.

(** What [virtio_disk_rw] has done when it returns. *)
Definition virtio_disk_rw (b : Z) (write : bool) : M bcache unit :=
  modify (fun s => if write then write_block (b_blockno (bf s b)) (b_data (bf s b)) s
                   else upd_buf b (set_data (dk s (b_blockno (bf s b)))) s).

Definition bread (dev blockno : Z) : M bcache Z :=
  b ← bget dev blockno;
  valid ← gets (fun s => b_valid (bf s b));
  (if (valid : bool) then mret tt
   else virtio_disk_rw b false ;; modify (upd_buf b (set_valid true))) ;;
  mret b.

Definition bwrite (b : Z) : M bcache unit :=
  h ← holdingsleep (buf_lock b) (lock_of b);
  if (h : bool) then virtio_disk_rw b true else panic "bwrite".

Definition brelse (b : Z) : M bcache unit :=
  h ← holdingsleep (buf_lock b) (lock_of b);
  if negb h then panic "brelse" else
  releasesleep (buf_lock b) (set_lock_of b) ;;
  acquire bcache_lock ;;
  modify (upd_buf b (fun x => set_refcnt (u32 (b_refcnt x - 1)) x)) ;;
  r ← gets (fun s => b_refcnt (bf s b));
  (if r =? 0 then
     modify (fun s => upd_buf (b_next (bf s b)) (set_prev (b_prev (bf s b))) s) ;;
     modify (fun s => upd_buf (b_prev (bf s b)) (set_next (b_next (bf s b))) s) ;;
     modify (fun s => upd_buf b (set_next (b_next (bf s bhead))) s) ;;
     modify (upd_buf b (set_prev bhead)) ;;
     modify (fun s => upd_buf (b_next (bf s bhead)) (set_prev b) s) ;;
     modify (upd_buf bhead (set_next b))
   else mret tt) ;;
  release bcache_lock.

Definition bpin (b : Z) : M bcache unit :=
  acquire bcache_lock ;;
  modify (upd_buf b (fun x => set_refcnt (u32 (b_refcnt x + 1)) x)) ;;
  release bcache_lock.
Definition bunpin (b : Z) : M bcache unit :=
  acquire bcache_lock ;;
  modify (upd_buf b (fun x => set_refcnt (u32 (b_refcnt x - 1)) x)) ;;
  release bcache_lock.

(** [binit] threads the buffers onto the list one by one. *)
Fixpoint binit_loop (l : list Z) (s : bcache) : bcache :=
  match l with
  | [] => s
  | b :: l' =>
    let s := upd_buf b (set_next (b_next (bf s bhead))) s in
    let s := upd_buf b (set_prev bhead) s in
    let s := upd_buf b (set_lock initsleeplock) s in
    let s := upd_buf (b_next (bf s bhead)) (set_prev b) s in
    binit_loop l' (upd_buf bhead (set_next b) s)
  end.
Definition binit : M bcache unit :=
  modify (fun s => binit_loop (seqZ 0 NBUF) (upd_buf bhead (set_next bhead) (upd_buf bhead (set_prev bhead) s))).

(** A kernel client's write to the data of a buffer. *)
Definition put_data (b : Z) (d : block) : M bcache unit := modify (upd_buf b (set_data d)).
