(* ===== verification/BioSpec.v ===== *)
(** * Buffer cache: the list, and what the cache stands for

    [seg] describes the doubly linked list.  [rep d s l V D U] relates a concrete cache
    to what its clients see of device [d]: [V] the current contents of every block,
    [D] the contents on disk, [U] the blocks in use with their buffer, reference count
    and holder.  Each routine is specified by how it changes [V], [D] and [U]. *)
From S2P Require Import Prelude Mem Sleeplock Bio.
From Stdlib Require List.

Definition nx (s : bcache) (i : Z) : Z := b_next (bf s i).
Definition pv (s : bcache) (i : Z) : Z := b_prev (bf s i).

Section Seg.
(** From [x] through the elements of [l] to [e], linked both ways. *)
Fixpoint seg (n p : Z -> Z) (x : Z) (l : list Z) (e : Z) : Prop :=
  match l with
  | [] => n x = e /\ p e = x
  | y :: l' => n x = y /\ p y = x /\ seg n p y l' e
  end.

Lemma seg_app n p l1 : forall x y l2 e,
  seg n p x (l1 ++ y :: l2) e <-> seg n p x l1 y /\ seg n p y l2 e.
Proof.
  induction l1 as [|z l1 IH]; intros x y l2 e; cbn; [tauto|]. rewrite IH. tauto.
Qed.

(** The links read only [next] of all but the end and [prev] of all but the start. *)
Lemma seg_ext n p n' p' l : forall x e,
  (forall a, a ∈ x :: l -> n' a = n a) -> (forall a, a ∈ l ++ [e] -> p' a = p a) ->
  seg n p x l e -> seg n' p' x l e.
Proof.
  induction l as [|y l IH]; intros x e Hn Hp; cbn.
  - intros [H1 H2]. rewrite Hn, Hp by set_solver. done.
  - intros (H1 & H2 & H3). rewrite Hn, Hp by set_solver. split_and!; try done.
    apply IH; [intros; apply Hn; set_solver|intros; apply Hp; set_solver|done].
Qed.

(** Last element before the end. *)
Lemma seg_last n p l : forall x e, seg n p x l e -> p e = default x (last l) /\ n (default x (last l)) = e.
Proof.
  induction l as [|y l IH]; intros x e; [cbn; tauto|].
  intros (H1 & H2 & H3). apply IH in H3. rewrite last_cons. by destruct (last l).
Qed.
Lemma seg_first n p x l e : seg n p x l e -> n x = hd e l /\ p (hd e l) = x.
Proof. destruct l; cbn; tauto. Qed.
End Seg.

(** Updating one place of a function. *)

(** [brelse]'s six assignments move [b] from its place to the front. *)
Definition relinked (n p : Z -> Z) (h b : Z) : (Z -> Z) * (Z -> Z) :=
  let p1 := fupd p (n b) (p b) in
  let n1 := fupd n (p1 b) (n b) in
  let n2 := fupd n1 b (n1 h) in
  let p2 := fupd p1 b h in
  let p3 := fupd p2 (n2 h) b in
  (fupd n2 h b, p3).

Lemma seg_join n p l1 : forall x b l2 e,
  seg n p x l1 b -> seg n p b l2 e -> NoDup (x :: l1 ++ l2) -> e ∉ l1 ++ l2 ->
  seg (fupd n (default x (last l1)) (hd e l2)) (fupd p (hd e l2) (default x (last l1))) x (l1 ++ l2) e.
Proof.
  induction l1 as [|z l1 IH]; intros x b l2 e H1 H2 Hnd He.
  - cbn in *. destruct l2 as [|y l2]; cbn; rewrite !fupd_eq; [done|]. split_and!; try done.
    destruct H2 as (_ & _ & H2). apply NoDup_cons in Hnd as [Hx Hnd]. apply NoDup_cons in Hnd as [Hy _].
    eapply seg_ext; [..|exact H2]; intros a Ha; rewrite fupd_ne; set_solver.
  - cbn in H1. destruct H1 as (E1 & E2 & H1). apply NoDup_cons in Hnd as [Hx Hnd].
    assert (default x (last (z :: l1)) = default z (last l1)) as -> by (rewrite last_cons; by destruct (last l1)).
    assert (default z (last l1) ∈ z :: l1) as Hlast.
    { destruct (last l1) as [w|] eqn:E; cbn; [|set_solver]. apply last_Some_elem_of in E. set_solver. }
    assert (z <> hd e l2) as Hz.
    { apply NoDup_cons in Hnd as [Hz _]. destruct l2; cbn in *; set_solver. }
    cbn [app seg]. rewrite (fupd_ne n) by (intros ->; apply Hx, elem_of_app; by left). rewrite (fupd_ne p) by done.
    split_and!; try done. eapply IH; eauto. set_solver.
Qed.

Lemma seg_push n p h b l :
  seg n p h l h -> NoDup (h :: l) -> b ∉ h :: l ->
  seg (fupd (fupd n b (n h)) h b) (fupd (fupd p b h) (n h) b) h (b :: l) h.
Proof.
  intros Hs Hnd Hb. assert (h <> b) by set_solver. pose proof (seg_first _ _ _ _ _ Hs) as [Hh _].
  assert (b <> n h) by (rewrite Hh; destruct l; cbn; set_solver).
  cbn [seg]. rewrite fupd_eq, (fupd_ne _ (n h) _ b), fupd_eq by done. split_and!; try done.
  destruct l as [|y l]; cbn in Hs, Hh |- *; rewrite (fupd_ne _ h _ b), !fupd_eq by done.
  - rewrite Hh, fupd_eq. done.
  - rewrite Hh, fupd_eq. split_and!; try done. destruct Hs as (_ & _ & Hs).
    apply NoDup_cons in Hnd as [Hhl Hnd]. apply NoDup_cons in Hnd as [Hy _].
    eapply seg_ext; [..|exact Hs]; intros a Ha; rewrite !fupd_ne; set_solver.
Qed.

Lemma seg_relinked n p h b l1 l2 :
  seg n p h (l1 ++ b :: l2) h -> NoDup (h :: l1 ++ b :: l2) ->
  seg (fst (relinked n p h b)) (snd (relinked n p h b)) h (b :: l1 ++ l2) h.
Proof.
  intros Hs Hnd. apply seg_app in Hs as [H1 H2].
  destruct (seg_last _ _ _ _ _ H1) as [Hp _]. destruct (seg_first _ _ _ _ _ H2) as [Hn _].
  assert (NoDup (h :: l1 ++ l2) /\ b ∉ h :: l1 ++ l2) as [Hnd' Hb].
  { rewrite <- Permutation_middle in Hnd. rewrite (Permutation_swap b h) in Hnd.
    apply NoDup_cons in Hnd as [? ?]. done. }
  assert (b <> n b) as Hbn by (rewrite Hn; destruct l2; cbn; set_solver).
  assert (h <> b) by set_solver.
  pose proof (seg_join n p l1 h b l2 h H1 H2 Hnd' ltac:(apply NoDup_cons in Hnd'; set_solver)) as Hj.
  rewrite <- Hp, <- Hn in Hj. unfold relinked. cbn [fst snd].
  rewrite (fupd_ne p (n b) _ b) by done.
  rewrite (fupd_ne _ b _ h) by done. by apply seg_push.
Qed.

(** ** Reading an updated cache *)

Lemma bf_upd i f s j : bf (upd_buf i f s) j = if j =? i then f (bf s i) else bf s j.
Proof.
  unfold bf at 1, upd_buf. cbn. destruct (Z.eqb_spec j i) as [->|Hne].
  - by rewrite lookup_insert_eq.
  - by rewrite lookup_insert_ne.
Qed.
Lemma bf_upd_eq i f s : bf (upd_buf i f s) i = f (bf s i).
Proof. rewrite bf_upd. by rewrite Z.eqb_refl. Qed.
Lemma bf_upd_ne i f s j : j <> i -> bf (upd_buf i f s) j = bf s j.
Proof. intros H. rewrite bf_upd. by destruct (Z.eqb_spec j i). Qed.
Lemma dk_upd i f s b : dk (upd_buf i f s) b = dk s b.
Proof. done. Qed.
Lemma dk_write b d s c : dk (write_block b d s) c = fupd (dk s) b d c.
Proof.
  unfold dk, write_block, fupd. cbn. destruct (Z.eqb_spec c b) as [->|].
  - by rewrite lookup_insert_eq.
  - by rewrite lookup_insert_ne.
Qed.

(** ** The list, and the two searches over it *)

Definition dll (s : bcache) (l : list Z) : Prop :=
  NoDup (bhead :: l) /\ l ≡ₚ seqZ 0 NBUF /\ seg (nx s) (pv s) bhead l bhead.

Lemma dll_ext s s' l :
  (forall i, nx s' i = nx s i) -> (forall i, pv s' i = pv s i) -> dll s l -> dll s' l.
Proof. intros Hn Hp (H1 & H2 & H3). split_and!; try done. eapply seg_ext; eauto. Qed.

Lemma dll_elem s l i : dll s l -> i ∈ l <-> 0 <= i < NBUF.
Proof. intros (_ & Hp & _). rewrite Hp, elem_of_seqZ. lia. Qed.
Lemma dll_length s l : dll s l -> length l = Z.to_nat NBUF.
Proof. intros (_ & Hp & _). by rewrite Hp, length_seqZ. Qed.

Definition caches (s : bcache) (dev blockno : Z) (i : Z) : bool :=
  (b_dev (bf s i) =? dev) && (b_blockno (bf s i) =? blockno).

Lemma find_cached_seg s dev blockno l : forall x f,
  seg (nx s) (pv s) x l bhead -> bhead ∉ l -> (length l < f)%nat ->
  find_cached s dev blockno (nx s x) f = List.find (caches s dev blockno) l.
Proof.
  induction l as [|y l IH]; intros x f Hs Hh Hf; (destruct f as [|f]; [cbn in Hf; lia|]); cbn [find_cached].
  - destruct Hs as [-> _]. by rewrite Z.eqb_refl.
  - destruct Hs as (-> & _ & Hs). destruct (Z.eqb_spec y bhead) as [->|]; [set_solver|].
    cbn [List.find]. fold (caches s dev blockno y). destruct (caches s dev blockno y); [done|].
    apply IH; [done|set_solver|cbn in Hf; lia].
Qed.

Lemma find_free_seg s l : forall e f,
  seg (nx s) (pv s) bhead l e -> bhead ∉ l -> (length l < f)%nat ->
  find_free s (pv s e) f = List.find (fun i => b_refcnt (bf s i) =? 0) (rev l).
Proof.
  induction l as [|y l IH] using rev_ind; intros e f Hs Hh Hf.
  - destruct f; [cbn in Hf; lia|]. destruct Hs as [_ ->]. done.
  - rewrite length_app in Hf. cbn in Hf. destruct f as [|f]; [lia|].
    apply seg_app in Hs as [Hs [_ ->]]. rewrite rev_unit. cbn [find_free List.find].
    destruct (Z.eqb_spec y bhead) as [->|]; [set_solver|].
    destruct (b_refcnt (bf s y) =? 0); [done|]. apply IH; [done|set_solver|lia].
Qed.

(** ** What the cache stands for *)

Record use := Use { u_idx : Z; u_refs : Z; u_lock : sleeplock; u_valid : bool }.

Section Rep.
Variable d : Z.

(** Buffer [i], holding [x], agrees with the view. A buffer nobody references is
    unlocked and clean. *)
Definition buf_ok (V D : Z -> block) (U : gmap Z use) (i : Z) (x : buf) : Prop :=
  (b_dev x <> d /\ b_refcnt x = 0 /\ b_lock x = initsleeplock) \/
  (b_dev x = d /\ 0 <= b_refcnt x < 2 ^ 32 /\
   V (b_blockno x) = (if b_valid x then b_data x else D (b_blockno x)) /\
   (b_refcnt x = 0 -> b_lock x = initsleeplock /\ V (b_blockno x) = D (b_blockno x) /\ U !! b_blockno x = None) /\
   (b_refcnt x <> 0 -> U !! b_blockno x = Some (Use i (b_refcnt x) (b_lock x) (b_valid x)))).

Definition at_block (s : bcache) (i b : Z) : Prop :=
  0 <= i < NBUF /\ b_dev (bf s i) = d /\ b_blockno (bf s i) = b.

Record rep (s : bcache) (V D : Z -> block) (U : gmap Z use) : Prop := {
  rp_list : exists l, dll s l;
  rp_disk : forall b, dk s b = D b;
  rp_buf : forall i, 0 <= i < NBUF -> buf_ok V D U i (bf s i);
  rp_uniq : forall i j b, at_block s i b -> at_block s j b -> i = j;
  rp_use : forall b u, U !! b = Some u -> at_block s (u_idx u) b /\ b_refcnt (bf s (u_idx u)) <> 0;
  rp_view : forall b, (forall i, ~ at_block s i b) -> V b = D b;
}.

Lemma buf_ok_ext V D U V' D' U' i x :
  V' (b_blockno x) = V (b_blockno x) -> D' (b_blockno x) = D (b_blockno x) ->
  U' !! b_blockno x = U !! b_blockno x -> buf_ok V D U i x -> buf_ok V' D' U' i x.
Proof. unfold buf_ok. by intros -> -> ->. Qed.

(** Changing the buffer of block [b], other than its identity. *)
Lemma rep_set s V D U s' V' D' U' i b :
  rep s V D U -> at_block s i b -> at_block s' i b ->
  (forall j, j <> i -> bf s' j = bf s j) ->
  (exists l, dll s' l) -> (forall c, dk s' c = D' c) ->
  (forall c, c <> b -> V' c = V c /\ D' c = D c /\ U' !! c = U !! c) ->
  buf_ok V' D' U' i (bf s' i) ->
  rep s' V' D' U'.
Proof.
  intros R Hi Hi' Hne Hl Hd Hoth Hb.
  assert (forall j c, at_block s' j c <-> at_block s j c) as Hat.
  { intros j c. destruct (decide (j = i)) as [->|Hj].
    - unfold at_block in *. naive_solver.
    - unfold at_block. by rewrite Hne. }
  split; try done.
  - intros j Hj. destruct (decide (j = i)) as [->|Hj']; [done|]. rewrite Hne by done.
    pose proof (rp_buf _ _ _ _ R j Hj) as Hok. destruct (decide (b_dev (bf s j) = d)) as [Ed|Ed].
    + destruct (Hoth (b_blockno (bf s j))) as (H1 & H2 & H3); [|by eapply buf_ok_ext].
      intros Eb. apply Hj'. eapply (rp_uniq _ _ _ _ R); [|exact Hi]. by split.
    + destruct Hok as [Hok|Hok]; [by left|naive_solver].
  - intros j k c. rewrite !Hat. apply (rp_uniq _ _ _ _ R).
  - intros c u Hc. rewrite Hat. destruct (decide (c = b)) as [->|Hcb].
    + destruct Hi' as (Hr' & Ed' & Eb'). destruct Hb as [Hb|(_ & _ & _ & Hb0 & Hb)]; [naive_solver|].
      rewrite Eb' in *. destruct (decide (b_refcnt (bf s' i) = 0)) as [E0|E0].
      * rewrite Hc in Hb0. naive_solver.
      * rewrite Hb in Hc by done. injection Hc as <-. done.
    + destruct (Hoth c Hcb) as (_ & _ & H3). rewrite H3 in Hc. apply (rp_use _ _ _ _ R) in Hc as [H1 H2].
      split; [done|]. rewrite Hne; [done|]. intros E. rewrite E in H1. apply Hcb.
      destruct H1 as (_ & _ & <-), Hi as (_ & _ & <-). done.
  - intros c Hc. assert (c <> b) as Hcb by (intros ->; by apply (Hc i)).
    destruct (Hoth c Hcb) as (-> & -> & _). apply (rp_view _ _ _ _ R). intros j. rewrite <- Hat. apply Hc.
Qed.

(** What an entry of [U] says about its buffer. *)
Lemma rep_use s V D U b u : rep s V D U -> U !! b = Some u ->
  at_block s (u_idx u) b /\ b_refcnt (bf s (u_idx u)) = u_refs u /\ 0 < u_refs u < 2 ^ 32 /\
  b_lock (bf s (u_idx u)) = u_lock u /\ b_valid (bf s (u_idx u)) = u_valid u /\
  V b = (if u_valid u then b_data (bf s (u_idx u)) else D b).
Proof.
  intros R Hu. destruct (rp_use _ _ _ _ R b u Hu) as [Hat Hr]. pose proof Hat as (Hi & Ed & Eb).
  destruct (rp_buf _ _ _ _ R _ Hi) as [Hok|(_ & H1 & H2 & _ & H3)]; [naive_solver|].
  rewrite Eb, Hu in *. specialize (H3 Hr). injection H3 as E.
  pose proof (f_equal u_refs E) as E1. pose proof (f_equal u_lock E) as E2.
  pose proof (f_equal u_valid E) as E3. cbn in E1, E2, E3. rewrite E1, E2, E3 in *.
  split_and!; done || lia.
Qed.

(** [f] leaves links and identity of [x] alone. *)
Definition keeps (f : buf -> buf) (x : buf) : Prop :=
  b_prev (f x) = b_prev x /\ b_next (f x) = b_next x /\
  b_dev (f x) = b_dev x /\ b_blockno (f x) = b_blockno x.

Lemma rep_upd s V D U f V' U' i b :
  rep s V D U -> at_block s i b -> keeps f (bf s i) ->
  (forall c, c <> b -> V' c = V c /\ U' !! c = U !! c) ->
  buf_ok V' D U' i (f (bf s i)) -> rep (upd_buf i f s) V' D U'.
Proof.
  intros R Hi (K1 & K2 & K3 & K4) Hoth Hb. eapply (rep_set s V D U); eauto.
  - unfold at_block in *. by rewrite bf_upd_eq, K3, K4.
  - intros j Hj. by apply bf_upd_ne.
  - destruct (rp_list _ _ _ _ R) as [l Hl]. exists l. eapply dll_ext; [..|exact Hl];
      intros j; unfold nx, pv; rewrite bf_upd; destruct (Z.eqb_spec j i) as [->|]; done.
  - apply R.
  - intros c Hc. destruct (Hoth c Hc). done.
  - by rewrite bf_upd_eq.
Qed.

(** [rep] does not see the recorded wake-ups, nor the write record. *)
Lemma rep_same s s' V D U :
  bufs s' = bufs s -> disk s' = disk s -> rep s V D U -> rep s' V D U.
Proof.
  intros Eb Ed [H1 H2 H3 H4 H5 H6].
  assert (forall i, bf s' i = bf s i) as Hbf by (intros; unfold bf; by rewrite Eb).
  assert (forall j c, at_block s' j c <-> at_block s j c) as Hat by (intros; unfold at_block; by rewrite Hbf).
  split.
  - destruct H1 as [l Hl]. exists l. eapply dll_ext; [..|exact Hl]; intros j; unfold nx, pv; by rewrite Hbf.
  - intros b. rewrite <- H2. unfold dk. by rewrite Ed.
  - intros i Hi. rewrite Hbf. by apply H3.
  - intros i j b. rewrite !Hat. apply H4.
  - intros b u Hu. rewrite Hat, Hbf. by apply H5.
  - intros b Hb. apply H6. intros i. rewrite <- Hat. apply Hb.
Qed.

(** What the operations leave alone. *)
Definition quiet (s s' : bcache) : Prop := writes s' = writes s /\ bpid s' = bpid s.

Lemma wp_lock_buf s V D U b i r v Q :
  rep s V D U -> U !! b = Some (Use i r (Sleeplock false 0) v) ->
  (forall s', rep s' V D (<[b := Use i r (Sleeplock true (bpid s)) v]> U) -> quiet s s' ->
     Q tt (KSt [] s')) ->
  wp (acquiresleep (buf_lock i) (lock_of i) (set_lock_of i)) (KSt [] s) Q.
Proof.
  intros R Hu HQ. destruct (rep_use _ _ _ _ _ _ R Hu) as (Hat & Er & Hr & El & Ev & EV). cbn in *.
  apply wp_acquiresleep; [set_solver|unfold lock_of; by rewrite El|].
  apply HQ; [|done]. unfold set_lock_of. eapply rep_upd; eauto.
  - done.
  - intros c Hc. by rewrite lookup_insert_ne.
  - pose proof Hat as (Hi & Ed & Eb). right. cbn. rewrite Ed, Eb, Er, Ev, lookup_insert_eq.
    split_and!; try done; lia.
Qed.

(** If every buffer is referenced, NBUF blocks are in use. *)
Lemma rep_full s V D U : rep s V D U ->
  (forall i, 0 <= i < NBUF -> b_refcnt (bf s i) <> 0) -> (Z.to_nat NBUF <= size U)%nat.
Proof.
  intros R Hall. set (bs := (fun i => b_blockno (bf s i)) <$> seqZ 0 NBUF).
  assert (forall i, 0 <= i < NBUF -> at_block s i (b_blockno (bf s i)) /\ is_Some (U !! b_blockno (bf s i))) as Hb.
  { intros i Hi. pose proof (Hall i Hi). destruct (rp_buf _ _ _ _ R i Hi) as [Hok|(Ed & _ & _ & _ & HU)];
      [naive_solver|]. split; [done|eauto]. }
  assert (NoDup bs) as Hnd.
  { apply NoDup_fmap_2_strong; [|apply NoDup_seqZ]. intros i j Hi%elem_of_seqZ Hj%elem_of_seqZ E.
    destruct (Hb i ltac:(lia)) as [Hi' _], (Hb j ltac:(lia)) as [Hj' _]. rewrite <- E in Hj'.
    by eapply (rp_uniq _ _ _ _ R). }
  replace (Z.to_nat NBUF) with (length bs) by (unfold bs; by rewrite length_fmap, length_seqZ).
  rewrite <- (size_list_to_set (C := gset Z) bs Hnd), <- size_dom.
  apply subseteq_size. intros b Hin. apply elem_of_list_to_set, list_elem_of_fmap in Hin as (i & -> & Hi).
  apply elem_of_seqZ in Hi. apply elem_of_dom, Hb. lia.
Qed.

Lemma rep_unused s V D U b : rep s V D U -> (forall i, ~ at_block s i b) -> U !! b = None.
Proof.
  intros R Hn. destruct (U !! b) as [u|] eqn:E; [|done].
  by destruct (rp_use _ _ _ _ R b u E) as [Ha _]; apply Hn in Ha.
Qed.

(** Giving an unreferenced buffer to block [b], which no buffer caches. *)
Lemma rep_recycle s V D U i b :
  rep s V D U -> 0 <= i < NBUF -> b_refcnt (bf s i) = 0 -> (forall j, ~ at_block s j b) ->
  rep (upd_buf i (fun x => set_refcnt 1 (set_valid false (set_id d b x))) s) V D
      (<[b := Use i 1 initsleeplock false]> U).
Proof.
  intros R Hi Hr Hn. pose proof (rep_unused _ _ _ _ _ R Hn) as Hub.
  set (f := fun x => set_refcnt 1 (set_valid false (set_id d b x))).
  assert (b_lock (bf s i) = initsleeplock /\ (b_dev (bf s i) = d ->
    V (b_blockno (bf s i)) = D (b_blockno (bf s i)) /\ U !! b_blockno (bf s i) = None)) as [El Hclean].
  { destruct (rp_buf _ _ _ _ R i Hi) as [Hok|(_ & _ & _ & H0 & _)]; naive_solver. }
  assert (forall j c, j <> i -> at_block (upd_buf i f s) j c <-> at_block s j c) as Hat.
  { intros j c Hj. unfold at_block. by rewrite bf_upd_ne. }
  assert (forall c, at_block (upd_buf i f s) i c <-> c = b) as Hati.
  { intros c. unfold at_block. rewrite bf_upd_eq. cbn. naive_solver. }
  split.
  - destruct (rp_list _ _ _ _ R) as [l Hl]. exists l. eapply dll_ext; [..|exact Hl];
      intros j; unfold nx, pv; rewrite bf_upd; destruct (Z.eqb_spec j i) as [->|]; done.
  - apply R.
  - intros j Hj. rewrite bf_upd. destruct (Z.eqb_spec j i) as [->|Hji].
    + right. cbn. rewrite lookup_insert_eq, El. split_and!; try done. by apply (rp_view _ _ _ _ R).
    + pose proof (rp_buf _ _ _ _ R j Hj) as Hok. destruct (decide (b_dev (bf s j) = d)) as [Ed|Ed].
      * eapply buf_ok_ext; [..|exact Hok]; try done. rewrite lookup_insert_ne; [done|].
        intros Eb. apply (Hn j). by split.
      * destruct Hok as [Hok|Hok]; [by left|naive_solver].
  - intros j k c Hj Hk. destruct (decide (j = i)) as [->|Hji], (decide (k = i)) as [->|Hki]; try done.
    + apply Hati in Hj as ->. by apply Hat, Hn in Hk.
    + apply Hati in Hk as ->. by apply Hat, Hn in Hj.
    + eapply (rp_uniq _ _ _ _ R); by apply Hat.
  - intros c u Hc. destruct (decide (c = b)) as [->|Hcb].
    + rewrite lookup_insert_eq in Hc. injection Hc as <-. cbn [u_idx]. split; [by apply Hati|].
      by rewrite bf_upd_eq.
    + rewrite lookup_insert_ne in Hc by done. destruct (rp_use _ _ _ _ R c u Hc) as [Ha Hrf].
      assert (u_idx u <> i) by (intros E; rewrite E in Hrf; done).
      split; [by apply Hat|by rewrite bf_upd_ne].
  - intros c Hc. destruct (decide (at_block s i c)) as [(_ & Ed & <-)|Hnat]; [by apply Hclean|].
    apply (rp_view _ _ _ _ R). intros j Hj. destruct (decide (j = i)) as [->|Hji]; [done|].
    by apply (Hc j), Hat.
Qed.

(** References to block [b], and whether it can be locked now: in use and unlocked, or
    not in use with a buffer to spare. *)
Definition refs (U : gmap Z use) (b : Z) : Z := match U !! b with Some u => u_refs u | None => 0 end.
Definition lockable (U : gmap Z use) (b : Z) : Prop :=
  match U !! b with
  | Some u => u_lock u = initsleeplock /\ u_refs u + 1 < 2 ^ 32
  | None => (size U < Z.to_nat NBUF)%nat
  end.

(** The critical section of [bget]: the buffer found or recycled has one more
    reference and is unlocked. *)
Lemma wp_bget s V D U b Q :
  rep s V D U -> lockable U b ->
  (forall i v s', rep s' V D (<[b := Use i (refs U b + 1) (Sleeplock true (bpid s)) v]> U) ->
     (forall u, U !! b = Some u -> i = u_idx u) -> quiet s s' -> Q i (KSt [] s')) ->
  wp (bget d b) (KSt [] s) Q.
Proof.
  intros R Hlk HQ. unfold bget. wsteps. unfold id. destruct (rp_list _ _ _ _ R) as [l Hl].
  pose proof Hl as (Hnd & Hp & Hseg). apply NoDup_cons in Hnd as [Hh Hnd]. pose proof (dll_length _ _ Hl) as Hlen.
  fold (nx s bhead). rewrite (find_cached_seg s d b l) by (done || lia).
  assert (forall i U', (exists r v, U' = <[b := Use i r initsleeplock v]> U /\ r = refs U b + 1) ->
    (forall u, U !! b = Some u -> i = u_idx u) -> forall f, rep (upd_buf i f s) V D U' ->
    wp (acquiresleep (buf_lock i) (lock_of i) (set_lock_of i)) (KSt [] (upd_buf i f s))
      (fun _ k => wp (mret i) k Q)) as Hfin.
  { intros i U' (r & v & -> & ->) Hidx f R'.
    eapply wp_lock_buf; [exact R'|apply lookup_insert_eq|]. intros s' R2 Hq.
    rewrite insert_insert_eq in R2. wstep. by eapply HQ. }
  destruct (List.find (caches s d b) l) as [i|] eqn:Ef.
  - apply List.find_some in Ef as [Hin Hc]. apply list_elem_of_In, (dll_elem _ _ _ Hl) in Hin.
    apply andb_true_iff in Hc as [Ed%Z.eqb_eq Eb%Z.eqb_eq]. assert (at_block s i b) as Hat by done.
    wsteps. eapply Hfin; [by eexists _, (b_valid (bf s i))| |].
    { intros u Hu. eapply (rp_uniq _ _ _ _ R); [exact Hat|by apply (rp_use _ _ _ _ R)]. }
    assert (b_lock (bf s i) = initsleeplock /\ refs U b = b_refcnt (bf s i) /\ b_refcnt (bf s i) + 1 < 2 ^ 32 /\
      0 <= b_refcnt (bf s i)) as (El & Er & Hr & Hr0).
    { unfold lockable, refs in *. destruct (rp_buf _ _ _ _ R i Hin) as [Hok|(_ & H1 & _ & H0 & H2)]; [naive_solver|].
      rewrite Eb in *. destruct (decide (b_refcnt (bf s i) = 0)) as [E0|E0].
      - destruct (H0 E0) as (-> & _ & ->). split_and!; done || lia.
      - specialize (H2 E0). rewrite H2 in *. cbn in *. split_and!; try lia. by destruct Hlk. }
    eapply rep_upd; eauto.
    + done.
    + intros c Hc. by rewrite lookup_insert_ne.
    + right. cbn. rewrite Ed, Eb, u32_small, lookup_insert_eq, El, Er by lia.
      split_and!; try done; try lia. destruct (rp_buf _ _ _ _ R i Hin) as [Hok|(_ & _ & HV & _)]; [naive_solver|].
      by rewrite Eb in HV.
  - assert (forall i, ~ at_block s i b) as Hno.
    { intros i (Hi & Ed & Eb). apply (dll_elem _ _ _ Hl), list_elem_of_In in Hi.
      pose proof (List.find_none _ _ Ef i Hi) as Hc. unfold caches in Hc. by rewrite Ed, Eb, !Z.eqb_refl in Hc. }
    pose proof (rep_unused _ _ _ _ _ R Hno) as Hub. unfold lockable in Hlk. rewrite Hub in Hlk.
    fold (pv s bhead). rewrite (find_free_seg s l bhead) by (done || lia).
    destruct (List.find _ (rev l)) as [i|] eqn:Eg.
    + apply List.find_some in Eg as [Hin E0%Z.eqb_eq].
      rewrite <- List.in_rev in Hin. apply list_elem_of_In, (dll_elem _ _ _ Hl) in Hin.
      wsteps. eapply Hfin; [|by rewrite Hub|by apply rep_recycle]. unfold refs. rewrite Hub. by eexists _, _.
    + exfalso. assert (Z.to_nat NBUF <= size U)%nat; [|lia]. eapply rep_full; eauto. intros i Hi.
      apply (dll_elem _ _ _ Hl), list_elem_of_In in Hi. rewrite List.in_rev in Hi.
      by apply Z.eqb_neq, (List.find_none _ _ Eg).
Qed.

(** ** The routines of the interface *)

(** [bread] locks the block's buffer and fills it; view and disk are unchanged. *)
Lemma wp_bread s V D U b Q :
  rep s V D U -> lockable U b ->
  (forall i s', rep s' V D (<[b := Use i (refs U b + 1) (Sleeplock true (bpid s)) true]> U) ->
     (forall u, U !! b = Some u -> i = u_idx u) -> quiet s s' -> Q i (KSt [] s')) ->
  wp (bread d b) (KSt [] s) Q.
Proof.
  intros R Hlk HQ. unfold bread. wstep. eapply wp_bget; eauto. intros i v s1 R1 Hidx Hq1. wsteps.
  destruct (rep_use _ _ _ _ _ _ R1 (lookup_insert_eq _ _ _)) as ((Hi & Ed & Eb) & Er & Hr & El & Ev & EV).
  cbn in *. rewrite Ev. destruct v.
  - wsteps. by eapply HQ.
  - unfold virtio_disk_rw. wsteps. eapply HQ; [|done|done].
    set (U1 := <[b := _]> U) in R1. set (U2 := <[b := _]> U).
    assert (forall c, c <> b -> V c = V c /\ U2 !! c = U1 !! c) as Hoth
      by (intros c Hc; unfold U1, U2; by rewrite !lookup_insert_ne).
    assert (rep (upd_buf i (fun x => set_valid true (set_data (V b) x)) s1) V D U2) as R2.
    { eapply rep_upd; eauto; [by split|done|]. right. unfold U2. cbn.
      rewrite Ed, Eb, Er, El, lookup_insert_eq. split_and!; try done; lia. }
    eapply rep_same; [..|exact R2]; [|done]. cbn. rewrite bf_upd_eq, insert_insert_eq.
    do 3 f_equal. rewrite (rp_disk _ _ _ _ R1), Eb. by rewrite EV.
Qed.

Lemma rep_held_lock s V D U b u : rep s V D U -> U !! b = Some u ->
  u_lock u = Sleeplock true (bpid s) ->
  locked (lock_of (u_idx u) s) && (lpid (lock_of (u_idx u) s) =? mypid s) = true.
Proof.
  intros R Hu Hl. destruct (rep_use _ _ _ _ _ _ R Hu) as (_ & _ & _ & El & _). unfold lock_of.
  rewrite El, Hl. cbn. by rewrite Z.eqb_refl.
Qed.

(** The holder changes the contents. *)
Lemma rep_put_data s V D U b i r l x :
  rep s V D U -> U !! b = Some (Use i r l true) ->
  rep (upd_buf i (set_data x) s) (fupd V b x) D U.
Proof.
  intros R Hu. destruct (rep_use _ _ _ _ _ _ R Hu) as (Hat & Er & Hr & El & Ev & EV).
  pose proof Hat as (Hi & Ed & Eb). cbn in *. eapply rep_upd; eauto.
  - done.
  - intros c Hc. by rewrite fupd_ne.
  - right. cbn. rewrite Ed, Eb, Er, El, Ev, fupd_eq. split_and!; try done; lia.
Qed.

(** [bwrite] makes the disk agree with the view and records one disk write. *)
Lemma wp_bwrite s V D U b i r Q :
  rep s V D U -> U !! b = Some (Use i r (Sleeplock true (bpid s)) true) ->
  (forall s', rep s' V (fupd D b (V b)) U -> writes s' = writes s ++ [(b, V b)] -> bpid s' = bpid s ->
     Q tt (KSt [] s')) ->
  wp (bwrite i) (KSt [] s) Q.
Proof.
  intros R Hu HQ. destruct (rep_use _ _ _ _ _ _ R Hu) as (Hat & Er & Hr & El & Ev & EV).
  pose proof Hat as (Hi & Ed & Eb). cbn in *.
  pose proof (rep_held_lock _ _ _ _ _ _ R Hu eq_refl) as Hh. cbn [u_idx] in Hh.
  unfold bwrite. wstep. apply wp_holdingsleep; [set_solver|]. rewrite Hh. unfold virtio_disk_rw. wstep.
  rewrite Eb, <- EV. apply HQ; try done.
  eapply (rep_set s V D U); eauto.
  - destruct (rp_list _ _ _ _ R) as [l Hl]. by exists l.
  - intros c. rewrite dk_write. unfold fupd. destruct (c =? b); [done|apply R].
  - intros c Hc. by rewrite fupd_ne.
  - change (bf (write_block b (V b) s) i) with (bf s i). right. rewrite Ed, Eb, Er, El, Ev, fupd_eq.
    split_and!; try done; lia.
Qed.

Lemma wp_bpin h s V D U b i r l v Q :
  rep s V D U -> bcache_lock ∉ h -> U !! b = Some (Use i r l v) -> r + 1 < 2 ^ 32 ->
  (forall s', rep s' V D (<[b := Use i (r + 1) l v]> U) -> quiet s s' -> Q tt (KSt h s')) ->
  wp (bpin i) (KSt h s) Q.
Proof.
  intros R Hlk Hu Hr1 HQ. destruct (rep_use _ _ _ _ _ _ R Hu) as (Hat & Er & Hr & El & Ev & EV).
  pose proof Hat as (Hi & Ed & Eb). cbn in *. unfold bpin. wsteps. apply HQ; [|done].
  eapply rep_upd; eauto; [done|intros c Hc; by rewrite lookup_insert_ne|].
  right. cbn. rewrite Ed, Eb, Er, El, Ev, u32_small, lookup_insert_eq by lia. split_and!; try done; lia.
Qed.

Lemma wp_bunpin h s V D U b i r l v Q :
  rep s V D U -> bcache_lock ∉ h -> U !! b = Some (Use i r l v) -> 1 < r ->
  (forall s', rep s' V D (<[b := Use i (r - 1) l v]> U) -> quiet s s' -> Q tt (KSt h s')) ->
  wp (bunpin i) (KSt h s) Q.
Proof.
  intros R Hlk Hu Hr1 HQ. destruct (rep_use _ _ _ _ _ _ R Hu) as (Hat & Er & Hr & El & Ev & EV).
  pose proof Hat as (Hi & Ed & Eb). cbn in *. unfold bunpin. wsteps. apply HQ; [|done].
  eapply rep_upd; eauto; [done|intros c Hc; by rewrite lookup_insert_ne|].
  right. cbn. rewrite Ed, Eb, Er, El, Ev, u32_small, lookup_insert_eq by lia. split_and!; try done; lia.
Qed.

(** ** Release, and the move to the front of the list *)

(** [s'] differs from [s] in links only. *)
Definition only_links (s s' : bcache) : Prop :=
  forall j, bf s' j = set_prev (pv s' j) (set_next (nx s' j) (bf s j)).

Lemma only_links_refl s : only_links s s.
Proof. intros j. unfold pv, nx. by destruct (bf s j). Qed.
Lemma only_links_next s s' a v : only_links s s' -> only_links s (upd_buf a (set_next v) s').
Proof.
  intros H j. unfold pv, nx. rewrite bf_upd. destruct (Z.eqb_spec j a) as [->|]; [|apply H].
  rewrite (H a) at 1. done.
Qed.
Lemma only_links_prev s s' a v : only_links s s' -> only_links s (upd_buf a (set_prev v) s').
Proof.
  intros H j. unfold pv, nx. rewrite bf_upd. destruct (Z.eqb_spec j a) as [->|]; [|apply H].
  rewrite (H a) at 1. done.
Qed.

Lemma rep_links s s' V D U l :
  rep s V D U -> only_links s s' -> disk s' = disk s -> dll s' l -> rep s' V D U.
Proof.
  intros R Ho Ed Hl.
  assert (forall j c, at_block s' j c <-> at_block s j c) as Hat
    by (intros; unfold at_block; by rewrite (Ho j)).
  split.
  - by exists l.
  - intros b. rewrite <- (rp_disk _ _ _ _ R). unfold dk. by rewrite Ed.
  - intros j Hj. rewrite (Ho j). by apply (rp_buf _ _ _ _ R j).
  - intros i j b. rewrite !Hat. apply R.
  - intros b u Hu. rewrite Hat, (Ho (u_idx u)). by apply (rp_use _ _ _ _ R).
  - intros b Hb. apply (rp_view _ _ _ _ R). intros i. rewrite <- Hat. apply Hb.
Qed.

Lemma nx_next s a v j : nx (upd_buf a (set_next v) s) j = fupd (nx s) a v j.
Proof. unfold nx, fupd. rewrite bf_upd. by destruct (Z.eqb_spec j a) as [->|]. Qed.
Lemma nx_prev s a v j : nx (upd_buf a (set_prev v) s) j = nx s j.
Proof. unfold nx. rewrite bf_upd. by destruct (Z.eqb_spec j a) as [->|]. Qed.
Lemma pv_prev s a v j : pv (upd_buf a (set_prev v) s) j = fupd (pv s) a v j.
Proof. unfold pv, fupd. rewrite bf_upd. by destruct (Z.eqb_spec j a) as [->|]. Qed.
Lemma pv_next s a v j : pv (upd_buf a (set_next v) s) j = pv s j.
Proof. unfold pv. rewrite bf_upd. by destruct (Z.eqb_spec j a) as [->|]. Qed.

Lemma fupd_ext {A} (f g : Z -> A) i v j : (forall k, f k = g k) -> fupd f i v j = fupd g i v j.
Proof. intros H. unfold fupd. by rewrite H. Qed.

Definition relink (b : Z) (s : bcache) : bcache :=
  let s := upd_buf (b_next (bf s b)) (set_prev (b_prev (bf s b))) s in
  let s := upd_buf (b_prev (bf s b)) (set_next (b_next (bf s b))) s in
  let s := upd_buf b (set_next (b_next (bf s bhead))) s in
  let s := upd_buf b (set_prev bhead) s in
  let s := upd_buf (b_next (bf s bhead)) (set_prev b) s in
  upd_buf bhead (set_next b) s.

(** The assignments compute [relinked]. *)
Lemma relink_links b s :
  (forall j, nx (relink b s) j = fst (relinked (nx s) (pv s) bhead b) j) /\
  (forall j, pv (relink b s) j = snd (relinked (nx s) (pv s) bhead b) j).
Proof.
  unfold relink, relinked. cbn [fst snd].
  set (s1 := upd_buf (b_next (bf s b)) _ s). set (p1 := fupd (pv s) _ _).
  assert (forall j, nx s1 j = nx s j) as N1 by (intros; apply nx_prev).
  assert (forall j, pv s1 j = p1 j) as P1 by (intros; apply pv_prev).
  set (s2 := upd_buf (b_prev (bf s1 b)) _ s1). set (n1 := fupd (nx s) _ _).
  assert (forall j, nx s2 j = n1 j) as N2.
  { intros j. unfold s2. rewrite nx_next. fold (pv s1 b). fold (nx s1 b). rewrite P1, N1. by apply fupd_ext. }
  assert (forall j, pv s2 j = p1 j) as P2 by (intros; unfold s2; by rewrite pv_next).
  set (s3 := upd_buf b (set_next _) s2). set (n2 := fupd n1 b _).
  assert (forall j, nx s3 j = n2 j) as N3.
  { intros j. unfold s3. rewrite nx_next. fold (nx s2 bhead). rewrite N2. by apply fupd_ext. }
  assert (forall j, pv s3 j = p1 j) as P3 by (intros; unfold s3; by rewrite pv_next).
  set (s4 := upd_buf b (set_prev _) s3). set (p2 := fupd p1 b _).
  assert (forall j, nx s4 j = n2 j) as N4 by (intros; unfold s4; by rewrite nx_prev).
  assert (forall j, pv s4 j = p2 j) as P4 by (intros; unfold s4; rewrite pv_prev; by apply fupd_ext).
  fold (nx s4 bhead). split; intros j.
  - rewrite nx_next. apply fupd_ext. intros k. by rewrite nx_prev.
  - rewrite pv_next, pv_prev, N4. by apply fupd_ext.
Qed.

Lemma relink_dll b s l : dll s l -> 0 <= b < NBUF -> exists l', dll (relink b s) l'.
Proof.
  intros Hl Hb. pose proof (proj2 (dll_elem _ _ b Hl) Hb) as Hin. destruct Hl as (Hnd & Hp & Hs).
  apply list_elem_of_split in Hin as (l1 & l2 & ->). exists (b :: l1 ++ l2).
  destruct (relink_links b s) as [Hn Hpv]. split_and!.
  - by rewrite Permutation_middle.
  - by rewrite Permutation_middle.
  - eapply seg_ext; [..|exact (seg_relinked _ _ _ _ _ _ Hs Hnd)]; intros a _; auto.
Qed.

Lemma relink_only b s : only_links s (relink b s).
Proof. unfold relink. repeat first [apply only_links_next | apply only_links_prev]. apply only_links_refl. Qed.

(** [brelse] of a held buffer: the last reference may go only if the block is clean. *)
Lemma wp_brelse s V D U b i r v Q :
  rep s V D U -> U !! b = Some (Use i r (Sleeplock true (bpid s)) v) -> (r = 1 -> V b = D b) ->
  (forall s', rep s' V D (if r =? 1 then delete b U else <[b := Use i (r - 1) initsleeplock v]> U) ->
     quiet s s' -> Q tt (KSt [] s')) ->
  wp (brelse i) (KSt [] s) Q.
Proof.
  intros R Hu Hcl HQ. destruct (rep_use _ _ _ _ _ _ R Hu) as (Hat & Er & Hr & El & Ev & EV).
  pose proof Hat as (Hi & Ed & Eb). cbn in *.
  pose proof (rep_held_lock _ _ _ _ _ _ R Hu eq_refl) as Hh. cbn [u_idx] in Hh.
  unfold brelse. wstep. apply wp_holdingsleep; [set_solver|]. rewrite Hh. cbn [negb]. wstep.
  apply wp_releasesleep; [set_solver|]. do 6 wstep.
  set (f := fun x => set_refcnt (u32 (b_refcnt x - 1)) (set_lock initsleeplock x)).
  set (U' := if r =? 1 then delete b U else <[b := Use i (r - 1) initsleeplock v]> U).
  set (s1 := add_wake (buf_lock i) (set_lock_of i (Sleeplock false 0) s)).
  assert (bf s1 i = set_lock initsleeplock (bf s i)) as E1 by exact (bf_upd_eq i _ s).
  set (s2 := upd_buf i _ s1).
  assert (rep s2 V D U') as R2.
  { assert (rep (upd_buf i f s) V D U') as R1.
    { eapply rep_upd; eauto; [done| |].
      - intros c Hc. unfold U'. by destruct (r =? 1); rewrite ?lookup_delete_ne, ?lookup_insert_ne by done.
      - right. unfold f. cbn. rewrite Ed, Eb, Er, Ev, u32_small by lia.
        split_and!; try done; try lia; unfold U'; destruct (Z.eqb_spec r 1); intros ?;
          rewrite ?lookup_delete_eq, ?lookup_insert_eq; try lia; auto. }
    eapply rep_same; [..|exact R1]; [|done]. cbn [s2 upd_buf bufs]. rewrite E1.
    cbn [s1 add_wake bcache_proc set_lock_of upd_buf bufs]. by rewrite insert_insert_eq. }
  assert (quiet s s2) as Hq2 by done.
  assert (b_refcnt (bf s2 i) = r - 1) as Er2.
  { unfold s2. rewrite bf_upd_eq, E1. cbn. rewrite Er. apply u32_small. lia. }
  rewrite Er2. destruct (Z.eqb_spec (r - 1) 0).
  - do 11 wstep.
    fold (relink i s2). wstep. apply HQ; [|done].
    destruct (rp_list _ _ _ _ R2) as [l Hl]. destruct (relink_dll i s2 l Hl Hi) as [l' Hl'].
    eapply rep_links; [exact R2|apply relink_only|done|exact Hl'].
  - wsteps. by apply HQ.
Qed.
End Rep.

(** ** Boot *)

(** After [binit] pushed the buffers [done], the list is their reverse. *)
Definition unused (x : buf) : Prop :=
  b_valid x = false /\ b_dev x = 0 /\ b_refcnt x = 0 /\ b_lock x = initsleeplock.
Definition booted (s : bcache) (l : list Z) : Prop :=
  seg (nx s) (pv s) bhead l bhead /\ forall i, unused (bf s i).

Lemma unused_upd a f s :
  (forall i, unused (bf s i)) -> (forall x, unused x -> unused (f x)) -> forall i, unused (bf (upd_buf a f s) i).
Proof. intros Hs Hf i. rewrite bf_upd. destruct (i =? a); auto. Qed.

Lemma booted_push s l b :
  booted s l -> NoDup (bhead :: l) -> b ∉ bhead :: l ->
  let s1 := upd_buf b (set_next (b_next (bf s bhead))) s in
  let s2 := upd_buf b (set_prev bhead) s1 in
  let s3 := upd_buf b (set_lock initsleeplock) s2 in
  let s4 := upd_buf (b_next (bf s3 bhead)) (set_prev b) s3 in
  booted (upd_buf bhead (set_next b) s4) (b :: l).
Proof.
  intros [Hs Hf] Hnd Hb s1 s2 s3 s4. assert (bhead <> b) as Hne by set_solver.
  assert (forall j, nx s3 j = fupd (nx s) b (nx s bhead) j) as N3.
  { intros j. unfold nx at 1, s3. rewrite bf_upd.
    assert (nx s2 j = fupd (nx s) b (nx s bhead) j) as E by (unfold s2; rewrite nx_prev; apply nx_next).
    destruct (Z.eqb_spec j b) as [->|]; exact E. }
  assert (forall j, pv s3 j = fupd (pv s) b bhead j) as P3.
  { intros j. unfold pv at 1, s3. rewrite bf_upd.
    assert (pv s2 j = fupd (pv s) b bhead j) as E.
    { unfold s2. rewrite pv_prev. apply fupd_ext. intros k. apply pv_next. }
    destruct (Z.eqb_spec j b) as [->|]; exact E. }
  assert (nx s3 bhead = nx s bhead) as Eh by (rewrite N3; by apply fupd_ne).
  split.
  - eapply seg_ext; [..|exact (seg_push _ _ _ _ _ Hs Hnd Hb)]; intros a _.
    + rewrite nx_next. apply fupd_ext. intros k. unfold s4. by rewrite nx_prev.
    + rewrite pv_next. unfold s4. rewrite pv_prev. fold (nx s3 bhead). rewrite Eh. by apply fupd_ext.
  - unfold s4, s3, s2, s1. repeat apply unused_upd; try exact Hf; intros x (? & ? & ? & ?); by split_and!.
Qed.

Lemma binit_loop_spec l : forall s acc,
  booted s acc -> NoDup (bhead :: l ++ acc) ->
  booted (binit_loop l s) (rev l ++ acc) /\ disk (binit_loop l s) = disk s /\
  writes (binit_loop l s) = writes s /\ bpid (binit_loop l s) = bpid s.
Proof.
  induction l as [|b l IH]; intros s acc Hb Hnd; [done|].
  cbn [binit_loop rev]. rewrite <- app_assoc. cbn [app].
  assert (NoDup (bhead :: acc) /\ (b ∉ bhead :: acc) /\ NoDup (bhead :: l ++ b :: acc)) as (H1 & H2 & H3).
  { cbn in Hnd. rewrite (Permutation_swap b bhead) in Hnd. apply NoDup_cons in Hnd as [Hb1 Hnd].
    split_and!; [|set_solver|].
    - apply NoDup_cons in Hnd as [? Hnd]. apply NoDup_app in Hnd as (_ & _ & ?). constructor; set_solver.
    - rewrite <- Permutation_middle, (Permutation_swap b bhead). by constructor. }
  destruct (IH _ _ (booted_push s acc b Hb H1 H2) H3) as (G1 & G2 & G3 & G4). by split_and!.
Qed.

(** The cache at boot: it caches nothing, and the view is the disk. *)
Lemma binit_rep d D w p k : d <> 0 ->
  wp binit (KSt [] (Bcache ∅ D w p k)) (fun _ k' => held k' = [] /\
    rep d (st k') (fun b => default ∅ (D !! b)) (fun b => default ∅ (D !! b)) ∅ /\
    writes (st k') = w /\ bpid (st k') = p).
Proof.
  intros Hd. unfold binit. wstep. set (s0 := upd_buf bhead _ _).
  assert (booted s0 []) as H0.
  { split; [done|]. unfold s0. repeat apply unused_upd; [done|intros x (? & ? & ? & ?); by split_and!..]. }
  destruct (binit_loop_spec (seqZ 0 NBUF) s0 [] H0) as (Hb & Ed & Ew & Ep).
  { rewrite app_nil_r. constructor; [rewrite elem_of_seqZ; unfold bhead; lia|apply NoDup_seqZ]. }
  rewrite app_nil_r in Hb. destruct Hb as [Hs Hf].
  generalize dependent (binit_loop (seqZ 0 NBUF) s0). intros s1 Hs Hf Ed Ew Ep. cbn [held st].
  split; [done|]. split; [|by rewrite Ew, Ep]. split.
  - exists (rev (seqZ 0 NBUF)). split_and!; [|by rewrite Permutation_rev|exact Hs].
    rewrite <- Permutation_rev. constructor; [rewrite elem_of_seqZ; unfold bhead; lia|apply NoDup_seqZ].
  - intros b. unfold dk. by rewrite Ed.
  - intros i _. left. destruct (Hf i) as (_ & E1 & E2 & E3). rewrite E1. by split_and!.
  - intros i j b (_ & E & _). by rewrite (proj1 (proj2 (Hf i))) in E.
  - intros b u. by rewrite lookup_empty.
  - done.
Qed.
