(* ===== verification/BioThms.v ===== *)
(** * Buffer cache: refinement of the abstract cache

    [spec] is the abstract cache of one device; [op_spec] says what each operation of
    its interface does to it, [op_ready] when a process may call it (the locking
    protocol of bio.c's header comment, and that a dirty block keeps a reference). *)
From S2P Require Import Prelude Mem Sleeplock Bio BioSpec.

Record spec := Spec { sV : Z -> block; sD : Z -> block; sU : gmap Z use }.
Definition represents (d : Z) (s : bcache) (a : spec) : Prop := rep d s (sV a) (sD a) (sU a).

Inductive bop := OpRead (b : Z) | OpPut (b : Z) (x : block) | OpWrite (b : Z) | OpRelse (b : Z)
  | OpPin (b : Z) | OpUnpin (b : Z).

(** The buffer a client got for block [b]. *)
Definition buf_of (a : spec) (b : Z) : Z := match sU a !! b with Some u => u_idx u | None => 0 end.

Definition op_code (d : Z) (a : spec) (op : bop) : M bcache Z :=
  match op with
  | OpRead b => bread d b
  | OpPut b x => put_data (buf_of a b) x ;; mret 0
  | OpWrite b => bwrite (buf_of a b) ;; mret 0
  | OpRelse b => brelse (buf_of a b) ;; mret 0
  | OpPin b => bpin (buf_of a b) ;; mret 0
  | OpUnpin b => bunpin (buf_of a b) ;; mret 0
  end.

(** Process [pid] holds the filled buffer of [b]. *)
Definition holds (pid : Z) (a : spec) (b : Z) : Prop :=
  exists i r, sU a !! b = Some (Use i r (Sleeplock true pid) true).

Definition op_ready (pid : Z) (op : bop) (a : spec) : Prop :=
  match op with
  | OpRead b => lockable (sU a) b
  | OpPut b _ | OpWrite b => holds pid a b
  | OpRelse b => holds pid a b /\ (refs (sU a) b = 1 -> sV a b = sD a b)
  | OpPin b => holds pid a b /\ refs (sU a) b + 1 < 2 ^ 32
  | OpUnpin b => holds pid a b /\ 1 < refs (sU a) b
  end.

Definition set_refs (n : Z) (u : use) : use := Use (u_idx u) n (u_lock u) (u_valid u).
Definition set_ulock (l : sleeplock) (u : use) : use := Use (u_idx u) (u_refs u) l (u_valid u).

(** The abstract effect; only the choice of buffer by [OpRead] is left open. *)
Definition op_spec (pid : Z) (op : bop) (a : spec) (i : Z) (a' : spec) : Prop :=
  let U := sU a in
  match op with
  | OpRead b =>
    a' = Spec (sV a) (sD a) (<[b := Use i (refs U b + 1) (Sleeplock true pid) true]> U)
  | OpPut b x => a' = Spec (fupd (sV a) b x) (sD a) U
  | OpWrite b => a' = Spec (sV a) (fupd (sD a) b (sV a b)) U
  | OpRelse b =>
    a' = Spec (sV a) (sD a) (if refs U b =? 1 then delete b U
                             else alter (fun u => set_ulock initsleeplock (set_refs (u_refs u - 1) u)) b U)
  | OpPin b => a' = Spec (sV a) (sD a) (alter (fun u => set_refs (u_refs u + 1) u) b U)
  | OpUnpin b => a' = Spec (sV a) (sD a) (alter (fun u => set_refs (u_refs u - 1) u) b U)
  end.

(** Disk writes the operation issues. *)
Definition op_writes (op : bop) (a : spec) : list (Z * block) :=
  match op with OpWrite b => [(b, sV a b)] | _ => [] end.

Definition as_pid (p : Z) (s : bcache) : bcache := Bcache (bufs s) (disk s) (writes s) p (bwoken s).

Lemma alter_insert_eq (U : gmap Z use) (b : Z) (u u' : use) (f : use -> use) :
  U !! b = Some u -> f u = u' -> alter f b U = <[b := u']> U.
Proof.
  intros Hu <-. apply map_eq. intros c. destruct (decide (c = b)) as [->|].
  - by rewrite lookup_alter_eq, Hu, lookup_insert_eq.
  - by rewrite lookup_alter_ne, lookup_insert_ne.
Qed.

(** C13: the buffer cache implements the abstract cache.  A call allowed by the
    protocol returns (no panic, no sleep), changes contents, disk and references as
    specified, and [bread] hands back the block's current contents, wherever they are:
    in a buffer in use, in an unused buffer, or on disk. *)
Theorem bcache_refines d pid op s a (Hrep : represents d s a) (Hready : op_ready pid op a) :
  exists i s' a', op_code d a op (KSt [] (as_pid pid s)) = Ok i (KSt [] s') /\
    represents d s' a' /\ op_spec pid op a i a' /\ writes s' = writes s ++ op_writes op a /\
    (forall b, op = OpRead b -> b_data (bf s' i) = sV a b).
Proof.
  assert (rep d (as_pid pid s) (sV a) (sD a) (sU a)) as R by (by eapply rep_same; [..|exact Hrep]).
  enough (wp (op_code d a op) (KSt [] (as_pid pid s)) (fun i k => held k = [] /\ exists a',
    represents d (st k) a' /\ op_spec pid op a i a' /\ writes (st k) = writes s ++ op_writes op a /\
    (forall b, op = OpRead b -> b_data (bf (st k) i) = sV a b))) as Hwp.
  { destruct (wp_elim _ _ _ Hwp) as (i & [h s'] & E & Eh & a' & H). cbn in *. subst h. by exists i, s', a'. }
  destruct op as [b|b x|b|b|b|b]; cbn [op_code op_ready] in *; unfold buf_of.
  - eapply wp_bread; eauto. intros i s' R' _ [Hw _]. split; [done|].
    exists (Spec (sV a) (sD a) (<[b := Use i (refs (sU a) b + 1) (Sleeplock true pid) true]> (sU a))).
    rewrite app_nil_r. split_and!; try done. intros ? [= <-].
    destruct (rep_use _ _ _ _ _ _ _ R' (lookup_insert_eq _ _ _)) as (_ & _ & _ & _ & _ & EV). done.
  - destruct Hready as (i & r & Hu). rewrite Hu. unfold put_data. wsteps. split; [done|].
    exists (Spec (fupd (sV a) b x) (sD a) (sU a)). rewrite app_nil_r. split_and!; try done.
    by eapply rep_put_data.
  - destruct Hready as (i & r & Hu). rewrite Hu. wstep. eapply wp_bwrite; eauto. intros s' R' Hw _. wstep.
    split; [done|]. exists (Spec (sV a) (fupd (sD a) b (sV a b)) (sU a)). by split_and!.
  - destruct Hready as [(i & r & Hu) Hcl]. unfold refs in *. rewrite Hu in *. wstep.
    eapply wp_brelse; eauto. intros s' R' [Hw _]. wstep. split; [done|]. eexists.
    rewrite app_nil_r. split_and!; [|done..|done]. unfold represents, refs. cbn. rewrite Hu. cbn.
    by rewrite (alter_insert_eq _ _ _ _ _ Hu eq_refl).
  - destruct Hready as [(i & r & Hu) Hr]. unfold refs in *. rewrite Hu in *. wstep.
    eapply wp_bpin; eauto; [set_solver|]. intros s' R' [Hw _]. wstep. split; [done|]. eexists.
    rewrite app_nil_r. split_and!; [|done..|done]. unfold represents. cbn.
    by rewrite (alter_insert_eq _ _ _ _ _ Hu eq_refl).
  - destruct Hready as [(i & r & Hu) Hr]. unfold refs in *. rewrite Hu in *. wstep.
    eapply wp_bunpin; eauto; [set_solver|]. intros s' R' [Hw _]. wstep. split; [done|]. eexists.
    rewrite app_nil_r. split_and!; [|done..|done]. unfold represents. cbn.
    by rewrite (alter_insert_eq _ _ _ _ _ Hu eq_refl).
Qed.

(** [binit] links all NBUF buffers into one list that caches nothing: from a
    zeroed cache the view of the disk is the disk, with no block in use. *)
Theorem binit_refines d D w p k (Hd : d <> 0) :
  exists s', binit (KSt [] (Bcache ∅ D w p k)) = Ok tt (KSt [] s') /\
    represents d s' (Spec (fun b => default ∅ (D !! b)) (fun b => default ∅ (D !! b)) ∅) /\ writes s' = w.
Proof.
  destruct (wp_elim _ _ _ (binit_rep d D w p k Hd)) as ([] & [h s'] & E & Eh & R & Hw & _).
  cbn [held st] in *. subst h. exists s'. split; [exact E|]. split; [exact R|exact Hw].
Qed.

(** A booted cache over a disk with one non-empty block. *)
Definition bw_disk : gmap Z block := {[5 := {[0 := 42]}]}.
Definition bw0 : bcache := st (after binit (KSt [] (Bcache ∅ bw_disk [] 1 []))).
Definition bw_spec : spec := Spec (fun b => default ∅ (bw_disk !! b)) (fun b => default ∅ (bw_disk !! b)) ∅.

Lemma bw0_represents : represents 1 bw0 bw_spec.
Proof.
  destruct (wp_after _ _ _ (binit_rep 1 bw_disk [] 1 [] ltac:(done))) as (a & _ & _ & R & _). exact R.
Qed.

Lemma bcache_refines_witness :
  exists i s' a', op_code 1 bw_spec (OpRead 5) (KSt [] (as_pid 7 bw0)) = Ok i (KSt [] s') /\
    represents 1 s' a' /\ op_spec 7 (OpRead 5) bw_spec i a' /\ writes s' = writes bw0 ++ op_writes (OpRead 5) bw_spec /\
    (forall b, OpRead 5 = OpRead b -> b_data (bf s' i) = sV bw_spec b).
Proof.
  apply (bcache_refines 1 7 (OpRead 5) bw0 bw_spec); [exact bw0_represents|].
  cbn. unfold lockable. rewrite lookup_empty, map_size_empty. vm_compute. lia.
Defined.

Lemma binit_refines_witness :
  exists s', binit (KSt [] (Bcache ∅ bw_disk [] 1 [])) = Ok tt (KSt [] s') /\
    represents 1 s' bw_spec /\ writes s' = [].
Proof. apply (binit_refines 1 bw_disk [] 1 []). done. Defined.
