(* ===== verification/Log.v ===== *)
(** * The write-ahead log (kernel/log.c): definitions

    [lg] is struct log with its in-memory header; the on-disk header is a block whose
    first words hold the count and the block numbers.  Disk traffic goes through the
    buffer cache of Bio.v, lifted to the larger state. *)
From S2P Require Import Prelude Mem Sleeplock Bio.

Definition MAXOPBLOCKS : Z := 10.
Definition LOGSIZE : Z := MAXOPBLOCKS * 3.

Record log := Log {
  l_start : Z; l_size : Z; l_outstanding : Z; l_committing : bool; l_dev : Z;
  lh_n : Z; lh_block : gmap Z Z }.
Record fsst := Fsst { lg : log; bc : bcache }.

Definition set_lg (f : log -> log) (s : fsst) : fsst := Fsst (f (lg s)) (bc s).
Definition with_outstanding (n : Z) (l : log) : log :=
  Log (l_start l) (l_size l) n (l_committing l) (l_dev l) (lh_n l) (lh_block l).
Definition with_committing (c : bool) (l : log) : log :=
  Log (l_start l) (l_size l) (l_outstanding l) c (l_dev l) (lh_n l) (lh_block l).
Definition with_n (n : Z) (l : log) : log :=
  Log (l_start l) (l_size l) (l_outstanding l) (l_committing l) (l_dev l) n (lh_block l).
Definition with_block (i b : Z) (l : log) : log :=
  Log (l_start l) (l_size l) (l_outstanding l) (l_committing l) (l_dev l) (lh_n l) (<[i := b]> (lh_block l)).
Definition lblock (l : log) (i : Z) : Z := default 0 (lh_block l !! i).

#[export] Instance fsst_proc : Proclike fsst := {
  mypid s := mypid (bc s);
  add_wake c s := Fsst (lg s) (add_wake c (bc s)) }.

(** A buffer-cache routine run inside the file-system state. *)
Definition lift {A} (m : M bcache A) : M fsst A := zoom bc (fun b s => Fsst (lg s) b) m.

Definition log_lock : lockid := ("log", 0).
Definition log_chan : chan := ("log", 0).

(** 32-bit fields of a block. *)
Definition load32 (x : block) (a : Z) : Z := i32 (le_load x a 4).
Definition store32 (x : block) (a v : Z) : block := le_store x a (u32 v) 4.

(** [install_trans]: one iteration per [tail]. *)
Fixpoint install_loop (recovering : bool) (tails : list Z) : M fsst unit :=
  match tails with
  | [] => mret tt
  | tail :: rest =>
    l ← gets lg;
    lbuf ← lift (bread (u32 (l_dev l)) (u32 (l_start l + tail + 1)));
    dbuf ← lift (bread (u32 (l_dev l)) (u32 (lblock l tail)));
    data ← gets (fun s => b_data (bf (bc s) lbuf));
    lift (put_data dbuf data) ;;
    lift (bwrite dbuf) ;;
    (if recovering then mret tt else lift (bunpin dbuf)) ;;
    lift (brelse lbuf) ;;
    lift (brelse dbuf) ;;
    install_loop recovering rest
  end.
Definition install_trans (recovering : bool) : M fsst unit :=
  n ← gets (fun s => lh_n (lg s));
  install_loop recovering (seqZ 0 n).

Fixpoint read_blocks (x : block) (idx : list Z) (l : log) : log :=
  match idx with
  | [] => l
  | i :: rest => read_blocks x rest (with_block i (load32 x (4 + 4 * i)) l)
  end.
Definition read_head : M fsst unit :=
  l ← gets lg;
  b ← lift (bread (u32 (l_dev l)) (u32 (l_start l)));
  x ← gets (fun s => b_data (bf (bc s) b));
  modify (set_lg (with_n (load32 x 0))) ;;
  modify (set_lg (read_blocks x (seqZ 0 (load32 x 0)))) ;;
  lift (brelse b).

Fixpoint write_blocks (l : log) (idx : list Z) (x : block) : block :=
  match idx with
  | [] => x
  | i :: rest => write_blocks l rest (store32 x (4 + 4 * i) (lblock l i))
  end.
Definition write_head : M fsst unit :=
  l ← gets lg;
  b ← lift (bread (u32 (l_dev l)) (u32 (l_start l)));
  x ← gets (fun s => b_data (bf (bc s) b));
  lift (put_data b (write_blocks l (seqZ 0 (lh_n l)) (store32 x 0 (lh_n l)))) ;;
  lift (bwrite b) ;;
  lift (brelse b).

Definition recover_from_log : M fsst unit :=
  read_head ;;
  install_trans true ;;
  modify (set_lg (with_n 0)) ;;
  write_head.

(** [initlog]; [logstart] and [nlog] are the superblock's fields. The header is smaller
    than a block, so the first test never fires. *)
Definition BSIZE : Z := 1024.
Definition initlog (dev logstart nlog : Z) : M fsst unit :=
  if BSIZE <=? 4 + 4 * LOGSIZE then panic "initlog: too big logheader" else
  modify (set_lg (fun l => Log logstart nlog (l_outstanding l) (l_committing l) dev (lh_n l) (lh_block l))) ;;
  recover_from_log.

Definition begin_op : M fsst unit :=
  acquire log_lock ;;
  l ← gets lg;
  if l_committing l then sleep log_chan log_lock
  else if LOGSIZE <? lh_n l + (l_outstanding l + 1) * MAXOPBLOCKS then sleep log_chan log_lock
  else modify (set_lg (with_outstanding (l_outstanding l + 1))) ;;
       release log_lock.

Fixpoint write_log_loop (tails : list Z) : M fsst unit :=
  match tails with
  | [] => mret tt
  | tail :: rest =>
    l ← gets lg;
    to ← lift (bread (u32 (l_dev l)) (u32 (l_start l + tail + 1)));
    from ← lift (bread (u32 (l_dev l)) (u32 (lblock l tail)));
    data ← gets (fun s => b_data (bf (bc s) from));
    lift (put_data to data) ;;
    lift (bwrite to) ;;
    lift (brelse from) ;;
    lift (brelse to) ;;
    write_log_loop rest
  end.
Definition write_log : M fsst unit :=
  n ← gets (fun s => lh_n (lg s));
  write_log_loop (seqZ 0 n).

Definition commit : M fsst unit :=
  n ← gets (fun s => lh_n (lg s));
  if 0 <? n then
    write_log ;;
    write_head ;;
    install_trans false ;;
    modify (set_lg (with_n 0)) ;;
    write_head
  else mret tt.

Definition end_op : M fsst unit :=
  acquire log_lock ;;
  modify (fun s => set_lg (with_outstanding (l_outstanding (lg s) - 1)) s) ;;
  l ← gets lg;
  if l_committing l then panic "log.committing" else
  let do_commit := l_outstanding l =? 0 in
  (if do_commit then modify (set_lg (with_committing true)) else wakeup log_chan) ;;
  release log_lock ;;
  if do_commit then
    commit ;;
    acquire log_lock ;;
    modify (set_lg (with_committing false)) ;;
    wakeup log_chan ;;
    release log_lock
  else mret tt.

(** The search of [log_write]: the first index below [n] holding [b], or [n]. *)
Fixpoint find_logged (l : log) (b : Z) (idx : list Z) (n : Z) : Z :=
  match idx with
  | [] => n
  | i :: rest => if u32 (lblock l i) =? b then i else find_logged l b rest n
  end.
Definition log_write (b : Z) : M fsst unit :=
  l ← gets lg;
  if (LOGSIZE <=? lh_n l) || (l_size l - 1 <=? lh_n l) then panic "too big a transaction" else
  if l_outstanding l <? 1 then panic "log_write outside of trans" else
  acquire log_lock ;;
  blockno ← gets (fun s => b_blockno (bf (bc s) b));
  let i := find_logged l blockno (seqZ 0 (lh_n l)) (lh_n l) in
  modify (set_lg (with_block i (i32 blockno))) ;;
  (if i =? lh_n l then
     lift (bpin b) ;;
     modify (set_lg (with_n (lh_n l + 1)))
   else mret tt) ;;
  release log_lock.
