(* ===== verification/LogSpec.v ===== *)
(** * The log: what its routines write, and in which order

    [stands s L p W V D U] fixes everything the proofs follow: the log record, the
    running process, the disk writes so far, and the abstract cache. *)
From S2P Require Import Prelude Mem Sleeplock Bio BioSpec Log.

(** A function, or a disk, after a list of block writes. *)
Definition apply_writes (f : Z -> block) (ws : list (Z * block)) : Z -> block :=
  foldl (fun f w => fupd f (fst w) (snd w)) f ws.

Lemma apply_writes_app f ws1 ws2 : apply_writes f (ws1 ++ ws2) = apply_writes (apply_writes f ws1) ws2.
Proof. apply foldl_app. Qed.

Lemma apply_writes_out ws : forall f b, b ∉ ws.*1 -> apply_writes f ws b = f b.
Proof.
  induction ws as [|[c x] ws IH]; intros f b Hb; [done|]. cbn in *. rewrite IH by set_solver.
  apply fupd_ne. set_solver.
Qed.

Lemma apply_writes_in ws : forall f b x, NoDup ws.*1 -> (b, x) ∈ ws -> apply_writes f ws b = x.
Proof.
  induction ws as [|[c y] ws IH]; intros f b x Hnd Hin; [set_solver|]. cbn in *.
  apply NoDup_cons in Hnd as [Hc Hnd]. apply elem_of_cons in Hin as [[= <- <-]|Hin].
  - rewrite apply_writes_out by done. apply fupd_eq.
  - by apply IH.
Qed.

(** ** Reading and writing the header block *)

Lemma i32_u32 v : - 2 ^ 31 <= v < 2 ^ 31 -> i32 (u32 v) = v.
Proof.
  intros H. unfold i32, u32. rewrite Zplus_mod_idemp_l, Z.mod_small by lia. lia.
Qed.
Lemma load_store32_eq x a v : - 2 ^ 31 <= v < 2 ^ 31 -> load32 (store32 x a v) a = v.
Proof.
  intros H. unfold load32, store32. rewrite le_load_store; [by apply i32_u32|apply u32_range].
Qed.
Lemma load_store32_ne x a v b : b + 4 <= a \/ a + 4 <= b -> load32 (store32 x a v) b = load32 x b.
Proof.
  intros H. unfold load32, store32. f_equal. apply le_load_ext. intros c Hc. apply rd_le_store_other. lia.
Qed.

Lemma load_write_blocks_out L idx : forall x a,
  (forall i, i ∈ idx -> a + 4 <= 4 + 4 * i \/ 4 + 4 * i + 4 <= a) ->
  load32 (write_blocks L idx x) a = load32 x a.
Proof.
  induction idx as [|i idx IH]; intros x a Ha; [done|]. cbn [write_blocks].
  rewrite IH by (intros j Hj; apply Ha; by right). apply load_store32_ne. apply Ha. by left.
Qed.
Lemma load_write_blocks_in L idx i : forall x, NoDup idx -> i ∈ idx ->
  - 2 ^ 31 <= lblock L i < 2 ^ 31 -> load32 (write_blocks L idx x) (4 + 4 * i) = lblock L i.
Proof.
  induction idx as [|j idx IH]; intros x Hnd Hi Hr; [set_solver|]. cbn [write_blocks].
  apply NoDup_cons in Hnd as [Hj Hnd]. apply elem_of_cons in Hi as [->|Hi]; [|by apply IH].
  rewrite load_write_blocks_out; [by apply load_store32_eq|].
  intros k Hk. assert (k <> j) by (intros ->; done). lia.
Qed.

(** The block numbers a header block lists. *)
Definition hdr (x : block) : list Z := (fun i => load32 x (4 + 4 * i)) <$> seqZ 0 (load32 x 0).

Lemma lblock_read_blocks x idx : forall l i,
  lblock (read_blocks x idx l) i = if decide (i ∈ idx) then load32 x (4 + 4 * i) else lblock l i.
Proof.
  induction idx as [|j idx IH]; intros l i; [done|]. cbn [read_blocks]. rewrite IH.
  destruct (decide (i ∈ idx)) as [Hi|Hi].
  - by rewrite decide_True by (by right).
  - unfold with_block, lblock. cbn. destruct (decide (i = j)) as [->|].
    + by rewrite lookup_insert_eq, decide_True by (by left).
    + rewrite lookup_insert_ne, decide_False by set_solver. done.
Qed.
(** The fields that only begin_op and end_op change, and the log's size. *)
Definition same_ctl (l l' : log) : Prop :=
  l_size l' = l_size l /\ l_outstanding l' = l_outstanding l /\ l_committing l' = l_committing l.
Lemma read_blocks_fields x idx : forall l,
  l_start (read_blocks x idx l) = l_start l /\ same_ctl l (read_blocks x idx l) /\
  l_dev (read_blocks x idx l) = l_dev l /\ lh_n (read_blocks x idx l) = lh_n l.
Proof. induction idx as [|j idx IH]; intros l; [done|]. cbn [read_blocks]. apply (IH (with_block _ _ l)). Qed.

Section LogSpec.
Variable d : Z.

Record stands (s : fsst) (L : log) (p : Z) (W : list (Z * block)) (V D : Z -> block) (U : gmap Z use) : Prop := {
  sd_lg : lg s = L;
  sd_pid : bpid (bc s) = p;
  sd_writes : writes (bc s) = W;
  sd_rep : rep d (bc s) V D U;
}.

Lemma wp_lift {A} (m : M bcache A) h s (Q : A -> kst fsst -> Prop) :
  wp m (KSt h (bc s)) (fun a k => Q a (KSt (held k) (Fsst (lg s) (st k)))) -> wp (lift m) (KSt h s) Q.
Proof. unfold wp, lift, zoom. cbn. by destruct (m _). Qed.

Section Ops.
Context (s : fsst) (L : log) (p : Z) (W : list (Z * block)) (V D : Z -> block) (U : gmap Z use).
Hypothesis Hs : stands s L p W V D U.

Lemma lwp_bread b Q :
  lockable U b ->
  (forall i s', stands s' L p W V D (<[b := Use i (refs U b + 1) (Sleeplock true p) true]> U) ->
     (forall u, U !! b = Some u -> i = u_idx u) -> Q i (KSt [] s')) ->
  wp (lift (bread d b)) (KSt [] s) Q.
Proof.
  destruct Hs as [H1 H2 H3 H4]. intros Hl HQ. apply wp_lift. eapply wp_bread; eauto.
  intros i s' R' Hi [Hw Hp]. rewrite H2 in R'. apply HQ; [|done]. split; cbn; congruence || done.
Qed.

Lemma lwp_data b i r l : U !! b = Some (Use i r l true) -> b_data (bf (bc s) i) = V b.
Proof. intros Hu. by destruct (rep_use _ _ _ _ _ _ _ (sd_rep _ _ _ _ _ _ _ Hs) Hu) as (_ & _ & _ & _ & _ & ->). Qed.

Lemma lwp_put b i r l x Q :
  U !! b = Some (Use i r l true) ->
  (forall s', stands s' L p W (fupd V b x) D U -> Q tt (KSt [] s')) ->
  wp (lift (put_data i x)) (KSt [] s) Q.
Proof.
  destruct Hs as [H1 H2 H3 H4]. intros Hu HQ. apply wp_lift. unfold put_data. wstep. apply HQ.
  split; cbn; [done..|by eapply rep_put_data].
Qed.

Lemma lwp_bwrite b i r Q :
  U !! b = Some (Use i r (Sleeplock true p) true) ->
  (forall s', stands s' L p (W ++ [(b, V b)]) V (fupd D b (V b)) U -> Q tt (KSt [] s')) ->
  wp (lift (bwrite i)) (KSt [] s) Q.
Proof.
  destruct Hs as [H1 H2 H3 H4]. intros Hu HQ. apply wp_lift.
  eapply wp_bwrite; [exact H4|by rewrite H2|]. intros s' R' Hw Hp. apply HQ.
  split; cbn; try done; congruence.
Qed.

Lemma lwp_brelse b i r v Q :
  U !! b = Some (Use i r (Sleeplock true p) v) -> (r = 1 -> V b = D b) ->
  (forall s', stands s' L p W V D (if r =? 1 then delete b U else <[b := Use i (r - 1) initsleeplock v]> U) ->
     Q tt (KSt [] s')) ->
  wp (lift (brelse i)) (KSt [] s) Q.
Proof.
  destruct Hs as [H1 H2 H3 H4]. intros Hu Hc HQ. apply wp_lift.
  eapply wp_brelse; [exact H4|by rewrite H2|done|]. intros s' R' [Hw Hp]. apply HQ.
  split; cbn; try done; congruence.
Qed.

Lemma lwp_bunpin b i r l v Q :
  U !! b = Some (Use i r l v) -> 1 < r ->
  (forall s', stands s' L p W V D (<[b := Use i (r - 1) l v]> U) -> Q tt (KSt [] s')) ->
  wp (lift (bunpin i)) (KSt [] s) Q.
Proof.
  destruct Hs as [H1 H2 H3 H4]. intros Hu Hr HQ. apply wp_lift.
  eapply wp_bunpin; [exact H4|set_solver|done|done|]. intros s' R' [Hw Hp]. apply HQ.
  split; cbn; try done; congruence.
Qed.
End Ops.

(** ** The shape of a log *)

Variables (start lsize : Z).
(** Blocks outside the log area [start, start + lsize). *)
Definition home (b : Z) : Prop := b < start \/ start + lsize <= b.

(** A log of [bs]: its record, and blocks it may contain. *)
Record log_of (L : log) (bs : list Z) : Prop := {
  lo_dev : u32 (l_dev L) = d;
  lo_start : l_start L = start;
  lo_n : lh_n L = Z.of_nat (length bs);
  lo_block : forall i b, bs !! i = Some b -> lblock L (Z.of_nat i) = b;
}.
Record loggable (bs : list Z) : Prop := {
  lb_nodup : NoDup bs;
  lb_home : Forall (fun b => home b /\ 0 <= b < 2 ^ 31) bs;
  lb_max : Z.of_nat (length bs) < lsize /\ Z.of_nat (length bs) <= LOGSIZE;
  lb_area : 0 <= start /\ start + lsize <= 2 ^ 31;
}.

Lemma loggable_block bs i b : loggable bs -> bs !! i = Some b ->
  u32 b = b /\ home b /\ u32 (start + Z.of_nat i + 1) = start + Z.of_nat i + 1 /\
  Z.of_nat i + 1 < lsize.
Proof.
  intros [_ H2 H3 H4] Hi. pose proof (lookup_lt_Some _ _ _ Hi).
  rewrite Forall_lookup in H2. destruct (H2 i b Hi). split_and!; try done; try apply u32_small; lia.
Qed.

(** Block [b] is cached, unlocked and pinned (by the log). *)
Definition pinned (U : gmap Z use) (b : Z) : Prop :=
  exists i r, U !! b = Some (Use i r initsleeplock true) /\ r + 1 < 2 ^ 32.
(** Buffers for the log area are free to be used. *)
Definition area_free (U : gmap Z use) : Prop :=
  (forall i, 0 <= i < lsize -> U !! (start + i) = None) /\ (size U < Z.to_nat NBUF)%nat.

Ltac umap c := apply map_eq; intros c;
  repeat match goal with
  | |- context [<[?k := _]> _ !! c] => destruct (decide (c = k)) as [->|]; [rewrite lookup_insert_eq|rewrite lookup_insert_ne by congruence]
  | |- context [delete ?k _ !! c] => destruct (decide (c = k)) as [->|]; [rewrite lookup_delete_eq|rewrite lookup_delete_ne by congruence]
  | |- context [<[?k := _]> _ !! ?k] => rewrite lookup_insert_eq
  | |- context [delete ?k _ !! ?k] => rewrite lookup_delete_eq
  | |- context [<[?k := _]> _ !! ?j] => rewrite (lookup_insert_ne _ k j) by congruence
  | |- context [delete ?k _ !! ?j] => rewrite (lookup_delete_ne _ k j) by congruence
  end; try congruence; try done.

(** ** write_log *)

(** The log blocks hold the logged blocks' contents [src]. *)
Definition log_writes (src : Z -> block) (k : Z) (bs : list Z) : list (Z * block) :=
  imap (fun i b => (start + 1 + k + Z.of_nat i, src b)) bs.

Lemma log_writes_cons src k b bs :
  log_writes src k (b :: bs) = (start + 1 + k, src b) :: log_writes src (k + 1) bs.
Proof.
  unfold log_writes. rewrite imap_cons. f_equal; [f_equal; lia|]. apply imap_ext. intros i x _. cbn. f_equal. lia.
Qed.

Lemma write_log_step s L p W V D U bs k b Q (K : M fsst unit) :
  stands s L p W V D U -> log_of L bs -> loggable bs -> bs !! k = Some b ->
  pinned U b -> area_free U ->
  (forall s', let lb := start + 1 + Z.of_nat k in
     stands s' L p (W ++ [(lb, V b)]) (fupd V lb (V b)) (fupd D lb (V b)) U -> wp K (KSt [] s') Q) ->
  wp (l ← gets lg;
      to ← lift (bread (u32 (l_dev l)) (u32 (l_start l + Z.of_nat k + 1)));
      from ← lift (bread (u32 (l_dev l)) (u32 (lblock l (Z.of_nat k))));
      data ← gets (fun s => b_data (bf (bc s) from));
      lift (put_data to data) ;;
      lift (bwrite to) ;;
      lift (brelse from) ;;
      lift (brelse to) ;; K) (KSt [] s) Q.
Proof.
  intros Hs [Ld Ls Ln Lb] Hbs Hk (j & r & Hu & Hr) [Hfree Hsz] HK.
  destruct (loggable_block _ _ _ Hbs Hk) as (Ub & Hhome & Ul & Hk1).
  destruct (rep_use _ _ _ _ _ _ _ (sd_rep _ _ _ _ _ _ _ Hs) Hu) as (_ & _ & Hr0 & _). cbn in Hr0.
  set (lb := start + 1 + Z.of_nat k) in *.
  assert (lb <> b) as Hne by (unfold home in Hhome; lia).
  assert (U !! lb = None) as Hlb.
  { unfold lb. rewrite <- Z.add_assoc. apply Hfree. lia. }
  wstep. wstep. rewrite (sd_lg _ _ _ _ _ _ _ Hs), Ld, Ls, (Lb _ _ Hk), Ul, Ub.
  replace (start + Z.of_nat k + 1) with lb by lia. wstep.
  eapply lwp_bread; [exact Hs|unfold lockable; by rewrite Hlb|]. intros to s1 Hs1 _. wstep.
  assert (refs U lb = 0) as Er by (unfold refs; by rewrite Hlb). rewrite Er in Hs1. clear Er.
  set (U1 := <[lb := _]> U) in Hs1.
  assert (U1 !! b = Some (Use j r initsleeplock true)) as Hu1 by (unfold U1; by rewrite lookup_insert_ne).
  eapply lwp_bread; [exact Hs1|unfold lockable; rewrite Hu1; done|]. intros from s2 Hs2 Hidx. wstep.
  assert (refs U1 b = r) as Er by (unfold refs; by rewrite Hu1). rewrite Er in Hs2. clear Er.
  rewrite (Hidx _ Hu1) in *. cbn [u_idx] in *. set (U2 := <[b := _]> U1) in Hs2.
  assert (U2 !! b = Some (Use j (r + 1) (Sleeplock true p) true)) as Hub2 by apply lookup_insert_eq.
  assert (U2 !! lb = Some (Use to (0 + 1) (Sleeplock true p) true)) as Hul2.
  { unfold U2, U1. rewrite lookup_insert_ne by done. apply lookup_insert_eq. }
  wstep. rewrite (lwp_data _ _ _ _ _ _ _ Hs2 _ _ _ _ Hub2). wstep.
  eapply lwp_put; [exact Hs2|exact Hul2|]. intros s3 Hs3. wstep.
  eapply lwp_bwrite; [exact Hs3|exact Hul2|]. intros s4 Hs4. rewrite fupd_eq in Hs4. wstep.
  eapply lwp_brelse; [exact Hs4|exact Hub2|lia|]. intros s5 Hs5.
  destruct (Z.eqb_spec (r + 1) 1) as [|_]; [lia|]. wstep.
  eapply lwp_brelse; [exact Hs5|rewrite lookup_insert_ne by done; exact Hul2|intros _; by rewrite !fupd_eq|].
  intros s6 Hs6. apply HK. rewrite Z.add_0_l, Z.eqb_refl in Hs6.
  replace U with (delete lb (<[b := Use j (r + 1 - 1) initsleeplock true]> U2)); [exact Hs6|].
  unfold U2, U1. replace (r + 1 - 1) with r by lia. umap c.
Qed.

Lemma seqZ_nat_cons k n : seqZ (Z.of_nat k) (Z.of_nat (S n)) = Z.of_nat k :: seqZ (Z.of_nat (S k)) (Z.of_nat n).
Proof. rewrite seqZ_cons by lia. f_equal. f_equal; lia. Qed.

Lemma write_log_loop_spec bs src L p U : forall bs2 bs1 s W V D,
  bs = bs1 ++ bs2 -> stands s L p W V D U -> log_of L bs -> loggable bs ->
  Forall (pinned U) bs -> area_free U -> (forall b, b ∈ bs -> V b = src b) ->
  let ws := log_writes src (Z.of_nat (length bs1)) bs2 in
  wp (write_log_loop (seqZ (Z.of_nat (length bs1)) (Z.of_nat (length bs2)))) (KSt [] s) (fun _ k =>
    held k = [] /\ stands (st k) L p (W ++ ws) (apply_writes V ws) (apply_writes D ws) U).
Proof.
  induction bs2 as [|b bs2 IH]; intros bs1 s W V D E Hs HL Hbs Hpin Hfree Hsrc ws.
  { cbn [length]. rewrite seqZ_nil by lia. cbn [write_log_loop]. wstep. split; [done|].
    unfold ws. cbn. by rewrite app_nil_r. }
  assert (bs !! length bs1 = Some b) as Hk by (rewrite E; by apply list_lookup_middle).
  cbn [length]. rewrite seqZ_nat_cons. cbn [write_log_loop].
  eapply write_log_step; eauto.
  { rewrite Forall_forall in Hpin. apply Hpin. rewrite E. set_solver. }
  intros s' lb Hs'. unfold ws. rewrite log_writes_cons. cbn [apply_writes foldl fst snd].
  rewrite (Hsrc b) in Hs' by (rewrite E; set_solver).
  replace (S (length bs1)) with (length (bs1 ++ [b])) by (rewrite length_app; cbn; lia).
  replace (Z.of_nat (length bs1) + 1) with (Z.of_nat (length (bs1 ++ [b]))) by (rewrite length_app; cbn; lia).
  eapply wp_mono; [eapply (IH (bs1 ++ [b])); eauto|].
  - by rewrite <- app_assoc.
  - intros c Hc. rewrite fupd_ne; [by apply Hsrc|]. apply list_elem_of_lookup in Hc as [i Hi].
    destruct (loggable_block _ _ _ Hbs Hi) as (_ & Hh & _). destruct (loggable_block _ _ _ Hbs Hk) as (_ & _ & _ & Hl).
    unfold home in Hh. lia.
  - intros _ k [Hk' Hst]. split; [done|]. rewrite <- app_assoc in Hst. exact Hst.
Qed.

(** ** write_head *)

Definition header (L : log) (x : block) : block := write_blocks L (seqZ 0 (lh_n L)) (store32 x 0 (lh_n L)).

Lemma write_head_spec s L p W V D U bs :
  stands s L p W V D U -> log_of L bs -> area_free U -> 0 <= start < 2 ^ 32 -> 0 < lsize ->
  wp write_head (KSt [] s) (fun _ k => held k = [] /\
    stands (st k) L p (W ++ [(start, header L (V start))])
      (fupd V start (header L (V start))) (fupd D start (header L (V start))) U).
Proof.
  intros Hs [Ld Ls Ln Lb] [Hfree Hsz] Hst Hls. unfold write_head.
  assert (U !! start = None) as Hun by (rewrite <- (Z.add_0_r start); apply Hfree; lia).
  wstep. wstep. rewrite (sd_lg _ _ _ _ _ _ _ Hs), Ld, Ls, u32_small by lia. wstep.
  eapply lwp_bread; [exact Hs|unfold lockable; by rewrite Hun|]. intros b s1 Hs1 _. wstep.
  set (U1 := <[start := _]> U) in Hs1.
  assert (U1 !! start = Some (Use b (0 + 1) (Sleeplock true p) true)) as Hu1.
  { unfold U1, refs. rewrite lookup_insert_eq. by rewrite Hun. }
  wstep. rewrite (lwp_data _ _ _ _ _ _ _ Hs1 _ _ _ _ Hu1). fold (header L (V start)). wstep.
  eapply lwp_put; [exact Hs1|exact Hu1|]. intros s2 Hs2. wstep.
  eapply lwp_bwrite; [exact Hs2|exact Hu1|]. intros s3 Hs3. rewrite fupd_eq in Hs3.
  eapply lwp_brelse; [exact Hs3|exact Hu1|intros _; by rewrite !fupd_eq|]. intros s4 Hs4.
  split; [done|]. rewrite Z.add_0_l, Z.eqb_refl in Hs4.
  replace U with (delete start U1); [exact Hs4|]. unfold U1. umap c.
Qed.

(** ** install_trans *)

(** The use map after one iteration: unless recovering, the log's pin is dropped. *)
Definition unpin (recovering : bool) (U : gmap Z use) (b : Z) : gmap Z use :=
  if recovering then U else
  match U !! b with
  | Some u => if u_refs u =? 1 then delete b U
              else <[b := Use (u_idx u) (u_refs u - 1) initsleeplock (u_valid u)]> U
  | None => U
  end.
Definition installable (recovering : bool) (U : gmap Z use) (b : Z) : Prop :=
  if recovering then U !! b = None /\ (S (size U) < Z.to_nat NBUF)%nat else pinned U b.

Lemma unpin_ne r U b c : c <> b -> unpin r U b !! c = U !! c.
Proof.
  intros Hc. unfold unpin. destruct r; [done|]. destruct (U !! b) as [u|]; [|done].
  destruct (_ =? _); [by rewrite lookup_delete_ne|by rewrite lookup_insert_ne].
Qed.
Lemma unpin_size r U b : (size (unpin r U b) <= size U)%nat.
Proof.
  unfold unpin. destruct r; [done|]. destruct (U !! b) as [u|] eqn:E; [|done].
  destruct (_ =? _).
  - apply map_subseteq_size, delete_subseteq.
  - rewrite map_size_insert_Some by (by rewrite E). done.
Qed.

Definition install_body (recovering : bool) (k : Z) (K : M fsst unit) : M fsst unit :=
  l ← gets lg;
  lbuf ← lift (bread (u32 (l_dev l)) (u32 (l_start l + k + 1)));
  dbuf ← lift (bread (u32 (l_dev l)) (u32 (lblock l k)));
  data ← gets (fun s => b_data (bf (bc s) lbuf));
  lift (put_data dbuf data) ;;
  lift (bwrite dbuf) ;;
  (if recovering then mret tt else lift (bunpin dbuf)) ;;
  lift (brelse lbuf) ;;
  lift (brelse dbuf) ;; K.

Lemma install_step rc s L p W V D U bs k b Q (K : M fsst unit) :
  stands s L p W V D U -> log_of L bs -> loggable bs -> bs !! k = Some b ->
  installable rc U b -> area_free U ->
  let lb := start + 1 + Z.of_nat k in
  V lb = D lb ->
  (forall s', stands s' L p (W ++ [(b, V lb)]) (fupd V b (V lb)) (fupd D b (V lb)) (unpin rc U b) ->
     wp K (KSt [] s') Q) ->
  wp (install_body rc (Z.of_nat k) K) (KSt [] s) Q.
Proof.
  intros Hs [Ld Ls Ln Lb] Hbs Hk Hin [Hfree Hsz] lb Hcl HK.
  destruct (loggable_block _ _ _ Hbs Hk) as (Ub & Hhome & Ul & Hk1).
  assert (lb <> b) as Hne by (unfold lb, home in *; lia).
  assert (U !! lb = None) as Hlb.
  { unfold lb. rewrite <- Z.add_assoc. apply Hfree. lia. }
  unfold install_body. wstep. wstep.
  rewrite (sd_lg _ _ _ _ _ _ _ Hs), Ld, Ls, (Lb _ _ Hk), Ul, Ub.
  replace (start + Z.of_nat k + 1) with lb by (unfold lb; lia). wstep.
  eapply lwp_bread; [exact Hs|unfold lockable; by rewrite Hlb|]. intros lbuf s1 Hs1 _. wstep.
  assert (refs U lb = 0) as Er by (unfold refs; by rewrite Hlb). rewrite Er in Hs1. clear Er.
  set (U1 := <[lb := _]> U) in Hs1.
  assert (U1 !! b = U !! b) as Hub by (unfold U1; by rewrite lookup_insert_ne).
  assert (lockable U1 b) as Hlk1.
  { unfold lockable. rewrite Hub. destruct rc.
    - destruct Hin as [-> Hsz2]. unfold U1. rewrite map_size_insert_None by done. done.
    - destruct Hin as (j & r & -> & Hr). done. }
  eapply lwp_bread; [exact Hs1|exact Hlk1|]. intros dbuf s2 Hs2 Hidx. wstep.
  set (r := refs U1 b) in Hs2. set (U2 := <[b := _]> U1) in Hs2.
  assert (U2 !! b = Some (Use dbuf (r + 1) (Sleeplock true p) true)) as Hub2 by apply lookup_insert_eq.
  assert (U2 !! lb = Some (Use lbuf (0 + 1) (Sleeplock true p) true)) as Hul2.
  { unfold U2, U1. rewrite lookup_insert_ne by done. apply lookup_insert_eq. }
  wstep. rewrite (lwp_data _ _ _ _ _ _ _ Hs2 _ _ _ _ Hul2). wstep.
  eapply lwp_put; [exact Hs2|exact Hub2|]. intros s3 Hs3. wstep.
  eapply lwp_bwrite; [exact Hs3|exact Hub2|]. intros s4 Hs4. rewrite fupd_eq in Hs4. wstep.
  destruct rc; cbn [installable] in Hin.
  - destruct Hin as [Hnone _]. assert (r = 0) as Er by (unfold r, refs; by rewrite Hub, Hnone). wstep. wstep.
    eapply lwp_brelse; [exact Hs4|exact Hul2|intros _; by rewrite !fupd_ne|]. intros s5 Hs5.
    rewrite Z.add_0_l, Z.eqb_refl in Hs5. wstep.
    eapply lwp_brelse; [exact Hs5|rewrite lookup_delete_ne by done; exact Hub2|intros _; by rewrite !fupd_eq|].
    intros s6 Hs6. apply HK. rewrite Er, Z.add_0_l, Z.eqb_refl in Hs6. cbn [unpin].
    replace U with (delete b (delete lb U2)); [exact Hs6|]. unfold U2, U1. umap c.
  - destruct Hin as (j & r' & Hu & Hr').
    assert (r = r') as Er by (unfold r, refs; by rewrite Hub, Hu).
    rewrite <- Er in Hu. clear r' Hr' Er.
    destruct (rep_use _ _ _ _ _ _ _ (sd_rep _ _ _ _ _ _ _ Hs) Hu) as (_ & _ & Hr0 & _). cbn in Hr0.
    assert (dbuf = j) as -> by (apply (Hidx (Use j r initsleeplock true)); by rewrite Hub).
    eapply lwp_bunpin; [exact Hs4|exact Hub2|lia|]. intros s5 Hs5. wstep.
    eapply lwp_brelse; [exact Hs5|rewrite lookup_insert_ne by done; exact Hul2|intros _; by rewrite !fupd_ne|].
    intros s6 Hs6. rewrite Z.add_0_l, Z.eqb_refl in Hs6. wstep.
    eapply lwp_brelse; [exact Hs6|rewrite lookup_delete_ne by done; apply lookup_insert_eq|intros _; by rewrite !fupd_eq|].
    intros s7 Hs7. apply HK. unfold unpin. rewrite Hu. cbn [u_refs u_idx u_valid].
    replace (r + 1 - 1) with r in Hs7 by lia. destruct (r =? 1).
    + replace (delete b U) with (delete b (delete lb (<[b := Use j r (Sleeplock true p) true]> U2)));
        [exact Hs7|]. unfold U2, U1. umap c.
    + eassert (<[b := _]> U = _) as ->; [|exact Hs7]. unfold U2, U1. umap c.
Qed.

(** Home blocks receive the contents [src] of the log blocks. *)
Definition install_writes (src : Z -> block) (k : Z) (bs : list Z) : list (Z * block) :=
  imap (fun i b => (b, src (start + 1 + k + Z.of_nat i))) bs.

Lemma install_writes_cons src k b bs :
  install_writes src k (b :: bs) = (b, src (start + 1 + k)) :: install_writes src (k + 1) bs.
Proof.
  unfold install_writes. rewrite imap_cons. f_equal; [f_equal; f_equal; lia|].
  apply imap_ext. intros i x _. cbn. do 2 f_equal. lia.
Qed.

Lemma install_loop_spec rc bs src L p : forall bs2 bs1 s W V D U,
  bs = bs1 ++ bs2 -> stands s L p W V D U -> log_of L bs -> loggable bs ->
  Forall (installable rc U) bs2 -> area_free U ->
  (forall i, 0 <= i < Z.of_nat (length bs) ->
     V (start + 1 + i) = src (start + 1 + i) /\ D (start + 1 + i) = src (start + 1 + i)) ->
  let ws := install_writes src (Z.of_nat (length bs1)) bs2 in
  wp (install_loop rc (seqZ (Z.of_nat (length bs1)) (Z.of_nat (length bs2)))) (KSt [] s) (fun _ k =>
    held k = [] /\ stands (st k) L p (W ++ ws) (apply_writes V ws) (apply_writes D ws) (foldl (unpin rc) U bs2)).
Proof.
  induction bs2 as [|b bs2 IH]; intros bs1 s W V D U E Hs HL Hbs Hpin Hfree Hsrc ws.
  { cbn [length]. rewrite seqZ_nil by lia. cbn [install_loop]. wstep. split; [done|].
    unfold ws. cbn. by rewrite app_nil_r. }
  assert (bs !! length bs1 = Some b) as Hk by (rewrite E; by apply list_lookup_middle).
  pose proof (lookup_lt_Some _ _ _ Hk) as Hlt.
  destruct (Hsrc (Z.of_nat (length bs1)) ltac:(lia)) as [HV HD].
  cbn [length]. rewrite seqZ_nat_cons. cbn [install_loop]. apply Forall_cons in Hpin as [Hb Hpin].
  apply (install_step rc s L p W V D U bs (length bs1) b); try done; [congruence|].
  intros s' Hs'. unfold ws. rewrite install_writes_cons. cbn [apply_writes foldl fst snd].
  rewrite HV in Hs'.
  replace (S (length bs1)) with (length (bs1 ++ [b])) by (rewrite length_app; cbn; lia).
  replace (Z.of_nat (length bs1) + 1) with (Z.of_nat (length (bs1 ++ [b]))) by (rewrite length_app; cbn; lia).
  assert (b ∉ bs2) as Hnb.
  { destruct Hbs as [Hnd _ _ _]. rewrite E in Hnd. apply NoDup_app in Hnd as (_ & _ & Hnd).
    by apply NoDup_cons in Hnd as [? _]. }
  destruct (loggable_block _ _ _ Hbs Hk) as (_ & Hh & _).
  eapply wp_mono; [eapply (IH (bs1 ++ [b])); eauto|].
  - by rewrite <- app_assoc.
  - rewrite Forall_forall in Hpin |- *. intros c Hc. specialize (Hpin c Hc).
    assert (c <> b) by (intros ->; done).
    unfold installable, pinned in *. rewrite unpin_ne by done. destruct rc; [|done].
    split; [by apply Hpin|]. pose proof (unpin_size true U b). lia.
  - destruct Hfree as [Hf1 Hf2]. split.
    + intros i Hi. rewrite unpin_ne; [by apply Hf1|]. unfold home in Hh. lia.
    + pose proof (unpin_size rc U b). lia.
  - intros i Hi. destruct Hbs as [_ _ Hmax _]. unfold home in Hh. rewrite !fupd_ne by lia. by apply Hsrc.
  - intros _ k [Hk' Hst]. split; [done|]. rewrite <- app_assoc in Hst. exact Hst.
Qed.

(** ** Recovery and commit *)

Lemma hdr_header L bs x : log_of L bs -> loggable bs -> hdr (header L x) = bs.
Proof.
  intros [_ _ Ln Lb] [_ Hh Hm _]. unfold hdr, header. rewrite Ln. unfold LOGSIZE, MAXOPBLOCKS in Hm.
  assert (load32 (write_blocks L (seqZ 0 (Z.of_nat (length bs))) (store32 x 0 (Z.of_nat (length bs)))) 0
          = Z.of_nat (length bs)) as ->.
  { rewrite load_write_blocks_out; [apply load_store32_eq; lia|]. intros i Hi%elem_of_seqZ. lia. }
  apply list_eq_same_length with (length bs); [done|by rewrite length_fmap, length_seqZ, Nat2Z.id|].
  intros i y z Hi Hy Hz. apply list_lookup_fmap_Some in Hy as (k & -> & Hk).
  apply lookup_seqZ in Hk as [-> Hk]. rewrite Z.add_0_l.
  rewrite Forall_lookup in Hh. destruct (Hh i z Hz) as [_ Hr].
  rewrite load_write_blocks_in; [by apply Lb|apply NoDup_seqZ|rewrite elem_of_seqZ; lia|].
  rewrite (Lb _ _ Hz). lia.
Qed.

Lemma hdr_zero L x : lh_n L = 0 -> hdr (header L x) = [] /\ header L x = store32 x 0 0.
Proof.
  intros E. unfold header. rewrite E, seqZ_nil by lia. cbn [write_blocks]. split; [|done].
  unfold hdr. by rewrite load_store32_eq by lia.
Qed.

Lemma length_hdr x : 0 <= load32 x 0 -> Z.of_nat (length (hdr x)) = load32 x 0.
Proof. intros H. unfold hdr. rewrite length_fmap, length_seqZ. lia. Qed.

Lemma read_head_spec s L p W V D U :
  stands s L p W V D U -> u32 (l_dev L) = d -> l_start L = start ->
  area_free U -> 0 <= start < 2 ^ 32 -> 0 < lsize -> 0 <= load32 (V start) 0 -> V start = D start ->
  wp read_head (KSt [] s) (fun _ k => held k = [] /\ exists L',
    stands (st k) L' p W V D U /\ log_of L' (hdr (V start)) /\ same_ctl L L').
Proof.
  intros Hs Ld Ls [Hfree Hsz] Hst Hls Hn Hcl. unfold read_head.
  assert (U !! start = None) as Hun by (rewrite <- (Z.add_0_r start); apply Hfree; lia).
  wstep. wstep. rewrite (sd_lg _ _ _ _ _ _ _ Hs), Ld, Ls, u32_small by lia. wstep.
  eapply lwp_bread; [exact Hs|unfold lockable; by rewrite Hun|]. intros b s1 Hs1 _. wstep.
  set (U1 := <[start := _]> U) in Hs1.
  assert (U1 !! start = Some (Use b (0 + 1) (Sleeplock true p) true)) as Hu1.
  { unfold U1, refs. rewrite lookup_insert_eq. by rewrite Hun. }
  wstep. rewrite (lwp_data _ _ _ _ _ _ _ Hs1 _ _ _ _ Hu1). wsteps.
  set (L' := read_blocks (V start) (seqZ 0 (load32 (V start) 0)) (with_n (load32 (V start) 0) L)).
  assert (stands (set_lg (read_blocks (V start) (seqZ 0 (load32 (V start) 0)))
    (set_lg (with_n (load32 (V start) 0)) s1)) L' p W V D U1) as Hs2.
  { destruct Hs1 as [H1 H2 H3 H4]. split; try done. cbn. by rewrite H1. }
  eapply lwp_brelse; [exact Hs2|exact Hu1|done|]. intros s4 Hs4. split; [done|]. exists L'.
  destruct (read_blocks_fields (V start) (seqZ 0 (load32 (V start) 0)) (with_n (load32 (V start) 0) L))
    as (F1 & F2 & F3 & F4).
  split_and!.
  - replace U with (delete start U1); [exact Hs4|]. unfold U1. umap c.
  - split.
    + unfold L'. by rewrite F3.
    + unfold L'. by rewrite F1.
    + unfold L'. rewrite F4, length_hdr by done. done.
    + intros i y Hi. unfold hdr in Hi. apply list_lookup_fmap_Some in Hi as (k & -> & Hk).
      apply lookup_seqZ in Hk as [-> Hk]. unfold L'. rewrite lblock_read_blocks, Z.add_0_l.
      by rewrite decide_True by (rewrite elem_of_seqZ; lia).
  - exact F2.
Qed.

Lemma fst_install src k bs : (install_writes src k bs).*1 = bs.
Proof.
  revert k. induction bs as [|b bs IH]; intros k; [done|]. rewrite install_writes_cons. cbn. by rewrite IH.
Qed.

Lemma start_not_logged bs : loggable bs -> start ∉ bs.
Proof.
  intros [_ H Hm _] Hin. rewrite Forall_forall in H. destruct (H _ Hin) as [Hh _]. unfold home in Hh. lia.
Qed.

(** The disk writes of recovery from a disk whose log lists [bs]. *)
Definition recover_writes (D : Z -> block) (bs : list Z) : list (Z * block) :=
  install_writes D 0 bs ++ [(start, store32 (D start) 0 0)].

Lemma unpin_recover bs : forall U, foldl (unpin true) U bs = U.
Proof. induction bs as [|b bs IH]; intros U; [done|]. apply IH. Qed.

Lemma with_n_log_of L bs : log_of L bs -> log_of (with_n 0 L) [].
Proof. by intros [H1 H2 _ _]; split. Qed.

Lemma recover_spec s L p W V D U :
  stands s L p W V D U -> u32 (l_dev L) = d -> l_start L = start ->
  area_free U -> (S (size U) < Z.to_nat NBUF)%nat ->
  0 <= load32 (D start) 0 -> loggable (hdr (D start)) ->
  (forall b, b ∈ hdr (D start) -> U !! b = None) ->
  (forall i, 0 <= i < lsize -> V (start + i) = D (start + i)) ->
  let ws := recover_writes D (hdr (D start)) in
  wp recover_from_log (KSt [] s) (fun _ k => held k = [] /\ exists L',
    stands (st k) L' p (W ++ ws) (apply_writes V ws) (apply_writes D ws) U /\ log_of L' [] /\ same_ctl L L').
Proof.
  intros Hs Ld Ls Hfree Hsz Hn Hlg Hun Hcl ws. unfold recover_from_log.
  set (bs := hdr (D start)) in *. pose proof Hlg as [_ _ Hm Ha].
  assert (V start = D start) as Hst by (rewrite <- (Z.add_0_r start); apply Hcl; lia).
  wstep. eapply wp_mono; [apply (read_head_spec s L p W V D U); rewrite ?Hst; done || lia|].
  intros _ [h1 s1] (Eh & L1 & Hs1 & HL1 & Hctl). cbn [held st] in *. subst h1. rewrite Hst in HL1. fold bs in HL1.
  wstep. unfold install_trans. wstep. wstep. rewrite (sd_lg _ _ _ _ _ _ _ Hs1), (lo_n _ _ HL1).
  eapply wp_mono; [apply (install_loop_spec true bs D L1 p bs [] s1 W V D U); try done|].
  - apply Forall_forall. intros b Hb. split; [by apply Hun|done].
  - intros i Hi. split; [|done]. rewrite <- !Z.add_assoc. apply Hcl. lia.
  - cbn [length]. change (Z.of_nat 0) with 0. rewrite unpin_recover. set (ws1 := install_writes D 0 bs).
    intros _ [h2 s2] (Eh & Hs2). cbn [held st] in *. subst h2. wsteps.
    set (s3 := set_lg (with_n 0) s2).
    assert (stands s3 (with_n 0 L1) p (W ++ ws1) (apply_writes V ws1) (apply_writes D ws1) U) as Hs3.
    { destruct Hs2 as [H1 H2 H3 H4]. split; try done. cbn. by rewrite H1. }
    pose proof (with_n_log_of _ _ HL1) as HL0.
    eapply wp_mono; [apply (write_head_spec s3 _ p _ _ _ U [] Hs3 HL0); done || lia|].
    intros _ [h4 s4] (Eh & Hs4). cbn [held st] in *. subst h4. split; [done|]. exists (with_n 0 L1).
    split; [|done].
    assert (start ∉ ws1.*1) as Hnot by (unfold ws1; rewrite fst_install; by apply start_not_logged).
    rewrite (apply_writes_out ws1 V start Hnot), Hst in Hs4.
    rewrite (proj2 (hdr_zero (with_n 0 L1) (D start) eq_refl)) in Hs4.
    unfold ws, recover_writes. fold ws1. rewrite app_assoc, !apply_writes_app. exact Hs4.
Qed.

Lemma area_free_unpin rc bs : forall U, loggable bs -> area_free U -> area_free (foldl (unpin rc) U bs).
Proof.
  intros U [_ Hh _ _] [H1 H2]. revert U H1 H2. induction bs as [|b bs IH]; intros U H1 H2; [done|].
  apply Forall_cons in Hh as [[Hb _] Hh]. apply (IH Hh).
  - intros i Hi. rewrite unpin_ne; [by apply H1|]. unfold home in Hb. lia.
  - pose proof (unpin_size rc U b). lia.
Qed.

Lemma fst_log_writes src bs : forall k b, b ∈ (log_writes src k bs).*1 <->
  exists i, (i < length bs)%nat /\ b = start + 1 + k + Z.of_nat i.
Proof.
  induction bs as [|c bs IH]; intros k b.
  - cbn. split; [set_solver|]. intros (i & Hi & _). lia.
  - rewrite log_writes_cons. cbn [fmap list_fmap fst length]. rewrite elem_of_cons, IH. split.
    + intros [->|(i & Hi & ->)]; [exists 0%nat; lia|exists (S i); lia].
    + intros (i & Hi & ->). destruct i as [|i]; [left; lia|right; exists i; lia].
Qed.

Lemma lookup_log_writes V bs i b : bs !! i = Some b -> forall f,
  apply_writes f (log_writes V 0 bs) (start + 1 + Z.of_nat i) = V b.
Proof.
  intros Hi f. apply apply_writes_in.
  - clear. generalize 0. induction bs as [|c bs IH]; intros k; [constructor|]. rewrite log_writes_cons. cbn.
    constructor; [|apply IH]. rewrite fst_log_writes. intros (i & _ & E). lia.
  - unfold log_writes. apply list_elem_of_lookup. exists i. rewrite list_lookup_imap, Hi. cbn. do 2 f_equal. lia.
Qed.

Lemma install_writes_src src V bs : forall k,
  (forall i b, bs !! i = Some b -> src (start + 1 + k + Z.of_nat i) = V b) ->
  install_writes src k bs = (fun b => (b, V b)) <$> bs.
Proof.
  induction bs as [|b bs IH]; intros k H; [done|]. rewrite install_writes_cons, fmap_cons.
  rewrite <- (H 0%nat b eq_refl), Z.add_0_r. f_equal. apply IH. intros i c Hi.
  rewrite <- (H (S i) c Hi). f_equal. lia.
Qed.

(** The disk writes of a commit of [bs]: data to the log, the header that commits, the
    same data to the home locations, the header that empties the log. *)
Definition commit_writes (L : log) (V : Z -> block) (bs : list Z) : list (Z * block) :=
  log_writes V 0 bs ++ [(start, header L (V start))] ++ ((fun b => (b, V b)) <$> bs) ++
  [(start, store32 (header L (V start)) 0 0)].

Lemma commit_spec s L p W V D U bs :
  stands s L p W V D U -> log_of L bs -> loggable bs -> bs <> [] ->
  Forall (pinned U) bs -> area_free U ->
  let ws := commit_writes L V bs in
  wp commit (KSt [] s) (fun _ k => held k = [] /\
    stands (st k) (with_n 0 L) p (W ++ ws) (apply_writes V ws) (apply_writes D ws) (foldl (unpin false) U bs)).
Proof.
  intros Hs HL Hbs Hne Hpin Hfree ws. unfold commit. pose proof Hbs as [Hnd Hhome Hm Ha].
  assert (0 < Z.of_nat (length bs)) by (destruct bs; [done|cbn; lia]).
  assert (forall i b, bs !! i = Some b -> b <> start /\ b <> start + 1 + Z.of_nat i) as Hdis.
  { intros i b Hi. destruct (loggable_block _ _ _ Hbs Hi) as (_ & Hh & _ & Hi1). unfold home in Hh. lia. }
  wstep. wstep. rewrite (sd_lg _ _ _ _ _ _ _ Hs), (lo_n _ _ HL). destruct (Z.ltb_spec 0 (Z.of_nat (length bs))); [|lia].
  wstep. unfold write_log. wstep. wstep. rewrite (sd_lg _ _ _ _ _ _ _ Hs), (lo_n _ _ HL).
  eapply wp_mono; [apply (write_log_loop_spec bs V L p U bs [] s W V D); done|].
  cbn [length]. change (Z.of_nat 0) with 0. set (w1 := log_writes V 0 bs).
  intros _ [h1 s1] (Eh & Hs1). cbn [held st] in *. subst h1. wstep.
  assert (apply_writes V w1 start = V start) as Hst.
  { apply apply_writes_out. unfold w1. rewrite fst_log_writes. intros (i & _ & E). lia. }
  eapply wp_mono; [apply (write_head_spec s1 L p _ _ _ U bs Hs1 HL Hfree); lia|].
  rewrite Hst. set (hn := header L (V start)). set (w2 := w1 ++ [(start, hn)]).
  intros _ [h2 s2] (Eh & Hs2). cbn [held st] in *. subst h2.
  assert (forall f, fupd (apply_writes f w1) start hn = apply_writes f w2) as Ew2
    by (intros f; unfold w2; by rewrite apply_writes_app).
  rewrite <- app_assoc, !Ew2 in Hs2. change (w1 ++ [(start, hn)]) with w2 in Hs2.
  wstep. unfold install_trans. wstep. wstep. rewrite (sd_lg _ _ _ _ _ _ _ Hs2), (lo_n _ _ HL).
  assert (forall f i b, bs !! i = Some b -> apply_writes f w2 (start + 1 + Z.of_nat i) = V b) as Hlog.
  { intros f i b Hi. unfold w2. rewrite apply_writes_app. cbn. rewrite fupd_ne by lia. by apply lookup_log_writes. }
  eapply wp_mono; [apply (install_loop_spec false bs (apply_writes V w2) L p bs [] s2 (W ++ w2) (apply_writes V w2)
    (apply_writes D w2) U); try done|].
  { intros i Hi. destruct (lookup_lt_is_Some_2 bs (Z.to_nat i)) as [b Hb]; [lia|]. split; [done|].
    rewrite <- (Z2Nat.id i) by lia. by rewrite !(Hlog _ _ b). }
  cbn [length]. change (Z.of_nat 0) with 0.
  rewrite (install_writes_src _ V) by (intros i b Hi; rewrite Z.add_0_r; by apply Hlog).
  set (w3 := (fun b => (b, V b)) <$> bs).
  intros _ [h3 s3] (Eh & Hs3). cbn [held st] in *. subst h3. wsteps.
  assert (stands (set_lg (with_n 0) s3) (with_n 0 L) p ((W ++ w2) ++ w3)
    (apply_writes (apply_writes V w2) w3) (apply_writes (apply_writes D w2) w3) (foldl (unpin false) U bs)) as Hs4.
  { destruct Hs3 as [H1 H2 H3 H4]. split; try done. cbn. by rewrite H1. }
  assert (apply_writes (apply_writes V w2) w3 start = hn) as Hst3.
  { rewrite apply_writes_out; [unfold w2; rewrite apply_writes_app; apply fupd_eq|].
    unfold w3. rewrite <- list_fmap_compose, list_fmap_id. by apply start_not_logged. }
  eapply wp_mono; [apply (write_head_spec _ _ p _ _ _ _ [] Hs4 (with_n_log_of _ _ HL)); try lia;
    by apply area_free_unpin|].
  rewrite Hst3, (proj2 (hdr_zero (with_n 0 L) hn eq_refl)).
  intros _ [h5 s5] (Eh & Hs5). cbn [held st] in *. subst h5. split; [done|].
  assert (ws = (w2 ++ w3) ++ [(start, store32 hn 0 0)]) as ->.
  { unfold ws, commit_writes. fold w1 hn w3. unfold w2. by rewrite <- !app_assoc. }
  rewrite !apply_writes_app, !app_assoc. exact Hs5.
Qed.
End LogSpec.
