(* ===== verification/LogThms.v ===== *)
(** * The log: crash atomicity

    A crash cuts the sequence of disk writes after some write; the next boot runs
    [binit] and [initlog] on whatever is on disk then. *)
From S2P Require Import Prelude Mem Sleeplock Bio BioSpec Log LogSpec.

(** The disk after a list of writes. *)
Definition disk_after (m : gmap Z block) (ws : list (Z * block)) : gmap Z block :=
  foldl (fun m w => <[fst w := snd w]> m) m ws.

Lemma disk_after_apply ws : forall m b,
  default ∅ (disk_after m ws !! b) = apply_writes (fun b => default ∅ (m !! b)) ws b.
Proof.
  induction ws as [|[c x] ws IH]; intros m b; [done|]. cbn [disk_after foldl fst snd].
  unfold disk_after in IH. rewrite IH. cbn [apply_writes foldl fst snd].
  assert (forall ws f g, (forall b, f b = g b) -> forall b, apply_writes f ws b = apply_writes g ws b) as Hext.
  { clear. induction ws as [|[c x] ws IH]; intros f g H b; [apply H|]. apply IH. intros a. unfold fupd.
    cbn. by destruct (a =? c). }
  apply Hext. intros a. unfold fupd. destruct (Z.eqb_spec a c) as [->|].
  - by rewrite lookup_insert_eq.
  - by rewrite lookup_insert_ne.
Qed.

Section Crash.
Variables (start lsize : Z).

(** ** What recovery makes of a disk *)

Definition after_recovery (D : Z -> block) : Z -> block :=
  apply_writes D (recover_writes start D (hdr (D start))).

(** A disk whose log recovery can process. *)
Definition recoverable (D : Z -> block) : Prop :=
  0 <= load32 (D start) 0 /\ loggable start lsize (hdr (D start)).

Lemma after_recovery_out D b : loggable start lsize (hdr (D start)) ->
  b <> start -> b ∉ hdr (D start) -> after_recovery D b = D b.
Proof.
  intros Hl Hb Hn. apply apply_writes_out. unfold recover_writes.
  rewrite fmap_app, fst_install. set_solver.
Qed.
Lemma after_recovery_in D i b : loggable start lsize (hdr (D start)) ->
  hdr (D start) !! i = Some b -> after_recovery D b = D (start + 1 + Z.of_nat i).
Proof.
  intros Hl Hi. unfold after_recovery, recover_writes. rewrite apply_writes_app. cbn.
  rewrite fupd_ne.
  - apply apply_writes_in; [rewrite fst_install; apply Hl|].
    apply list_elem_of_lookup. exists i. unfold install_writes. rewrite list_lookup_imap, Hi.
    cbn. by rewrite Z.add_0_r.
  - intros ->. by apply (start_not_logged _ _ _ Hl), list_elem_of_lookup_2 with i.
Qed.

(** Two disks with the same log, that differ at most in blocks the log will overwrite,
    recover alike. *)
Lemma after_recovery_same D D' : loggable start lsize (hdr (D start)) ->
  D' start = D start ->
  (forall i, (i < length (hdr (D start)))%nat -> D' (start + 1 + Z.of_nat i) = D (start + 1 + Z.of_nat i)) ->
  (forall b, home start lsize b -> b ∉ hdr (D start) -> D' b = D b) ->
  forall b, home start lsize b -> after_recovery D' b = after_recovery D b.
Proof.
  intros Hl Es Elog Eout b Hb. assert (b <> start) as Hbs.
  { destruct Hl as [_ _ Hm _]. unfold home in Hb. lia. }
  destruct (decide (b ∈ hdr (D start))) as [Hin|Hn].
  - apply list_elem_of_lookup in Hin as [i Hi]. rewrite (after_recovery_in D i) by done.
    rewrite (after_recovery_in D' i) by (by rewrite Es). apply Elog. by eapply lookup_lt_Some.
  - rewrite !after_recovery_out by (by rewrite ?Es). by apply Eout.
Qed.

(** ** Recovery is idempotent under crashes *)

Lemma in_area_not_logged bs i : loggable start lsize bs -> (i < length bs)%nat -> start + 1 + Z.of_nat i ∉ bs.
Proof.
  intros [_ Hh Hm _] Hi Hin. rewrite Forall_forall in Hh. destruct (Hh _ Hin) as [H _]. unfold home in H. lia.
Qed.

Lemma recovery_crash D k : recoverable D ->
  let D1 := apply_writes D (take k (recover_writes start D (hdr (D start)))) in
  recoverable D1 /\ forall b, home start lsize b -> after_recovery D1 b = after_recovery D b.
Proof.
  intros [Hn Hl]. set (bs := hdr (D start)) in *. intros D1.
  assert (D1 = apply_writes D (take k (install_writes start D 0 bs) ++
    take (k - length (install_writes start D 0 bs)) [(start, store32 (D start) 0 0)])) as ED1
    by (unfold D1, recover_writes; by rewrite take_app).
  clearbody D1.
  destruct (decide (k <= length (install_writes start D 0 bs))%nat) as [Hk|Hk].
  - (* the log is still there *)
        assert (forall b, b ∉ bs -> D1 b = D b) as Hout.
    { intros b Hb. rewrite ED1. replace (k - length _)%nat with 0%nat by lia. rewrite app_nil_r.
      apply apply_writes_out. rewrite fmap_take, fst_install. intros Hin.
      apply Hb. apply elem_of_take in Hin as (i & Hi & _). by eapply list_elem_of_lookup_2. }
    assert (D1 start = D start) as Es by (apply Hout; by eapply start_not_logged).
    split; [split; by rewrite Es|]. apply after_recovery_same; [done|done| |by intros; apply Hout].
    intros i Hi. apply Hout. by apply in_area_not_logged.
  - (* everything was written: the log is empty *)
    assert (D1 = after_recovery D) as E.
    { rewrite ED1. unfold after_recovery, recover_writes. fold bs. f_equal. rewrite take_ge by lia.
      f_equal. apply take_ge. cbn. lia. }
    assert (D1 start = store32 (D start) 0 0) as Es.
    { rewrite E. unfold after_recovery, recover_writes. rewrite apply_writes_app. apply fupd_eq. }
    assert (hdr (D1 start) = []) as Eh by (rewrite Es; unfold hdr; by rewrite load_store32_eq by lia).
    assert (loggable start lsize []) as Hl0.
    { destruct Hl as [_ _ Hm Ha]. split; [constructor|constructor|cbn; unfold LOGSIZE, MAXOPBLOCKS; lia|done]. }
    split.
    + split; [rewrite Es, load_store32_eq; lia|by rewrite Eh].
    + intros b Hb. rewrite after_recovery_out, E; rewrite ?Eh; try done; [|set_solver].
      destruct Hl as [_ _ Hm _]. unfold home in Hb. lia.
Qed.

(** ** A crash during commit *)

Section CommitCrash.
Variables (d : Z) (L : log) (V D : Z -> block) (bs : list Z).
Hypothesis HL : log_of d start L bs.
Hypothesis Hbs : loggable start lsize bs.
Hypothesis Hempty : load32 (D start) 0 = 0.

Let lw := log_writes start V 0 bs.
Let hn := header L (V start).
Let w3 := (fun b => (b, V b)) <$> bs.
Let D2 := apply_writes D (lw ++ [(start, hn)]).

Lemma home_ne_area b i : home start lsize b -> (i < length bs)%nat -> b <> start /\ b <> start + 1 + Z.of_nat i.
Proof. clear HL Hempty. intros Hb Hi. destruct Hbs as [_ _ Hm _]. unfold home in Hb. lia. Qed.
Lemma home_ne_start b : home start lsize b -> b <> start.
Proof. clear HL Hempty. intros Hb. destruct Hbs as [_ _ Hm _]. unfold home in Hb. lia. Qed.

Lemma lw_keys b : b ∈ lw.*1 -> exists i, (i < length bs)%nat /\ b = start + 1 + Z.of_nat i.
Proof. clear HL Hbs Hempty. intros Hb. apply fst_log_writes in Hb as (i & Hi & ->). exists i. lia. Qed.

Lemma recoverable_empty D1 : load32 (D1 start) 0 = 0 ->
  recoverable D1 /\ forall b, home start lsize b -> after_recovery D1 b = D1 b.
Proof.
  clear HL Hempty. intros E. assert (hdr (D1 start) = []) as Eh by (unfold hdr; by rewrite E).
  assert (loggable start lsize (hdr (D1 start))) as Hl.
  { rewrite Eh. destruct Hbs as [_ _ Hm Ha].
    split; [constructor|constructor|cbn; unfold LOGSIZE, MAXOPBLOCKS; lia|done]. }
  split; [split; [lia|done]|]. intros b Hb. apply after_recovery_out; [done|by apply home_ne_start|].
  rewrite Eh. set_solver.
Qed.

(** Once the header is written the transaction is on disk. *)
Lemma committed : D2 start = hn /\ hdr hn = bs /\
  (forall i b, bs !! i = Some b -> D2 (start + 1 + Z.of_nat i) = V b) /\
  (forall b, home start lsize b -> D2 b = D b).
Proof.
  clear Hempty. unfold D2. split_and!.
  - rewrite apply_writes_app. apply fupd_eq.
  - by eapply hdr_header.
  - intros i b Hi. rewrite apply_writes_app. cbn. rewrite fupd_ne by lia. by apply lookup_log_writes.
  - intros b Hb. apply apply_writes_out. rewrite fmap_app. cbn. rewrite not_elem_of_app. split.
    + intros (i & Hi & ->)%lw_keys. by destruct (home_ne_area _ i Hb Hi).
    + pose proof (home_ne_start b Hb). set_solver.
Qed.

Lemma w3_fst ws : (forall w, w ∈ ws -> w ∈ w3) -> forall b, b ∈ ws.*1 -> b ∈ bs.
Proof.
  clear HL Hbs Hempty. intros H b Hb. apply list_elem_of_fmap in Hb as (w & -> & Hw). apply H in Hw. unfold w3 in Hw.
  apply list_elem_of_fmap in Hw as (c & -> & Hc). done.
Qed.

(** Disks after the commit point: the tail of the installation may be missing. *)
Lemma committed_crash j : let D1 := apply_writes D2 (take j w3) in
  recoverable D1 /\
  forall b, home start lsize b -> after_recovery D1 b = if decide (b ∈ bs) then V b else D b.
Proof.
  intros D1. destruct committed as (E1 & E2 & E3 & E4).
  assert (forall b, b ∉ bs -> D1 b = D2 b) as Hout.
  { intros b Hb. apply apply_writes_out. intros Hin. apply Hb. eapply w3_fst; [|exact Hin].
    intros w Hw. apply elem_of_take in Hw as (i & Hi & _). by eapply list_elem_of_lookup_2. }
  assert (D1 start = D2 start) as Es by (apply Hout; by eapply start_not_logged).
  assert (hdr (D1 start) = bs) as Eh by (by rewrite Es, E1).
  assert (load32 (D2 start) 0 = Z.of_nat (length bs)) as En.
  { rewrite E1. unfold hn, header. rewrite (lo_n _ _ _ _ HL). rewrite load_write_blocks_out.
    - apply load_store32_eq. destruct Hbs as [_ _ Hm Ha]. lia.
    - intros i Hi%elem_of_seqZ. lia. }
  split; [split; [rewrite Es, En; lia|by rewrite Eh]|]. intros b Hb.
  destruct (decide (b ∈ bs)) as [Hin|Hn].
  - apply list_elem_of_lookup in Hin as [i Hi]. rewrite (after_recovery_in D1 i) by (by rewrite Eh).
    rewrite Hout by (eapply in_area_not_logged; [done|by eapply lookup_lt_Some]). by apply E3.
  - rewrite after_recovery_out by (rewrite ?Eh; done || by apply home_ne_start). rewrite Hout by done. by apply E4.
Qed.

Lemma installed b : home start lsize b -> apply_writes D2 w3 b = if decide (b ∈ bs) then V b else D b.
Proof.
  clear Hempty. intros Hh. destruct (decide (b ∈ bs)) as [Hin|Hn].
  - apply apply_writes_in; unfold w3.
    + rewrite <- list_fmap_compose, list_fmap_id. apply Hbs.
    + apply list_elem_of_fmap. by exists b.
  - destruct committed as (_ & _ & _ & E4). rewrite apply_writes_out; [by apply E4|].
    intros Hin. by apply (w3_fst w3) in Hin.
Qed.

Lemma commit_done b : home start lsize b ->
  apply_writes D (commit_writes start L V bs) b = if decide (b ∈ bs) then V b else D b.
Proof.
  clear Hempty. intros Hb. unfold commit_writes. fold lw hn w3. rewrite (app_assoc lw), app_assoc, apply_writes_app.
  cbn. rewrite fupd_ne by (by apply home_ne_start). rewrite apply_writes_app. by apply installed.
Qed.

Lemma commit_crash k : let D1 := apply_writes D (take k (commit_writes start L V bs)) in
  recoverable D1 /\
  ((forall b, home start lsize b -> after_recovery D1 b = D b) \/
   (forall b, home start lsize b -> after_recovery D1 b = if decide (b ∈ bs) then V b else D b)).
Proof.
  intros D1. unfold commit_writes in D1. fold lw hn w3 in D1.
  destruct (decide (k <= length lw)%nat) as [Hk|Hk].
  { (* not committed *)
    assert (forall b, (forall i, (i < length bs)%nat -> b <> start + 1 + Z.of_nat i) -> D1 b = D b) as Hout.
    { intros b Hb. unfold D1. rewrite take_app_le by done. apply apply_writes_out. intros Hin.
      rewrite fmap_take in Hin. apply elem_of_take in Hin as (i & Hi & _).
      apply list_elem_of_lookup_2, lw_keys in Hi as (j & Hj & ->). by apply (Hb j). }
    assert (D1 start = D start) as Es by (apply Hout; lia).
    destruct (recoverable_empty D1) as [Hr Ha]; [by rewrite Es|]. split; [done|left]. intros b Hb.
    rewrite Ha by done. apply Hout. intros i Hi. by apply home_ne_area. }
  set (z := (start, store32 hn 0 0)). set (j := (k - length lw - 1)%nat).
  assert (D1 = apply_writes D2 (take j (w3 ++ [z]))) as E1.
  { unfold D1, D2. rewrite <- apply_writes_app. f_equal. rewrite app_assoc, take_app, take_ge
      by (rewrite length_app; cbn; lia). do 2 f_equal. rewrite length_app. cbn. lia. }
  rewrite E1. destruct (decide (j <= length w3)%nat) as [Hj|Hj].
  { (* committed, being installed *)
    rewrite take_app_le by done. destruct (committed_crash j) as [Hr Ha]. by split; [|right]. }
  (* installed and cleared *)
  rewrite take_ge by (rewrite length_app; cbn; lia).
  rewrite apply_writes_app. cbn [apply_writes foldl fst snd z].
  fold (apply_writes D2 w3).
  destruct (recoverable_empty (fupd (apply_writes D2 w3) start (store32 hn 0 0))) as [Hr Hb].
  { rewrite fupd_eq. apply load_store32_eq. lia. }
  split; [done|right]. intros b Hh. rewrite Hb, fupd_ne by (done || by apply home_ne_start).
  by apply installed.
Qed.
End CommitCrash.
End Crash.

(** ** Booting on a disk *)

(** Memory is zero at power-on. *)
Definition power_on (m : gmap Z block) (pid : Z) : fsst :=
  Fsst (Log 0 0 0 false 0 0 ∅) (Bcache ∅ m [] pid []).
Definition reboot (d start nlog : Z) : M fsst unit := lift binit ;; initlog d start nlog.

Definition disk_of (m : gmap Z block) (b : Z) : block := default ∅ (m !! b).

Lemma reboot_spec d start lsize m q : 0 < d < 2 ^ 32 -> recoverable start lsize (disk_of m) ->
  wp (reboot d start lsize) (KSt [] (power_on m q)) (fun _ k => held k = [] /\
    writes (bc (st k)) = recover_writes start (disk_of m) (hdr (disk_of m start)) /\
    (forall b, dk (bc (st k)) b = after_recovery start (disk_of m) b) /\
    exists L V D, stands d (st k) L q (writes (bc (st k))) V D ∅ /\ log_of d start L [] /\
      same_ctl (Log start lsize 0 false d 0 ∅) L /\ load32 (D start) 0 = 0 /\ forall b, V b = D b).
Proof.
  intros Hd [Hn Hl]. unfold reboot. wstep. apply wp_lift.
  eapply wp_mono; [apply (binit_rep d m [] q []); lia|].
  intros _ [h s] (Eh & R & Hw & Hp). cbn [held st bc lg power_on] in *. subst h. unfold initlog.
  change (BSIZE <=? 4 + 4 * LOGSIZE) with false. cbv iota. wsteps.
  set (L := Log start lsize 0 false d 0 ∅). cbn [set_lg lg bc]. fold L.
  assert (stands d (Fsst L s) L q [] (disk_of m) (disk_of m) ∅) as Hs by (by split).
  eapply wp_mono; [eapply (recover_spec d start lsize); [exact Hs|apply u32_small; lia|done|..]|].
  - split; [done|]. rewrite map_size_empty. unfold NBUF. lia.
  - rewrite map_size_empty. unfold NBUF. lia.
  - exact Hn.
  - exact Hl.
  - done.
  - done.
  - intros _ k (Hk & L' & Hs' & HL' & Hctl). split; [done|]. pose proof Hs' as [_ _ Hw' R'].
    split; [done|]. split; [intros b; by rewrite (rp_disk _ _ _ _ _ R')|].
    exists L'. do 2 eexists. rewrite Hw'. split; [exact Hs'|]. split_and!; try done.
    unfold recover_writes. rewrite apply_writes_app. cbn. rewrite fupd_eq. apply load_store32_eq. lia.
Qed.

Lemma recoverable_ext start lsize D D' : D' start = D start ->
  recoverable start lsize D -> recoverable start lsize D'.
Proof. unfold recoverable. by intros ->. Qed.

Lemma apply_writes_ext ws : forall f g b, (forall a, f a = g a) -> apply_writes f ws b = apply_writes g ws b.
Proof.
  induction ws as [|[c x] ws IH]; intros f g b H; [apply H|]. apply IH. intros a. unfold fupd.
  cbn. by destruct (a =? c).
Qed.

Lemma after_recovery_ext start D D' b : (forall a, D' a = D a) -> after_recovery start D' b = after_recovery start D b.
Proof.
  intros H. unfold after_recovery, recover_writes. rewrite !apply_writes_app, H. cbn. unfold fupd.
  destruct (b =? start); [done|].
  assert (install_writes start D' 0 (hdr (D start)) = install_writes start D 0 (hdr (D start))) as ->.
  { apply imap_ext. intros i x _. by rewrite H. }
  by apply apply_writes_ext.
Qed.

(** C20: recovery may itself be interrupted.  From any disk with a well-formed log, a
    boot that loses power after any number [k] of its disk writes, followed by another
    boot, leaves the same blocks outside the log area as one undisturbed boot. *)
Theorem recovery_crash_safe d start nlog m k q q'
    (Hd : 0 < d < 2 ^ 32) (Hrec : recoverable start nlog (disk_of m)) :
  exists s1 s2, reboot d start nlog (KSt [] (power_on m q)) = Ok tt (KSt [] s1) /\
    reboot d start nlog (KSt [] (power_on (disk_after m (take k (writes (bc s1)))) q')) = Ok tt (KSt [] s2) /\
    forall b, home start nlog b -> dk (bc s2) b = dk (bc s1) b.
Proof.
  destruct (wp_elim _ _ _ (reboot_spec d start nlog m q Hd Hrec)) as ([] & [h1 s1] & E1 & Eh & Hw & Hdk1 & _).
  cbn [held st] in *. subst h1.
  destruct (recovery_crash start nlog (disk_of m) k Hrec) as [Hrec1 Hsame]. rewrite <- Hw in Hrec1, Hsame.
  assert (forall a, disk_of (disk_after m (take k (writes (bc s1)))) a =
    apply_writes (disk_of m) (take k (writes (bc s1))) a) as HD1 by (intros a; apply disk_after_apply).
  destruct (wp_elim _ _ _ (reboot_spec d start nlog (disk_after m (take k (writes (bc s1)))) q' Hd
    ltac:(eapply recoverable_ext; [apply HD1|exact Hrec1]))) as ([] & [h2 s2] & E2 & Eh & _ & Hdk2 & _).
  cbn [held st] in *. subst h2. exists s1, s2. split_and!; [exact E1|exact E2|]. intros b Hb.
  rewrite Hdk2, Hdk1, (after_recovery_ext _ (apply_writes (disk_of m) (take k (writes (bc s1))))) by done.
  by apply Hsame.
Qed.

(** A disk whose log, at block 2, holds a committed block 40. *)
Definition lw_head : block := store32 (store32 ∅ 0 1) 4 40.
Definition lw_disk : gmap Z block := <[2 := lw_head]> (<[3 := {[0 := 7]}]> ∅).

Lemma recovery_crash_safe_witness :
  hdr (disk_of lw_disk 2) = [40] /\
  exists s1 s2, reboot 1 2 30 (KSt [] (power_on lw_disk 5)) = Ok tt (KSt [] s1) /\
    reboot 1 2 30 (KSt [] (power_on (disk_after lw_disk (take 1 (writes (bc s1)))) 5)) = Ok tt (KSt [] s2) /\
    forall b, home 2 30 b -> dk (bc s2) b = dk (bc s1) b.
Proof.
  assert (hdr (disk_of lw_disk 2) = [40]) as Eh by (vm_compute; reflexivity). split; [exact Eh|].
  apply (recovery_crash_safe 1 2 30 lw_disk 1 5 5); [lia|]. split; [vm_compute; discriminate|]. rewrite Eh.
  split; [apply NoDup_singleton|apply Forall_singleton; unfold home; lia|cbn; unfold LOGSIZE, MAXOPBLOCKS; lia|lia].
Defined.

(** ** Building a transaction *)

Lemma find_logged_spec l bs b : (forall i c, bs !! i = Some c -> u32 (lblock l (Z.of_nat i)) = c) ->
  forall bs2 bs1, bs = bs1 ++ bs2 -> b ∉ bs1 ->
  exists i, find_logged l b (seqZ (Z.of_nat (length bs1)) (Z.of_nat (length bs2))) (Z.of_nat (length bs)) = Z.of_nat i /\
    ((bs !! i = Some b) \/ ((b ∉ bs) /\ i = length bs)).
Proof.
  intros Hl. induction bs2 as [|c bs2 IH]; intros bs1 E Hn.
  - cbn [length]. rewrite seqZ_nil by lia. exists (length bs). split; [done|right].
    rewrite E, app_nil_r in *. done.
  - cbn [length]. rewrite seqZ_nat_cons. cbn [find_logged].
    assert (bs !! length bs1 = Some c) as Hc by (rewrite E; by apply list_lookup_middle).
    rewrite (Hl _ _ Hc). destruct (Z.eqb_spec c b) as [->|Hcb].
    + exists (length bs1). split; [done|by left].
    + specialize (IH (bs1 ++ [c])). rewrite length_app in IH. cbn [length] in IH.
      replace (length bs1 + 1)%nat with (S (length bs1)) in IH by lia. apply IH; [by rewrite <- app_assoc|set_solver].
Qed.

(** The log after recording block [b]. *)
Definition logged (bs : list Z) (b : Z) : list Z := if decide (b ∈ bs) then bs else bs ++ [b].

Lemma log_of_insert d start L bs i b : log_of d start L bs -> 0 <= b < 2 ^ 31 ->
  bs !! i = Some b -> log_of d start (with_block (Z.of_nat i) (i32 b) L) bs.
Proof.
  intros [H1 H2 H3 H4] Hb Hi. split; try done. intros j c Hj. unfold with_block, lblock. cbn.
  destruct (decide (j = i)) as [->|].
  - rewrite lookup_insert_eq. cbn. rewrite Hi in Hj. injection Hj as <-.
    rewrite <- (i32_u32 b) at 2 by lia. by rewrite u32_small by lia.
  - rewrite lookup_insert_ne by lia. by apply H4.
Qed.
Lemma log_of_append d start L bs b : log_of d start L bs -> 0 <= b < 2 ^ 31 ->
  log_of d start (with_n (lh_n L + 1) (with_block (Z.of_nat (length bs)) (i32 b) L)) (bs ++ [b]).
Proof.
  intros [H1 H2 H3 H4] Hb. split; try done.
  - rewrite length_app. cbn. rewrite H3. lia.
  - intros j c Hj. unfold with_n, with_block, lblock. cbn. apply lookup_app_Some in Hj as [Hj|[Hj Hj']].
    + rewrite lookup_insert_ne by (apply lookup_lt_Some in Hj; lia). by apply H4.
    + apply list_lookup_singleton_Some in Hj' as [E <-]. replace j with (length bs) by lia.
      rewrite lookup_insert_eq. cbn. rewrite <- (i32_u32 b) at 2 by lia. by rewrite u32_small by lia.
Qed.

Lemma log_write_spec d start s L p W V D U bs b i r :
  stands d s L p W V D U -> log_of d start L bs -> Forall (fun b => 0 <= b < 2 ^ 31) (b :: bs) ->
  Z.of_nat (length bs) < LOGSIZE -> Z.of_nat (length bs) < l_size L - 1 -> 1 <= l_outstanding L ->
  U !! b = Some (Use i r (Sleeplock true p) true) -> r + 1 < 2 ^ 32 ->
  wp (log_write i) (KSt [] s) (fun _ k => held k = [] /\ exists L',
    log_of d start L' (logged bs b) /\ l_size L' = l_size L /\ l_outstanding L' = l_outstanding L /\
    l_committing L' = l_committing L /\ stands d (st k) L' p W V D
      (if decide (b ∈ bs) then U else <[b := Use i (r + 1) (Sleeplock true p) true]> U)).
Proof.
  intros Hs HL Hr Hn1 Hn2 Hout Hu Hrr. apply Forall_cons in Hr as [Hb Hbs]. rewrite Forall_lookup in Hbs.
  destruct (rep_use _ _ _ _ _ _ _ (sd_rep _ _ _ _ _ _ _ _ Hs) Hu) as ((_ & _ & Eb) & _). cbn [u_idx] in Eb.
  pose proof (sd_lg _ _ _ _ _ _ _ _ Hs) as El. pose proof (lo_n _ _ _ _ HL) as En.
  unfold log_write. wstep. wstep. rewrite El, En.
  destruct (Z.leb_spec LOGSIZE (Z.of_nat (length bs))); [lia|].
  destruct (Z.leb_spec (l_size L - 1) (Z.of_nat (length bs))); [lia|]. cbn [orb].
  destruct (Z.ltb_spec (l_outstanding L) 1); [lia|]. do 6 wstep. rewrite Eb.
  destruct (find_logged_spec L bs b) with (bs2 := bs) (bs1 := @nil Z) as (j & Ej & Hj).
  { intros k c Hk. rewrite (lo_block _ _ _ _ HL _ _ Hk). apply u32_small. specialize (Hbs _ _ Hk). lia. }
  { done. }
  { set_solver. }
  cbn [length] in Ej. change (Z.of_nat 0) with 0 in Ej. rewrite Ej.
  unfold logged. destruct Hj as [Hj|[Hnin ->]].
  - pose proof (lookup_lt_Some _ _ _ Hj). destruct (Z.eqb_spec (Z.of_nat j) (Z.of_nat (length bs))); [lia|].
    rewrite !decide_True by (by eapply list_elem_of_lookup_2). do 3 wstep. split; [done|].
    exists (with_block (Z.of_nat j) (i32 b) L). split_and!; try done; [by apply log_of_insert|].
    destruct Hs as [S1 S2 S3 S4]. split; try done. cbn. by rewrite S1.
  - rewrite Z.eqb_refl, !decide_False by done. wstep. wstep. apply wp_lift.
    eapply (wp_bpin d [log_lock]); [apply (sd_rep _ _ _ _ _ _ _ _ Hs)|set_solver|exact Hu|done|].
    intros s' R' [Hw Hp]. do 2 wstep. split; [done|].
    exists (with_n (lh_n L + 1) (with_block (Z.of_nat (length bs)) (i32 b) L)).
    split_and!; try done; [by apply log_of_append|]. destruct Hs as [S1 S2 S3 S4]. split; cbn; try done.
    + by rewrite S1, En.
    + cbn in Hp. congruence.
    + cbn in Hw. congruence.
Qed.
