(* ===== verification/LogTxn.v ===== *)
(** * Transactions: begin_op, logged updates, end_op *)
From S2P Require Import Prelude Mem Sleeplock Bio BioSpec Log LogSpec LogThms.

(** The pattern of a file-system update, from the comment above [log_write]. *)
Definition update (d : Z) (w : Z * block) : M fsst unit :=
  b ← lift (bread d (fst w));
  lift (put_data b (snd w)) ;;
  log_write b ;;
  lift (brelse b).
Fixpoint updates (d : Z) (ups : list (Z * block)) : M fsst unit :=
  match ups with [] => mret tt | w :: rest => update d w ;; updates d rest end.
Definition transaction (d : Z) (ups : list (Z * block)) : M fsst unit :=
  begin_op ;; updates d ups ;; end_op.

Section Txn.
Variables (d start nlog : Z).

(** Between transactions: the log is empty in memory and on disk, no buffer is in use,
    and every cached block agrees with the disk. *)
Definition quiescent (s : fsst) : Prop := exists L p W V D,
  stands d s L p W V D ∅ /\ log_of d start L [] /\ l_size L = nlog /\ l_outstanding L = 0 /\
  l_committing L = false /\ load32 (D start) 0 = 0 /\ forall b, V b = D b.

(** Part-way through: the blocks [bs] logged so far are pinned, all others are clean. *)
Record in_txn (s : fsst) (p : Z) (W : list (Z * block)) (V D : Z -> block) (bs : list Z) (L : log) : Prop := {
  it_use : exists U, stands d s L p W V D U /\ dom U = list_to_set bs /\
    forall b, b ∈ bs -> exists i, U !! b = Some (Use i 1 initsleeplock true);
  it_log : log_of d start L bs;
  it_able : loggable start nlog bs;
  it_size : l_size L = nlog;
  it_out : l_outstanding L = 1;
  it_comm : l_committing L = false;
  it_clean : forall b, b ∉ bs -> V b = D b;
  it_head : load32 (D start) 0 = 0;
}.

Lemma size_of_dom (U : gmap Z use) bs : NoDup bs -> dom U = list_to_set bs -> size U = length bs.
Proof. intros Hnd Hd. rewrite <- size_dom, Hd. by apply size_list_to_set. Qed.

(** Blocks that may join the log: room for them, and outside the log area. *)
Definition fits (bs : list Z) (b : Z) : Prop :=
  home start nlog b /\ 0 <= b < 2 ^ 31 /\
  Z.of_nat (length bs) < LOGSIZE /\ Z.of_nat (length bs) < nlog - 1.

Lemma loggable_logged bs b : loggable start nlog bs -> fits bs b -> loggable start nlog (logged bs b).
Proof.
  intros [H1 H2 H3 H4] (Hh & Hb & Hn1 & Hn2). unfold logged. destruct (decide (b ∈ bs)) as [|Hn]; [done|].
  split; try done.
  - apply NoDup_app. split_and!; [done|set_solver|apply NoDup_singleton].
  - apply Forall_app. split; [done|]. by apply Forall_singleton.
  - rewrite length_app. cbn. lia.
Qed.

Lemma update_spec s p W V D bs L b x :
  in_txn s p W V D bs L -> fits bs b ->
  wp (update d (b, x)) (KSt [] s) (fun _ k => held k = [] /\ exists L',
    in_txn (st k) p W (fupd V b x) D (logged bs b) L').
Proof.
  intros [(U & Hs & Hdom & Hpin) HL Hbs Hsz Hout Hcm Hcl Hhd] Hfit. pose proof Hfit as (Hh & Hb & Hn1 & Hn2).
  assert (lockable U b) as Hlk.
  { unfold lockable. destruct (decide (b ∈ bs)) as [Hin|Hn].
    - by destruct (Hpin b Hin) as [i ->].
    - rewrite (not_elem_of_dom_1 U b) by (rewrite Hdom; set_solver).
      rewrite (size_of_dom U bs) by (done || apply Hbs). unfold LOGSIZE, MAXOPBLOCKS, NBUF in *. lia. }
  unfold update. cbn [fst snd]. wstep. eapply lwp_bread; [exact Hs|exact Hlk|]. intros i s1 Hs1 Hidx.
  assert (refs U b = if decide (b ∈ bs) then 1 else 0) as Er.
  { unfold refs. destruct (decide (b ∈ bs)) as [Hin|Hn]; [by destruct (Hpin b Hin) as [j ->]|].
    by rewrite (not_elem_of_dom_1 U b) by (rewrite Hdom; set_solver). }
  rewrite Er in Hs1. set (r := if decide (b ∈ bs) then 1 else 0) in *. set (U1 := <[b := _]> U) in Hs1.
  assert (U1 !! b = Some (Use i (r + 1) (Sleeplock true p) true)) as Hu1 by apply lookup_insert_eq.
  assert (0 <= r <= 1) as Hr by (unfold r; case_decide; lia).
  wstep. eapply lwp_put; [exact Hs1|exact Hu1|]. intros s2 Hs2. wstep.
  eapply wp_mono; [eapply (log_write_spec d start s2); [exact Hs2|exact HL|..|exact Hu1|]; try lia|].
  { constructor; [done|]. eapply Forall_impl; [apply (lb_home _ _ _ Hbs)|]. by intros ? [_ ?]. }
  intros _ [h3 s3] (Eh & L' & HL' & Es' & Eo' & Ec' & Hs3). cbn [held st] in *. subst h3.
  set (U3 := if decide (b ∈ bs) then U1 else _) in Hs3.
  assert (U3 !! b = Some (Use i 2 (Sleeplock true p) true)) as Hu3.
  { unfold U3, r in *. destruct (decide (b ∈ bs)); [exact Hu1|apply lookup_insert_eq]. }
  eapply lwp_brelse; [exact Hs3|exact Hu3|lia|]. intros s4 Hs4. split; [done|]. exists L'.
  cbn [Z.eqb Pos.eqb] in Hs4. change (2 - 1) with 1 in Hs4.
  assert (<[b := Use i 1 initsleeplock true]> U3 = <[b := Use i 1 initsleeplock true]> U) as EU.
  { unfold U3, U1. destruct (decide (b ∈ bs)); by rewrite ?insert_insert_eq. }
  rewrite EU in Hs4. split; try done.
  - eexists. split; [exact Hs4|]. split.
    + rewrite dom_insert_L, Hdom. unfold logged. destruct (decide (b ∈ bs)); set_solver.
    + intros c Hc. destruct (decide (c = b)) as [->|Hcb]; [rewrite lookup_insert_eq; eauto|].
      rewrite lookup_insert_ne by done. apply Hpin. unfold logged in Hc. destruct (decide (b ∈ bs)); set_solver.
  - by apply loggable_logged.
  - congruence.
  - congruence.
  - congruence.
  - intros c Hc. unfold logged in Hc. rewrite fupd_ne; [apply Hcl|]; destruct (decide (b ∈ bs)); set_solver.
Qed.

(** The blocks logged by a list of updates. *)
Definition log_after (bs : list Z) (ups : list (Z * block)) : list Z := foldl logged bs ups.*1.

Lemma log_after_length ups : forall bs, (length bs <= length (log_after bs ups))%nat.
Proof.
  induction ups as [|[b x] ups IH]; intros bs; [done|]. unfold log_after in *. cbn.
  etrans; [|apply IH]. unfold logged. destruct (decide _); [done|]. rewrite length_app. lia.
Qed.

Lemma updates_spec ups : forall s p W V D bs L,
  in_txn s p W V D bs L ->
  Forall (fun w => home start nlog (fst w) /\ 0 <= fst w < 2 ^ 31) ups ->
  Z.of_nat (length (log_after bs ups)) < LOGSIZE -> Z.of_nat (length (log_after bs ups)) < nlog - 1 ->
  wp (updates d ups) (KSt [] s) (fun _ k => held k = [] /\ exists L',
    in_txn (st k) p W (apply_writes V ups) D (log_after bs ups) L').
Proof.
  induction ups as [|[b x] ups IH]; intros s p W V D bs L Ht Hu Hn1 Hn2; cbn [updates].
  { wstep. split; [done|]. by exists L. }
  apply Forall_cons in Hu as [[Hh Hb] Hu]. cbn [fst] in Hh, Hb.
  pose proof (log_after_length ups (logged bs b)) as Hlen.
  assert (length bs <= length (logged bs b))%nat by (apply (log_after_length [(b, x)] bs)).
  wstep. eapply wp_mono; [apply (update_spec s p W V D bs L b x Ht)|].
  { unfold fits. unfold log_after in *. cbn in *. split_and!; try done; lia. }
  intros _ [h s'] (Eh & L' & Ht'). cbn [held st] in *. subst h. by apply (IH s' p W (fupd V b x) D _ L').
Qed.

Lemma begin_op_spec s : quiescent s ->
  exists L p W V D, stands d s L p W V D ∅ /\
  wp begin_op (KSt [] s) (fun _ k => held k = [] /\ (loggable start nlog [] ->
    in_txn (st k) p W V D [] (with_outstanding 1 L))).
Proof.
  intros (L & p & W & V & D & Hs & HL & Hsz & Ho & Hc & Hh & Hcl). exists L, p, W, V, D. split; [done|].
  unfold begin_op. do 4 wstep. rewrite (sd_lg _ _ _ _ _ _ _ _ Hs), Hc, Ho, (lo_n _ _ _ _ HL). change (LOGSIZE <? _) with false. cbv iota. wsteps.
  split; [done|]. intros Hl. destruct HL as [H1 H2 H3 H4]. split; try done.
  exists ∅. split; [|set_solver]. destruct Hs as [S1 S2 S3 S4]. split; try done. cbn. by rewrite S1.
Qed.

Lemma unpin_all bs : forall (U : gmap Z use), dom U = list_to_set bs ->
  (forall b, b ∈ bs -> exists i, U !! b = Some (Use i 1 initsleeplock true)) -> NoDup bs ->
  foldl (unpin false) U bs = ∅.
Proof.
  induction bs as [|b bs IH]; intros U Hd Hp Hnd; cbn [foldl].
  - by apply dom_empty_iff_L.
  - apply NoDup_cons in Hnd as [Hb Hnd]. destruct (Hp b ltac:(set_solver)) as [i Hi].
    assert (unpin false U b = delete b U) as -> by (unfold unpin; by rewrite Hi). apply IH; [|intros c Hc|done].
    + rewrite dom_delete_L, Hd. set_solver.
    + rewrite lookup_delete_ne by (intros ->; done). apply Hp. set_solver.
Qed.

Lemma apply_writes_agree ws : forall f g, (forall b, b ∉ ws.*1 -> f b = g b) ->
  forall b, apply_writes f ws b = apply_writes g ws b.
Proof.
  induction ws as [|[c x] ws IH]; intros f g H b; [apply H; set_solver|]. cbn. apply IH.
  intros a Ha. unfold fupd. destruct (Z.eqb_spec a c); [done|]. apply H. cbn. set_solver.
Qed.

(** The disk writes of [end_op]. *)
Definition txn_writes (L : log) (V : Z -> block) (bs : list Z) : list (Z * block) :=
  if decide (bs = []) then [] else commit_writes start L V bs.

Lemma commit_keys L V bs b : bs <> [] -> b ∉ (txn_writes L V bs).*1 -> b ∉ bs.
Proof.
  intros Hne. unfold txn_writes. rewrite decide_False by done. unfold commit_writes.
  rewrite !fmap_app, !not_elem_of_app. intros (_ & _ & H & _) Hin. apply H.
  rewrite <- list_fmap_compose, list_fmap_id. done.
Qed.

Lemma commit_txn s L p W V D U bs :
  stands d s L p W V D U -> log_of d start L bs -> loggable start nlog bs -> dom U = list_to_set bs ->
  (forall b, b ∈ bs -> exists i, U !! b = Some (Use i 1 initsleeplock true)) ->
  Z.of_nat (length bs) < LOGSIZE -> (forall b, b ∉ bs -> V b = D b) -> load32 (D start) 0 = 0 ->
  let ws := txn_writes L V bs in
  wp commit (KSt [] s) (fun _ k => held k = [] /\
    stands d (st k) (with_n 0 L) p (W ++ ws) (apply_writes V ws) (apply_writes D ws) ∅ /\
    load32 (apply_writes D ws start) 0 = 0 /\ forall b, apply_writes V ws b = apply_writes D ws b).
Proof.
  intros Hs HL Hbs Hd Hp Hn Hcl Hhd ws. unfold txn_writes in ws. destruct (decide (bs = [])) as [->|Hne].
  - unfold commit. do 2 wstep. rewrite (sd_lg _ _ _ _ _ _ _ _ Hs), (lo_n _ _ _ _ HL). change (0 <? _) with false. cbv iota. wstep. unfold ws.
    rewrite app_nil_r. split; [done|]. split_and!; [|done|intros; apply Hcl; set_solver].
    assert (with_n 0 L = L) as -> by (pose proof (lo_n _ _ _ _ HL) as E; destruct L; cbn in *; by subst).
    rewrite (proj1 (dom_empty_iff_L U)) in Hs by (by rewrite Hd). done.
  - eapply wp_mono; [apply (commit_spec d start nlog s L p W V D U bs Hs HL Hbs Hne)|].
    + apply Forall_forall. intros b Hb. destruct (Hp b Hb) as [i Hi]. by exists i, 1.
    + split.
      * intros i Hi. apply not_elem_of_dom_1. rewrite Hd. destruct Hbs as [_ Hh _ _].
        rewrite elem_of_list_to_set. intros Hin. rewrite Forall_forall in Hh. destruct (Hh _ Hin) as [H _].
        unfold home in H. lia.
      * rewrite (size_of_dom U bs) by (done || apply Hbs). unfold LOGSIZE, MAXOPBLOCKS, NBUF in *. lia.
    + rewrite (unpin_all bs U) by (done || apply Hbs). intros _ k [Hk Hst]. split; [done|].
      split_and!; [exact Hst| |].
      * unfold ws, commit_writes. rewrite !apply_writes_app. cbn. rewrite fupd_eq. apply load_store32_eq. lia.
      * apply apply_writes_agree. intros b Hb. apply Hcl, (commit_keys L V); [done|].
        unfold txn_writes. by rewrite decide_False.
Qed.

Lemma end_op_spec s p W V D bs L :
  in_txn s p W V D bs L -> Z.of_nat (length bs) < LOGSIZE ->
  wp end_op (KSt [] s) (fun _ k => held k = [] /\ quiescent (st k) /\ exists L1,
    log_of d start L1 bs /\ writes (bc (st k)) = W ++ txn_writes L1 V bs /\
    forall b, dk (bc (st k)) b = apply_writes D (txn_writes L1 V bs) b).
Proof.
  intros [(U & Hs & Hdom & Hpin) HL Hbs Hsz Hout Hcm Hcl Hhd] Hn. unfold end_op. do 6 wstep.
  cbn [set_lg lg]. rewrite (sd_lg _ _ _ _ _ _ _ _ Hs), Hout. cbn [with_outstanding l_committing l_outstanding].
  rewrite Hcm. change (1 - 1 =? 0) with true. cbv iota. do 5 wstep.
  set (L1 := with_committing true (with_outstanding (1 - 1) L)).
  set (s1 := set_lg (with_committing true) _).
  assert (stands d s1 L1 p W V D U) as Hs1.
  { destruct Hs as [S1 S2 S3 S4]. split; try done. cbn. by rewrite S1. }
  assert (log_of d start L1 bs) as HL1 by (destruct HL; by split). clearbody s1.
  eapply wp_mono; [by apply (commit_txn s1 L1 p W V D U bs)|].
  intros _ [h2 s2] (Eh & Hs2 & Hhd2 & Hagr). cbn [held st] in *. subst h2. unfold wakeup. do 6 wstep.
  split; [done|]. split.
  - exists (with_committing false (with_n 0 L1)), p, (W ++ txn_writes L1 V bs). do 2 eexists.
    destruct HL1 as [H1 H2 _ _]. destruct Hs2 as [S1 S2 S3 S4].
    split; [|split_and!; try done; exact Hagr || done].
    split; cbn; [by rewrite S1|done|done|]. eapply rep_same; [..|exact S4]; done.
  - exists L1. split; [done|]. split; [apply Hs2|]. intros b. apply (rp_disk _ _ _ _ _ (sd_rep _ _ _ _ _ _ _ _ Hs2)).
Qed.
End Txn.

Lemma reboot_quiescent d start nlog m q : 0 < d < 2 ^ 32 -> recoverable start nlog (disk_of m) ->
  wp (reboot d start nlog) (KSt [] (power_on m q)) (fun _ k => held k = [] /\ quiescent d start nlog (st k)).
Proof.
  intros Hd Hr. eapply wp_mono; [by apply (reboot_spec d start nlog)|].
  intros _ k (Hk & _ & _ & L & V & D & Hs & HL & (E1 & E2 & E3) & Hh & Hag). split; [done|].
  exists L, q, (writes (bc (st k))), V, D. by split_and!.
Qed.

Lemma transaction_spec d start nlog s ups :
  loggable start nlog [] -> MAXOPBLOCKS + 1 < nlog -> quiescent d start nlog s ->
  Forall (fun w => home start nlog (fst w) /\ 0 <= fst w < 2 ^ 31) ups ->
  Z.of_nat (length (log_after [] ups)) <= MAXOPBLOCKS ->
  wp (transaction d ups) (KSt [] s) (fun _ k => held k = [] /\ quiescent d start nlog (st k) /\
    exists L V D, let V' := apply_writes V ups in let bs := log_after [] ups in
      (forall b, dk (bc s) b = D b) /\ (forall b, V b = D b) /\ load32 (D start) 0 = 0 /\
      log_of d start L bs /\ loggable start nlog bs /\
      writes (bc (st k)) = writes (bc s) ++ txn_writes start L V' bs /\
      forall b, dk (bc (st k)) b = apply_writes D (txn_writes start L V' bs) b).
Proof.
  intros Hl0 Hlog Hq Hups Hmax. destruct (begin_op_spec d start nlog s Hq) as (L & p & W & V & D & Hs & Hb).
  unfold transaction. wstep. eapply wp_mono; [exact Hb|]. intros _ [h1 s1] [Eh Ht]. cbn [held st] in *. subst h1.
  specialize (Ht Hl0). wstep. unfold LOGSIZE, MAXOPBLOCKS in *.
  eapply wp_mono; [apply (updates_spec d start nlog ups _ _ _ _ _ _ _ Ht Hups); unfold LOGSIZE, MAXOPBLOCKS; lia|].
  intros _ [h2 s2] (Eh & L2 & Ht2). cbn [held st] in *. subst h2.
  eapply wp_mono; [apply (end_op_spec d start nlog _ _ _ _ _ _ _ Ht2); unfold LOGSIZE, MAXOPBLOCKS; lia|].
  intros _ k (Hk & Hqk & L3 & HL3 & Hw & Hdk). split; [done|]. split; [done|]. exists L3, V, D.
  destruct Ht as [_ _ _ _ _ _ Hcl Hhd]. destruct Ht2 as [_ _ Hbs _ _ _ _ _].
  split_and!; try done.
  - intros b. apply (rp_disk _ _ _ _ _ (sd_rep _ _ _ _ _ _ _ _ Hs)).
  - intros b. apply Hcl. set_solver.
  - by rewrite (sd_writes _ _ _ _ _ _ _ _ Hs).
Qed.

Lemma log_after_keys ups : forall bs b, b ∉ log_after bs ups -> (b ∉ bs) /\ b ∉ ups.*1.
Proof.
  induction ups as [|[c x] ups IH]; intros bs b; [set_solver|]. intros Hb.
  apply (IH (logged bs c)) in Hb as [H1 H2]. unfold logged in H1. cbn. destruct (decide (c ∈ bs)); set_solver.
Qed.

(** Crash states of a transaction, the empty one included. *)
Lemma txn_crash d start nlog L V D bs k :
  log_of d start L bs -> loggable start nlog bs -> load32 (D start) 0 = 0 ->
  let D1 := apply_writes D (take k (txn_writes start L V bs)) in
  recoverable start nlog D1 /\
  ((forall b, home start nlog b -> after_recovery start D1 b = D b) \/
   (forall b, home start nlog b -> after_recovery start D1 b = if decide (b ∈ bs) then V b else D b)).
Proof.
  intros HL Hbs Hhd. unfold txn_writes. destruct (decide (bs = [])); [|by apply (commit_crash start nlog d)].
  rewrite take_nil. destruct (recoverable_empty start nlog bs Hbs D Hhd) as [H1 H2]. by split; [|left].
Qed.

Lemma txn_done d start nlog L V D bs b :
  log_of d start L bs -> loggable start nlog bs -> home start nlog b ->
  apply_writes D (txn_writes start L V bs) b = if decide (b ∈ bs) then V b else D b.
Proof.
  intros HL Hbs Hb. unfold txn_writes. destruct (decide (bs = [])) as [->|]; [|by apply (commit_done start nlog d)].
  by rewrite decide_False by set_solver.
Qed.

(** C3: a file-system operation is a transaction.  From a quiescent file system,
    [begin_op], any list of logged block updates touching at most MAXOPBLOCKS blocks
    outside the log area, and [end_op] return with all updates on disk and the file
    system quiescent again; and if power fails after any number of the disk writes
    this makes, the next boot finds either none of the updates or all of them. *)
Theorem transaction_atomic d start nlog s ups k q
    (Hd : 0 < d < 2 ^ 32) (Harea : 0 <= start /\ start + nlog <= 2 ^ 31) (Hlog : MAXOPBLOCKS + 1 < nlog)
    (Hq : quiescent d start nlog s)
    (Hups : Forall (fun w => home start nlog (fst w) /\ 0 <= fst w < 2 ^ 31) ups)
    (Hmax : Z.of_nat (length (log_after [] ups)) <= MAXOPBLOCKS) :
  exists s1 s2 ws, transaction d ups (KSt [] s) = Ok tt (KSt [] s1) /\
    quiescent d start nlog s1 /\ writes (bc s1) = writes (bc s) ++ ws /\
    (forall b, home start nlog b -> dk (bc s1) b = apply_writes (dk (bc s)) ups b) /\
    reboot d start nlog (KSt [] (power_on (disk_after (disk (bc s)) (take k ws)) q)) = Ok tt (KSt [] s2) /\
    ((forall b, home start nlog b -> dk (bc s2) b = dk (bc s) b) \/
     (forall b, home start nlog b -> dk (bc s2) b = apply_writes (dk (bc s)) ups b)).
Proof.
  assert (loggable start nlog []) as Hl0.
  { split; [constructor|constructor|cbn; unfold LOGSIZE, MAXOPBLOCKS in *; lia|done]. }
  destruct (wp_elim _ _ _ (transaction_spec d start nlog s ups Hl0 Hlog Hq Hups Hmax))
    as ([] & [h1 s1] & E1 & Eh & Hq1 & L & V & D & HD & HVD & Hhd & HL & Hbs & Hw & Hdk).
  cbn [held st] in *. subst h1. set (bs := log_after [] ups) in *. set (ws := txn_writes start L _ bs) in *.
  assert (forall b, (if decide (b ∈ bs) then apply_writes V ups b else D b) = apply_writes (dk (bc s)) ups b) as HV.
  { intros b. rewrite (apply_writes_ext ups (dk (bc s)) V) by (intros a; by rewrite HD, HVD).
    destruct (decide (b ∈ bs)) as [|Hn]; [done|]. apply log_after_keys in Hn as [_ Hn].
    by rewrite apply_writes_out. }
  destruct (txn_crash d start nlog L (apply_writes V ups) D bs k HL Hbs Hhd) as [Hrec Hcase]. fold ws in Hrec, Hcase.
  assert (forall a, disk_of (disk_after (disk (bc s)) (take k ws)) a = apply_writes D (take k ws) a) as HD1.
  { intros a. unfold disk_of. rewrite disk_after_apply. apply apply_writes_ext. intros c. apply HD. }
  destruct (wp_elim _ _ _ (reboot_spec d start nlog (disk_after (disk (bc s)) (take k ws)) q Hd
    ltac:(eapply recoverable_ext; [apply HD1|exact Hrec]))) as ([] & [h2 s2] & E2 & Eh & _ & Hdk2 & _).
  cbn [held st] in *. subst h2. exists s1, s2, ws. split_and!; [exact E1|exact Hq1|exact Hw| |exact E2|].
  - intros b Hb. rewrite Hdk. unfold ws. rewrite (txn_done d start nlog) by done. apply HV.
  - destruct Hcase as [Hc|Hc]; [left|right]; intros b Hb;
      rewrite Hdk2, (after_recovery_ext _ (apply_writes D (take k ws))), Hc by done; [by rewrite HD|apply HV].
Qed.

(** A freshly made file system: empty log of mkfs's size at block 2. *)
Definition tw0 : fsst := st (after (reboot 1 2 LOGSIZE) (KSt [] (power_on ∅ 1))).
Definition tw_ups : list (Z * block) := [(45, {[0 := 1]}); (46, {[0 := 2]}); (45, {[0 := 3]})].

Lemma tw0_quiescent : quiescent 1 2 LOGSIZE tw0.
Proof.
  assert (recoverable 2 LOGSIZE (disk_of ∅)) as Hr.
  { split; [vm_compute; discriminate|]. change (hdr (disk_of ∅ 2)) with (@nil Z).
    split; [constructor|constructor|cbn; unfold LOGSIZE, MAXOPBLOCKS; lia|unfold LOGSIZE, MAXOPBLOCKS; lia]. }
  destruct (wp_after _ _ _ (reboot_quiescent 1 2 LOGSIZE ∅ 1 ltac:(lia) Hr)) as (a & _ & _ & Hq). exact Hq.
Qed.

Lemma transaction_atomic_witness :
  log_after [] tw_ups = [45; 46] /\
  exists s1 s2 ws, transaction 1 tw_ups (KSt [] tw0) = Ok tt (KSt [] s1) /\
    quiescent 1 2 LOGSIZE s1 /\ writes (bc s1) = writes (bc tw0) ++ ws /\
    (forall b, home 2 LOGSIZE b -> dk (bc s1) b = apply_writes (dk (bc tw0)) tw_ups b) /\
    reboot 1 2 LOGSIZE (KSt [] (power_on (disk_after (disk (bc tw0)) (take 3 ws)) 1)) = Ok tt (KSt [] s2) /\
    ((forall b, home 2 LOGSIZE b -> dk (bc s2) b = dk (bc tw0) b) \/
     (forall b, home 2 LOGSIZE b -> dk (bc s2) b = apply_writes (dk (bc tw0)) tw_ups b)).
Proof.
  assert (log_after [] tw_ups = [45; 46]) as El by reflexivity. split; [exact El|].
  apply (transaction_atomic 1 2 LOGSIZE tw0 tw_ups 3 1);
    [lia|unfold LOGSIZE, MAXOPBLOCKS; lia|unfold LOGSIZE, MAXOPBLOCKS; lia|exact tw0_quiescent| |].
  - unfold tw_ups, home, LOGSIZE, MAXOPBLOCKS. repeat constructor; cbn; lia.
  - rewrite El. unfold MAXOPBLOCKS. cbn. lia.
Defined.

