(* ===== verification/Spinlock.v ===== *)
(** * Spinlocks on several CPUs (kernel/spinlock.c)

    CPUs interleave at the memory accesses of [acquire] and [release]: the test-and-set,
    the write of [lk->cpu] on either side, the final clear.  Memory is sequentially
    consistent, as the fences in the code arrange.  [c_locks] and [c_extra] are ghost:
    the locks a CPU has completed acquiring, and its bare push_off calls. *)
From S2P Require Import Prelude.

Record spinlock := Spinlock { sl_locked : bool; sl_cpu : option Z }.
Definition initlock : spinlock := Spinlock false None.

(** Where a CPU is in the lock code. *)
Inductive pc :=
| Out                       (* not in the lock code *)
| AcqCheck (l : lockid)     (* acquire: interrupts pushed off, [holding] next *)
| AcqSpin (l : lockid)      (* acquire: the test-and-set loop *)
| AcqGot (l : lockid)       (* acquire: lock taken, [lk->cpu] next *)
| RelHeld (l : lockid)      (* release: [holding] passed, clear [lk->cpu] next *)
| RelClear (l : lockid)     (* release: [lk->cpu] cleared, [locked] next *)
| RelPop                    (* release: lock free, pop_off next *)
| Panicked (msg : string).

Record cpu := Cpu {
  c_noff : Z; c_intena : bool; c_intr : bool; c_pc : pc;
  c_locks : list lockid; c_extra : nat }.

Definition push_off (c : cpu) : cpu :=
  Cpu (c_noff c + 1) (if c_noff c =? 0 then c_intr c else c_intena c) false (c_pc c) (c_locks c) (c_extra c).
Definition pop_off (c : cpu) : string + cpu :=
  if c_intr c then inl "pop_off - interruptible"
  else if c_noff c <? 1 then inl "pop_off"
  else let n := c_noff c - 1 in
       inr (Cpu n (c_intena c) ((n =? 0) && c_intena c) (c_pc c) (c_locks c) (c_extra c)).

Definition goto (p : pc) (c : cpu) : cpu :=
  Cpu (c_noff c) (c_intena c) (c_intr c) p (c_locks c) (c_extra c).
Definition set_locks (ls : list lockid) (c : cpu) : cpu :=
  Cpu (c_noff c) (c_intena c) (c_intr c) (c_pc c) ls (c_extra c).
Definition set_extra (n : nat) (c : cpu) : cpu :=
  Cpu (c_noff c) (c_intena c) (c_intr c) (c_pc c) (c_locks c) n.
Definition set_intr (b : bool) (c : cpu) : cpu :=
  Cpu (c_noff c) (c_intena c) b (c_pc c) (c_locks c) (c_extra c).
Definition popped (r : string + cpu) (c : cpu) : cpu :=
  match r with inl msg => goto (Panicked msg) c | inr c' => c' end.

Record machine := Machine { cpus : Z -> cpu; locks : lockid -> spinlock }.
Definition set_cpu (i : Z) (c : cpu) (m : machine) : machine :=
  Machine (fun j => if decide (j = i) then c else cpus m j) (locks m).
Definition set_spin (l : lockid) (k : spinlock) (m : machine) : machine :=
  Machine (cpus m) (fun j => if decide (j = l) then k else locks m j).

Definition holding (m : machine) (i : Z) (l : lockid) : bool :=
  sl_locked (locks m l) && bool_decide (sl_cpu (locks m l) = Some i).

Inductive step : machine -> machine -> Prop :=
(* acquire *)
| step_acquire m i l : c_pc (cpus m i) = Out ->
    step m (set_cpu i (goto (AcqCheck l) (push_off (cpus m i))) m)
| step_acq_check m i l : c_pc (cpus m i) = AcqCheck l ->
    step m (set_cpu i (goto (if holding m i l then Panicked "acquire" else AcqSpin l) (cpus m i)) m)
| step_acq_swap m i l : c_pc (cpus m i) = AcqSpin l ->
    (* the atomic swap stores 1 and returns the old value *)
    step m (set_cpu i (goto (if sl_locked (locks m l) then AcqSpin l else AcqGot l) (cpus m i))
              (set_spin l (Spinlock true (sl_cpu (locks m l))) m))
| step_acq_cpu m i l : c_pc (cpus m i) = AcqGot l ->
    step m (set_cpu i (goto Out (set_locks (l :: c_locks (cpus m i)) (cpus m i)))
              (set_spin l (Spinlock (sl_locked (locks m l)) (Some i)) m))
(* release *)
| step_release m i l : c_pc (cpus m i) = Out ->
    step m (set_cpu i (goto (if holding m i l then RelHeld l else Panicked "release") (cpus m i)) m)
| step_rel_cpu m i l : c_pc (cpus m i) = RelHeld l ->
    step m (set_cpu i (goto (RelClear l) (set_locks (filter (fun x => x <> l) (c_locks (cpus m i))) (cpus m i)))
              (set_spin l (Spinlock (sl_locked (locks m l)) None) m))
| step_rel_unlock m i l : c_pc (cpus m i) = RelClear l ->
    step m (set_cpu i (goto RelPop (cpus m i)) (set_spin l (Spinlock false (sl_cpu (locks m l))) m))
| step_rel_pop m i : c_pc (cpus m i) = RelPop ->
    step m (set_cpu i (popped (pop_off (goto Out (cpus m i))) (cpus m i)) m)
(* push_off and pop_off used on their own, in pairs *)
| step_push m i : c_pc (cpus m i) = Out ->
    step m (set_cpu i (set_extra (S (c_extra (cpus m i))) (push_off (cpus m i))) m)
| step_pop m i n : c_pc (cpus m i) = Out -> c_extra (cpus m i) = S n ->
    step m (set_cpu i (popped (pop_off (set_extra n (cpus m i))) (cpus m i)) m)
(* interrupts are switched directly only outside every push_off *)
| step_intr m i b : c_pc (cpus m i) = Out -> c_noff (cpus m i) = 0 ->
    step m (set_cpu i (set_intr b (cpus m i)) m).

Definition boot_cpu : cpu := Cpu 0 false false Out [] 0.
Definition boot : machine := Machine (fun _ => boot_cpu) (fun _ => initlock).
Definition reachable (m : machine) : Prop := rtc step boot m.

(** CPU [i] has lock [l]: from the successful test-and-set to the clear. *)
Definition owns (m : machine) (i : Z) (l : lockid) : Prop :=
  sl_cpu (locks m l) = Some i \/ c_pc (cpus m i) = AcqGot l \/ c_pc (cpus m i) = RelClear l.

(** push_offs of the lock code that are not yet in [c_locks]. *)
Definition pending (p : pc) : Z :=
  match p with AcqCheck _ | AcqSpin _ | AcqGot _ | RelClear _ | RelPop => 1 | _ => 0 end.

Record cpu_ok (m : machine) (i : Z) : Prop := {
  co_locks : forall l, l ∈ c_locks (cpus m i) <-> sl_cpu (locks m l) = Some i;
  co_nodup : NoDup (c_locks (cpus m i));
  co_pc : match c_pc (cpus m i) with
          | AcqSpin l => l ∉ c_locks (cpus m i)
          | AcqGot l | RelClear l => sl_locked (locks m l) = true /\ sl_cpu (locks m l) = None
          | RelHeld l => l ∈ c_locks (cpus m i)
          | Panicked msg => msg = "acquire" \/ msg = "release"
          | _ => True
          end;
  co_noff : (forall msg, c_pc (cpus m i) <> Panicked msg) ->
    c_noff (cpus m i) = Z.of_nat (length (c_locks (cpus m i))) + Z.of_nat (c_extra (cpus m i)) +
                        pending (c_pc (cpus m i));
  co_intr : 0 < c_noff (cpus m i) -> c_intr (cpus m i) = false;
}.
Record machine_ok (m : machine) : Prop := {
  mo_cpu : forall i, cpu_ok m i;
  mo_locked : forall l i, sl_cpu (locks m l) = Some i -> sl_locked (locks m l) = true;
  mo_one : forall l i j, owns m i l -> owns m j l -> i = j;
}.

Lemma owns_locked m i l : machine_ok m -> owns m i l -> sl_locked (locks m l) = true.
Proof.
  intros H [Ho|Ho]; [by eapply (mo_locked _ H)|]. pose proof (co_pc _ _ (mo_cpu _ H i)) as Hp.
  destruct Ho as [E|E]; rewrite E in Hp; by apply Hp.
Qed.

(** A step of CPU [i] that leaves the locks alone. *)
Lemma ok_local m m' i :
  machine_ok m -> (forall j, j <> i -> cpus m' j = cpus m j) -> (forall x, locks m' x = locks m x) ->
  cpu_ok m' i -> (forall l, owns m' i l -> owns m i l) -> machine_ok m'.
Proof.
  intros [H1 H2 H3] Hc Hl Hi Ho.
  assert (forall j l, owns m' j l -> owns m j l) as Ho'.
  { intros j l. destruct (decide (j = i)) as [->|Hj]; [apply Ho|]. unfold owns. by rewrite Hl, Hc. }
  split.
  - intros j. destruct (decide (j = i)) as [->|Hj]; [done|]. destruct (H1 j) as [? ? ? ? ?].
    split; rewrite ?Hc by done; try done.
    + intros l. by rewrite Hl.
    + destruct (c_pc (cpus m j)); rewrite ?Hl; done.
  - intros l j. rewrite Hl. apply H2.
  - intros l j k Hj Hk. apply (H3 l); by apply Ho'.
Qed.

(** A step of CPU [i] that changes lock [l], which no other CPU has. *)
Lemma ok_lock m m' i l :
  machine_ok m -> (forall j, j <> i -> cpus m' j = cpus m j) ->
  (forall x, x <> l -> locks m' x = locks m x) ->
  (forall j, j <> i -> ~ owns m j l) ->
  (sl_cpu (locks m' l) = None \/ (sl_cpu (locks m' l) = Some i /\ sl_locked (locks m' l) = true)) ->
  cpu_ok m' i -> (forall x, x <> l -> owns m' i x -> owns m i x) -> machine_ok m'.
Proof.
  intros [H1 H2 H3] Hc Hl Hex Hcpu Hi Ho.
  assert (forall j x, x <> l -> owns m' j x -> owns m j x) as Ho'.
  { intros j x Hx. destruct (decide (j = i)) as [->|Hj]; [by apply Ho|]. unfold owns. by rewrite Hl, Hc. }
  assert (forall j, j <> i -> ~ owns m' j l) as Hex'.
  { intros j Hj [E|E]; [naive_solver|]. apply (Hex j Hj). rewrite Hc in E by done. by right. }
  split.
  - intros j. destruct (decide (j = i)) as [->|Hj]; [done|]. destruct (H1 j) as [C1 C2 C3 C4 C5].
    assert (sl_cpu (locks m l) <> Some j) as Hnj by (intros E; apply (Hex j Hj); by left).
    split; rewrite ?Hc by done; try done.
    + intros x. destruct (decide (x = l)) as [->|Hx]; [|by rewrite Hl]. rewrite C1. naive_solver.
    + destruct (c_pc (cpus m j)) as [|y|y|y|y|y| |] eqn:E; try done;
        (destruct (decide (y = l)) as [->|Hy]; [|by rewrite Hl]);
        exfalso; apply (Hex j Hj); right; auto.
  - intros x j. destruct (decide (x = l)) as [->|Hx]; [naive_solver|]. rewrite Hl by done. apply H2.
  - intros x j k Hj Hk. destruct (decide (x = l)) as [->|Hx].
    + destruct (decide (j = i)) as [->|Hji]; [|by destruct (Hex' j Hji)].
      destruct (decide (k = i)) as [->|Hki]; [done|by destruct (Hex' k Hki)].
    + apply (H3 x); by apply Ho'.
Qed.

Lemma set_cpu_same m i c : cpus (set_cpu i c m) i = c.
Proof. cbn. by rewrite decide_True. Qed.
Lemma set_cpu_other m i c j : j <> i -> cpus (set_cpu i c m) j = cpus m j.
Proof. intros H. cbn. by rewrite decide_False. Qed.
Lemma set_spin_same m l k i c : locks (set_cpu i c (set_spin l k m)) l = k.
Proof. cbn. by rewrite decide_True. Qed.
Lemma set_spin_other m l k i c x : x <> l -> locks (set_cpu i c (set_spin l k m)) x = locks m x.
Proof. intros H. cbn. by rewrite decide_False. Qed.

Lemma popped_ok c : c_intr c = false -> 0 < c_noff c ->
  exists b, pop_off c = inr (Cpu (c_noff c - 1) (c_intena c) b (c_pc c) (c_locks c) (c_extra c)) /\
    (c_noff c - 1 <> 0 -> b = false).
Proof.
  intros Hi Hn. unfold pop_off. rewrite Hi. destruct (Z.ltb_spec (c_noff c) 1); [lia|].
  eexists. split; [done|]. intros Hne. by destruct (Z.eqb_spec (c_noff c - 1) 0).
Qed.

(** Case analysis of one step: the facts about the stepping CPU, then its new state. *)
Ltac local_step H i :=
  apply (ok_local _ _ i H); [intros; by apply set_cpu_other|done| |];
  destruct (mo_cpu _ H i) as [C1 C2 C3 C4 C5];
  [|intros x; unfold owns; rewrite set_cpu_same].
Ltac lock_step H i l :=
  apply (ok_lock _ _ i l H); [intros; by rewrite set_cpu_other|intros; by apply set_spin_other| | | |];
  rewrite ?set_spin_same; destruct (mo_cpu _ H i) as [C1 C2 C3 C4 C5].

Lemma noff_nonneg m i : cpu_ok m i -> (forall msg, c_pc (cpus m i) <> Panicked msg) -> 0 <= c_noff (cpus m i).
Proof.
  intros [_ _ _ C4 _] Hp. rewrite C4 by done.
  assert (0 <= pending (c_pc (cpus m i))) by (by destruct (c_pc (cpus m i))). lia.
Qed.

Lemma step_push_ok m i p n : machine_ok m -> c_pc (cpus m i) = Out ->
  pending p + Z.of_nat n = 1 + Z.of_nat (c_extra (cpus m i)) -> (p = Out \/ exists l, p = AcqCheck l) ->
  machine_ok (set_cpu i (goto p (set_extra n (push_off (cpus m i)))) m).
Proof.
  intros H Hpc Hn Hp. local_step H i.
  - split; rewrite ?set_cpu_same; cbn; try done.
    + by destruct Hp as [->|[l ->]].
    + intros _. rewrite C4, Hpc by (by rewrite Hpc). cbn. lia.
  - cbn. rewrite Hpc. destruct Hp as [->|[l ->]]; naive_solver.
Qed.

Lemma step_pop_ok m i c n : machine_ok m ->
  c = goto Out (set_extra n (cpus m i)) -> (forall msg, c_pc (cpus m i) <> Panicked msg) ->
  (forall l, c_pc (cpus m i) <> AcqGot l /\ c_pc (cpus m i) <> RelClear l) ->
  pending (c_pc (cpus m i)) + Z.of_nat (c_extra (cpus m i)) = 1 + Z.of_nat n ->
  machine_ok (set_cpu i (popped (pop_off c) (cpus m i)) m).
Proof.
  intros H Hc Hnp Hno Hn. destruct (mo_cpu _ H i) as [D1 D2 D3 D4 D5].
  assert (0 < c_noff (cpus m i)) as Hpos by (rewrite D4 by done; lia).
  destruct (popped_ok c) as (b & E & Hb); [rewrite Hc; by apply D5|by rewrite Hc|]. rewrite E, Hc. cbn.
  rewrite Hc in Hb. cbn in Hb. local_step H i.
  - split; rewrite ?set_cpu_same; cbn; try done.
    + intros _. rewrite C4 by done. lia.
    + intros Hp'. apply Hb. lia.
  - cbn. intros [Ho|[Ho|Ho]]; try done. by left.
Qed.

Lemma holding_spec m i l : machine_ok m -> holding m i l = bool_decide (l ∈ c_locks (cpus m i)).
Proof.
  intros H. unfold holding. pose proof (co_locks _ _ (mo_cpu _ H i) l) as Hl.
  destruct (decide (sl_cpu (locks m l) = Some i)) as [E|E].
  - rewrite (mo_locked _ H _ _ E), !bool_decide_eq_true_2 by naive_solver. done.
  - rewrite !bool_decide_eq_false_2 by naive_solver. by rewrite andb_false_r.
Qed.

Lemma step_acquire_ok m i l : machine_ok m ->
  (c_pc (cpus m i) = AcqCheck l ->
   machine_ok (set_cpu i (goto (if holding m i l then Panicked "acquire" else AcqSpin l) (cpus m i)) m)) /\
  (c_pc (cpus m i) = AcqSpin l ->
   machine_ok (set_cpu i (goto (if sl_locked (locks m l) then AcqSpin l else AcqGot l) (cpus m i))
                 (set_spin l (Spinlock true (sl_cpu (locks m l))) m))) /\
  (c_pc (cpus m i) = AcqGot l ->
   machine_ok (set_cpu i (goto Out (set_locks (l :: c_locks (cpus m i)) (cpus m i)))
                 (set_spin l (Spinlock (sl_locked (locks m l)) (Some i)) m))).
Proof.
  intros H. split_and!; intros Hpc.
  - rewrite holding_spec by done. local_step H i.
    + split; rewrite ?set_cpu_same; cbn; try done.
      * case_bool_decide; [by left|done].
      * intros Hnp. rewrite C4, Hpc by (by rewrite Hpc). case_bool_decide; [naive_solver|done].
    + cbn. case_bool_decide; naive_solver.
  - destruct (sl_locked (locks m l)) eqn:El.
    + assert (forall x c, locks (set_cpu i c (set_spin l (Spinlock true (sl_cpu (locks m l))) m)) x = locks m x) as Hl.
      { intros x c. destruct (decide (x = l)) as [->|Hx]; [|by apply set_spin_other].
        rewrite set_spin_same, <- El. by destruct (locks m l). }
      apply (ok_local _ _ i H); [intros; by rewrite set_cpu_other|intros; apply Hl| |];
        destruct (mo_cpu _ H i) as [C1 C2 C3 C4 C5].
      * split; rewrite ?set_cpu_same; cbn [goto c_locks c_pc c_noff c_extra c_intr]; try done.
        -- intros x. by rewrite Hl.
        -- by rewrite Hpc in C3.
        -- intros _. by rewrite C4, Hpc by (by rewrite Hpc).
      * intros x. unfold owns. rewrite set_cpu_same, Hl. cbn. naive_solver.
    + lock_step H i l.
      * intros j Hj Ho. apply (owns_locked _ _ _ H) in Ho. congruence.
      * left. cbn. destruct (sl_cpu (locks m l)) as [j|] eqn:E; [|done].
        pose proof (mo_locked _ H _ _ E). congruence.
      * assert (sl_cpu (locks m l) = None) as En.
        { destruct (sl_cpu (locks m l)) as [j|] eqn:E; [|done]. pose proof (mo_locked _ H _ _ E). congruence. }
        split; rewrite ?set_cpu_same; cbn [goto c_locks c_pc c_noff c_extra c_intr]; try done.
        -- intros x. destruct (decide (x = l)) as [->|Hx].
           ++ rewrite set_spin_same. cbn. apply C1.
           ++ by rewrite set_spin_other.
        -- by rewrite set_spin_same.
        -- intros _. by rewrite C4, Hpc by (by rewrite Hpc).
      * intros x Hx. unfold owns. rewrite set_cpu_same, set_spin_other by done. cbn. naive_solver.
  - assert (owns m i l) as Hown by (by right; left).
    lock_step H i l.
    + intros j Hj Ho. apply Hj. by eapply (mo_one _ H).
    + right. split; [done|]. by eapply owns_locked.
    + rewrite Hpc in C3. destruct C3 as [C3 C3'].
      assert (l ∉ c_locks (cpus m i)) as Hnl by (rewrite C1, C3'; done).
      split; rewrite ?set_cpu_same; cbn [goto set_locks c_locks c_pc c_noff c_extra c_intr]; try done.
      * intros x. destruct (decide (x = l)) as [->|Hx].
        -- rewrite set_spin_same. cbn. set_solver.
        -- rewrite set_spin_other by done. rewrite <- C1. set_solver.
      * by constructor.
      * intros _. rewrite C4, Hpc by (by rewrite Hpc). cbn [length pending]. lia.
    + intros x Hx. unfold owns. rewrite set_cpu_same, set_spin_other by done. cbn. naive_solver.
Qed.

Lemma length_filter_ne (l : lockid) ls : NoDup ls -> l ∈ ls ->
  S (length (filter (fun x => x <> l) ls)) = length ls.
Proof.
  induction ls as [|y ls IH]; intros Hnd Hin; [set_solver|]. apply NoDup_cons in Hnd as [Hy Hnd].
  destruct (decide (y = l)) as [->|Hne].
  - rewrite filter_cons_False by naive_solver. cbn. f_equal.
    clear -Hy. induction ls as [|z ls IH]; [done|]. rewrite filter_cons_True by set_solver.
    cbn. f_equal. apply IH. set_solver.
  - rewrite filter_cons_True by done. cbn. f_equal. apply IH; [done|set_solver].
Qed.

Lemma step_release_ok m i l : machine_ok m ->
  (c_pc (cpus m i) = Out ->
   machine_ok (set_cpu i (goto (if holding m i l then RelHeld l else Panicked "release") (cpus m i)) m)) /\
  (c_pc (cpus m i) = RelHeld l ->
   machine_ok (set_cpu i (goto (RelClear l) (set_locks (filter (fun x => x <> l) (c_locks (cpus m i))) (cpus m i)))
                 (set_spin l (Spinlock (sl_locked (locks m l)) None) m))) /\
  (c_pc (cpus m i) = RelClear l ->
   machine_ok (set_cpu i (goto RelPop (cpus m i)) (set_spin l (Spinlock false (sl_cpu (locks m l))) m))).
Proof.
  intros H. split_and!; intros Hpc.
  - rewrite holding_spec by done. local_step H i.
    + split; rewrite ?set_cpu_same; cbn; try done.
      * case_bool_decide; [done|by right].
      * intros Hnp. rewrite C4, Hpc by (by rewrite Hpc). case_bool_decide; [done|naive_solver].
    + cbn. case_bool_decide; naive_solver.
  - assert (l ∈ c_locks (cpus m i)) as Hin.
    { pose proof (co_pc _ _ (mo_cpu _ H i)) as Hp. by rewrite Hpc in Hp. }
    assert (owns m i l) as Hown by (left; by apply (co_locks _ _ (mo_cpu _ H i))).
    lock_step H i l.
    + intros j Hj Ho. apply Hj. by eapply (mo_one _ H).
    + by left.
    + split; rewrite ?set_cpu_same; cbn [goto set_locks c_locks c_pc c_noff c_extra c_intr]; try done.
      * intros x. rewrite list_elem_of_filter. destruct (decide (x = l)) as [->|Hx].
        -- rewrite set_spin_same. cbn. naive_solver.
        -- rewrite set_spin_other by done. rewrite <- C1. naive_solver.
      * by apply NoDup_filter.
      * rewrite set_spin_same. split; [by eapply owns_locked|done].
      * intros _. rewrite C4, Hpc by (by rewrite Hpc). pose proof (length_filter_ne l _ C2 Hin). cbn [pending]. lia.
    + intros x Hx. unfold owns. rewrite set_cpu_same, set_spin_other by done. cbn. naive_solver.
  - assert (owns m i l) as Hown by (by right; right).
    lock_step H i l.
    + intros j Hj Ho. apply Hj. by eapply (mo_one _ H).
    + left. cbn. rewrite Hpc in C3. by destruct C3.
    + split; rewrite ?set_cpu_same; cbn [goto c_locks c_pc c_noff c_extra c_intr]; try done.
      * intros x. destruct (decide (x = l)) as [->|Hx].
        -- rewrite set_spin_same. cbn. apply C1.
        -- by rewrite set_spin_other.
      * intros _. by rewrite C4, Hpc by (by rewrite Hpc).
    + intros x Hx. unfold owns. rewrite set_cpu_same, set_spin_other by done. cbn. naive_solver.
Qed.

Lemma step_intr_ok m i b : machine_ok m -> c_pc (cpus m i) = Out -> c_noff (cpus m i) = 0 ->
  machine_ok (set_cpu i (set_intr b (cpus m i)) m).
Proof.
  intros H Hpc Hn. local_step H i.
  - split; rewrite ?set_cpu_same; cbn; try done. lia.
  - cbn. naive_solver.
Qed.

Lemma step_ok m m' : machine_ok m -> step m m' -> machine_ok m'.
Proof.
  intros H Hst. destruct Hst as [m i l Hpc|m i l Hpc|m i l Hpc|m i l Hpc|m i l Hpc|m i l Hpc|m i l Hpc|m i Hpc
    |m i Hpc|m i n Hpc Hn|m i b Hpc Hn].
  - apply (step_push_ok m i (AcqCheck l) (c_extra (cpus m i))); eauto.
  - by apply step_acquire_ok.
  - by apply step_acquire_ok.
  - by apply step_acquire_ok.
  - by apply step_release_ok.
  - by apply step_release_ok.
  - by apply step_release_ok.
  - apply (step_pop_ok m i _ (c_extra (cpus m i)) H eq_refl); by rewrite Hpc.
  - pose proof (step_push_ok m i Out (S (c_extra (cpus m i))) H Hpc) as Hok. rewrite <- Hpc in Hok.
    apply Hok; [rewrite Hpc; cbn; lia|rewrite Hpc; by left].
  - assert (set_extra n (cpus m i) = goto Out (set_extra n (cpus m i))) as E
      by (unfold goto, set_extra; cbn; by rewrite Hpc).
    rewrite E. apply (step_pop_ok m i _ n H eq_refl); rewrite ?Hpc; cbn; done || lia.
  - by apply step_intr_ok.
Qed.

Lemma boot_ok : machine_ok boot.
Proof.
  split; [|done|by intros l i j [?|[?|?]]]. intros i. split; cbn; try done.
  - intros l. set_solver.
  - constructor.
Qed.

Lemma reachable_ok m : reachable m -> machine_ok m.
Proof.
  unfold reachable. remember boot as b eqn:E. intros Hr.
  assert (machine_ok b) as Hb by (subst; apply boot_ok). clear E. induction Hr; eauto using step_ok.
Qed.

(** C18: mutual exclusion.  However the CPUs interleave, a spinlock is never in the
    hands of two CPUs, from the test-and-set that takes it to the store that frees it. *)
Theorem spinlock_mutex m i j l (Hm : reachable m) (Hi : owns m i l) (Hj : owns m j l) : i = j.
Proof. exact (mo_one _ (reachable_ok m Hm) l i j Hi Hj). Qed.

(** A CPU that has a spinlock, or is spinning for one, runs with interrupts off;
    and the checks in [pop_off] never fail: the only panics of the lock code are a
    second [acquire] and an unmatched [release] by the same CPU. *)
Theorem spinlock_interrupts m i (Hm : reachable m) :
  ((exists l, owns m i l \/ c_pc (cpus m i) = AcqSpin l) -> (forall msg, c_pc (cpus m i) <> Panicked msg) ->
     c_intr (cpus m i) = false) /\
  (forall msg, c_pc (cpus m i) = Panicked msg -> msg = "acquire" \/ msg = "release").
Proof.
  destruct (mo_cpu _ (reachable_ok m Hm) i) as [C1 C2 C3 C4 C5]. split.
  - intros [l Hl] Hnp. apply C5. rewrite C4 by done.
    assert (forall p, 0 <= pending p) as Hpend by (by intros []).
    destruct Hl as [[Ho|[Ho|Ho]]|Ho].
    + apply C1 in Ho. specialize (Hpend (c_pc (cpus m i))).
      destruct (c_locks (cpus m i)); [set_solver|cbn [length]; lia].
    + rewrite Ho. cbn [pending]. lia.
    + rewrite Ho. cbn [pending]. lia.
    + rewrite Ho. cbn [pending]. lia.
  - intros msg E. by rewrite E in C3.
Qed.

(** Repeated push_off and pop_off. *)
Fixpoint pushes (n : nat) (c : cpu) : cpu := match n with O => c | S n' => pushes n' (push_off c) end.
Fixpoint pops (n : nat) (c : cpu) : string + cpu :=
  match n with O => inr c | S n' => match pop_off c with inl e => inl e | inr c' => pops n' c' end end.

Lemma pushes_spec n : forall c, 0 < c_noff c -> c_intr c = false ->
  pushes n c = Cpu (c_noff c + Z.of_nat n) (c_intena c) false (c_pc c) (c_locks c) (c_extra c).
Proof.
  induction n as [|n IH]; intros c Hn Hi.
  - cbn. rewrite Z.add_0_r. destruct c; cbn in *. by subst.
  - cbn [pushes]. rewrite IH; cbn; [|lia|done]. destruct (Z.eqb_spec (c_noff c) 0); [lia|]. f_equal. lia.
Qed.
Lemma pops_spec n : forall c, 0 < c_noff c -> c_intr c = false ->
  pops n (Cpu (c_noff c + Z.of_nat n) (c_intena c) false (c_pc c) (c_locks c) (c_extra c)) = inr c.
Proof.
  induction n as [|n IH]; intros c Hn Hi.
  - cbn. rewrite Z.add_0_r. destruct c; cbn in *. by subst.
  - cbn [pops]. unfold pop_off. cbn [c_intr c_noff c_intena c_pc c_locks c_extra].
    destruct (Z.ltb_spec (c_noff c + Z.of_nat (S n)) 1); [lia|].
    replace (c_noff c + Z.of_nat (S n) - 1) with (c_noff c + Z.of_nat n) by lia.
    destruct (Z.eqb_spec (c_noff c + Z.of_nat n) 0); [lia|]. by apply IH.
Qed.

Lemma pops_S_r n : forall c, pops (S n) c = match pops n c with inl e => inl e | inr c' => pop_off c' end.
Proof.
  induction n as [|n IH]; intros c.
  - cbn. by destruct (pop_off c).
  - cbn [pops]. destruct (pop_off c) as [e|c']; [done|]. apply (IH c').
Qed.

(** push_off and pop_off are matched: after any number of push_offs, as many
    pop_offs succeed and give back the nesting depth and the interrupt state from
    before the first. *)
Theorem push_pop_off n c (Hn : 0 <= c_noff c) (Hi : 0 < c_noff c -> c_intr c = false) :
  exists c', pops n (pushes n c) = inr c' /\ c_noff c' = c_noff c /\ c_intr c' = c_intr c.
Proof.
  destruct n as [|n]; [by exists c|]. cbn [pushes]. rewrite pushes_spec by (cbn; done || lia).
  rewrite pops_S_r, pops_spec by (cbn; done || lia). unfold pop_off, push_off. cbn.
  destruct (Z.ltb_spec (c_noff c + 1) 1); [lia|]. eexists. split; [done|]. cbn. split; [lia|].
  replace (c_noff c + 1 - 1) with (c_noff c) by lia.
  destruct (Z.eqb_spec (c_noff c) 0); [done|]. cbn. symmetry. apply Hi. lia.
Qed.

(** CPU 0 takes the lock "kmem" while CPU 1 spins for it. *)
Definition sw_lock : lockid := ("kmem", 0).
Definition sw1 : machine := set_cpu 0 (goto (AcqCheck sw_lock) (push_off (cpus boot 0))) boot.
Definition sw2 : machine := set_cpu 0 (goto (if holding sw1 0 sw_lock then Panicked "acquire" else AcqSpin sw_lock) (cpus sw1 0)) sw1.
Definition sw3 : machine :=
  set_cpu 0 (goto (if sl_locked (locks sw2 sw_lock) then AcqSpin sw_lock else AcqGot sw_lock) (cpus sw2 0))
    (set_spin sw_lock (Spinlock true (sl_cpu (locks sw2 sw_lock))) sw2).

Lemma sw3_reachable : reachable sw3.
Proof.
  eapply rtc_l; [by apply (step_acquire boot 0 sw_lock)|].
  eapply rtc_l; [by apply (step_acq_check sw1 0 sw_lock)|].
  apply rtc_once. by apply (step_acq_swap sw2 0 sw_lock).
Qed.

Lemma spinlock_mutex_witness : owns sw3 0 sw_lock /\ forall j, owns sw3 j sw_lock -> 0 = j.
Proof.
  assert (owns sw3 0 sw_lock) as Ho by (right; left; vm_compute; reflexivity).
  split; [exact Ho|]. intros j Hj. apply (spinlock_mutex sw3 0 j sw_lock sw3_reachable Ho Hj).
Defined.

Lemma spinlock_interrupts_witness :
  ((exists l, owns sw3 0 l \/ c_pc (cpus sw3 0) = AcqSpin l) -> (forall msg, c_pc (cpus sw3 0) <> Panicked msg) ->
     c_intr (cpus sw3 0) = false) /\
  (forall msg, c_pc (cpus sw3 0) = Panicked msg -> msg = "acquire" \/ msg = "release").
Proof. apply (spinlock_interrupts sw3 0 sw3_reachable). Defined.

Lemma push_pop_off_witness :
  exists c', pops 3 (pushes 3 (Cpu 0 false true Out [] 0)) = inr c' /\ c_noff c' = 0 /\ c_intr c' = true.
Proof. apply (push_pop_off 3 (Cpu 0 false true Out [] 0)); cbn; lia. Defined.
