(* ===== verification/Pipe.v ===== *)
(** * Pipes (kernel/pipe.c)

    One pipe and the processes that use it.  A call runs under [pi->lock] until it
    returns or goes to sleep, so the critical sections are the atomic steps; a woken
    process goes on in the loop where it slept.  [killed i] is what the writer sees in
    [pr->killed] when it has written [i] bytes: another CPU may set the flag meanwhile.
    User memory is [src] (the byte copyin fetches, or [None] for a bad address) and
    [dst] (whether copyout succeeds). *)
From S2P Require Import Prelude.

Definition PIPESIZE : Z := 512.

Record pipe := Pipe {
  p_data : gmap Z Z; nread : Z; nwrite : Z; readopen : bool; writeopen : bool }.

(** The two sleep channels, &pi->nread and &pi->nwrite. *)
Inductive pchan := CRead | CWrite.
#[export] Instance pchan_eq : EqDecision pchan.
Proof. solve_decision. Defined.

(** How a critical section ends: with a return value, or asleep. *)
Inductive outcome := Ret (r : Z) | Slept (c : pchan) (i : Z).

Definition full (pi : pipe) : bool := nwrite pi =? u32 (nread pi + PIPESIZE).
Definition empty (pi : pipe) : bool := nread pi =? nwrite pi.
Definition put (ch : Z) (pi : pipe) : pipe :=
  Pipe (<[nwrite pi mod PIPESIZE := ch]> (p_data pi)) (nread pi) (u32 (nwrite pi + 1)) (readopen pi) (writeopen pi).
Definition get (pi : pipe) : Z * pipe :=
  (default 0 (p_data pi !! (nread pi mod PIPESIZE)),
   Pipe (p_data pi) (u32 (nread pi + 1)) (nwrite pi) (readopen pi) (writeopen pi)).

(** The state pipealloc leaves in the page it got. *)
Definition pipe_fresh (junk : gmap Z Z) : pipe := Pipe junk 0 0 true true.

(** Second component: the channels woken; third: the bytes stored. *)
Fixpoint pipewrite_loop (fuel : nat) (pi : pipe) (killed : Z -> bool) (src : Z -> option Z) (n i : Z)
    : pipe * list pchan * list Z * outcome :=
  if negb (i <? n) then (pi, [CRead], [], Ret i) else
  match fuel with
  | O => (pi, [], [], Ret (-2))
  | S f =>
    if negb (readopen pi) || killed i then (pi, [], [], Ret (-1)) else
    if full pi then (pi, [CRead], [], Slept CWrite i) else
    match src i with
    | None => (pi, [CRead], [], Ret i)
    | Some ch =>
      let '(pi', wk, bs, r) := pipewrite_loop f (put ch pi) killed src n (i + 1) in
      (pi', wk, ch :: bs, r)
    end
  end.
Definition pipewrite (pi : pipe) (killed : Z -> bool) (src : Z -> option Z) (n i : Z) :=
  pipewrite_loop (Z.to_nat (n - i)) pi killed src n i.

(** The copy loop of piperead: the pipe, the bytes taken from it, the count returned. *)
Fixpoint piperead_loop (fuel : nat) (pi : pipe) (dst : Z -> bool) (i : Z) : pipe * list Z * Z :=
  match fuel with
  | O => (pi, [], i)
  | S f =>
    if empty pi then (pi, [], i) else
    let '(ch, pi1) := get pi in
    if dst i then
      let '(pi', bs, r) := piperead_loop f pi1 dst (i + 1) in (pi', ch :: bs, r)
    else (pi1, [ch], i)
  end.
Definition piperead (pi : pipe) (killed : bool) (dst : Z -> bool) (n : Z)
    : pipe * list pchan * list Z * outcome :=
  if empty pi && writeopen pi then
    if killed then (pi, [], [], Ret (-1)) else (pi, [], [], Slept CRead 0)
  else
    let '(pi', bs, r) := piperead_loop (Z.to_nat n) pi dst 0 in
    (pi', [CWrite], bs, Ret r).

(** [pipeclose] of one end; the last component says whether the page is freed. *)
Definition pipeclose (pi : pipe) (writable : bool) : pipe * list pchan * bool :=
  let pi' := if writable then Pipe (p_data pi) (nread pi) (nwrite pi) (readopen pi) false
             else Pipe (p_data pi) (nread pi) (nwrite pi) false (writeopen pi) in
  (pi', [if writable then CRead else CWrite], negb (readopen pi') && negb (writeopen pi')).

(** ** The ring buffer as a queue *)

(** [ws]: every byte ever stored; [rs]: every byte ever taken; in between, the queue. *)
Record pipe_ok (pi : pipe) (ws rs q : list Z) : Prop := {
  pk_split : ws = rs ++ q;
  pk_len : Z.of_nat (length q) <= PIPESIZE;
  pk_nwrite : nwrite pi = u32 (Z.of_nat (length ws));
  pk_nread : nread pi = u32 (Z.of_nat (length rs));
  pk_data : forall i b, q !! i = Some b ->
    p_data pi !! ((Z.of_nat (length rs) + Z.of_nat i) mod PIPESIZE) = Some b;
}.

Lemma u32_mod_pipe x : u32 x mod PIPESIZE = x mod PIPESIZE.
Proof. unfold u32, PIPESIZE. change (2 ^ 32) with (512 * 8388608). dlia. Qed.
Lemma u32_succ x : u32 (u32 x + 1) = u32 (x + 1).
Proof. unfold u32. by rewrite Zplus_mod_idemp_l. Qed.

Lemma full_spec pi ws rs q : pipe_ok pi ws rs q -> full pi = (Z.of_nat (length q) =? PIPESIZE).
Proof.
  intros [E L W R _]. unfold full. rewrite W, R, E, length_app, Nat2Z.inj_add. unfold u32, PIPESIZE in *.
  rewrite Zplus_mod_idemp_l. destruct (Z.eqb_spec (Z.of_nat (length q)) 512) as [->|Hne].
  - apply Z.eqb_refl.
  - apply Z.eqb_neq. dlia.
Qed.
Lemma empty_spec pi ws rs q : pipe_ok pi ws rs q -> empty pi = bool_decide (q = []).
Proof.
  intros [E L W R _]. unfold empty. rewrite W, R, E, length_app, Nat2Z.inj_add. unfold u32, PIPESIZE in *.
  destruct q as [|b q]; [cbn; by rewrite Z.add_0_r, Z.eqb_refl|].
  rewrite bool_decide_eq_false_2 by done. cbn [length] in *. apply Z.eqb_neq. dlia.
Qed.

Lemma put_ok pi ws rs q ch : pipe_ok pi ws rs q -> full pi = false ->
  pipe_ok (put ch pi) (ws ++ [ch]) rs (q ++ [ch]).
Proof.
  intros H Hf. rewrite (full_spec _ _ _ _ H) in Hf. apply Z.eqb_neq in Hf. destruct H as [E L W R Hd].
  split; cbn; try done.
  - by rewrite E, app_assoc.
  - rewrite length_app. cbn. unfold PIPESIZE in *. lia.
  - rewrite W, u32_succ, length_app. cbn. f_equal. lia.
  - intros i b Hi. rewrite W, u32_mod_pipe, E, length_app. apply lookup_app_Some in Hi as [Hi|[Hi Hb]].
    + apply lookup_lt_Some in Hi as Hlt. rewrite lookup_insert_ne; [by apply Hd|]. unfold PIPESIZE in *. dlia.
    + apply list_lookup_singleton_Some in Hb as [Ei <-]. replace i with (length q) by lia.
      rewrite Nat2Z.inj_add. apply lookup_insert_eq.
Qed.
Lemma get_ok pi ws rs b q : pipe_ok pi ws rs (b :: q) ->
  fst (get pi) = b /\ pipe_ok (snd (get pi)) ws (rs ++ [b]) q.
Proof.
  intros [E L W R Hd]. split.
  - cbn. rewrite R, u32_mod_pipe. specialize (Hd 0%nat b eq_refl). rewrite Z.add_0_r in Hd. by rewrite Hd.
  - split; cbn; try done.
    + by rewrite E, <- app_assoc.
    + cbn [length] in L. unfold PIPESIZE in *. lia.
    + rewrite R, u32_succ, length_app. cbn. f_equal. lia.
    + intros i c Hi. rewrite length_app. cbn. rewrite <- (Hd (S i) c Hi). f_equal. f_equal. lia.
Qed.

(** ** pipewrite *)

Record wrote (pi : pipe) (ws rs q : list Z) (src : Z -> option Z) (n i : Z)
    (pi' : pipe) (wk : list pchan) (bs : list Z) (r : outcome) : Prop := {
  wr_ok : pipe_ok pi' (ws ++ bs) rs (q ++ bs);
  wr_open : readopen pi' = readopen pi /\ writeopen pi' = writeopen pi;
  wr_src : forall j b, bs !! j = Some b -> src (i + Z.of_nat j) = Some b;
  wr_out : match r with
           | Ret v => v = -1 \/ (v = i + Z.of_nat (length bs) /\ CRead ∈ wk /\ (v = n \/ src v = None))
           | Slept c v => c = CWrite /\ v = i + Z.of_nat (length bs) /\ v < n /\ CRead ∈ wk /\
                          full pi' = true /\ readopen pi' = true
           end;
}.

Lemma pipewrite_loop_spec killed src n fuel : forall pi ws rs q i,
  pipe_ok pi ws rs q -> 0 <= i <= n -> Z.of_nat fuel = n - i ->
  let '(pi', wk, bs, r) := pipewrite_loop fuel pi killed src n i in wrote pi ws rs q src n i pi' wk bs r.
Proof.
  assert (forall pi ws rs q i wk r, pipe_ok pi ws rs q ->
    match r with
    | Ret v => v = -1 \/ (v = i /\ CRead ∈ wk /\ (v = n \/ src v = None))
    | Slept c v => c = CWrite /\ v = i /\ v < n /\ CRead ∈ wk /\ full pi = true /\ readopen pi = true
    end -> wrote pi ws rs q src n i pi wk [] r) as Hnil.
  { intros pi ws rs q i wk r H Hr. split; rewrite ?app_nil_r; try done. cbn.
    rewrite Z.add_0_r. done. }
  induction fuel as [|f IH]; intros pi ws rs q i H Hi Hf; cbn [pipewrite_loop];
    (destruct (Z.ltb_spec i n); cbn [negb]; [|apply Hnil; [done|right; split_and!; [done|set_solver|left; lia]]]); [lia|].
  destruct (readopen pi) eqn:Eo; cbn [negb orb]; [|apply Hnil; [done|by left]].
  destruct (killed i); [apply Hnil; [done|by left]|].
  destruct (full pi) eqn:Ef; [apply Hnil; [done|split_and!; try done; set_solver]|].
  destruct (src i) as [ch|] eqn:Es; [|apply Hnil; [done|right; split_and!; [done|set_solver|by right]]].
  specialize (IH (put ch pi) (ws ++ [ch]) rs (q ++ [ch]) (i + 1) (put_ok _ _ _ _ ch H Ef) ltac:(lia) ltac:(lia)).
  destruct (pipewrite_loop f (put ch pi) killed src n (i + 1)) as [[[pi' wk] bs] r].
  destruct IH as [I1 I2 I3 I4]. rewrite <- !app_assoc in I1. split; try done.
  - intros j b Hj. destruct j as [|j]; [cbn in Hj; injection Hj as <-; by rewrite Z.add_0_r|].
    rewrite <- (I3 j b Hj). f_equal. lia.
  - cbn [length]. replace (i + Z.of_nat (S (length bs))) with (i + 1 + Z.of_nat (length bs)) by lia. done.
Qed.

(** A writer that is not killed and whose readers are there does not fail. *)
Lemma pipewrite_loop_alive src n fuel : forall pi i,
  0 <= i -> Z.of_nat fuel = Z.max 0 (n - i) -> readopen pi = true ->
  let '(_, _, _, r) := pipewrite_loop fuel pi (fun _ => false) src n i in r <> Ret (-1).
Proof.
  induction fuel as [|f IH]; intros pi i Hi Hf Ho; cbn [pipewrite_loop];
    (destruct (Z.ltb_spec i n); cbn [negb]; [|injection; lia]); [lia|].
  rewrite Ho. cbn [negb orb]. destruct (full pi); [discriminate|]. destruct (src i); [|injection; lia].
  specialize (IH (put z pi) (i + 1) ltac:(lia) ltac:(lia) Ho).
  by destruct (pipewrite_loop f _ _ _ _ _) as [[[??]?]?].
Qed.

(** With a constant flag, a write that fails has stored nothing in this critical section. *)
Lemma pipewrite_loop_failed (k : bool) src n fuel pi i : 0 <= i -> Z.of_nat fuel = Z.max 0 (n - i) ->
  let '(_, _, bs, r) := pipewrite_loop fuel pi (fun _ => k) src n i in r = Ret (-1) -> bs = [].
Proof.
  intros Hi Hf. destruct (readopen pi) eqn:Eo, k.
  2: { pose proof (pipewrite_loop_alive src n fuel pi i Hi Hf Eo).
       by destruct (pipewrite_loop _ _ _ _ _ _) as [[[??]?]?]. }
  all: destruct fuel; cbn [pipewrite_loop]; destruct (i <? n); cbn [negb]; try done; by rewrite Eo.
Qed.

(** ** piperead *)

Record read_from (pi : pipe) (ws rs q : list Z) (dst : Z -> bool) (n i : Z)
    (pi' : pipe) (bs : list Z) (r : Z) : Prop := {
  rd_ok : exists q', q = bs ++ q' /\ pipe_ok pi' ws (rs ++ bs) q' /\
            (r = Z.max i n \/ dst r = false \/ q' = []);
  rd_open : readopen pi' = readopen pi /\ writeopen pi' = writeopen pi;
  rd_le : r <= Z.max i n;
  rd_count : r = i + Z.of_nat (length bs) \/ (dst r = false /\ r + 1 = i + Z.of_nat (length bs));
}.

Lemma piperead_loop_spec dst n fuel : forall pi ws rs q i,
  pipe_ok pi ws rs q -> Z.of_nat fuel = Z.max 0 (n - i) ->
  let '(pi', bs, r) := piperead_loop fuel pi dst i in read_from pi ws rs q dst n i pi' bs r.
Proof.
  induction fuel as [|f IH]; intros pi ws rs q i H Hf; cbn [piperead_loop].
  { split; [|done|lia|left; cbn; lia]. exists q. rewrite app_nil_r. split_and!; [done..|left; lia]. }
  rewrite (empty_spec _ _ _ _ H). destruct q as [|b q].
  { rewrite bool_decide_eq_true_2 by done. split; [|done|lia|left; cbn; lia]. exists []. rewrite !app_nil_r.
    split_and!; [done..|by right; right]. }
  rewrite bool_decide_eq_false_2 by done. destruct (get_ok _ _ _ _ _ H) as [Eb H1].
  assert (readopen (snd (get pi)) = readopen pi /\ writeopen (snd (get pi)) = writeopen pi) as Ho by done.
  destruct (get pi) as [ch pi1]. cbn [fst snd] in *. subst ch. destruct (dst i) eqn:Ed.
  - specialize (IH pi1 ws (rs ++ [b]) q (i + 1) H1 ltac:(lia)).
    destruct (piperead_loop f pi1 dst (i + 1)) as [[pi' bs] r].
    destruct IH as [(q' & -> & I1 & I2) [Io1 Io2] Il I3]. rewrite <- app_assoc in I1. destruct Ho as [Ho1 Ho2]. split.
    + exists q'. split_and!; try done. destruct I2 as [I2|I2]; [left; lia|by right].
    + by rewrite Io1, Io2.
    + lia.
    + cbn [length]. destruct I3 as [I3|[I3 I4]]; [left; lia|right; split; [done|lia]].
  - split; [|done|lia|right; split; [done|cbn; lia]]. exists q. split_and!; [done..|by right; left].
Qed.

(** ** The processes around a pipe *)

(** What a process is doing with the pipe; [asleep] says it waits on the channel of its call. *)
Inductive user :=
  | Idle
  | InWrite (src : Z -> option Z) (n i : Z) (asleep : bool)
  | InRead (dst : Z -> bool) (n : Z) (asleep : bool).

(** [sent], [taken]: ghost histories of the bytes that went in and out. *)
Record psys := PSys {
  pp : pipe; users : Z -> user; flag : Z -> bool; sent : list Z; taken : list Z }.

Definition wake1 (wk : list pchan) (u : user) : user :=
  match u with
  | Idle => Idle
  | InWrite src n i a => InWrite src n i (a && negb (bool_decide (CWrite ∈ wk)))
  | InRead dst n a => InRead dst n (a && negb (bool_decide (CRead ∈ wk)))
  end.
Definition upd {A} (p : Z) (a : A) (f : Z -> A) (q : Z) : A := if q =? p then a else f q.

(** The writer after its critical section: done, or asleep at byte [i]. *)
Definition write_end (src : Z -> option Z) (n : Z) (r : outcome) : user :=
  match r with Ret _ => Idle | Slept _ i => InWrite src n i true end.
Definition read_end (dst : Z -> bool) (n : Z) (r : outcome) : user :=
  match r with Ret _ => Idle | Slept _ _ => InRead dst n true end.

(** One critical section of some process.  [mid] says whether a kill may become visible to a
    writer in the middle of one: [kf i] is the flag it reads before byte [i]. *)
Inductive pstep (mid : bool) : psys -> psys -> Prop :=
  | p_call s p u : users s p = Idle ->
      match u with
      | Idle => False
      | InWrite _ n i a => 0 <= n /\ i = 0 /\ a = false
      | InRead _ n a => 0 <= n /\ a = false
      end ->
      pstep mid s (PSys (pp s) (upd p u (users s)) (flag s) (sent s) (taken s))
  | p_write s p src n i kf pi wk bs r : users s p = InWrite src n i false ->
      (forall j, flag s p = true -> kf j = true) ->
      (mid = false -> forall j, kf j = flag s p) ->
      pipewrite (pp s) kf src n i = (pi, wk, bs, r) ->
      pstep mid s (PSys pi (upd p (write_end src n r) (fun q => wake1 wk (users s q)))
        (upd p (if r is Ret (-1) then kf (i + Z.of_nat (length bs)) || flag s p else flag s p) (flag s))
        (sent s ++ bs) (taken s))
  | p_read s p dst n pi wk bs r : users s p = InRead dst n false ->
      piperead (pp s) (flag s p) dst n = (pi, wk, bs, r) ->
      pstep mid s (PSys pi (upd p (read_end dst n r) (fun q => wake1 wk (users s q)))
        (flag s) (sent s) (taken s ++ bs))
  | p_close s w pi wk gone : pipeclose (pp s) w = (pi, wk, gone) ->
      pstep mid s (PSys pi (fun q => wake1 wk (users s q)) (flag s) (sent s) (taken s))
  | p_kill s p :
      pstep mid s (PSys (pp s) (upd p (wake1 [CRead; CWrite] (users s p)) (users s))
        (upd p true (flag s)) (sent s) (taken s)).

Definition pipe_init (junk : gmap Z Z) : psys :=
  PSys (pipe_fresh junk) (fun _ => Idle) (fun _ => false) [] [].
Definition pipe_reach (mid : bool) (junk : gmap Z Z) : psys -> Prop := rtc (pstep mid) (pipe_init junk).

(** Every call in progress is at a legal position. *)
Definition in_range (u : user) : Prop :=
  match u with Idle => True | InWrite _ n i _ => 0 <= i <= n | InRead _ n _ => 0 <= n end.
(** A sleeper has a reason to sleep. *)
Definition sleeps_ok (pi : pipe) (u : user) : Prop :=
  match u with
  | InWrite _ _ _ true => full pi = true /\ readopen pi = true
  | InRead _ _ true => empty pi = true /\ writeopen pi = true
  | _ => True
  end.

Record psys_ok (mid : bool) (s : psys) : Prop := {
  so_pipe : exists q, pipe_ok (pp s) (sent s) (taken s) q;
  so_range : forall p, in_range (users s p);
  so_sleep : mid = false -> forall p, sleeps_ok (pp s) (users s p);
}.

Lemma pipe_init_ok mid junk : psys_ok mid (pipe_init junk).
Proof. split; [|done|done]. exists []. split; try done. Qed.

Lemma in_range_wake wk u : in_range u -> in_range (wake1 wk u).
Proof. by destruct u. Qed.

(** The other processes after a step of the pipe from [pi] to [pi'] that wakes [wk]. *)
Lemma sleeps_wake pi pi' wk u : sleeps_ok pi u ->
  (CWrite ∈ wk \/ (full pi = true -> full pi' = true) /\ (readopen pi = true -> readopen pi' = true)) ->
  (CRead ∈ wk \/ (empty pi = true -> empty pi' = true) /\ (writeopen pi = true -> writeopen pi' = true)) ->
  sleeps_ok pi' (wake1 wk u).
Proof.
  destruct u as [|src n i []|dst n []]; cbn; try done; intros [H1 H2] HW HR.
  - destruct HW as [HW|[HW1 HW2]]; [by rewrite bool_decide_eq_true_2|].
    case_bool_decide; cbn; [done|]. auto.
  - destruct HR as [HR|[HR1 HR2]]; [by rewrite bool_decide_eq_true_2|].
    case_bool_decide; cbn; [done|]. auto.
Qed.
Lemma upd_all {A} (P : A -> Prop) p a f : P a -> (forall q, P (f q)) -> forall q, P (upd p a f q).
Proof. intros Ha Hf q. unfold upd. by destruct (q =? p). Qed.

Lemma pipewrite_spec pi ws rs q killed src n i pi' wk bs r :
  pipe_ok pi ws rs q -> 0 <= i <= n -> pipewrite pi killed src n i = (pi', wk, bs, r) ->
  wrote pi ws rs q src n i pi' wk bs r.
Proof.
  intros H Hi E. pose proof (pipewrite_loop_spec killed src n (Z.to_nat (n - i)) pi ws rs q i H Hi ltac:(lia)) as HL.
  unfold pipewrite in E. by rewrite E in HL.
Qed.

(** A storing write with a constant flag wakes the readers. *)
Lemma pipewrite_wakes pi ws rs q k kf src n i pi' wk bs r :
  pipe_ok pi ws rs q -> 0 <= i <= n -> (forall j, kf j = k) -> pipewrite pi kf src n i = (pi', wk, bs, r) ->
  bs = [] \/ CRead ∈ wk.
Proof.
  intros H Hi Hk E. pose proof (pipewrite_spec _ _ _ _ _ _ _ _ _ _ _ _ H Hi E) as [_ _ _ Hr].
  destruct r as [v|c v]; [|by right; apply Hr]. destruct Hr as [->|(_ & ? & _)]; [left|by right].
  assert (forall fuel pi i, pipewrite_loop fuel pi kf src n i = pipewrite_loop fuel pi (fun _ => k) src n i) as Heq.
  { induction fuel as [|f IH]; intros pi0 i0; cbn; [done|]. rewrite Hk. repeat case_match; rewrite ?IH in *; congruence. }
  pose proof (pipewrite_loop_failed k src n (Z.to_nat (n - i)) pi i ltac:(lia) ltac:(lia)) as HF.
  unfold pipewrite in E. rewrite Heq in E. rewrite E in HF. by apply HF.
Qed.

Lemma piperead_spec pi ws rs q k dst n pi' wk bs r : pipe_ok pi ws rs q -> piperead pi k dst n = (pi', wk, bs, r) ->
  (pi' = pi /\ bs = [] /\ q = [] /\ writeopen pi = true /\ (r = Ret (-1) \/ r = Slept CRead 0)) \/
  (exists v, r = Ret v /\ CWrite ∈ wk /\ read_from pi ws rs q dst n 0 pi' bs v).
Proof.
  intros H. unfold piperead. rewrite (empty_spec _ _ _ _ H).
  destruct (bool_decide (q = []) && writeopen pi) eqn:Eb.
  - apply andb_prop in Eb as [Eq Ew]. apply bool_decide_eq_true in Eq.
    intros E. left. destruct k; injection E as <- <- <- <-; split_and!; auto.
  - pose proof (piperead_loop_spec dst n (Z.to_nat n) pi ws rs q 0 H ltac:(lia)) as HL.
    destruct (piperead_loop _ _ _ _) as [[pi1 bs1] v]. intros [= <- <- <- <-]. right. exists v.
    split_and!; [done|set_solver|done].
Qed.

Lemma write_step_ok mid s p src n i kf pi wk bs r : psys_ok mid s ->
  users s p = InWrite src n i false -> (mid = false -> forall j, kf j = flag s p) ->
  pipewrite (pp s) kf src n i = (pi, wk, bs, r) -> forall fl,
  psys_ok mid (PSys pi (upd p (write_end src n r) (fun q => wake1 wk (users s q))) fl (sent s ++ bs) (taken s)).
Proof.
  intros [[q Hq] Hr Hs] Hu Hk E fl. assert (0 <= i <= n) as Hi by (specialize (Hr p); by rewrite Hu in Hr).
  pose proof (pipewrite_spec _ _ _ _ _ _ _ _ _ _ _ _ Hq Hi E) as [W1 [W2 W2'] W3 W4]. split; cbn [pp sent taken users].
  - by eexists.
  - apply upd_all; [destruct r; cbn; [done|lia]|]. intros; by apply in_range_wake.
  - intros Hm. apply upd_all; [destruct r as [v|c v]; cbn; [done|apply W4]|]. intros x.
    apply (sleeps_wake (pp s)); [by apply Hs|right; split; [|congruence]|].
    + rewrite (full_spec _ _ _ _ Hq), (full_spec _ _ _ _ W1), length_app, Nat2Z.inj_add, !Z.eqb_eq.
      pose proof (pk_len _ _ _ _ W1) as HL. rewrite length_app in HL. lia.
    + destruct (pipewrite_wakes _ _ _ _ _ _ _ _ _ _ _ _ _ Hq Hi (Hk Hm) E) as [->|]; [right|by left].
      rewrite !app_nil_r in W1. rewrite (empty_spec _ _ _ _ Hq), (empty_spec _ _ _ _ W1). split; [done|congruence].
Qed.

Lemma read_step_ok mid s p dst n pi wk bs r : psys_ok mid s ->
  users s p = InRead dst n false -> piperead (pp s) (flag s p) dst n = (pi, wk, bs, r) ->
  psys_ok mid (PSys pi (upd p (read_end dst n r) (fun q => wake1 wk (users s q))) (flag s) (sent s) (taken s ++ bs)).
Proof.
  intros [[q Hq] Hr Hs] Hu E. assert (0 <= n) as Hn by (specialize (Hr p); by rewrite Hu in Hr).
  split; cbn [pp sent taken users].
  - destruct (piperead_spec _ _ _ _ _ _ _ _ _ _ _ Hq E) as [(-> & -> & _)|(v & _ & _ & [(q' & _ & R2 & _) _ _ _])];
      [exists q; by rewrite app_nil_r|by exists q'].
  - apply upd_all; [destruct r; cbn; [exact I|exact Hn]|]. intros; by apply in_range_wake.
  - intros Hm. specialize (Hs Hm).
    destruct (piperead_spec _ _ _ _ _ _ _ _ _ _ _ Hq E) as [(-> & -> & -> & Hw & Hret)|(v & -> & Hwk & [(q' & -> & R2 & _) [Ho1 Ho2] _ _])].
    + apply upd_all; [|intros x; apply (sleeps_wake (pp s)); auto].
      destruct Hret as [-> | ->]; cbn; [exact I|]. split; [by rewrite (empty_spec _ _ _ _ Hq)|done].
    + apply upd_all; [done|]. intros x. apply (sleeps_wake (pp s)); [done|by left|right].
      rewrite (empty_spec _ _ _ _ Hq), (empty_spec _ _ _ _ R2), !bool_decide_eq_true, Ho2.
      split; [|done]. by intros [_ ?]%app_eq_nil.
Qed.

Lemma close_step_ok mid s w pi wk gone : psys_ok mid s -> pipeclose (pp s) w = (pi, wk, gone) ->
  psys_ok mid (PSys pi (fun q => wake1 wk (users s q)) (flag s) (sent s) (taken s)).
Proof.
  intros [[q Hq] Hr Hs] E. unfold pipeclose in E. injection E as Epi Ewk _. split; cbn [pp sent taken users].
  - exists q. destruct Hq as [? ? ? ? ?]. destruct w; subst pi; by split.
  - intros; by apply in_range_wake.
  - intros Hm x. specialize (Hs Hm x). apply (sleeps_wake (pp s)); [done|..]; destruct w; subst pi wk;
      first [left; set_solver|by right].
Qed.

Lemma pstep_ok mid s s' : psys_ok mid s -> pstep mid s s' -> psys_ok mid s'.
Proof.
  intros Hs Hst. destruct Hst.
  - destruct Hs as [Hq Hr Hs]. split; [done|..]; cbn.
    + apply upd_all; [|done]. destruct u; cbn; [done|lia|lia].
    + intros Hm. apply upd_all; [|by apply Hs]. destruct u; cbn; [done|by destruct H0 as (_ & _ & ->)|by destruct H0 as (_ & ->)].
  - by eapply write_step_ok.
  - by eapply read_step_ok.
  - by eapply close_step_ok.
  - destruct Hs as [Hq Hr Hs]. split; [done|..]; cbn.
    + apply upd_all; [by apply in_range_wake|done].
    + intros Hm. apply upd_all; [|by apply Hs]. destruct (users s p) as [|? ? ? a|? ? a]; cbn; [done|..]; by destruct a.
Qed.
Lemma pipe_reach_ok mid junk s : pipe_reach mid junk s -> psys_ok mid s.
Proof.
  unfold pipe_reach. intros H. pose proof (pipe_init_ok mid junk) as H0. revert H0.
  induction H as [|x y z Hxy _ IH]; [done|]. intros Hx. apply IH. by eapply pstep_ok.
Qed.

Lemma pipewrite_whole pi ws rs q bs pi1 wk1 bs1 r :
  pipe_ok pi ws rs q -> readopen pi = true -> Z.of_nat (length q + length bs) <= PIPESIZE ->
  pipewrite pi (fun _ => false) (fun i => bs !! Z.to_nat i) (Z.of_nat (length bs)) 0 = (pi1, wk1, bs1, r) ->
  bs1 = bs /\ r = Ret (Z.of_nat (length bs)) /\ CRead ∈ wk1 /\ pipe_ok pi1 (ws ++ bs) rs (q ++ bs).
Proof.
  intros H Ho HL E. assert (0 <= 0 <= Z.of_nat (length bs)) as H0 by lia.
  pose proof (pipewrite_spec _ _ _ _ _ _ _ _ _ _ _ _ H H0 E) as [W1 _ W3 W4].
  assert (bs1 `prefix_of` bs) as [bs' Hbs].
  { exists (drop (length bs1) bs). rewrite <- (take_drop (length bs1) bs) at 1. f_equal.
    apply list_eq_same_length with (n := length bs1); [done|rewrite length_take|].
    - destruct (decide (length bs1 <= length bs)%nat); [lia|].
      destruct (lookup_lt_is_Some_2 bs1 (length bs)) as [b Hb]; [lia|]. apply W3 in Hb.
      apply lookup_lt_Some in Hb. lia.
    - intros i b b' _ Hb' Hb. rewrite lookup_take_lt in Hb' by (by eapply lookup_lt_Some). apply W3 in Hb.
      rewrite Z.add_0_l, Nat2Z.id in Hb. congruence. }
  assert (length bs = length bs1 + length bs')%nat as EL by (by rewrite Hbs, length_app).
  assert (bs' = [] /\ r = Ret (Z.of_nat (length bs)) /\ CRead ∈ wk1) as (-> & -> & Hwk).
  { destruct r as [v|c v].
    - pose proof (pipewrite_loop_alive (fun i => bs !! Z.to_nat i) (Z.of_nat (length bs))
        (Z.to_nat (Z.of_nat (length bs) - 0)) pi 0 ltac:(lia) ltac:(lia) Ho) as HA.
      unfold pipewrite in E. rewrite E in HA. destruct W4 as [->|(-> & Hwk & Hv)]; [done|].
      assert (length bs' = 0)%nat as E0; [|split_and!; [by apply nil_length_inv|f_equal; lia|done]].
      destruct Hv as [Hv|Hv]; [lia|]. apply lookup_ge_None in Hv. lia.
    - destruct W4 as (-> & -> & Hlt & _ & Hf & _). rewrite (full_spec _ _ _ _ W1), Z.eqb_eq, length_app in Hf. lia. }
  rewrite app_nil_r in Hbs. by subst bs1.
Qed.

Lemma read_from_all pi ws rs q n pi' bs r : 0 <= n -> read_from pi ws rs q (fun _ => true) n 0 pi' bs r ->
  bs = take (Z.to_nat n) q /\ r = Z.min n (Z.of_nat (length q)) /\ pipe_ok pi' ws (rs ++ bs) (drop (Z.to_nat n) q).
Proof.
  intros Hn [(q' & -> & H & Hend) _ Hle [Hc|[? _]]]; [|done]. rewrite Z.add_0_l in Hc. rewrite length_app.
  destruct Hend as [Hr|[?| ->]]; [|done|].
  - replace (Z.to_nat n) with (length bs) by lia. rewrite take_app_length, drop_app_length. split_and!; [done|lia|done].
  - rewrite app_nil_r, take_ge, drop_ge by lia. cbn [length]. split_and!; [done|lia|done].
Qed.

(** C21: whatever the processes do - writers and readers interleaved, sleeping and woken,
    killed at any point, ends closed - the bytes taken from a pipe are a prefix of the bytes
    stored in it, in order, at most PIPESIZE are in between, and the tests for a full and an
    empty pipe on the two 32-bit counters (which wrap around) are exact. *)
Theorem pipe_fifo mid junk s : pipe_reach mid junk s ->
  exists q, sent s = taken s ++ q /\ Z.of_nat (length q) <= PIPESIZE /\
    full (pp s) = bool_decide (Z.of_nat (length q) = PIPESIZE) /\ empty (pp s) = bool_decide (q = []).
Proof.
  intros H. destruct (pipe_reach_ok _ _ _ H) as [[q Hq] _ _]. exists q.
  rewrite (full_spec _ _ _ _ Hq), (empty_spec _ _ _ _ Hq). destruct Hq. split_and!; [done..| |done].
  by apply Bool.eq_iff_eq_true; rewrite Z.eqb_eq, bool_decide_eq_true.
Qed.


(** A pipe delivers what is written to it: a write that fits stores all its bytes and
    reports their number, and the next read returns the bytes that were waiting followed by
    the new ones, as many as asked for. *)
Theorem pipe_transfer pi ws rs q bs k n :
  pipe_ok pi ws rs q -> readopen pi = true -> Z.of_nat (length q + length bs) <= PIPESIZE ->
  q ++ bs <> [] -> 0 <= n ->
  exists pi1 wk1 pi2,
    pipewrite pi (fun _ => false) (fun i => bs !! Z.to_nat i) (Z.of_nat (length bs)) 0
      = (pi1, wk1, bs, Ret (Z.of_nat (length bs))) /\ CRead ∈ wk1 /\
    piperead pi1 k (fun _ => true) n
      = (pi2, [CWrite], take (Z.to_nat n) (q ++ bs), Ret (Z.min n (Z.of_nat (length (q ++ bs))))) /\
    pipe_ok pi2 (ws ++ bs) (rs ++ take (Z.to_nat n) (q ++ bs)) (drop (Z.to_nat n) (q ++ bs)).
Proof.
  intros H Ho HL Hne Hn.
  destruct (pipewrite pi (fun _ => false) (fun i => bs !! Z.to_nat i) (Z.of_nat (length bs)) 0)
    as [[[pi1 wk1] bs1] r] eqn:E.
  destruct (pipewrite_whole _ _ _ _ _ _ _ _ _ H Ho HL E) as (-> & -> & Hwk & H1).
  pose proof (piperead_loop_spec (fun _ => true) n (Z.to_nat n) pi1 _ _ _ 0 H1 ltac:(lia)) as HR.
  exists pi1, wk1. unfold piperead. rewrite (empty_spec _ _ _ _ H1), bool_decide_eq_false_2 by done. cbn [andb].
  destruct (piperead_loop _ _ _ _) as [[pi2 bs2] v]. exists pi2.
  destruct (read_from_all _ _ _ _ _ _ _ _ Hn HR) as (-> & -> & H2). done.
Qed.

(** C29: a killed writer can strand a reader: if the kill becomes visible after some bytes of
    the call were stored, pipewrite returns -1 without waking the readers, and a reader
    sleeps on although the pipe holds data and nobody else is using it. *)
Theorem pipewrite_kill_strands_reader : exists s,
  pipe_reach true ∅ s /\ empty (pp s) = false /\
  (exists dst n, users s 1 = InRead dst n true) /\ (forall p, p <> 1 -> users s p = Idle).
Proof.
  eexists. split.
  - eapply rtc_l; [apply (p_call _ _ 1 (InRead (fun _ => true) 1 false)); [done|cbn; lia]|].
    eapply rtc_l; [eapply (p_read _ _ 1); reflexivity|].
    eapply rtc_l; [apply (p_call _ _ 2 (InWrite (fun _ => Some 7) 2 0 false)); [done|cbn; lia]|].
    eapply rtc_l; [eapply (p_write _ _ 2 _ _ _ (fun j => 1 <=? j)); [reflexivity|done|done|reflexivity]|].
    apply rtc_refl.
  - cbn [pp users]. split_and!.
    + reflexivity.
    + do 2 eexists. reflexivity.
    + intros p Hp. unfold upd. destruct (Z.eqb_spec p 2); [done|]. destruct (Z.eqb_spec p 1); done.
Qed.

(** ** Witnesses *)

(** Process 1 waits for a byte of a fresh pipe. *)
Definition waiting : psys :=
  PSys (pipe_fresh ∅)
    (upd 1 (InRead (fun _ => true) 1 true)
      (fun q => wake1 [] (upd 1 (InRead (fun _ => true) 1 false) (fun _ => Idle) q)))
    (fun _ => false) [] [].
(** Then process 2 calls write with the bytes 7, 7. *)
Definition writing : psys :=
  PSys (pp waiting) (upd 2 (InWrite (fun _ => Some 7) 2 0 false) (users waiting)) (flag waiting) [] [].
Definition written : psys :=
  PSys (put 7 (put 7 (pipe_fresh ∅)))
    (upd 2 Idle (fun q => wake1 [CRead] (users writing q))) (upd 2 false (flag writing)) [7; 7] [].

Lemma waiting_reach : pipe_reach false ∅ waiting.
Proof.
  eapply rtc_l; [apply (p_call _ _ 1 (InRead (fun _ => true) 1 false)); [done|cbn; lia]|].
  eapply rtc_l; [|apply rtc_refl]. match goal with |- pstep _ ?s _ => exact (p_read _ s 1 (fun _ => true) 1 (pipe_fresh ∅) [] [] (Slept CRead 0) eq_refl eq_refl) end.
Defined.
Lemma written_reach : pipe_reach false ∅ written.
Proof.
  unfold pipe_reach. etrans; [exact waiting_reach|].
  eapply rtc_l; [apply (p_call _ _ 2 (InWrite (fun _ => Some 7) 2 0 false)); [done|cbn; lia]|].
  eapply rtc_l; [|apply rtc_refl].
  match goal with |- pstep _ ?s _ => refine (p_write _ s 2 (fun _ => Some 7) 2 0 (fun _ => false) (put 7 (put 7 (pipe_fresh ∅))) [CRead] [7; 7] (Ret 2) _ _ _ _); done end.
Defined.

Lemma pipe_fifo_witness : exists q, sent written = taken written ++ q /\ Z.of_nat (length q) <= PIPESIZE /\
  full (pp written) = bool_decide (Z.of_nat (length q) = PIPESIZE) /\ empty (pp written) = bool_decide (q = []).
Proof. apply (pipe_fifo false ∅). apply written_reach. Defined.


Lemma pipe_transfer_witness : exists pi1 wk1 pi2,
  pipewrite (pipe_fresh ∅) (fun _ => false) (fun i => [1; 2; 3] !! Z.to_nat i) 3 0 = (pi1, wk1, [1; 2; 3], Ret 3) /\
  CRead ∈ wk1 /\
  piperead pi1 false (fun _ => true) 2 = (pi2, [CWrite], [1; 2], Ret 2) /\
  pipe_ok pi2 [1; 2; 3] [1; 2] [3].
Proof.
  apply (pipe_transfer (pipe_fresh ∅) [] [] [] [1; 2; 3] false 2); done.
Defined.
