(* ===== verification/Ftable.v ===== *)
(** * The table of open files (kernel/file.c, kernel/file.h)

    [ftable] and the operations on reference counts, for any state that contains the
    table.  What [fileclose] does with the object behind the last reference depends on the
    type of the file; that part is the argument [close] of [fileclose]. *)
From S2P Require Import Prelude.

Inductive ftype := FD_NONE | FD_PIPE | FD_INODE | FD_DEVICE | FD_SOCK.
#[export] Instance ftype_eq : EqDecision ftype.
Proof. solve_decision. Defined.

(** [struct file]; pointers are addresses, a file is named by its index in the table. *)
Record file := File {
  f_type : ftype; f_ref : Z; f_readable : bool; f_writable : bool;
  f_pipe : Z; f_ip : Z; f_sock : Z; f_off : Z; f_major : Z }.

Definition NFILE : Z := 100.
Abbreviation ftable := (gmap Z file).
Definition file0 : file := File FD_NONE 0 false false 0 0 0 0 0.
Definition fget (t : ftable) (f : Z) : file := default file0 (t !! f).

Definition set_ref (r : Z) (x : file) : file :=
  File (f_type x) r (f_readable x) (f_writable x) (f_pipe x) (f_ip x) (f_sock x) (f_off x) (f_major x).
Definition set_type (ty : ftype) (x : file) : file :=
  File ty (f_ref x) (f_readable x) (f_writable x) (f_pipe x) (f_ip x) (f_sock x) (f_off x) (f_major x).
Definition set_off (o : Z) (x : file) : file :=
  File (f_type x) (f_ref x) (f_readable x) (f_writable x) (f_pipe x) (f_ip x) (f_sock x) o (f_major x).

(** A state that contains the file table. *)
Class HasFtable (T : Type) := { ft : T -> ftable; set_ft : ftable -> T -> T }.
Class FtableLaws T `{!HasFtable T} := {
  ft_set x s : ft (set_ft x s) = x;
  ft_set_set x y s : set_ft x (set_ft y s) = set_ft x s;
}.

Definition ftable_lock : lockid := ("ftable", 0).

Section ftable.
Context {T : Type} `{!HasFtable T}.

Definition upd_file (f : Z) (g : file -> file) : M T unit :=
  modify (fun s => set_ft (<[f := g (fget (ft s) f)]> (ft s)) s).

(** [for(f = ftable.file; f < ftable.file + NFILE; f++) if(f->ref == 0)] *)
Fixpoint find_file (t : ftable) (f : Z) (n : nat) : option Z :=
  match n with
  | O => None
  | S n' => if f_ref (fget t f) =? 0 then Some f else find_file t (f + 1) n'
  end.

(** [None] for the null pointer. *)
Definition filealloc : M T (option Z) :=
  acquire ftable_lock ;;
  t ← gets ft;
  match find_file t 0 (Z.to_nat NFILE) with
  | Some f => upd_file f (set_ref 1) ;; release ftable_lock ;; mret (Some f)
  | None => release ftable_lock ;; mret None
  end.

Definition filedup (f : Z) : M T Z :=
  acquire ftable_lock ;;
  x ← gets (fun s => fget (ft s) f);
  if f_ref x <? 1 then panic "filedup" else
  upd_file f (set_ref (i32 (f_ref x + 1))) ;;
  release ftable_lock ;;
  mret f.

Definition fileclose (close : file -> M T unit) (f : Z) : M T unit :=
  acquire ftable_lock ;;
  x ← gets (fun s => fget (ft s) f);
  if f_ref x <? 1 then panic "fileclose" else
  upd_file f (set_ref (f_ref x - 1)) ;;
  if 0 <? f_ref x - 1 then release ftable_lock else
  ff ← gets (fun s => fget (ft s) f);
  upd_file f (fun y => set_type FD_NONE (set_ref 0 y)) ;;
  release ftable_lock ;;
  close ff.

Lemma find_file_spec t n : forall f, match find_file t f n with
  | Some i => f <= i < f + Z.of_nat n /\ f_ref (fget t i) = 0
  | None => forall i, f <= i < f + Z.of_nat n -> f_ref (fget t i) <> 0
  end.
Proof.
  induction n as [|n IH]; intros f; cbn [find_file]; [intros; lia|].
  destruct (Z.eqb_spec (f_ref (fget t f)) 0) as [E|E]; [lia|]. specialize (IH (f + 1)).
  destruct (find_file t (f + 1) n); [lia|]. intros i Hi. destruct (decide (i = f)) as [->|]; [done|]. apply IH. lia.
Qed.

(** filealloc takes an unreferenced entry, and fails only when there is none. *)
Lemma wp_filealloc h (s : T) (P : option Z -> kst T -> Prop) : ftable_lock ∉ h ->
  ((forall i, 0 <= i < NFILE -> f_ref (fget (ft s) i) <> 0) -> P None (KSt h s)) ->
  (forall f, 0 <= f < NFILE -> f_ref (fget (ft s) f) = 0 ->
     P (Some f) (KSt h (set_ft (<[f := set_ref 1 (fget (ft s) f)]> (ft s)) s))) ->
  wp filealloc (KSt h s) P.
Proof.
  intros Hh HN HS. unfold filealloc. wsteps. pose proof (find_file_spec (ft s) (Z.to_nat NFILE) 0) as Hf.
  change (Z.of_nat (Z.to_nat NFILE)) with NFILE in Hf. rewrite Z.add_0_l in Hf.
  destruct (find_file (ft s) 0 (Z.to_nat NFILE)) as [f|].
  - destruct Hf. unfold upd_file. wsteps. by apply HS.
  - wsteps. by apply HN.
Qed.
End ftable.
