(* ===== verification/ProcEx.v ===== *)
(** * Processes: an instance and examples

    The theorems of ProcMain.v on a small machine: 24 free pages, the open-file table of
    Ftable.v with its own filedup and fileclose, inodes reduced to their reference counts, and
    one program to execute.
    [files_ok] of this instance says that every count is the number of references there are. *)
From S2P Require Import Prelude Mem Riscv Kalloc Vm VmTree VmSpec VmCopy VmAlloc VmFree VmPool Proc ProcMem ProcInv ProcOps ProcFork ProcCopy ProcThms ProcExit Exec ExecMem ExecSpec ExecLoad ExecArgs ExecThms Syscall SyscallThms ProcSys ProcBoot ProcMain Ftable.

(** ** Counting *)

Definition count (f : Z -> bool) (l : list Z) : Z := Z.of_nat (length (filter (fun x => f x = true) l)).
Lemma count_cons f x l : count f (x :: l) = (if f x then 1 else 0) + count f l.
Proof. unfold count. destruct (f x) eqn:E; [rewrite filter_cons_True by done|rewrite filter_cons_False by congruence]; cbn [length]; lia. Qed.
Lemma count_ext f g l : (forall x, x ∈ l -> f x = g x) -> count f l = count g l.
Proof. induction l as [|x l IH]; intros H; [done|]. rewrite !count_cons, H, IH; [done|intros y ?; apply H; set_solver|left]. Qed.
(** The count after a change at one place. *)
Lemma count_set f g l x : NoDup l -> x ∈ l -> (forall y, y <> x -> f y = g y) -> count g l = count f l - (if f x then 1 else 0) + (if g x then 1 else 0).
Proof.
  intros Hn Hx H. induction l as [|y l IH]; [set_solver|]. apply NoDup_cons in Hn as [Hy Hn]. rewrite !count_cons. destruct (decide (y = x)) as [->|Hne].
  - rewrite (count_ext g f l); [lia|]. intros z Hz. symmetry. apply H. intros ->. done.
  - rewrite (H y Hne), IH by (done || set_solver). lia.
Qed.
Lemma count_pos f l x : x ∈ l -> f x = true -> 1 <= count f l.
Proof.
  induction l as [|y l IH]; [set_solver|]. intros Hx Hf. rewrite count_cons. assert (0 <= count f l) by (unfold count; lia). apply elem_of_cons in Hx as [->|Hx]; [rewrite Hf; lia|].
  specialize (IH Hx Hf). destruct (f y); lia.
Qed.
Lemma count_bound f l : 0 <= count f l <= Z.of_nat (length l).
Proof. unfold count. pose proof (length_filter (fun x => f x = true) l). lia. Qed.

(** ** The file layer *)

Record files := Files { fl_t : ftable; fl_ino : gmap Z Z; fl_ops : Z; fl_ticks : Z }.
#[export] Instance files_ftable : HasFtable files := { ft := fl_t; set_ft t x := Files t (fl_ino x) (fl_ops x) (fl_ticks x) }.
#[export] Instance files_ticks : HasTicks files := { ticks := fl_ticks; set_ticks v x := Files (fl_t x) (fl_ino x) (fl_ops x) v }.
Definition iref (x : files) (c : Z) : Z := default 0 (fl_ino x !! c).
Definition set_iref c v (x : files) : files := Files (fl_t x) (<[c := v]> (fl_ino x)) (fl_ops x) (fl_ticks x).
Definition set_ops v (x : files) : files := Files (fl_t x) (fl_ino x) v (fl_ticks x).

Definition ino_lock : lockid := ("itable", 0).
Definition ref_idup (c : Z) : M files Z :=
  acquire ino_lock ;;
  n ← gets (fun x => iref x c);
  modify (set_iref c (n + 1)) ;;
  release ino_lock ;;
  mret c.
Definition ref_iput (c : Z) : M files unit :=
  acquire ino_lock ;;
  n ← gets (fun x => iref x c);
  (if n <? 1 then panic "iput" else modify (set_iref c (n - 1))) ;;
  release ino_lock.
Definition ref_begin : M files unit := modify (fun x => set_ops (fl_ops x + 1) x).
Definition ref_end : M files unit := n ← gets fl_ops; if n <? 1 then panic "end_op" else modify (set_ops (n - 1)).
Definition has_ino (ff : file) : bool := match f_type ff with FD_INODE | FD_DEVICE => true | _ => false end.
Definition ref_close (ff : file) : M files unit := if has_ino ff then ref_begin ;; ref_iput (f_ip ff) ;; ref_end else mret tt.
#[export] Instance files_proc : ProcFiles files := {
  pf_filedup := filedup; pf_fileclose := fileclose ref_close; pf_idup := ref_idup; pf_iput := ref_iput;
  pf_begin_op := ref_begin; pf_end_op := ref_end; pf_namei _ := c ← ref_idup 1; mret (Some c); pf_fsinit _ := mret tt }.

(** The descriptor slots of all processes, numbered. *)
Definition fd_slots : list Z := seqZ 0 (NPROC * NOFILE).
Definition at_slot (F : ftables) (f n : Z) : bool := bool_decide ((F (n / NOFILE)).1 !! (n mod NOFILE) = Some f).
Definition nrefs (F : ftables) (f : Z) : Z := count (at_slot F f) fd_slots.
Definition ncwd (F : ftables) (c : Z) : Z := count (fun p => bool_decide ((F p).2 = Some c)) (seqZ 0 NPROC).
Definition holds_ino (t : ftable) (c f : Z) : bool := (0 <? f_ref (fget t f)) && has_ino (fget t f) && (f_ip (fget t f) =? c).
Definition nfiles (t : ftable) (c : Z) : Z := count (holds_ino t c) (seqZ 0 NFILE).
Record refs_ok (x : files) (F : ftables) : Prop := {
  ro_fd : forall p fd f, (F p).1 !! fd = Some f -> 0 <= p < NPROC /\ 0 <= fd < NOFILE /\ 0 <= f < NFILE;
  ro_cwd : forall p c, (F p).2 = Some c -> 0 <= p < NPROC;
  ro_ref : forall f, f_ref (fget (fl_t x) f) = nrefs F f;
  ro_ino : forall c, iref x c = ncwd F c + nfiles (fl_t x) c;
}.

Lemma slot_mem p fd : 0 <= p < NPROC -> 0 <= fd < NOFILE -> p * NOFILE + fd ∈ fd_slots /\ (p * NOFILE + fd) / NOFILE = p /\ (p * NOFILE + fd) mod NOFILE = fd.
Proof. unfold fd_slots, NPROC, NOFILE. intros Hp Hf. rewrite elem_of_seqZ. dlia. Qed.
Lemma at_slot_set F q fd o f n : 0 <= fd < NOFILE -> n <> q * NOFILE + fd -> at_slot (set_fd F q fd o) f n = at_slot F f n.
Proof.
  intros Hf Hn. unfold at_slot, set_fd, fupd. destruct (Z.eqb_spec (n / NOFILE) q) as [<-|]; [|done]. cbn. rewrite lookup_partial_alter_ne; [done|].
  intros E. apply Hn. subst fd. unfold NOFILE in *. dlia.
Qed.
Lemma nrefs_set F q fd o f : 0 <= q < NPROC -> 0 <= fd < NOFILE ->
  nrefs (set_fd F q fd o) f = nrefs F f - (if bool_decide ((F q).1 !! fd = Some f) then 1 else 0) + (if bool_decide (o = Some f) then 1 else 0).
Proof.
  intros Hq Hf. destruct (slot_mem q fd Hq Hf) as (H1 & H2 & H3). unfold nrefs. rewrite (count_set (at_slot F f) _ _ (q * NOFILE + fd) (NoDup_seqZ _ _) H1) by (intros; symmetry; by apply at_slot_set).
  assert (at_slot F f (q * NOFILE + fd) = bool_decide ((F q).1 !! fd = Some f)) as -> by (unfold at_slot; by rewrite H2, H3).
  assert (at_slot (set_fd F q fd o) f (q * NOFILE + fd) = bool_decide (o = Some f)) as ->; [|done].
  unfold at_slot. rewrite H2, H3. unfold set_fd, fupd. rewrite Z.eqb_refl. cbn. by rewrite lookup_partial_alter_eq.
Qed.
Lemma ncwd_set F q o c : 0 <= q < NPROC -> ncwd (set_dir F q o) c = ncwd F c - (if bool_decide ((F q).2 = Some c) then 1 else 0) + (if bool_decide (o = Some c) then 1 else 0).
Proof.
  intros Hq. unfold ncwd. rewrite (count_set (fun p => bool_decide ((F p).2 = Some c)) _ _ q (NoDup_seqZ _ _)); [|apply elem_of_seqZ; lia|].
  - unfold set_dir, fupd. rewrite Z.eqb_refl. done.
  - intros p Hp. unfold set_dir, fupd. destruct (Z.eqb_spec p q); done.
Qed.
Lemma ncwd_fd F q fd o c : ncwd (set_fd F q fd o) c = ncwd F c.
Proof. unfold ncwd. apply count_ext. intros p _. unfold set_fd, fupd. destruct (Z.eqb_spec p q) as [->|]; done. Qed.
Lemma nrefs_dir F q o f : nrefs (set_dir F q o) f = nrefs F f.
Proof. unfold nrefs. apply count_ext. intros n _. unfold at_slot, set_dir, fupd. destruct (Z.eqb_spec (n / NOFILE) q) as [->|]; done. Qed.

Lemma fget_insert_dec t f x g : fget (<[f := x]> t) g = if decide (g = f) then x else fget t g.
Proof. unfold fget. destruct (decide (g = f)) as [->|]; [by rewrite lookup_insert_eq|by rewrite lookup_insert_ne]. Qed.
Lemma nfiles_set t f x c : 0 <= f < NFILE -> nfiles (<[f := x]> t) c = nfiles t c - (if holds_ino t c f then 1 else 0) + (if (0 <? f_ref x) && has_ino x && (f_ip x =? c) then 1 else 0).
Proof.
  intros Hf. unfold nfiles. rewrite (count_set (holds_ino t c) _ _ f (NoDup_seqZ _ _)); [|apply elem_of_seqZ; lia|].
  - assert (holds_ino (<[f := x]> t) c f = (0 <? f_ref x) && has_ino x && (f_ip x =? c)) as ->; [|done]. unfold holds_ino. by rewrite fget_insert_dec, decide_True.
  - intros g Hg. unfold holds_ino. by rewrite fget_insert_dec, decide_False.
Qed.
Lemma set_fd_range F q fd o (x : files) : refs_ok x F -> 0 <= q < NPROC -> 0 <= fd < NOFILE -> (forall f, o = Some f -> 0 <= f < NFILE) ->
  forall p fd' f, (set_fd F q fd o p).1 !! fd' = Some f -> 0 <= p < NPROC /\ 0 <= fd' < NOFILE /\ 0 <= f < NFILE.
Proof.
  intros [H1 _ _ _] Hq Hf Ho p fd' f. unfold set_fd, fupd. destruct (Z.eqb_spec p q) as [->|]; [|apply H1]. cbn. destruct (decide (fd' = fd)) as [->|].
  - rewrite lookup_partial_alter_eq. intros ->. auto.
  - rewrite lookup_partial_alter_ne by done. apply H1.
Qed.
Lemma nrefs_pos x F p fd f : refs_ok x F -> (F p).1 !! fd = Some f -> 1 <= nrefs F f <= 1024.
Proof.
  intros [H1 _ _ _] E. destruct (H1 p fd f E) as (Hp & Hf & _). destruct (slot_mem p fd Hp Hf) as (G1 & G2 & G3). split.
  - eapply count_pos; [exact G1|]. unfold at_slot. rewrite G2, G3. by apply bool_decide_eq_true_2.
  - unfold nrefs. pose proof (count_bound (at_slot F f) fd_slots) as H. change (Z.of_nat (length fd_slots)) with 1024 in H. lia.
Qed.
Lemma set_fd_cwd F q fd o p : (set_fd F q fd o p).2 = (F p).2.
Proof. unfold set_fd, fupd. destruct (Z.eqb_spec p q) as [->|]; done. Qed.
Lemma set_dir_fd F q o p : (set_dir F q o p).1 = (F p).1.
Proof. unfold set_dir, fupd. destruct (Z.eqb_spec p q) as [->|]; done. Qed.

(** ** The laws *)

Lemma ref_filedup x F p q fd f h : ftable_lock ∉ h -> refs_ok x F -> 0 <= q < NPROC -> 0 <= fd < NOFILE -> (F p).1 !! fd = Some f -> (F q).1 !! fd = None ->
  wp (filedup f) (KSt h x) (fun r k => r = f /\ held k = h /\ refs_ok (st k) (set_fd F q fd (Some f)) /\ fl_ops (st k) = fl_ops x).
Proof.
  intros Hh R Hq Hfd Hp Hnone. pose proof (nrefs_pos x F p fd f R Hp) as Hpos. destruct (ro_fd _ _ R p fd f Hp) as (_ & _ & Hfr). pose proof (ro_ref _ _ R f) as Eref.
  unfold filedup. wsteps. cbn [ft files_ftable]. destruct (Z.ltb_spec (f_ref (fget (fl_t x) f)) 1); [lia|]. unfold upd_file. wsteps. split_and!; [done|done| |done].
  cbn [set_ft files_ftable ft]. rewrite i32_small by lia. split.
  - apply (set_fd_range F q fd (Some f) x R Hq Hfd). congruence.
  - intros p' c. rewrite set_fd_cwd. apply (ro_cwd _ _ R).
  - intros g. cbn [fl_t]. rewrite nrefs_set by done. rewrite Hnone, (bool_decide_eq_false_2 (None = Some g)) by done. rewrite fget_insert_dec. destruct (decide (g = f)) as [->|Hg].
    + rewrite bool_decide_eq_true_2 by done. cbn. lia.
    + rewrite bool_decide_eq_false_2 by congruence. rewrite (ro_ref _ _ R g). lia.
  - intros c. cbn [fl_t]. rewrite ncwd_fd, nfiles_set by done. change (iref _ c) with (iref x c). rewrite (ro_ino _ _ R c). unfold holds_ino, has_ino. cbn.
    destruct (Z.ltb_spec 0 (f_ref (fget (fl_t x) f))); [|lia]. destruct (Z.ltb_spec 0 (f_ref (fget (fl_t x) f) + 1)); [|lia]. lia.
Qed.

Lemma set_dir_cwd F q o x : refs_ok x F -> 0 <= q < NPROC -> forall p c, (set_dir F q o p).2 = Some c -> 0 <= p < NPROC.
Proof. intros [_ H _ _] Hq p c. unfold set_dir, fupd. destruct (Z.eqb_spec p q) as [->|]; [done|apply H]. Qed.
Lemma iref_set x c v d : iref (set_iref c v x) d = if decide (d = c) then v else iref x d.
Proof. unfold iref, set_iref. cbn. destruct (decide (d = c)) as [->|]; [by rewrite lookup_insert_eq|by rewrite lookup_insert_ne]. Qed.
(** A change of current directories goes with the count of the inodes. *)
Lemma refs_dir x x' F q o : refs_ok x F -> 0 <= q < NPROC -> fl_t x' = fl_t x ->
  (forall c, iref x' c = iref x c - (if bool_decide ((F q).2 = Some c) then 1 else 0) + (if bool_decide (o = Some c) then 1 else 0)) -> refs_ok x' (set_dir F q o).
Proof.
  intros R Hq Et Ei. split.
  - intros p fd f. rewrite set_dir_fd. apply (ro_fd _ _ R).
  - by eapply set_dir_cwd.
  - intros f. rewrite nrefs_dir, Et. apply (ro_ref _ _ R).
  - intros c. rewrite ncwd_set, Et, Ei, (ro_ino _ _ R c) by done. lia.
Qed.
Lemma ref_idup_law x F q c h : ino_lock ∉ h -> refs_ok x F -> 0 <= q < NPROC -> (F q).2 = None ->
  wp (ref_idup c) (KSt h x) (fun r k => r = c /\ held k = h /\ refs_ok (st k) (set_dir F q (Some c)) /\ fl_ops (st k) = fl_ops x).
Proof.
  intros Hh R Hq Hn. unfold ref_idup. wsteps. split_and!; [done|done| |done]. eapply refs_dir; [exact R|done|done|]. intros d. rewrite iref_set, Hn, (bool_decide_eq_false_2 (None = Some d)) by done.
  destruct (decide (d = c)) as [->|Hd]; [rewrite bool_decide_eq_true_2 by done; lia|rewrite bool_decide_eq_false_2 by congruence; lia].
Qed.
Lemma wp_ref_iput x c h Q : ino_lock ∉ h -> 1 <= iref x c -> Q tt (KSt h (set_iref c (iref x c - 1) x)) -> wp (ref_iput c) (KSt h x) Q.
Proof. intros Hh Hc HQ. unfold ref_iput. wsteps. destruct (Z.ltb_spec (iref x c) 1); [lia|]. wsteps. done. Qed.
Lemma ref_iput_law x F p c : refs_ok x F -> 0 <= p < NPROC -> (F p).2 = Some c ->
  wp (ref_iput c) (KSt [] x) (fun _ k => held k = [] /\ refs_ok (st k) (set_dir F p None) /\ fl_ops (st k) = fl_ops x).
Proof.
  intros R Hp Hc. apply wp_ref_iput; [set_solver| |].
  - rewrite (ro_ino _ _ R c). assert (1 <= ncwd F c) by (eapply (count_pos _ _ p); [apply elem_of_seqZ; lia|by apply bool_decide_eq_true_2]). pose proof (count_bound (holds_ino (fl_t x) c) (seqZ 0 NFILE)). unfold nfiles. lia.
  - split_and!; [done| |done]. eapply refs_dir; [exact R|done|done|]. intros d. cbn [st]. rewrite iref_set, Hc, (bool_decide_eq_false_2 (None = Some d)) by done.
    destruct (decide (d = c)) as [->|Hd]; [rewrite bool_decide_eq_true_2 by done; lia|rewrite bool_decide_eq_false_2 by congruence; lia].
Qed.

(** The table after fileclose has dropped a reference, before the object behind it is released. *)
Definition dropped (n : Z) (y : file) : file := if 0 <? n then set_ref n y else set_type FD_NONE (set_ref 0 y).
Lemma ref_fileclose x F p fd f : refs_ok x F -> 0 <= fl_ops x -> 0 <= p < NPROC -> 0 <= fd < NOFILE -> (F p).1 !! fd = Some f ->
  wp (fileclose ref_close f) (KSt [] x) (fun _ k => held k = [] /\ refs_ok (st k) (set_fd F p fd None) /\ fl_ops (st k) = fl_ops x).
Proof.
  intros R Ho Hp Hfd Hf. pose proof (nrefs_pos x F p fd f R Hf) as Hpos. destruct (ro_fd _ _ R p fd f Hf) as (_ & _ & Hfr). pose proof (ro_ref _ _ R f) as Eref.
  set (y := fget (fl_t x) f) in *. assert (forall x', fl_t x' = <[f := dropped (f_ref y - 1) y]> (fl_t x) ->
    (forall c, iref x' c = iref x c - (if negb (0 <? f_ref y - 1) && has_ino y && (f_ip y =? c) then 1 else 0)) -> refs_ok x' (set_fd F p fd None)) as Hok.
  { intros x' Et Ei. split.
    - by apply (set_fd_range F p fd None x R Hp Hfd).
    - intros p' c. rewrite set_fd_cwd. apply (ro_cwd _ _ R).
    - intros g. rewrite nrefs_set by done. rewrite Hf, Et, fget_insert_dec, (bool_decide_eq_false_2 (None = Some g)) by done. destruct (decide (g = f)) as [->|Hg].
      + rewrite bool_decide_eq_true_2 by done. unfold dropped. destruct (Z.ltb_spec 0 (f_ref y - 1)); cbn; lia.
      + rewrite bool_decide_eq_false_2 by congruence. rewrite (ro_ref _ _ R g). lia.
    - intros c. rewrite ncwd_fd, Et, nfiles_set, Ei, (ro_ino _ _ R c) by done. unfold holds_ino. fold y. unfold dropped. destruct (Z.ltb_spec 0 (f_ref y)); [|lia].
      destruct (Z.ltb_spec 0 (f_ref y - 1)) as [Hgt|Hle]; cbn; [destruct (Z.ltb_spec 0 (f_ref y - 1)); [|lia]; unfold has_ino; cbn; lia|lia]. }
  unfold fileclose. wsteps. cbn [ft files_ftable]. fold y. destruct (Z.ltb_spec (f_ref y) 1); [lia|]. unfold upd_file at 1. wsteps. cbn [ft set_ft files_ftable]. fold y.
  destruct (Z.ltb_spec 0 (f_ref y - 1)) as [Hgt|Hle].
  - wsteps. split_and!; [done| |done]. assert ((0 <? f_ref y - 1) = true) as Eb by (apply Z.ltb_lt; lia).
    apply Hok; [unfold dropped; rewrite Eb; done|]. intros c. rewrite ?Eb. cbn [negb andb]. rewrite Z.sub_0_r. done.
  - wsteps. unfold upd_file. wsteps. cbn [ft set_ft files_ftable fl_t fl_ino fl_ops]. rewrite !fget_insert_dec, !decide_True by done. rewrite insert_insert_eq.
    set (x1 := Files _ _ _ _). assert (fl_t x1 = <[f := dropped (f_ref y - 1) y]> (fl_t x)) as E1 by (unfold x1, dropped; cbn; destruct (Z.ltb_spec 0 (f_ref y - 1)); [lia|done]).
    unfold ref_close. fold y. change (has_ino (set_ref (f_ref y - 1) y)) with (has_ino y). change (f_ip (set_ref (f_ref y - 1) y)) with (f_ip y). destruct (has_ino y) eqn:Eh.
    + unfold ref_begin. wstep. wstep. wstep. apply wp_ref_iput; [set_solver| |].
      * change (1 <= iref x (f_ip y)). rewrite (ro_ino _ _ R). pose proof (count_bound (fun p => bool_decide ((F p).2 = Some (f_ip y))) (seqZ 0 NPROC)).
        assert (1 <= nfiles (fl_t x) (f_ip y)); [|unfold ncwd; lia]. eapply (count_pos _ _ f); [apply elem_of_seqZ; lia|]. unfold holds_ino. fold y. rewrite Eh, Z.eqb_refl. destruct (Z.ltb_spec 0 (f_ref y)); [done|lia].
      * unfold ref_end. wstep. wstep. cbn [fl_ops set_iref set_ops]. change (fl_ops x1) with (fl_ops x). destruct (Z.ltb_spec (fl_ops x + 1) 1); [lia|]. wstep. split_and!; [done| |cbn; lia].
        apply Hok; [done|]. intros c. match goal with |- ?l = _ => change l with (iref (set_iref (f_ip y) (iref x (f_ip y) - 1) x1) c) end. rewrite iref_set. change (iref x1 c) with (iref x c). cbn. destruct (decide (c = f_ip y)) as [->|Hc].
        -- rewrite Z.eqb_refl. done.
        -- destruct (Z.eqb_spec (f_ip y) c); [congruence|]. lia.
    + wsteps. split_and!; [done| |done]. apply Hok; [done|]. intros c. rewrite andb_false_r. cbn. change (iref x1 c) with (iref x c). lia.
Qed.

#[export] Instance files_laws : ProcFilesLaws files.
Proof.
  refine {| files_ok x F := refs_ok x F /\ 0 <= fl_ops x; files_txn x F := refs_ok x F /\ 1 <= fl_ops x |}.
  - intros t F F' E [R Ho]. split; [|done]. destruct R as [R1 R2 R3 R4]. split.
    + intros p fd f. rewrite <- E. apply R1.
    + intros p c. rewrite <- E. apply R2.
    + intros f. rewrite R3. apply count_ext. intros n _. unfold at_slot. by rewrite E.
    + intros c. rewrite R4. f_equal. apply count_ext. intros p _. by rewrite E.
  - intros t F p q fd f i [R Ho] Hq Hfd Hp Hn. eapply wp_mono; [by apply (ref_filedup t F p q fd f [proc_lock i]); [set_solver|..]|]. intros r k (-> & Hh & R' & Eo). rewrite Eo. done.
  - intros t F p q c i [R Ho] Hq Hp Hn. eapply wp_mono; [by apply (ref_idup_law t F q c [proc_lock i]); [set_solver|..]|]. intros r k (-> & Hh & R' & Eo). rewrite Eo. done.
  - intros t F q i [R Ho] Hq Hn. cbn [pf_namei files_proc]. wstep. eapply wp_mono; [by apply (ref_idup_law t F q 1 [proc_lock i]); [set_solver|..]|]. intros r k (-> & Hh & R' & Eo). wstep. exists 1. rewrite Eo. done.
  - intros t F p fd f [R Ho] Hp Hfd Hf. eapply wp_mono; [by apply (ref_fileclose t F p fd f)|]. intros r k (Hh & R' & Eo). rewrite Eo. done.
  - intros t F [R Ho]. cbn [pf_begin_op files_proc]. unfold ref_begin. wstep. split; [done|]. split; [|cbn; lia]. destruct R. split; done.
  - intros t F p c [R Ho] Hp Hc. eapply wp_mono; [by apply (ref_iput_law t F p c)|]. intros r k (Hh & R' & Eo). rewrite Eo. done.
  - intros t F [R Ho]. cbn [pf_end_op files_proc]. unfold ref_end. wstep. wstep. destruct (Z.ltb_spec (fl_ops t) 1); [lia|]. wstep. split; [done|]. split; [|cbn; lia]. destruct R. split; done.
Defined.

(** ** A program *)

Definition le_list (n : nat) (v : Z) : list Z := map (fun i => Z.shiftr v (8 * Z.of_nat i) mod 256) (seq 0 n).
(** An ELF file whose only segment has 8 bytes of the file and 16 bytes in memory, at 0. *)
Definition ex_elf : list Z :=
  le_list 4 ELF_MAGIC ++ replicate 12 0 ++ le_list 2 2 ++ le_list 2 243 ++ le_list 4 1 ++ le_list 8 4 ++ le_list 8 64 ++ le_list 8 0 ++
  le_list 4 0 ++ le_list 2 64 ++ le_list 2 56 ++ le_list 2 1 ++ le_list 2 0 ++ le_list 2 0 ++ le_list 2 0.
Definition ex_ph : list Z := le_list 4 ELF_PROG_LOAD ++ le_list 4 7 ++ le_list 8 120 ++ le_list 8 0 ++ le_list 8 0 ++ le_list 8 8 ++ le_list 8 16 ++ le_list 8 4096.
Definition ex_file : list Z := ex_elf ++ ex_ph ++ [19; 5; 0; 0; 115; 0; 0; 0].
Definition ex_path : list Z := [47; 105; 110; 105; 116].

#[export] Instance files_exec : ExecFiles files := {
  xf_namei path := if bool_decide (path = ex_path) then c ← ref_idup 2; mret (Some c) else mret None;
  xf_ilock _ := mret tt;
  xf_readi _ off n := mret (readi_bytes ex_file off n);
  xf_iunlockput := ref_iput }.

(** A reference beyond those of the processes. *)
Definition extra_ref (x : files) (F : ftables) (ip : Z) : Prop := refs_ok (set_iref ip (iref x ip - 1) x) F /\ 1 <= fl_ops x /\ 1 <= iref x ip.
Lemma refs_iref x x' F : refs_ok x F -> fl_t x' = fl_t x -> (forall c, iref x' c = iref x c) -> refs_ok x' F.
Proof. intros [R1 R2 R3 R4] Et Ei. split; [exact R1|exact R2|by rewrite Et|]. intros c. by rewrite Et, Ei. Qed.
Lemma refs_nonneg x F c : refs_ok x F -> 0 <= iref x c.
Proof.
  intros R. rewrite (ro_ino _ _ R c). pose proof (count_bound (holds_ino (fl_t x) c) (seqZ 0 NFILE)). pose proof (count_bound (fun p => bool_decide ((F p).2 = Some c)) (seqZ 0 NPROC)). unfold nfiles, ncwd. lia.
Qed.
Lemma ex_file_ok : Z.of_nat (length ex_file) < 2 ^ 32 /\ Forall (fun b => 0 <= b < 256) ex_file.
Proof. split; [vm_compute; reflexivity|]. repeat (constructor; [vm_compute; split; discriminate || reflexivity|]). constructor. Qed.

#[export] Instance files_exec_laws : ExecFilesLaws files.
Proof.
  refine {| file_named _ path D := path = ex_path /\ D = ex_file; file_ref x F ip D := extra_ref x F ip /\ D = ex_file; file_open x F ip D := extra_ref x F ip /\ D = ex_file |}.
  - intros t F Hf. eapply wp_mono; [by apply law_begin|]. intros _ k [H1 H2]. auto.
  - intros t F path [R Ho]. cbn [xf_namei files_exec]. case_bool_decide as Ep; [|by wstep]. unfold ref_idup. wsteps. split; [done|]. exists ex_file. split; [done|]. split; [|done].
    pose proof (refs_nonneg t F 2 R). split; [|split; [cbn; lia|rewrite iref_set, decide_True by done; lia]].
    eapply refs_iref; [exact R|done|]. intros c. rewrite !iref_set. destruct (decide (c = 2)) as [->|]; [|done]. rewrite decide_True by done. lia.
  - intros t F ip D H. cbn [xf_ilock files_exec]. by wstep.
  - intros t F ip D [_ ->]. apply ex_file_ok.
  - intros t F ip D off n [H ->] _ _. cbn [xf_readi files_exec]. by wstep.
  - intros t F ip D [(R & Ho & Hc) _]. cbn [xf_iunlockput files_exec]. apply wp_ref_iput; [set_solver|done|]. done.
Defined.
