(* ===== verification/ProcWit.v ===== *)
(** * Processes: a small machine

    Boot of a machine with 24 free pages and the examples of the theorems of ProcMain.v on the
    processes it runs. *)
From S2P Require Import Prelude Mem Riscv Kalloc Vm VmTree VmSpec VmCopy VmAlloc VmFree VmPool Proc ProcMem ProcInv ProcOps ProcFork ProcCopy ProcThms ProcExit Exec ExecMem ExecSpec ExecLoad ExecArgs ExecThms Syscall SyscallThms ProcSys ProcBoot ProcMain TrapThms Ftable ProcEx.

Definition px_kend : Z := PHYSTOP - 24 * 4096.
Definition px_tramp : Z := 0x80007000.
Definition px_forkret : Z := 0x80001a00.
Definition px_initcode : Z := 0x80008400.
Definition px_xstate (np : Z) : Z := 0x80011000 + 360 * (np mod NPROC).
(** The local variables of exec and sys_exec, on a kernel stack. *)
Definition px_frame : frame := Frame 0x80020000 0x80020200 0x80020400.
Definition px_pool : list Z := all_pages px_kend.

Definition px_mem : kmem := st (after (kinit px_kend) (KSt [] (Kmem ∅ 0))).
Definition px_zero : @kern files := Kern ∅ 1 None None true px_mem (Files ∅ ∅ 0 0).
Definition px_table : @kern files := st (after procinit (KSt [] px_zero)).
Definition px_boot : kst (@kern files) := after (userinit px_kend px_tramp px_forkret px_initcode) (KSt [] px_table).
(** init runs. *)
Definition px_start : @kern files := switched (st px_boot) 63.

Lemma px_layout : layout_ok px_kend px_tramp px_xstate px_frame px_pool.
Proof.
  assert (KERNBASE <= px_kend) as Hk by done. assert (px_kend <= PHYSTOP) as Hk' by done. split.
  - done.
  - apply all_pages_NoDup.
  - by apply all_pages_ok.
  - done.
  - intros np i q Hi Hq. left. assert (page px_kend q) as [_ Hq'] by (pose proof (all_pages_ok px_kend Hk Hk') as H; rewrite Forall_forall in H; by apply H).
    assert (0 <= np mod NPROC < NPROC) by (apply Z.mod_pos_bound; done). unfold px_xstate, px_kend, PHYSTOP, KERNBASE, NPROC in *. lia.
  - intros x q Hx Hq. left. assert (page px_kend q) as [_ Hq'] by (pose proof (all_pages_ok px_kend Hk Hk') as H; rewrite Forall_forall in H; by apply H).
    unfold in_frame, in_ustack, MAXPATH, MAXARG in Hx. cbn in Hx. unfold px_kend, PHYSTOP, KERNBASE in *. lia.
  - right. done.
Qed.

(** procinit sets the kernel stacks and nothing else. *)
Lemma procinit_loop_spec {T} l : forall (s : @kern T), exists s', procinit_loop l (KSt [] s) = Ok tt (KSt [] s') /\ nextpid s' = nextpid s /\ cur s' = cur s /\ km s' = km s /\ rest s' = rest s /\
  forall i, exists v, getp s' i = set_kstack v (getp s i).
Proof.
  induction l as [|p l IH]; intros s; cbn [procinit_loop].
  - exists s. split_and!; try done. intros i. exists (p_kstack (getp s i)). by destruct (getp s i).
  - destruct (IH (upd_proc p (set_kstack (KSTACK p)) s)) as (s' & E & H1 & H2 & H3 & H4 & H5). exists s'. split; [exact E|]. split_and!; try done. intros i. destruct (H5 i) as [v Hv]. rewrite Hv.
    destruct (decide (i = p)) as [->|]; [rewrite getp_upd_eq|rewrite getp_upd_ne by done]; by exists v.
Qed.
(** After kinit every page is free. *)
Lemma mem_ok_free kend pool s l : fl_ok kend s l -> l ≡ₚ pool -> mem_ok kend pool s ∅ [].
Proof.
  intros Hfl Hl. exists l, ∅. split.
  - split; [exact Hfl| |done]. split; intros; by rewrite lookup_empty in *.
  - intros r. split; [unfold root_of; by rewrite lookup_empty|intros Hx; by apply lookup_empty_is_Some in Hx].
  - intros r f va Hr. by rewrite lookup_empty in Hr.
  - unfold tables. rewrite dom_empty_L, elements_empty. cbn. rewrite app_nil_r. exact Hl.
Qed.
Lemma px_mem_ok : mem_ok px_kend px_pool px_mem ∅ [].
Proof.
  destruct (wp_after _ _ _ (kinit_spec px_kend ltac:(done) [] ∅ ltac:(set_solver) ltac:(done))) as (u & _ & Hh & l & Hfl & Hl). exact (mem_ok_free _ _ _ l Hfl Hl).
Qed.
Lemma px_refs_ok : refs_ok (Files ∅ ∅ 0 0) (fun _ => (∅, None)).
Proof.
  by split.
Qed.
Lemma table_boot_ok kend trampoline pool m : mem_ok kend pool m ∅ [] ->
  boot_ok kend trampoline pool ∅ [] (st (after procinit (KSt [] (Kern ∅ 1 None None true m (Files ∅ ∅ 0 0))))).
Proof.
  intros Hm. set (z := Kern _ _ _ _ _ _ _). destruct (procinit_loop_spec (seqZ 0 NPROC) z) as (s' & E & H1 & H2 & H3 & H4 & H5).
  assert (st (after procinit (KSt [] z)) = s') as -> by (unfold after, procinit; by rewrite E).
  assert (forall i, exists v, getp s' i = set_kstack v proc0) as G by exact H5. clear E H5. split.
  - exists ∅. split.
    + rewrite H3. exact Hm.
    + intros i pages Hi. by rewrite lookup_empty in Hi.
    + intros i j [x Hx]. rewrite lookup_empty in Hx. discriminate.
    + intros r [x Hx]. rewrite lookup_empty in Hx. discriminate.
    + intros r f Hr. by rewrite lookup_empty in Hr.
  - rewrite H4. split; [exact px_refs_ok|done].
  - intros i. destruct (G i) as [v ->]. done.
  - rewrite H1. done.
Qed.
Lemma px_table_ok : boot_ok px_kend px_tramp px_pool ∅ [] px_table.
Proof. exact (table_boot_ok px_kend px_tramp px_pool px_mem px_mem_ok). Qed.

Lemma px_boot_facts : is_ok (userinit px_kend px_tramp px_forkret px_initcode (KSt [] px_table)) = true /\ initproc (st px_boot) = Some 0 /\ uaddr (ram (km (st px_boot))) (p_pagetable (getp (st px_boot) 0)) 0 <> None.
Proof. vm_compute. done. Qed.

Abbreviation px_sys := (sys_inv px_kend px_tramp px_pool ∅ []).
Abbreviation px_run := (run_op px_kend px_tramp px_forkret px_xstate px_frame).
(** After userinit the first process is there, if the memory was enough. *)
Lemma boot_runs kend trampoline forkret_at initcode_at xstate_at fr pool (s : @kern files) k i : k = after (userinit kend trampoline forkret_at initcode_at) (KSt [] s) ->
  layout_ok kend trampoline xstate_at fr pool -> boot_ok kend trampoline pool ∅ [] s -> is_ok (userinit kend trampoline forkret_at initcode_at (KSt [] s)) = true ->
  initproc (st k) = Some i -> uaddr (ram (km (st k))) (p_pagetable (getp (st k) i)) 0 <> None -> exists A, sys_inv kend trampoline pool ∅ [] (switched (st k) 63) A.
Proof.
  intros Ek [L1 L2 L3 L4 _ _ _] B Hok Hi Hu. pose proof (userinit_spec kend trampoline forkret_at initcode_at pool ∅ [] L1 L2 L3 L4 s B) as W. unfold wlp in W. rewrite (ok_after tt _ _ Hok), <- Ek in W.
  destruct W as (_ & i' & Hi' & Hr & Hc & Ho & Hcase). assert (i' = i) as -> by congruence. destruct Hcase as [?|[q I]]; [done|].
  eexists. apply switched_inv; [exact I|]. intros j. destruct (decide (j = i)) as [->|Hj]; [by rewrite Hr|by rewrite Ho].
Qed.
Lemma px_boot_eq : px_boot = after (userinit px_kend px_tramp px_forkret px_initcode) (KSt [] px_table).
Proof. unfold px_boot. reflexivity. Qed.
Lemma px_inv : exists A, px_sys px_start A.
Proof.
  pose proof px_boot_facts as (H3 & H1 & H2). pose proof px_boot_eq as H4. pose proof px_table_ok as H5. unfold px_start.
  generalize dependent px_boot. generalize dependent px_table. intros s Hok B k H1 H2 Ek. exact (boot_runs _ _ _ _ _ _ _ s k 0 Ek px_layout B Hok H1 H2).
Qed.

(** ** Processes *)

Definition px_step (o : op) (s : @kern files) : @kern files := default s (px_run o s).
(** init has forked once, twice; the first child runs. *)
Definition px_fork : @kern files := px_step OFork px_start.
Definition px_fork2 : @kern files := px_step OFork px_fork.
Definition px_child : @kern files := px_step OYield px_fork2.
Abbreviation px_reach := (reach px_kend px_tramp px_forkret px_xstate px_frame px_start).

Lemma step_reach o s : px_reach s -> ok_op s o -> px_run o s = Some (px_step o s) /\ px_reach (px_step o s).
Proof.
  destruct px_inv as [A0 S0]. generalize dependent px_start. intros s0 S0 Hr Ho. destruct (reach_inv px_kend px_tramp px_forkret px_xstate px_frame px_pool ∅ [] (ly_kend _ _ _ _ _ px_layout) (ly_nodup _ _ _ _ _ px_layout) (ly_pages _ _ _ _ _ px_layout) (ly_tramp _ _ _ _ _ px_layout) (ly_xstate _ _ _ _ _ px_layout) (ly_frame _ _ _ _ _ px_layout) (ly_disj _ _ _ _ _ px_layout) s0 A0 s S0 Hr) as [A S].
  destruct (run_op_inv px_kend px_tramp px_forkret px_xstate px_frame px_pool ∅ [] (ly_kend _ _ _ _ _ px_layout) (ly_nodup _ _ _ _ _ px_layout) (ly_pages _ _ _ _ _ px_layout) (ly_tramp _ _ _ _ _ px_layout) (ly_xstate _ _ _ _ _ px_layout) (ly_frame _ _ _ _ _ px_layout) (ly_disj _ _ _ _ _ px_layout) s A o S Ho) as (s' & A' & E & _).
  unfold px_step. rewrite E. split; [done|]. by eapply reach_step.
Qed.
(** Evaluated: who runs, who is ready, and the physical address of the first byte of each. *)
Lemma px_facts :
  (cur px_start = Some 0 /\ nextpid px_start = 2 /\ initproc px_start = Some 0 /\ find (fun j => p_pid (getp px_start j) =? 0) (seqZ 0 NPROC) = Some 1 /\ p_state (getp px_start 1) = UNUSED) /\
  (cur px_fork = Some 0 /\ nextpid px_fork = 3) /\
  (cur px_fork2 = Some 0 /\ p_state (getp px_fork2 2) = RUNNABLE) /\
  (cur px_child = Some 1 /\ initproc px_child = Some 0 /\ p_state (getp px_child 0) = RUNNABLE /\ p_state (getp px_child 1) = RUNNING /\ p_parent (getp px_child 1) = Some 0 /\
   forallb (fun j => negb (bool_decide (p_state (getp px_child j) = ZOMBIE))) (seqZ 0 NPROC) = true /\
   uaddr (ram (km px_child)) (p_pagetable (getp px_child 0)) 0 = Some 0x87ffb000 /\ uaddr (ram (km px_child)) (p_pagetable (getp px_child 1)) 0 = Some 0x87ff4000 /\
   forallb (fun i => match uaddr (ram (km px_child)) (p_pagetable (getp px_child 0)) (100 + i) with Some _ => true | None => false end) (seqZ 0 4) = true).
Proof. vm_compute. repeat split. Qed.

Lemma px_reach_fork : px_reach px_fork.
Proof. apply step_reach; [constructor|]. pose proof px_facts as ((_ & E & _) & _). unfold ok_op. rewrite E. lia. Qed.
Lemma px_reach_fork2 : px_reach px_fork2.
Proof. apply step_reach; [apply px_reach_fork|]. pose proof px_facts as (_ & (_ & E) & _). unfold ok_op. rewrite E. lia. Qed.
Lemma px_reach_child : px_reach px_child.
Proof. apply step_reach; [apply px_reach_fork2|exact I]. Qed.
Lemma px_reach_inv s : px_reach s -> exists A, px_sys s A.
Proof.
  destruct px_inv as [A0 S0]. apply (reach_inv px_kend px_tramp px_forkret px_xstate px_frame px_pool ∅ [] (ly_kend _ _ _ _ _ px_layout) (ly_nodup _ _ _ _ _ px_layout) (ly_pages _ _ _ _ _ px_layout) (ly_tramp _ _ _ _ _ px_layout) (ly_xstate _ _ _ _ _ px_layout) (ly_frame _ _ _ _ _ px_layout) (ly_disj _ _ _ _ _ px_layout) px_start A0 s S0).
Qed.
Lemma px_alive s p : px_reach s -> cur s = Some p -> exists A pages, px_sys s A /\ alive s p /\ A !! p = Some pages.
Proof. intros [A S]%px_reach_inv Hc. destruct (sys_alive px_kend px_tramp px_pool ∅ [] s A p S Hc) as [Ha [pages HA]]. by exists A, pages. Qed.

Lemma fork_correct_witness : exists A pages r s', fork px_kend px_tramp px_forkret (KSt [] px_start) = Ok r (KSt [] s') /\
  ((r = -1 /\ idle px_start s' /\ stays px_pool (users px_start A ++ []) (km px_start) (km s') /\ proc_inv px_kend px_tramp px_pool ∅ [] s' A) \/
   exists np pages', r = nextpid px_start /\ A !! np = None /\ forked px_forkret px_pool [] px_start s' A 0 np pages pages' /\ proc_inv px_kend px_tramp px_pool ∅ [] s' (<[np := pages']> A)).
Proof.
  pose proof px_facts as ((Hc & En & _) & _). destruct (px_alive px_start 0 (reach_refl _ _ _ _ _ _) Hc) as (A & pages & S & Ha & HA). exists A, pages.
  apply (fork_correct px_kend px_tramp px_forkret px_xstate px_frame px_pool ∅ [] px_layout px_start A 0 pages (si_proc _ _ _ _ _ _ _ S)); [rewrite En; lia|exact Hc|exact Ha|exact HA].
Defined.



Lemma scheduler_live_witness : Z.of_nat 1 < NPROC.
Proof.
  pose proof px_facts as (_ & _ & (Hc & Hr) & Hc' & _). destruct (px_reach_inv px_fork2 px_reach_fork2) as [A S].
  apply (scheduler_live px_kend px_tramp px_forkret px_xstate px_frame px_pool ∅ [] px_layout px_fork2 A 0 2 1 px_child S Hc Hr).
  apply (starved_step _ _ _ _ _ 2 px_fork2 0 px_fork2 OYield px_child); [constructor|exact I|exact (proj1 (step_reach OYield px_fork2 px_reach_fork2 I))|rewrite Hc'; discriminate].
Defined.

(** init has its exit status buffer at 100. *)
Lemma px_status A opages : px_sys px_child A -> A !! 0 = Some opages -> 100 <> 0 -> forall i, 0 <= i < 4 -> is_Some (upa opages (100 + i)).
Proof.
  intros [P _ _] HA _ i Hi. destruct (pi_mem _ _ _ _ _ _ _ P) as [R Hm]. rewrite <- (uaddr_space px_kend px_tramp px_pool ∅ (ly_kend _ _ _ _ _ px_layout) (ly_nodup _ _ _ _ _ px_layout) (ly_pages _ _ _ _ _ px_layout) [] px_child A R 0 opages (100 + i) Hm HA).
  pose proof px_facts as (_ & _ & _ & _ & _ & _ & _ & _ & _ & _ & _ & M). rewrite forallb_forall in M. specialize (M i). destruct (uaddr _ _ _); [eauto|]. exfalso. discriminate M. apply list_elem_of_In, elem_of_seqZ. lia.
Qed.
Lemma px_no_zombie j : p_state (getp px_child j) <> ZOMBIE.
Proof.
  destruct (px_reach_inv px_child px_reach_child) as [A [P _ _]]. pose proof px_facts as (_ & _ & _ & _ & _ & _ & _ & _ & F & _). intros E.
  assert (used px_child j) as Hu by (unfold used; rewrite E; discriminate). pose proof (pi_slots _ _ _ _ _ _ _ P) as Hs. destruct (sl_used _ _ Hs j (slots_used px_child A j Hs Hu)) as [Hr _].
  rewrite forallb_forall in F. specialize (F j). rewrite E in F. discriminate F. apply list_elem_of_In, elem_of_seqZ. lia.
Qed.

Lemma exit_then_wait_witness : exists A opages s1 s2, A !! 0 = Some opages /\ exit away 7 (KSt [] px_child) = (away ;; panic "zombie exit") (KSt [proc_lock 1] s1) /\ exited px_child s1 1 0 0 7 /\
    wait px_kend px_xstate away 0 100 (KSt [] (with_cur (Some 0) s1)) = Ok (p_pid (getp px_child 1)) (KSt [] s2) /\
    p_state (getp s2 1) = UNUSED /\ proc_inv px_kend px_tramp px_pool ∅ [] s2 (delete 1 A) /\
    (100 <> 0 -> forall i, 0 <= i < 4 -> exists pa, upa opages (100 + i) = Some pa /\ rd (ram (km s2)) pa = status_byte 7 i).
Proof.
  pose proof px_facts as (_ & _ & _ & Hc & Hi & H0 & _ & Hp & _). destruct (px_alive px_child 1 px_reach_child Hc) as (A & pages & S & Ha & _).
  assert (used px_child 0) as Hu by (unfold used; rewrite H0; discriminate).
  destruct (slots_used px_child A 0 (pi_slots _ _ _ _ _ _ _ (si_proc _ _ _ _ _ _ _ S)) Hu) as [opages HA]. exists A, opages.
  destruct (exit_then_wait px_kend px_tramp px_xstate px_frame px_pool ∅ [] px_layout away 0 px_child A 1 0 0 100 7 opages (si_proc _ _ _ _ _ _ _ S) Hc Ha Hi ltac:(discriminate) Hp
    (fun j _ => px_no_zombie j) HA ltac:(lia) (px_status A opages S HA)) as (s1 & s2 & H). exists s1, s2. exact (conj HA H).
Defined.

Lemma kill_unused_witness : exists (A : aspaces) s', kill 0 (KSt [] px_start) = Ok 0 (KSt [] s') /\ p_state (getp s' 1) = UNUSED /\ p_killed (getp s' 1) = 1 /\
    forall p pages r s2, nextpid px_start < 2 ^ 31 - 1 -> cur px_start = Some p -> alive px_start p -> A !! p = Some pages ->
      fork px_kend px_tramp px_forkret (KSt [] s') = Ok r (KSt [] s2) -> r <> -1 -> p_pid (getp s2 1) = r -> p_killed (getp s2 1) = 1 /\ p_state (getp s2 1) = RUNNABLE.
Proof.
  pose proof px_facts as ((_ & _ & _ & Hf & Hu) & _). destruct px_inv as [A S]. exists A.
  exact (kill_unused px_kend px_tramp px_forkret px_xstate px_frame px_pool ∅ [] px_layout px_start A 1 (si_proc _ _ _ _ _ _ _ S) Hf Hu).
Defined.

(** ** exec *)

(** init writes the path and the vector of arguments into its memory and loads the registers. *)
Definition px_pa : Z := 0x87ffb000.
Definition px_tf : Z := p_trapframe (getp px_start 0).
Definition px_args : list Z := ex_path ++ replicate 19 0 ++ le_list 8 8 ++ le_list 8 0.
Definition px_regs : list Z := le_list 8 8 ++ le_list 8 32 ++ replicate 40 0 ++ le_list 8 7.
Definition px_user : mem := store_bytes (store_bytes (ram (km px_start)) (px_pa + 8) px_args) (px_tf + tf_a0) px_regs.
Definition px_exec : @kern files := px_step (OUser px_user) px_start.
Abbreviation px_sys_exec := (sys_exec px_kend px_tramp (fr_ustack px_frame) (fr_path px_frame) (fr_uarg px_frame)).

(** What init looks like after exec: it runs, not killed, in the same trap frame, at 4. *)
Definition after_exec (s s2 : @kern files) : bool :=
  bool_decide (cur s2 = Some 0) && bool_decide (p_state (getp s2 0) = RUNNING) && (p_trapframe (getp s2 0) =? p_trapframe (getp s 0)) && (p_killed (getp s2 0) =? 0) &&
  (load64 (ram (km s2)) (p_trapframe (getp s 0) + tf_epc) =? 4).
Lemma after_exec_true s s2 : after_exec s s2 = true ->
  cur s2 = Some 0 /\ p_state (getp s2 0) = RUNNING /\ p_trapframe (getp s2 0) = p_trapframe (getp s 0) /\ p_killed (getp s2 0) = 0 /\ load64 (ram (km s2)) (p_trapframe (getp s 0) + tf_epc) = 4.
Proof. unfold after_exec. rewrite !andb_true_iff, !bool_decide_eq_true, !Z.eqb_eq. tauto. Qed.
Definition ends_ok {S} (P : S -> bool) (r : res S Z) : bool := match r with Ok a (KSt [] s2) => (a =? 1) && P s2 | _ => false end.
Lemma ends_ok_state {S} (P : S -> bool) (r : res S Z) : ends_ok P r = true -> exists s2, r = Ok 1 (KSt [] s2) /\ P s2 = true.
Proof. destruct r as [a [[|] s]| |]; cbn [ends_ok]; try done. intros [->%Z.eqb_eq H]%andb_true_iff. by exists s. Qed.

(** init calls exec at 40. *)
Abbreviation px_ecall := (trapped px_exec 0 40).
(** Evaluated: where init's memory is, its registers, and exec of the program. *)
Lemma px_user_facts : forallb (fun i => bool_decide (uaddr (ram (km px_start)) (p_pagetable (getp px_start 0)) (8 + i) = Some (px_pa + 8 + i))) (seqZ 0 40) = true /\
  cur px_exec = Some 0 /\ p_killed (getp px_exec 0) = 0 /\ i32 (load64 (ram (km px_exec)) (p_trapframe (getp px_exec 0) + tf_a7)) = 7 /\
  ends_ok (after_exec px_exec) (px_sys_exec (KSt [] px_ecall)) = true.
Proof. vm_compute. repeat split. Qed.
Lemma all_bytes l : forallb (fun b => (0 <=? b) && (b <? 256)) l = true -> Forall (fun b => 0 <= b < 256) l.
Proof. intros H. rewrite forallb_forall in H. apply Forall_forall. intros b Hb%list_elem_of_In%H. lia. Qed.
Lemma px_bytes : (Forall (fun b => 0 <= b < 256) px_args /\ length px_args = 40%nat) /\ (Forall (fun b => 0 <= b < 256) px_regs /\ length px_regs = 64%nat).
Proof. split; (split; [apply all_bytes; vm_compute; reflexivity|vm_compute; reflexivity]). Qed.
Lemma user_write_ok (s : @kern files) p va pa args regs : cur s = Some p -> Forall (fun b => 0 <= b < 256) args -> Forall (fun b => 0 <= b < 256) regs -> Z.of_nat (length regs) <= 64 ->
  (forall i, 0 <= i < Z.of_nat (length args) -> uaddr (ram (km s)) (p_pagetable (getp s p)) (va + i) = Some (pa + i)) ->
  ok_op s (OUser (store_bytes (store_bytes (ram (km s)) pa args) (p_trapframe (getp s p) + tf_a0) regs)).
Proof.
  intros Hc Ha Hr Lr M p' x Hc' Hx. assert (p' = p) as -> by congruence. rewrite rd_store_bytes by exact Hr. destruct (decide _) as [Hi|_].
  { destruct Hx. right. unfold TF_SIZE, tf_a0 in *. lia. }
  rewrite rd_store_bytes by exact Ha. destruct (decide _) as [Hi|_]; [|done]. destruct Hx. left. exists (va + (x - pa)). rewrite M by lia. f_equal. lia.
Qed.
Lemma px_user_ok : ok_op px_start (OUser px_user).
Proof.
  pose proof px_facts as ((Hc & _) & _). pose proof px_user_facts as [M _]. pose proof px_bytes as [[Ha La] [Hr Lr]]. unfold px_user, px_tf. generalize dependent px_start. intros s Hc M.
  apply (user_write_ok s 0 8); [exact Hc|exact Ha|exact Hr|rewrite Lr; lia|]. intros i Hi. rewrite La in Hi. rewrite forallb_forall in M. eapply bool_decide_eq_true_1, M, list_elem_of_In, elem_of_seqZ. lia.
Qed.
Lemma px_reach_exec : px_reach px_exec.
Proof. apply step_reach; [constructor|apply px_user_ok]. Qed.

(** The first child gives its page back; init keeps its own. *)
Lemma integrity_witness : exists s', px_run (OGrow (-4096)) px_child = Some s' /\
  (forall va pa, uaddr (ram (km px_child)) (p_pagetable (getp px_child 0)) va = Some pa ->
     uaddr (ram (km s')) (p_pagetable (getp s' 0)) va = Some pa /\ rd (ram (km s')) pa = rd (ram (km px_child)) pa) /\
  p_trapframe (getp s' 0) = p_trapframe (getp px_child 0) /\
  (forall i, 0 <= i < TF_SIZE -> rd (ram (km s')) (p_trapframe (getp px_child 0) + i) = rd (ram (km px_child)) (p_trapframe (getp px_child 0) + i)).
Proof.
  pose proof px_facts as (_ & _ & _ & Hc & _ & H0 & _). destruct px_inv as [A0 S0]. assert (ok_op px_child (OGrow (-4096))) as Hok by (unfold ok_op; lia).
  destruct (step_reach (OGrow (-4096)) px_child px_reach_child Hok) as [E _]. exists (px_step (OGrow (-4096)) px_child). split; [exact E|].
  apply (integrity px_kend px_tramp px_forkret px_xstate px_frame px_pool ∅ [] px_layout px_start A0 px_child (OGrow (-4096)) _ 1 0 S0 px_reach_child Hok Hc); [discriminate| |exact E].
  split; rewrite H0; discriminate.
Defined.

(** ** A system call *)

Lemma trapped_reach s p sepc : px_reach s -> cur s = Some p -> px_reach (trapped s p sepc).
Proof.
  intros Hr Hc. apply (reach_step _ _ _ _ _ _ s (OUser (ram (km (trapped s p sepc)))) _ Hr).
  - intros p' x Hc' Hx. assert (p' = p) as -> by congruence. unfold trapped. cbn [ram km with_km]. destruct (decide (p_trapframe (getp s p) + tf_epc <= x < p_trapframe (getp s p) + tf_epc + 8)).
    + destruct Hx. right. unfold tf_epc, TF_SIZE in *. lia.
    + by rewrite !rd_store64_ne by lia.
  - unfold run_op. by rewrite Hc.
Qed.
Lemma exec_reach s p r s2 : px_reach s -> cur s = Some p -> px_sys_exec (KSt [] s) = Ok r (KSt [] s2) -> px_reach s2.
Proof. intros Hr Hc E. apply (reach_step _ _ _ _ _ _ s OExec _ Hr I). unfold run_op, call, mbind, M_bind. by rewrite Hc, E. Qed.

Lemma cur_trapped (s : @kern files) p v : cur (trapped s p v) = cur s.
Proof. done. Qed.
Lemma px_handled : exists s2, px_sys_exec (KSt [] px_ecall) = Ok 1 (KSt [] s2) /\
  (cur s2 = Some 0 /\ p_state (getp s2 0) = RUNNING /\ p_trapframe (getp s2 0) = p_trapframe (getp px_exec 0) /\ p_killed (getp s2 0) = 0 /\ load64 (ram (km s2)) (p_trapframe (getp px_exec 0) + tf_epc) = 4).
Proof.
  pose proof px_user_facts as (_ & _ & _ & _ & F). destruct (ends_ok_state _ _ F) as (s2 & E & H). exists s2. exact (conj E (after_exec_true _ _ H)).
Qed.

Lemma exec_correct_witness : exists A pages s', px_sys px_ecall A /\ A !! 0 = Some pages /\ px_sys_exec (KSt [] px_ecall) = Ok 1 (KSt [] s') /\
  exists path strs D img pages' sp ptrs, let elf := elfhdr_of (readi_bytes D 0 SIZEOF_ELFHDR) in 1 = Z.of_nat (length strs) /\
    ustr (ram (km px_ecall)) pages (load64 (ram (km px_ecall)) (p_trapframe (getp px_ecall 0) + tf_a0)) (Z.to_nat MAXPATH) = Some path /\
    uargs (ram (km px_ecall)) pages (p_sz (getp px_ecall 0)) (load64 (ram (km px_ecall)) (p_trapframe (getp px_ecall 0) + tf_a1)) (Z.to_nat MAXARG) 0 = Some strs /\
    file_named (rest px_ecall) path D /\ e_magic elf = ELF_MAGIC /\ load_image D (Z.to_nat (e_phnum elf)) (i32 (e_phoff elf)) [] = Some img /\
    exec_done px_ecall s' A 0 pages' path (e_entry elf) img strs sp ptrs /\ proc_inv px_kend px_tramp px_pool ∅ [] s' (<[0 := pages']> A).
Proof.
  pose proof px_user_facts as (_ & Hc & _). pose proof (trapped_reach px_exec 0 40 px_reach_exec Hc) as Hr. destruct px_handled as (s2 & E & _).
  destruct (px_alive px_ecall 0 Hr (eq_trans (cur_trapped _ _ _) Hc)) as (A & pages & S & _ & HA). exists A, pages, s2. pose proof (eq_trans (cur_trapped _ 0 40) Hc) as Hct.
  clear Hc Hr. generalize dependent px_ecall. intros s E S Hc.
  destruct (exec_correct px_kend px_tramp px_xstate px_frame px_pool ∅ [] px_layout s A 0 pages (si_proc _ _ _ _ _ _ _ S) Hc HA) as (r & s' & E' & Hcase).
  rewrite E in E'. injection E' as Er Es. rewrite <- Er, <- Es in Hcase. split; [exact S|]. split; [exact HA|]. split; [exact E|]. destruct Hcase as [[H _]|H]; [discriminate H|exact H].
Defined.

Abbreviation px_usertrap := (usertrap px_kend px_tramp px_forkret px_xstate (fr_ustack px_frame) (fr_path px_frame) (fr_uarg px_frame) away 0 (fun _ => mret (-1)) (mret 0) (fun _ => mret tt) (mret tt) (mret tt) (mret tt) 0 0 0x80002000).
(** init's exec of the program, from ecall at 40 to its first instruction at 4. *)
Lemma syscall_returns_witness : exists A (s2 : @kern files) sstatus' s', px_usertrap 0 8 40 (KSt [] px_exec) = Ok (sstatus', 4, MAKE_SATP (p_pagetable (getp s2 0))) (KSt [] s') /\
  load64 (ram (km s')) (p_trapframe (getp px_exec 0) + tf_a0) = 1 /\ proc_inv px_kend px_tramp px_pool ∅ [] s' A.
Proof.
  pose proof px_user_facts as (_ & Hc & Hk & Hn & _). destruct px_handled as (s2 & E & Hc2 & Hs2 & Ht2 & Hk2 & Hepc). pose proof (trapped_reach px_exec 0 40 px_reach_exec Hc) as Hr.
  pose proof (exec_reach px_ecall 0 1 s2 Hr (eq_trans (cur_trapped _ _ _) Hc) E) as Hr2. destruct (px_reach_inv s2 Hr2) as [A [P _ _]]. exists A, s2. clear Hr Hr2. generalize dependent px_exec. intros s Hc Hk Hn E Ht2 Hepc.
  destruct (syscall_returns px_kend px_tramp px_forkret px_xstate px_frame px_pool ∅ [] px_layout away 0 (fun _ => mret (-1)) (mret 0) (fun _ => mret tt) (mret tt) (mret tt) (mret tt) 0 0 0x80002000
    s s2 A 0 1 0 40 Hc eq_refl ltac:(lia) Hk) as (_ & sstatus' & s' & Et & _ & Ha & _ & _ & P'); [rewrite Hn; exact E|exact P|exact Hc2|split; rewrite Hs2; discriminate|exact Ht2|exact Hk2|].
  exists sstatus', s'. split; [rewrite Et, Hepc; reflexivity|]. split; [exact (Ha tf_a0 eq_refl eq_refl)|exact P'].
Defined.
