(* ===== verification/Printf.v ===== *)
(** * Formatted output: user/printf.c and the conversions of kernel/printf.c

    The bytes that [vprintf] hands to [putc] and that the kernel's [printf] hands
    to [consputc], and [atoi] of user/ulib.c, which reads them back. The value of
    a conversion is [None] where the C code has no defined behaviour: an argument
    that is missing, or of the wrong kind. *)
From S2P Require Import Prelude.

(** The argument list: integers and pointers by value, strings by content. *)
Inductive arg := ANum (z : Z) | AStr (s : option (list Z)).

Definition digits : list Z := [48; 49; 50; 51; 52; 53; 54; 55; 56; 57; 65; 66; 67; 68; 69; 70].
Definition kdigits : list Z := [48; 49; 50; 51; 52; 53; 54; 55; 56; 57; 97; 98; 99; 100; 101; 102].
Definition digit (tab : list Z) (d : Z) : Z := default 0 (tab !! Z.to_nat d).

(** The [do] loop: the digits in the order they are stored in [buf]. [x] is a
    [uint], so that 32 rounds are enough for every base from 2 on. *)
Fixpoint print_digits (fuel : nat) (tab : list Z) (x base : Z) : list Z :=
  match fuel with
  | O => []
  | S fuel' =>
      digit tab (x mod base)
      :: if x / base =? 0 then [] else print_digits fuel' tab (x / base) base
  end.

(** [buf] when the digits and the sign are stored; it is printed backwards. *)
Definition printint_buf (tab : list Z) (xx base : Z) (sgn : bool) : list Z :=
  let neg := sgn && (xx <? 0) in
  let x := u32 (if neg then - xx else xx) in
  print_digits 32 tab x base ++ (if neg then [45] else []).
Definition printint (xx base : Z) (sgn : bool) : list Z := reverse (printint_buf digits (i32 xx) base sgn).

Fixpoint printptr_loop (n : nat) (tab : list Z) (x : Z) : list Z :=
  match n with
  | O => []
  | S n' => digit tab (Z.shiftr x 60) :: printptr_loop n' tab (u64 (Z.shiftl x 4))
  end.
Definition printptr (x : Z) : list Z := [48; 120] ++ printptr_loop 16 digits (u64 x).

Definition null_string : list Z := [40; 110; 117; 108; 108; 41].

(** One conversion: the bytes printed and the arguments left. *)
Definition conversion (c : Z) (ap : list arg) : option (list Z * list arg) :=
  if c =? 100 then match ap with ANum n :: ap' => Some (printint n 10 true, ap') | _ => None end
  else if c =? 108 then match ap with ANum n :: ap' => Some (printint n 10 false, ap') | _ => None end
  else if c =? 120 then match ap with ANum n :: ap' => Some (printint n 16 false, ap') | _ => None end
  else if c =? 112 then match ap with ANum n :: ap' => Some (printptr n, ap') | _ => None end
  else if c =? 115 then match ap with AStr s :: ap' => Some (default null_string s, ap') | _ => None end
  else if c =? 99 then match ap with ANum n :: ap' => Some ([u8 n], ap') | _ => None end
  else if c =? 37 then Some ([c], ap)
  else Some ([37; c], ap).

(** The loop of [vprintf]: [st] is its [state], zero or the percent sign. *)
Fixpoint vprintf (st : bool) (fmt : list Z) (ap : list arg) : option (list Z) :=
  match fmt with
  | [] => Some []
  | c :: fmt' =>
      if negb st
      then if c =? 37 then vprintf true fmt' ap else cons c <$> vprintf false fmt' ap
      else '(out, ap') ← conversion c ap; app out <$> vprintf false fmt' ap'
  end.
Definition sprintf (fmt : list Z) (ap : list arg) : option (list Z) := vprintf false fmt ap.

(** kernel/printf.c: its [printint] prints every base signed. *)
Definition kprintint (xx base : Z) (sgn : bool) : list Z := reverse (printint_buf kdigits (i32 xx) base sgn).
Definition kprintptr (x : Z) : list Z := [48; 120] ++ printptr_loop 16 kdigits (u64 x).
Definition kconversion (c : Z) (ap : list arg) : option (list Z * list arg) :=
  if c =? 100 then match ap with ANum n :: ap' => Some (kprintint n 10 true, ap') | _ => None end
  else if c =? 120 then match ap with ANum n :: ap' => Some (kprintint n 16 true, ap') | _ => None end
  else if c =? 112 then match ap with ANum n :: ap' => Some (kprintptr n, ap') | _ => None end
  else if c =? 115 then match ap with AStr s :: ap' => Some (default null_string s, ap') | _ => None end
  else if c =? 37 then Some ([37], ap)
  else Some ([37; c], ap).
Fixpoint kprintf (fmt : list Z) (ap : list arg) : option (list Z) :=
  match fmt with
  | [] => Some []
  | c :: fmt' =>
      if negb (c =? 37) then cons c <$> kprintf fmt' ap
      else match fmt' with
           | [] => Some []
           | c' :: fmt'' => '(out, ap') ← kconversion c' ap; app out <$> kprintf fmt'' ap'
           end
  end.

(** user/ulib.c: the string as the list of its bytes before the terminating zero. *)
Fixpoint atoi_loop (n : Z) (s : list Z) : Z :=
  match s with
  | [] => n
  | c :: s' => if (48 <=? c) && (c <=? 57) then atoi_loop (i32 (n * 10 + c - 48)) s' else n
  end.
Definition atoi (s : list Z) : Z := atoi_loop 0 s.

(** ** The digits *)

(** The value of digits stored least significant first. *)
Fixpoint value (tab : list Z) (base : Z) (ds : list Z) (x : Z) : Prop :=
  match ds with
  | [] => x = 0
  | d :: ds' => exists k, 0 <= k < base /\ digit tab k = d /\ value tab base ds' (x / base) /\ k = x mod base
  end.

Section digit_strings.
Context (tab : list Z) (base : Z).
Hypothesis Hbase : 2 <= base <= 16.

Lemma print_digits_value fuel x :
  0 <= x < base ^ Z.of_nat fuel -> (0 < fuel)%nat -> value tab base (print_digits fuel tab x base) x.
Proof using Hbase.
  revert x. induction fuel as [|fuel IH]; intros x Hx Hf; [lia|]. cbn [print_digits value].
  assert (0 <= x mod base < base) by (apply Z.mod_pos_bound; lia).
  exists (x mod base). split; [done|]. split; [done|]. split; [|done].
  destruct (Z.eqb_spec (x / base) 0); [done|].
  assert (0 <= x / base < base ^ Z.of_nat fuel).
  { split; [apply Z.div_pos; lia|]. apply Z.div_lt_upper_bound; [lia|].
    replace (Z.of_nat (S fuel)) with (Z.succ (Z.of_nat fuel)) in Hx by lia. rewrite Z.pow_succ_r in Hx; lia. }
  apply IH; [done|]. destruct fuel; [|lia]. cbn in *. lia.
Qed.

(** No more digits are stored than the number has, and always at least one. *)
Lemma print_digits_length fuel x n :
  0 <= x < base ^ Z.of_nat n -> (0 < n)%nat -> (length (print_digits fuel tab x base) <= n)%nat.
Proof using Hbase.
  revert x n. induction fuel as [|fuel IH]; intros x n Hx Hn; cbn [print_digits length]; [lia|].
  destruct (Z.eqb_spec (x / base) 0); cbn [length]; [lia|].
  destruct n as [|n]; [lia|].
  assert (0 <= x / base < base ^ Z.of_nat n).
  { split; [apply Z.div_pos; lia|]. apply Z.div_lt_upper_bound; [lia|].
    replace (Z.of_nat (S n)) with (Z.succ (Z.of_nat n)) in Hx by lia. rewrite Z.pow_succ_r in Hx; lia. }
  enough (length (print_digits fuel tab (x / base) base) <= n)%nat by lia.
  apply IH; [done|]. destruct n; [|lia]. cbn in *. lia.
Qed.

(** There is no leading zero. *)
Lemma print_digits_head fuel x :
  0 <= x < base ^ Z.of_nat fuel -> 0 < x ->
  exists k, last (print_digits fuel tab x base) = Some (digit tab k) /\ 0 < k < base.
Proof using Hbase.
  revert x. induction fuel as [|fuel IH]; intros x Hx H0; [cbn in Hx; lia|]. cbn [print_digits].
  destruct (Z.eqb_spec (x / base) 0) as [E|E].
  - exists (x mod base). split; [done|]. pose proof (Z.div_mod x base ltac:(lia)).
    pose proof (Z.mod_pos_bound x base). lia.
  - assert (0 <= x / base < base ^ Z.of_nat fuel).
    { split; [apply Z.div_pos; lia|]. apply Z.div_lt_upper_bound; [lia|].
      replace (Z.of_nat (S fuel)) with (Z.succ (Z.of_nat fuel)) in Hx by lia. rewrite Z.pow_succ_r in Hx; lia. }
    destruct (IH (x / base)) as (k & Hk & ?); [done|lia|]. exists k. split; [|done].
    destruct (print_digits fuel tab (x / base) base) eqn:Ed; [done|]. by rewrite last_cons_cons.
Qed.
End digit_strings.

Lemma fuel_enough base x : 2 <= base -> 0 <= x < 2 ^ 32 -> 0 <= x < base ^ Z.of_nat 32.
Proof. intros. pose proof (Z.pow_le_mono_l 2 base 32). lia. Qed.

(** [buf] has 16 bytes; the longest number has ten digits and a sign. *)
Lemma printint_buf_length tab xx base sgn :
  base = 10 \/ base = 16 -> (length (printint_buf tab xx base sgn) <= 11)%nat.
Proof.
  intros Hb. unfold printint_buf. rewrite length_app.
  set (x := u32 _). assert (0 <= x < 2 ^ 32) by apply u32_range.
  assert (length (print_digits 32 tab x base) <= 10)%nat.
  { destruct Hb; subst base; [apply print_digits_length; lia|].
    enough (length (print_digits 32 tab x 16) <= 8)%nat by lia. apply print_digits_length; lia. }
  destruct (sgn && _); cbn [length]; lia.
Qed.

(** ** Reading a number back *)
Definition isdigit (c : Z) : bool := (48 <=? c) && (c <=? 57).

Ltac ten k :=
  let H := fresh in
  assert (k = 0 \/ k = 1 \/ k = 2 \/ k = 3 \/ k = 4 \/ k = 5 \/ k = 6 \/ k = 7 \/ k = 8 \/ k = 9) as H by lia;
  destruct_or? H; rewrite H; reflexivity.
Lemma digit_dec k : 0 <= k < 10 -> digit digits k = 48 + k.
Proof. intros. ten k. Qed.
Lemma kdigit_dec k : 0 <= k < 10 -> digit kdigits k = 48 + k.
Proof. intros. ten k. Qed.

(** The decimal value of a string of digits, most significant first. *)
Definition dec (ds : list Z) : Z := fold_left (fun n c => n * 10 + c - 48) ds 0.
Lemma fold_dec ds n :
  fold_left (fun n c => n * 10 + c - 48) ds n = n * 10 ^ Z.of_nat (length ds) + dec ds.
Proof.
  unfold dec. revert n. induction ds as [|d ds IH]; intros n; cbn [fold_left length]; [cbn; lia|].
  rewrite IH, (IH (0 * 10 + d - 48)). replace (Z.of_nat (S (length ds))) with (Z.succ (Z.of_nat (length ds))) by lia.
  rewrite Z.pow_succ_r by lia. ring.
Qed.
Lemma dec_snoc ds d : dec (ds ++ [d]) = dec ds * 10 + d - 48.
Proof. unfold dec. by rewrite fold_left_app. Qed.
Lemma dec_cons d ds : dec (d :: ds) = (d - 48) * 10 ^ Z.of_nat (length ds) + dec ds.
Proof. unfold dec at 1. cbn [fold_left]. by rewrite fold_dec. Qed.

Lemma value_dec ds x : value digits 10 ds x -> 0 <= x -> Forall isdigit ds /\ dec (reverse ds) = x.
Proof.
  revert x. induction ds as [|d ds IH]; intros x; cbn [value].
  - intros -> _. done.
  - intros (k & Hk & <- & Hv & Ek) Hx. rewrite digit_dec by done.
    destruct (IH _ Hv) as [H1 H2]; [by apply Z.div_pos; lia|]. split.
    + constructor; [|done]. unfold isdigit. apply Is_true_true. zbool; lia.
    + rewrite reverse_cons, dec_snoc, H2. rewrite (Z.div_mod x 10) at 2 by lia. lia.
Qed.

Lemma dec_nonneg ds : Forall isdigit ds -> 0 <= dec ds.
Proof.
  induction ds as [|d ds IH] using rev_ind; [done|]. rewrite Forall_app, Forall_singleton, dec_snoc.
  unfold isdigit. intros [H1 H2%Is_true_true]. specialize (IH H1). revert H2. zbool; lia.
Qed.

Lemma atoi_loop_digits ds n rest :
  Forall isdigit ds -> 0 <= n -> n * 10 ^ Z.of_nat (length ds) + dec ds < 2 ^ 31 ->
  (forall c r, rest = c :: r -> isdigit c = false) ->
  atoi_loop n (ds ++ rest) = n * 10 ^ Z.of_nat (length ds) + dec ds.
Proof.
  intros Hd. revert n. induction Hd as [|d ds Hc Hd IH]; intros n Hn Hlt Hr.
  - cbn [app length]. destruct rest as [|c r]; cbn [atoi_loop].
    + unfold dec. cbn. lia.
    + pose proof (Hr c r eq_refl) as E. unfold isdigit in E. rewrite E. unfold dec. cbn. lia.
  - cbn [app atoi_loop length]. apply Is_true_true in Hc. pose proof Hc as Hc'. unfold isdigit in Hc. rewrite Hc.
    rewrite dec_cons in Hlt |- *. cbn [length] in Hlt.
    replace (Z.of_nat (S (length ds))) with (Z.succ (Z.of_nat (length ds))) in * by lia.
    rewrite Z.pow_succ_r in * by lia.
    assert (48 <= d <= 57) by (revert Hc; zbool; lia).
    pose proof (dec_nonneg ds Hd). assert (1 <= 10 ^ Z.of_nat (length ds)) by (pose proof (Z.pow_pos_nonneg 10 (Z.of_nat (length ds))); lia).
    assert ((n * 10 + d - 48) * 1 <= (n * 10 + d - 48) * 10 ^ Z.of_nat (length ds)) by (apply Z.mul_le_mono_nonneg_l; lia).
    rewrite i32_small by nia. rewrite IH by (auto; nia). ring.
Qed.

(** C40: [%d] of [user/printf.c] is read back by [atoi]: for every non-negative
    [int] the printed bytes, followed by anything that does not start with a
    digit, are converted to the same number; a negative number is printed as a
    minus sign and the digits of its magnitude, the smallest [int] included; and
    the digits and sign fit in the sixteen bytes of [buf] for both bases. *)
Theorem printint_atoi (xx : Z) (rest : list Z) :
  - 2 ^ 31 <= xx < 2 ^ 31 ->
  (forall c r, rest = c :: r -> isdigit c = false) ->
  (0 <= xx -> atoi (printint xx 10 true ++ rest) = xx)
  /\ (xx < 0 -> exists ds, printint xx 10 true = 45 :: ds /\ Forall isdigit ds /\ dec ds = - xx)
  /\ forall base sgn, base = 10 \/ base = 16 -> (length (printint xx base sgn) <= 16)%nat.
Proof.
  intros Hxx Hrest. split; [|split].
  - intros H0. unfold printint, printint_buf. rewrite i32_small by lia.
    rewrite (proj2 (Z.ltb_ge xx 0)) by lia. cbn [andb]. rewrite app_nil_r, u32_small by lia.
    pose proof (print_digits_value digits 10 ltac:(lia) 32 xx (fuel_enough 10 xx ltac:(lia) ltac:(lia)) ltac:(lia)) as Hv.
    destruct (value_dec _ _ Hv H0) as [Hd E]. unfold atoi. rewrite atoi_loop_digits.
    + rewrite E. lia.
    + by apply Forall_reverse.
    + lia.
    + rewrite E. lia.
    + done.
  - intros H0. unfold printint, printint_buf. rewrite i32_small by lia.
    rewrite (proj2 (Z.ltb_lt xx 0)) by lia. cbn [andb]. rewrite u32_small by lia.
    pose proof (print_digits_value digits 10 ltac:(lia) 32 (- xx) (fuel_enough 10 (- xx) ltac:(lia) ltac:(lia)) ltac:(lia)) as Hv.
    destruct (value_dec _ _ Hv ltac:(lia)) as [Hd E].
    exists (reverse (print_digits 32 digits (- xx) 10)). split; [by rewrite reverse_app|].
    split; [by apply Forall_reverse|done].
  - intros base sgn Hb. unfold printint. rewrite length_reverse.
    pose proof (printint_buf_length digits (i32 xx) base sgn Hb). lia.
Qed.

Lemma printint_atoi_witness :
  atoi (printint 2147483647 10 true ++ [10]) = 2147483647
  /\ printint (- 2147483648) 10 true = [45; 50; 49; 52; 55; 52; 56; 51; 54; 52; 56].
Proof.
  split; [|by vm_compute].
  apply (printint_atoi 2147483647 [10]); [lia| |lia]. intros c r [= <- <-]. done.
Defined.

(** ** The two formatters agree *)

(** Formats on which the user's [printf] and the kernel's print the same: no
    hexadecimal digit in a different case, no unsigned and no character conversion. *)
Definition common_fmt (c : Z) : bool := negb ((c =? 108) || (c =? 120) || (c =? 112) || (c =? 99)).
Lemma print_digits_dec fuel x : 0 <= x -> print_digits fuel kdigits x 10 = print_digits fuel digits x 10.
Proof.
  revert x. induction fuel as [|fuel IH]; intros x Hx; cbn [print_digits]; [done|].
  f_equal.
  - rewrite kdigit_dec, digit_dec by (apply Z.mod_pos_bound; lia). done.
  - destruct (_ =? 0); [done|]. apply IH, Z.div_pos; lia.
Qed.
Lemma conversion_common c ap : common_fmt c = true -> kconversion c ap = conversion c ap.
Proof.
  unfold common_fmt, kconversion, conversion.
  rewrite negb_true_iff, !orb_false_iff. intros [[[H1 H2] H3] H4]. rewrite H1, H2, H3, H4.
  destruct (c =? 100).
  - destruct ap as [|[n|s] ap]; [done| |done]. unfold kprintint, printint, printint_buf.
    rewrite print_digits_dec; [done|]. apply u32_range.
  - destruct (c =? 115); [done|]. destruct (Z.eqb_spec c 37); [by subst|done].
Qed.

(** The conversion characters of a format. *)
Fixpoint specs (fmt : list Z) : list Z :=
  match fmt with
  | [] => []
  | c :: fmt' => if c =? 37 then match fmt' with [] => [] | c' :: fmt'' => c' :: specs fmt'' end else specs fmt'
  end.

(** The kernel's [printf] and the user's print the same bytes for every format
    that has no [%x], [%p], [%l] and [%c], a lone percent sign at its end included. *)
Lemma printf_agree fmt ap :
  Forall (fun c => common_fmt c = true) (specs fmt) -> kprintf fmt ap = sprintf fmt ap.
Proof.
  unfold sprintf. remember (length fmt) as n eqn:E. revert fmt ap E.
  induction n as [n IH] using lt_wf_ind. intros fmt ap -> H. destruct fmt as [|c fmt]; [done|].
  cbn [kprintf vprintf negb specs] in *. destruct (c =? 37); cbn [negb].
  - destruct fmt as [|c' fmt]; [done|]. cbn [vprintf negb]. apply Forall_cons in H as [Hc H].
    rewrite conversion_common by done. destruct (conversion c' ap) as [[out ap']|]; [|done]. cbn.
    by rewrite (IH (length fmt)) by (cbn; auto; lia).
  - by rewrite (IH (length fmt)) by (cbn; auto; lia).
Qed.

(** A literal format prints itself. *)
Lemma vprintf_literal fmt rest ap :
  Forall (fun c => c <> 37) fmt -> vprintf false (fmt ++ rest) ap = app fmt <$> vprintf false rest ap.
Proof.
  induction 1 as [|c fmt Hc H IH]; cbn [app vprintf negb].
  - by destruct (vprintf false rest ap).
  - destruct (Z.eqb_spec c 37); [done|]. rewrite IH. by destruct (vprintf false rest ap).
Qed.
