(* ===== verification/User.v ===== *)
(** * User programs and the system calls they see

    The monad of a user program that runs alone: it reads from descriptors, writes,
    makes other system calls and exits. What the kernel answers is not decided
    here: the results of [read] are a list of chunks and errors per descriptor, cut
    in any way; a [write] takes everything unless a smaller result is given for it;
    and the outcome of every other call is an argument. So a theorem about a
    program holds for every way its input may arrive. *)
From S2P Require Import Prelude Printf.

(** The bytes of a string literal. *)
Definition zs (s : string) : list Z := (fun a => Z.of_N (Ascii.N_of_ascii a)) <$> String.list_ascii_of_string s.

(** One answer of [read]: bytes that are there (none at the end of the file), or -1. *)
Inductive input := Chunk (l : list Z) | RdErr.
(** The calls whose effect the programs only request. *)
Inductive ucall := CMkdir (path : list Z) | CUnlink (path : list Z) | CLink (old new : list Z) | CKill (pid : Z).
Inductive event := EWrite (fd : Z) (l : list Z) | ECall (c : ucall).

Record world := World { w_in : gmap Z (list input); w_tr : list event; w_wr : list Z }.
Definition set_in (fd : Z) (s : list input) (w : world) : world := World (<[fd := s]> (w_in w)) (w_tr w) (w_wr w).

(** [URet]: the program goes on. [UExit]: it has called [exit]. [UStuck]: C gives it no meaning. *)
Inductive ures (A : Type) := URet (a : A) (w : world) | UExit (code : Z) (w : world) | UStuck.
Arguments URet {A} _ _.
Arguments UExit {A} _ _.
Arguments UStuck {A}.
Definition U (A : Type) : Type := world -> ures A.
#[export] Instance U_ret : MRet U := fun A a w => URet a w.
#[export] Instance U_bind : MBind U := fun A B f m w =>
  match m w with URet a w' => f a w' | UExit c w' => UExit c w' | UStuck => UStuck end.

Definition exit {A} (code : Z) : U A := fun w => UExit code w.
Definition stuck {A} : U A := fun _ => UStuck.
Definition emit (e : event) : U unit := fun w => URet tt (World (w_in w) (w_tr w ++ [e]) (w_wr w)).

(** [read fd n]: the result and the bytes stored. *)
Definition read (fd n : Z) : U (Z * list Z) := fun w =>
  match w_in w !! fd with
  | None => URet (-1, []) w
  | Some [] => URet (0, []) w
  | Some (RdErr :: s) => URet (-1, []) (set_in fd s w)
  | Some (Chunk l :: s) =>
      let l1 := take (Z.to_nat n) l in
      let l2 := drop (Z.to_nat n) l in
      URet (Z.of_nat (length l1), l1) (set_in fd (match l2 with [] => s | _ => Chunk l2 :: s end) w)
  end.
(** [write fd l]: as many bytes as the next entry of [w_wr] allows, all without one. *)
Definition write (fd : Z) (l : list Z) : U Z := fun w =>
  match w_wr w with
  | [] => URet (Z.of_nat (length l)) (World (w_in w) (w_tr w ++ [EWrite fd l]) [])
  | r :: rs => URet r (World (w_in w) (w_tr w ++ [EWrite fd (take (Z.to_nat r) l)]) rs)
  end.
Definition putc (fd c : Z) : U unit := write fd [c] ≫= fun _ => mret tt.
Fixpoint puts (fd : Z) (l : list Z) : U unit :=
  match l with [] => mret tt | c :: l' => putc fd c;; puts fd l' end.
Definition fprintf (fd : Z) (fmt : list Z) (ap : list arg) : U unit :=
  match sprintf fmt ap with Some out => puts fd out | None => stuck end.
Definition printf (fmt : list Z) (ap : list arg) : U unit := fprintf 1 fmt ap.

(** The lowest descriptor that is free, as [fdalloc] gives it; [NOFILE] is 16. *)
Fixpoint free_fd (n : nat) (fd : Z) (m : gmap Z (list input)) : Z :=
  match n with
  | O => -1
  | S n' => match m !! fd with None => fd | Some _ => free_fd n' (fd + 1) m end
  end.
(** [open] of a file for reading: [dir] gives what its reads will answer. *)
Definition open (dir : list Z -> option (list input)) (path : list Z) : U Z := fun w =>
  match dir path with
  | None => URet (-1) w
  | Some s => let fd := free_fd 16 0 (w_in w) in
              if fd <? 0 then URet (-1) w else URet fd (set_in fd s w)
  end.
Definition close (fd : Z) : U unit := fun w => URet tt (World (delete fd (w_in w)) (w_tr w) (w_wr w)).
Definition syscall (ret : ucall -> Z) (c : ucall) : U Z := emit (ECall c) ≫= fun _ => mret (ret c).

(** ** What a descriptor delivers *)

(** The bytes up to the end of the file or the first error, and whether it is an error. *)
Fixpoint payload (s : list input) : list Z * bool :=
  match s with
  | [] => ([], false)
  | RdErr :: _ => ([], true)
  | Chunk [] :: _ => ([], false)
  | Chunk l :: s' => let '(d, e) := payload s' in (l ++ d, e)
  end.
Fixpoint isize (s : list input) : nat :=
  match s with [] => 0 | RdErr :: s' => S (isize s') | Chunk l :: s' => S (length l + isize s') end.
(** Enough rounds for any loop that reads a descriptor until the end. *)
Definition fuel_of (fd : Z) (w : world) : nat := S (isize (default [] (w_in w !! fd))).

Lemma lookup_set_in fd s w : w_in (set_in fd s w) !! fd = Some s.
Proof. apply lookup_insert_eq. Qed.
Lemma set_in_twice fd s s' w : set_in fd s' (set_in fd s w) = set_in fd s' w.
Proof. unfold set_in. cbn. by rewrite insert_insert_eq. Qed.

(** The three answers of [read]. *)
Inductive answer (n : Z) (s : list input) : Z -> list Z -> list input -> Prop :=
| ans_eof s' : payload s = ([], false) -> answer n s 0 [] s'
| ans_err s' : payload s = ([], true) -> answer n s (-1) [] s'
| ans_data l s' d e :
    l <> [] -> Z.of_nat (length l) <= n -> payload s' = (d, e) -> payload s = (l ++ d, e) ->
    (isize s' < isize s)%nat -> answer n s (Z.of_nat (length l)) l s'.

Lemma read_spec fd n w s :
  0 < n -> w_in w !! fd = Some s ->
  exists r l s', read fd n w = URet (r, l) (set_in fd s' w) /\ answer n s r l s'.
Proof.
  intros Hn Hs. unfold read. rewrite Hs. destruct s as [|[l|] s].
  - exists 0, [], []. split; [|by constructor]. f_equal. unfold set_in. rewrite insert_id by done. by destruct w.
  - destruct l as [|c l].
    + eexists 0, [], s. rewrite take_nil, drop_nil. split; [done|by constructor].
    + eexists _, _, _. split; [done|].
      destruct (Z.to_nat n) as [|k] eqn:Ek; [lia|]. destruct (payload s) as [d e] eqn:Ep.
      assert (Ht := take_drop (S k) (c :: l)). assert (Hl := length_take (c :: l) (S k)).
      assert (Hd := length_drop (c :: l) (S k)). cbn [length] in *.
      destruct (drop (S k) (c :: l)) as [|y l2] eqn:E2.
      * rewrite app_nil_r in Ht. rewrite Ht in *.
        apply (ans_data _ _ _ _ d e); [done|cbn [length] in *; lia|done| |cbn [isize length]; lia].
        cbn [payload]. by rewrite Ep.
      * apply (ans_data _ _ _ _ ((y :: l2) ++ d) e); [done|lia|cbn [payload]; by rewrite Ep| |].
        -- cbn [payload]. rewrite Ep, app_assoc, Ht. done.
        -- cbn [isize length] in *. lia.
  - exists (-1), [], s. split; [done|by constructor].
Qed.

(** ** Output when every write succeeds *)
Definition out (l : list event) (w : world) : world := World (w_in w) (w_tr w ++ l) (w_wr w).
Lemma out_out l l' w : out l' (out l w) = out (l ++ l') w.
Proof. unfold out. cbn. by rewrite app_assoc. Qed.
Lemma out_nil w : out [] w = w.
Proof. unfold out. rewrite app_nil_r. by destruct w. Qed.
Lemma out_set_in l fd s w : out l (set_in fd s w) = set_in fd s (out l w).
Proof. done. Qed.
Lemma write_out fd l w : w_wr w = [] -> write fd l w = URet (Z.of_nat (length l)) (out [EWrite fd l] w).
Proof. intros H. unfold write, out. by rewrite H. Qed.
Lemma puts_out fd l w : w_wr w = [] -> puts fd l w = URet tt (out ((fun c => EWrite fd [c]) <$> l) w).
Proof.
  revert w. induction l as [|c l IH]; intros w Hw; cbn [puts].
  - by rewrite fmap_nil, out_nil.
  - unfold putc, mbind, U_bind. rewrite write_out by done. cbn. rewrite IH by done. by rewrite out_out.
Qed.

(** The bytes written to a descriptor, whatever the cutting into writes. *)
Fixpoint written (fd : Z) (tr : list event) : list Z :=
  match tr with
  | [] => []
  | EWrite fd' l :: tr' => (if fd' =? fd then l else []) ++ written fd tr'
  | ECall _ :: tr' => written fd tr'
  end.
Lemma written_cat fd a b : written fd (a ++ b) = written fd a ++ written fd b.
Proof. induction a as [|[] a IH]; cbn [app written]; rewrite ?IH, ?app_assoc; done. Qed.
Lemma written_puts fd l : written fd ((fun c => EWrite fd [c]) <$> l) = l.
Proof. induction l as [|c l IH]; cbn [fmap list_fmap written]; [done|]. by rewrite Z.eqb_refl, IH. Qed.
Lemma written_puts_ne fd fd' l : fd <> fd' -> written fd' ((fun c => EWrite fd [c]) <$> l) = [].
Proof. intros. induction l as [|c l IH]; cbn [fmap list_fmap written]; [done|]. by rewrite IH, (proj2 (Z.eqb_neq fd fd')). Qed.

Lemma fprintf_out fd fmt ap o w :
  sprintf fmt ap = Some o -> w_wr w = [] -> fprintf fd fmt ap w = URet tt (out ((fun c => EWrite fd [c]) <$> o) w).
Proof. intros H Hw. unfold fprintf. rewrite H. by apply puts_out. Qed.

Lemma bind_ret {A B} (m : U A) (f : A -> U B) w a w' : m w = URet a w' -> (m ≫= f) w = f a w'.
Proof. intros H. unfold mbind, U_bind. by rewrite H. Qed.
Lemma bind_exit {A B} (m : U A) (f : A -> U B) w c w' : m w = UExit c w' -> (m ≫= f) w = UExit c w'.
Proof. intros H. unfold mbind, U_bind. by rewrite H. Qed.
(** Rewriting the first call of a sequence with what it returns. *)
Ltac uret H := rewrite (bind_ret _ _ _ _ _ H).

(** ** Opening and closing *)
Lemma free_fd_None n fd m : 0 <= fd -> 0 <= free_fd n fd m -> m !! free_fd n fd m = None.
Proof.
  revert fd. induction n as [|n IH]; intros fd Hfd; cbn [free_fd]; [lia|].
  destruct (m !! fd) eqn:E; [|done]. apply IH. lia.
Qed.
Lemma open_out dir f w :
  0 <= free_fd 16 0 (w_in w) ->
  open dir f w = match dir f with
                 | None => URet (-1) w
                 | Some s => URet (free_fd 16 0 (w_in w)) (set_in (free_fd 16 0 (w_in w)) s w)
                 end.
Proof. intros H. unfold open. destruct (dir f); [|done]. by rewrite (proj2 (Z.ltb_ge _ _)). Qed.
Lemma close_out fd s l w :
  w_in w !! fd = None -> close fd (set_in fd s (out l w)) = URet tt (out l w).
Proof. intros H. unfold close, set_in, out. cbn. by rewrite delete_insert_id. Qed.

