(* ===== verification/Grep.v ===== *)
(** * user/grep.c

    The matcher of Kernighan and Pike on C strings, given as the list of the
    bytes before the terminating zero, and the loop of [grep] over its buffer of
    1024 bytes. The matcher is proved equal to a denotational reading of the
    pattern as a regular expression, and the loop to print exactly the matching
    lines, whatever the chunks in which [read] delivers the file. *)
From S2P Require Import Prelude Printf User.

Definition CARET : Z := 94.
Definition STAR : Z := 42.
Definition DOLLAR : Z := 36.
Definition DOT : Z := 46.
Definition NL : Z := 10.

(** ** The matcher *)

(** The [do] loop of [matchstar]; [here] is [matchhere] of the rest of the pattern. *)
Fixpoint matchstar (c : Z) (here : list Z -> bool) (text : list Z) : bool :=
  here text ||
  match text with
  | [] => false
  | t :: text' => ((t =? c) || (c =? DOT)) && matchstar c here text'
  end.

Fixpoint matchhere (re text : list Z) {struct re} : bool :=
  match re with
  | [] => true
  | c :: re' =>
      match re' with
      | s :: re'' =>
          if s =? STAR then matchstar c (matchhere re'') text
          else match text with
               | [] => false
               | t :: text' => ((c =? DOT) || (c =? t)) && matchhere re' text'
               end
      | [] =>
          if c =? DOLLAR then match text with [] => true | _ => false end
          else match text with
               | [] => false
               | t :: text' => ((c =? DOT) || (c =? t)) && matchhere re' text'
               end
      end
  end.

(** The [do] loop of [match] over the suffixes of the text, the empty one included. *)
Fixpoint match_loop (re text : list Z) : bool :=
  matchhere re text || match text with [] => false | _ :: text' => match_loop re text' end.
Definition match_ (re text : list Z) : bool :=
  match re with
  | c :: re' => if c =? CARET then matchhere re' text else match_loop re text
  | [] => match_loop re text
  end.

(** ** The loop over the file *)
Definition SIZEOF_BUF : nat := 1024.

(** [strchr] of user/ulib.c from a position of the buffer: the offset at which it stops. *)
Fixpoint strchr (s : list Z) (c : Z) : option nat :=
  match s with
  | [] => None
  | x :: s' => if x =? 0 then None else if x =? c then Some O else S <$> strchr s' c
  end.
Fixpoint cstr (s : list Z) : list Z :=
  match s with [] => [] | x :: s' => if x =? 0 then [] else x :: cstr s' end.
(** Bytes stored at an offset of the buffer, by [read] or by [memmove]. *)
Definition splice (buf : list Z) (i : nat) (l : list Z) : list Z := take i buf ++ l ++ drop (i + length l) buf.

(** The inner [while]: the buffer and the position [p] at the end. *)
Fixpoint grep_lines (fuel : nat) (re buf : list Z) (p : nat) : U (list Z * nat) :=
  match fuel with
  | O => stuck
  | S fuel' =>
      match strchr (drop p buf) NL with
      | None => mret (buf, p)
      | Some k =>
          let q := (p + k)%nat in
          let buf := <[q := 0]> buf in
          if match_ re (cstr (drop p buf)) then
            let buf := <[q := NL]> buf in
            write 1 (take (q + 1 - p) (drop p buf));;
            grep_lines fuel' re buf (q + 1)
          else grep_lines fuel' re buf (q + 1)
      end
  end.

Fixpoint grep_loop (fuel : nat) (re : list Z) (fd : Z) (buf : list Z) (m : nat) : U (list Z) :=
  match fuel with
  | O => stuck
  | S fuel' =>
      '(n, l) ← read fd (Z.of_nat (SIZEOF_BUF - m - 1));
      if n <=? 0 then mret buf
      else
        let buf := splice buf m l in
        let m := (m + length l)%nat in
        let buf := <[m := 0]> buf in
        '(buf, p) ← grep_lines (S m) re buf 0;
        if (0 <? m)%nat then
          let m' := (m - p)%nat in
          grep_loop fuel' re fd (splice buf 0 (take m' (drop p buf))) m'
        else grep_loop fuel' re fd buf m
  end.
(** [grep], with the static buffer passed along. *)
Definition grep (re : list Z) (fd : Z) (buf : list Z) : U (list Z) := fun w =>
  grep_loop (fuel_of fd w) re fd buf 0 w.

Section main.
Context (dir : list Z -> option (list input)).

Fixpoint main_loop (re : list Z) (files : list (list Z)) (buf : list Z) : U unit :=
  match files with
  | [] => mret tt
  | f :: files' =>
      fd ← open dir f;
      if fd <? 0 then
        printf (zs "grep: cannot open %s" ++ [10]) [AStr (Some f)];; exit 1
      else
        buf' ← grep re fd buf;
        close fd;;
        main_loop re files' buf'
  end.
Definition main (argv : list (list Z)) : U unit :=
  match argv with
  | _ :: re :: files =>
      match files with
      | [] => grep re 0 (replicate SIZEOF_BUF 0);; exit 0
      | _ => main_loop re files (replicate SIZEOF_BUF 0);; exit 0
      end
  | _ => fprintf 2 (zs "usage: grep pattern [file ...]" ++ [10]) [];; exit 1
  end.
End main.

(** ** What a pattern means *)

(** A pattern is a sequence of characters, each possibly starred, between two
    optional anchors. *)
Inductive item := One (c : Z) | Many (c : Z).
Record regex := Regex { bol : bool; items : list item; eol : bool }.

Fixpoint parse_items (re : list Z) : list item * bool :=
  match re with
  | [] => ([], false)
  | c :: re' =>
      match re' with
      | s :: re'' =>
          if s =? STAR then let '(l, e) := parse_items re'' in (Many c :: l, e)
          else let '(l, e) := parse_items re' in (One c :: l, e)
      | [] => if c =? DOLLAR then ([], true) else ([One c], false)
      end
  end.
Definition parse (re : list Z) : regex :=
  match re with
  | c :: re' => if c =? CARET then let '(l, e) := parse_items re' in Regex true l e
                else let '(l, e) := parse_items re in Regex false l e
  | [] => Regex false [] false
  end.

(** The characters an item stands for, the strings it stands for, and their concatenation. *)
Definition char_in (c t : Z) : Prop := c = DOT \/ t = c.
Definition item_lang (i : item) (s : list Z) : Prop :=
  match i with
  | One c => exists t, s = [t] /\ char_in c t
  | Many c => Forall (char_in c) s
  end.
Fixpoint lang (l : list item) (s : list Z) : Prop :=
  match l with
  | [] => s = []
  | i :: l' => exists a b, s = a ++ b /\ item_lang i a /\ lang l' b
  end.
(** A line is selected when a part of it belongs to the pattern, at the anchored ends. *)
Definition selects (r : regex) (text : list Z) : Prop :=
  exists pre mid post,
    text = pre ++ mid ++ post /\ lang (items r) mid
    /\ (bol r = true -> pre = []) /\ (eol r = true -> post = []).

(** ** The matcher is right *)
Lemma char_in_test c t : (c =? DOT) || (c =? t) = true <-> char_in c t.
Proof. unfold char_in. rewrite orb_true_iff, !Z.eqb_eq. intuition. Qed.
Lemma char_in_test' c t : (t =? c) || (c =? DOT) = true <-> char_in c t.
Proof. unfold char_in. rewrite orb_true_iff, !Z.eqb_eq. intuition. Qed.

Lemma matchstar_spec c here text :
  matchstar c here text = true <-> exists a b, text = a ++ b /\ Forall (char_in c) a /\ here b = true.
Proof.
  induction text as [|t text IH]; cbn [matchstar]; rewrite orb_true_iff.
  - split; [intros [H|H]; [by exists [], []|done]|].
    intros (a & b & E & _ & H). symmetry in E. apply app_nil in E as [-> ->]. by left.
  - rewrite andb_true_iff, IH, char_in_test'. split.
    + intros [H|[Ht (a & b & -> & Ha & H)]]; [by exists [], (t :: text)|].
      exists (t :: a), b. split; [done|]. split; [by constructor|done].
    + intros ([|t' a] & b & E & Ha & H); cbn in E; [left; by subst b|].
      injection E as <- ->. apply Forall_cons in Ha as [Ht Ha]. right. eauto 10.
Qed.

(** [matchhere] finds an initial part of the text in the language, all of it
    when the pattern ends with the anchor. *)
Definition starts (p : list item * bool) (text : list Z) : Prop :=
  exists mid post, text = mid ++ post /\ lang p.1 mid /\ (p.2 = true -> post = []).

Lemma starts_one c l e text :
  starts (One c :: l, e) text <-> exists t text', text = t :: text' /\ char_in c t /\ starts (l, e) text'.
Proof.
  unfold starts. cbn [fst snd lang item_lang]. split.
  - intros (mid & post & -> & (a & b & -> & (t & -> & Ht) & Hb) & He).
    exists t, (b ++ post). split; [done|]. eauto 10.
  - intros (t & text' & -> & Ht & mid & post & -> & Hm & He).
    exists (t :: mid), post. split; [done|]. split; [|done]. exists [t], mid. eauto 10.
Qed.
Lemma starts_many c l e text :
  starts (Many c :: l, e) text <-> exists a b, text = a ++ b /\ Forall (char_in c) a /\ starts (l, e) b.
Proof.
  unfold starts. cbn [fst snd lang item_lang]. split.
  - intros (mid & post & -> & (a & b & -> & Ha & Hb) & He).
    exists a, (b ++ post). rewrite app_assoc. eauto 10.
  - intros (a & b & -> & Ha & mid & post & -> & Hm & He).
    exists (a ++ mid), post. rewrite app_assoc. eauto 10.
Qed.
Lemma starts_nil_open text : starts ([], false) text.
Proof. by exists [], text. Qed.
Lemma starts_nil_eol text : starts ([], true) text <-> text = [].
Proof.
  split; [|intros ->; by exists [], []]. intros (mid & post & -> & E & He). cbn in E, He.
  by rewrite E, He.
Qed.

Lemma matchhere_one c re text :
  (match text with [] => false | t :: text' => ((c =? DOT) || (c =? t)) && matchhere re text' end) = true
  <-> exists t text', text = t :: text' /\ char_in c t /\ matchhere re text' = true.
Proof.
  destruct text as [|t text]; [naive_solver|]. rewrite andb_true_iff, char_in_test. naive_solver.
Qed.

Lemma matchhere_spec re text : matchhere re text = true <-> starts (parse_items re) text.
Proof.
  remember (length re) as n eqn:En. revert re text En.
  induction n as [n IH] using lt_wf_ind. intros re text ->.
  destruct re as [|c re]; [cbn; by split; [intros _; apply starts_nil_open|]|].
  cbn [matchhere parse_items]. destruct re as [|s re].
  - destruct (Z.eqb_spec c DOLLAR) as [_|_].
    + rewrite starts_nil_eol. by destruct text.
    + rewrite matchhere_one, starts_one. cbn [matchhere].
      split; intros (t & text' & H & H' & _); eauto 10 using starts_nil_open.
  - destruct (Z.eqb_spec s STAR) as [_|_].
    + assert (IH' := IH (length re) ltac:(cbn; lia) re). destruct (parse_items re) as [l e].
      rewrite matchstar_spec, starts_many.
      split; intros (a & b & H & H' & Hb); exists a, b; split_and!; try done; by apply (IH' b eq_refl).
    + rewrite matchhere_one. assert (IH' := IH (length (s :: re)) ltac:(cbn; lia) (s :: re)).
      destruct (parse_items (s :: re)) as [l e]. rewrite starts_one.
      split; intros (t & b & H & H' & Hb); exists t, b; split_and!; try done; by apply (IH' b eq_refl).
Qed.

Lemma match_loop_spec re text :
  match_loop re text = true <-> exists pre rest, text = pre ++ rest /\ matchhere re rest = true.
Proof.
  induction text as [|t text IH]; cbn [match_loop]; rewrite orb_true_iff.
  - split; [intros [H|H]; [by exists [], []|done]|].
    intros (pre & rest & E & H). symmetry in E. apply app_nil in E as [-> ->]. by left.
  - rewrite IH. split.
    + intros [H|(pre & rest & -> & H)]; [by exists [], (t :: text)|by exists (t :: pre), rest].
    + intros ([|t' pre] & rest & E & H); cbn in E; [left; by subst|]. injection E as <- ->. right. eauto.
Qed.

(** [match] decides the denotational meaning of its pattern. *)
Lemma match_spec re text : match_ re text = true <-> selects (parse re) text.
Proof.
  unfold match_, parse, selects.
  assert (forall re', match_loop re' text = true <->
    exists pre mid post, text = pre ++ mid ++ post /\ lang (parse_items re').1 mid
      /\ (false = true -> pre = []) /\ ((parse_items re').2 = true -> post = [])) as Hloop.
  { intros re'. rewrite match_loop_spec. setoid_rewrite matchhere_spec. unfold starts. split.
    - intros (pre & ? & -> & mid & post & -> & H). exists pre, mid, post. naive_solver.
    - intros (pre & mid & post & -> & H & _ & He). eauto 10. }
  destruct re as [|c re]; [apply (Hloop [])|].
  destruct (Z.eqb_spec c CARET) as [_|_].
  - rewrite matchhere_spec. destruct (parse_items re) as [l e]. cbn [bol items eol]. unfold starts. cbn [fst snd].
    split.
    + intros (mid & post & -> & H & He). by exists [], mid, post.
    + intros (pre & mid & post & -> & H & Hp & He). rewrite (Hp eq_refl). by exists mid, post.
  - rewrite Hloop. destruct (parse_items (c :: re)) as [l e]. done.
Qed.

#[export] Instance selects_dec re text : Decision (selects (parse re) text).
Proof. refine (cast_if (decide (match_ re text = true))); by rewrite <- match_spec. Defined.

(** ** The lines of a file *)

(** The lines that end with a newline, and what follows the last newline; [cur]
    is the line read so far. *)
Fixpoint lines_of (cur d : list Z) : list (list Z) :=
  match d with
  | [] => []
  | c :: d' => if c =? NL then cur :: lines_of [] d' else lines_of (cur ++ [c]) d'
  end.
Fixpoint tail_of (cur d : list Z) : list Z :=
  match d with
  | [] => cur
  | c :: d' => if c =? NL then tail_of [] d' else tail_of (cur ++ [c]) d'
  end.
(** What [grep] should write for a file. *)
Definition selected (re d : list Z) : list event :=
  (fun l => EWrite 1 (l ++ [NL])) <$> filter (selects (parse re)) (lines_of [] d).

Lemma lines_of_app cur l d : NL ∉ l -> lines_of cur (l ++ d) = lines_of (cur ++ l) d.
Proof.
  revert cur. induction l as [|c l IH]; intros cur Hl; cbn [app lines_of]; [by rewrite app_nil_r|].
  apply not_elem_of_cons in Hl as [H1 H2]. destruct (Z.eqb_spec c NL); [done|]. by rewrite IH, <- app_assoc.
Qed.
Lemma tail_of_app cur l d : NL ∉ l -> tail_of cur (l ++ d) = tail_of (cur ++ l) d.
Proof.
  revert cur. induction l as [|c l IH]; intros cur Hl; cbn [app tail_of]; [by rewrite app_nil_r|].
  apply not_elem_of_cons in Hl as [H1 H2]. destruct (Z.eqb_spec c NL); [done|]. by rewrite IH, <- app_assoc.
Qed.
(** Cutting the data anywhere: the tail of the first part is carried over. *)
Lemma lines_of_cut cur a b : lines_of cur (a ++ b) = lines_of cur a ++ lines_of (tail_of cur a) b.
Proof.
  revert cur. induction a as [|c a IH]; intros cur; cbn [app lines_of tail_of]; [done|].
  destruct (c =? NL); [|apply IH]. cbn [app]. by rewrite IH.
Qed.
Lemma tail_of_no_nl cur d : NL ∉ cur -> NL ∉ tail_of cur d.
Proof.
  revert cur. induction d as [|c d IH]; intros cur Hc; cbn [tail_of]; [done|].
  destruct (Z.eqb_spec c NL); apply IH; set_solver.
Qed.
Lemma tail_of_nonzero cur d : Forall (fun c => c <> 0) cur -> Forall (fun c => c <> 0) d -> Forall (fun c => c <> 0) (tail_of cur d).
Proof.
  intros H1 H2. revert cur H1. induction H2 as [|c d Hc Hd IH]; intros cur H1; cbn [tail_of]; [done|].
  destruct (c =? NL); apply IH; [done|]. apply Forall_app. auto.
Qed.
(** A line grows from what has been read of it. *)
Lemma lines_of_long cur d n :
  Forall (fun l => (length l < n)%nat) (lines_of cur d) -> (n <= length cur)%nat -> lines_of cur d = [].
Proof.
  revert cur. induction d as [|c d IH]; intros cur; cbn [lines_of]; [done|].
  destruct (c =? NL).
  - intros [H _]%Forall_cons. lia.
  - intros H1 H2. apply IH; [done|]. rewrite length_app. lia.
Qed.
Lemma selected_cons re l d : NL ∉ l -> selected re (l ++ NL :: d) =
  (if match_ re l then [EWrite 1 (l ++ [NL])] else []) ++ selected re d.
Proof.
  intros Hl. unfold selected. rewrite lines_of_app by done. cbn [app lines_of]. rewrite Z.eqb_refl, filter_cons.
  destruct (match_ re l) eqn:E.
  - rewrite decide_True by (by apply match_spec). done.
  - rewrite decide_False by (by rewrite <- match_spec, E). done.
Qed.

(** ** The buffer *)
Lemma strchr_none t junk : NL ∉ t -> Forall (fun c => c <> 0) t -> strchr (t ++ 0 :: junk) NL = None.
Proof.
  intros Hn Hz. induction Hz as [|c t Hc Hz IH]; cbn [app strchr]; [done|].
  apply not_elem_of_cons in Hn as [H1 H2]. destruct (Z.eqb_spec c 0); [done|].
  destruct (Z.eqb_spec c NL); [done|]. by rewrite IH.
Qed.
Lemma strchr_some l rest : NL ∉ l -> Forall (fun c => c <> 0) l -> strchr (l ++ NL :: rest) NL = Some (length l).
Proof.
  intros Hn Hz. induction Hz as [|c t Hc Hz IH]; cbn [app strchr length]; [done|].
  apply not_elem_of_cons in Hn as [H1 H2]. destruct (Z.eqb_spec c 0); [done|].
  destruct (Z.eqb_spec c NL); [done|]. by rewrite IH.
Qed.
Lemma cstr_app l rest : Forall (fun c => c <> 0) l -> cstr (l ++ 0 :: rest) = l.
Proof. induction 1 as [|c l Hc Hl IH]; cbn [app cstr]; [done|]. destruct (Z.eqb_spec c 0); [done|]. by rewrite IH. Qed.

Lemma drop_insert_at (buf l rest : list Z) p x y :
  drop p buf = l ++ x :: rest -> drop p (<[(p + length l)%nat := y]> buf) = l ++ y :: rest.
Proof.
  intros H. assert (p <= length buf)%nat as Hp.
  { pose proof (length_drop buf p) as E. rewrite H, length_app in E. cbn [length] in E. lia. }
  rewrite <- (take_drop p buf), H. rewrite insert_app_r_alt; rewrite length_take_le by done; [|lia].
  rewrite drop_app_length' by (by rewrite length_take_le).
  replace (p + length l - p)%nat with (length l) by lia.
  rewrite insert_app_r_alt by lia. by rewrite Nat.sub_diag.
Qed.
Lemma drop_past {A} (buf l rest : list A) x p : drop p buf = l ++ x :: rest -> drop (p + length l + 1) buf = rest.
Proof. intros H. rewrite <- Nat.add_assoc, <- drop_drop, H. rewrite <- drop_drop, drop_app_length. done. Qed.

Lemma first_nl (t : list Z) : NL ∈ t -> exists l t', t = l ++ NL :: t' /\ NL ∉ l.
Proof. intros H. apply list_elem_of_split_l in H as (l & t' & -> & Hl). by exists l, t'. Qed.

(** The inner loop writes the selected lines of what has been read and stops at the tail. *)
Lemma grep_lines_spec re fuel buf p t junk w :
  drop p buf = t ++ 0 :: junk -> Forall (fun c => c <> 0) t -> (length t < fuel)%nat -> w_wr w = [] ->
  exists buf' p', grep_lines fuel re buf p w = URet (buf', p') (out (selected re t) w)
    /\ length buf' = length buf /\ drop p' buf' = tail_of [] t ++ 0 :: junk
    /\ (p' + length (tail_of [] t) = p + length t)%nat.
Proof.
  revert buf p t w. induction fuel as [|fuel IH]; intros buf p t w Hb Hz Hf Hw; [lia|].
  cbn [grep_lines]. destruct (decide (NL ∈ t)) as [Hin|Hin].
  - destruct (first_nl t Hin) as (l & t' & -> & Hl). rewrite <- app_assoc in Hb. cbn [app] in Hb.
    apply Forall_app in Hz as [Hz1 Hz2]. apply Forall_cons in Hz2 as [_ Hz2].
    rewrite length_app in Hf. cbn [length] in Hf.
    rewrite Hb, strchr_some by done. pose proof (drop_insert_at buf l _ p NL 0 Hb) as H0.
    rewrite H0, cstr_app, selected_cons by done.
    rewrite tail_of_app by done. cbn [app tail_of]. rewrite Z.eqb_refl, length_app. cbn [length].
    pose proof (drop_insert_at _ l _ p 0 NL H0) as H1.
    destruct (match_ re l).
    + rewrite H1, list_insert_insert_eq in *.
      replace (take (p + length l + 1 - p) (l ++ NL :: t' ++ 0 :: junk)) with (l ++ [NL]).
      2:{ replace (p + length l + 1 - p)%nat with (length (l ++ [NL])) by (rewrite length_app; cbn; lia).
          replace (l ++ NL :: t' ++ 0 :: junk) with ((l ++ [NL]) ++ t' ++ 0 :: junk) by (by rewrite <- app_assoc).
          by rewrite take_app_length. }
      uret (write_out 1 (l ++ [NL]) w Hw).
      destruct (IH (<[(p + length l)%nat:=NL]> buf) (p + length l + 1)%nat t' (out [EWrite 1 (l ++ [NL])] w)) as (buf' & p' & E & ? & ? & ?);
        [by eapply drop_past|done|lia|done|].
      exists buf', p'. rewrite E, out_out. rewrite length_insert in *. split_and!; try done. lia.
    + destruct (IH (<[(p + length l)%nat:=0]> buf) (p + length l + 1)%nat t' w) as (buf' & p' & E & ? & ? & ?);
        [by eapply drop_past|done|lia|done|].
      exists buf', p'. rewrite E. rewrite length_insert in *. split_and!; try done. lia.
  - rewrite Hb, strchr_none by done. exists buf, p.
    assert (tail_of [] t = t) as -> by (rewrite <- (app_nil_r t) at 1; rewrite tail_of_app by done; done).
    assert (selected re t = []) as ->.
    { unfold selected. rewrite <- (app_nil_r t), lines_of_app by done. done. }
    by rewrite out_nil.
Qed.

Lemma length_splice buf i l : (i + length l <= length buf)%nat -> length (splice buf i l) = length buf.
Proof. intros. unfold splice. rewrite !length_app, length_take, length_drop. lia. Qed.
Lemma drop_splice_0 buf l junk i :
  (i + length l < length buf)%nat -> junk = drop (S (i + length l)) buf ->
  <[(i + length l)%nat := 0]> (splice buf i l) = take i buf ++ l ++ 0 :: junk.
Proof.
  intros Hi ->. unfold splice. rewrite !app_assoc. set (a := take i buf ++ l).
  assert (length a = i + length l)%nat as Ha by (unfold a; rewrite length_app, length_take; lia).
  rewrite insert_app_r_alt by lia. rewrite Ha, Nat.sub_diag. f_equal.
  destruct (drop (i + length l) buf) as [|y r] eqn:E.
  { pose proof (length_drop buf (i + length l)) as Hd. rewrite E in Hd. cbn in Hd. lia. }
  cbn. f_equal. replace (S (i + length l)) with (i + length l + 1)%nat by lia. by rewrite <- drop_drop, E.
Qed.

(** A [read] for which there is no room left. *)
Lemma read_zero fd w s :
  w_in w !! fd = Some s -> exists r s', read fd 0 w = URet (r, []) (set_in fd s' w) /\ r <= 0.
Proof.
  intros Hs. unfold read. rewrite Hs. destruct s as [|[l|] s].
  - exists 0, []. split; [|lia]. f_equal. unfold set_in. rewrite insert_id by done. by destruct w.
  - eexists 0, _. split; [done|lia].
  - exists (-1), s. split; [done|lia].
Qed.

(** What holds of the buffer at the head of the loop: its first [m] bytes are the
    line read so far. *)
Definition carries (buf : list Z) (m : nat) (cur : list Z) : Prop :=
  length buf = SIZEOF_BUF /\ take m buf = cur /\ length cur = m /\ (m < SIZEOF_BUF)%nat
  /\ (NL ∉ cur) /\ Forall (fun c => c <> 0) cur.

Lemma carries_0 buf : length buf = SIZEOF_BUF -> carries buf 0 [].
Proof. intros H. unfold carries. split_and!; try done; [unfold SIZEOF_BUF; lia|set_solver]. Qed.

(** One round: after a [read] that delivers [l]. *)
Lemma grep_round re buf m cur l w :
  carries buf m cur -> (m + length l < SIZEOF_BUF)%nat -> Forall (fun c => c <> 0) l -> w_wr w = [] ->
  exists buf' p,
    grep_lines (S (m + length l)) re (<[(m + length l)%nat := 0]> (splice buf m l)) 0 w
      = URet (buf', p) (out (selected re (cur ++ l)) w)
    /\ carries (splice buf' 0 (take (m + length l - p) (drop p buf'))) (m + length l - p) (tail_of cur l).
Proof.
  intros (Hlen & Ht & Hc & Hm & Hnl & Hz) Hl Hlz Hw.
  rewrite (drop_splice_0 buf l _ m) by (done || lia). rewrite Ht.
  set (junk := drop _ buf).
  assert (Forall (fun c => c <> 0) (cur ++ l)) as Hz' by (by apply Forall_app).
  destruct (grep_lines_spec re (S (m + length l)) (cur ++ l ++ 0 :: junk) 0 (cur ++ l) junk w)
    as (buf' & p & E & Hlen' & Hd & Hp); [by rewrite <- app_assoc|done|rewrite length_app; lia|done|].
  exists buf', p. split; [exact E|]. rewrite tail_of_app in Hd, Hp by done. cbn [app] in Hd, Hp.
  rewrite length_app in Hp. rewrite Hd.
  assert (length (tail_of cur l) = m + length l - p)%nat as Htl by lia.
  rewrite <- Htl, (take_app_length (tail_of cur l)). set (tl := tail_of cur l) in *.
  assert (length buf' = SIZEOF_BUF) as Hb'.
  { rewrite Hlen', !length_app. cbn [length]. unfold junk. rewrite length_drop. lia. }
  split_and!.
  - rewrite length_splice; lia.
  - unfold splice. rewrite take_0, app_nil_l. apply take_app_length.
  - done.
  - lia.
  - by apply tail_of_no_nl.
  - by apply tail_of_nonzero.
Qed.

Lemma selected_cut re cur l d :
  NL ∉ cur -> selected re (cur ++ l ++ d) = selected re (cur ++ l) ++ selected re (tail_of cur l ++ d).
Proof.
  intros H. unfold selected. rewrite app_assoc, (lines_of_cut [] (cur ++ l) d), filter_app, fmap_app.
  rewrite tail_of_app by done. rewrite (lines_of_app [] (tail_of cur l)) by (by apply tail_of_no_nl). done.
Qed.

(** With no room left for the line the loop ends. *)
Lemma grep_full re fd fuel buf cur w s :
  carries buf (SIZEOF_BUF - 1) cur -> w_in w !! fd = Some s ->
  exists s', grep_loop (S fuel) re fd buf (SIZEOF_BUF - 1) w = URet buf (set_in fd s' w).
Proof.
  intros Hc Hs. cbn [grep_loop].
  replace (Z.of_nat (SIZEOF_BUF - (SIZEOF_BUF - 1) - 1)) with 0 by done.
  destruct (read_zero fd w s Hs) as (r & s' & E & Hr). uret E.
  rewrite (proj2 (Z.leb_le r 0)) by done. by exists s'.
Qed.

Lemma grep_loop_spec re fd fuel buf m cur s d e w :
  carries buf m cur -> w_in w !! fd = Some s -> payload s = (d, e) -> (isize s < fuel)%nat ->
  w_wr w = [] -> Forall (fun c => c <> 0) d ->
  Forall (fun l => (length l < SIZEOF_BUF - 1)%nat) (lines_of [] (cur ++ d)) ->
  exists buf' s', grep_loop fuel re fd buf m w = URet buf' (set_in fd s' (out (selected re (cur ++ d)) w))
    /\ length buf' = SIZEOF_BUF.
Proof.
  revert buf m cur s d w. induction fuel as [|fuel IH]; intros buf m cur s d w Hc Hs Hp Hf Hw Hz Hl; [lia|].
  pose proof Hc as (Hlen & _ & Hcl & Hm & Hnl & _).
  destruct (decide (m = SIZEOF_BUF - 1)%nat) as [->|Hm'].
  - destruct (grep_full re fd fuel buf cur w s Hc Hs) as [s' ->]. exists buf, s'. split; [|done].
    assert (selected re (cur ++ d) = []) as ->; [|by rewrite out_nil].
    unfold selected. rewrite lines_of_app in * by done. cbn [app] in *.
    by rewrite (lines_of_long cur d (SIZEOF_BUF - 1)) by (done || lia).
  - cbn [grep_loop]. destruct (read_spec fd (Z.of_nat (SIZEOF_BUF - m - 1)) w s) as (r & l & s' & E & Ha); [lia|done|].
    uret E. destruct Ha as [s' Hp'|s' Hp'|l s' d' e' Hne Hle Hp' Hpp Hsz].
    1,2: rewrite Hp' in Hp; injection Hp as <- <-; cbn [Z.leb]; exists buf, s';
      (assert (selected re (cur ++ []) = []) as ->; [|by rewrite out_nil]);
      unfold selected; by rewrite lines_of_app by done.
    rewrite Hpp in Hp. injection Hp as <- ->.
    apply Forall_app in Hz as [Hz1 Hz2]. destruct (Z.leb_spec (Z.of_nat (length l)) 0); [destruct l; cbn in *; [done|lia]|].
    destruct (grep_round re buf m cur l (set_in fd s' w) Hc ltac:(lia) Hz1 Hw) as (buf' & p & E2 & Hc').
    uret E2. destruct (Nat.ltb_spec 0 (m + length l)); [|destruct l; cbn in *; [done|lia]].
    destruct (IH _ _ _ s' d' (out (selected re (cur ++ l)) (set_in fd s' w)) Hc') as (buf2 & s2 & E3 & Hb2);
      [apply lookup_set_in|done|lia|done|done| |].
    { rewrite app_assoc, lines_of_cut in Hl. apply Forall_app in Hl as [_ Hl].
      rewrite tail_of_app in Hl by done. by rewrite lines_of_app by (by apply tail_of_no_nl). }
    exists buf2, s2. split; [|done]. rewrite E3, out_out, selected_cut by done.
    by rewrite out_set_in, set_in_twice.
Qed.

(** [grep] writes the selected lines of the file, in order, one [write] each. *)
Lemma grep_spec re fd buf w s :
  length buf = SIZEOF_BUF -> w_wr w = [] -> w_in w !! fd = Some s ->
  Forall (fun c => c <> 0) (payload s).1 ->
  Forall (fun l => (length l < SIZEOF_BUF - 1)%nat) (lines_of [] (payload s).1) ->
  exists buf' s', grep re fd buf w = URet buf' (set_in fd s' (out (selected re (payload s).1) w))
    /\ length buf' = SIZEOF_BUF.
Proof.
  intros Hb Hw Hs Hz Hl. destruct (payload s) as [d e] eqn:Ep. unfold grep, fuel_of. rewrite Hs.
  apply (grep_loop_spec re fd _ buf 0 [] s d e); try done; [|cbn [default]; apply Nat.lt_succ_diag_r].
  by apply carries_0.
Qed.

(** ** The program *)

Section program.
Context (dir : list Z -> option (list input)).

(** A file [grep] handles: no zero bytes, and no line longer than its buffer holds. *)
Definition greppable (s : list input) : Prop :=
  Forall (fun c => c <> 0) (payload s).1
  /\ Forall (fun l => (length l < SIZEOF_BUF - 1)%nat) (lines_of [] (payload s).1).

Definition cannot_open (f : list Z) : list event :=
  (fun c => EWrite 1 [c]) <$> (zs "grep: cannot open " ++ f ++ [10]).
(** The writes and the exit status that the files call for. *)
Fixpoint grep_files (re : list Z) (files : list (list Z)) : list event * Z :=
  match files with
  | [] => ([], 0)
  | f :: files' =>
      match dir f with
      | None => (cannot_open f, 1)
      | Some s => let '(l, c) := grep_files re files' in (selected re (payload s).1 ++ l, c)
      end
  end.

Lemma cannot_open_fmt f : sprintf (zs "grep: cannot open %s" ++ [10]) [AStr (Some f)] = Some (zs "grep: cannot open " ++ f ++ [10]).
Proof.
  unfold sprintf. change (zs "grep: cannot open %s" ++ [10]) with (zs "grep: cannot open " ++ [37; 115; 10]).
  rewrite vprintf_literal by (vm_compute; repeat constructor; lia). done.
Qed.

Lemma main_loop_spec re files buf w :
  length buf = SIZEOF_BUF -> w_wr w = [] -> 0 <= free_fd 16 0 (w_in w) ->
  Forall (fun f => forall s, dir f = Some s -> greppable s) files ->
  let '(l, c) := grep_files re files in
  (main_loop dir re files buf;; exit 0) w = @UExit unit c (out l w).
Proof.
  intros Hb Hw Hfd Hg. revert buf w Hb Hw Hfd. induction Hg as [|f files Hf Hg IH]; intros buf w Hb Hw Hfd.
  { cbn. by rewrite out_nil. }
  cbn [grep_files main_loop]. pose proof (open_out dir f w Hfd) as Ho.
  set (fd := free_fd 16 0 (w_in w)) in *. destruct (dir f) as [s|] eqn:Ed.
  - destruct (grep_files re files) as [l c]. destruct (Hf s eq_refl) as [Hz Hl].
    destruct (grep_spec re fd buf (set_in fd s w) s) as (buf' & s' & E & Hb'); [done|done|apply lookup_set_in|done|done|].
    rewrite out_set_in, set_in_twice in E.
    specialize (IH buf' (out (selected re (payload s).1) w) Hb' Hw Hfd). rewrite out_out in IH. rewrite <- IH.
    unfold mbind at 1, U_bind at 1. uret Ho. rewrite (proj2 (Z.ltb_ge fd 0)) by done. uret E.
    uret (close_out fd s' (selected re (payload s).1) w (free_fd_None 16 0 (w_in w) ltac:(lia) Hfd)). done.
  - unfold mbind at 1, U_bind at 1. uret Ho. cbn [Z.ltb Z.compare].
    unfold printf. uret (fprintf_out 1 _ _ _ w (cannot_open_fmt f) Hw). done.
Qed.

End program.

(** Two files, the first delivered in three pieces that cut a line, and a missing one. *)
Definition ex_dir (f : list Z) : option (list input) :=
  if decide (f = zs "a") then Some [Chunk (zs "xyz"); Chunk ([10] ++ zs "ab"); Chunk (zs "bbc" ++ [10])]
  else if decide (f = zs "b") then Some [Chunk (zs "ac" ++ [10] ++ zs "abc")] else None.
Lemma ex_greppable f s : ex_dir f = Some s -> greppable s.
Proof.
  unfold ex_dir. intros H. repeat case_decide; simplify_eq;
    (split; [vm_compute; repeat constructor; lia|vm_compute; repeat constructor; lia]).
Qed.

(** A line that does not fit in the buffer stops [grep]: when the first 1023 bytes
    have no newline, the next [read] is asked for no bytes, and nothing after them
    is ever looked at. *)
Lemma grep_long_line re fd buf l s w :
  length buf = SIZEOF_BUF -> w_wr w = [] -> length l = (SIZEOF_BUF - 1)%nat ->
  NL ∉ l -> Forall (fun c => c <> 0) l -> w_in w !! fd = Some (Chunk l :: s) ->
  exists buf' s', grep re fd buf w = URet buf' (set_in fd s' w).
Proof.
  intros Hb Hw Hl Hnl Hz Hs. unfold grep, fuel_of. rewrite Hs. cbn [default from_option id isize].
  remember (S (length l + isize s)) as fuel eqn:Ef. cbn [grep_loop].
  assert (read fd (Z.of_nat (SIZEOF_BUF - 0 - 1)) w = URet (Z.of_nat (length l), l) (set_in fd s w)) as E1.
  { unfold read. rewrite Hs. replace (Z.to_nat _) with (length l) by (unfold SIZEOF_BUF in *; lia).
    by rewrite firstn_all, drop_all. }
  uret E1. destruct (Z.leb_spec (Z.of_nat (length l)) 0); [unfold SIZEOF_BUF in *; lia|].
  destruct (grep_round re buf 0 [] l (set_in fd s w) (carries_0 buf Hb)) as (buf' & p & E2 & Hc');
    [unfold SIZEOF_BUF in *; lia|done|done|].
  uret E2. destruct (Nat.ltb_spec 0 (0 + length l)); [|unfold SIZEOF_BUF in *; lia].
  assert (tail_of [] l = l) as Htl by (rewrite <- (app_nil_r l) at 1; by rewrite tail_of_app).
  assert (selected re ([] ++ l) = []) as ->.
  { unfold selected. cbn [app]. rewrite <- (app_nil_r l), lines_of_app by done. done. }
  rewrite Htl in Hc'. pose proof Hc' as (_ & _ & Hm & _). rewrite <- Hm, Hl in Hc' |- *. rewrite out_nil.
  rewrite Ef. destruct (grep_full re fd (length l + isize s) _ l (set_in fd s w) s Hc' (lookup_set_in _ _ _)) as [s' ->].
  exists (splice buf' 0 (take (SIZEOF_BUF - 1) (drop p buf'))), s'. by rewrite set_in_twice.
Qed.
