(* ===== verification/Utils.v ===== *)
(** * user/wc.c, user/cat.c, user/echo.c, user/kill.c, user/ln.c, user/mkdir.c, user/rm.c

    One module per program, each with what the program computes, for every way
    the input may be cut by [read]. *)
From S2P Require Import Prelude Printf User.

(** ** wc *)
Module Wc.
Definition WC_BUF : Z := 512.
Definition spaces : list Z := [32; 13; 9; 10; 11].
(** [strchr(" \r\t\n\v", c) != 0]: the zero byte is not found. *)
Definition is_space (c : Z) : bool := existsb (fun x => x =? c) spaces.

Record counts := Counts { cl : Z; cw : Z; cc : Z; inword : bool }.
(** The body of the [for] loop; the counters are [int]s. *)
Definition count (c : Z) (k : counts) : counts :=
  let l := if c =? 10 then i32 (cl k + 1) else cl k in
  let n := i32 (cc k + 1) in
  if is_space c then Counts l (cw k) n false
  else if negb (inword k) then Counts l (i32 (cw k + 1)) n true
  else Counts l (cw k) n (inword k).

Fixpoint wc_loop (fuel : nat) (fd : Z) (k : counts) : U (Z * counts) :=
  match fuel with
  | O => stuck
  | S fuel' =>
      '(n, l) ← read fd WC_BUF;
      if n <=? 0 then mret (n, k) else wc_loop fuel' fd (fold_left (fun k c => count c k) l k)
  end.
Definition wc (fd : Z) (name : list Z) : U unit := fun w =>
  ('(n, k) ← wc_loop (fuel_of fd w) fd (Counts 0 0 0 false);
   if n <? 0 then printf (zs "wc: read error" ++ [10]) [];; exit 1
   else printf (zs "%d %d %d %s" ++ [10]) [ANum (cl k); ANum (cw k); ANum (cc k); AStr (Some name)]) w.

Fixpoint wc_main_loop (dir : list Z -> option (list input)) (files : list (list Z)) : U unit :=
  match files with
  | [] => mret tt
  | f :: files' =>
      fd ← open dir f;
      if fd <? 0 then printf (zs "wc: cannot open %s" ++ [10]) [AStr (Some f)];; exit 1
      else wc fd f;; close fd;; wc_main_loop dir files'
  end.
Definition wc_main (dir : list Z -> option (list input)) (argv : list (list Z)) : U unit :=
  match argv with
  | [] | [_] => wc 0 [];; exit 0
  | _ :: files => wc_main_loop dir files;; exit 0
  end.

(** *** What the counters mean *)
Fixpoint split (cur d : list Z) : list (list Z) :=
  match d with
  | [] => [cur]
  | c :: d' => if is_space c then cur :: split [] d' else split (cur ++ [c]) d'
  end.
Definition nonempty (l : list Z) : Prop := l <> [].
#[export] Instance nonempty_dec l : Decision (nonempty l).
Proof. unfold nonempty. apply _. Defined.
Definition n_words (d : list Z) : Z := Z.of_nat (length (filter nonempty (split [] d))).
Definition n_lines (d : list Z) : Z := Z.of_nat (length (filter (fun c => c = 10) d)).

Lemma i32_succ x : i32 (i32 x + 1) = i32 (x + 1).
Proof.
  unfold i32. replace ((x + 2 ^ 31) mod 2 ^ 32 - 2 ^ 31 + 1 + 2 ^ 31) with ((x + 2 ^ 31) mod 2 ^ 32 + 1) by lia.
  rewrite Zplus_mod_idemp_l. do 2 f_equal. lia.
Qed.

(** The word being read counts as soon as it has a character. *)
Definition started (cur : list Z) : Z := if decide (cur = []) then 0 else 1.

Lemma started_nil : started [] = 0.
Proof. done. Qed.
Lemma started_snoc cur c : started (cur ++ [c]) = 1.
Proof. by destruct cur. Qed.

(** The counters hold the lines, words and characters of [d] added to what they
    held, modulo 2^32, when [cur] is the word begun before. *)
Lemma count_fold d cur k l w n :
  cl k = i32 l -> cw k = i32 (w + started cur) -> cc k = i32 n -> inword k = bool_decide (cur <> []) ->
  let r := fold_left (fun k c => count c k) d k in
  cl r = i32 (l + n_lines d) /\ cw r = i32 (w + Z.of_nat (length (filter nonempty (split cur d))))
  /\ cc r = i32 (n + Z.of_nat (length d)).
Proof.
  revert cur k l w n. induction d as [|c d IH]; intros cur k l w n H1 H2 H3 H4; cbn [fold_left].
  { cbn [split]. rewrite filter_cons, filter_nil. unfold started in H2. unfold n_lines, nonempty. cbn [length filter list_filter].
    rewrite H1, H2, H3. case_decide as D; [rewrite decide_False by tauto|rewrite decide_True by tauto]; cbn; split_and!; f_equal; lia. }
  assert (cl (count c k) = i32 (l + (if c =? 10 then 1 else 0))) as Hl.
  { unfold count. destruct (is_space c), (inword k), (c =? 10); cbn [cl negb]; rewrite H1, ?i32_succ; f_equal; lia. }
  assert (cc (count c k) = i32 (n + 1)) as Hc.
  { unfold count. destruct (is_space c), (inword k); cbn [cc negb]; by rewrite H3, i32_succ. }
  assert (n_lines (c :: d) = (if c =? 10 then 1 else 0) + n_lines d) as ->.
  { unfold n_lines. rewrite filter_cons. destruct (Z.eqb_spec c 10); [rewrite decide_True by done|rewrite decide_False by done]; cbn [length]; lia. }
  cbn [split length]. destruct (is_space c) eqn:Es.
  - destruct (IH [] (count c k) (l + (if c =? 10 then 1 else 0)) (w + started cur) (n + 1)) as (E1 & E2 & E3);
      [done| |done| |].
    + unfold count. rewrite Es. cbn [cw]. rewrite H2, started_nil. f_equal. lia.
    + unfold count. by rewrite Es.
    + rewrite E1, E2, E3, filter_cons. unfold started, nonempty at 2.
      split_and!; f_equal; [lia| |lia]. repeat case_decide; cbn [length]; try tauto; lia.
  - destruct (IH (cur ++ [c]) (count c k) (l + (if c =? 10 then 1 else 0)) w (n + 1)) as (E1 & E2 & E3);
      [done| |done| |].
    + unfold count. rewrite Es, H4, started_snoc. destruct cur as [|x cur].
      * cbn [bool_decide negb cw]. rewrite (bool_decide_eq_false_2 _) by tauto. cbn [negb cw].
        rewrite H2, started_nil, i32_succ. f_equal. lia.
      * rewrite (bool_decide_eq_true_2 _) by done. cbn [negb cw]. rewrite H2. done.
    + unfold count. rewrite Es, H4. by destruct cur.
    + rewrite E1, E2, E3. split_and!; f_equal; lia.
Qed.

Lemma count_all d :
  let r := fold_left (fun k c => count c k) d (Counts 0 0 0 false) in
  cl r = i32 (n_lines d) /\ cw r = i32 (n_words d) /\ cc r = i32 (Z.of_nat (length d)).
Proof. by apply (count_fold d [] (Counts 0 0 0 false) 0 0 0). Qed.

Lemma wc_loop_spec fuel fd s k w d e :
  w_in w !! fd = Some s -> payload s = (d, e) -> (isize s < fuel)%nat ->
  exists s', wc_loop fuel fd k w
    = URet ((if e then -1 else 0), fold_left (fun k c => count c k) d k) (set_in fd s' w).
Proof.
  revert s k w d. induction fuel as [|fuel IH]; intros s k w d Hs Hp Hf; [lia|]. cbn [wc_loop].
  destruct (read_spec fd WC_BUF w s) as (r & l & s' & E & Ha); [unfold WC_BUF; lia|done|]. uret E.
  destruct Ha as [s' Hp'|s' Hp'|l s' d' e' Hne Hle Hp' Hpp Hsz].
  1,2: rewrite Hp' in Hp; injection Hp as <- <-; by exists s'.
  rewrite Hpp in Hp. injection Hp as <- ->.
  destruct (Z.leb_spec (Z.of_nat (length l)) 0); [destruct l; cbn in *; [done|lia]|].
  destruct (IH s' (fold_left (fun k c => count c k) l k) (set_in fd s' w) d') as [s2 ->]; [apply lookup_set_in|done|lia|].
  exists s2. by rewrite fold_left_app, set_in_twice.
Qed.

(** The line that [wc] prints for a file. *)
Definition report (d name : list Z) : list Z :=
  printint (n_lines d) 10 true ++ [32] ++ printint (n_words d) 10 true ++ [32]
  ++ printint (Z.of_nat (length d)) 10 true ++ [32] ++ name ++ [10].

Lemma i32_idem x : i32 (i32 x) = i32 x.
Proof. apply i32_small. unfold i32. pose proof (Z.mod_pos_bound (x + 2 ^ 31) (2 ^ 32)). lia. Qed.
Lemma printint_i32 x b s : printint (i32 x) b s = printint x b s.
Proof. unfold printint. by rewrite i32_idem. Qed.

Lemma wc_spec fd name s d w :
  w_in w !! fd = Some s -> payload s = (d, false) -> w_wr w = [] ->
  exists s', wc fd name w = URet tt (set_in fd s' (out ((fun c => EWrite 1 [c]) <$> report d name) w)).
Proof.
  intros Hs Hp Hw. unfold wc, fuel_of. rewrite Hs.
  destruct (wc_loop_spec (S (isize s)) fd s (Counts 0 0 0 false) w d false Hs Hp) as [s' E]; [lia|].
  cbn [default from_option id]. uret E. destruct (count_all d) as (E1 & E2 & E3). rewrite E1, E2, E3.
  exists s'. rewrite <- out_set_in. unfold printf. apply fprintf_out; [|done].
  change (zs "%d %d %d %s" ++ [10]) with [37; 100; 32; 37; 100; 32; 37; 100; 32; 37; 115; 10].
  unfold sprintf. cbn -[printint i32 n_lines n_words]. rewrite !printint_i32. done.
Qed.
Lemma wc_error fd name s d w :
  w_in w !! fd = Some s -> payload s = (d, true) -> w_wr w = [] ->
  exists s', wc fd name w
    = UExit 1 (set_in fd s' (out ((fun c => EWrite 1 [c]) <$> (zs "wc: read error" ++ [10])) w)).
Proof.
  intros Hs Hp Hw. unfold wc, fuel_of. rewrite Hs.
  destruct (wc_loop_spec (S (isize s)) fd s (Counts 0 0 0 false) w d true Hs Hp) as [s' E]; [lia|].
  cbn [default from_option id]. uret E. exists s'. rewrite <- out_set_in.
  cbn [Z.ltb Z.compare]. unfold printf. by uret (fprintf_out 1 (zs "wc: read error" ++ [10]) [] (zs "wc: read error" ++ [10]) (set_in fd s' w) eq_refl Hw).
Qed.
End Wc.

(** ** cat *)
Module Cat.
Definition CAT_BUF : Z := 512.
Fixpoint cat_loop (fuel : nat) (fd : Z) : U Z :=
  match fuel with
  | O => stuck
  | S fuel' =>
      '(n, l) ← read fd CAT_BUF;
      if n <=? 0 then mret n
      else
        r ← write 1 l;
        if negb (r =? n) then fprintf 2 (zs "cat: write error" ++ [10]) [];; exit 1
        else cat_loop fuel' fd
  end.
Definition cat (fd : Z) : U unit := fun w =>
  (n ← cat_loop (fuel_of fd w) fd;
   if n <? 0 then fprintf 2 (zs "cat: read error" ++ [10]) [];; exit 1 else mret tt) w.
Fixpoint cat_main_loop (dir : list Z -> option (list input)) (files : list (list Z)) : U unit :=
  match files with
  | [] => mret tt
  | f :: files' =>
      fd ← open dir f;
      if fd <? 0 then fprintf 2 (zs "cat: cannot open %s" ++ [10]) [AStr (Some f)];; exit 1
      else cat fd;; close fd;; cat_main_loop dir files'
  end.
Definition cat_main (dir : list Z -> option (list input)) (argv : list (list Z)) : U unit :=
  match argv with
  | [] | [_] => cat 0;; exit 0
  | _ :: files => cat_main_loop dir files;; exit 0
  end.

(** The loop copies what the descriptor delivers, in one [write] per [read]. *)
Lemma cat_loop_spec fuel fd s w d e :
  w_in w !! fd = Some s -> payload s = (d, e) -> (isize s < fuel)%nat -> w_wr w = [] ->
  exists s' tr, cat_loop fuel fd w = URet (if e then -1 else 0) (set_in fd s' (out tr w))
    /\ written 1 tr = d /\ written 2 tr = [].
Proof.
  revert s w d. induction fuel as [|fuel IH]; intros s w d Hs Hp Hf Hw; [lia|]. cbn [cat_loop].
  destruct (read_spec fd CAT_BUF w s) as (r & l & s' & E & Ha); [unfold CAT_BUF; lia|done|]. uret E.
  destruct Ha as [s' Hp'|s' Hp'|l s' d' e' Hne Hle Hp' Hpp Hsz].
  1,2: rewrite Hp' in Hp; injection Hp as <- <-; exists s', []; by rewrite out_nil.
  rewrite Hpp in Hp. injection Hp as <- ->.
  destruct (Z.leb_spec (Z.of_nat (length l)) 0); [destruct l; cbn in *; [done|lia]|].
  uret (write_out 1 l (set_in fd s' w) Hw). rewrite Z.eqb_refl. cbn [negb].
  destruct (IH s' (out [EWrite 1 l] (set_in fd s' w)) d') as (s2 & tr & -> & H1 & H2);
    [apply lookup_set_in|done|lia|done|].
  exists s2, (EWrite 1 l :: tr). rewrite out_out, out_set_in, set_in_twice. cbn [written]. by rewrite H1, H2.
Qed.

(** What the files call for: the bytes on the two outputs and the exit status. *)
Fixpoint concatenation (dir : list Z -> option (list input)) (files : list (list Z)) : list Z * list Z * Z :=
  match files with
  | [] => ([], [], 0)
  | f :: files' =>
      match dir f with
      | None => ([], zs "cat: cannot open " ++ f ++ [10], 1)
      | Some s =>
          if (payload s).2 then ((payload s).1, zs "cat: read error" ++ [10], 1)
          else let '(o, e, c) := concatenation dir files' in ((payload s).1 ++ o, e, c)
      end
  end.

Lemma cat_spec fd s w :
  w_in w !! fd = Some s -> w_wr w = [] ->
  exists s' tr,
    cat fd w = (if (payload s).2 then UExit 1 else URet tt) (set_in fd s' (out tr w))
    /\ written 1 tr = (payload s).1
    /\ written 2 tr = if (payload s).2 then zs "cat: read error" ++ [10] else [].
Proof.
  intros Hs Hw. destruct (payload s) as [d e] eqn:Ep. unfold cat, fuel_of. rewrite Hs. cbn [default from_option id fst snd].
  destruct (cat_loop_spec (S (isize s)) fd s w d e Hs Ep) as (s' & tr & E & H1 & H2); [lia|done|].
  uret E. destruct e; cbn [Z.ltb Z.compare].
  - uret (fprintf_out 2 (zs "cat: read error" ++ [10]) [] (zs "cat: read error" ++ [10]) (set_in fd s' (out tr w)) eq_refl Hw).
    exists s', (tr ++ ((fun c => EWrite 2 [c]) <$> (zs "cat: read error" ++ [10]))).
    rewrite out_set_in, out_out, !written_cat, written_puts, H1, H2, written_puts_ne by done. by rewrite app_nil_r.
  - by exists s', tr.
Qed.

Lemma cat_main_loop_spec dir files w :
  w_wr w = [] -> 0 <= free_fd 16 0 (w_in w) ->
  exists w' tr, (cat_main_loop dir files;; exit 0) w = @UExit unit (concatenation dir files).2 w'
    /\ w_tr w' = w_tr w ++ tr /\ written 1 tr = (concatenation dir files).1.1
    /\ written 2 tr = (concatenation dir files).1.2.
Proof.
  revert w. induction files as [|f files IH]; intros w Hw Hfd.
  { exists w, []. by rewrite app_nil_r. }
  cbn [cat_main_loop concatenation]. pose proof (open_out dir f w Hfd) as Ho.
  set (fd := free_fd 16 0 (w_in w)) in *. unfold mbind at 1, U_bind at 1. destruct (dir f) as [s|] eqn:Ed.
  - uret Ho. rewrite (proj2 (Z.ltb_ge fd 0)) by done.
    destruct (cat_spec fd s (set_in fd s w)) as (s' & tr & E & H1 & H2); [apply lookup_set_in|done|].
    destruct (payload s) as [d [|]]; cbn [fst snd] in *.
    + rewrite (bind_exit _ _ _ _ _ E). eexists _, tr. split; [done|]. done.
    + uret E. rewrite out_set_in, set_in_twice.
      uret (close_out fd s' tr w (free_fd_None 16 0 (w_in w) ltac:(lia) Hfd)).
      destruct (IH (out tr w) Hw Hfd) as (w' & tr' & E' & Ht & H1' & H2').
      destruct (concatenation dir files) as [[o e] c]. cbn [fst snd] in *.
      exists w', (tr ++ tr'). rewrite !written_cat, H1, H2, H1', H2', app_assoc, Ht. split_and!; [|done..].
      rewrite <- E'. done.
  - uret Ho. cbn [Z.ltb Z.compare].
    assert (sprintf (zs "cat: cannot open %s" ++ [10]) [AStr (Some f)] = Some (zs "cat: cannot open " ++ f ++ [10])) as Ef.
    { unfold sprintf. change (zs "cat: cannot open %s" ++ [10]) with (zs "cat: cannot open " ++ [37; 115; 10]).
      rewrite vprintf_literal by (vm_compute; repeat constructor; lia). done. }
    uret (fprintf_out 2 _ _ _ w Ef Hw). eexists _, _. split; [done|]. split; [done|].
    rewrite written_puts, written_puts_ne by done. done.
Qed.

(** [cat file...] writes to its output exactly the bytes of the files in
    order, whatever the chunks in which they are read, and exits with 0; at the
    first file that cannot be opened or read it stops after the bytes delivered so
    far, names the error on the error output, and exits with 1. *)
Theorem cat_correct (dir : list Z -> option (list input)) (prog : list Z) (files : list (list Z)) (w : world) :
  files <> [] -> w_wr w = [] -> 0 <= free_fd 16 0 (w_in w) ->
  exists w' tr, cat_main dir (prog :: files) w = UExit (concatenation dir files).2 w'
    /\ w_tr w' = w_tr w ++ tr /\ written 1 tr = (concatenation dir files).1.1
    /\ written 2 tr = (concatenation dir files).1.2.
Proof.
  intros Hne Hw Hfd. destruct (cat_main_loop_spec dir files w Hw Hfd) as (w' & tr & H).
  exists w', tr. unfold cat_main. by destruct files.
Qed.

Definition ex_files (f : list Z) : option (list input) :=
  if decide (f = zs "a") then Some [Chunk (zs "xy"); Chunk (zs "z")]
  else if decide (f = zs "b") then Some [Chunk (zs "uv"); RdErr; Chunk (zs "w")] else None.
Lemma cat_correct_witness :
  exists w' tr, cat_main ex_files [zs "cat"; zs "a"; zs "b"] (World ∅ [] []) = UExit 1 w'
    /\ w_tr w' = tr /\ written 1 tr = zs "xyzuv" /\ written 2 tr = zs "cat: read error" ++ [10].
Proof.
  apply (cat_correct ex_files (zs "cat") [zs "a"; zs "b"] (World ∅ [] [])); [done|done|by vm_compute].
Defined.
End Cat.

(** ** echo *)
Module Echo.
Fixpoint echo (args : list (list Z)) : U unit :=
  match args with
  | [] => mret tt
  | a :: args' =>
      write 1 a;;
      match args' with
      | [] => write 1 [10];; echo args'
      | _ => write 1 [32];; echo args'
      end
  end.
Definition echo_main (argv : list (list Z)) : U unit := echo (tail argv);; exit 0.

Fixpoint join (args : list (list Z)) : list Z :=
  match args with [] => [] | [a] => a ++ [10] | a :: args' => a ++ [32] ++ join args' end.
(** The arguments separated by single spaces; nothing at all, not even a newline, without arguments. *)
Lemma echo_spec argv w : w_wr w = [] ->
  exists tr, echo_main argv w = UExit 0 (out tr w) /\ written 1 tr = join (tail argv).
Proof.
  intros Hw. unfold echo_main. set (args := tail argv). clearbody args.
  enough (exists tr, echo args w = URet tt (out tr w) /\ written 1 tr = join args) as (tr & E & H).
  { exists tr. by uret E. }
  revert w Hw. induction args as [|a args IH]; intros w Hw; cbn [echo join].
  { exists []. by rewrite out_nil. }
  uret (write_out 1 a w Hw). destruct args as [|b args].
  - uret (write_out 1 [10] (out [EWrite 1 a] w) Hw). rewrite out_out. by eexists.
  - uret (write_out 1 [32] (out [EWrite 1 a] w) Hw). rewrite out_out.
    destruct (IH (out ([EWrite 1 a] ++ [EWrite 1 [32]]) w) Hw) as (tr & -> & H).
    rewrite out_out. eexists. split; [done|]. cbn [app written Z.eqb]. by rewrite H.
Qed.
End Echo.

(** ** kill, ln, mkdir and rm *)
Module Tools.
Section calls.
Context (ret : ucall -> Z).

Fixpoint kill_loop (args : list (list Z)) : U unit :=
  match args with [] => mret tt | a :: args' => syscall ret (CKill (atoi a));; kill_loop args' end.
Definition kill_main (argv : list (list Z)) : U unit :=
  match argv with
  | [] | [_] => fprintf 2 (zs "usage: kill pid..." ++ [10]) [];; exit 1
  | _ :: args => kill_loop args;; exit 0
  end.

Definition ln_main (argv : list (list Z)) : U unit :=
  match argv with
  | [_; old; new] =>
      r ← syscall ret (CLink old new);
      (if r <? 0 then fprintf 2 (zs "link %s %s: failed" ++ [10]) [AStr (Some old); AStr (Some new)] else mret tt);;
      exit 0
  | _ => fprintf 2 (zs "Usage: ln old new" ++ [10]) [];; exit 1
  end.

Fixpoint mkdir_loop (args : list (list Z)) : U unit :=
  match args with
  | [] => mret tt
  | a :: args' =>
      r ← syscall ret (CMkdir a);
      if r <? 0 then fprintf 2 (zs "mkdir: %s failed to create" ++ [10]) [AStr (Some a)] else mkdir_loop args'
  end.
Definition mkdir_main (argv : list (list Z)) : U unit :=
  match argv with
  | [] | [_] => fprintf 2 (zs "Usage: mkdir files..." ++ [10]) [];; exit 1
  | _ :: args => mkdir_loop args;; exit 0
  end.

Fixpoint rm_loop (args : list (list Z)) : U unit :=
  match args with
  | [] => mret tt
  | a :: args' =>
      r ← syscall ret (CUnlink a);
      if r <? 0 then fprintf 2 (zs "rm: %s failed to delete" ++ [10]) [AStr (Some a)] else rm_loop args'
  end.
Definition rm_main (argv : list (list Z)) : U unit :=
  match argv with
  | [] | [_] => fprintf 2 (zs "Usage: rm files..." ++ [10]) [];; exit 1
  | _ :: args => rm_loop args;; exit 0
  end.

(** The calls of a trace, in order. *)
Definition calls (tr : list event) : list ucall := omap (fun e => match e with ECall c => Some c | _ => None end) tr.
Lemma calls_app a b : calls (a ++ b) = calls a ++ calls b.
Proof. unfold calls. apply omap_app. Qed.
Lemma calls_puts fd l : calls ((fun c => EWrite fd [c]) <$> l) = [].
Proof. unfold calls. induction l as [|c l IH]; [done|]. by cbn. Qed.
Lemma syscall_out c w : syscall ret c w = URet (ret c) (out [ECall c] w).
Proof. done. Qed.

(** The arguments up to the first one that fails, that one included. *)
Fixpoint attempts (mk : list Z -> ucall) (args : list (list Z)) : list ucall :=
  match args with
  | [] => []
  | a :: args' => mk a :: if ret (mk a) <? 0 then [] else attempts mk args'
  end.
Lemma rm_loop_spec args w : w_wr w = [] ->
  exists tr, rm_loop args w = URet tt (out tr w) /\ calls tr = attempts CUnlink args.
Proof using.
  revert w. induction args as [|a args IH]; intros w Hw; cbn [rm_loop attempts].
  { exists []. by rewrite out_nil. }
  uret (syscall_out (CUnlink a) w). destruct (ret (CUnlink a) <? 0).
  - assert (sprintf (zs "rm: %s failed to delete" ++ [10]) [AStr (Some a)] = Some (zs "rm: " ++ a ++ zs " failed to delete" ++ [10])) as E.
    { unfold sprintf. change (zs "rm: %s failed to delete" ++ [10]) with (zs "rm: " ++ 37 :: 115 :: zs " failed to delete" ++ [10]).
      rewrite vprintf_literal by (vm_compute; repeat constructor; lia). done. }
    rewrite (fprintf_out 2 _ _ _ (out [ECall (CUnlink a)] w) E Hw), out_out. eexists. split; [done|]. by rewrite calls_app, calls_puts.
  - destruct (IH (out [ECall (CUnlink a)] w) Hw) as (tr & -> & H). rewrite out_out.
    eexists. split; [done|]. rewrite calls_app, H. done.
Qed.
(** [rm] and [mkdir] stop at the first failure and exit with 0 all the same. *)
Lemma rm_main_spec prog args w : args <> [] -> w_wr w = [] ->
  exists tr, rm_main (prog :: args) w = UExit 0 (out tr w) /\ calls tr = attempts CUnlink args.
Proof using.
  intros Hne Hw. destruct (rm_loop_spec args w Hw) as (tr & E & H). exists tr.
  destruct args as [|a args]; [done|]. unfold rm_main. by uret E.
Qed.
End calls.
End Tools.
