(* ===== verification/Umalloc.v ===== *)
(** * user/umalloc.c

    The first-fit allocator of Kernighan and Ritchie: a circular list of free
    blocks in address order that starts at the static header [base], coalesced by
    [free] and extended by [morecore]. Addresses are in bytes, sizes in units of
    a header (16 bytes) as in the code. The heap is the part of memory the
    allocator reads and writes: the two fields of the header at each address. *)
From Stdlib Require Import Sorting.Sorted.
From S2P Require Import Prelude.

Definition HDR : Z := 16.
Record heap := Heap { hptr : Z -> Z; hsz : Z -> Z; freep : Z; brk : Z }.
Definition set_ptr (a v : Z) (h : heap) : heap := Heap (fupd (hptr h) a v) (hsz h) (freep h) (brk h).
Definition set_sz (a v : Z) (h : heap) : heap := Heap (hptr h) (fupd (hsz h) a v) (freep h) (brk h).
Definition set_freep (v : Z) (h : heap) : heap := Heap (hptr h) (hsz h) v (brk h).
Definition set_brk (v : Z) (h : heap) : heap := Heap (hptr h) (hsz h) (freep h) v.

Section allocator.
(** The address of [base], and whether the kernel can give [n] more bytes to a
    process of size [sz]. *)
Context (base : Z) (avail : Z -> Z -> bool).

(** [sbrk] as [sys_sbrk] and [growproc] define it; its argument is an [int]. *)
Definition sbrk (n : Z) (h : heap) : Z * heap :=
  let n := i32 n in
  if 0 <? n then if avail (brk h) n then (brk h, set_brk (brk h + n) h) else (-1, h)
  else (brk h, set_brk (Z.min (brk h) (u32 (brk h + n))) h).

(** More rounds than there are blocks between [base] and the end of the heap. *)
Definition rounds (h : heap) : nat := Z.to_nat ((brk h - base) / HDR + 2).

(** The [for] loop of [free]. *)
Fixpoint free_loop (fuel : nat) (bp p : Z) (h : heap) : option Z :=
  match fuel with
  | O => None
  | S fuel' =>
      if (p <? bp) && (bp <? hptr h p) then Some p
      else if (hptr h p <=? p) && ((p <? bp) || (bp <? hptr h p)) then Some p
      else free_loop fuel' bp (hptr h p) h
  end.

Definition free (ap : Z) (h : heap) : option heap :=
  let bp := ap - HDR in
  p ← free_loop (rounds h) bp (freep h) h;
  let h :=
    if bp + HDR * hsz h bp =? hptr h p
    then let h := set_sz bp (u32 (hsz h bp + hsz h (hptr h p))) h in set_ptr bp (hptr h (hptr h p)) h
    else set_ptr bp (hptr h p) h in
  let h :=
    if p + HDR * hsz h p =? bp
    then let h := set_sz p (u32 (hsz h p + hsz h bp)) h in set_ptr p (hptr h bp) h
    else set_ptr p bp h in
  Some (set_freep p h).

Definition morecore (nu : Z) (h : heap) : option (Z * heap) :=
  let nu := if nu <? 4096 then 4096 else nu in
  let '(p, h) := sbrk (nu * HDR) h in
  if p =? -1 then Some (0, h)
  else
    let h := set_sz p nu h in
    h ← free (p + HDR) h;
    Some (freep h, h).

(** The [for] loop of [malloc]. *)
Fixpoint malloc_loop (fuel : nat) (nunits prevp p : Z) (h : heap) : option (Z * heap) :=
  match fuel with
  | O => None
  | S fuel' =>
      if nunits <=? hsz h p then
        if hsz h p =? nunits then Some (p + HDR, set_freep prevp (set_ptr prevp (hptr h p) h))
        else
          let h := set_sz p (u32 (hsz h p - nunits)) h in
          let p := p + HDR * hsz h p in
          Some (p + HDR, set_freep prevp (set_sz p nunits h))
      else if p =? freep h then
        '(p', h') ← morecore nunits h;
        if p' =? 0 then Some (0, h') else malloc_loop fuel' nunits p' (hptr h' p') h'
      else malloc_loop fuel' nunits p (hptr h p) h
  end.

Definition nunits_of (nbytes : Z) : Z := u32 ((nbytes + HDR - 1) / HDR + 1).
Definition malloc (nbytes : Z) (h : heap) : option (Z * heap) :=
  let nunits := nunits_of nbytes in
  let h := if freep h =? 0 then set_sz base 0 (set_freep base (set_ptr base base h)) else h in
  malloc_loop (2 * rounds h + 2) nunits (freep h) (hptr h (freep h)) h.

(** ** The free list *)

(** Consecutive elements of a list linked by [hptr]. *)
Fixpoint path (h : heap) (l : list Z) : Prop :=
  match l with
  | x :: l' => match l' with y :: _ => hptr h x = y /\ path h l' | [] => True end
  | [] => True
  end.
(** The list closed to a ring at [base]; [l] holds the blocks after [base]. *)
Definition ring (h : heap) (l : list Z) : Prop := path h (base :: l ++ [base]).

Lemma path_cons h x y l : path h (x :: y :: l) <-> hptr h x = y /\ path h (y :: l).
Proof. done. Qed.
Lemma path_app h l1 x l2 : path h (l1 ++ x :: l2) <-> path h (l1 ++ [x]) /\ path h (x :: l2).
Proof.
  induction l1 as [|y l1 IH]; [cbn; tauto|].
  destruct l1 as [|z l1]; [cbn [app]; rewrite !path_cons; cbn; tauto|].
  cbn [app] in *. rewrite !path_cons, IH. tauto.
Qed.
(** Changing a pointer that no element but the last of a path has. *)
Lemma path_upd h h' l x : (forall y, y ∈ l -> hptr h' y = hptr h y) -> path h (l ++ [x]) -> path h' (l ++ [x]).
Proof.
  induction l as [|y l IH]; [done|]. intros Hh Hp. destruct l as [|z l]; cbn [app] in *.
  - rewrite path_cons in *. rewrite Hh by set_solver. done.
  - rewrite path_cons in *. rewrite Hh by set_solver. split; [tauto|]. apply IH; [set_solver|tauto].
Qed.

Lemma ring_ext h h' l : (forall x, hptr h' x = hptr h x) -> ring h l -> ring h' l.
Proof. intros H. apply (path_upd h h' (base :: l)). auto. Qed.

(** From any element the pointers lead through the whole ring. *)
Lemma ring_from h l x :
  ring h l -> x ∈ base :: l -> exists r, path h (x :: r ++ [x]) /\ x :: r ≡ₚ base :: l.
Proof.
  intros Hr [->|Hx]%elem_of_cons; [by exists l|].
  apply list_elem_of_split in Hx as (l1 & l2 & ->). exists (l2 ++ base :: l1). unfold ring in Hr. split.
  - replace (base :: (l1 ++ x :: l2) ++ [base]) with ((base :: l1) ++ x :: l2 ++ [base]) in Hr
      by (cbn; by rewrite <- app_assoc).
    apply path_app in Hr as [H1 H2].
    replace (x :: (l2 ++ base :: l1) ++ [x]) with ((x :: l2) ++ base :: l1 ++ [x])
      by (cbn; by rewrite <- app_assoc).
    apply path_app. done.
  - change (x :: l2 ++ base :: l1) with ((x :: l2) ++ base :: l1). by rewrite Permutation_app_comm.
Qed.

(** ** The invariant *)

(** Two blocks do not overlap; a free block ends before the next one, with a gap. *)
Definition apart (h : heap) (a b : Z) : Prop := a + HDR * hsz h a <= b \/ b + HDR * hsz h b <= a.
Definition gap (h : heap) (a b : Z) : Prop := a + HDR * hsz h a < b.
Definition units (h : heap) (l : list Z) : Z := foldr (fun a s => hsz h a + s) 0 l.

(** The blocks [B] fill the heap from [b0] to its end without overlapping. *)
Record tiles (b0 : Z) (h : heap) (B : list Z) : Prop := Tiles {
  t_range : forall a, a ∈ B -> b0 <= a /\ 1 <= hsz h a /\ a + HDR * hsz h a <= brk h;
  t_nodup : NoDup B;
  t_apart : forall a b, a ∈ B -> b ∈ B -> a <> b -> apart h a b;
  t_total : b0 + HDR * units h B = brk h;
}.
(** [l]: the free blocks in address order, no two of which touch; [al]: the blocks
    handed out; [b0]: where the heap begins. *)
Record inv (b0 : Z) (h : heap) (l al : list Z) : Prop := Inv {
  i_ring : ring h l;
  i_gaps : StronglySorted (gap h) (base :: l);
  i_base : hsz h base = 0;
  i_low : 0 < base /\ base + HDR <= b0 /\ b0 <= brk h < 2 ^ 32;
  i_freep : freep h ∈ base :: l;
  i_tiles : tiles b0 h (l ++ al);
}.

Lemma units_app h l1 l2 : units h (l1 ++ l2) = units h l1 + units h l2.
Proof. induction l1 as [|a l1 IH]; cbn [app units foldr] in *; [done|]. unfold units in *. lia. Qed.
Lemma units_cons h a l : units h (a :: l) = hsz h a + units h l.
Proof. done. Qed.
Lemma units_perm h l1 l2 : l1 ≡ₚ l2 -> units h l1 = units h l2.
Proof. induction 1; rewrite ?units_cons in *; lia. Qed.
Lemma units_ext h h' l : (forall a, a ∈ l -> hsz h' a = hsz h a) -> units h' l = units h l.
Proof.
  induction l as [|a l IH]; [done|]. intros H. rewrite !units_cons, (H a) by set_solver.
  rewrite IH; [done|]. set_solver.
Qed.
Lemma units_length h l : (forall a, a ∈ l -> 1 <= hsz h a) -> Z.of_nat (length l) <= units h l.
Proof.
  induction l as [|a l IH]; [done|]. intros H. rewrite units_cons. cbn [length].
  pose proof (H a ltac:(set_solver)). specialize (IH ltac:(set_solver)). lia.
Qed.

(** The loops have enough rounds. *)
Lemma rounds_enough b0 h l al : inv b0 h l al -> (length (base :: l) < rounds h)%nat.
Proof.
  intros I. pose proof (t_total _ _ _ (i_tiles _ _ _ _ I)). pose proof (i_low _ _ _ _ I).
  assert (Z.of_nat (length (l ++ al)) <= units h (l ++ al)).
  { apply units_length. intros a Ha. by apply (t_range _ _ _ (i_tiles _ _ _ _ I)). }
  rewrite length_app in *. cbn [length]. unfold rounds, HDR in *.
  assert (units h (l ++ al) <= (brk h - base) / 16) by (apply Z.div_le_lower_bound; lia). lia.
Qed.

(** ** The search of [free] *)
Definition stops (h : heap) (bp p : Z) : bool :=
  (p <? bp) && (bp <? hptr h p) || (hptr h p <=? p) && ((p <? bp) || (bp <? hptr h p)).

Lemma free_loop_S fuel bp p h :
  free_loop (S fuel) bp p h = if stops h bp p then Some p else free_loop fuel bp (hptr h p) h.
Proof. cbn [free_loop]. unfold stops. by destruct (_ && (bp <? _)), (_ && (_ || _)). Qed.

Lemma free_loop_path h bp p fuel pre :
  path h (pre ++ [p]) -> (forall q, q ∈ pre -> stops h bp q = false) -> stops h bp p = true ->
  (length pre < fuel)%nat -> free_loop fuel bp (hd p pre) h = Some p.
Proof.
  revert fuel. induction pre as [|y pre IH]; intros fuel Hp Hn Hs Hf; (destruct fuel as [|fuel]; [lia|]).
  - cbn [hd]. by rewrite free_loop_S, Hs.
  - cbn [hd]. rewrite free_loop_S, (Hn y) by set_solver. cbn [length] in Hf.
    replace (hptr h y) with (hd p pre) by (destruct pre; cbn in Hp; symmetry; tauto).
    apply IH; [|set_solver|done|lia]. destruct pre; cbn [app] in *; [done|]. rewrite path_cons in Hp. tauto.
Qed.

(** On a ring the loop of [free] reaches the only element at which it stops. *)
Lemma free_loop_ring h l bp p fuel :
  ring h l -> freep h ∈ base :: l -> p ∈ base :: l -> stops h bp p = true ->
  (forall q, q ∈ base :: l -> q <> p -> stops h bp q = false) ->
  (length (base :: l) <= fuel)%nat -> free_loop fuel bp (freep h) h = Some p.
Proof.
  intros Hr Hf Hp Hs Hn Hfuel. destruct (ring_from h l (freep h) Hr Hf) as (r & Hpath & Hperm).
  assert (p ∈ freep h :: r) as Hp' by (by rewrite Hperm).
  apply list_elem_of_split_l in Hp' as (pre & suf & E & Hpre).
  assert (freep h = hd p pre) as -> by (by destruct pre; cbn in E; injection E as -> _).
  apply free_loop_path; [| |done|].
  - change (freep h :: r ++ [freep h]) with ((freep h :: r) ++ [freep h]) in Hpath.
    rewrite E, <- app_assoc in Hpath. cbn [app] in Hpath. by apply path_app in Hpath as [? _].
  - intros q Hq. apply Hn; [|set_solver]. rewrite <- Hperm, E. set_solver.
  - apply Permutation_length in Hperm. rewrite E, length_app in Hperm. cbn [length] in *. lia.
Qed.

(** Where a block goes in the ring: after [p], before the elements [l2]. *)
Lemma ss_split (R : Z -> Z -> Prop) (l1 l2 : list Z) x :
  StronglySorted R (l1 ++ x :: l2) <->
  StronglySorted R l1 /\ StronglySorted R l2 /\ (forall y, y ∈ l1 -> R y x) /\ (forall y, y ∈ l2 -> R x y)
  /\ (forall y z, y ∈ l1 -> z ∈ l2 -> R y z).
Proof.
  induction l1 as [|a l1 IH]; cbn [app].
  - split.
    + intros H. apply StronglySorted_inv in H as [H1 H2]. rewrite Forall_forall in H2. split_and!; [constructor|done|set_solver|done|set_solver].
    + intros (_ & H & _ & H2 & _). constructor; [done|]. by apply Forall_forall.
  - split.
    + intros H. apply StronglySorted_inv in H as [H1 H2]. apply IH in H1 as (H3 & H4 & H5 & H6 & H7).
      rewrite Forall_forall in H2. split_and!.
      * constructor; [done|]. apply Forall_forall. set_solver.
      * done.
      * intros y [->|?]%elem_of_cons; [|auto]. apply H2. set_solver.
      * done.
      * intros y z [->|?]%elem_of_cons ?; [|auto]. apply H2. set_solver.
    + intros (H1 & H2 & H3 & H4 & H5). apply StronglySorted_inv in H1 as [H1 H1']. rewrite Forall_forall in H1'.
      constructor.
      * apply IH. split_and!; try done; intros; [apply H3|apply H5]; set_solver.
      * apply Forall_forall. intros z [Hz|[->|Hz]%elem_of_cons]%elem_of_app; [auto|apply H3; set_solver|apply H5; set_solver].
Qed.

Lemma sorted_place l bp :
  StronglySorted Z.lt (base :: l) -> base < bp -> bp ∉ l ->
  exists l1 p l2, base :: l = l1 ++ p :: l2 /\ p < bp /\ forall y, y ∈ l2 -> bp < y.
Proof.
  intros Hs Hb Hn. assert (bp ∉ base :: l) as Hn' by (apply not_elem_of_cons; split; [lia|done]).
  assert (exists y, y ∈ base :: l /\ y < bp) as Hex by (exists base; split; [left|done]).
  revert Hs Hn' Hex. generalize (base :: l) as m. clear l Hn.
  induction m as [|a m IH] using rev_ind; intros Hs Hn (y & Hy & Hlt); [set_solver|].
  destruct (decide (a < bp)).
  - exists m, a, []. split_and!; [done|done|set_solver].
  - apply (ss_split Z.lt m [] a) in Hs as (H1 & _ & H3 & _).
    destruct IH as (l1 & p & l2 & -> & Hp & Hl2); [done|set_solver|exists y; split; [|done]; set_solver|].
    exists l1, p, (l2 ++ [a]). split_and!; [by rewrite <- app_assoc|done|].
    intros z [Hz| ->%list_elem_of_singleton]%elem_of_app; [auto|]. assert (bp <> a) by set_solver. lia.
Qed.

Lemma ring_next h l a q b : ring h l -> base :: l = a ++ q :: b -> hptr h q = hd base b.
Proof.
  unfold ring. intros Hr E. change (base :: l ++ [base]) with ((base :: l) ++ [base]) in Hr.
  rewrite E, <- app_assoc in Hr. apply path_app in Hr as [_ Hr]. destruct b; cbn in *; tauto.
Qed.

(** The place of [bp] is the one place where the loop stops. *)
Lemma stops_place h l l1 p l2 bp :
  ring h l -> StronglySorted Z.lt (base :: l) -> base < bp -> base :: l = l1 ++ p :: l2 -> p < bp ->
  (forall y, y ∈ l2 -> bp < y) ->
  stops h bp p = true /\ forall q, q ∈ base :: l -> q <> p -> stops h bp q = false.
Proof.
  intros Hr Hs Hb E Hp Hl2. assert (base <= p) as Hbp.
  { assert (p ∈ base :: l) as Hin by (rewrite E; set_solver). apply elem_of_cons in Hin as [->|Hin]; [lia|].
    apply StronglySorted_inv in Hs as [_ Hs]. rewrite Forall_forall in Hs. specialize (Hs p Hin). lia. }
  pose proof (ring_next h l l1 p l2 Hr E) as Hnp. unfold stops. split.
  - rewrite Hnp. destruct l2 as [|y l2]; cbn [hd]; [|specialize (Hl2 y ltac:(set_solver))]; zbool; try done; lia.
  - intros q Hq Hne. rewrite E in Hs. pose proof Hs as Hs'. apply ss_split in Hs' as (H1 & H2 & H3 & H4 & H5).
    rewrite E in Hq. apply elem_of_app in Hq as [Hq|[->|Hq]%elem_of_cons]; [|done|].
    + apply list_elem_of_split in Hq as (a & b & ->). rewrite <- app_assoc in E. cbn [app] in E.
      rewrite (ring_next h l a q (b ++ p :: l2) Hr E).
      apply ss_split in H1 as (_ & _ & _ & H6 & _). assert (q < p) by (apply H3; set_solver).
      destruct b as [|y b]; cbn [app hd].
      * zbool; try done; lia.
      * assert (q < y) by (apply H6; set_solver). assert (y < p) by (apply H3; set_solver). zbool; try done; lia.
    + apply list_elem_of_split in Hq as (a & b & ->). assert (bp < q) by (apply Hl2; set_solver).
      replace (l1 ++ p :: a ++ q :: b) with ((l1 ++ p :: a) ++ q :: b) in E by (by rewrite <- app_assoc).
      rewrite (ring_next h l _ q b Hr E). apply ss_split in H2 as (_ & _ & _ & H6 & _).
      destruct b as [|y b]; cbn [hd].
      * zbool; try done; lia.
      * assert (q < y) by (apply H6; set_solver). zbool; try done; lia.
Qed.

(** ** [free] *)
Lemma inv_above b0 h l al a : inv b0 h l al -> a ∈ l ++ al -> base < a.
Proof.
  intros I Ha. pose proof (t_range _ _ _ (i_tiles _ _ _ _ I) a Ha). pose proof (i_low _ _ _ _ I).
  unfold HDR in *. lia.
Qed.
Lemma inv_sorted b0 h l al : inv b0 h l al -> StronglySorted Z.lt (base :: l).
Proof.
  intros I. pose proof (i_gaps _ _ _ _ I) as Hg.
  assert (forall a, a ∈ base :: l -> 0 <= hsz h a) as Hsz.
  { intros a [->|Ha]%elem_of_cons; [rewrite (i_base _ _ _ _ I); lia|].
    pose proof (t_range _ _ _ (i_tiles _ _ _ _ I) a ltac:(set_solver)). lia. }
  induction Hg as [|a m Hm IH Ha]; constructor.
  - apply IH. set_solver.
  - rewrite Forall_forall in Ha |- *. intros y Hy. specialize (Ha y Hy). specialize (Hsz a ltac:(left)).
    unfold gap, HDR in Ha. lia.
Qed.

Lemma free_eq b0 h l al bp l1 p l2 :
  inv b0 h l al -> bp ∈ al -> base :: l = l1 ++ p :: l2 -> p < bp -> (forall y, y ∈ l2 -> bp < y) ->
  let nx := hd base l2 in
  let h1 := if bp + HDR * hsz h bp =? nx
            then set_ptr bp (hptr h nx) (set_sz bp (u32 (hsz h bp + hsz h nx)) h) else set_ptr bp nx h in
  let h2 := if p + HDR * hsz h p =? bp
            then set_ptr p (hptr h1 bp) (set_sz p (u32 (hsz h p + hsz h1 bp)) h1) else set_ptr p bp h1 in
  free (bp + HDR) h = Some (set_freep p h2).
Proof.
  intros I Hbp E Hp Hl2 nx h1 h2. pose proof (inv_sorted _ _ _ _ I) as Hsort. unfold free.
  replace (bp + HDR - HDR) with bp by lia.
  assert (base < bp) as Hb.
  { eapply inv_above; [done|set_solver]. }
  destruct (stops_place h l l1 p l2 bp (i_ring _ _ _ _ I) Hsort Hb E Hp Hl2) as [Hs Hn].
  rewrite (free_loop_ring h l bp p); [|apply I|apply I|rewrite E; set_solver|done|done|].
  2:{ pose proof (rounds_enough b0 h l al I). lia. }
  cbn [mbind option_bind]. cbv zeta. cbn [hptr set_sz].
  rewrite (ring_next h l l1 p l2 (i_ring _ _ _ _ I) E). fold nx.
  assert (hsz h1 p = hsz h p) as Hzp.
  { unfold h1. destruct (_ =? nx); cbn [hsz set_ptr set_sz]; [|done]. by rewrite fupd_ne by lia. }
  unfold h2. rewrite <- Hzp. unfold h1. reflexivity.
Qed.

(** Membership in lists built by [cons]. *)
Ltac mem := rewrite ?elem_of_cons, ?not_elem_of_cons in *; tauto.
Ltac differ :=
  let E := fresh in
  intros E; match goal with H : _ ∉ _ |- _ => apply H; rewrite ?elem_of_cons; first [rewrite E; tauto | rewrite <- E; tauto] end.
(** *** Tilings *)
Lemma tiles_perm b0 h B B' : B ≡ₚ B' -> tiles b0 h B -> tiles b0 h B'.
Proof.
  intros HP [R N A T]. split.
  - intros a. rewrite <- HP. apply R.
  - by rewrite <- HP.
  - intros a b. rewrite <- HP. apply A.
  - by rewrite <- (units_perm h B B' HP).
Qed.
Lemma tiles_ext b0 h h' B :
  (forall a, a ∈ B -> hsz h' a = hsz h a) -> brk h' = brk h -> tiles b0 h B -> tiles b0 h' B.
Proof.
  intros Hs Hb [R N A T]. split; [|done| |].
  - intros a Ha. rewrite Hs, Hb by done. auto.
  - intros a b Ha Hb' Hab. unfold apart. rewrite !Hs by done. by apply A.
  - by rewrite (units_ext h h' B Hs), Hb.
Qed.
(** Two blocks that touch become one. *)
Lemma tiles_merge b0 h B a c :
  tiles b0 h (a :: c :: B) -> a + HDR * hsz h a = c ->
  tiles b0 (set_sz a (hsz h a + hsz h c) h) (a :: B).
Proof.
  intros [R N A T] E. apply NoDup_cons in N as [Na N]. apply NoDup_cons in N as [Nc N].
  pose proof (R a ltac:(mem)) as Ra. pose proof (R c ltac:(mem)) as Rc.
  assert (forall x, x ∈ B -> hsz (set_sz a (hsz h a + hsz h c) h) x = hsz h x) as Hx.
  { intros x Hx. cbn. apply fupd_ne. set_solver. }
  assert (hsz (set_sz a (hsz h a + hsz h c) h) a = hsz h a + hsz h c) as Ha by apply fupd_eq.
  split.
  - intros x [->|Hin]%elem_of_cons; [rewrite Ha|rewrite Hx by done]; cbn [brk set_sz]; unfold HDR in *; [lia|].
    apply R. mem.
  - constructor; [set_solver|done].
  - assert (forall x, x ∈ B -> apart (set_sz a (hsz h a + hsz h c) h) a x) as Hap.
    { intros x Hin. unfold apart. rewrite Ha, Hx by done.
      pose proof (A a x ltac:(mem) ltac:(mem) ltac:(differ)) as H1.
      pose proof (A c x ltac:(mem) ltac:(mem) ltac:(differ)) as H2.
      pose proof (R x ltac:(mem)). unfold apart, HDR in *. lia. }
    intros x y [->|Hx']%elem_of_cons [->|Hy']%elem_of_cons Hne; [done|by apply Hap| |].
    + specialize (Hap x Hx'). unfold apart in *. tauto.
    + unfold apart. rewrite !Hx by done. apply A; [mem..|done].
  - rewrite units_cons, Ha, (units_ext h _ B) by done. rewrite !units_cons in T. cbn [brk set_sz]. lia.
Qed.
(** The end of a block cut off. *)
Lemma tiles_cut b0 h B a n :
  tiles b0 h (a :: B) -> 1 <= n < hsz h a ->
  let c := a + HDR * (hsz h a - n) in
  tiles b0 (set_sz c n (set_sz a (hsz h a - n) h)) (c :: a :: B).
Proof.
  intros [R N A T] Hn c. apply NoDup_cons in N as [Na N].
  pose proof (R a ltac:(mem)) as Ra. set (h' := set_sz c n (set_sz a (hsz h a - n) h)).
  assert (c ∉ B) as Nc.
  { intros Hc. pose proof (A a c ltac:(mem) ltac:(mem) ltac:(differ)) as H1.
    pose proof (R c ltac:(mem)). unfold c, apart, HDR in *. lia. }
  assert (c <> a) as Hca by (unfold c, HDR in *; lia).
  assert (forall x, x ∈ B -> hsz h' x = hsz h x) as Hx.
  { intros x Hx. cbn. rewrite !fupd_ne by set_solver. done. }
  assert (hsz h' a = hsz h a - n) as Ha by (cbn; rewrite fupd_ne by done; apply fupd_eq).
  assert (hsz h' c = n) as Hc by (cbn; apply fupd_eq).
  assert (forall x, x ∈ B -> apart h' c x) as Hap1.
  { intros x Hin. unfold apart. rewrite Hc, Hx by done.
    pose proof (A a x ltac:(mem) ltac:(mem) ltac:(differ)) as H1.
    pose proof (R x ltac:(mem)). unfold c, apart, HDR in *. lia. }
  assert (forall x, x ∈ B -> apart h' a x) as Hap2.
  { intros x Hin. unfold apart. rewrite Ha, Hx by done.
    pose proof (A a x ltac:(mem) ltac:(mem) ltac:(differ)) as H1.
    unfold apart, HDR in *. lia. }
  assert (apart h' a c) as Hap3 by (unfold apart; rewrite Ha; unfold c; lia).
  split.
  - intros x [->|[->|Hin]%elem_of_cons]%elem_of_cons; [rewrite Hc|rewrite Ha|rewrite Hx by done]; cbn [brk set_sz h'];
      unfold c, HDR in *; [lia..|]. apply R. mem.
  - apply NoDup_cons. split; [set_solver|]. by apply NoDup_cons.
  - intros x y Hx' Hy' Hne. rewrite !elem_of_cons in Hx', Hy'.
    destruct Hx' as [->|[->|Hx']], Hy' as [->|[->|Hy']]; try done;
      try (by apply Hap1); try (by apply Hap2); unfold apart in *;
      try (by specialize (Hap1 x Hx'); tauto); try (by specialize (Hap2 x Hx'); tauto); try tauto.
    rewrite !Hx by done. apply A; [mem..|done].
  - rewrite !units_cons, Ha, Hc, (units_ext h _ B) by done. rewrite units_cons in T. cbn [brk set_sz h'] in *. lia.
Qed.
(** Memory granted by [sbrk]. *)
Lemma tiles_grow b0 h B n :
  tiles b0 h B -> b0 <= brk h -> 1 <= n ->
  tiles b0 (set_sz (brk h) n (set_brk (brk h + n * HDR) h)) (brk h :: B).
Proof.
  intros [R N A T] Hb Hn. set (h' := set_sz _ _ _).
  assert (forall x, x ∈ B -> x <> brk h) as Hne by (intros x Hx ->; pose proof (R _ Hx); unfold HDR in *; lia).
  assert (forall x, x ∈ B -> hsz h' x = hsz h x) as Hx by (intros x Hx; cbn; by rewrite fupd_ne by auto).
  assert (hsz h' (brk h) = n) as Hz by (cbn; apply fupd_eq).
  assert (forall x, x ∈ B -> apart h' x (brk h)) as Hap.
  { intros x Hin. unfold apart. rewrite Hx by done. pose proof (R x Hin). lia. }
  split.
  - intros x [->|Hin]%elem_of_cons; [rewrite Hz|rewrite Hx by done; pose proof (R x Hin)]; cbn [brk set_sz set_brk h']; unfold HDR in *; lia.
  - constructor; [|done]. intros Hin. by apply (Hne _ Hin).
  - intros x y [->|Hx']%elem_of_cons [->|Hy']%elem_of_cons Hxy; [done| |by apply Hap|].
    + specialize (Hap y Hy'). unfold apart in *. tauto.
    + unfold apart. rewrite !Hx by done. by apply A.
  - rewrite units_cons, Hz, (units_ext h _ B) by done. cbn [brk set_sz set_brk h']. lia.
Qed.

(** *** The two halves of [free] *)
Lemma gap_mono h h' m :
  (forall a, a ∈ m -> hsz h' a = hsz h a) -> StronglySorted (gap h) m -> StronglySorted (gap h') m.
Proof.
  intros Hs Hm. induction Hm as [|a m Hm IH Ha]; constructor.
  - apply IH. intros; apply Hs; by right.
  - rewrite Forall_forall in Ha |- *. intros y Hy. unfold gap. rewrite Hs by (by left). by apply Ha.
Qed.
Lemma tiles_pair b0 h B a c :
  tiles b0 h B -> 0 < b0 -> brk h < 2 ^ 32 -> a ∈ B -> c ∈ B -> u32 (hsz h a + hsz h c) = hsz h a + hsz h c.
Proof.
  intros T H0 Hb Ha Hc. pose proof (t_range _ _ _ T a Ha). pose proof (t_range _ _ _ T c Hc).
  apply u32_small. unfold HDR in *. lia.
Qed.
Lemma tiles_apart b0 h B a c : tiles b0 h (a :: c :: B) -> a < c -> a + HDR * hsz h a <= c.
Proof.
  intros T H. pose proof (t_apart _ _ _ T a c ltac:(mem) ltac:(mem) ltac:(lia)) as A.
  pose proof (t_range _ _ _ T c ltac:(mem)). unfold apart, HDR in *. lia.
Qed.

Definition absorb_right (bp nx : Z) (h : heap) : heap :=
  if bp + HDR * hsz h bp =? nx
  then set_ptr bp (hptr h nx) (set_sz bp (u32 (hsz h bp + hsz h nx)) h) else set_ptr bp nx h.
Definition absorb_left (p bp : Z) (h : heap) : heap :=
  if p + HDR * hsz h p =? bp
  then set_ptr p (hptr h bp) (set_sz p (u32 (hsz h p + hsz h bp)) h) else set_ptr p bp h.

(** The block freed is linked to what follows it, with the next block joined to it if they touch. *)
Lemma absorb_right_spec b0 h bp R l2 :
  tiles b0 h (bp :: l2 ++ R) -> 0 < base < b0 -> brk h < 2 ^ 32 -> path h (l2 ++ [base]) ->
  StronglySorted (gap h) l2 -> (forall y, y ∈ l2 -> bp < y) ->
  let h1 := absorb_right bp (hd base l2) h in
  exists s2,
    tiles b0 h1 (bp :: s2 ++ R) /\ path h1 (bp :: s2 ++ [base]) /\ StronglySorted (gap h1) (bp :: s2)
    /\ (forall y, y ∈ s2 -> y ∈ l2) /\ (length s2 <= length l2)%nat /\ hsz h bp <= hsz h1 bp /\ brk h1 = brk h
    /\ forall x, x <> bp -> hsz h1 x = hsz h x /\ hptr h1 x = hptr h x.
Proof.
  intros T Hb Hbrk Hp Hg Hl. unfold absorb_right. cbv zeta. pose proof (t_range _ _ _ T bp ltac:(mem)) as Rbp.
  pose proof (t_nodup _ _ _ T) as N. apply NoDup_cons in N as [Nbp N].
  destruct (Z.eqb_spec (bp + HDR * hsz h bp) (hd base l2)) as [E|E].
  - destruct l2 as [|nx l2]; cbn [hd] in *; [unfold HDR in *; lia|]. exists l2.
    cbn [app] in *. pose proof (tiles_merge _ _ _ _ _ T E) as T1.
    rewrite (tiles_pair _ _ _ _ _ T) by (lia || mem). set (h1 := set_ptr _ _ _).
    assert (hsz h1 bp = hsz h bp + hsz h nx) as Hz by apply fupd_eq.
    assert (forall x, x <> bp -> hsz h1 x = hsz h x /\ hptr h1 x = hptr h x) as Hx.
    { intros x Hx. cbn. by rewrite !fupd_ne. }
    pose proof (t_range _ _ _ T nx ltac:(mem)). apply StronglySorted_inv in Hg as [Hg1 Hg2].
    split_and!; [by apply (tiles_ext b0 _ h1 _) in T1| | |set_solver|cbn; lia|lia|done|done].
    + destruct l2 as [|y l2]; cbn [app] in *; rewrite path_cons in Hp |- *; cbn [hptr set_ptr h1]; rewrite fupd_eq.
      * tauto.
      * split; [tauto|]. apply (path_upd h h1 (y :: l2)); [|tauto]. intros z Hz'. apply Hx. specialize (Hl z ltac:(by right)). lia.
    + constructor.
      * apply (gap_mono h); [|done]. intros a Ha. apply Hx. specialize (Hl a ltac:(by right)). lia.
      * rewrite Forall_forall in Hg2 |- *. intros y Hy. specialize (Hg2 y Hy). unfold gap, HDR in *. rewrite Hz. lia.
  - set (h1 := set_ptr _ _ _). exists l2. assert (forall x, x <> bp -> hsz h1 x = hsz h x /\ hptr h1 x = hptr h x) as Hx.
    { intros x Hx. cbn. by rewrite !fupd_ne. }
    split_and!; [| | |done|done|cbn; lia|done|done].
    + by apply (tiles_ext b0 h).
    + destruct l2 as [|y l2]; cbn [app] in *; rewrite path_cons; cbn [hptr set_ptr h1]; rewrite fupd_eq; [done|].
      split; [done|]. apply (path_upd h h1 (y :: l2)); [|tauto]. intros z Hz'. apply Hx. specialize (Hl z Hz'). lia.
    + constructor; [by apply (gap_mono h)|]. apply Forall_forall. intros y Hy.
      destruct l2 as [|nx l2]; [set_solver|]. cbn [hd app] in *.
      pose proof (tiles_apart _ _ _ _ _ T (Hl nx ltac:(by left))). unfold gap.
      apply StronglySorted_inv in Hg as [_ Hg]. rewrite Forall_forall in Hg.
      apply elem_of_cons in Hy as [->|Hy]; [cbn; lia|]. specialize (Hg y Hy).
      pose proof (t_range _ _ _ T nx ltac:(mem)). unfold gap, HDR in *. cbn [hsz set_ptr h1]. lia.
Qed.

Lemma path_head h x y l b : path h (x :: l ++ [b]) -> hptr h y = hptr h x -> path h (y :: l ++ [b]).
Proof. intros Hp E. destruct l as [|z l]; cbn [app] in *; rewrite path_cons in *; by rewrite E. Qed.

(** The block before is linked to the block freed, or grows by it if they touch. *)
Lemma absorb_left_spec b0 h bp R k s2 l1 p :
  tiles b0 h (bp :: k ++ s2 ++ R) -> 0 < base < b0 -> brk h < 2 ^ 32 -> hsz h base = 0 ->
  base :: k = l1 ++ [p] -> path h (l1 ++ [p]) -> path h (bp :: s2 ++ [base]) ->
  StronglySorted (gap h) (l1 ++ [p]) -> StronglySorted (gap h) (bp :: s2) ->
  p < bp -> (forall y, y ∈ l1 -> y < p) -> (forall y z, y ∈ l1 -> z ∈ s2 -> gap h y z) ->
  let h2 := absorb_left p bp h in
  exists l',
    ring h2 l' /\ StronglySorted (gap h2) (base :: l') /\ tiles b0 h2 (l' ++ R) /\ p ∈ base :: l'
    /\ (exists q, q ∈ l' /\ hsz h bp <= hsz h2 q) /\ (length l' <= S (length k + length s2))%nat /\ brk h2 = brk h
    /\ (forall x, x <> p -> hsz h2 x = hsz h x) /\ hsz h2 base = 0.
Proof.
  intros T Hb Hbrk Hz0 Ek Hp1 Hp2 Hg1 Hg2 Hpb Hl1 Hgap. unfold absorb_left. cbv zeta.
  pose proof (t_range _ _ _ T bp ltac:(mem)) as Rbp.
  assert (forall z, z ∈ s2 -> bp < z) as Hs2.
  { intros z Hz. apply StronglySorted_inv in Hg2 as [_ Hg2]. rewrite Forall_forall in Hg2.
    specialize (Hg2 z Hz). unfold gap, HDR in *. lia. }
  apply (ss_split (gap h) l1 [] p) in Hg1 as (G1 & _ & G3 & _ & _). pose proof Hg2 as Hg2'.
  apply StronglySorted_inv in Hg2' as [G4 G5]. rewrite Forall_forall in G5.
  destruct (Z.eqb_spec (p + HDR * hsz h p) bp) as [E|E].
  - destruct l1 as [|b l1']; cbn [app] in Ek; injection Ek as Eb Ek;
      [rewrite <- Eb, Hz0 in E; unfold HDR in *; lia|]. subst b k.
    assert (tiles b0 h (p :: bp :: l1' ++ s2 ++ R)) as T'.
    { revert T. apply tiles_perm. rewrite <- app_assoc. cbn [app]. rewrite <- Permutation_middle. constructor. }
    rewrite (tiles_pair _ _ _ _ _ T') by (lia || mem). set (h2 := set_ptr _ _ _).
    assert (hsz h2 p = hsz h p + hsz h bp) as Hz by apply fupd_eq.
    assert (forall x, x <> p -> hsz h2 x = hsz h x /\ hptr h2 x = hptr h x) as Hx by (intros x Hx; cbn; by rewrite !fupd_ne).
    assert (hptr h2 p = hptr h2 bp) as Hpp by (cbn; rewrite fupd_eq, fupd_ne by lia; done).
    assert (path h2 (p :: s2 ++ [base])) as Hpath.
    { apply (path_head h2 bp); [|done]. apply (path_upd h h2 (bp :: s2)); [|done]. intros z Hz'. apply Hx.
      apply elem_of_cons in Hz' as [->|Hz']; [lia|specialize (Hs2 z Hz'); lia]. }
    assert (base < p) by (apply Hl1; by left).
    exists (l1' ++ p :: s2). split_and!.
    + unfold ring. rewrite <- app_assoc. cbn [app]. apply (path_app h2 (base :: l1') p). split; [|done].
      apply (path_upd h h2 (base :: l1')); [|done]. intros y Hy. apply Hx. specialize (Hl1 y Hy). lia.
    + apply (ss_split (gap h2) (base :: l1') s2 p). split_and!.
      * apply (gap_mono h); [|done]. intros a Ha. apply Hx. specialize (Hl1 a Ha). lia.
      * apply (gap_mono h); [|done]. intros a Ha. apply Hx. specialize (Hs2 a Ha). lia.
      * intros y Hy. unfold gap. rewrite (proj1 (Hx y ltac:(specialize (Hl1 y Hy); lia))). by apply G3.
      * intros y Hy. unfold gap. rewrite Hz. specialize (G5 y Hy). unfold gap, HDR in *. lia.
      * intros y z Hy Hz'. unfold gap. rewrite (proj1 (Hx y ltac:(specialize (Hl1 y Hy); lia))). by apply Hgap.
    + apply (tiles_perm b0 h2 (p :: l1' ++ s2 ++ R)).
      { rewrite <- app_assoc. cbn [app]. by rewrite <- Permutation_middle. }
      by apply (tiles_ext b0 (set_sz p (hsz h p + hsz h bp) h)), tiles_merge.
    + set_solver.
    + exists p. split; [set_solver|]. pose proof (t_range _ _ _ T' p ltac:(mem)). lia.
    + rewrite !length_app. cbn [length]. lia.
    + done.
    + intros x Hx'. by apply Hx.
    + rewrite (proj1 (Hx base ltac:(lia))). done.
  - set (h2 := set_ptr _ _ _).
    assert (forall x, x <> p -> hptr h2 x = hptr h x) as Hx by (intros x Hx; cbn; by rewrite fupd_ne).
    assert (forall y, y ∈ l1 ++ [p] -> gap h y bp) as Hgb.
    { intros y [Hy|Hy%list_elem_of_singleton]%elem_of_app.
      - specialize (G3 y Hy). unfold gap, HDR in *. lia.
      - subst y. unfold gap. assert (p ∈ base :: k) as Hin by (rewrite Ek; set_solver).
        apply elem_of_cons in Hin as [->|Hin]; [rewrite Hz0; lia|].
        apply list_elem_of_split in Hin as (k1 & k2 & ->).
        enough (p + HDR * hsz h p <= bp) by lia. apply (tiles_apart b0 h (k1 ++ k2 ++ s2 ++ R)); [|done].
        revert T. apply tiles_perm. rewrite <- app_assoc. cbn [app]. rewrite <- Permutation_middle. constructor. }
    exists (k ++ bp :: s2). split_and!.
    + unfold ring. replace (base :: (k ++ bp :: s2) ++ [base]) with ((base :: k) ++ bp :: s2 ++ [base])
        by (cbn; by rewrite <- app_assoc).
      rewrite Ek, <- app_assoc. cbn [app]. apply (path_app h2 l1 p). split.
      * apply (path_upd h h2 l1); [|done]. intros y Hy. apply Hx. specialize (Hl1 y Hy). lia.
      * rewrite path_cons. split; [cbn; by rewrite fupd_eq|]. apply (path_upd h h2 (bp :: s2)); [|done].
        intros z Hz'. apply Hx. apply elem_of_cons in Hz' as [->|Hz']; [lia|specialize (Hs2 z Hz'); lia].
    + apply (gap_mono h); [done|]. change (base :: k ++ bp :: s2) with ((base :: k) ++ bp :: s2). rewrite Ek.
      apply ss_split. split_and!; [|done|done|done|].
      * apply ss_split. split_and!; [done|constructor|done|set_solver|set_solver].
      * intros y z [Hy|Hy%list_elem_of_singleton]%elem_of_app Hz'; [by apply Hgap|]. subst y.
        specialize (Hs2 z Hz'). specialize (Hgb p ltac:(set_solver)). unfold gap in *. lia.
    + apply (tiles_ext b0 h); [done|done|]. revert T. apply tiles_perm.
      rewrite <- app_assoc. cbn [app]. by rewrite <- Permutation_middle.
    + assert (p ∈ base :: k) as Hin by (rewrite Ek; set_solver). set_solver.
    + exists bp. split; [set_solver|]. cbn. lia.
    + rewrite length_app. cbn [length]. lia.
    + done.
    + done.
    + done.
Qed.

(** [free] of a block handed out returns it to the free list: the invariant holds
    again, and some free block is at least as large. *)
Lemma free_spec b0 h l al bp al' :
  inv b0 h l al -> al ≡ₚ bp :: al' ->
  exists h' l',
    free (bp + HDR) h = Some h' /\ inv b0 h' l' al' /\ brk h' = brk h /\ (length l' <= S (length l))%nat
    /\ (exists q, q ∈ l' /\ hsz h bp <= hsz h' q) /\ forall a, a ∈ al' -> hsz h' a = hsz h a.
Proof.
  intros I HP. pose proof (i_tiles _ _ _ _ I) as T. pose proof (inv_sorted _ _ _ _ I) as Hs.
  assert (bp ∈ al) as Hbp by (rewrite HP; by left).
  pose proof (inv_above _ _ _ _ bp I ltac:(set_solver)) as Hb. pose proof (i_low _ _ _ _ I) as (Hlow & Hlow' & Hbrk).
  assert (bp ∉ l) as Hnl.
  { pose proof (t_nodup _ _ _ T) as N. apply NoDup_app in N as (_ & N & _). intros H. by apply (N bp H). }
  destruct (sorted_place l bp Hs Hb Hnl) as (l1 & p & l2 & E & Hp & Hl2).
  pose proof (free_eq b0 h l al bp l1 p l2 I Hbp E Hp Hl2) as Hfree. cbv zeta in Hfree.
  assert (exists k, base :: k = l1 ++ [p] /\ l = k ++ l2) as (k & Ek & El).
  { destruct l1 as [|b l1]; cbn [app] in *; injection E as <- ->; [by exists []|].
    exists (l1 ++ [p]). by rewrite <- app_assoc. }
  assert (tiles b0 h (bp :: l2 ++ k ++ al')) as T0.
  { revert T. apply tiles_perm. rewrite El, HP, !app_assoc, <- Permutation_middle.
    by rewrite (Permutation_app_comm k l2). }
  pose proof (i_ring _ _ _ _ I) as Hr. unfold ring in Hr. change (base :: l ++ [base]) with ((base :: l) ++ [base]) in Hr.
  rewrite E, <- app_assoc in Hr. apply path_app in Hr as [Hr1 Hr2].
  pose proof (i_gaps _ _ _ _ I) as Hg. rewrite E in Hg, Hs. apply ss_split in Hg as (G1 & G2 & G3 & G4 & G5).
  apply ss_split in Hs as (_ & _ & S3 & _).
  assert (path h (l2 ++ [base])) as Hr3 by (destruct l2; cbn in *; tauto).
  destruct (absorb_right_spec b0 h bp (k ++ al') l2 T0 ltac:(unfold HDR in *; lia) ltac:(lia) Hr3 G2 Hl2)
    as (s2 & T1 & Hp1 & Hg1 & Hsub & Hlen & Hsz & Hbk & Hx). set (h1 := absorb_right bp (hd base l2) h) in *.
  assert (hsz h1 p = hsz h p) as Hzp by (apply Hx; lia).
  assert (forall y, y ∈ l1 -> y <> bp) as Hl1 by (intros y Hy ->; specialize (S3 bp Hy); lia).
  destruct (absorb_left_spec b0 h1 bp al' k s2 l1 p) as (l' & Q1 & Q2 & Q3 & Q4 & (q & Hq & Hq') & Q5 & Q6 & Q7 & Q8).
  - revert T1. apply tiles_perm. constructor. rewrite !app_assoc. by rewrite (Permutation_app_comm s2 k).
  - unfold HDR in *; lia.
  - lia.
  - rewrite (proj1 (Hx base ltac:(lia))). apply I.
  - done.
  - apply (path_upd h h1 l1); [|done]. intros y Hy. apply Hx. auto.
  - done.
  - apply (gap_mono h).
    + intros a [Ha|Ha%list_elem_of_singleton]%elem_of_app; apply Hx; [auto|lia].
    + apply ss_split. split_and!; [done|constructor|done|set_solver|set_solver].
  - done.
  - done.
  - done.
  - intros y z Hy Hz. unfold gap. rewrite (proj1 (Hx y (Hl1 y Hy))). apply G5; auto.
  - exists (set_freep p (absorb_left p bp h1)), l'. split_and!.
    + rewrite Hfree. unfold absorb_left. rewrite Hzp. done.
    + split; [by apply (ring_ext (absorb_left p bp h1))|exact Q2|exact Q8|cbn [brk set_freep]; rewrite Q6, Hbk; lia|exact Q4|].
      by apply (tiles_ext b0 (absorb_left p bp h1)).
    + cbn [brk set_freep]. by rewrite Q6, Hbk.
    + rewrite El, length_app. lia.
    + exists q. split; [done|]. cbn [hsz set_freep]. lia.
    + intros a Ha. cbn [hsz set_freep]. pose proof (t_nodup _ _ _ T) as N. rewrite HP in N.
      assert (a <> p) as Hap.
      { assert (p ∈ base :: k) as Hin by (rewrite Ek; set_solver). apply elem_of_cons in Hin as [->|Hin].
        - pose proof (inv_above _ _ _ _ a I ltac:(rewrite HP; set_solver)). lia.
        - apply NoDup_app in N as (_ & N & _). intros ->. apply (N p); [set_solver|by right]. }
      assert (a <> bp) as Hab.
      { apply NoDup_app in N as (_ & _ & N). apply NoDup_cons in N as [N _]. intros ->. done. }
      rewrite Q7 by done. by apply Hx.
Qed.

(** ** [malloc] *)

(** The predecessor of a block in the ring is unique. *)
Lemma path_map h m x : path h (m ++ [x]) -> hptr h <$> m = tail (m ++ [x]).
Proof.
  induction m as [|y m IH]; [done|]. cbn [app fmap list_fmap tail]. intros Hp.
  destruct m as [|z m]; cbn [app] in *; rewrite path_cons in Hp; destruct Hp as [-> Hp]; [done|].
  f_equal. by apply IH.
Qed.
Lemma ring_inj h l x y :
  ring h l -> NoDup (base :: l) -> x ∈ base :: l -> y ∈ base :: l -> hptr h x = hptr h y -> x = y.
Proof.
  intros Hr N Hx Hy E. pose proof (path_map h (base :: l) base Hr) as Hm. cbn [app tail] in Hm.
  assert (NoDup (hptr h <$> base :: l)) as N'.
  { rewrite Hm, Permutation_app_comm. done. }
  apply list_elem_of_lookup in Hx as [i Hi], Hy as [j Hj].
  enough (i = j) by congruence.
  apply (NoDup_lookup _ i j (hptr h x) N'); rewrite list_lookup_fmap, ?Hi, ?Hj; cbn; congruence.
Qed.
Lemma heap_nodup b0 h l al : inv b0 h l al -> NoDup (base :: l).
Proof.
  intros I. pose proof (inv_sorted _ _ _ _ I) as Hs. revert Hs. generalize (base :: l).
  induction 1 as [|a m Hm IH Ha]; constructor; [|done]. intros Hin. rewrite Forall_forall in Ha. specialize (Ha a Hin). lia.
Qed.

(** What the loop does with the block it has found. *)
Definition take_block (n prevp p : Z) (h : heap) : Z * heap :=
  if hsz h p =? n then (p + HDR, set_freep prevp (set_ptr prevp (hptr h p) h))
  else
    let h := set_sz p (u32 (hsz h p - n)) h in
    let p := p + HDR * hsz h p in
    (p + HDR, set_freep prevp (set_sz p n h)).
(** The rest of the loop after [morecore]. *)
Definition more (fuel : nat) (n : Z) (h : heap) : option (Z * heap) :=
  '(p', h') ← morecore n h;
  if p' =? 0 then Some (0, h') else malloc_loop fuel n p' (hptr h' p') h'.
Lemma malloc_loop_S fuel n prevp p h :
  malloc_loop (S fuel) n prevp p h =
  if n <=? hsz h p then Some (take_block n prevp p h)
  else if p =? freep h then more fuel n h else malloc_loop fuel n p (hptr h p) h.
Proof. cbn [malloc_loop]. unfold take_block. by destruct (n <=? hsz h p), (hsz h p =? n). Qed.

(** The scan finds the first block that is large enough, or comes back to [freep]. *)
Lemma malloc_scan h n prev r fuel :
  path h (prev :: r ++ [freep h]) -> freep h ∉ r -> (length r < fuel)%nat ->
  (exists pp q, pp ∈ prev :: r /\ hptr h pp = q /\ q ∈ r ++ [freep h] /\ n <= hsz h q
     /\ malloc_loop fuel n prev (hptr h prev) h = Some (take_block n pp q h))
  \/ ((forall q, q ∈ r ++ [freep h] -> hsz h q < n)
      /\ malloc_loop fuel n prev (hptr h prev) h = more (fuel - S (length r)) n h).
Proof.
  revert prev fuel. induction r as [|y r IH]; intros prev fuel Hp Hr Hf; (destruct fuel as [|fuel]; [lia|]);
    cbn [app length] in *; rewrite path_cons in Hp; destruct Hp as [E Hp]; rewrite E, malloc_loop_S.
  - destruct (Z.leb_spec n (hsz h (freep h))).
    + left. exists prev, (freep h). split_and!; [by left|done|by left|done|done].
    + right. rewrite Z.eqb_refl. split; [intros q ->%list_elem_of_singleton; done|]. f_equal. lia.
  - apply not_elem_of_cons in Hr as [Hy Hr]. destruct (Z.leb_spec n (hsz h y)).
    + left. exists prev, y. split_and!; [by left|done|by left|done|done].
    + rewrite (proj2 (Z.eqb_neq y (freep h))) by done.
      destruct (IH y fuel Hp Hr ltac:(lia)) as [(pp & q & H1 & H2 & H3 & H4 & H5)|[H1 H2]].
      * left. exists pp, q. split_and!; [by right|done|by right|done|done].
      * right. split; [|done]. intros q [->|Hq]%elem_of_cons; auto.
Qed.

(** Taking a block keeps the invariant. *)
Lemma gap_le h h' m :
  (forall a, a ∈ m -> hsz h' a <= hsz h a) -> StronglySorted (gap h) m -> StronglySorted (gap h') m.
Proof.
  intros Hs Hm. induction Hm as [|a m Hm IH Ha]; constructor.
  - apply IH. intros; apply Hs; by right.
  - rewrite Forall_forall in Ha |- *. intros y Hy. specialize (Ha y Hy). specialize (Hs a ltac:(by left)).
    unfold gap, HDR in *. lia.
Qed.
Lemma take_spec b0 h l al n pp q :
  inv b0 h l al -> pp ∈ base :: l -> hptr h pp = q -> q ∈ base :: l -> 1 <= n <= hsz h q ->
  exists a h' l', take_block n pp q h = (a + HDR, h') /\ inv b0 h' l' (a :: al) /\ hsz h' a = n
    /\ brk h' = brk h /\ (forall x, x ∈ al -> hsz h' x = hsz h x).
Proof.
  intros I Hpp E Hq Hn. pose proof (i_tiles _ _ _ _ I) as T. pose proof (i_low _ _ _ _ I) as Hlow.
  assert (q <> base) as Hqb by (intros ->; rewrite (i_base _ _ _ _ I) in Hn; lia).
  apply elem_of_cons in Hq as [?|Hq]; [done|]. apply list_elem_of_split in Hq as (la & lb & ->).
  unfold take_block. destruct (Z.eqb_spec (hsz h q) n) as [En|En].
  - destruct (exists_last (l := base :: la) ltac:(done)) as (l1 & p & El1).
    assert (pp = p) as ->.
    { apply (ring_inj h (la ++ q :: lb)); [apply I|by eapply heap_nodup|done| |].
      - change (base :: la ++ q :: lb) with ((base :: la) ++ q :: lb). rewrite El1. set_solver.
      - rewrite E. symmetry. apply (ring_next h (la ++ q :: lb) l1 p (q :: lb)); [apply I|].
        change (base :: la ++ q :: lb) with ((base :: la) ++ q :: lb). by rewrite El1, <- app_assoc. }
    eexists q, _, (la ++ lb). split; [done|]. pose proof (heap_nodup _ _ _ _ I) as N.
    change (base :: la ++ q :: lb) with ((base :: la) ++ q :: lb) in N. rewrite El1 in N.
    split_and!; [|done|done|done].
    pose proof (i_ring _ _ _ _ I) as Hr. unfold ring in Hr.
    replace (base :: (la ++ q :: lb) ++ [base]) with ((base :: la) ++ q :: lb ++ [base]) in Hr by (cbn; by rewrite <- app_assoc).
    apply path_app in Hr as [Hr1 Hr2]. rewrite El1 in Hr1. rewrite <- app_assoc in Hr1. cbn [app] in Hr1.
    apply path_app in Hr1 as [Hr1 _].
    split.
    + unfold ring. replace (base :: (la ++ lb) ++ [base]) with ((base :: la) ++ lb ++ [base]) by (cbn; by rewrite <- app_assoc).
      rewrite El1, <- app_assoc. cbn [app]. apply path_app.
      rewrite <- app_assoc in N. cbn [app] in N. apply NoDup_app in N as (_ & N1 & N2).
      apply NoDup_cons in N2 as [N2 _]. split.
      * apply (path_upd h _ l1); [|done]. intros y Hy. cbn. apply fupd_ne. intros ->. apply (N1 p Hy). by left.
      * apply (path_head _ q); [|cbn; rewrite fupd_eq, fupd_ne by set_solver; done].
        apply (path_upd h _ (q :: lb)); [|done]. intros y Hy. cbn. apply fupd_ne. intros ->. by apply N2.
    + pose proof (i_gaps _ _ _ _ I) as Hg. change (base :: la ++ q :: lb) with ((base :: la) ++ q :: lb) in Hg.
      apply ss_split in Hg as (G1 & G2 & G3 & G4 & G5). clear - G1 G2 G5.
      change (base :: la ++ lb) with ((base :: la) ++ lb).
      change (StronglySorted (gap h) ((base :: la) ++ lb)). revert G1 G5. generalize (base :: la). intros m.
      induction m as [|a m IH]; intros G1 G5; [done|]. apply StronglySorted_inv in G1 as [G1 G1']. cbn [app]. constructor.
      * apply IH; [done|]. intros; apply G5; [by right|done].
      * apply Forall_app. split; [done|]. apply Forall_forall. intros; apply G5; [by left|done].
    + apply I.
    + done.
    + cbn [freep set_freep]. assert (p ∈ base :: la) by (rewrite El1; set_solver). set_solver.
    + apply (tiles_ext b0 h); [done|done|]. revert T. apply tiles_perm.
      rewrite <- !app_assoc. cbn [app]. by rewrite <- !Permutation_middle.
  - assert (tiles b0 h (q :: la ++ lb ++ al)) as T0.
    { revert T. apply tiles_perm. rewrite <- app_assoc. cbn [app]. by rewrite <- Permutation_middle. }
    pose proof (t_range _ _ _ T0 q ltac:(by left)) as Rq.
    rewrite u32_small by (unfold HDR in *; lia). cbv zeta. cbn [hsz set_sz]. rewrite fupd_eq.
    pose proof (tiles_cut b0 h _ q n T0 ltac:(lia)) as T1. cbv zeta in T1.
    set (c := q + HDR * (hsz h q - n)) in *. set (h1 := set_sz c n (set_sz q (hsz h q - n) h)) in *.
    pose proof (t_nodup _ _ _ T1) as N. apply NoDup_cons in N as [Nc _].
    eexists c, _, (la ++ q :: lb). split; [done|].
    assert (forall x, x ∈ la ++ q :: lb ++ al -> x <> c) as Hc by (intros x Hx ->; apply Nc; set_solver).
    assert (base <> c) as Hbc by (unfold c, HDR in *; lia).
    assert (hsz h1 base = 0) as Hb0.
    { cbn. rewrite !fupd_ne by done. apply I. }
    split_and!; [|cbn; apply fupd_eq|done|].
    2:{ intros x Hx. cbn. pose proof (t_nodup _ _ _ T0) as N. apply NoDup_cons in N as [N _].
        rewrite !fupd_ne; [done| |apply Hc; set_solver]. intros ->. apply N. set_solver. }
    split.
    + apply (ring_ext h); [done|apply I].
    + apply (gap_le h); [|apply I]. intros a [->|Ha]%elem_of_cons.
      * change (hsz h1 base <= hsz h base). rewrite Hb0, (i_base _ _ _ _ I). lia.
      * cbn. rewrite fupd_ne by (apply Hc; set_solver). unfold fupd. destruct (Z.eqb_spec a q); [subst; lia|lia].
    + done.
    + done.
    + done.
    + apply (tiles_ext b0 h1); [done|done|]. revert T1. apply tiles_perm.
      rewrite <- app_assoc. cbn [app]. by rewrite <- !Permutation_middle, perm_swap.
Qed.

(** *** Growing the heap *)

(** [growproc] keeps the size of a process in a [uint]. *)
Definition avail_ok : Prop := forall b n, avail b n = true -> b + n < 2 ^ 32.

Lemma inv_granted b0 h l al n :
  inv b0 h l al -> 1 <= n -> brk h + n * HDR < 2 ^ 32 ->
  inv b0 (set_sz (brk h) n (set_brk (brk h + n * HDR) h)) l (brk h :: al).
Proof.
  intros I Hn Hlt. pose proof (i_low _ _ _ _ I) as Hlow. pose proof (i_tiles _ _ _ _ I) as T.
  assert (forall a, a ∈ base :: l -> a <> brk h) as Hne.
  { intros a [->|Ha]%elem_of_cons ->; [unfold HDR in *; lia|].
    pose proof (t_range _ _ _ T (brk h) ltac:(set_solver)). unfold HDR in *. lia. }
  split.
  - apply (ring_ext h); [done|apply I].
  - apply (gap_mono h); [|apply I]. intros a Ha. cbn. apply fupd_ne. auto.
  - cbn. rewrite fupd_ne by (apply Hne; by left). apply I.
  - cbn [brk set_sz set_brk]. unfold HDR in *. lia.
  - apply I.
  - apply (tiles_perm _ _ (brk h :: l ++ al)); [by rewrite <- Permutation_middle|].
    apply tiles_grow; [done|lia|done].
Qed.

Lemma morecore_spec b0 h l al n :
  avail_ok -> inv b0 h l al -> 1 <= n < 2 ^ 27 ->
  (morecore n h = Some (0, h) /\ avail (brk h) (Z.max n 4096 * HDR) = false)
  \/ exists h' l', morecore n h = Some (freep h', h') /\ inv b0 h' l' al /\ (length l' <= S (length l))%nat
       /\ brk h <= brk h' /\ (exists q, q ∈ l' /\ n <= hsz h' q) /\ forall a, a ∈ al -> hsz h' a = hsz h a.
Proof.
  intros Hav I Hn. unfold morecore.
  replace (if n <? 4096 then 4096 else n) with (Z.max n 4096) by (destruct (Z.ltb_spec n 4096); lia).
  set (nu := Z.max n 4096). unfold sbrk. rewrite i32_small by (unfold nu, HDR; lia).
  rewrite (proj2 (Z.ltb_lt 0 (nu * HDR))) by (unfold nu, HDR; lia).
  destruct (avail (brk h) (nu * HDR)) eqn:Ea; [right|left; done].
  pose proof (i_low _ _ _ _ I) as Hlow. rewrite (proj2 (Z.eqb_neq (brk h) (-1))) by (unfold HDR in *; lia).
  pose proof (inv_granted b0 h l al nu I ltac:(unfold nu; lia) (Hav _ _ Ea)) as I1.
  destruct (free_spec b0 _ l (brk h :: al) (brk h) al I1 ltac:(done)) as (h' & l' & E & I' & Eb & Hl & (q & Hq & Hq') & Hs).
  rewrite E. exists h', l'. split_and!; [done|done|done| |exists q; split; [done|]|].
  - rewrite Eb. cbn [brk set_sz set_brk]. unfold nu, HDR. lia.
  - cbn [hsz set_sz set_brk] in Hq'. rewrite fupd_eq in Hq'. unfold nu in Hq'. lia.
  - intros a Ha. rewrite Hs by done. cbn. apply fupd_ne. intros ->.
    pose proof (t_range _ _ _ (i_tiles _ _ _ _ I) (brk h) ltac:(set_solver)). unfold HDR in *. lia.
Qed.

(** From [freep] once around: the scan takes a block, or no block is large enough. *)
Lemma scan_around b0 h l al n fuel :
  inv b0 h l al -> 1 <= n -> (length l < fuel)%nat ->
  (exists a h' l', malloc_loop fuel n (freep h) (hptr h (freep h)) h = Some (a + HDR, h') /\ inv b0 h' l' (a :: al)
     /\ hsz h' a = n /\ brk h' = brk h /\ forall x, x ∈ al -> hsz h' x = hsz h x)
  \/ ((forall q, q ∈ l -> hsz h q < n)
      /\ malloc_loop fuel n (freep h) (hptr h (freep h)) h = more (fuel - S (length l)) n h).
Proof.
  intros I Hn Hf. destruct (ring_from h l (freep h) (i_ring _ _ _ _ I) (i_freep _ _ _ _ I)) as (r & Hp & HP).
  pose proof (heap_nodup _ _ _ _ I) as N. rewrite <- HP in N. apply NoDup_cons in N as [N _].
  pose proof (Permutation_length HP) as Hlen. cbn [length] in Hlen.
  assert (forall x, x ∈ r ++ [freep h] <-> x ∈ base :: l) as Hin.
  { intros x. rewrite <- HP, elem_of_app, !elem_of_cons, elem_of_nil. tauto. }
  destruct (malloc_scan h n (freep h) r fuel Hp N ltac:(lia)) as [(pp & q & H1 & H2 & H3 & H4 & H5)|[H1 H2]].
  - left. destruct (take_spec b0 h l al n pp q I) as (a & h' & l' & E & H); [by rewrite <- HP|done|by apply Hin|done|].
    exists a, h', l'. by rewrite H5, E.
  - right. split; [|by rewrite H2; do 2 f_equal; lia]. intros q Hq. apply H1, Hin. by right.
Qed.

(** [malloc] on a heap in use: a block of [n] units, or null when the kernel has
    no memory left. *)
Lemma malloc_loop_spec b0 h l al n fuel :
  avail_ok -> inv b0 h l al -> 1 <= n < 2 ^ 27 -> (2 * length l + 2 < fuel)%nat ->
  (malloc_loop fuel n (freep h) (hptr h (freep h)) h = Some (0, h) /\ avail (brk h) (Z.max n 4096 * HDR) = false)
  \/ exists a h' l', malloc_loop fuel n (freep h) (hptr h (freep h)) h = Some (a + HDR, h') /\ inv b0 h' l' (a :: al)
       /\ hsz h' a = n /\ brk h <= brk h' /\ forall x, x ∈ al -> hsz h' x = hsz h x.
Proof.
  intros Hav I Hn Hf.
  destruct (scan_around b0 h l al n fuel I ltac:(lia) ltac:(lia)) as [(a & h' & l' & H1 & H2 & H3 & H4 & H5)|[_ ->]].
  { right. exists a, h', l'. split_and!; try done. lia. }
  unfold more. destruct (morecore_spec b0 h l al n Hav I Hn) as [[-> Ha]|(h' & l' & -> & I' & Hl & Hb & (q & Hq & Hq') & Hs)].
  { by left. }
  right. cbn [mbind option_bind].
  assert (freep h' <> 0) as Hnz.
  { pose proof (i_freep _ _ _ _ I') as Hf'. pose proof (i_low _ _ _ _ I'). apply elem_of_cons in Hf' as [->|Hf']; [lia|].
    pose proof (inv_above _ _ _ _ (freep h') I' ltac:(set_solver)). lia. }
  rewrite (proj2 (Z.eqb_neq _ _) Hnz).
  destruct (scan_around b0 h' l' al n (fuel - S (length l)) I' ltac:(lia) ltac:(lia)) as [(a & h2 & l2 & H1 & H2 & H3 & H4 & H5)|[H1 _]].
  - exists a, h2, l2. split_and!; [done|done|done|lia|]. intros x Hx. by rewrite H5, Hs.
  - specialize (H1 q Hq). lia.
Qed.

(** The units asked for hold the bytes asked for and a header. *)
Lemma nunits_bound nbytes :
  0 <= nbytes <= 2 ^ 31 - 2 * HDR -> 1 <= nunits_of nbytes < 2 ^ 27 /\ nbytes + HDR <= HDR * nunits_of nbytes.
Proof.
  unfold nunits_of, HDR. intros H. rewrite u32_small by dlia. dlia.
Qed.

(** The state before the first [malloc]: the list has not been made. *)
Definition fresh (b0 : Z) (h : heap) : Prop :=
  freep h = 0 /\ brk h = b0 /\ 0 < base /\ base + HDR <= b0 < 2 ^ 32.
Lemma inv_fresh b0 h : fresh b0 h -> inv b0 (set_sz base 0 (set_freep base (set_ptr base base h))) [] [].
Proof.
  intros (H1 & H2 & H3 & H4). split; cbn [app].
  - unfold ring. cbn. by rewrite fupd_eq.
  - repeat constructor.
  - cbn. apply fupd_eq.
  - cbn [brk set_sz set_freep set_ptr]. lia.
  - cbn. left.
  - split; [set_solver|constructor|set_solver|]. cbn. lia.
Qed.

(** A heap in use, or one that has not been used yet. *)
Definition heap_ok (b0 : Z) (h : heap) (al : list Z) : Prop :=
  (exists l, inv b0 h l al) \/ (fresh b0 h /\ al = []).

Lemma malloc_spec b0 h al nbytes :
  avail_ok -> heap_ok b0 h al -> 0 <= nbytes <= 2 ^ 31 - 2 * HDR ->
  exists p h', malloc nbytes h = Some (p, h')
    /\ (p = 0 /\ heap_ok b0 h' al /\ (forall x, x ∈ al -> hsz h' x = hsz h x)
          /\ avail (brk h) (Z.max (nunits_of nbytes) 4096 * HDR) = false
        \/ (exists l', inv b0 h' l' (p - HDR :: al)) /\ HDR + nbytes <= HDR * hsz h' (p - HDR)
            /\ (forall x, x ∈ al -> hsz h' x = hsz h x)).
Proof.
  intros Hav Hok Hn. destruct (nunits_bound nbytes Hn) as [Hu Hu']. unfold malloc.
  set (h0 := if freep h =? 0 then _ else _).
  assert (exists l, inv b0 h0 l al /\ brk h0 = brk h /\ forall x, x ∈ al -> hsz h0 x = hsz h x) as (l & I & Hbk & Hsz).
  { unfold h0. destruct Hok as [[l I]|[Hf ->]].
    - rewrite (proj2 (Z.eqb_neq (freep h) 0)); [by exists l|]. pose proof (i_low _ _ _ _ I).
      pose proof (i_freep _ _ _ _ I) as Hf. apply elem_of_cons in Hf as [->|Hf]; [lia|].
      pose proof (inv_above _ _ _ _ _ I (proj2 (elem_of_app _ _ _) (or_introl Hf))). lia.
    - rewrite (proj2 (Z.eqb_eq _ _) (proj1 Hf)). exists []. split; [by apply inv_fresh|]. split; [done|]. set_solver. }
  pose proof (rounds_enough b0 h0 l al I) as Hr. cbn [length] in Hr.
  destruct (malloc_loop_spec b0 h0 l al (nunits_of nbytes) (2 * rounds h0 + 2) Hav I Hu ltac:(lia))
    as [[E Ha]|(a & h' & l' & E & I' & Hz & Hb & Hs)]; rewrite E.
  - exists 0, h0. split; [done|]. left. rewrite Hbk in Ha. split_and!; [done|left; by exists l|done|done].
  - exists (a + HDR), h'. split; [done|]. right. replace (a + HDR - HDR) with a by lia.
    split; [by exists l'|]. split; [rewrite Hz; lia|]. intros x Hx. by rewrite Hs, Hsz.
Qed.

(** ** A program that allocates and frees *)

Inductive mop := OMalloc (nbytes : Z) | OFree (i : nat).
(** [live]: the pointers the program holds, with the sizes it asked for. A program
    that respects the interface frees only pointers it holds. *)
Fixpoint run (ops : list mop) (h : heap) (live : list (Z * Z)) : option (heap * list (Z * Z)) :=
  match ops with
  | [] => Some (h, live)
  | OMalloc n :: ops' =>
      '(p, h') ← malloc n h;
      run ops' h' (if p =? 0 then live else (p, n) :: live)
  | OFree i :: ops' =>
      match live !! i with
      | None => run ops' h live
      | Some (p, _) => h' ← free p h; run ops' h' (delete i live)
      end
  end.
Definition ok_mop (o : mop) : Prop := match o with OMalloc n => 0 <= n <= 2 ^ 31 - 2 * HDR | OFree _ => True end.

Definition block_of (pn : Z * Z) : Z := pn.1 - HDR.
Definition held_ok (b0 : Z) (h : heap) (live : list (Z * Z)) : Prop :=
  heap_ok b0 h (block_of <$> live)
  /\ Forall (fun pn => 0 <= pn.2 /\ HDR + pn.2 <= HDR * hsz h (block_of pn)) live.

Lemma run_spec b0 ops h live :
  avail_ok -> held_ok b0 h live -> Forall ok_mop ops ->
  exists h' live', run ops h live = Some (h', live') /\ held_ok b0 h' live'.
Proof.
  intros Hav Hh Ho. revert h live Hh. induction Ho as [|o ops Ho Hops IH]; intros h live [Hk Hl]; [by exists h, live|].
  rewrite Forall_forall in Hl. destruct o as [n|i]; cbn [run].
  - destruct (malloc_spec b0 h _ n Hav Hk Ho) as (p & h' & -> & [(-> & Hk' & Hs & _)|((l' & I) & Hn & Hs)]); cbn [mbind option_bind].
    + apply IH. split; [done|]. apply Forall_forall. intros pn Hpn. rewrite Hs; [auto|].
      apply list_elem_of_fmap. eauto.
    + pose proof (inv_above _ _ _ _ (p - HDR) I ltac:(set_solver)). pose proof (i_low _ _ _ _ I).
      rewrite (proj2 (Z.eqb_neq p 0)) by (unfold HDR in *; lia). apply IH. split; [left; by exists l'|].
      constructor; [split; [apply Ho|exact Hn]|]. apply Forall_forall. intros pn Hpn. rewrite Hs; [auto|].
      apply list_elem_of_fmap. eauto.
  - destruct (live !! i) as [[p n]|] eqn:Ei; [|by apply IH; split; [|apply Forall_forall]].
    pose proof (delete_Permutation live i _ Ei) as HP.
    destruct Hk as [[l I]|[_ Hnil]]; [|apply fmap_nil_inv in Hnil; by rewrite Hnil in Ei].
    destruct (free_spec b0 h l (block_of <$> live) (block_of (p, n)) (block_of <$> delete i live) I)
      as (h' & l' & E & I' & _ & _ & _ & Hs); [by rewrite HP at 1|].
    replace (block_of (p, n) + HDR) with p in E by (unfold block_of; cbn; lia). rewrite E. cbn [mbind option_bind].
    apply IH. split; [left; by exists l'|]. apply Forall_forall. intros pn Hpn.
    rewrite Hs by (apply list_elem_of_fmap; eauto). apply Hl. rewrite HP. by right.
Qed.

(** When nothing is held the free list is one block that is the whole heap. *)
Lemma gaps_units h l a hi :
  StronglySorted (gap h) (a :: l) -> (forall x, x ∈ a :: l -> x + HDR * hsz h x <= hi) ->
  a + HDR * units h (a :: l) + Z.of_nat (length l) <= hi.
Proof.
  revert a. induction l as [|b l IH]; intros a Hg Hr.
  - specialize (Hr a ltac:(by left)). rewrite units_cons. cbn. lia.
  - apply StronglySorted_inv in Hg as [Hg Ha]. apply Forall_cons in Ha as [Hab _].
    specialize (IH b Hg ltac:(intros; apply Hr; by right)). rewrite units_cons. unfold gap in Hab. cbn [length]. lia.
Qed.
Lemma all_free b0 h : heap_ok b0 h [] -> brk h = b0 \/ inv b0 h [b0] [] /\ b0 + HDR * hsz h b0 = brk h.
Proof.
  intros [[l I]|[Hf _]]; [|left; apply Hf]. pose proof (i_tiles _ _ _ _ I) as T. rewrite app_nil_r in T.
  pose proof (t_total _ _ _ T) as Ht. destruct l as [|a l]; [left; cbn in Ht; lia|right].
  pose proof (i_gaps _ _ _ _ I) as Hg. apply StronglySorted_inv in Hg as [Hg _].
  pose proof (gaps_units h l a (brk h) Hg ltac:(intros; by apply (t_range _ _ _ T))).
  pose proof (t_range _ _ _ T a ltac:(by left)). destruct l; [|cbn [length] in *; lia].
  assert (a = b0) as -> by (cbn [length] in *; lia). split; [done|].
  rewrite units_cons in Ht. change (units h []) with 0 in Ht. by rewrite Z.add_0_r in Ht.
Qed.

End allocator.

(** A heap that starts at 20480 with [base] at 4096, on a machine with a megabyte. *)
Definition ex_avail (b n : Z) : bool := b + n <? 1048576.
Definition ex_heap : heap := Heap (fun _ => 0) (fun _ => 0) 0 20480.

(** The blocks of that run, and the single block after everything is freed. *)
Lemma ex_run_live :
  snd <$> run 4096 ex_avail [OMalloc 100; OMalloc 5; OMalloc 100000; OFree 1; OMalloc 30] ex_heap []
  = Some [(85856, 30); (86032, 100000); (85904, 100)].
Proof. by vm_compute. Qed.
Lemma ex_run_empty :
  (fun x => (x.2, hptr x.1 4096, hptr x.1 20480, hsz x.1 20480, brk x.1)) <$>
    run 4096 ex_avail [OMalloc 100; OMalloc 5; OMalloc 100000; OFree 1; OFree 0; OFree 0] ex_heap []
  = Some ([], 20480, 4096, 10347, 186032).
Proof. by vm_compute. Qed.

(** [sbrk] takes an [int]: a request of 2^32 - 1 bytes is rounded to 2^28 + 1 units,
    of which [morecore] gets 16 bytes; the pointer returned is the end of the
    process's memory, and no byte of the block can be used. *)
Lemma malloc_overflow :
  (fun x => (x.1, brk x.2, hsz x.2 20480)) <$> malloc 4096 ex_avail (2 ^ 32 - 1) ex_heap
  = Some (20480 + HDR, 20480 + HDR, 2 ^ 28 + 1).
Proof. by vm_compute. Qed.
