(* ===== verification/Console.v ===== *)
(** * The console and the UART (kernel/console.c, kernel/uart.c)

    The line discipline: input characters go through [consoleintr] into a ring of
    128 bytes with three indices, and [consoleread] takes them out a line at a time.
    The indices are [uint]s that are never reduced, so the code relies on 128
    dividing 2^32 when they wrap. A call runs under [cons.lock] until it returns or
    goes to sleep, so the critical sections are the atomic steps; a reader that has
    slept goes on in its loop with the bytes it still wants. *)
From S2P Require Import Prelude.

Definition INPUT_BUF : Z := 128.
Definition BACKSPACE : Z := 256.
Definition CTRL_P : Z := 16.
Definition CTRL_U : Z := 21.
Definition CTRL_H : Z := 8.
Definition CTRL_D : Z := 4.
Definition DEL : Z := 127.
Definition NL : Z := 10.
Definition CR : Z := 13.

Record cons_st := Cons { c_buf : gmap Z Z; c_r : Z; c_w : Z; c_e : Z }.
(** What the handler does outside its own state: characters sent to the UART, the
    process list, the wakeup of a reader. *)
Inductive cevent := Uart (c : Z) | Procdump | Wakeup.

Definition consputc (c : Z) : list cevent :=
  if c =? BACKSPACE then [Uart 8; Uart 32; Uart 8] else [Uart c].

(** The kill-line loop. *)
Fixpoint kill_line (fuel : nat) (s : cons_st) : cons_st * list cevent :=
  match fuel with
  | O => (s, [])
  | S fuel' =>
      if negb (c_e s =? c_w s) && negb (default 0 (c_buf s !! (u32 (c_e s - 1) mod INPUT_BUF)) =? NL)
      then let '(s', ev) := kill_line fuel' (Cons (c_buf s) (c_r s) (c_w s) (u32 (c_e s - 1))) in
           (s', consputc BACKSPACE ++ ev)
      else (s, [])
  end.

Definition consoleintr (c : Z) (s : cons_st) : cons_st * list cevent :=
  if c =? CTRL_P then (s, [Procdump])
  else if c =? CTRL_U then kill_line (Z.to_nat INPUT_BUF + 1) s
  else if (c =? CTRL_H) || (c =? DEL) then
    if negb (c_e s =? c_w s) then (Cons (c_buf s) (c_r s) (c_w s) (u32 (c_e s - 1)), consputc BACKSPACE)
    else (s, [])
  else if negb (c =? 0) && (u32 (c_e s - c_r s) <? INPUT_BUF) then
    let c := if c =? CR then NL else c in
    let ev := consputc c in
    let s := Cons (<[c_e s mod INPUT_BUF := u8 c]> (c_buf s)) (c_r s) (c_w s) (u32 (c_e s + 1)) in
    if (c =? NL) || (c =? CTRL_D) || (c_e s =? u32 (c_r s + INPUT_BUF))
    then (Cons (c_buf s) (c_r s) (c_e s) (c_e s), ev ++ [Wakeup])
    else (s, ev)
  else (s, []).

(** How a critical section of [consoleread] ends: with a return value, or asleep
    with [n] bytes still wanted. *)
Inductive outcome := Ret (r : Z) | Slept (n : Z).

(** The loop of [consoleread], entered with [n] of [target] bytes still wanted:
    the state, the bytes stored, the outcome. [dst i]: whether [either_copyout] of
    the [i]-th byte succeeds; [killed]: what [myproc()->killed] holds. *)
Fixpoint consoleread_loop (fuel : nat) (s : cons_st) (killed : bool) (dst : Z -> bool) (target n : Z)
    : cons_st * list Z * outcome :=
  if negb (0 <? n) then (s, [], Ret (i32 (target - n)))
  else match fuel with
  | O => (s, [], Ret (-2))
  | S fuel' =>
      if c_r s =? c_w s then if killed then (s, [], Ret (-1)) else (s, [], Slept n)
      else
        let c := default 0 (c_buf s !! (c_r s mod INPUT_BUF)) in
        let s1 := Cons (c_buf s) (u32 (c_r s + 1)) (c_w s) (c_e s) in
        if c =? CTRL_D then
          if u32 n <? u32 target
          then (Cons (c_buf s1) (u32 (c_r s1 - 1)) (c_w s1) (c_e s1), [], Ret (i32 (target - n)))
          else (s1, [], Ret (i32 (target - n)))
        else if negb (dst (target - n)) then (s1, [], Ret (i32 (target - n)))
        else if c =? NL then (s1, [c], Ret (i32 (target - (n - 1))))
        else let '(s', bs, r) := consoleread_loop fuel' s1 killed dst target (n - 1) in (s', c :: bs, r)
  end.
Definition consoleread (s : cons_st) (killed : bool) (dst : Z -> bool) (target n : Z) :=
  consoleread_loop (Z.to_nat n) s killed dst target n.

(** ** The promise: a queue of committed characters and a line being edited *)
Record ldisc := LD { ready : list Z; editing : list Z }.

Definition backspaces (n : nat) : list cevent := concat (replicate n (consputc BACKSPACE)).
Definition ld_intr (c : Z) (d : ldisc) : ldisc * list cevent :=
  if c =? CTRL_P then (d, [Procdump])
  else if c =? CTRL_U then (LD (ready d) [], backspaces (length (editing d)))
  else if (c =? CTRL_H) || (c =? DEL) then
    match editing d with
    | [] => (d, [])
    | _ => (LD (ready d) (removelast (editing d)), consputc BACKSPACE)
    end
  else if negb (c =? 0) && (Z.of_nat (length (ready d ++ editing d)) <? INPUT_BUF) then
    let c := if c =? CR then NL else c in
    let l := editing d ++ [u8 c] in
    if (c =? NL) || (c =? CTRL_D) || (Z.of_nat (length (ready d ++ l)) =? INPUT_BUF)
    then (LD (ready d ++ l) [], consputc c ++ [Wakeup])
    else (LD (ready d) l, consputc c)
  else (d, []).

(** Reading: up to [n] bytes of the queue, up to a newline, or up to an end-of-file
    mark, which is left for the next call when bytes precede it ([first] is false). *)
Fixpoint ld_read (n : nat) (first : bool) (q : list Z) : list Z * list Z * bool :=
  match n with
  | O => ([], q, true)
  | S n' =>
      match q with
      | [] => ([], [], false)
      | c :: q' =>
          if c =? CTRL_D then ([], if first then q' else q, true)
          else if c =? NL then ([c], q', true)
          else let '(bs, q2, fin) := ld_read n' false q' in (c :: bs, q2, fin)
      end
  end.

(** ** The ring implements it *)
Definition indexed (s : cons_st) (q l : list Z) : Prop :=
  exists R, 0 <= R /\ c_r s = u32 R /\ c_w s = u32 (R + Z.of_nat (length q))
    /\ c_e s = u32 (R + Z.of_nat (length (q ++ l)))
    /\ forall i b, (q ++ l) !! i = Some b -> c_buf s !! ((R + Z.of_nat i) mod INPUT_BUF) = Some b.
Record cons_ok (s : cons_st) (d : ldisc) : Prop := {
  ck_index : indexed s (ready d) (editing d);
  ck_len : Z.of_nat (length (ready d ++ editing d)) <= INPUT_BUF;
  ck_room : editing d <> [] -> Z.of_nat (length (ready d ++ editing d)) < INPUT_BUF;
  ck_line : NL ∉ editing d;
}.

Lemma u32_mod_buf x : u32 x mod INPUT_BUF = x mod INPUT_BUF.
Proof. unfold u32, INPUT_BUF. change (2 ^ 32) with (128 * 33554432). dlia. Qed.
Lemma u32_plus a b : u32 (u32 a + b) = u32 (a + b).
Proof. unfold u32. by rewrite Zplus_mod_idemp_l. Qed.
Lemma u32_minus a b : u32 (u32 a - b) = u32 (a - b).
Proof. unfold u32. by rewrite Zminus_mod_idemp_l. Qed.
Lemma u32_minus_r a b : u32 (a - u32 b) = u32 (a - b).
Proof. unfold u32. by rewrite Zminus_mod_idemp_r. Qed.
Lemma u32_near a b : 0 <= b - a < 2 ^ 32 -> (u32 a =? u32 b) = (a =? b).
Proof.
  intros H. destruct (Z.eqb_spec a b) as [->|Hne]; [apply Z.eqb_refl|]. apply Z.eqb_neq. unfold u32. dlia.
Qed.

(** The states of the ring that stand for a line discipline with a line [l]. *)
Lemma nothing_edited s d : cons_ok s d -> (c_e s =? c_w s) = bool_decide (editing d = []).
Proof.
  intros [(R & H0 & Hr & Hw & He & Hd) Hl _ _]. rewrite Hw, He, Z.eqb_sym, u32_near.
  - rewrite length_app. destruct (editing d) as [|x l].
    + rewrite bool_decide_eq_true_2 by done. apply Z.eqb_eq. cbn [length]. lia.
    + rewrite bool_decide_eq_false_2 by done. apply Z.eqb_neq. cbn [length]. lia.
  - rewrite length_app in *. unfold INPUT_BUF in *. lia.
Qed.
Lemma nothing_ready s d : cons_ok s d -> (c_r s =? c_w s) = bool_decide (ready d = []).
Proof.
  intros [(R & H0 & Hr & Hw & He & Hd) Hl _ _]. rewrite Hw, Hr, u32_near.
  - destruct (ready d) as [|x l].
    + rewrite bool_decide_eq_true_2 by done. apply Z.eqb_eq. cbn [length]. lia.
    + rewrite bool_decide_eq_false_2 by done. apply Z.eqb_neq. cbn [length]. lia.
  - rewrite length_app in *. unfold INPUT_BUF in *. lia.
Qed.
Lemma room_left s d : cons_ok s d -> u32 (c_e s - c_r s) = Z.of_nat (length (ready d ++ editing d)).
Proof.
  intros [(R & H0 & Hr & Hw & He & Hd) Hl _ _]. rewrite He, Hr, u32_minus, u32_minus_r, u32_small.
  - lia.
  - unfold INPUT_BUF in *. lia.
Qed.

(** Erasing the last character of the line. *)
Lemma erase_ok s q l x :
  cons_ok s (LD q (l ++ [x])) ->
  cons_ok (Cons (c_buf s) (c_r s) (c_w s) (u32 (c_e s - 1))) (LD q l)
  /\ default 0 (c_buf s !! (u32 (c_e s - 1) mod INPUT_BUF)) = x.
Proof.
  intros [(R & H0 & Hr & Hw & He & Hd) Hl Hm Hn]. cbn [ready editing] in *.
  rewrite He, u32_minus, u32_mod_buf. rewrite !length_app in *. cbn [length] in *. split; [split|]; cbn [ready editing].
  - exists R. cbn [c_buf c_r c_w c_e]. rewrite length_app. split_and!; [done|done|done|f_equal; lia|].
    intros i b Hi. apply Hd. rewrite app_assoc. by apply lookup_app_l_Some.
  - rewrite length_app. lia.
  - intros _. rewrite length_app. lia.
  - set_solver.
  - replace (R + Z.of_nat (length q + (length l + 1)) - 1) with (R + Z.of_nat (length (q ++ l))) by (rewrite length_app; lia).
    rewrite (Hd (length (q ++ l)) x); [done|]. rewrite app_assoc. by apply list_lookup_middle.
Qed.

Lemma kill_line_ok fuel s q l :
  cons_ok s (LD q l) -> (length l < fuel)%nat ->
  (kill_line fuel s).2 = backspaces (length l) /\ cons_ok (kill_line fuel s).1 (LD q []).
Proof.
  revert s l. induction fuel as [|fuel IH]; intros s l Hs Hf; [lia|]. cbn [kill_line].
  rewrite (nothing_edited s _ Hs). cbn [editing].
  destruct l as [|x l _] using rev_ind; [rewrite bool_decide_eq_true_2 by done; done|].
  rewrite bool_decide_eq_false_2 by (by destruct l). destruct (erase_ok s q l x Hs) as [Hs' Ex]. rewrite Ex.
  pose proof (ck_line _ _ Hs) as Hn. cbn [editing] in Hn.
  rewrite (proj2 (Z.eqb_neq x NL)) by set_solver. cbn [negb andb].
  rewrite length_app in *. cbn [length] in *. destruct (IH _ l Hs' ltac:(lia)) as [E Hk].
  destruct (kill_line fuel _) as [s' ev]. cbn [fst snd] in *. split; [|done].
  rewrite E. unfold backspaces. by rewrite Nat.add_comm.
Qed.

(** Storing a character after the line. *)
Lemma append_indexed s q l x :
  indexed s q l -> Z.of_nat (length (q ++ l)) < INPUT_BUF ->
  indexed (Cons (<[c_e s mod INPUT_BUF := x]> (c_buf s)) (c_r s) (c_w s) (u32 (c_e s + 1))) q (l ++ [x]).
Proof.
  intros (R & H0 & Hr & Hw & He & Hd) Hl. exists R. cbn [c_buf c_r c_w c_e].
  rewrite He, u32_plus, u32_mod_buf. split_and!; [done|done|done| |].
  - f_equal. rewrite app_assoc, (length_app (q ++ l)). cbn [length]. lia.
  - intros i b Hi. rewrite app_assoc in Hi. apply lookup_app_Some in Hi as [Hi|[Hi Hb]].
    + apply lookup_lt_Some in Hi as Hlt. rewrite lookup_insert_ne; [by apply Hd|]. unfold INPUT_BUF in *. dlia.
    + apply list_lookup_singleton_Some in Hb as [Ei <-]. replace i with (length (q ++ l)) by lia. apply lookup_insert_eq.
Qed.
(** Committing the line. *)
Lemma commit_indexed s q l : indexed s q l -> indexed (Cons (c_buf s) (c_r s) (c_e s) (c_e s)) (q ++ l) [].
Proof. intros (R & H0 & Hr & Hw & He & Hd). exists R. rewrite app_nil_r. done. Qed.

(** [consoleintr] does to the ring what the line discipline promises, the echo included. *)
Lemma consoleintr_ok c s d :
  cons_ok s d -> 0 <= c < 256 ->
  (consoleintr c s).2 = (ld_intr c d).2 /\ cons_ok (consoleintr c s).1 (ld_intr c d).1.
Proof.
  intros Hs Hc. unfold consoleintr, ld_intr.
  destruct (c =? CTRL_P); [done|]. destruct (c =? CTRL_U).
  { destruct d as [q l]. apply kill_line_ok; [done|]. pose proof (ck_len _ _ Hs) as H.
    cbn [ready editing] in H |- *. rewrite length_app in H. unfold INPUT_BUF in *. lia. }
  destruct ((c =? CTRL_H) || (c =? DEL)).
  { rewrite (nothing_edited s d Hs). destruct d as [q l]. cbn [ready editing].
    destruct l as [|x l _] using rev_ind; [by rewrite bool_decide_eq_true_2|].
    rewrite bool_decide_eq_false_2 by (by destruct l). destruct (erase_ok s q l x Hs) as [Hs' _].
    rewrite removelast_last. destruct (l ++ [x]) eqn:E; [by destruct l|]. done. }
  rewrite (room_left s d Hs). destruct (negb (c =? 0) && _) eqn:Eroom; [|done].
  apply andb_true_iff in Eroom as [_ Hroom%Z.ltb_lt].
  set (c' := if c =? CR then NL else c).
  assert (u8 c' = c') as Hu by (apply u8_small; unfold c', NL; destruct (c =? CR); lia). rewrite Hu.
  destruct d as [q l], Hs as [Hi Hl Hm Hn]. cbn [ready editing c_e c_r] in *.
  pose proof (append_indexed s q l c' Hi Hroom) as Hi'.
  assert (Z.of_nat (length (q ++ l ++ [c'])) = Z.of_nat (length (q ++ l)) + 1) as Hlen
    by (rewrite app_assoc, (length_app (q ++ l)); cbn; lia).
  replace (u32 (c_e s + 1) =? u32 (c_r s + INPUT_BUF)) with (Z.of_nat (length (q ++ l ++ [c'])) =? INPUT_BUF).
  2:{ destruct Hi as (R & H0 & Hr & _ & He & _). rewrite He, Hr, !u32_plus.
      rewrite u32_near by (unfold INPUT_BUF in *; lia). apply eq_true_iff_eq. rewrite !Z.eqb_eq. lia. }
  destruct ((c' =? NL) || (c' =? CTRL_D) || _) eqn:Ecom; cbn [fst snd].
  - split; [done|]. split; cbn [ready editing]; [|rewrite app_nil_r; lia|done|set_solver].
    apply (commit_indexed _ q (l ++ [c']) Hi').
  - apply orb_false_iff in Ecom as [[E1%Z.eqb_neq _]%orb_false_iff E2%Z.eqb_neq].
    split; [done|]. split; cbn [ready editing]; [done|lia|lia|].
    rewrite not_elem_of_app, list_elem_of_singleton. auto.
Qed.

(** Taking the first character of the queue. *)
Lemma take_ok s c q l :
  cons_ok s (LD (c :: q) l) ->
  default 0 (c_buf s !! (c_r s mod INPUT_BUF)) = c
  /\ cons_ok (Cons (c_buf s) (u32 (c_r s + 1)) (c_w s) (c_e s)) (LD q l).
Proof.
  intros [(R & H0 & Hr & Hw & He & Hd) Hl Hm Hn]. cbn [ready editing app length] in *. split.
  - rewrite Hr, u32_mod_buf. specialize (Hd O c eq_refl). rewrite Z.add_0_r in Hd. by rewrite Hd.
  - split; cbn [ready editing]; [|lia|intros H; specialize (Hm H); lia|done].
    exists (R + 1). cbn [c_buf c_r c_w c_e]. rewrite Hr, u32_plus.
    split_and!; [lia|done|rewrite Hw; f_equal; lia|rewrite He; f_equal; lia|].
    intros i b Hi. specialize (Hd (S i) b Hi). rewrite <- Hd. f_equal. f_equal. lia.
Qed.

(** [consoleread] delivers what the line discipline promises, when the copies
    succeed; it sleeps exactly when the queue runs out before the call is done. *)
Lemma consoleread_ok n s q l killed target :
  cons_ok s (LD q l) -> Z.of_nat n <= target < 2 ^ 31 ->
  let '(s', bs, r) := consoleread_loop n s killed (fun _ => true) target (Z.of_nat n) in
  let '(bs', q', fin) := ld_read n (Z.of_nat n =? target) q in
  bs = bs' /\ cons_ok s' (LD q' l)
  /\ r = if fin then Ret (target - Z.of_nat n + Z.of_nat (length bs))
         else if killed then Ret (-1) else Slept (Z.of_nat n - Z.of_nat (length bs)).
Proof.
  intros Hs Hn. revert s q Hs. induction n as [|n IH]; intros s q Hs.
  { cbn [consoleread_loop ld_read length]. change (Z.of_nat 0) with 0. cbn [Z.ltb Z.compare negb].
    split_and!; [done|done|]. f_equal. cbn [length]. rewrite i32_small; lia. }
  cbn [consoleread_loop ld_read]. rewrite (proj2 (Z.ltb_lt 0 (Z.of_nat (S n)))) by lia. cbn [negb].
  rewrite (nothing_ready s _ Hs). cbn [ready]. destruct q as [|c q].
  { rewrite bool_decide_eq_true_2 by done. destruct killed; cbn [length]; (split_and!; [done|done|f_equal; lia]). }
  rewrite bool_decide_eq_false_2 by done. destruct (take_ok s c q l Hs) as [Ec Hs']. rewrite Ec.
  destruct (Z.eqb_spec c CTRL_D) as [->|_].
  - rewrite !u32_small by lia. destruct (Z.eqb_spec (Z.of_nat (S n)) target) as [E|E].
    + rewrite (proj2 (Z.ltb_ge _ _)) by lia. cbn [length]. split_and!; [done|done|]. f_equal. cbn [length]. rewrite i32_small; lia.
    + rewrite (proj2 (Z.ltb_lt _ _)) by lia. cbn [length c_buf c_r c_w c_e]. split_and!; [done| |].
      * rewrite u32_minus. replace (c_r s + 1 - 1) with (c_r s) by lia.
        destruct Hs as [(R & H0 & Hr & H) ? ? ?]. split; [|done..]. exists R. cbn [c_r]. split; [done|]. split; [|done].
        rewrite Hr. apply u32_small, u32_range.
      * f_equal. cbn [length]. rewrite i32_small; lia.
  - destruct (c =? NL).
    + cbn [length]. split_and!; [done|done|]. f_equal. cbn [length]. rewrite i32_small; lia.
    + replace (Z.of_nat (S n) - 1) with (Z.of_nat n) by lia. specialize (IH ltac:(lia) _ q Hs').
      rewrite (proj2 (Z.eqb_neq (Z.of_nat n) target)) in IH by lia.
      destruct (consoleread_loop n _ killed _ target (Z.of_nat n)) as [[s' bs] r].
      destruct (ld_read n false q) as [[bs' q'] fin]. destruct IH as (-> & Hk & ->). cbn [length].
      split_and!; [done|done|]. destruct fin; [f_equal; lia|]. destruct killed; [done|]. f_equal. lia.
Qed.

(** ** Interrupts and a reader, interleaved *)

(** A character arrives; a process calls [read] of [n] bytes; the process that sleeps runs again. *)
Inductive cop := CIntr (c : Z) | CRead (n : nat) | CResume.
(** What can be seen: the events of the handler, and each finished [read] with its bytes. *)
Inductive obs := OEvents (ev : list cevent) | ODone (r : Z) (bs : list Z).
(** The reader that sleeps: its request, the bytes still wanted, the bytes it has. *)
Definition reader : Type := option (nat * nat * list Z).

Definition finish (target : nat) (got : list Z) (bs : list Z) (r : outcome) : reader * list obs :=
  match r with
  | Ret v => (None, [ODone v (got ++ bs)])
  | Slept n => (Some (target, Z.to_nat n, got ++ bs), [])
  end.
Definition c_step (o : cop) (x : cons_st * reader) : cons_st * reader * list obs :=
  let '(s, p) := x in
  match o, p with
  | CIntr c, _ => let '(s', ev) := consoleintr c s in (s', p, [OEvents ev])
  | CRead n, None =>
      let '(s', bs, r) := consoleread s false (fun _ => true) (Z.of_nat n) (Z.of_nat n) in
      let '(p', out) := finish n [] bs r in (s', p', out)
  | CResume, Some (t, n, got) =>
      let '(s', bs, r) := consoleread s false (fun _ => true) (Z.of_nat t) (Z.of_nat n) in
      let '(p', out) := finish t got bs r in (s', p', out)
  | _, _ => (s, p, [])
  end.
Fixpoint c_run (ops : list cop) (x : cons_st * reader) : list obs :=
  match ops with [] => [] | o :: ops' => let '(x', out) := c_step o x in out ++ c_run ops' x' end.

(** The same machine over the line discipline. *)
Definition ld_finish (target n : nat) (got : list Z) (bs : list Z) (fin : bool) : reader * list obs :=
  if fin then (None, [ODone (Z.of_nat (length (got ++ bs))) (got ++ bs)])
  else (Some (target, (n - length bs)%nat, got ++ bs), []).
Definition ld_step (o : cop) (x : ldisc * reader) : ldisc * reader * list obs :=
  let '(d, p) := x in
  match o, p with
  | CIntr c, _ => let '(d', ev) := ld_intr c d in (d', p, [OEvents ev])
  | CRead n, None =>
      let '(bs, q, fin) := ld_read n true (ready d) in
      let '(p', out) := ld_finish n n [] bs fin in (LD q (editing d), p', out)
  | CResume, Some (t, n, got) =>
      let '(bs, q, fin) := ld_read n (n =? t)%nat (ready d) in
      let '(p', out) := ld_finish t n got bs fin in (LD q (editing d), p', out)
  | _, _ => (d, p, [])
  end.
Fixpoint ld_run (ops : list cop) (x : ldisc * reader) : list obs :=
  match ops with [] => [] | o :: ops' => let '(x', out) := ld_step o x in out ++ ld_run ops' x' end.

Definition ok_cop (o : cop) : Prop :=
  match o with CIntr c => 0 <= c < 256 | CRead n => Z.of_nat n < 2 ^ 31 | CResume => True end.
Definition reader_ok (p : reader) : Prop :=
  match p with Some (t, n, got) => Z.of_nat t < 2 ^ 31 /\ (n + length got)%nat = t | None => True end.

Lemma ld_read_length n first q bs q' fin : ld_read n first q = (bs, q', fin) -> (length bs <= n)%nat.
Proof.
  revert first q bs q' fin. induction n as [|n IH]; intros first q bs q' fin; cbn [ld_read]; [intros [= <- <- <-]; cbn; lia|].
  destruct q as [|c q]; [intros [= <- <- <-]; cbn; lia|]. destruct (c =? CTRL_D); [intros [= <- <- <-]; cbn; lia|].
  destruct (c =? NL); [intros [= <- <- <-]; cbn; lia|]. destruct (ld_read n false q) as [[b q2] f] eqn:E.
  intros [= <- <- <-]. specialize (IH _ _ _ _ _ E). cbn. lia.
Qed.

(** One read of either machine, from a request that has [got] already. *)
Lemma read_step t n got s d :
  cons_ok s d -> Z.of_nat t < 2 ^ 31 -> (n + length got)%nat = t ->
  let '(s', bs, r) := consoleread s false (fun _ => true) (Z.of_nat t) (Z.of_nat n) in
  let '(bs', q, fin) := ld_read n (n =? t)%nat (ready d) in
  cons_ok s' (LD q (editing d)) /\ finish t got bs r = ld_finish t n got bs' fin
  /\ reader_ok (finish t got bs r).1.
Proof.
  intros Hs Ht Hn. destruct d as [q l]. unfold consoleread. rewrite Nat2Z.id.
  pose proof (consoleread_ok n s q l false (Z.of_nat t) Hs ltac:(lia)) as H.
  replace (Z.of_nat n =? Z.of_nat t) with (n =? t)%nat in H
    by (apply eq_true_iff_eq; rewrite Nat.eqb_eq, Z.eqb_eq; lia).
  destruct (consoleread_loop n _ _ _ _ _) as [[s' bs] r]. cbn [ready editing].
  destruct (ld_read n (n =? t)%nat q) as [[bs' q'] fin] eqn:El. destruct H as (-> & Hk & ->).
  pose proof (ld_read_length _ _ _ _ _ _ El). split; [done|]. unfold finish, ld_finish. rewrite length_app.
  destruct fin; cbn [fst reader_ok].
  - split; [|done]. replace (Z.of_nat t - Z.of_nat n + Z.of_nat (length bs')) with (Z.of_nat (length got + length bs')) by lia. done.
  - rewrite length_app. split; [|lia]. replace (Z.to_nat (Z.of_nat n - Z.of_nat (length bs'))) with (n - length bs')%nat by lia. done.
Qed.

Lemma c_step_ok o s d p :
  cons_ok s d -> reader_ok p -> ok_cop o ->
  exists s' d' p' out, c_step o (s, p) = (s', p', out) /\ ld_step o (d, p) = (d', p', out)
    /\ cons_ok s' d' /\ reader_ok p'.
Proof.
  intros Hs Hp Ho. destruct o as [c|n|]; cbn [c_step ld_step].
  - destruct (consoleintr_ok c s d Hs Ho) as [E Hk]. destruct (consoleintr c s) as [s' ev], (ld_intr c d) as [d' ev'].
    cbn [fst snd] in *. subst ev'. by exists s', d', p, [OEvents ev].
  - destruct p as [p|]; [by exists s, d, (Some p), []|].
    pose proof (read_step n n [] s d Hs Ho ltac:(cbn; lia)) as H. rewrite Nat.eqb_refl in H.
    destruct (consoleread _ _ _ _ _) as [[s' bs] r], (ld_read n true (ready d)) as [[bs' q] fin].
    destruct H as (Hk & E & Hr). rewrite <- E. destruct (finish n [] bs r) as [p' out].
    by exists s', (LD q (editing d)), p', out.
  - destruct p as [[[t n] got]|]; [|by exists s, d, None, []]. destruct Hp as [Ht Hn].
    pose proof (read_step t n got s d Hs Ht Hn) as H.
    destruct (consoleread _ _ _ _ _) as [[s' bs] r], (ld_read n _ (ready d)) as [[bs' q] fin].
    destruct H as (Hk & E & Hr). rewrite <- E. destruct (finish t got bs r) as [p' out].
    by exists s', (LD q (editing d)), p', out.
Qed.
Lemma c_run_ok ops s d p :
  cons_ok s d -> reader_ok p -> Forall ok_cop ops -> c_run ops (s, p) = ld_run ops (d, p).
Proof.
  intros Hs Hp Ho. revert s d p Hs Hp. induction Ho as [|o ops Ho Hops IH]; intros s d p Hs Hp; [done|].
  destruct (c_step_ok o s d p Hs Hp Ho) as (s' & d' & p' & out & E & E' & Hs' & Hp').
  cbn [c_run ld_run]. rewrite E, E'. f_equal. by apply IH.
Qed.

(** The ring at boot: nothing in it. *)
Definition cons_boot (junk : gmap Z Z) : cons_st := Cons junk 0 0 0.
Lemma cons_boot_ok junk : cons_ok (cons_boot junk) (LD [] []).
Proof. split; cbn [ready editing]; [by exists 0|done|done|apply not_elem_of_nil]. Qed.

(** C15: The console implements its line discipline. From boot, for every sequence of
    characters typed, calls of [read] and wake-ups of the reader, what can be seen is
    what the machine of two lists gives: the characters echoed, the wakeups, and the
    bytes and the result of every [read], including how a line is edited, killed or
    cut at 128 characters, and that an end-of-file mark ends a read, or is kept for
    the next one when bytes precede it. It holds however often the indices wrap. *)
Theorem console_refines (junk : gmap Z Z) (ops : list cop) :
  Forall ok_cop ops -> c_run ops (cons_boot junk, None) = ld_run ops (LD [] [], None).
Proof. intros Ho. apply c_run_ok; [apply cons_boot_ok|done|done]. Qed.

(** A line typed with a correction, read by a process that was waiting for it, and
    then an end-of-file mark after two more characters. *)
Lemma console_refines_witness :
  c_run [CRead 10; CIntr 97; CIntr 98; CIntr 8; CIntr 99; CIntr 13; CResume;
         CIntr 120; CIntr 121; CIntr 4; CRead 10; CRead 10] (cons_boot ∅, None)
  = ld_run [CRead 10; CIntr 97; CIntr 98; CIntr 8; CIntr 99; CIntr 13; CResume;
         CIntr 120; CIntr 121; CIntr 4; CRead 10; CRead 10] (LD [] [], None).
Proof. apply (console_refines ∅). repeat constructor; unfold ok_cop; lia. Defined.
Lemma console_example :
  omap (fun o => match o with ODone r bs => Some (r, bs) | _ => None end)
    (c_run [CRead 10; CIntr 97; CIntr 98; CIntr 8; CIntr 99; CIntr 13; CResume;
         CIntr 120; CIntr 121; CIntr 4; CRead 10; CRead 10] (cons_boot ∅, None))
  = [(3, [97; 99; 10]); (2, [120; 121]); (0, [])].
Proof. by vm_compute. Qed.

(** ** The transmit side of the UART *)
Definition UART_TX_BUF_SIZE : Z := 32.
(** [lsr]: the answers the device will give to the reads of LSR_TX_IDLE (busy when
    there is none left); [sent]: the bytes written to THR. *)
Record uart := UartSt { tx_buf : gmap Z Z; tx_w : Z; tx_r : Z; lsr : list bool; sent : list Z }.
(** How a call that sends a byte ends: [USlept], waiting for room; [USpin], in a loop
    that only the device, or nobody once the kernel has panicked, can end. *)
Inductive uputc := UPut (u : uart) | USlept | USpin.

Definition tx_idle (u : uart) : bool * uart :=
  match lsr u with
  | [] => (false, u)
  | b :: l => (b, UartSt (tx_buf u) (tx_w u) (tx_r u) l (sent u))
  end.
(** The loop of [uartstart]; every round takes a byte out of the 32 there can be. *)
Fixpoint uartstart (fuel : nat) (u : uart) : uart :=
  match fuel with
  | O => u
  | S fuel' =>
      if tx_w u =? tx_r u then u
      else
        let '(idle, u) := tx_idle u in
        if negb idle then u
        else
          let c := default 0 (tx_buf u !! (tx_r u mod UART_TX_BUF_SIZE)) in
          uartstart fuel' (UartSt (tx_buf u) (tx_w u) (u64 (tx_r u + 1)) (lsr u) (sent u ++ [c]))
  end.
Definition uartputc (panicked : bool) (c : Z) (u : uart) : uputc :=
  if panicked then USpin
  else if tx_w u =? u64 (tx_r u + UART_TX_BUF_SIZE) then USlept
  else UPut (uartstart 33 (UartSt (<[tx_w u mod UART_TX_BUF_SIZE := u8 c]> (tx_buf u)) (u64 (tx_w u + 1)) (tx_r u) (lsr u) (sent u))).
(** The transmit half of [uartintr]. *)
Definition uartintr_tx (u : uart) : uart := uartstart 33 u.
(** [uartputc_sync]: spins until the device is idle. *)
Fixpoint sync_spin (l : list bool) : option (list bool) :=
  match l with [] => None | b :: l' => if b then Some l' else sync_spin l' end.
Definition uartputc_sync (panicked : bool) (c : Z) (u : uart) : uputc :=
  if panicked then USpin
  else match sync_spin (lsr u) with
       | None => USpin
       | Some l => UPut (UartSt (tx_buf u) (tx_w u) (tx_r u) l (sent u ++ [u8 c]))
       end.
(** [uartintr]: the bytes in the receive register go to the console until [uartgetc]
    finds none, then the transmit buffer is served. *)
Definition uartgetc (rx : list Z) : Z * list Z := match rx with [] => (-1, []) | c :: rx' => (c, rx') end.
Fixpoint uartintr_rx (rx : list Z) (s : cons_st) : cons_st * list cevent :=
  match rx with
  | [] => (s, [])
  | c :: rx' => let '(s, ev) := consoleintr c s in let '(s, ev') := uartintr_rx rx' s in (s, ev ++ ev')
  end.
Definition uartintr (rx : list Z) (s : cons_st) (u : uart) : cons_st * list cevent * uart :=
  let '(s, ev) := uartintr_rx rx s in (s, ev, uartintr_tx u).

(** [consolewrite]: [WSlept i c] when it sleeps in [uartputc] of byte [i], which is [c]. *)
Inductive woutcome := WRet (i : Z) | WSlept (i c : Z) | WSpin.
Fixpoint consolewrite_loop (fuel : nat) (panicked : bool) (u : uart) (src : Z -> option Z) (n i : Z) : uart * woutcome :=
  if negb (i <? n) then (u, WRet i)
  else match fuel with
  | O => (u, WRet i)
  | S fuel' =>
      match src i with
      | None => (u, WRet i)
      | Some c => match uartputc panicked c u with
                  | USlept => (u, WSlept i c)
                  | USpin => (u, WSpin)
                  | UPut u' => consolewrite_loop fuel' panicked u' src n (i + 1)
                  end
      end
  end.
Definition consolewrite (panicked : bool) (u : uart) (src : Z -> option Z) (n : Z) : uart * woutcome :=
  consolewrite_loop (Z.to_nat n) panicked u src n 0.
(** A writer that runs again after sleeping on byte [i]. *)
Definition consolewrite_resume (panicked : bool) (u : uart) (src : Z -> option Z) (n i c : Z) : uart * woutcome :=
  match uartputc panicked c u with
  | USlept => (u, WSlept i c)
  | USpin => (u, WSpin)
  | UPut u' => consolewrite_loop (Z.to_nat (n - (i + 1))) panicked u' src n (i + 1)
  end.

(** The bytes between the two indices are a queue: what was accepted and is not sent yet. *)
Record uart_ok (u : uart) (hist q : list Z) : Prop := {
  uk_split : hist = sent u ++ q;
  uk_len : Z.of_nat (length q) <= UART_TX_BUF_SIZE;
  uk_index : exists R, 0 <= R /\ tx_r u = u64 R /\ tx_w u = u64 (R + Z.of_nat (length q))
    /\ forall i b, q !! i = Some b -> tx_buf u !! ((R + Z.of_nat i) mod UART_TX_BUF_SIZE) = Some b;
}.
Lemma u64_mod_tx x : u64 x mod UART_TX_BUF_SIZE = x mod UART_TX_BUF_SIZE.
Proof. unfold u64, UART_TX_BUF_SIZE. change (2 ^ 64) with (32 * 576460752303423488). dlia. Qed.
Lemma u64_plus a b : u64 (u64 a + b) = u64 (a + b).
Proof. unfold u64. by rewrite Zplus_mod_idemp_l. Qed.
Lemma u64_near a b : 0 <= b - a < 2 ^ 64 -> (u64 b =? u64 a) = (a =? b).
Proof.
  intros H. destruct (Z.eqb_spec a b) as [->|Hne]; [apply Z.eqb_refl|]. apply Z.eqb_neq. unfold u64. dlia.
Qed.
Lemma tx_idle_ok u hist q : uart_ok u hist q -> uart_ok (tx_idle u).2 hist q.
Proof. intros [H1 H2 H3]. unfold tx_idle. destruct (lsr u); by split. Qed.

(** [uartstart] only moves bytes from the front of the queue to the device. *)
Lemma uartstart_ok fuel u hist q : uart_ok u hist q -> exists q', uart_ok (uartstart fuel u) hist q' /\ suffix q' q.
Proof.
  revert u q. induction fuel as [|fuel IH]; intros u q Hu; cbn [uartstart]; [by exists q|].
  destruct (tx_w u =? tx_r u) eqn:E; [by exists q|]. pose proof (tx_idle_ok u hist q Hu) as Hi.
  assert (tx_w (tx_idle u).2 = tx_w u /\ tx_r (tx_idle u).2 = tx_r u) as [Ew Er] by (unfold tx_idle; by destruct (lsr u)).
  destruct (tx_idle u) as [idle u1]. cbn [snd] in *. destruct idle; cbn [negb]; [|by exists q].
  destruct Hi as [H1 H2 (R & H0 & Hr & Hw & Hd)]. destruct q as [|c q].
  { rewrite <- Ew, <- Er, Hw, Hr in E. cbn in E. by rewrite Z.add_0_r, Z.eqb_refl in E. }
  rewrite Hr, u64_mod_tx. pose proof (Hd O c eq_refl) as Hc. rewrite Z.add_0_r in Hc. rewrite Hc. cbn [default from_option id].
  destruct (IH (UartSt (tx_buf u1) (tx_w u1) (u64 (u64 R + 1)) (lsr u1) (sent u1 ++ [c])) q) as (q' & Hq' & Hs).
  - split; cbn [sent tx_buf tx_w tx_r].
    + by rewrite <- app_assoc.
    + cbn [length] in H2. lia.
    + exists (R + 1). rewrite u64_plus. cbn [length] in Hw. split_and!; [lia|done|rewrite Hw; f_equal; lia|].
      intros i b Hi. rewrite <- (Hd (S i) b Hi). f_equal. f_equal. lia.
  - exists q'. split; [done|]. by apply suffix_cons_r.
Qed.

(** A byte is accepted unless 32 are waiting, and it goes to the end of the queue. *)
Lemma uartputc_ok c u hist q :
  uart_ok u hist q -> 0 <= c < 256 ->
  match uartputc false c u with
  | USlept => length q = Z.to_nat UART_TX_BUF_SIZE
  | UPut u' => exists q', uart_ok u' (hist ++ [c]) q'
  | USpin => False
  end.
Proof.
  intros [H1 H2 (R & H0 & Hr & Hw & Hd)] Hc. unfold uartputc. rewrite Hr, Hw, u64_plus, Z.eqb_sym.
  rewrite u64_near by (unfold UART_TX_BUF_SIZE in *; lia).
  destruct (Z.eqb_spec (R + Z.of_nat (length q)) (R + UART_TX_BUF_SIZE)) as [E|E]; [unfold UART_TX_BUF_SIZE in *; lia|].
  rewrite u8_small by lia. edestruct (uartstart_ok 33) as (q' & Hq & _); [|by exists q'].
  split with (q := q ++ [c]); cbn [sent tx_buf tx_w tx_r].
  - by rewrite H1, app_assoc.
  - rewrite length_app. cbn. lia.
  - exists R. rewrite u64_mod_tx, u64_plus, length_app. cbn [length]. split_and!; [done|done|f_equal; lia|].
    intros i b Hi. apply lookup_app_Some in Hi as [Hi|[Hi Hb]].
    + apply lookup_lt_Some in Hi as Hlt. rewrite lookup_insert_ne; [by apply Hd|]. unfold UART_TX_BUF_SIZE in *. dlia.
    + apply list_lookup_singleton_Some in Hb as [Ei <-]. replace i with (length q) by lia. apply lookup_insert_eq.
Qed.

(** [consolewrite] hands the bytes of the buffer to the UART in order: the result is
    the number accepted, and what the device has sent is always a prefix of what was
    accepted, at most 32 bytes behind. *)
Lemma consolewrite_ok fuel u src n i hist q :
  uart_ok u hist q -> (forall j c, src j = Some c -> 0 <= c < 256) -> (Z.to_nat (n - i) <= fuel)%nat ->
  exists bs q', uart_ok (consolewrite_loop fuel false u src n i).1 (hist ++ bs) q'
    /\ (forall k b, bs !! k = Some b -> src (i + Z.of_nat k) = Some b)
    /\ match (consolewrite_loop fuel false u src n i).2 with
       | WRet j => j = i + Z.of_nat (length bs) /\ (j < n -> src j = None)
       | WSlept j c => j = i + Z.of_nat (length bs) /\ src j = Some c
       | WSpin => False
       end.
Proof.
  revert u i hist q. induction fuel as [|fuel IH]; intros u i hist q Hu Hsrc Hf; cbn [consolewrite_loop].
  { destruct (Z.ltb_spec i n); [lia|]. cbn [negb]. exists [], q. rewrite app_nil_r. split; [done|]. split; [done|]. cbn [snd length]. split; [lia|lia]. }
  destruct (Z.ltb_spec i n); cbn [negb].
  2:{ exists [], q. rewrite app_nil_r. split; [done|]. split; [done|]. cbn [snd length]. split; [lia|lia]. }
  destruct (src i) as [c|] eqn:Ei.
  2:{ exists [], q. rewrite app_nil_r. split; [done|]. split; [done|]. cbn [snd length]. split; [lia|done]. }
  pose proof (uartputc_ok c u hist q Hu (Hsrc i c Ei)) as H'. destruct (uartputc false c u) as [u'| |]; [| |done].
  - destruct H' as [q1 Hu']. destruct (IH u' (i + 1) (hist ++ [c]) q1 Hu' Hsrc ltac:(lia)) as (bs & q' & E1 & E2 & E3).
    exists (c :: bs), q'. rewrite <- app_assoc in E1. split; [done|]. split.
    + intros [|k] b Hk; cbn in Hk; [injection Hk as <-; by rewrite Z.add_0_r|].
      specialize (E2 k b Hk). rewrite <- E2. f_equal. lia.
    + destruct (consolewrite_loop fuel false u' src n (i + 1)).2; cbn [length]; [split; [lia|apply E3]..|done].
  - exists [], q. rewrite app_nil_r. split; [done|]. split; [done|]. cbn [snd length]. split; [lia|done].
Qed.
