(* ===== verification/Virtio.v ===== *)
(** * The virtio disk driver (kernel/virtio_disk.c, kernel/virtio.h)

    The driver and the device share descriptors and two rings in memory. The driver's
    critical sections under [disk.vdisk_lock] are the operations here; the device
    is the machine of the virtio specification that takes chains from the available
    ring in order, performs them in any order, and reports them in the used ring.
    Pointers into the driver's own structures and to buffer data are symbolic;
    ring indices are the [uint16]s of the code. *)
From S2P Require Import Prelude.

Definition NUM : Z := 8.
Definition BSIZE : Z := 1024.
Definition VRING_DESC_F_NEXT : Z := 1.
Definition VRING_DESC_F_WRITE : Z := 2.
Definition VIRTIO_BLK_T_IN : Z := 0.
Definition VIRTIO_BLK_T_OUT : Z := 1.

(** The addresses a descriptor may hold: null, [&disk.ops[i]], [b->data], [&disk.info[i].status]. *)
Inductive vaddr := VNull | VOps (i : Z) | VData (b : Z) | VStatus (i : Z).
Record virtq_desc := Desc { d_addr : vaddr; d_len : Z; d_flags : Z; d_next : Z }.
Definition desc0 : virtq_desc := Desc VNull 0 0 0.

(** The driver's state and the memory it shares with the device; buffers are
    numbered, [bdisk], [bdata] and [bblock] are their fields. *)
Record vdisk := VDisk {
  v_desc : Z -> virtq_desc; v_free : Z -> bool;
  avail_ring : Z -> Z; avail_idx : Z;
  used_ring : Z -> Z; used_ring_idx : Z; used_idx : Z;
  info_b : Z -> option Z; info_status : Z -> Z; v_ops : Z -> Z * Z;
  bdisk : Z -> bool; bdata : Z -> list Z; bblock : Z -> Z }.

Definition set_desc (i : Z) (d : virtq_desc) (v : vdisk) : vdisk :=
  VDisk (fupd (v_desc v) i d) (v_free v) (avail_ring v) (avail_idx v) (used_ring v) (used_ring_idx v) (used_idx v)
    (info_b v) (info_status v) (v_ops v) (bdisk v) (bdata v) (bblock v).
Definition set_free (i : Z) (x : bool) (v : vdisk) : vdisk :=
  VDisk (v_desc v) (fupd (v_free v) i x) (avail_ring v) (avail_idx v) (used_ring v) (used_ring_idx v) (used_idx v)
    (info_b v) (info_status v) (v_ops v) (bdisk v) (bdata v) (bblock v).
Definition set_info (i : Z) (b : option Z) (v : vdisk) : vdisk :=
  VDisk (v_desc v) (v_free v) (avail_ring v) (avail_idx v) (used_ring v) (used_ring_idx v) (used_idx v)
    (fupd (info_b v) i b) (info_status v) (v_ops v) (bdisk v) (bdata v) (bblock v).
Definition set_status (i : Z) (x : Z) (v : vdisk) : vdisk :=
  VDisk (v_desc v) (v_free v) (avail_ring v) (avail_idx v) (used_ring v) (used_ring_idx v) (used_idx v)
    (info_b v) (fupd (info_status v) i x) (v_ops v) (bdisk v) (bdata v) (bblock v).
Definition set_op (i : Z) (x : Z * Z) (v : vdisk) : vdisk :=
  VDisk (v_desc v) (v_free v) (avail_ring v) (avail_idx v) (used_ring v) (used_ring_idx v) (used_idx v)
    (info_b v) (info_status v) (fupd (v_ops v) i x) (bdisk v) (bdata v) (bblock v).
Definition set_avail (r : Z -> Z) (i : Z) (v : vdisk) : vdisk :=
  VDisk (v_desc v) (v_free v) r i (used_ring v) (used_ring_idx v) (used_idx v)
    (info_b v) (info_status v) (v_ops v) (bdisk v) (bdata v) (bblock v).
Definition set_used (r : Z -> Z) (i seen : Z) (v : vdisk) : vdisk :=
  VDisk (v_desc v) (v_free v) (avail_ring v) (avail_idx v) r i seen
    (info_b v) (info_status v) (v_ops v) (bdisk v) (bdata v) (bblock v).
Definition set_bdisk (b : Z) (x : bool) (v : vdisk) : vdisk :=
  VDisk (v_desc v) (v_free v) (avail_ring v) (avail_idx v) (used_ring v) (used_ring_idx v) (used_idx v)
    (info_b v) (info_status v) (v_ops v) (fupd (bdisk v) b x) (bdata v) (bblock v).
Definition set_bdata (b : Z) (x : list Z) (v : vdisk) : vdisk :=
  VDisk (v_desc v) (v_free v) (avail_ring v) (avail_idx v) (used_ring v) (used_ring_idx v) (used_idx v)
    (info_b v) (info_status v) (v_ops v) (bdisk v) (fupd (bdata v) b x) (bblock v).

(** ** The driver *)

(** [inl msg] is [panic msg]. *)
Definition V (A : Type) : Type := string + A.
#[local] Instance V_ret : MRet V := fun A a => inr a.
#[local] Instance V_bind : MBind V := fun A B f m => match m with inl e => inl e | inr a => f a end.

Fixpoint alloc_desc_from (n : nat) (i : Z) (v : vdisk) : Z * vdisk :=
  match n with
  | O => (-1, v)
  | S n' => if v_free v i then (i, set_free i false v) else alloc_desc_from n' (i + 1) v
  end.
Definition alloc_desc (v : vdisk) : Z * vdisk := alloc_desc_from (Z.to_nat NUM) 0 v.

Definition free_desc (i : Z) (v : vdisk) : V vdisk :=
  if NUM <=? i then inl "free_desc 1"%string
  else if v_free v i then inl "free_desc 2"%string
  else inr (set_free i true (set_desc i desc0 v)).

(** A chain has at most [NUM] descriptors: more would free one twice. *)
Fixpoint free_chain (fuel : nat) (i : Z) (v : vdisk) : V vdisk :=
  match fuel with
  | O => inl no_fuel
  | S fuel' =>
      let flag := d_flags (v_desc v i) in
      let nxt := d_next (v_desc v i) in
      v ← free_desc i v;
      if negb (Z.land flag VRING_DESC_F_NEXT =? 0) then free_chain fuel' nxt v else mret v
  end.

(** [alloc3_desc]: the loop unrolled; what was allocated is given back when the next fails. *)
Definition alloc3_desc (v : vdisk) : V (option (Z * Z * Z) * vdisk) :=
  let '(i0, v) := alloc_desc v in
  if i0 <? 0 then mret (None, v)
  else
    let '(i1, v) := alloc_desc v in
    if i1 <? 0 then v ← free_desc i0 v; mret (None, v)
    else
      let '(i2, v) := alloc_desc v in
      if i2 <? 0 then v ← free_desc i0 v; v ← free_desc i1 v; mret (None, v)
      else mret (Some (i0, i1, i2), v).

Definition sector_of (blockno : Z) : Z := u32 (blockno * (BSIZE / 512)).

(** [virtio_disk_rw] from the allocation to the notification: formats the three
    descriptors and puts the chain in the available ring. *)
Definition submit (b : Z) (write : bool) (idx : Z * Z * Z) (v : vdisk) : vdisk :=
  let '(i0, i1, i2) := idx in
  let v := set_op i0 (if write then VIRTIO_BLK_T_OUT else VIRTIO_BLK_T_IN, sector_of (bblock v b)) v in
  let v := set_desc i0 (Desc (VOps i0) 16 VRING_DESC_F_NEXT i1) v in
  let v := set_desc i1 (Desc (VData b) BSIZE
             (Z.lor (if write then 0 else VRING_DESC_F_WRITE) VRING_DESC_F_NEXT) i2) v in
  let v := set_status i0 255 v in
  let v := set_desc i2 (Desc (VStatus i0) 1 VRING_DESC_F_WRITE 0) v in
  let v := set_bdisk b true v in
  let v := set_info i0 (Some b) v in
  set_avail (fupd (avail_ring v) (avail_idx v mod NUM) i0) (u16 (avail_idx v + 1)) v.

(** The first critical section: the head of the chain, or [None] when the caller
    sleeps on [&disk.free[0]] for want of descriptors. *)
Definition rw_start (b : Z) (write : bool) (v : vdisk) : V (option Z * vdisk) :=
  '(r, v) ← alloc3_desc v;
  match r with
  | None => mret (None, v)
  | Some (i0, i1, i2) => mret (Some i0, submit b write (i0, i1, i2) v)
  end.
(** The section after [sleep(b)]: [false] when [b->disk] is still set. *)
Definition rw_finish (b i0 : Z) (v : vdisk) : V (bool * vdisk) :=
  if bdisk v b then mret (false, v)
  else
    let v := set_info i0 None v in
    v ← free_chain (Z.to_nat NUM) i0 v;
    mret (true, v).

(** The loop of [virtio_disk_intr]; the rings have [NUM] entries. *)
Fixpoint intr_loop (fuel : nat) (v : vdisk) : V vdisk :=
  match fuel with
  | O => inl no_fuel
  | S fuel' =>
      if used_idx v =? used_ring_idx v then mret v
      else
        let id := used_ring v (used_idx v mod NUM) in
        if negb (info_status v id =? 0) then inl "virtio_disk_intr status"%string
        else
          match info_b v id with
          | None => inl "null buf"%string
          | Some b => intr_loop fuel' (set_used (used_ring v) (used_ring_idx v) (u16 (used_idx v + 1)) (set_bdisk b false v))
          end
  end.
Definition virtio_disk_intr (v : vdisk) : V vdisk := intr_loop (Z.to_nat NUM + 1) v.

(** [virtio_disk_init] after the device has been found: everything free, the pages cleared. *)
Definition virtio_disk_init (v : vdisk) : vdisk :=
  VDisk (fun _ => desc0) (fun _ => true) (fun _ => 0) 0 (fun _ => 0) 0 (used_idx v)
    (info_b v) (info_status v) (v_ops v) (bdisk v) (bdata v) (bblock v).

(** ** The device *)

(** [store]: the 1024 bytes at each even sector; [last]: how far the device has
    looked in the available ring; [taken]: the chains it is working on. *)
Record device := Device { store : Z -> list Z; last_avail : Z; taken : list Z }.

Definition dev_take (v : vdisk) (d : device) : device :=
  if last_avail d =? avail_idx v then d
  else Device (store d) (u16 (last_avail d + 1)) (taken d ++ [avail_ring v (last_avail d mod NUM)]).

(** Performing a chain: the header, the data and the status are found by following
    the descriptors. [None]: the chain is not one the device understands. *)
Definition dev_perform (h : Z) (v : vdisk) (d : device) : option (vdisk * device) :=
  let d0 := v_desc v h in
  let d1 := v_desc v (d_next d0) in
  let d2 := v_desc v (d_next d1) in
  match d_addr d0, d_addr d1, d_addr d2 with
  | VOps i, VData b, VStatus j =>
      let '(ty, sector) := v_ops v i in
      if negb ((d_len d0 =? 16) && (d_len d1 =? BSIZE) && (d_len d2 =? 1)
               && (d_flags d0 =? VRING_DESC_F_NEXT) && (d_flags d2 =? VRING_DESC_F_WRITE)) then None
      else
        let done v := set_used (fupd (used_ring v) (used_ring_idx v mod NUM) h) (u16 (used_ring_idx v + 1)) (used_idx v)
                        (set_status j 0 v) in
        let d' s := Device s (last_avail d) (filter (fun x => x <> h) (taken d)) in
        if (ty =? VIRTIO_BLK_T_OUT) && (d_flags d1 =? VRING_DESC_F_NEXT)
        then Some (done v, d' (fupd (store d) sector (bdata v b)))
        else if (ty =? VIRTIO_BLK_T_IN) && (d_flags d1 =? Z.lor VRING_DESC_F_WRITE VRING_DESC_F_NEXT)
        then Some (done (set_bdata b (store d sector) v), d' (store d))
        else None
  | _, _, _ => None
  end.

(** ** The system *)

(** [calls]: the callers of [virtio_disk_rw] that wait for the device, with the
    heads of their chains. A buffer's sleep-lock keeps a second caller away. *)
Record sysv := SysV { vv : vdisk; dd : device; calls : gmap Z Z }.
(** A call begins or is retried; the device takes or performs a chain; the
    interrupt handler runs; a waiting caller runs; a buffer no call uses is written
    or given to another block. *)
Inductive vop := VStart (b : Z) (write : bool) | VTake | VPerform (h : Z) | VIntr | VFinish (b : Z)
  | VTouch (b blk : Z) (data : list Z).
Inductive vobs := OStart (b : Z) (write : bool) | OReturn (b : Z).

Definition v_step (o : vop) (s : sysv) : V (sysv * list vobs) :=
  match o with
  | VStart b w =>
      match calls s !! b with
      | Some _ => mret (s, [])
      | None =>
          '(r, v) ← rw_start b w (vv s);
          match r with
          | None => mret (SysV v (dd s) (calls s), [])
          | Some i0 => mret (SysV v (dd s) (<[b := i0]> (calls s)), [OStart b w])
          end
      end
  | VTake => mret (SysV (vv s) (dev_take (vv s) (dd s)) (calls s), [])
  | VPerform h =>
      if bool_decide (h ∈ taken (dd s)) then
        match dev_perform h (vv s) (dd s) with
        | None => inl "device"%string
        | Some (v, d) => mret (SysV v d (calls s), [])
        end
      else mret (s, [])
  | VIntr => v ← virtio_disk_intr (vv s); mret (SysV v (dd s) (calls s), [])
  | VFinish b =>
      match calls s !! b with
      | None => mret (s, [])
      | Some i0 =>
          '(fin, v) ← rw_finish b i0 (vv s);
          if (fin : bool) then mret (SysV v (dd s) (delete b (calls s)), [OReturn b])
          else mret (SysV v (dd s) (calls s), [])
      end
  | VTouch b blk data =>
      match calls s !! b with
      | Some _ => mret (s, [])
      | None =>
          let v := set_bdata b data (vv s) in
          mret (SysV (VDisk (v_desc v) (v_free v) (avail_ring v) (avail_idx v) (used_ring v) (used_ring_idx v) (used_idx v)
                  (info_b v) (info_status v) (v_ops v) (bdisk v) (bdata v) (fupd (bblock v) b blk)) (dd s) (calls s), [])
      end
  end.
Fixpoint v_run (ops : list vop) (s : sysv) : V (sysv * list vobs) :=
  match ops with
  | [] => mret (s, [])
  | o :: ops' => '(s, out) ← v_step o s; '(s, out') ← v_run ops' s; mret (s, out ++ out')
  end.

(** ** The promise: a disk whose transfers are atomic *)

(** [a_reqs]: the calls in progress: whether each writes, and whether it has been performed. *)
Record adisk := ADisk { a_store : Z -> list Z; a_data : Z -> list Z; a_block : Z -> Z; a_reqs : gmap Z (bool * bool) }.
Inductive aop := AStart (b : Z) (write : bool) | APerform (b : Z) | AReturn (b : Z) | ATouch (b blk : Z) (data : list Z).

Definition a_step (o : aop) (a : adisk) : option (adisk * list vobs) :=
  match o with
  | AStart b w =>
      match a_reqs a !! b with
      | Some _ => None
      | None => Some (ADisk (a_store a) (a_data a) (a_block a) (<[b := (w, false)]> (a_reqs a)), [OStart b w])
      end
  | APerform b =>
      match a_reqs a !! b with
      | Some (true, false) =>
          Some (ADisk (fupd (a_store a) (sector_of (a_block a b)) (a_data a b)) (a_data a) (a_block a)
                  (<[b := (true, true)]> (a_reqs a)), [])
      | Some (false, false) =>
          Some (ADisk (a_store a) (fupd (a_data a) b (a_store a (sector_of (a_block a b)))) (a_block a)
                  (<[b := (false, true)]> (a_reqs a)), [])
      | _ => None
      end
  | AReturn b =>
      match a_reqs a !! b with
      | Some (_, true) => Some (ADisk (a_store a) (a_data a) (a_block a) (delete b (a_reqs a)), [OReturn b])
      | _ => None
      end
  | ATouch b blk data =>
      match a_reqs a !! b with
      | Some _ => None
      | None => Some (ADisk (a_store a) (fupd (a_data a) b data) (fupd (a_block a) b blk) (a_reqs a), [])
      end
  end.
Fixpoint a_run (ops : list aop) (a : adisk) : option (adisk * list vobs) :=
  match ops with
  | [] => Some (a, [])
  | o :: ops' => '(a, out) ← a_step o a; '(a, out') ← a_run ops' a; Some (a, out ++ out')
  end.

(** ** Chains in flight *)
Record flight := Flight { f_b : Z; f_w : bool; f_0 : Z; f_1 : Z; f_2 : Z }.
#[export] Instance flight_eq : EqDecision flight.
Proof. solve_decision. Defined.
Definition idxs (f : flight) : list Z := [f_0 f; f_1 f; f_2 f].
Definition ids (fs : list flight) : list Z := concat (idxs <$> fs).

(** What the driver has written for a flight. *)
Record shape (v : vdisk) (f : flight) : Prop := Shape {
  sh_0 : v_desc v (f_0 f) = Desc (VOps (f_0 f)) 16 VRING_DESC_F_NEXT (f_1 f);
  sh_1 : v_desc v (f_1 f) = Desc (VData (f_b f)) BSIZE (Z.lor (if f_w f then 0 else VRING_DESC_F_WRITE) VRING_DESC_F_NEXT) (f_2 f);
  sh_2 : v_desc v (f_2 f) = Desc (VStatus (f_0 f)) 1 VRING_DESC_F_WRITE 0;
  sh_op : v_ops v (f_0 f) = (if f_w f then VIRTIO_BLK_T_OUT else VIRTIO_BLK_T_IN, sector_of (bblock v (f_b f)));
  sh_b : info_b v (f_0 f) = Some (f_b f);
}.
(** A ring holds the heads of [fs] from index [from] on. *)
Definition ring_holds (ring : Z -> Z) (from upto : Z) (fs : list flight) : Prop :=
  exists T, 0 <= T /\ from = u16 T /\ upto = u16 (T + Z.of_nat (length fs))
    /\ forall k f, fs !! k = Some f -> ring ((T + Z.of_nat k) mod NUM) = f_0 f.

(** The chains: submitted, taken by the device, performed, and reported to the caller. *)
Record vinv (s : sysv) (a : adisk) (sub tak com fin : list flight) : Prop := VInv {
  vi_shape : forall f, f ∈ sub ++ tak ++ com ++ fin -> shape (vv s) f;
  vi_nodup : NoDup (ids (sub ++ tak ++ com ++ fin));
  vi_range : forall i, i ∈ ids (sub ++ tak ++ com ++ fin) -> 0 <= i < NUM;
  vi_free : forall i, 0 <= i < NUM -> (v_free (vv s) i = true <-> i ∉ ids (sub ++ tak ++ com ++ fin));
  vi_bufs : NoDup (f_b <$> sub ++ tak ++ com ++ fin);
  vi_disk : forall f, f ∈ sub ++ tak ++ com -> bdisk (vv s) (f_b f) = true;
  vi_done : forall f, f ∈ fin -> bdisk (vv s) (f_b f) = false;
  vi_status : forall f, f ∈ com -> info_status (vv s) (f_0 f) = 0;
  vi_avail : ring_holds (avail_ring (vv s)) (last_avail (dd s)) (avail_idx (vv s)) sub;
  vi_used : ring_holds (used_ring (vv s)) (used_idx (vv s)) (used_ring_idx (vv s)) com;
  vi_taken : taken (dd s) = f_0 <$> tak;
  vi_calls : forall b i, calls s !! b = Some i <-> exists f, f ∈ sub ++ tak ++ com ++ fin /\ f_b f = b /\ f_0 f = i;
  vi_abs : a_store a = store (dd s) /\ a_data a = bdata (vv s) /\ a_block a = bblock (vv s);
  vi_todo : forall f, f ∈ sub ++ tak -> a_reqs a !! f_b f = Some (f_w f, false);
  vi_performed : forall f, f ∈ com ++ fin -> a_reqs a !! f_b f = Some (f_w f, true);
  vi_none : forall b, b ∉ f_b <$> sub ++ tak ++ com ++ fin -> a_reqs a !! b = None;
}.

Lemma ids_app x y : ids (x ++ y) = ids x ++ ids y.
Proof. unfold ids. by rewrite fmap_app, concat_app. Qed.
Lemma ids_cons f x : ids (f :: x) = idxs f ++ ids x.
Proof. done. Qed.
Lemma elem_of_ids i fs : i ∈ ids fs <-> exists f, f ∈ fs /\ i ∈ idxs f.
Proof.
  induction fs as [|f fs IH]; [set_solver|]. rewrite ids_cons, elem_of_app, IH. set_solver.
Qed.
Lemma ids_length fs : length (ids fs) = (3 * length fs)%nat.
Proof. induction fs as [|f fs IH]; [done|]. rewrite ids_cons, length_app, IH. cbn. lia. Qed.
Lemma ids_perm x y : x ≡ₚ y -> ids x ≡ₚ ids y.
Proof. intros H. unfold ids. by rewrite H. Qed.

(** The heads without one of them. *)
Lemma heads_others (f : flight) (t : list flight) :
  (forall g, g ∈ t -> f_0 g <> f_0 f) -> filter (fun x => x <> f_0 f) (f_0 <$> t) = f_0 <$> t.
Proof.
  induction t as [|g t IH]; intros H; [done|]. cbn [fmap list_fmap].
  rewrite filter_cons_True by (apply H; by left). f_equal. apply IH. intros; apply H; by right.
Qed.
Lemma heads_filter (f : flight) (t1 t2 : list flight) :
  (forall g, g ∈ t1 ++ t2 -> f_0 g <> f_0 f) ->
  filter (fun x => x <> f_0 f) (f_0 <$> t1 ++ f :: t2) = f_0 <$> t1 ++ t2.
Proof.
  intros H. rewrite !fmap_app. cbn [fmap list_fmap]. rewrite filter_app, filter_cons_False by tauto.
  rewrite !heads_others by (intros; apply H; set_solver). done.
Qed.

(** At most two chains fit in the eight descriptors. *)
Lemma flights_few fs : NoDup (ids fs) -> (forall i, i ∈ ids fs -> 0 <= i < NUM) -> (length fs <= 2)%nat.
Proof.
  intros N R. assert (ids fs ⊆+ seqZ 0 NUM) as Hs.
  { apply NoDup_submseteq; [done|]. intros i Hi. apply elem_of_seqZ. specialize (R i Hi). lia. }
  apply submseteq_length in Hs. rewrite ids_length, length_seqZ in Hs. unfold NUM in Hs. lia.
Qed.

(** Membership in lists of known shape. *)
Ltac three := rewrite !elem_of_cons; tauto.
Ltac apps := repeat match goal with H : _ ∈ _ |- _ => progress rewrite ?elem_of_app, ?elem_of_cons in H end;
  rewrite ?elem_of_app, ?elem_of_cons; tauto.
Ltac vcbn := cbn [v_desc v_free avail_ring avail_idx used_ring used_ring_idx used_idx info_b info_status v_ops
  bdisk bdata bblock set_desc set_free set_info set_status set_op set_avail set_used set_bdisk set_bdata
  vv dd calls store last_avail taken a_store a_data a_block a_reqs] in *.

Lemma shape_frame v v' f :
  (forall i, i ∈ idxs f -> v_desc v' i = v_desc v i) -> v_ops v' (f_0 f) = v_ops v (f_0 f) ->
  info_b v' (f_0 f) = info_b v (f_0 f) -> bblock v' (f_b f) = bblock v (f_b f) -> shape v f -> shape v' f.
Proof.
  intros Hd Ho Hi Hb [S0 S1 S2 S3 S4]. unfold idxs in Hd.
  split; [rewrite Hd by set_solver; done..|by rewrite Ho, Hb|by rewrite Hi].
Qed.

(** *** Descriptors *)
Lemma alloc_desc_from_spec n i v :
  (exists j, i <= j < i + Z.of_nat n /\ v_free v j = true /\ alloc_desc_from n i v = (j, set_free j false v))
  \/ (forall j, i <= j < i + Z.of_nat n -> v_free v j = false) /\ alloc_desc_from n i v = (-1, v).
Proof.
  revert i. induction n as [|n IH]; intros i; cbn [alloc_desc_from]; [right; split; [lia|done]|].
  destruct (v_free v i) eqn:E; [left; exists i; split; [lia|done]|].
  destruct (IH (i + 1)) as [(j & Hj & H)|[Hj H]].
  - left. exists j. split; [lia|done].
  - right. split; [|done]. intros j Hij. destruct (decide (j = i)) as [->|]; [done|]. apply Hj. lia.
Qed.
Lemma alloc_desc_spec v :
  (exists j, 0 <= j < NUM /\ v_free v j = true /\ alloc_desc v = (j, set_free j false v))
  \/ (forall j, 0 <= j < NUM -> v_free v j = false) /\ alloc_desc v = (-1, v).
Proof. apply (alloc_desc_from_spec (Z.to_nat NUM) 0 v). Qed.
Lemma free_desc_spec i v : 0 <= i < NUM -> v_free v i = false -> free_desc i v = inr (set_free i true (set_desc i desc0 v)).
Proof. intros H E. unfold free_desc. by rewrite (proj2 (Z.leb_gt _ _)), E by lia. Qed.

Lemma free_chain_step n i v d :
  v_desc v i = d -> 0 <= i < NUM -> v_free v i = false ->
  free_chain (S n) i v =
    let v' := set_free i true (set_desc i desc0 v) in
    if negb (Z.land (d_flags d) VRING_DESC_F_NEXT =? 0) then free_chain n (d_next d) v' else mret v'.
Proof. intros <- H E. cbn [free_chain]. by rewrite free_desc_spec. Qed.

(** The same state, up to the contents of free descriptors. *)
Definition set_df (D : Z -> virtq_desc) (F : Z -> bool) (v : vdisk) : vdisk :=
  VDisk D F (avail_ring v) (avail_idx v) (used_ring v) (used_ring_idx v) (used_idx v)
    (info_b v) (info_status v) (v_ops v) (bdisk v) (bdata v) (bblock v).
Definition undisturbed (v v' : vdisk) : Prop :=
  exists D F, v' = set_df D F v /\ (forall i, F i = v_free v i) /\ forall i, v_free v i = false -> D i = v_desc v i.

Lemma fupd_self {A} (f : Z -> A) i x j : f i = x -> fupd f i x j = f j.
Proof. intros <-. unfold fupd. by destruct (Z.eqb_spec j i) as [->|]. Qed.

Lemma alloc3_desc_spec v :
  (exists i0 i1 i2, alloc3_desc v = inr (Some (i0, i1, i2), set_free i2 false (set_free i1 false (set_free i0 false v)))
     /\ NoDup [i0; i1; i2] /\ forall i, i ∈ [i0; i1; i2] -> 0 <= i < NUM /\ v_free v i = true)
  \/ exists v', alloc3_desc v = inr (None, v') /\ undisturbed v v'
       /\ exists x y, forall i, 0 <= i < NUM -> v_free v i = true -> i = x \/ i = y.
Proof.
  unfold alloc3_desc.
  destruct (alloc_desc_spec v) as [(i0 & R0 & F0 & ->)|[Hnone ->]].
  2:{ right. exists v. split; [done|]. split; [by exists (v_desc v), (v_free v); destruct v|].
      exists 0, 0. intros i Hi E. rewrite Hnone in E; done. }
  rewrite (proj2 (Z.ltb_ge i0 0)) by lia.
  destruct (alloc_desc_spec (set_free i0 false v)) as [(i1 & R1 & F1 & ->)|[Hnone ->]]; vcbn.
  2:{ right. cbn [Z.ltb Z.compare]. rewrite free_desc_spec by (done || (vcbn; apply fupd_eq)). eexists. split; [done|]. split.
      - eexists _, _. split; [done|]. vcbn. split.
        + intros i. unfold fupd. by destruct (Z.eqb_spec i i0) as [->|].
        + intros i Hi. apply fupd_ne. intros ->. congruence.
      - exists i0, i0. intros i Hi E. destruct (decide (i = i0)); [by left|]. specialize (Hnone i Hi). rewrite fupd_ne in Hnone; congruence. }
  assert (i1 <> i0) as H10 by (intros ->; by rewrite fupd_eq in F1). rewrite fupd_ne in F1 by done.
  rewrite (proj2 (Z.ltb_ge i1 0)) by lia.
  destruct (alloc_desc_spec (set_free i1 false (set_free i0 false v))) as [(i2 & R2 & F2 & ->)|[Hnone ->]]; vcbn.
  2:{ right. cbn [Z.ltb Z.compare]. unfold mbind, V_bind.
      rewrite free_desc_spec by (done || (vcbn; rewrite fupd_ne by done; apply fupd_eq)).
      rewrite free_desc_spec by (done || (vcbn; rewrite fupd_ne by done; apply fupd_eq)). eexists. split; [done|]. split.
      - eexists _, _. split; [done|]. vcbn. split.
        + intros i. unfold fupd. destruct (Z.eqb_spec i i1) as [->|]; [done|]. by destruct (Z.eqb_spec i i0) as [->|].
        + intros i Hi. rewrite !fupd_ne; [done| |]; intros ->; congruence.
      - exists i0, i1. intros i Hi E. destruct (decide (i = i0)); [by left|]. destruct (decide (i = i1)); [by right|].
        specialize (Hnone i Hi). rewrite !fupd_ne in Hnone; congruence. }
  assert (i2 <> i1) as H21 by (intros ->; by rewrite fupd_eq in F2). rewrite fupd_ne in F2 by done.
  assert (i2 <> i0) as H20 by (intros ->; by rewrite fupd_eq in F2). rewrite fupd_ne in F2 by done.
  rewrite (proj2 (Z.ltb_ge i2 0)) by lia. left. exists i0, i1, i2. split; [done|]. split.
  - rewrite !NoDup_cons, !elem_of_cons, !elem_of_nil. split_and!; [intuition congruence..|apply NoDup_nil_2].
  - intros i Hi. rewrite !elem_of_cons, elem_of_nil in Hi. destruct Hi as [->|[->|[->|[]]]]; done.
Qed.

(** *** Every step keeps the invariant *)
Section steps.
Context (s : sysv) (a : adisk) (sub tak com fin : list flight).
Hypothesis I : vinv s a sub tak com fin.

Let fs : list flight := sub ++ tak ++ com ++ fin.

Lemma in_use i f : f ∈ fs -> i ∈ idxs f -> 0 <= i < NUM /\ v_free (vv s) i = false.
Proof using I.
  intros Hf Hi. assert (i ∈ ids fs) as Hin by (apply elem_of_ids; eauto).
  pose proof (vi_range _ _ _ _ _ _ I i Hin) as Hr. split; [done|].
  destruct (v_free (vv s) i) eqn:E; [|done]. by apply (vi_free _ _ _ _ _ _ I i Hr) in E.
Qed.
Lemma not_called b : calls s !! b = None -> b ∉ f_b <$> fs.
Proof using I.
  intros Hb (f & -> & Hf)%list_elem_of_fmap. assert (calls s !! f_b f = Some (f_0 f)) as E; [|congruence].
  apply (vi_calls _ _ _ _ _ _ I). eauto.
Qed.

(** A call that finds too few descriptors leaves everything as it was. *)
Lemma undisturbed_inv v' : undisturbed (vv s) v' -> vinv (SysV v' (dd s) (calls s)) a sub tak com fin.
Proof using I.
  intros (D & F & -> & HF & HD). destruct I as [Hsh ? ? Hfr ? ? ? ? ? ? ? ? ? ? ? ?]. split; try done.
  - intros f Hf. apply (shape_frame (vv s)); try done; [|by apply Hsh]. intros i Hi. apply HD.
    by apply (in_use i f).
  - intros i Hi. vcbn. cbn [set_df v_free]. rewrite HF. by apply Hfr.
Qed.

Lemma ring_push ring from upto x f :
  ring_holds ring from upto x -> (length x < 8)%nat ->
  ring_holds (fupd ring (upto mod NUM) (f_0 f)) from (u16 (upto + 1)) (x ++ [f]).
Proof using.
  clear. intros (T & H0 & Hf & Hu & Hr) Hl. exists T. rewrite Hu, length_app. cbn [length].
  assert (forall y, u16 y mod NUM = y mod NUM) as Hm.
  { intros y. unfold u16, NUM. change (2 ^ 16) with (8 * 8192). dlia. }
  split_and!; [done|done| |].
  - unfold u16. rewrite Zplus_mod_idemp_l. f_equal. lia.
  - intros k g Hk. rewrite Hm. apply lookup_app_Some in Hk as [Hk|[Hk Hg]].
    + apply lookup_lt_Some in Hk as Hlt. rewrite fupd_ne; [by apply Hr|]. unfold NUM. dlia.
    + apply list_lookup_singleton_Some in Hg as [Ek <-]. replace k with (length x) by lia. apply fupd_eq.
Qed.
Lemma ring_pop ring from upto f x :
  ring_holds ring from upto (f :: x) ->
  ring (from mod NUM) = f_0 f /\ ring_holds ring (u16 (from + 1)) upto x /\ ((length x < 8)%nat -> from <> upto).
Proof using.
  clear. intros (T & H0 & Hf & Hu & Hr). cbn [length] in Hu.
  assert (forall y, u16 y mod NUM = y mod NUM) as Hm.
  { intros y. unfold u16, NUM. change (2 ^ 16) with (8 * 8192). dlia. }
  split; [|split].
  - rewrite Hf, Hm. specialize (Hr O f eq_refl). by rewrite Z.add_0_r in Hr.
  - exists (T + 1). split_and!; [lia| | |].
    + rewrite Hf. unfold u16. by rewrite Zplus_mod_idemp_l.
    + rewrite Hu. f_equal. lia.
    + intros k g Hk. specialize (Hr (S k) g Hk). rewrite <- Hr. f_equal. f_equal. lia.
  - intros Hl. rewrite Hf, Hu. unfold u16. dlia.
Qed.
Lemma ring_empty ring from upto : ring_holds ring from upto [] -> from = upto.
Proof using. clear. intros (T & H0 & -> & -> & _). cbn. by rewrite Z.add_0_r. Qed.

(** At most two chains are in flight. *)
Lemma few : (length fs <= 2)%nat.
Proof using I. apply flights_few; [apply (vi_nodup _ _ _ _ _ _ I)|apply (vi_range _ _ _ _ _ _ I)]. Qed.

(** A call that gets its descriptors. *)
Lemma submit_inv b w i0 i1 i2 :
  calls s !! b = None -> NoDup [i0; i1; i2] ->
  (forall i, i ∈ [i0; i1; i2] -> 0 <= i < NUM /\ v_free (vv s) i = true) ->
  let v' := submit b w (i0, i1, i2) (set_free i2 false (set_free i1 false (set_free i0 false (vv s)))) in
  a_step (AStart b w) a = Some (ADisk (a_store a) (a_data a) (a_block a) (<[b := (w, false)]> (a_reqs a)), [OStart b w])
  /\ vinv (SysV v' (dd s) (<[b := i0]> (calls s)))
       (ADisk (a_store a) (a_data a) (a_block a) (<[b := (w, false)]> (a_reqs a)))
       (sub ++ [Flight b w i0 i1 i2]) tak com fin.
Proof using I.
  intros Hb Hn Hi v'. pose proof (not_called b Hb) as Hnb. pose proof few as Hfew. set (f := Flight b w i0 i1 i2).
  assert ((sub ++ [f]) ++ tak ++ com ++ fin ≡ₚ f :: fs) as HP.
  { rewrite <- app_assoc. cbn [app]. by rewrite <- Permutation_middle. }
  assert (a_reqs a !! b = None) as Hab by (by apply (vi_none _ _ _ _ _ _ I)).
  split; [cbn [a_step]; by rewrite Hab|].
  assert (forall i, i ∈ [i0; i1; i2] -> i ∉ ids fs) as Hni.
  { intros i Hin. destruct (Hi i Hin) as [Hr Hf]. by apply (vi_free _ _ _ _ _ _ I). }
  assert (forall g, g ∈ fs -> f_b g <> b) as Hgb by (intros g Hg <-; apply Hnb, list_elem_of_fmap; eauto).
  assert (forall g i j, g ∈ fs -> i ∈ idxs g -> j ∈ [i0; i1; i2] -> i <> j) as Hdiff.
  { intros g i j Hg Hig Hj ->. apply (Hni j Hj), elem_of_ids. eauto. }
  assert (i0 <> i1 /\ i0 <> i2 /\ i1 <> i2) as (D01 & D02 & D12).
  { rewrite !NoDup_cons, !elem_of_cons, !elem_of_nil in Hn. tauto. }
  destruct I as [Hsh Hnd Hrg Hfr Hbf Hdk Hdn Hst Hav Hus Htk Hcl Hab3 Htd Hpf Hno].
  split.
  - intros g Hg. rewrite HP in Hg. apply elem_of_cons in Hg as [->|Hg].
    + split; unfold v', submit, f; vcbn; cbn [f_0 f_1 f_2 f_b f_w]; rewrite ?fupd_eq, ?fupd_ne, ?fupd_eq by done; try done.
    + apply (shape_frame (vv s)); [| | | |by apply Hsh]; unfold v', submit; vcbn.
      * intros i Hig. rewrite !fupd_ne; [done|..]; apply (Hdiff g); try done; set_solver.
      * rewrite fupd_ne; [done|]. apply (Hdiff g); [done|..]; set_solver.
      * rewrite fupd_ne; [done|]. apply (Hdiff g); [done|..]; set_solver.
      * done.
  - rewrite (ids_perm _ _ HP), ids_cons. apply NoDup_app. split_and!; [done| |done]. exact Hni.
  - intros i. rewrite (ids_perm _ _ HP), ids_cons, elem_of_app. intros [H|H]; [by apply Hi|by apply Hrg].
  - intros i Hr. rewrite (ids_perm _ _ HP), ids_cons, elem_of_app. unfold v', submit, idxs, f. vcbn. cbn [f_0 f_1 f_2].
    rewrite !elem_of_cons, elem_of_nil. unfold fupd.
    destruct (Z.eqb_spec i i2) as [->|]; [naive_solver|]. destruct (Z.eqb_spec i i1) as [->|]; [naive_solver|].
    destruct (Z.eqb_spec i i0) as [->|]; [naive_solver|]. rewrite (Hfr i Hr). unfold fs. tauto.
  - rewrite HP. cbn [fmap list_fmap]. apply NoDup_cons. split; done.
  - intros g Hg. unfold v', submit. vcbn. unfold fupd. destruct (Z.eqb_spec (f_b g) b); [done|].
    apply Hdk. rewrite !elem_of_app, elem_of_cons, elem_of_nil in Hg. rewrite !elem_of_app. destruct Hg as [[?|[->|[]]]|?]; (tauto || by cbn in *).
  - intros g Hg. unfold v', submit. vcbn. rewrite fupd_ne; [by apply Hdn|]. apply Hgb. unfold fs. set_solver.
  - intros g Hg. unfold v', submit. vcbn. rewrite fupd_ne; [by apply Hst|].
    apply (Hdiff g); [unfold fs; set_solver|unfold idxs; set_solver|set_solver].
  - unfold v', submit. vcbn. apply (ring_push _ _ _ _ f Hav). unfold fs in Hfew. rewrite !length_app in Hfew. lia.
  - done.
  - done.
  - intros c i. vcbn. destruct (decide (c = b)) as [->|Hne].
    + rewrite lookup_insert_eq. split.
      * intros [= <-]. exists f. split; [rewrite HP; by left|done].
      * intros (g & Hg & Eb & <-). rewrite HP in Hg. apply elem_of_cons in Hg as [->|Hg]; [done|]. by apply Hgb in Hg.
    + rewrite lookup_insert_ne, Hcl by done. split; intros (g & Hg & Eb & Ei); exists g; (split; [|done]).
      * rewrite HP. by right.
      * rewrite HP in Hg. apply elem_of_cons in Hg as [->|Hg]; [by cbn in Eb|done].
  - done.
  - intros g Hg. vcbn. destruct (decide (f_b g = b)) as [Eb|Hne].
    + assert (g = f) as ->; [|by rewrite lookup_insert_eq].
      assert (g ∈ f :: fs) as [|Hg']%elem_of_cons by (rewrite <- HP; set_solver); [done|]. by apply Hgb in Hg'.
    + rewrite lookup_insert_ne by done. apply Htd.
      rewrite !elem_of_app, elem_of_cons, elem_of_nil in Hg. rewrite !elem_of_app. destruct Hg as [[?|[->|[]]]|?]; (tauto || by cbn in *).
  - intros g Hg. vcbn. rewrite lookup_insert_ne; [by apply Hpf|]. apply not_eq_sym, Hgb. unfold fs. set_solver.
  - intros c Hc. vcbn. rewrite HP in Hc. cbn [fmap list_fmap] in Hc. apply not_elem_of_cons in Hc as [Hc1 Hc2].
    rewrite lookup_insert_ne by (by apply not_eq_sym). by apply Hno.
Qed.

(** The device takes the next chain of the available ring. *)
Lemma take_inv : exists sub' tak', vinv (SysV (vv s) (dev_take (vv s) (dd s)) (calls s)) a sub' tak' com fin.
Proof using I.
  unfold dev_take. destruct (Z.eqb_spec (last_avail (dd s)) (avail_idx (vv s))) as [E|E].
  { exists sub, tak. by destruct s. }
  pose proof few as Hfew. unfold fs in Hfew.
  destruct I as [Hsh Hnd Hrg Hfr Hbf Hdk Hdn Hst Hav Hus Htk Hcl Hab3 Htd Hpf Hno].
  destruct sub as [|f sub']; [by apply ring_empty in Hav|]. exists sub', (tak ++ [f]).
  apply ring_pop in Hav as (Er & Hav & _).
  assert (sub' ++ (tak ++ [f]) ++ com ++ fin ≡ₚ (f :: sub') ++ tak ++ com ++ fin) as HP.
  { rewrite <- app_assoc. cbn [app]. by rewrite <- !Permutation_middle. }
  split; vcbn.
  - intros g Hg. apply Hsh. by rewrite <- HP.
  - by rewrite (ids_perm _ _ HP).
  - intros i. rewrite (ids_perm _ _ HP). apply Hrg.
  - intros i. rewrite (ids_perm _ _ HP). apply Hfr.
  - by rewrite HP.
  - intros g Hg. apply Hdk. set_solver.
  - done.
  - done.
  - done.
  - done.
  - by rewrite Er, Htk, fmap_app.
  - intros b i. rewrite Hcl. by setoid_rewrite HP.
  - done.
  - intros g Hg. apply Htd. set_solver.
  - done.
  - intros b. rewrite HP. apply Hno.
Qed.

(** The device performs a chain it has taken: the transfer of its request happens. *)
Lemma perform_inv h :
  h ∈ taken (dd s) ->
  exists v' d' b a' tak' com', dev_perform h (vv s) (dd s) = Some (v', d')
    /\ a_step (APerform b) a = Some (a', []) /\ vinv (SysV v' d' (calls s)) a' sub tak' com' fin.
Proof using I.
  pose proof few as Hfew. unfold fs in Hfew. pose proof in_use as Huse. unfold fs in Huse.
  destruct I as [Hsh Hnd Hrg Hfr Hbf Hdk Hdn Hst Hav Hus Htk Hcl (Ha1 & Ha2 & Ha3) Htd Hpf Hno].
  rewrite Htk. intros (f & -> & Hf)%list_elem_of_fmap.
  apply list_elem_of_split in Hf as (t1 & t2 & ->).
  pose proof (Hsh f ltac:(set_solver)) as [S0 S1 S2 S3 S4].
  assert (sub ++ (t1 ++ t2) ++ (com ++ [f]) ++ fin ≡ₚ sub ++ (t1 ++ f :: t2) ++ com ++ fin) as HP.
  { apply Permutation_app_head. rewrite <- !app_assoc. cbn [app]. apply Permutation_app_head.
    by rewrite <- !Permutation_middle. }
  assert (forall g, g ∈ sub ++ (t1 ++ t2) ++ com ++ fin -> f_b g <> f_b f /\ forall i, i ∈ idxs g -> i ∉ idxs f) as Hother.
  { intros g Hg. assert (sub ++ (t1 ++ f :: t2) ++ com ++ fin ≡ₚ f :: sub ++ (t1 ++ t2) ++ com ++ fin) as HP'.
    { rewrite <- !app_assoc. cbn [app]. by rewrite <- !Permutation_middle. }
    rewrite HP' in Hbf. rewrite (ids_perm _ _ HP'), ids_cons in Hnd. cbn [fmap list_fmap] in Hbf. split.
    - apply NoDup_cons in Hbf as [Hbf _]. intros E. apply Hbf. rewrite <- E. apply list_elem_of_fmap. eauto.
    - intros i Hi Hi'. apply NoDup_app in Hnd as (_ & Hnd & _). apply (Hnd i Hi'). apply elem_of_ids. eauto. }
  assert (filter (fun x => x <> f_0 f) (f_0 <$> t1 ++ f :: t2) = f_0 <$> t1 ++ t2) as Hfil.
  { apply heads_filter. intros g Hg E. destruct (Hother g ltac:(set_solver)) as [_ Hx].
    apply (Hx (f_0 g)); unfold idxs; [by left|rewrite E; by left]. }
  assert (forall v2, v_desc v2 = v_desc (vv s) -> v_ops v2 = v_ops (vv s) -> info_b v2 = info_b (vv s) ->
    bblock v2 = bblock (vv s) -> forall g, g ∈ sub ++ (t1 ++ t2) ++ (com ++ [f]) ++ fin -> shape v2 g) as Hshape.
  { intros v2 E1 E2 E3 E4 g Hg. apply (shape_frame (vv s)); [by rewrite E1|by rewrite E2|by rewrite E3|by rewrite E4|].
    apply Hsh. by rewrite <- HP. }
  assert (forall g, g ∈ com ++ [f] -> fupd (info_status (vv s)) (f_0 f) 0 (f_0 g) = 0) as Hstat.
  { intros g Hg. unfold fupd. destruct (Z.eqb_spec (f_0 g) (f_0 f)); [done|].
    apply elem_of_app in Hg as [Hg|Hg%list_elem_of_singleton]; [by apply Hst|by subst]. }
  assert (a_reqs a !! f_b f = Some (f_w f, false)) as Hreq by (apply Htd; set_solver).
  assert (forall g w, g ∈ sub ++ (t1 ++ t2) -> <[f_b f := (w, true)]> (a_reqs a) !! f_b g = Some (f_w g, false)) as Htodo.
  { intros g w Hg. rewrite lookup_insert_ne; [apply Htd; set_solver|]. apply not_eq_sym, Hother. set_solver. }
  assert (forall g, g ∈ (com ++ [f]) ++ fin -> <[f_b f := (f_w f, true)]> (a_reqs a) !! f_b g = Some (f_w g, true)) as Hperf.
  { intros g Hg. destruct (decide (g = f)) as [->|Hne]; [by rewrite lookup_insert_eq|].
    rewrite lookup_insert_ne; [apply Hpf; set_solver|]. apply not_eq_sym, Hother. set_solver. }
  assert (forall b w, b ∉ f_b <$> sub ++ (t1 ++ t2) ++ (com ++ [f]) ++ fin -> <[f_b f := (w, true)]> (a_reqs a) !! b = None) as Hnone.
  { intros b w Hb. rewrite HP in Hb. rewrite lookup_insert_ne; [by apply Hno|]. intros <-. apply Hb.
    apply list_elem_of_fmap. exists f. set_solver. }
  assert (forall g, g ∈ sub ++ (t1 ++ t2) ++ com ++ [f] -> bdisk (vv s) (f_b g) = true) as Hbd.
  { intros g Hg. apply Hdk. set_solver. }
  rewrite length_app in Hfew. rewrite !length_app in Hfew.
  unfold dev_perform. rewrite S0. cbn [d_next d_addr d_len d_flags]. rewrite S1. cbn [d_next d_addr d_len d_flags].
  rewrite S2. cbn [d_next d_addr d_len d_flags]. rewrite S3.
  destruct (f_w f) eqn:Ew.
  - eexists _, _, (f_b f), _, (t1 ++ t2), (com ++ [f]). split; [reflexivity|].
    split; [cbn [a_step]; rewrite Hreq; reflexivity|]. split; vcbn; try done.
    + by apply Hshape.
    + by rewrite (ids_perm _ _ HP).
    + intros i. rewrite (ids_perm _ _ HP). apply Hrg.
    + intros i. rewrite (ids_perm _ _ HP). apply Hfr.
    + by rewrite HP.
    + apply ring_push; [done|lia].
    + by rewrite Htk, Hfil.
    + intros b i. rewrite Hcl. by setoid_rewrite HP.
    + rewrite Ha1, Ha2, Ha3. done.
    + intros g Hg. by apply Htodo.
    + intros b Hb. by apply Hnone.
  - eexists _, _, (f_b f), _, (t1 ++ t2), (com ++ [f]). split; [reflexivity|].
    split; [cbn [a_step]; rewrite Hreq; reflexivity|]. split; vcbn; try done.
    + by apply Hshape.
    + by rewrite (ids_perm _ _ HP).
    + intros i. rewrite (ids_perm _ _ HP). apply Hrg.
    + intros i. rewrite (ids_perm _ _ HP). apply Hfr.
    + by rewrite HP.
    + apply ring_push; [done|lia].
    + by rewrite Htk, Hfil.
    + intros b i. rewrite Hcl. by setoid_rewrite HP.
    + rewrite Ha1, Ha2, Ha3. done.
    + intros g Hg. by apply Htodo.
    + intros b Hb. by apply Hnone.
Qed.

(** A buffer that no call uses is written, or given to another block. *)
Lemma touch_inv b blk data :
  calls s !! b = None ->
  let v := set_bdata b data (vv s) in
  let v' := VDisk (v_desc v) (v_free v) (avail_ring v) (avail_idx v) (used_ring v) (used_ring_idx v) (used_idx v)
              (info_b v) (info_status v) (v_ops v) (bdisk v) (bdata v) (fupd (bblock v) b blk) in
  exists a', a_step (ATouch b blk data) a = Some (a', []) /\ vinv (SysV v' (dd s) (calls s)) a' sub tak com fin.
Proof using I.
  intros Hb v v'. pose proof (not_called b Hb) as Hnb. unfold fs in Hnb.
  destruct I as [Hsh Hnd Hrg Hfr Hbf Hdk Hdn Hst Hav Hus Htk Hcl (Ha1 & Ha2 & Ha3) Htd Hpf Hno].
  cbn [a_step]. rewrite (Hno b Hnb). eexists. split; [reflexivity|]. split; try done.
  - intros g Hg. apply (shape_frame (vv s)); try done; [|by apply Hsh]. unfold v', v. vcbn. rewrite fupd_ne; [done|].
    intros <-. apply Hnb, list_elem_of_fmap. eauto.
  - unfold v', v. vcbn. by rewrite Ha1, Ha2, Ha3.
Qed.

(** A waiting caller runs: either its chain has not been reported yet, or its
    request has been performed and its descriptors become free. *)
Lemma finish_inv b i0 :
  calls s !! b = Some i0 ->
  rw_finish b i0 (vv s) = inr (false, vv s)
  \/ exists v' a' fin', rw_finish b i0 (vv s) = inr (true, v') /\ a_step (AReturn b) a = Some (a', [OReturn b])
       /\ vinv (SysV v' (dd s) (delete b (calls s))) a' sub tak com fin'.
Proof using I.
  intros Hb. pose proof in_use as Huse. unfold fs in Huse. unfold rw_finish.
  destruct I as [Hsh Hnd Hrg Hfr Hbf Hdk Hdn Hst Hav Hus Htk Hcl (Ha1 & Ha2 & Ha3) Htd Hpf Hno].
  apply Hcl in Hb as (f & Hf & <- & <-). destruct (bdisk (vv s) (f_b f)) eqn:Ed; [by left|right].
  assert (f ∈ fin) as Hfin.
  { rewrite !app_assoc in Hf. apply elem_of_app in Hf as [Hf|Hf]; [|done]. rewrite <- app_assoc in Hf. rewrite Hdk in Ed; done. }
  apply list_elem_of_split in Hfin as (x & y & ->).
  assert (sub ++ tak ++ com ++ x ++ f :: y ≡ₚ f :: sub ++ tak ++ com ++ x ++ y) as HP by (by rewrite <- !Permutation_middle).
  set (fs' := sub ++ tak ++ com ++ x ++ y) in *.
  pose proof (Hsh f Hf) as [S0 S1 S2 S3 S4].
  rewrite (ids_perm _ _ HP), ids_cons in Hnd. apply NoDup_app in Hnd as (N1 & N2 & N3).
  rewrite HP in Hbf. cbn [fmap list_fmap] in Hbf. apply NoDup_cons in Hbf as [B1 B2].
  assert (f_0 f <> f_1 f /\ f_0 f <> f_2 f /\ f_1 f <> f_2 f) as (D01 & D02 & D12).
  { unfold idxs in N1. rewrite !NoDup_cons, !elem_of_cons, !elem_of_nil in N1. tauto. }
  assert (forall i, i ∈ idxs f -> 0 <= i < NUM /\ v_free (vv s) i = false) as Hu by (intros i Hi; by apply (Huse i f)).
  unfold idxs in Hu.
  destruct (Hu (f_0 f) ltac:(three)) as [R0 F0], (Hu (f_1 f) ltac:(three)) as [R1 F1], (Hu (f_2 f) ltac:(three)) as [R2 F2].
  assert (negb (Z.land (Z.lor (if f_w f then 0 else VRING_DESC_F_WRITE) VRING_DESC_F_NEXT) VRING_DESC_F_NEXT =? 0) = true) as Hflag
    by (by destruct (f_w f)).
  set (v0 := set_info (f_0 f) None (vv s)).
  set (v1 := set_free (f_0 f) true (set_desc (f_0 f) desc0 v0)).
  set (v2 := set_free (f_1 f) true (set_desc (f_1 f) desc0 v1)).
  set (v3 := set_free (f_2 f) true (set_desc (f_2 f) desc0 v2)).
  assert (free_chain (Z.to_nat NUM) (f_0 f) v0 = inr v3) as ->.
  { change (Z.to_nat NUM) with 8%nat.
    rewrite (free_chain_step 7 (f_0 f) v0 _ S0 R0 F0). fold v1. cbn [d_flags d_next].
    rewrite (free_chain_step 6 (f_1 f) v1 (v_desc (vv s) (f_1 f))), S1;
      [|by unfold v1; vcbn; rewrite fupd_ne|done|by unfold v1; vcbn; rewrite fupd_ne]. fold v2. cbn [d_flags d_next].
    rewrite Hflag.
    rewrite (free_chain_step 5 (f_2 f) v2 (v_desc (vv s) (f_2 f))), S2;
      [done|by unfold v2, v1; vcbn; rewrite !fupd_ne|done|by unfold v2, v1; vcbn; rewrite !fupd_ne]. }
  cbn [mbind V_bind]. eexists v3, _, (x ++ y). split; [done|].
  split; [cbn [a_step]; rewrite (Hpf f) by apps; reflexivity|].
  assert (forall g i, g ∈ fs' -> i ∈ idxs g -> i <> f_0 f /\ i <> f_1 f /\ i <> f_2 f) as Hdiff.
  { intros g i Hg Hi. assert (i ∈ ids fs') as Hin by (apply elem_of_ids; eauto). unfold idxs in N2.
    split_and!; intros ->; (eapply N2; [|exact Hin]); three. }
  assert (forall g, g ∈ fs' -> f_b g <> f_b f) as Hgb by (intros g Hg E; apply B1; rewrite <- E; apply list_elem_of_fmap; eauto).
  split; fold fs'.
  - intros g Hg. apply (shape_frame (vv s)); [| | | |apply Hsh; rewrite HP; by right]; unfold v3, v2, v1, v0; vcbn; try done.
    + intros i Hi. destruct (Hdiff g i Hg Hi) as (? & ? & ?). by rewrite !fupd_ne.
    + rewrite fupd_ne; [done|]. apply (Hdiff g); [done|unfold idxs; by left].
  - done.
  - intros i Hi. apply Hrg. rewrite (ids_perm _ _ HP), ids_cons. apply elem_of_app. by right.
  - intros i Hr. unfold v3, v2, v1, v0. vcbn. specialize (Hfr i Hr). rewrite (ids_perm _ _ HP), ids_cons, elem_of_app in Hfr.
    unfold fupd. unfold idxs in Hfr, N2. rewrite !elem_of_cons, elem_of_nil in Hfr.
    destruct (Z.eqb_spec i (f_2 f)) as [->|]; [split; [intros _; apply N2; three|done]|].
    destruct (Z.eqb_spec i (f_1 f)) as [->|]; [split; [intros _; apply N2; three|done]|].
    destruct (Z.eqb_spec i (f_0 f)) as [->|]; [split; [intros _; apply N2; three|done]|]. rewrite Hfr. tauto.
  - done.
  - exact Hdk.
  - intros g Hg. apply Hdn. apps.
  - exact Hst.
  - exact Hav.
  - exact Hus.
  - exact Htk.
  - intros b i. vcbn. rewrite lookup_delete_Some, Hcl. setoid_rewrite HP. split.
    + intros [Hne (g & Hg & Eb & Ei)]. apply elem_of_cons in Hg as [->|Hg]; [done|]. eauto.
    + intros (g & Hg & <- & <-). split; [by apply not_eq_sym, Hgb|]. exists g. split; [by right|done].
  - done.
  - intros g Hg. vcbn. rewrite lookup_delete_ne; [by apply Htd|]. apply not_eq_sym, Hgb. unfold fs'. apps.
  - intros g Hg. vcbn. rewrite lookup_delete_ne; [apply Hpf; apps|]. apply not_eq_sym, Hgb. unfold fs'. apps.
  - intros b Hb. vcbn. destruct (decide (b = f_b f)) as [->|Hne]; [apply lookup_delete_eq|].
    rewrite lookup_delete_ne by done. apply Hno. rewrite HP. cbn [fmap list_fmap]. by apply not_elem_of_cons.
Qed.
End steps.

(** The interrupt handler reports one chain. *)
Lemma intr_one s a sub tak f com fin :
  vinv s a sub tak (f :: com) fin ->
  let v := vv s in
  (used_idx v =? used_ring_idx v) = false /\ info_status v (used_ring v (used_idx v mod NUM)) = 0
  /\ info_b v (used_ring v (used_idx v mod NUM)) = Some (f_b f)
  /\ vinv (SysV (set_used (used_ring v) (used_ring_idx v) (u16 (used_idx v + 1)) (set_bdisk (f_b f) false v)) (dd s) (calls s))
       a sub tak com (f :: fin).
Proof.
  intros I v. pose proof (few _ _ _ _ _ _ I) as Hfew. rewrite !length_app in Hfew. cbn [length] in Hfew.
  destruct I as [Hsh Hnd Hrg Hfr Hbf Hdk Hdn Hst Hav Hus Htk Hcl Hab3 Htd Hpf Hno].
  destruct (ring_pop _ _ _ _ _ Hus) as (Er & Hus' & Hne). fold v in Er, Hus', Hne.
  assert (sub ++ tak ++ com ++ f :: fin ≡ₚ sub ++ tak ++ (f :: com) ++ fin) as HP.
  { cbn [app]. by rewrite <- !Permutation_middle. }
  split_and!.
  - apply Z.eqb_neq, Hne. lia.
  - rewrite Er. apply Hst. by left.
  - rewrite Er. apply (Hsh f). set_solver.
  - assert (sub ++ tak ++ (f :: com) ++ fin ≡ₚ f :: sub ++ tak ++ com ++ fin) as HP2.
    { cbn [app]. by rewrite <- !Permutation_middle. }
    assert (forall g, g ∈ sub ++ tak ++ com ++ fin -> f_b g <> f_b f) as Hgb.
    { rewrite HP2 in Hbf. cbn [fmap list_fmap] in Hbf. apply NoDup_cons in Hbf as [B1 _].
      intros g Hg E. apply B1. rewrite <- E. apply list_elem_of_fmap. eauto. }
    split; vcbn; try done.
    + intros g Hg. apply (shape_frame (vv s)); try done. apply Hsh. by rewrite <- HP.
    + by rewrite (ids_perm _ _ HP).
    + intros i. rewrite (ids_perm _ _ HP). apply Hrg.
    + intros i. rewrite (ids_perm _ _ HP). apply Hfr.
    + by rewrite HP.
    + intros g Hg. rewrite fupd_ne; [apply Hdk; set_solver|]. apply Hgb. set_solver.
    + intros g [->|Hg]%elem_of_cons; [apply fupd_eq|]. rewrite fupd_ne; [by apply Hdn|]. apply Hgb. set_solver.
    + intros g Hg. apply Hst. by right.
    + intros b i. rewrite Hcl. by setoid_rewrite HP.
    + intros g Hg. apply Hpf. set_solver.
    + intros b. rewrite HP. apply Hno.
Qed.
Lemma intr_inv fuel s a sub tak com fin :
  vinv s a sub tak com fin -> (length com < fuel)%nat ->
  exists v' fin', intr_loop fuel (vv s) = inr v' /\ vinv (SysV v' (dd s) (calls s)) a sub tak [] fin'.
Proof.
  revert s com fin. induction fuel as [|fuel IH]; intros s com fin I Hf; [lia|]. cbn [intr_loop].
  destruct com as [|f com].
  - pose proof (ring_empty _ _ _ (vi_used _ _ _ _ _ _ I)) as ->. rewrite Z.eqb_refl. exists (vv s), fin.
    split; [done|]. by destruct s.
  - destruct (intr_one _ _ _ _ _ _ _ I) as (-> & -> & -> & I'). cbn [negb Z.eqb].
    destruct (IH _ _ _ I' ltac:(cbn in Hf; lia)) as (v' & fin' & E & I''). exists v', fin'. vcbn. done.
Qed.

(** ** The driver refines the atomic disk *)
Lemma a_run_one o a a' out : a_step o a = Some (a', out) -> a_run [o] a = Some (a', out).
Proof. intros E. cbn [a_run]. rewrite E. cbn. by rewrite app_nil_r. Qed.
Lemma a_run_app l1 l2 a a1 a2 o1 o2 :
  a_run l1 a = Some (a1, o1) -> a_run l2 a1 = Some (a2, o2) -> a_run (l1 ++ l2) a = Some (a2, o1 ++ o2).
Proof.
  revert a o1. induction l1 as [|o l1 IH]; intros a o1 E1 E2; cbn [app a_run] in *.
  { injection E1 as -> <-. done. }
  destruct (a_step o a) as [[a3 o3]|]; [|done]. cbn [mbind option_bind] in *.
  destruct (a_run l1 a3) as [[a4 o4]|] eqn:E3; [|done]. cbn in E1. injection E1 as -> <-.
  rewrite (IH a3 o4 E3 E2). cbn. by rewrite app_assoc.
Qed.

Definition vgood (s : sysv) (a : adisk) : Prop := exists sub tak com fin, vinv s a sub tak com fin.

Lemma step_sim o s a :
  vgood s a ->
  exists s' out aops a', v_step o s = inr (s', out) /\ a_run aops a = Some (a', out) /\ vgood s' a'.
Proof.
  intros (sub & tak & com & fin & I). destruct o as [b w| |h| |b|b blk data]; cbn [v_step].
  - destruct (calls s !! b) as [i|] eqn:Eb; [exists s, [], [], a; split_and!; [done|done|by exists sub, tak, com, fin]|].
    unfold rw_start. destruct (alloc3_desc_spec (vv s)) as [(i0 & i1 & i2 & -> & Hn & Hi)|(v' & -> & Hu & _)]; cbn [mbind V_bind].
    + destruct (submit_inv _ _ _ _ _ _ I b w i0 i1 i2 Eb Hn Hi) as [Ea I'].
      eexists _, _, [AStart b w], _. split; [done|]. split; [by apply a_run_one|]. by eexists _, _, _, _.
    + eexists _, [], [], a. split; [done|]. split; [done|]. eexists _, _, _, _. by apply undisturbed_inv.
  - eexists _, [], [], a. split; [done|]. split; [done|]. destruct (take_inv _ _ _ _ _ _ I) as (sub' & tak' & I').
    by eexists _, _, _, _.
  - case_bool_decide as Hh; [|exists s, [], [], a; split_and!; [done|done|by exists sub, tak, com, fin]].
    destruct (perform_inv _ _ _ _ _ _ I h Hh) as (v' & d' & b & a' & tak' & com' & -> & Ea & I').
    eexists _, [], [APerform b], a'. split; [done|]. split; [by apply a_run_one|]. by eexists _, _, _, _.
  - pose proof (few _ _ _ _ _ _ I) as Hfew. rewrite !length_app in Hfew.
    destruct (intr_inv (Z.to_nat NUM + 1) s a sub tak com fin I) as (v' & fin' & E & I'); [unfold NUM; lia|].
    unfold virtio_disk_intr. rewrite E. eexists _, [], [], a. split; [done|]. split; [done|]. by eexists _, _, _, _.
  - destruct (calls s !! b) as [i0|] eqn:Eb; [|exists s, [], [], a; split_and!; [done|done|by exists sub, tak, com, fin]].
    destruct (finish_inv _ _ _ _ _ _ I b i0 Eb) as [->|(v' & a' & fin' & -> & Ea & I')]; cbn [mbind V_bind].
    + eexists _, [], [], a. split; [done|]. split; [done|]. exists sub, tak, com, fin. by destruct s.
    + eexists _, _, [AReturn b], a'. split; [done|]. split; [by apply a_run_one|]. by eexists _, _, _, _.
  - destruct (calls s !! b) as [i|] eqn:Eb; [exists s, [], [], a; split_and!; [done|done|by exists sub, tak, com, fin]|].
    destruct (touch_inv _ _ _ _ _ _ I b blk data Eb) as (a' & Ea & I').
    eexists _, [], [ATouch b blk data], a'. split; [done|]. split; [by apply a_run_one|]. by eexists _, _, _, _.
Qed.

Lemma run_sim ops s a :
  vgood s a -> exists s' out aops a', v_run ops s = inr (s', out) /\ a_run aops a = Some (a', out) /\ vgood s' a'.
Proof.
  revert s a. induction ops as [|o ops IH]; intros s a Hg; cbn [v_run].
  { exists s, [], [], a. done. }
  destruct (step_sim o s a Hg) as (s1 & o1 & l1 & a1 & -> & E1 & Hg1). cbn [mbind V_bind].
  destruct (IH s1 a1 Hg1) as (s2 & o2 & l2 & a2 & -> & E2 & Hg2). cbn [mbind V_bind].
  exists s2, (o1 ++ o2), (l1 ++ l2), a2. split; [done|]. split; [by eapply a_run_app|done].
Qed.

(** The system after [virtio_disk_init]: the static variables are zero, the device has seen nothing. *)
Definition v_boot (v : vdisk) (st : Z -> list Z) : sysv := SysV (virtio_disk_init v) (Device st 0 []) ∅.
Definition a_boot (v : vdisk) (st : Z -> list Z) : adisk := ADisk st (bdata v) (bblock v) ∅.
Lemma boot_good v st : used_idx v = 0 -> vgood (v_boot v st) (a_boot v st).
Proof.
  intros H0. exists [], [], [], []. split; cbn [app fmap list_fmap]; try done; try set_solver.
  - apply NoDup_nil_2.
  - apply NoDup_nil_2.
  - by exists 0.
  - exists 0. cbn. rewrite H0. done.
Qed.


(** Two writes and a read, performed out of order. *)
Definition ex_vdisk : vdisk :=
  VDisk (fun _ => desc0) (fun _ => false) (fun _ => 0) 0 (fun _ => 0) 0 0 (fun _ => None) (fun _ => 0) (fun _ => (0, 0))
    (fun _ => false) (fun b => [b]) (fun b => 10 + b).
Definition ex_vops : list vop :=
  [VStart 1 true; VStart 2 true; VStart 3 false; VTake; VTake; VPerform 3; VIntr; VFinish 1; VFinish 2; VPerform 0;
   VStart 3 false; VIntr; VFinish 1; VTake; VPerform 3; VIntr; VFinish 3; VTouch 3 11 [7]; VStart 3 false; VTake; VPerform 0;
   VIntr; VFinish 3].
(** In that run everything returns, and the last read finds what was written to block 11. *)
Lemma virtio_example :
  match v_run ex_vops (v_boot ex_vdisk (fun _ => [])) with
  | inr (s', out) => (out, store (dd s') 22, store (dd s') 24, bdata (vv s') 3)
  | inl _ => ([], [], [], [])
  end
  = ([OStart 1 true; OStart 2 true; OReturn 2; OStart 3 false; OReturn 1; OReturn 3; OStart 3 false; OReturn 3],
     [1], [2], [1]).
Proof. by vm_compute. Qed.

(** A call gets its descriptors unless two others are in progress. *)
Lemma start_succeeds s a sub tak com fin :
  vinv s a sub tak com fin -> (length (sub ++ tak ++ com ++ fin) <= 1)%nat ->
  exists i0 i1 i2 v', alloc3_desc (vv s) = inr (Some (i0, i1, i2), v').
Proof.
  intros I Hlen. destruct (alloc3_desc_spec (vv s)) as [(i0 & i1 & i2 & E & _)|(v' & E & _ & x & y & Hxy)].
  { by exists i0, i1, i2, (set_free i2 false (set_free i1 false (set_free i0 false (vv s)))). }
  exfalso. set (fs := sub ++ tak ++ com ++ fin) in *.
  assert (seqZ 0 NUM ⊆+ ids fs ++ [x; y]) as Hs.
  { apply NoDup_submseteq; [apply NoDup_seqZ|]. intros i Hi%elem_of_seqZ. apply elem_of_app.
    destruct (decide (i ∈ ids fs)) as [|Hn]; [by left|right].
    assert (v_free (vv s) i = true) as Hfree by (apply (vi_free _ _ _ _ _ _ I); [lia|done]).
    destruct (Hxy i ltac:(lia) Hfree) as [->| ->]; set_solver. }
  apply submseteq_length in Hs. rewrite length_app, ids_length, length_seqZ in Hs. cbn [length] in Hs. unfold NUM in Hs. lia.
Qed.

(** ** Finding the device *)
Definition VIRTIO_MMIO_STATUS : Z := 112.
(** The feature bits the driver does not want. *)
Definition unwanted : list Z := [5; 7; 11; 12; 27; 29; 28].
Definition negotiate (features : Z) : Z := fold_left (fun f k => Z.land f (Z.lnot (Z.shiftl 1 k))) unwanted features.
(** The registers written by [virtio_disk_init], in order; [R] gives what the reads
    return, [pages] is the address of [disk.pages]. *)
Definition init_regs (R : Z -> Z) (pages : Z) : V (list (Z * Z)) :=
  if negb (R 0 =? 1953655158) || negb (R 4 =? 1) || negb (R 8 =? 2) || negb (R 12 =? 1431127377)
  then inl "could not find virtio disk"%string
  else
    let max := R 52 in
    if max =? 0 then inl "virtio disk has no queue 0"%string
    else if max <? NUM then inl "virtio disk max queue too short"%string
    else inr [(VIRTIO_MMIO_STATUS, 1); (VIRTIO_MMIO_STATUS, Z.lor 1 2); (32, u32 (negotiate (R 16)));
              (VIRTIO_MMIO_STATUS, Z.lor (Z.lor 1 2) 8); (VIRTIO_MMIO_STATUS, Z.lor (Z.lor (Z.lor 1 2) 8) 4);
              (40, 4096); (48, 0); (56, NUM); (64, u32 (Z.shiftr pages 12))].

(** The features accepted are features offered, without the unwanted ones. *)
Lemma negotiate_bits f n : 0 <= n -> Z.testbit (negotiate f) n = Z.testbit f n && negb (existsb (Z.eqb n) unwanted).
Proof.
  intros Hn. assert (forall l g, Forall (fun k => 0 <= k) l ->
    Z.testbit (fold_left (fun f k => Z.land f (Z.lnot (Z.shiftl 1 k))) l g) n = Z.testbit g n && negb (existsb (Z.eqb n) l)) as H.
  { induction l as [|k l IH]; intros g Hl; cbn [fold_left existsb]; [by rewrite andb_true_r|].
    apply Forall_cons in Hl as [Hk Hl]. rewrite IH, Z.land_spec, Z.lnot_spec by done.
    rewrite Z.shiftl_1_l, Z.pow2_bits_eqb, (Z.eqb_sym k n) by lia. rewrite negb_orb. by rewrite andb_assoc. }
  apply H. unfold unwanted. repeat constructor; lia.
Qed.
