(* ===== verification/Mbuf.v ===== *)
(** * Packet buffers, byte order and the Internet checksum (kernel/net.h, kernel/net.c)

    The state [netst] of the network stack: packet buffers, the descriptor rings of the
    e1000 card, sockets and the file table entries that refer to them.  A packet buffer
    lives in a page of the page allocator; here the free pages are a list (the free list of
    Kalloc.v) and [mbufs] and [socks] hold the pages in use as buffers and sockets, so an
    access to a freed object is an access to nothing and stops with [fault].
    [head] is kept as an offset into [buf]; a byte of [buf] that was never written is 0. *)
From S2P Require Import Prelude Mem Sleeplock Ftable.

(** ** net.h *)

Definition MBUF_SIZE : Z := 2048.
Definition MBUF_DEFAULT_HEADROOM : Z := 128.

(** [struct mbuf]. *)
Record mbuf := Mbuf { m_next : Z; m_head : Z; m_len : Z; m_buf : mem }.
(** [buf] is at offset 20 of the structure. *)
Definition MBUF_BUF : Z := 20.

(** [struct sock]; the list links are the order of [sockets] below. *)
Record sock := Sock { raddr : Z; lport : Z; rport : Z; rxq_head : Z; rxq_tail : Z }.

(** [struct tx_desc] and [struct rx_desc]: the fields the driver uses. *)
Record tx_desc := TxDesc { t_addr : Z; t_length : Z; t_cmd : Z; t_status : Z }.
Record rx_desc := RxDesc { r_addr : Z; r_length : Z; r_status : Z }.

Record netst := NetSt {
  pages : list Z;
  mbufs : gmap Z mbuf;
  tx_ring : gmap Z tx_desc; tx_mbufs : gmap Z Z; tdt : Z;
  rx_ring : gmap Z rx_desc; rx_mbufs : gmap Z Z; rdt : Z;
  socks : gmap Z sock; sockets : list Z;
  nfiles : ftable;
  npid : Z; nkilled : bool; nwoken : list chan }.

Definition with_pages p s := NetSt p (mbufs s) (tx_ring s) (tx_mbufs s) (tdt s) (rx_ring s) (rx_mbufs s) (rdt s) (socks s) (sockets s) (nfiles s) (npid s) (nkilled s) (nwoken s).
Definition with_mbufs m s := NetSt (pages s) m (tx_ring s) (tx_mbufs s) (tdt s) (rx_ring s) (rx_mbufs s) (rdt s) (socks s) (sockets s) (nfiles s) (npid s) (nkilled s) (nwoken s).
Definition with_tx r m t s := NetSt (pages s) (mbufs s) r m t (rx_ring s) (rx_mbufs s) (rdt s) (socks s) (sockets s) (nfiles s) (npid s) (nkilled s) (nwoken s).
Definition with_rx r m t s := NetSt (pages s) (mbufs s) (tx_ring s) (tx_mbufs s) (tdt s) r m t (socks s) (sockets s) (nfiles s) (npid s) (nkilled s) (nwoken s).
Definition with_socks m l s := NetSt (pages s) (mbufs s) (tx_ring s) (tx_mbufs s) (tdt s) (rx_ring s) (rx_mbufs s) (rdt s) m l (nfiles s) (npid s) (nkilled s) (nwoken s).
Definition with_nfiles f s := NetSt (pages s) (mbufs s) (tx_ring s) (tx_mbufs s) (tdt s) (rx_ring s) (rx_mbufs s) (rdt s) (socks s) (sockets s) f (npid s) (nkilled s) (nwoken s).
Definition with_nwoken w s := NetSt (pages s) (mbufs s) (tx_ring s) (tx_mbufs s) (tdt s) (rx_ring s) (rx_mbufs s) (rdt s) (socks s) (sockets s) (nfiles s) (npid s) (nkilled s) w.

#[export] Instance net_ftable : HasFtable netst := { ft := nfiles; set_ft := with_nfiles }.
#[export] Instance net_ftable_laws : FtableLaws netst.
Proof. by split. Qed.
#[export] Instance net_proc : Proclike netst :=
  { mypid := npid; add_wake c s := with_nwoken (c :: nwoken s) s }.

Definition fault : string := "fault".

(** The page allocator. *)
Definition page_alloc : M netst Z :=
  l ← gets pages;
  match l with [] => mret 0 | p :: l' => modify (with_pages l') ;; mret p end.
Definition page_free (p : Z) : M netst unit := modify (fun s => with_pages (p :: pages s) s).

(** Following a pointer to an mbuf. *)
Definition the (a : Z) : M netst mbuf :=
  s ← gets id; match mbufs s !! a with Some m => mret m | None => panic fault end.
Definition put_mbuf (a : Z) (m : mbuf) : M netst unit := modify (fun s => with_mbufs (<[a := m]> (mbufs s)) s).

Definition set_next (x : Z) (m : mbuf) : mbuf := Mbuf x (m_head m) (m_len m) (m_buf m).
Definition set_head_len (h l : Z) (m : mbuf) : mbuf := Mbuf (m_next m) h l (m_buf m).
Definition on_buf (f : mem -> mem) (m : mbuf) : mbuf := Mbuf (m_next m) (m_head m) (m_len m) (f (m_buf m)).

(** ** Moving the ends of a buffer; the result is an offset into [buf]. *)

Definition mbufpull (a len : Z) : M netst (option Z) :=
  m ← the a;
  if m_len m <? len then mret None else
  put_mbuf a (set_head_len (m_head m + len) (m_len m - len) m) ;;
  mret (Some (m_head m)).

Definition mbufpush (a len : Z) : M netst Z :=
  m ← the a;
  if m_head m - len <? 0 then panic "mbufpush" else
  put_mbuf a (set_head_len (m_head m - len) (u32 (m_len m + len)) m) ;;
  mret (m_head m - len).

Definition mbufput (a len : Z) : M netst Z :=
  m ← the a;
  let l := u32 (m_len m + len) in
  if MBUF_SIZE <? l then panic "mbufput" else
  put_mbuf a (set_head_len (m_head m) l m) ;;
  mret (m_head m + m_len m).

Definition mbuftrim (a len : Z) : M netst (option Z) :=
  m ← the a;
  if m_len m <? len then mret None else
  put_mbuf a (set_head_len (m_head m) (m_len m - len) m) ;;
  mret (Some (m_head m + (m_len m - len))).

Definition mbufalloc (headroom : Z) : M netst Z :=
  if MBUF_SIZE <? headroom then mret 0 else
  a ← page_alloc;
  if a =? 0 then mret 0 else
  put_mbuf a (Mbuf 0 headroom 0 ∅) ;;
  mret a.

Definition mbuffree (a : Z) : M netst unit :=
  the a ;;
  modify (fun s => with_mbufs (delete a (mbufs s)) s) ;;
  page_free a.

(** ** Queues of buffers; the queue is a pair of pointers, here of the socket [si]. *)

Definition the_sock (si : Z) : M netst sock :=
  s ← gets id; match socks s !! si with Some x => mret x | None => panic fault end.
Definition put_sock (si : Z) (x : sock) : M netst unit :=
  modify (fun s => with_socks (<[si := x]> (socks s)) (sockets s) s).
Definition set_rxq (h t : Z) (x : sock) : sock := Sock (raddr x) (lport x) (rport x) h t.

Definition mbufq_pushtail (si a : Z) : M netst unit :=
  m ← the a;
  put_mbuf a (set_next 0 m) ;;
  q ← the_sock si;
  if rxq_head q =? 0 then put_sock si (set_rxq a a q) else
  t ← the (rxq_tail q);
  put_mbuf (rxq_tail q) (set_next a t) ;;
  put_sock si (set_rxq (rxq_head q) a q).

Definition mbufq_pophead (si : Z) : M netst Z :=
  q ← the_sock si;
  if rxq_head q =? 0 then mret 0 else
  m ← the (rxq_head q);
  put_sock si (set_rxq (m_next m) (rxq_tail q) q) ;;
  mret (rxq_head q).

Definition mbufq_empty (si : Z) : M netst bool := q ← the_sock si; mret (rxq_head q =? 0).

(** ** Byte order *)

Definition bswaps (val : Z) : Z :=
  Z.lor (Z.shiftl (Z.land val 255) 8) (Z.shiftr (Z.land val 65280) 8).
Definition bswapl (val : Z) : Z :=
  Z.lor (Z.lor (Z.lor (Z.shiftl (Z.land val 255) 24) (Z.shiftl (Z.land val 65280) 8))
    (Z.shiftr (Z.land val 16711680) 8)) (Z.shiftr (Z.land val 4278190080) 24).

(** ** The Internet checksum *)

(** [while (nleft > 1)]: the words from [w] on; gives the position after them, the bytes
    left and the 32-bit sum. *)
Fixpoint in_cksum_loop (fuel : nat) (b : mem) (w nleft sum : Z) : Z * Z * Z :=
  match fuel with
  | O => (w, nleft, sum)
  | S f => if 1 <? nleft then in_cksum_loop f b (w + 2) (nleft - 2) (u32 (sum + le_load b w 2))
           else (w, nleft, sum)
  end.
Definition in_cksum (b : mem) (addr len : Z) : Z :=
  let '(w, nleft, sum) := in_cksum_loop (Z.to_nat len) b addr len 0 in
  let sum := if nleft =? 1 then u32 (sum + rd b w) else sum in
  let sum := u32 (Z.land sum 65535 + Z.shiftr sum 16) in
  let sum := u32 (sum + Z.shiftr sum 16) in
  u16 (Z.lnot sum).

(** ** What the checksum is *)

(** Sum of the 16-bit little-endian words, an odd last byte counted alone. *)
Fixpoint sum16 (l : list Z) : Z :=
  match l with
  | [] => 0
  | [x] => x
  | x :: y :: l' => x + 256 * y + sum16 l'
  end.
(** One's complement addition: the representative of a sum modulo 65535, zero only for zero. *)
Definition ones (s : Z) : Z := if s =? 0 then 0 else (s - 1) mod 65535 + 1.
Definition cksum (l : list Z) : Z := 65535 - ones (sum16 l).

(** Induction two bytes at a time. *)
Lemma pair_ind {A} (P : list A -> Prop) : P [] -> (forall x, P [x]) -> (forall x y l, P l -> P (x :: y :: l)) -> forall l, P l.
Proof. intros H0 H1 H2. fix IH 1. intros [|x [|y l]]; [apply H0|apply H1|apply H2, IH]. Qed.

Lemma sum16_bound l : Forall is_byte l -> 0 <= sum16 l <= 65535 * ((Z.of_nat (length l) + 1) / 2).
Proof.
  induction l as [|x|x y l IH] using pair_ind; intros H.
  - done.
  - apply Forall_cons in H as [H _]. unfold is_byte in *. cbn [sum16 length]. change ((Z.of_nat 1 + 1) / 2) with 1. lia.
  - apply Forall_cons in H as [Hx [Hy Hl]%Forall_cons]. specialize (IH Hl). unfold is_byte in *. cbn [sum16 length].
    dlia.
Qed.

Lemma ones_bound s : 0 <= s -> 0 <= ones s <= 65535.
Proof. intros. unfold ones. destruct (Z.eqb_spec s 0); dlia. Qed.

Lemma u16_lnot x : u16 (Z.lnot x) = 65535 - x mod 65536.
Proof. unfold u16, Z.lnot. rewrite <- Z.sub_1_r. change (2 ^ 16) with 65536. dlia. Qed.

(** Two foldings of the carries give the one's complement sum. *)
Lemma fold_ones s : 0 <= s < 2 ^ 32 ->
  let s1 := Z.land s 65535 + Z.shiftr s 16 in (s1 + Z.shiftr s1 16) mod 65536 = ones s.
Proof.
  intros Hs. cbv zeta. change 65535 with (Z.ones 16) at 1 2. rewrite !Z.land_ones, !Z.shiftr_div_pow2 by lia.
  change (2 ^ 16) with 65536. unfold ones. destruct (Z.eqb_spec s 0) as [->|]; [done|]. dlia.
Qed.

Lemma triple_eq {A B C} (a a' : A) (b b' : B) (c c' : C) : a = a' -> b = b' -> c = c' -> (a, b, c) = (a', b', c').
Proof. by intros -> -> ->. Qed.

Lemma in_cksum_loop_spec fuel : forall b w nleft sum,
  0 <= nleft <= Z.of_nat fuel -> 0 <= sum -> sum + 65535 * nleft < 2 ^ 32 ->
  in_cksum_loop fuel b w nleft sum =
    (w + 2 * (nleft / 2), nleft mod 2,
     sum + sum16 (bytes b w (2 * Z.to_nat (nleft / 2)))).
Proof.
  induction fuel as [|f IH]; intros b w nleft sum Hn Hs Hb; cbn [in_cksum_loop].
  { replace nleft with 0 by lia. apply triple_eq; [dlia|dlia|symmetry; apply Z.add_0_r]. }
  destruct (Z.ltb_spec 1 nleft).
  - pose proof (le_load_range 2 b w) as Hr. change (256 ^ Z.of_nat 2) with 65536 in Hr.
    rewrite u32_small by lia. rewrite IH by lia.
    replace (nleft / 2) with ((nleft - 2) / 2 + 1) by dlia.
    replace (2 * Z.to_nat ((nleft - 2) / 2 + 1))%nat with (S (S (2 * Z.to_nat ((nleft - 2) / 2)))) by dlia.
    cbn [bytes sum16 le_load]. replace (w + 1 + 1) with (w + 2) by lia. apply triple_eq; dlia.
  - assert (nleft = 0 \/ nleft = 1) as [-> | ->] by lia; (apply triple_eq; [dlia|dlia|symmetry; apply Z.add_0_r]).
Qed.

Lemma sum16_app_even l1 : forall l2, Nat.Even (length l1) -> sum16 (l1 ++ l2) = sum16 l1 + sum16 l2.
Proof.
  induction l1 as [|x|x y l IH] using pair_ind; intros l2 H; [done|destruct H as [k Hk]; cbn in Hk; lia|].
  cbn [app sum16]. rewrite IH; [lia|]. destruct H as [k Hk]. cbn in Hk. exists (k - 1)%nat. lia.
Qed.

Lemma in_cksum_eq b a n : Z.of_nat n <= 65536 -> in_cksum b a (Z.of_nat n) = cksum (bytes b a n).
Proof.
  intros Hn. unfold in_cksum. rewrite in_cksum_loop_spec by (cbn; lia). cbn zeta iota beta.
  set (k := (2 * Z.to_nat (Z.of_nat n / 2))%nat).
  assert (Z.of_nat k = 2 * (Z.of_nat n / 2)) as Hk by (subst k; dlia).
  assert (Nat.Even k) as Hek by (by eexists). clearbody k. rewrite <- !Hk.
  assert ((if Z.of_nat n mod 2 =? 1
           then u32 (0 + sum16 (bytes b a k) + rd b (a + Z.of_nat k))
           else 0 + sum16 (bytes b a k)) = sum16 (bytes b a n)) as ->.
  { destruct (Z.eqb_spec (Z.of_nat n mod 2) 1) as [E|E].
    - assert (bytes b a n = bytes b a k ++ [rd b (a + Z.of_nat k)]) as ->.
      { replace n with (k + 1)%nat by dlia. by rewrite bytes_app. }
      rewrite sum16_app_even by (by rewrite length_bytes). cbn [sum16].
      pose proof (sum16_bound _ (bytes_bytes b k a)) as HB. rewrite length_bytes in HB.
      pose proof (rd_range b (a + Z.of_nat k)). rewrite u32_small; [lia|]. dlia.
    - assert (n = k) as <- by dlia. lia. }
  pose proof (sum16_bound _ (bytes_bytes b n a)) as HB. rewrite length_bytes in HB.
  set (s := sum16 (bytes b a n)) in *. assert (0 <= s < 2 ^ 32) as Hs by (change (2 ^ 32) with 4294967296; dlia).
  assert (0 <= Z.land s 65535 + Z.shiftr s 16 <= 131070) as H1.
  { change 65535 with (Z.ones 16). rewrite Z.land_ones, Z.shiftr_div_pow2 by lia. change (2 ^ 16) with 65536. change (2 ^ 32) with 4294967296 in Hs. dlia. }
  rewrite (u32_small (Z.land _ _ + _)) by lia.
  set (s1 := Z.land s 65535 + Z.shiftr s 16) in *.
  assert (0 <= Z.shiftr s1 16 <= 131070) as H2 by (rewrite Z.shiftr_div_pow2 by lia; change (2 ^ 16) with 65536; dlia).
  rewrite u32_small, u16_lnot by lia. subst s1. rewrite fold_ones by done. done.
Qed.
