(* ===== verification/Net.v ===== *)
(** * The network stack (kernel/net.c, kernel/e1000.c, kernel/sysnet.c)

    Transmit path (sockwrite, net_tx_udp, net_tx_ip, net_tx_eth, e1000_transmit) and receive
    path (e1000_recv, net_rx, net_rx_ip, net_rx_udp, sockrecvudp, sockread), in the order
    in which they call each other.  Header fields are the bytes of the packed C structures
    in the packet buffer.  User memory is what copyin delivers ([None] for a bad address)
    and whether copyout succeeds. *)
From S2P Require Import Prelude Mem Sleeplock Ftable Mbuf.

(** Field accesses through a pointer into the buffer of the mbuf [a]. *)
Definition ldf (a off : Z) (n : nat) : M netst Z := m ← the a; mret (le_load (m_buf m) off n).
Definition stf (a off v : Z) (n : nat) : M netst unit :=
  m ← the a; put_mbuf a (on_buf (fun b => le_store b off v n) m).
Definition st_bytes (a off : Z) (l : list Z) : M netst unit :=
  m ← the a; put_mbuf a (on_buf (fun b => store_bytes b off l) m).
Definition ld_bytes (a off : Z) (n : nat) : M netst (list Z) :=
  m ← the a; mret (bytes (m_buf m) off n).

(** ** e1000.c, transmit *)

Definition TX_RING_SIZE : Z := 16.
Definition RX_RING_SIZE : Z := 16.
Definition E1000_TXD_STAT_DD : Z := 1.
Definition E1000_TXD_CMD_EOP : Z := 1.
Definition E1000_TXD_CMD_RS : Z := 8.
Definition E1000_RXD_STAT_DD : Z := 1.
Definition e1000_lock : lockid := ("e1000", 0).

Definition txd (s : netst) (i : Z) : tx_desc := default (TxDesc 0 0 0 0) (tx_ring s !! i).
Definition rxd (s : netst) (i : Z) : rx_desc := default (RxDesc 0 0 0) (rx_ring s !! i).
Definition txm (s : netst) (i : Z) : Z := default 0 (tx_mbufs s !! i).
Definition rxm (s : netst) (i : Z) : Z := default 0 (rx_mbufs s !! i).

Definition e1000_transmit (a : Z) : M netst Z :=
  acquire e1000_lock ;;
  tail ← gets tdt;
  desc ← gets (fun s => txd s tail);
  if Z.land (t_status desc) E1000_TXD_STAT_DD =? 0
  then release e1000_lock ;; mret (-1)
  else
  old ← gets (fun s => txm s tail);
  (if old =? 0 then mret tt else
   mbuffree old ;;
   modify (fun s => with_tx (tx_ring s) (<[tail := 0]> (tx_mbufs s)) (tdt s) s)) ;;
  m ← the a;
  modify (fun s => with_tx
    (<[tail := TxDesc (a + MBUF_BUF + m_head m) (u16 (m_len m))
                 (Z.lor E1000_TXD_CMD_EOP E1000_TXD_CMD_RS) (t_status desc)]> (tx_ring s))
    (<[tail := a]> (tx_mbufs s)) ((tdt s + 1) mod TX_RING_SIZE) s) ;;
  release e1000_lock ;;
  mret 0.

(** ** net.c, transmit *)

Definition ETHTYPE_IP : Z := 2048.
Definition ETHTYPE_ARP : Z := 2054.
Definition IPPROTO_UDP : Z := 17.
Definition ARP_HRD_ETHER : Z := 1.
Definition ARP_OP_REQUEST : Z := 1.
Definition ARP_OP_REPLY : Z := 2.
Definition ETHADDR_LEN : nat := 6.
Definition MAKE_IP_ADDR (a b c d : Z) : Z :=
  Z.lor (Z.lor (Z.lor (Z.shiftl a 24) (Z.shiftl b 16)) (Z.shiftl c 8)) d.
Definition local_ip : Z := MAKE_IP_ADDR 10 0 2 15.
Definition local_mac : list Z := [82; 84; 0; 18; 52; 86].
Definition broadcast_mac : list Z := [255; 255; 255; 255; 255; 255].

Definition net_tx_eth (a ethtype : Z) : M netst unit :=
  h ← mbufpush a 14;
  st_bytes a (h + 6) local_mac ;;
  st_bytes a h broadcast_mac ;;
  stf a (h + 12) (bswaps ethtype) 2 ;;
  r ← e1000_transmit a;
  if r =? 0 then mret tt else mbuffree a.

Definition net_tx_ip (a proto dip : Z) : M netst unit :=
  h ← mbufpush a 20;
  st_bytes a h (replicate 20 0) ;;
  stf a h (Z.lor (Z.shiftl 4 4) (Z.shiftr 20 2)) 1 ;;
  stf a (h + 9) proto 1 ;;
  stf a (h + 12) (bswapl local_ip) 4 ;;
  stf a (h + 16) (bswapl dip) 4 ;;
  m ← the a;
  stf a (h + 2) (bswaps (u16 (m_len m))) 2 ;;
  stf a (h + 8) 100 1 ;;
  m ← the a;
  stf a (h + 10) (in_cksum (m_buf m) h 20) 2 ;;
  net_tx_eth a ETHTYPE_IP.

Definition net_tx_udp (a dip sport dport : Z) : M netst unit :=
  h ← mbufpush a 8;
  stf a h (bswaps sport) 2 ;;
  stf a (h + 2) (bswaps dport) 2 ;;
  m ← the a;
  stf a (h + 4) (bswaps (u16 (m_len m))) 2 ;;
  stf a (h + 6) 0 2 ;;
  net_tx_ip a IPPROTO_UDP dip.

Definition net_tx_arp (op : Z) (dmac : list Z) (dip : Z) : M netst Z :=
  a ← mbufalloc MBUF_DEFAULT_HEADROOM;
  if a =? 0 then mret (-1) else
  h ← mbufput a 28;
  stf a h (bswaps ARP_HRD_ETHER) 2 ;;
  stf a (h + 2) (bswaps ETHTYPE_IP) 2 ;;
  stf a (h + 4) 6 1 ;;
  stf a (h + 5) 4 1 ;;
  stf a (h + 6) (bswaps op) 2 ;;
  st_bytes a (h + 8) local_mac ;;
  stf a (h + 14) (bswapl local_ip) 4 ;;
  st_bytes a (h + 18) dmac ;;
  stf a (h + 24) (bswapl dip) 4 ;;
  net_tx_eth a ETHTYPE_ARP ;;
  mret 0.

(** ** sysnet.c *)

Definition socktbl_lock : lockid := ("socktbl", 0).
Definition sock_lock (si : Z) : lockid := ("sock", si).
Definition rxq_chan (si : Z) : chan := ("rxq", si).

(** The scans of the list of sockets. *)
Fixpoint find_sock (t : gmap Z sock) (l : list Z) (ra lp rp : Z) : option Z :=
  match l with
  | [] => None
  | si :: l' =>
    match t !! si with
    | None => None
    | Some x => if (raddr x =? ra) && (lport x =? lp) && (rport x =? rp) then Some si
                else find_sock t l' ra lp rp
    end
  end.

(** [while (!mbufq_empty(&si->rxq))] of sockclose; at most one round per live buffer. *)
Fixpoint drain (fuel : nat) (si : Z) : M netst unit :=
  e ← mbufq_empty si;
  if (e : bool) then mret tt else
  match fuel with
  | O => panic no_fuel
  | S f => a ← mbufq_pophead si; mbuffree a ;; drain f si
  end.

Definition sock_free (si : Z) : M netst unit :=
  the_sock si ;;
  modify (fun s => with_socks (delete si (socks s)) (sockets s) s) ;;
  page_free si.

Definition sockclose (si : Z) : M netst unit :=
  acquire socktbl_lock ;;
  modify (fun s => with_socks (socks s) (filter (fun x => x <> si) (sockets s)) s) ;;
  release socktbl_lock ;;
  n ← gets (fun s => size (mbufs s));
  drain n si ;;
  sock_free si.

(** What fileclose does with the object of a file of the network stack. *)
Definition close_sock (ff : file) : M netst unit :=
  match f_type ff with FD_SOCK => sockclose (f_sock ff) | _ => mret tt end.

(** The return value of sockalloc, and [*f]. *)
Definition sockalloc (ra lp rp : Z) : M netst (Z * option Z) :=
  f ← filealloc;
  match f with
  | None => mret (-1, None)
  | Some f =>
    si ← page_alloc;
    if si =? 0 then fileclose close_sock f ;; mret (-1, Some f) else
    put_sock si (Sock ra lp rp 0 0) ;;
    upd_file f (fun x => File FD_SOCK (f_ref x) true true (f_pipe x) (f_ip x) si (f_off x) (f_major x)) ;;
    acquire socktbl_lock ;;
    s ← gets id;
    match find_sock (socks s) (sockets s) ra lp rp with
    | Some _ =>
      release socktbl_lock ;;
      sock_free si ;;
      fileclose close_sock f ;;
      mret (-1, Some f)
    | None =>
      modify (fun s => with_socks (socks s) (si :: sockets s) s) ;;
      release socktbl_lock ;;
      mret (0, Some f)
    end
  end.

(** [copyout a len]: what copying [len] bytes from the head of the buffer [a] returns.
    The second result is the bytes handed over. *)
Definition sockread (si : Z) (copyout : Z -> Z -> Z) (n : Z) : M netst (Z * list Z) :=
  acquire (sock_lock si) ;;
  e ← mbufq_empty si;
  k ← gets nkilled;
  if e && negb k then sleep (rxq_chan si) (sock_lock si) else
  if (k : bool) then release (sock_lock si) ;; mret (-1, []) else
  a ← mbufq_pophead si;
  release (sock_lock si) ;;
  m ← the a;
  let len := if n <? i32 (m_len m) then n else i32 (m_len m) in
  if copyout a len =? -1 then mbuffree a ;; mret (-1, []) else
  mbuffree a ;;
  mret (len, bytes (m_buf m) (m_head m) (Z.to_nat len)).

Definition sockwrite (si : Z) (copyin : option (list Z)) (n : Z) : M netst Z :=
  a ← mbufalloc MBUF_DEFAULT_HEADROOM;
  if a =? 0 then mret (-1) else
  off ← mbufput a (u32 n);
  match copyin with
  | None => mbuffree a ;; mret (-1)
  | Some bs =>
    st_bytes a off bs ;;
    x ← the_sock si;
    net_tx_udp a (raddr x) (lport x) (rport x) ;;
    mret n
  end.

Definition sockrecvudp (a ra lp rp : Z) : M netst unit :=
  acquire socktbl_lock ;;
  s ← gets id;
  match find_sock (socks s) (sockets s) ra lp rp with
  | None => release socktbl_lock ;; mbuffree a
  | Some si =>
    acquire (sock_lock si) ;;
    mbufq_pushtail si a ;;
    wakeup (rxq_chan si) ;;
    release (sock_lock si) ;;
    release socktbl_lock
  end.

(** ** net.c, receive *)

Definition net_rx_arp (a : Z) : M netst unit :=
  h ← mbufpull a 28;
  match h with
  | None => mbuffree a
  | Some h =>
    hrd ← ldf a h 2; pro ← ldf a (h + 2) 2; hln ← ldf a (h + 4) 1; pln ← ldf a (h + 5) 1;
    if negb (bswaps hrd =? ARP_HRD_ETHER) || negb (bswaps pro =? ETHTYPE_IP) ||
       negb (hln =? 6) || negb (pln =? 4)
    then mbuffree a else
    tip ← ldf a (h + 24) 4; op ← ldf a (h + 6) 2;
    if negb (bswaps op =? ARP_OP_REQUEST) || negb (bswapl tip =? local_ip) then mbuffree a else
    smac ← ld_bytes a (h + 8) ETHADDR_LEN;
    sip ← ldf a (h + 14) 4;
    net_tx_arp ARP_OP_REPLY smac (bswapl sip) ;;
    mbuffree a
  end.

(** [iphdr] is the offset of the IP header in the buffer. *)
Definition net_rx_udp (a len iphdr : Z) : M netst unit :=
  h ← mbufpull a 8;
  match h with
  | None => mbuffree a
  | Some h =>
    ulen ← ldf a (h + 4) 2;
    if negb (bswaps ulen =? len) then mbuffree a else
    let len := u16 (len - 8) in
    m ← the a;
    if m_len m <? len then mbuffree a else
    mbuftrim a (m_len m - len) ;;
    sip ← ldf a (iphdr + 12) 4;
    sport ← ldf a h 2;
    dport ← ldf a (h + 2) 2;
    sockrecvudp a (bswapl sip) (bswaps dport) (bswaps sport)
  end.

Definition net_rx_ip (a : Z) : M netst unit :=
  h ← mbufpull a 20;
  match h with
  | None => mbuffree a
  | Some h =>
    vhl ← ldf a h 1;
    if negb (vhl =? Z.lor (Z.shiftl 4 4) (Z.shiftr 20 2)) then mbuffree a else
    m ← the a;
    if negb (in_cksum (m_buf m) h 20 =? 0) then mbuffree a else
    off ← ldf a (h + 6) 2;
    if negb (bswaps off =? 0) then mbuffree a else
    dst ← ldf a (h + 16) 4;
    if negb (bswapl dst =? local_ip) then mbuffree a else
    p ← ldf a (h + 9) 1;
    if negb (p =? IPPROTO_UDP) then mbuffree a else
    ip_len ← ldf a (h + 2) 2;
    net_rx_udp a (u16 (bswaps ip_len - 20)) h
  end.

Definition net_rx (a : Z) : M netst unit :=
  h ← mbufpull a 14;
  match h with
  | None => mbuffree a
  | Some h =>
    ty ← ldf a (h + 12) 2;
    if bswaps ty =? ETHTYPE_IP then net_rx_ip a
    else if bswaps ty =? ETHTYPE_ARP then net_rx_arp a
    else mbuffree a
  end.

(** ** e1000.c, initialisation and receive *)

(** The loop over the receive ring of e1000_init. *)
Fixpoint e1000_init_rx (n : nat) (i : Z) : M netst unit :=
  match n with
  | O => mret tt
  | S n' =>
    a ← mbufalloc 0;
    if a =? 0 then panic "e1000" else
    m ← the a;
    modify (fun s => with_rx (<[i := RxDesc (a + MBUF_BUF + m_head m) 0 0]> (rx_ring s))
                             (<[i := a]> (rx_mbufs s)) (rdt s) s) ;;
    e1000_init_rx n' (i + 1)
  end.
(** The rings e1000_init sets up. *)
Definition e1000_init : M netst unit :=
  modify (with_tx (gset_to_gmap (TxDesc 0 0 0 E1000_TXD_STAT_DD) (list_to_set (seqZ 0 TX_RING_SIZE))) ∅ 0) ;;
  e1000_init_rx (Z.to_nat RX_RING_SIZE) 0 ;;
  modify (fun s => with_rx (rx_ring s) (rx_mbufs s) (RX_RING_SIZE - 1) s).

(** The loop of e1000_recv ends at a descriptor the card has not filled; every round clears
    one, so the size of the ring bounds the rounds. *)
Fixpoint e1000_recv_loop (fuel : nat) : M netst unit :=
  tail ← gets (fun s => (rdt s + 1) mod RX_RING_SIZE);
  desc ← gets (fun s => rxd s tail);
  if Z.land (r_status desc) E1000_RXD_STAT_DD =? 0 then mret tt else
  match fuel with
  | O => panic no_fuel
  | S f =>
    a ← gets (fun s => rxm s tail);
    m ← the a;
    put_mbuf a (set_head_len (m_head m) (r_length desc) m) ;;
    net_rx a ;;
    b ← mbufalloc 0;
    m ← the b;
    modify (fun s => with_rx (<[tail := RxDesc (b + MBUF_BUF + m_head m) (r_length desc) 0]> (rx_ring s))
                             (<[tail := b]> (rx_mbufs s)) tail s) ;;
    e1000_recv_loop f
  end.
Definition e1000_recv : M netst unit := e1000_recv_loop (Z.to_nat RX_RING_SIZE).
