(* ===== verification/NetSpec.v ===== *)
(** * What the network code does with a packet

    Symbolic execution rules for packet buffers, the headers as byte lists, and the effect
    of the transmit and receive paths on a packet: each layer prepends its header on the way
    out, and strips and checks it on the way in. *)
From S2P Require Import Prelude Mem Sleeplock Ftable Mbuf Net.

(** ** Byte order *)

Lemma bswaps_eq v : 0 <= v < 65536 -> bswaps v = v mod 256 * 256 + v / 256.
Proof.
  intros Hv. unfold bswaps. rewrite Z.shiftr_land. change (Z.shiftr 65280 8) with (Z.ones 8).
  change 255 with (Z.ones 8). rewrite !Z.land_ones, Z.shiftr_div_pow2, Z.shiftl_mul_pow2 by lia. change (2 ^ 8) with 256.
  rewrite (lor_add 8) by dlia. dlia.
Qed.
(** A byte in the middle of a word. *)
Lemma land_byte v k : 0 <= k -> Z.land v (Z.shiftl (Z.ones 8) k) = Z.shiftl (Z.land (Z.shiftr v k) (Z.ones 8)) k.
Proof.
  intros Hk. apply Z.bits_inj'. intros n Hn. rewrite Z.land_spec, !Z.shiftl_spec, Z.land_spec by lia.
  destruct (decide (n < k)).
  - rewrite (Z.testbit_neg_r (Z.ones 8)) by lia. by rewrite !andb_false_r.
  - rewrite Z.shiftr_spec by lia. by rewrite Z.sub_add.
Qed.
Lemma bswapl_eq v : 0 <= v < 2 ^ 32 ->
  bswapl v = v mod 256 * 2 ^ 24 + v / 256 mod 256 * 2 ^ 16 + v / 2 ^ 16 mod 256 * 256 + v / 2 ^ 24.
Proof.
  intros Hv. unfold bswapl. change 65280 with (Z.shiftl (Z.ones 8) 8). change 16711680 with (Z.shiftl (Z.ones 8) 16).
  change 4278190080 with (Z.shiftl (Z.ones 8) 24). rewrite !land_byte by lia.
  rewrite Z.shiftl_shiftl, (Z.shiftr_shiftl_l _ 16 8), (Z.shiftr_shiftl_l _ 24 24) by lia.
  change (16 - 8) with 8. change (24 - 24) with 0. change (8 + 8) with 16.
  change 255 with (Z.ones 8). rewrite !Z.land_ones, !Z.shiftr_div_pow2, !Z.shiftl_mul_pow2 by lia.
  change (2 ^ 24) with 16777216. change (2 ^ 16) with 65536. change (2 ^ 8) with 256. change (2 ^ 32) with 4294967296 in Hv.
  rewrite (lor_add 24 _ (_ * 65536)) by (change (2 ^ 24) with 16777216; dlia).
  rewrite (lor_add 16 _ (_ * 256)) by (change (2 ^ 16) with 65536; dlia).
  rewrite (lor_add 8) by dlia. dlia.
Qed.

(** Network order: most significant byte first. *)
Definition be16 (v : Z) : list Z := [v / 256; v mod 256].
Definition be32 (v : Z) : list Z := [v / 2 ^ 24; v / 2 ^ 16 mod 256; v / 256 mod 256; v mod 256].

Lemma divmod256 x y : 0 <= x < 256 -> (x + 256 * y) / 256 = y /\ (x + 256 * y) mod 256 = x.
Proof. intros. rewrite Z.mul_comm, Z.div_add, Z.mod_add, Z.div_small, Z.mod_small by lia. lia. Qed.
Lemma le_bytes_of_le l : Forall is_byte l -> le_bytes (of_le l) (length l) = l.
Proof.
  induction l as [|b l IH]; intros H; [done|]. apply Forall_cons in H as [Hb Hl]. cbn [length of_le le_bytes].
  destruct (divmod256 b (of_le l) Hb) as [-> ->]. by rewrite IH.
Qed.
Lemma be16_bytes v : 0 <= v < 65536 -> Forall is_byte (be16 v).
Proof. intros H. unfold be16, is_byte. repeat constructor; dlia. Qed.
Lemma be32_bytes v : 0 <= v < 2 ^ 32 -> Forall is_byte (be32 v).
Proof.
  intros H. unfold be32, is_byte. change (2 ^ 24) with 16777216. change (2 ^ 16) with 65536.
  change (2 ^ 32) with 4294967296 in H. repeat constructor; dlia.
Qed.

Lemma bswaps_of_le v : 0 <= v < 65536 -> bswaps v = of_le (be16 v).
Proof. intros H. rewrite bswaps_eq by done. unfold be16, of_le. lia. Qed.
Lemma bswapl_of_le v : 0 <= v < 2 ^ 32 -> bswapl v = of_le (be32 v).
Proof.
  intros H. rewrite bswapl_eq by done. unfold be32, of_le. change (2 ^ 24) with 16777216. change (2 ^ 16) with 65536. lia.
Qed.
Lemma le_bytes_bswaps v : 0 <= v < 65536 -> le_bytes (bswaps v) 2 = be16 v.
Proof. intros H. rewrite bswaps_of_le by done. apply (le_bytes_of_le (be16 v)). by apply be16_bytes. Qed.
Lemma le_bytes_bswapl v : 0 <= v < 2 ^ 32 -> le_bytes (bswapl v) 4 = be32 v.
Proof. intros H. rewrite bswapl_of_le by done. apply (le_bytes_of_le (be32 v)). by apply be32_bytes. Qed.

Lemma bswaps_be16 v : 0 <= v < 65536 -> bswaps (of_le (be16 v)) = v.
Proof.
  intros H. destruct (Forall_cons_1 _ _ _ (be16_bytes v H)) as [H1 H2]. apply Forall_cons in H2 as [H2 _].
  unfold be16, is_byte in *. cbn [of_le]. rewrite Z.mul_0_r, Z.add_0_r.
  destruct (divmod256 (v / 256) (v mod 256) H1) as [E1 E2]. rewrite bswaps_eq by lia. rewrite E1, E2.
  rewrite (Z.div_mod v 256) at 3 by lia. lia.
Qed.
Lemma bswapl_be32 v : 0 <= v < 2 ^ 32 -> bswapl (of_le (be32 v)) = v.
Proof.
  intros H. pose proof (be32_bytes v H) as HB. unfold be32 in *. repeat (apply Forall_cons in HB as [? HB]). clear HB.
  assert (v = v mod 256 + 256 * (v / 256 mod 256 + 256 * (v / 2 ^ 16 mod 256 + 256 * (v / 2 ^ 24)))) as E.
  { change (2 ^ 24) with (256 * 256 * 256). change (2 ^ 16) with (256 * 256). rewrite <- !Z.div_div by lia.
    rewrite (Z.div_mod v 256) at 1 by lia. rewrite (Z.div_mod (v / 256) 256) at 1 by lia.
    rewrite (Z.div_mod (v / 256 / 256) 256) at 1 by lia. lia. }
  set (d0 := v mod 256) in *. set (d1 := v / 256 mod 256) in *. set (d2 := v / 2 ^ 16 mod 256) in *. set (d3 := v / 2 ^ 24) in *.
  clearbody d0 d1 d2 d3. unfold is_byte in *. cbn [of_le].
  set (w := d3 + 256 * (d2 + 256 * (d1 + 256 * (d0 + 256 * 0)))).
  assert (0 <= w < 2 ^ 32) as Hw by (subst w; change (2 ^ 32) with 4294967296; lia).
  rewrite bswapl_eq by done. change (2 ^ 24) with (256 * 256 * 256). change (2 ^ 16) with (256 * 256).
  rewrite <- !Z.div_div by lia. subst w.
  repeat match goal with |- context [(?x + 256 * ?y) / 256] => rewrite (proj1 (divmod256 x y ltac:(assumption))) end.
  repeat match goal with |- context [(?x + 256 * ?y) mod 256] => rewrite (proj2 (divmod256 x y ltac:(assumption))) end.
  lia.
Qed.

(** ** Symbolic execution over packet buffers *)

Definition setm (a : Z) (m : mbuf) (s : netst) : netst := with_mbufs (<[a := m]> (mbufs s)) s.

Lemma setm_setm a m m' s : setm a m (setm a m' s) = setm a m s.
Proof. unfold setm, with_mbufs. cbn. by rewrite insert_insert_eq. Qed.
Lemma setm_lookup a m s : mbufs (setm a m s) !! a = Some m.
Proof. apply lookup_insert_eq. Qed.
Lemma setm_id a m s : mbufs s !! a = Some m -> setm a m s = s.
Proof. intros H. unfold setm. rewrite insert_id by done. by destruct s. Qed.

Section rules.
Variables (h : list lockid) (s : netst) (a : Z) (m : mbuf).
Hypothesis Ha : mbufs s !! a = Some m.

Lemma wp_the Q : Q m (KSt h s) -> wp (the a) (KSt h s) Q.
Proof. intros HQ. unfold the. wsteps. cbn. by rewrite Ha. Qed.
Lemma wp_put m' Q : Q tt (KSt h (setm a m' s)) -> wp (put_mbuf a m') (KSt h s) Q.
Proof. done. Qed.
Lemma wp_stf off v n Q :
  Q tt (KSt h (setm a (on_buf (fun b => store_bytes b off (le_bytes v n)) m) s)) -> wp (stf a off v n) (KSt h s) Q.
Proof. intros HQ. unfold stf. wstep. apply wp_the. apply wp_put. unfold on_buf in *. by rewrite le_store_bytes. Qed.
Lemma wp_st_bytes off l Q :
  Q tt (KSt h (setm a (on_buf (fun b => store_bytes b off l) m) s)) -> wp (st_bytes a off l) (KSt h s) Q.
Proof. intros HQ. unfold st_bytes. wstep. apply wp_the. by apply wp_put. Qed.
Lemma wp_ldf off n Q : Q (of_le (bytes (m_buf m) off n)) (KSt h s) -> wp (ldf a off n) (KSt h s) Q.
Proof. intros HQ. unfold ldf. wstep. apply wp_the. wstep. by rewrite le_load_bytes. Qed.
Lemma wp_ld_bytes off n Q : Q (bytes (m_buf m) off n) (KSt h s) -> wp (ld_bytes a off n) (KSt h s) Q.
Proof. intros HQ. unfold ld_bytes. wstep. by apply wp_the. Qed.

Lemma wp_mbufpush len Q : len <= m_head m ->
  Q (m_head m - len) (KSt h (setm a (set_head_len (m_head m - len) (u32 (m_len m + len)) m) s)) ->
  wp (mbufpush a len) (KSt h s) Q.
Proof.
  intros Hl HQ. unfold mbufpush. wstep. apply wp_the. destruct (Z.ltb_spec (m_head m - len) 0); [lia|].
  wstep. by apply wp_put.
Qed.
Lemma wp_mbufput len Q : 0 <= m_len m -> 0 <= len -> m_len m + len <= MBUF_SIZE ->
  Q (m_head m + m_len m) (KSt h (setm a (set_head_len (m_head m) (m_len m + len) m) s)) ->
  wp (mbufput a len) (KSt h s) Q.
Proof.
  intros Hm Hl HL HQ. unfold mbufput. wstep. apply wp_the. unfold MBUF_SIZE in *. rewrite u32_small by lia.
  destruct (Z.ltb_spec 2048 (m_len m + len)); [lia|]. wstep. by apply wp_put.
Qed.
Lemma wp_mbufpull len Q :
  (m_len m < len -> Q None (KSt h s)) ->
  (len <= m_len m -> Q (Some (m_head m)) (KSt h (setm a (set_head_len (m_head m + len) (m_len m - len) m) s))) ->
  wp (mbufpull a len) (KSt h s) Q.
Proof.
  intros H1 H2. unfold mbufpull. wstep. apply wp_the. destruct (Z.ltb_spec (m_len m) len); [by wstep; apply H1|].
  wstep. apply wp_put. wstep. by apply H2.
Qed.
Lemma wp_mbuftrim len Q : len <= m_len m ->
  Q (Some (m_head m + (m_len m - len))) (KSt h (setm a (set_head_len (m_head m) (m_len m - len) m) s)) ->
  wp (mbuftrim a len) (KSt h s) Q.
Proof.
  intros Hl HQ. unfold mbuftrim. wstep. apply wp_the. destruct (Z.ltb_spec (m_len m) len); [lia|]. wstep. by apply wp_put.
Qed.
Lemma wp_mbuffree Q :
  Q tt (KSt h (with_pages (a :: pages s) (with_mbufs (delete a (mbufs s)) s))) -> wp (mbuffree a) (KSt h s) Q.
Proof. intros HQ. unfold mbuffree. wstep. apply wp_the. wstep. wstep. unfold page_free. by wstep. Qed.
End rules.

(** [nstep]: one step on the packet buffer whose contents the context or [setm] gives. *)
Ltac nfind := first [eassumption | apply setm_lookup | by rewrite lookup_insert_eq].
Ltac nstep :=
  lazymatch goal with
  | |- wp (the _) _ _ => eapply wp_the; [nfind|]
  | |- wp (put_mbuf _ _) _ _ => apply wp_put
  | |- wp (stf _ _ _ _) _ _ => eapply wp_stf; [nfind|]
  | |- wp (st_bytes _ _ _) _ _ => eapply wp_st_bytes; [nfind|]
  | |- wp (ldf _ _ _) _ _ => eapply wp_ldf; [nfind|]
  | |- wp (ld_bytes _ _ _) _ _ => eapply wp_ld_bytes; [nfind|]
  | |- wp (mbuffree _) _ _ => eapply wp_mbuffree; [nfind|]
  | |- _ => wstep
  end; rewrite ?setm_setm.

(** ** The headers *)

(** The buffer [m] holds the packet [l]. *)
Definition holds (m : mbuf) (l : list Z) : Prop :=
  bytes (m_buf m) (m_head m) (length l) = l /\ m_len m = Z.of_nat (length l).

Definition eth_hdr (ty : Z) : list Z := broadcast_mac ++ local_mac ++ be16 ty.
Definition udp_hdr (len sport dport : Z) : list Z := be16 sport ++ be16 dport ++ be16 len ++ [0; 0].
Definition ip_hdr_sum (sum : list Z) (len proto dip : Z) : list Z :=
  [69; 0] ++ be16 len ++ [0; 0; 0; 0; 100; proto] ++ sum ++ be32 local_ip ++ be32 dip.
Definition ip_hdr (len proto dip : Z) : list Z :=
  ip_hdr_sum (le_bytes (cksum (ip_hdr_sum [0; 0] len proto dip)) 2) len proto dip.

Lemma holds_bytes m l : holds m l -> Forall is_byte l.
Proof. intros [<- _]. apply bytes_bytes. Qed.

Lemma bytes_store_at m a l n : Forall is_byte l -> n = length l -> bytes (store_bytes m a l) a n = l.
Proof. intros ? ->. by apply bytes_store_bytes. Qed.
Lemma bytes_store_sub m a l i n : Forall is_byte l -> (i + n <= length l)%nat ->
  bytes (store_bytes m a l) (a + Z.of_nat i) n = take n (drop i l).
Proof.
  intros Hl Hi. pose proof (bytes_store_bytes l m a Hl) as HB.
  rewrite <- HB at 2. replace (length l) with (i + (n + (length l - i - n)))%nat by lia.
  rewrite !bytes_app, drop_app_length', take_app_length' by (by rewrite length_bytes). done.
Qed.
Lemma bytes_sub m a l i n : bytes m a (length l) = l -> (i + n <= length l)%nat ->
  bytes m (a + Z.of_nat i) n = take n (drop i l).
Proof.
  intros HB Hi. rewrite <- HB at 1. replace (length l) with (i + (n + (length l - i - n)))%nat by lia.
  rewrite !bytes_app, drop_app_length', take_app_length' by (by rewrite length_bytes). done.
Qed.

(** Prepending a header. *)
Lemma holds_push m l nx hh len b' hdr : holds m l ->
  hh = m_head m - Z.of_nat (length hdr) -> len = m_len m + Z.of_nat (length hdr) ->
  bytes b' hh (length hdr) = hdr -> (forall c, m_head m <= c -> rd b' c = rd (m_buf m) c) ->
  holds (Mbuf nx hh len b') (hdr ++ l).
Proof.
  intros [H1 H2] -> -> Hh Hrd. split; cbn [m_head m_len m_buf].
  - rewrite length_app, bytes_app, Hh, Z.sub_add. f_equal. rewrite <- H1 at 2. apply bytes_ext. intros c Hc. apply Hrd. lia.
  - rewrite length_app in *. lia.
Qed.

(** ** Transmit *)

Lemma be16_len v : length (be16 v) = 2%nat.
Proof. done. Qed.
Lemma be32_len v : length (be32 v) = 4%nat.
Proof. done. Qed.
Create HintDb pkt.
Create Rewrite HintDb pkt.
#[export] Hint Rewrite be16_len be32_len length_le_bytes @length_replicate : pkt.
#[export] Hint Resolve be16_bytes be32_bytes le_bytes_bytes : pkt.

(** A field of a header under stores to other fields. *)
Ltac off_field := rewrite bytes_store_bytes_out by (autorewrite with pkt; cbn [length broadcast_mac local_mac]; lia).
Ltac on_field := apply bytes_store_at; [auto with pkt|by autorewrite with pkt].
Ltac field := repeat off_field; on_field.
Ltac untouched := repeat (rewrite rd_store_bytes_out by (autorewrite with pkt; cbn [length broadcast_mac local_mac]; lia)); reflexivity.

Ltac is_bytes := repeat (constructor; [unfold is_byte; lia|]); constructor.
Lemma mac_bytes : Forall is_byte local_mac /\ Forall is_byte broadcast_mac.
Proof. split; is_bytes. Qed.

Lemma wp_net_tx_eth h s a m l ty Q :
  mbufs s !! a = Some m -> holds m l -> 14 <= m_head m -> 0 <= ty < 65536 -> Z.of_nat (length l) + 14 < 2 ^ 32 ->
  (forall m', holds m' (eth_hdr ty ++ l) -> m_head m' = m_head m - 14 ->
    wp (r ← e1000_transmit a; if r =? 0 then mret tt else mbuffree a) (KSt h (setm a m' s)) Q) ->
  wp (net_tx_eth a ty) (KSt h s) Q.
Proof.
  intros Ha Hl Hh Hty HL HQ. unfold net_tx_eth. wstep. eapply wp_mbufpush; [exact Ha|done|]. do 6 nstep.
  rewrite le_bytes_bswaps by done. apply HQ; [|done]. unfold on_buf, set_head_len. cbn [m_next m_head m_len m_buf].
  destruct mac_bytes as [HB1 HB2].
  destruct (Hl) as [_ Hn]. apply (holds_push m l); [done|done|rewrite u32_small; cbn; lia| |].
  - change (length (eth_hdr ty)) with (6 + (6 + 2))%nat. rewrite !bytes_app. unfold eth_hdr. change (Z.of_nat 6) with 6.
    replace (m_head m - 14 + 6 + 6) with (m_head m - 14 + 12) by lia. f_equal; [by field|f_equal; by field].
  - intros c Hc. untouched.
Qed.

Lemma ip_hdr_sum_len sum len proto dip : length sum = 2%nat -> length (ip_hdr_sum sum len proto dip) = 20%nat.
Proof. intros H. unfold ip_hdr_sum. rewrite !length_app, H. done. Qed.
Lemma local_ip_range : 0 <= local_ip < 2 ^ 32.
Proof. split; [by vm_compute|by vm_compute]. Qed.

Lemma cksum_range l : Forall is_byte l -> 0 <= cksum l < 65536.
Proof. intros H. pose proof (ones_bound (sum16 l)). pose proof (sum16_bound l H). unfold cksum. lia. Qed.

(** The header net_tx_ip leaves in front of the packet, before and after the checksum. *)
Lemma ip_fields b h sum len proto dip :
  Forall is_byte sum -> length sum = 2%nat -> 0 <= len < 65536 -> 0 <= proto < 256 -> 0 <= dip < 2 ^ 32 ->
  let b' := store_bytes (store_bytes (store_bytes (store_bytes (store_bytes (store_bytes (store_bytes (store_bytes b
     h (replicate 20 0)) h (le_bytes 69 1)) (h + 9) (le_bytes proto 1)) (h + 12) (be32 local_ip)) (h + 16) (be32 dip))
     (h + 2) (be16 len)) (h + 8) (le_bytes 100 1)) (h + 10) sum in
  bytes b' h 20 = ip_hdr_sum sum len proto dip.
Proof.
  intros Hs Hsl Hlen Hp Hd. cbv zeta. pose proof local_ip_range as Hip.
  change 20%nat with (1 + (1 + (2 + (4 + (1 + (1 + (2 + (4 + 4))))))))%nat. rewrite !bytes_app.
  change (Z.of_nat 1) with 1. change (Z.of_nat 2) with 2. change (Z.of_nat 4) with 4. rewrite <- !Z.add_assoc. cbn [Z.add Pos.add Pos.succ Pos.add_carry].
  unfold ip_hdr_sum. assert (Forall is_byte (replicate 20 0)) as H0 by is_bytes.
  change ([69; 0] ++ be16 len ++ [0; 0; 0; 0; 100; proto] ++ sum ++ be32 local_ip ++ be32 dip)
    with ([69] ++ [0] ++ be16 len ++ [0; 0; 0; 0] ++ [100] ++ [proto] ++ sum ++ be32 local_ip ++ be32 dip).
  change [69] with (le_bytes 69 1). change [100] with (le_bytes 100 1).
  replace [proto] with (le_bytes proto 1) by (cbn; by rewrite Z.mod_small).
  assert (Hlen2 : forall (l : list Z), length l = 2%nat -> Z.of_nat (length l) = 2) by (by intros l ->).
  repeat f_equal.
  all: repeat (rewrite bytes_store_bytes_out by (rewrite ?Hsl; autorewrite with pkt; lia)).
  all: try (apply bytes_store_at; [by auto with pkt|by rewrite ?Hsl; autorewrite with pkt]).
  - apply (bytes_store_sub b h (replicate 20 0) 1 1 H0). cbn. lia.
  - apply (bytes_store_sub b h (replicate 20 0) 4 4 H0). cbn. lia.
Qed.

Lemma ip_hdr_bytes sum len proto dip : Forall is_byte sum ->
  0 <= len < 65536 -> 0 <= proto < 256 -> 0 <= dip < 2 ^ 32 -> Forall is_byte (ip_hdr_sum sum len proto dip).
Proof.
  intros Hs Hl Hp Hd. pose proof local_ip_range. unfold ip_hdr_sum. rewrite !Forall_app.
  split_and!; auto with pkt; is_bytes.
Qed.

Lemma wp_net_tx_ip h s a m l proto dip Q :
  mbufs s !! a = Some m -> holds m l -> 34 <= m_head m -> 0 <= proto < 256 -> 0 <= dip < 2 ^ 32 ->
  Z.of_nat (length l) + 34 < 65536 ->
  (forall m', holds m' (eth_hdr ETHTYPE_IP ++ ip_hdr (Z.of_nat (length l) + 20) proto dip ++ l) ->
    m_head m' = m_head m - 34 ->
    wp (r ← e1000_transmit a; if r =? 0 then mret tt else mbuffree a) (KSt h (setm a m' s)) Q) ->
  wp (net_tx_ip a proto dip) (KSt h s) Q.
Proof.
  intros Ha Hl Hh Hp Hd HL HQ. pose proof local_ip_range as Hip. destruct Hl as [Hb Hn]. unfold net_tx_ip. wstep.
  eapply wp_mbufpush; [exact Ha|lia|]. do 20 nstep.
  unfold on_buf, set_head_len. cbn [m_next m_head m_len m_buf].
  rewrite (u32_small (m_len m + 20)), u16_small, !le_bytes_bswapl, le_bytes_bswaps by lia.
  change (Z.lor (Z.shiftl 4 4) (Z.shiftr 20 2)) with 69.
  set (h0 := m_head m - 20). set (len := m_len m + 20). assert (0 <= len < 65536) as Hlen by lia.
  set (b0 := store_bytes _ (h0 + 8) _).
  assert (bytes b0 h0 20 = ip_hdr_sum [0; 0] len proto dip) as Hb0.
  { rewrite <- (ip_fields (m_buf m) h0 [0; 0] len proto dip); [|is_bytes|done..]. cbv zeta. fold b0. apply bytes_ext.
    intros c Hc.
    destruct (decide (h0 + 10 <= c < h0 + 12)) as [Hc2|Hc2]; [|by rewrite rd_store_bytes_out by (cbn; lia)].
    assert (bytes b0 (h0 + 10) 2 = [0; 0]) as E0.
    { subst b0. repeat (rewrite bytes_store_bytes_out by (autorewrite with pkt; lia)).
      apply (bytes_store_sub _ h0 (replicate 20 0) 10 2); [is_bytes|cbn; lia]. }
    assert (bytes (store_bytes b0 (h0 + 10) [0; 0]) (h0 + 10) 2 = [0; 0]) as E1 by (apply bytes_store_at; [is_bytes|done]).
    cbn [bytes] in E0, E1. injection E0 as E0 E0'. injection E1 as E1 E1'. cbn [store_bytes].
    assert (c = h0 + 10 \/ c = h0 + 10 + 1) as [-> | ->] by lia; congruence. }
  rewrite (in_cksum_eq b0 h0 20 ltac:(cbn; lia) : in_cksum b0 h0 20 = _), Hb0.
  pose proof (cksum_range _ (ip_hdr_bytes [0; 0] len proto dip ltac:(is_bytes) Hlen Hp Hd)) as Hck.
  set (sum := le_bytes (cksum (ip_hdr_sum [0; 0] len proto dip)) 2).
  eapply (wp_net_tx_eth _ _ _ _ (ip_hdr_sum sum len proto dip ++ l)); [apply setm_lookup| | |done|rewrite length_app, ip_hdr_sum_len by done; lia|].
  - apply (holds_push m l); [done|by rewrite ip_hdr_sum_len|by rewrite ip_hdr_sum_len| |].
    + rewrite ip_hdr_sum_len by done. subst b0. apply ip_fields; [apply le_bytes_bytes|done..].
    + intros c Hc. subst b0. repeat (rewrite rd_store_bytes_out by (subst h0; unfold sum; autorewrite with pkt; lia)). done.
  - cbn. lia.
  - intros m' Hm' Hh'. rewrite setm_setm. apply HQ; [|cbn in Hh'; lia]. unfold ip_hdr. rewrite <- Hn. exact Hm'.
Qed.

Lemma wp_net_tx_udp h s a m l dip sport dport Q :
  mbufs s !! a = Some m -> holds m l -> 42 <= m_head m -> 0 <= dip < 2 ^ 32 -> 0 <= sport < 65536 -> 0 <= dport < 65536 ->
  Z.of_nat (length l) + 42 < 65536 ->
  (forall m', holds m' (eth_hdr ETHTYPE_IP ++ ip_hdr (Z.of_nat (length l) + 28) IPPROTO_UDP dip ++
                         udp_hdr (Z.of_nat (length l) + 8) sport dport ++ l) ->
    m_head m' = m_head m - 42 ->
    wp (r ← e1000_transmit a; if r =? 0 then mret tt else mbuffree a) (KSt h (setm a m' s)) Q) ->
  wp (net_tx_udp a dip sport dport) (KSt h s) Q.
Proof.
  intros Ha Hl Hh Hd Hsp Hdp HL HQ. destruct (Hl) as [Hb Hn]. unfold net_tx_udp. wstep.
  eapply wp_mbufpush; [exact Ha|lia|]. do 10 nstep.
  unfold on_buf, set_head_len. cbn [m_next m_head m_len m_buf].
  rewrite (u32_small (m_len m + 8)), u16_small, !le_bytes_bswaps by lia.
  set (len := m_len m + 8). assert (0 <= len < 65536) as Hlen by lia.
  eapply (wp_net_tx_ip _ _ _ _ (udp_hdr len sport dport ++ l)); [apply setm_lookup| |cbn;lia|done|done|rewrite length_app; cbn; lia|].
  - apply (holds_push m l); [done..| |].
    + change (length (udp_hdr len sport dport)) with (2 + (2 + (2 + 2)))%nat. rewrite !bytes_app. unfold udp_hdr. change (Z.of_nat 2) with 2.
      rewrite <- !Z.add_assoc. change (2 + (2 + 2)) with 6. change (2 + 2) with 4. change [0; 0] with (le_bytes 0 2).
      repeat f_equal; by field.
    + intros c Hc. untouched.
  - intros m' Hm' Hh'. rewrite setm_setm. apply HQ; [|cbn in Hh'; lia].
    rewrite length_app in Hm'. replace (Z.of_nat (length (udp_hdr len sport dport) + length l) + 20) with (Z.of_nat (length l) + 28) in Hm' by (cbn; lia).
    subst len. rewrite Hn in Hm'. exact Hm'.
Qed.

(** ** Receive *)

Lemma wp_if_false {A} (b : bool) (x y : M netst A) k Q : b = false -> wp y k Q -> wp (if b then x else y) k Q.
Proof. by intros ->. Qed.

Lemma ones_neg s : 0 <= s -> ones (s + (65535 - ones s)) = 65535.
Proof. intros Hs. unfold ones at 2. unfold ones. destruct (Z.eqb_spec s 0) as [->|]; [done|]. repeat case_match; zbool; dlia. Qed.

(** The checksum of a header that carries its own checksum is zero. *)
Lemma ip_hdr_cksum len proto dip : 0 <= len < 65536 -> 0 <= proto < 256 -> 0 <= dip < 2 ^ 32 ->
  cksum (ip_hdr len proto dip) = 0.
Proof.
  intros Hl Hp Hd. unfold ip_hdr. set (z := ip_hdr_sum [0; 0] len proto dip).
  assert (Forall is_byte z) as Hz by (apply ip_hdr_bytes; [is_bytes|done..]).
  pose proof (cksum_range z Hz) as Hc. pose proof (sum16_bound z Hz) as [Hs _].
  assert (sum16 (ip_hdr_sum (le_bytes (cksum z) 2) len proto dip) = sum16 z + of_le (le_bytes (cksum z) 2)) as E.
  { subst z. unfold ip_hdr_sum. cbn [le_bytes be16 be32 app sum16 of_le]. lia. }
  unfold cksum at 1. rewrite E, of_le_bytes by exact Hc. unfold cksum. rewrite ones_neg by done. lia.
Qed.

(** Reading a field of a packet: [i] bytes into it, [n] long. *)
Lemma pkt_field m F i n x off : bytes (m_buf m) (m_head m) (length F) = F -> off = m_head m + Z.of_nat i ->
  (i + n <= length F)%nat -> take n (drop i F) = x -> bytes (m_buf m) off n = x.
Proof. intros HF -> Hi <-. by apply bytes_sub. Qed.

Definition udp_frame (dip sport dport : Z) (pl : list Z) : list Z :=
  eth_hdr ETHTYPE_IP ++ ip_hdr (Z.of_nat (length pl) + 28) IPPROTO_UDP dip ++
  udp_hdr (Z.of_nat (length pl) + 8) sport dport ++ pl.

Section receive.
Variables (h : list lockid) (s : netst) (a : Z) (m : mbuf) (dip sport dport : Z) (pl pad : list Z).
Hypothesis Ha : mbufs s !! a = Some m.
Let F := udp_frame dip sport dport pl ++ pad.
Hypothesis HF : holds m F.
Hypotheses (Hdip : 0 <= dip < 2 ^ 32) (Hsp : 0 <= sport < 65536) (Hdp : 0 <= dport < 65536).
Hypothesis Hlen : Z.of_nat (length pl) + 28 < 65536.

Lemma frame_len : length F = (42 + length pl + length pad)%nat.
Proof. unfold F, udp_frame, ip_hdr. rewrite !length_app, ip_hdr_sum_len by done. cbn [length eth_hdr udp_hdr broadcast_mac local_mac be16 app]. lia. Qed.

Lemma frame_field i n x off : off = m_head m + Z.of_nat i -> (i + n <= 42)%nat -> take n (drop i F) = x ->
  bytes (m_buf m) off n = x.
Proof. intros Eo Hi Ht. eapply pkt_field; [apply HF|done|rewrite frame_len; lia|done]. Qed.

Ltac fld i x :=
  match goal with |- context [of_le (bytes (m_buf m) ?off ?n)] =>
    rewrite (frame_field i n x off ltac:(lia) ltac:(lia) ltac:(reflexivity)) end.

Lemma frame_payload : bytes (m_buf m) (m_head m + 42) (length pl) = pl.
Proof.
  eapply (pkt_field m F 42 (length pl)); [apply HF|lia|rewrite frame_len; lia|].
  unfold F, udp_frame. rewrite <- app_assoc.
  assert (forall hdr : list Z, length hdr = 42%nat -> take (length pl) (drop 42 (hdr ++ (pl ++ pad))) = pl) as E.
  { intros hdr <-. by rewrite drop_app_length, take_app_length. }
  rewrite <- !app_assoc. rewrite (app_assoc (ip_hdr _ _ _)), app_assoc. apply E.
  unfold ip_hdr. rewrite !length_app, ip_hdr_sum_len by done. done.
Qed.

(** The checks of net_rx and net_rx_ip up to the destination address. *)
Lemma wp_net_rx_dst Q :
  (forall m', m_buf m' = m_buf m -> m_head m' = m_head m + 34 -> m_len m' = m_len m - 34 ->
    wp (if negb (dip =? local_ip) then mbuffree a else
        net_rx_udp a (Z.of_nat (length pl) + 8) (m_head m + 14)) (KSt h (setm a m' s)) Q) ->
  wp (net_rx a) (KSt h s) Q.
Proof.
  intros HQ. destruct HF as [HB HN]. pose proof frame_len as HL. rewrite HL in HN. pose proof local_ip_range as Hip.
  unfold net_rx. wstep. eapply wp_mbufpull; [exact Ha|lia|intros _].
  wstep. nstep. unfold set_head_len; cbn [m_buf m_head m_len m_next]. fld 12%nat (be16 ETHTYPE_IP). rewrite bswaps_be16, Z.eqb_refl by done.
  unfold net_rx_ip. wstep. eapply wp_mbufpull; [apply setm_lookup|cbn;lia|intros _]. rewrite setm_setm.
  unfold set_head_len; cbn [m_buf m_head m_len m_next].
  wstep. nstep. cbn [m_buf]. fld 14%nat [69]. apply wp_if_false; [done|].
  wstep. nstep. cbn [m_buf].
  rewrite (in_cksum_eq (m_buf m) (m_head m + 14) 20 ltac:(cbn; lia) : in_cksum (m_buf m) (m_head m + 14) 20 = _).
  rewrite (frame_field 14 20 (ip_hdr (Z.of_nat (length pl) + 28) IPPROTO_UDP dip) (m_head m + 14)) by first [lia|reflexivity].
  rewrite ip_hdr_cksum by first [lia|done]. apply wp_if_false; [done|].
  wstep. nstep. cbn [m_buf]. fld 20%nat [0; 0]. apply wp_if_false; [done|].
  wstep. nstep. cbn [m_buf]. fld 30%nat (be32 dip). rewrite bswapl_be32 by done.
  match goal with |- wp _ (KSt _ (setm _ ?m' _)) _ => specialize (HQ m' eq_refl) end.
  cbn [m_head m_len] in HQ. specialize (HQ ltac:(lia) ltac:(lia)).
  destruct (negb (dip =? local_ip)); [exact HQ|].
  wstep. nstep. cbn [m_buf]. fld 23%nat [17]. apply wp_if_false; [done|].
  wstep. nstep. cbn [m_buf]. fld 16%nat (be16 (Z.of_nat (length pl) + 28)). rewrite bswaps_be16 by lia.
  rewrite u16_small by lia. replace (Z.of_nat (length pl) + 28 - 20) with (Z.of_nat (length pl) + 8) by lia. exact HQ.
Qed.

Lemma wp_net_rx_for_us Q : dip = local_ip ->
  (forall m', holds m' pl -> wp (sockrecvudp a local_ip dport sport) (KSt h (setm a m' s)) Q) ->
  wp (net_rx a) (KSt h s) Q.
Proof.
  intros Hus HQ. apply wp_net_rx_dst. intros m1 E1 E2 E3. rewrite Hus, Z.eqb_refl. cbn [negb].
  destruct HF as [HB HN]. pose proof frame_len as HL. rewrite HL in HN. pose proof local_ip_range as Hip.
  unfold net_rx_udp. wstep. eapply wp_mbufpull; [apply setm_lookup|lia|intros _]. rewrite setm_setm.
  wstep. nstep. unfold set_head_len; cbn [m_buf m_head m_len m_next]. rewrite E1, E2. fld 38%nat (be16 (Z.of_nat (length pl) + 8)).
  rewrite bswaps_be16, Z.eqb_refl by lia. cbn [negb].
  rewrite u16_small by lia. wstep. nstep. cbn [m_len]. destruct (Z.ltb_spec (m_len m1 - 8) (Z.of_nat (length pl) + 8 - 8)); [lia|].
  wstep. eapply wp_mbuftrim; [apply setm_lookup|cbn; lia|]. rewrite setm_setm. unfold set_head_len; cbn [m_buf m_head m_len m_next].
  wstep. nstep. cbn [m_buf]. rewrite ?E1. fld 26%nat (be32 local_ip). wstep. nstep. cbn [m_buf]. rewrite ?E1. fld 34%nat (be16 sport).
  wstep. nstep. cbn [m_buf]. rewrite ?E1. fld 36%nat (be16 dport).
  rewrite bswapl_be32, !bswaps_be16 by done. apply HQ. split; cbn [m_buf m_head m_len]; [|lia].
  rewrite ?E1, ?E2. replace (m_head m + 34 + 8) with (m_head m + 42) by lia. apply frame_payload.
Qed.

Lemma wp_net_rx_not_us Q : dip <> local_ip ->
  (forall m', wp (mbuffree a) (KSt h (setm a m' s)) Q) -> wp (net_rx a) (KSt h s) Q.
Proof.
  intros Hus HQ. apply wp_net_rx_dst. intros m1 _ _ _. destruct (Z.eqb_spec dip local_ip); [done|]. apply HQ.
Qed.
End receive.
