(* ===== verification/NetInv.v ===== *)
(** * No packet buffer is lost or used after it is freed

    [net_inv pool hand loose Q s]: the pages of [pool] are exactly the free pages, the
    buffers [hand] and sockets [loose] of the running code, the buffers in the transmit ring, the
    sockets, and the buffers queued on sockets (the receive ring is part of [hand]); [Q si] is the queue of the socket [si], as the
    chain of [next] pointers between its two ends. *)
From S2P Require Import Prelude Mem Sleeplock Ftable Mbuf Net NetSpec.

(** Membership in explicit concatenations. *)
Ltac mem :=
  repeat match goal with
  | H : _ /\ _ |- _ => destruct H
  | H : _ \/ _ |- _ => destruct H
  | H : _ ∈ _ ++ _ |- _ => apply elem_of_app in H
  | H : _ ∈ _ :: _ |- _ => apply elem_of_cons in H
  | H : ~ (_ ∈ _ ++ _) |- _ => apply not_elem_of_app in H
  | H : ~ (_ ∈ _ :: _) |- _ => apply not_elem_of_cons in H
  | |- context [_ ∈ _ ++ _] => rewrite elem_of_app
  | |- context [_ ∈ _ :: _] => rewrite elem_of_cons
  end; intuition (try congruence).

Definition nz (l : list Z) : list Z := filter (fun x => x <> 0) l.
Definition slots : list Z := seqZ 0 16.
Definition txl (s : netst) : list Z := nz (txm s <$> slots).
Definition rxl (s : netst) : list Z := rxm s <$> slots.

Fixpoint mchain (t : gmap Z mbuf) (h : Z) (l : list Z) : Prop :=
  match l with
  | [] => h = 0
  | a :: l' => h = a /\ a <> 0 /\ exists m, t !! a = Some m /\ mchain t (m_next m) l'
  end.

Definition sock_ok (t : gmap Z mbuf) (x : sock) (l : list Z) : Prop :=
  mchain t (rxq_head x) l /\ (l <> [] -> last l = Some (rxq_tail x)) /\
  0 <= raddr x < 2 ^ 32 /\ 0 <= lport x < 65536 /\ 0 <= rport x < 65536.

Record net_inv (pool hand loose : list Z) (Q : Z -> list Z) (s : netst) : Prop := {
  ni_pool : NoDup pool /\ (0 ∉ pool);
  ni_perm : pages s ++ hand ++ txl s ++ loose ++ sockets s ++ (sockets s ≫= Q) ≡ₚ pool;
  ni_mbufs : forall a, is_Some (mbufs s !! a) <-> a ∈ hand ++ txl s ++ (sockets s ≫= Q);
  ni_socks : forall si, is_Some (socks s !! si) <-> si ∈ loose ++ sockets s;
  ni_q : forall si x, si ∈ sockets s -> socks s !! si = Some x -> sock_ok (mbufs s) x (Q si);
  ni_tdt : 0 <= tdt s < 16;
  ni_rdt : 0 <= rdt s < 16;
}.

(** ** Chains *)

Lemma mchain_ext t t' h l : (forall a, a ∈ l -> t' !! a = t !! a) -> mchain t h l -> mchain t' h l.
Proof.
  revert h. induction l as [|a l IH]; intros h Ht; [done|]. intros (-> & Ha & m & Hm & Hc). split_and!; [done..|].
  exists m. rewrite Ht by set_solver. split; [done|]. apply IH; [|done]. intros b Hb. apply Ht. set_solver.
Qed.
Lemma mchain_nil t l : mchain t 0 l -> l = [].
Proof. destruct l as [|a l]; [done|]. intros (E & Ha & _). by subst a. Qed.
Lemma mchain_cons t h l : mchain t h l -> h <> 0 -> exists l' m, l = h :: l' /\ t !! h = Some m /\ mchain t (m_next m) l'.
Proof. destruct l as [|a l]; [done|]. intros (-> & Ha & m & Hm & Hc) _. by exists l, m. Qed.

(** Linking [a] behind the last element [b] of a chain. *)
Lemma mchain_snoc t a b ma mb l h :
  mchain t h (l ++ [b]) -> t !! b = Some mb -> b ∉ l -> a ∉ l -> a <> b -> a <> 0 ->
  mchain (<[b := set_next a mb]> (<[a := set_next 0 ma]> t)) h (l ++ [b; a]).
Proof.
  revert h. induction l as [|c l IH]; intros h Hc Hb Hbl Hal Hab Ha0; cbn [app mchain] in *.
  - destruct Hc as (-> & Hb0 & m & Hm & _). split_and!; [done..|]. exists (set_next a mb). rewrite lookup_insert_eq. split; [done|].
    cbn. split_and!; [done..|]. exists (set_next 0 ma). by rewrite lookup_insert_ne, lookup_insert_eq by done.
  - destruct Hc as (-> & Hc0 & m & Hm & Hc). split_and!; [done..|]. exists m.
    rewrite !lookup_insert_ne by set_solver. split; [done|]. apply IH; [done..|set_solver|set_solver|done|done].
Qed.

(** ** Rings *)

Lemma slots_split i : 0 <= i < 16 -> exists l1 l2, slots = l1 ++ i :: l2 /\ (i ∉ l1) /\ i ∉ l2.
Proof.
  intros Hi. assert (i ∈ slots) as [l1 [l2 E]]%list_elem_of_split by (apply elem_of_seqZ; lia).
  exists l1, l2. split; [done|]. pose proof (NoDup_seqZ 0 16) as HN. fold slots in HN. rewrite E in HN.
  apply NoDup_app in HN as (_ & H1 & H2). apply NoDup_cons in H2 as [H2 _]. split; [|done]. intros Hi1. apply (H1 i Hi1). set_solver.
Qed.
(** One slot of a ring and the others. *)
Lemma ring_split i : 0 <= i < 16 -> exists l1 l2, forall f : Z -> Z, exists A B,
  f <$> slots = A ++ f i :: B /\ (forall g, (forall j, j <> i -> g j = f j) -> g <$> slots = A ++ g i :: B) /\
  A = f <$> l1 /\ B = f <$> l2.
Proof.
  intros Hi. destruct (slots_split i Hi) as (l1 & l2 & E & H1 & H2). exists l1, l2. intros f. exists (f <$> l1), (f <$> l2).
  split_and!; try done; [by rewrite E, fmap_app|]. intros g Hg. rewrite E, fmap_app, fmap_cons. f_equal; [|f_equal];
    apply list_fmap_ext; intros k x Hx%list_elem_of_lookup_2; apply Hg; congruence.
Qed.
Lemma nz_app l1 l2 : nz (l1 ++ l2) = nz l1 ++ nz l2.
Proof. apply filter_app. Qed.
Lemma nz_cons a l : a <> 0 -> nz (a :: l) = a :: nz l.
Proof. intros. by apply filter_cons_True. Qed.
Lemma nz_zero l : nz (0 :: l) = nz l.
Proof. apply filter_cons_False. naive_solver. Qed.
Lemma txl_split s i : 0 <= i < 16 -> exists A B,
  txl s = A ++ nz [txm s i] ++ B /\
  (forall s', (forall j, j <> i -> txm s' j = txm s j) -> txl s' = A ++ nz [txm s' i] ++ B).
Proof.
  intros Hi. destruct (ring_split i Hi) as (l1 & l2 & H). destruct (H (txm s)) as (A & B & E1 & E2 & _).
  exists (nz A), (nz B). unfold txl. split.
  - rewrite E1, nz_app. f_equal. apply (nz_app [_] B).
  - intros s' Hs'. rewrite (E2 _ Hs'), nz_app. f_equal. apply (nz_app [_] B).
Qed.
Lemma rxl_split s i : 0 <= i < 16 -> exists A B,
  rxl s = A ++ rxm s i :: B /\ (forall s', (forall j, j <> i -> rxm s' j = rxm s j) -> rxl s' = A ++ rxm s' i :: B).
Proof.
  intros Hi. destruct (ring_split i Hi) as (l1 & l2 & H). destruct (H (rxm s)) as (A & B & E1 & E2 & _).
  exists A, B. split; [done|]. intros s' Hs'. exact (E2 _ Hs').
Qed.

(** ** Moving buffers between the owners *)

Section inv.
Context {pool : list Z}.
Implicit Types (hand loose : list Z) (Q : Z -> list Z) (s : netst).

Lemma inv_nodup hand loose Q s : net_inv pool hand loose Q s ->
  NoDup (pages s ++ hand ++ txl s ++ loose ++ sockets s ++ (sockets s ≫= Q)).
Proof. intros H. rewrite (ni_perm _ _ _ _ _ H). apply H. Qed.

Lemma hand_only hand loose Q s a : net_inv pool hand loose Q s -> a ∈ hand ->
  (a ∉ txl s ++ loose ++ sockets s ++ (sockets s ≫= Q)) /\ a <> 0.
Proof.
  intros H Ha. pose proof (inv_nodup _ _ _ _ H) as HN. split.
  - apply NoDup_app in HN as (_ & _ & (_ & HN & _)%NoDup_app). by apply HN.
  - intros ->. apply (proj2 (ni_pool _ _ _ _ _ H)). rewrite <- (ni_perm _ _ _ _ _ H). mem.
Qed.
Lemma in_queue Q l si a : si ∈ l -> a ∈ Q si -> a ∈ l ≫= Q.
Proof. intros. apply list_elem_of_bind. eauto. Qed.

Lemma inv_hand hand hand' loose Q s : hand ≡ₚ hand' -> net_inv pool hand loose Q s -> net_inv pool hand' loose Q s.
Proof. intros E [H1 H2 H3 H4 H5 H6 H7]. split; try done; [by rewrite <- E|]. intros a. rewrite H3. by rewrite E. Qed.

Lemma inv_mbuf hand loose Q s a : net_inv pool hand loose Q s -> a ∈ hand -> exists m, mbufs s !! a = Some m.
Proof. intros H Ha. apply (ni_mbufs _ _ _ _ _ H). mem. Qed.

(** Writing to a buffer the code holds. *)
Lemma inv_setm hand loose Q s a m : net_inv pool hand loose Q s -> a ∈ hand -> net_inv pool hand loose Q (setm a m s).
Proof.
  intros H Ha. destruct (hand_only _ _ _ _ _ H Ha) as [Hn _]. destruct H as [H1 H2 H3 H4 H5 H6 H7]. split; try done.
  - intros b. cbn. destruct (decide (a = b)) as [->|Hab].
    + rewrite lookup_insert_eq. split; [intros _; mem|by eexists].
    + rewrite lookup_insert_ne by done. apply H3.
  - intros si x Hsi Hx. destruct (H5 si x Hsi Hx) as (Hc & Hl & Hr). split; [|done].
    eapply mchain_ext; [|exact Hc]. intros b Hb. cbn. apply lookup_insert_ne. intros ->. apply Hn.
    pose proof (in_queue Q (sockets s) si b Hsi Hb). mem.
Qed.

Lemma inv_alloc hand loose Q s p l m : pages s = p :: l -> net_inv pool hand loose Q s ->
  p <> 0 /\ net_inv pool (p :: hand) loose Q (setm p m (with_pages l s)).
Proof.
  intros Hp H. pose proof (inv_nodup _ _ _ _ H) as HN. rewrite Hp in HN. cbn [app] in HN. apply NoDup_cons in HN as [Hpn HN].
  assert (p <> 0) as Hp0.
  { intros ->. apply (proj2 (ni_pool _ _ _ _ _ H)). rewrite <- (ni_perm _ _ _ _ _ H), Hp. mem. }
  split; [done|]. destruct H as [H1 H2 H3 H4 H5 H6 H7]. split; try done; cbn [mbufs setm with_mbufs with_pages pages sockets socks].
  - change (txl _) with (txl s). rewrite <- H2, Hp. cbn. by rewrite <- Permutation_middle.
  - change (txl _) with (txl s). intros b. destruct (decide (p = b)) as [->|Hpb].
    + rewrite lookup_insert_eq. split; [intros _; mem|by eexists].
    + rewrite lookup_insert_ne, H3 by done. mem.
  - intros si x Hsi Hx. destruct (H5 si x Hsi Hx) as (Hc & Hl & Hr). split; [|done].
    eapply mchain_ext; [|exact Hc]. intros b Hb. apply lookup_insert_ne. intros ->. apply Hpn.
    pose proof (in_queue Q (sockets s) si b Hsi Hb). mem.
Qed.

Definition freed (a : Z) (s : netst) : netst := with_pages (a :: pages s) (with_mbufs (delete a (mbufs s)) s).
Lemma inv_free hand loose Q s a : net_inv pool (a :: hand) loose Q s -> net_inv pool hand loose Q (freed a s).
Proof.
  intros H. destruct (hand_only _ _ _ _ a H ltac:(mem)) as [Hn _]. pose proof (inv_nodup _ _ _ _ H) as HN.
  apply NoDup_app in HN as (_ & _ & (HN & _)%NoDup_app). apply NoDup_cons in HN as [Hah _].
  destruct H as [H1 H2 H3 H4 H5 H6 H7]. split; try done; cbn [mbufs freed with_mbufs with_pages pages sockets socks].
  - change (txl _) with (txl s). rewrite <- H2. cbn. by rewrite <- Permutation_middle.
  - change (txl _) with (txl s). intros b. destruct (decide (a = b)) as [->|Hpb].
    + rewrite lookup_delete_eq. split; [by intros []|]. intros Hb. mem.
    + rewrite lookup_delete_ne, H3 by done. mem.
  - intros si x Hsi Hx. destruct (H5 si x Hsi Hx) as (Hc & Hl & Hr). split; [|done].
    eapply mchain_ext; [|exact Hc]. intros b Hb. apply lookup_delete_ne. intros ->. apply Hn.
    pose proof (in_queue Q (sockets s) si b Hsi Hb). mem.
Qed.

Lemma wp_mbuffree_inv h hand loose Q s a (P : unit -> kst netst -> Prop) : net_inv pool (a :: hand) loose Q s ->
  (net_inv pool hand loose Q (freed a s) -> P tt (KSt h (freed a s))) -> wp (mbuffree a) (KSt h s) P.
Proof.
  intros H HP. destruct (inv_mbuf _ _ _ _ a H ltac:(mem)) as [m Hm]. nstep. apply HP. by apply inv_free.
Qed.

(** An allocation fails only when no page is free. *)
Lemma wp_mbufalloc h hand loose Q s hr (P : Z -> kst netst -> Prop) : net_inv pool hand loose Q s -> hr <= MBUF_SIZE ->
  (pages s = [] -> P 0 (KSt h s)) ->
  (forall a l s', pages s = a :: l -> s' = setm a (Mbuf 0 hr 0 ∅) (with_pages l s) -> a <> 0 ->
     net_inv pool (a :: hand) loose Q s' -> P a (KSt h s')) ->
  wp (mbufalloc hr) (KSt h s) P.
Proof.
  intros H Hhr H0 H1. unfold mbufalloc, MBUF_SIZE in *. destruct (Z.ltb_spec 2048 hr); [lia|]. wstep. unfold page_alloc. wstep. wstep.
  destruct (pages s) as [|a l] eqn:Hp; [wstep; by apply H0|].
  destruct (inv_alloc _ _ _ _ _ _ (Mbuf 0 hr 0 ∅) Hp H) as [Ha0 Ha]. wstep. wstep. wstep. destruct (Z.eqb_spec a 0); [done|].
  wstep. nstep. wstep. by eapply H1.
Qed.

(** Only the transmit ring and the pool change. *)
Definition same_rx (s s' : netst) : Prop :=
  rx_ring s' = rx_ring s /\ rx_mbufs s' = rx_mbufs s /\ rdt s' = rdt s /\
  socks s' = socks s /\ sockets s' = sockets s /\ nkilled s' = nkilled s.

(** Replacing the contents of the slot [i] of the transmit ring, [a] taken from the hand. *)
Lemma inv_tx_slot hand loose Q s a i r t :
  net_inv pool (a :: hand) loose Q s -> 0 <= i < 16 -> 0 <= t < 16 -> txm s i = 0 ->
  net_inv pool hand loose Q (with_tx r (<[i := a]> (tx_mbufs s)) t s).
Proof.
  intros H Hi Ht H0. destruct (hand_only _ _ _ _ a H ltac:(mem)) as [_ Ha0].
  destruct (txl_split s i Hi) as (A & B & E1 & E2). rewrite H0, nz_zero in E1.
  set (s' := with_tx _ _ _ _). assert (txl s' = A ++ a :: B) as E'.
  { assert (txm s' i = a) as Ea by (unfold txm, s'; cbn; by rewrite lookup_insert_eq).
    rewrite (E2 s'); [by rewrite Ea, nz_cons|]. intros j Hj. unfold txm, s'. cbn. by rewrite lookup_insert_ne. }
  cbn in E1. destruct H as [H1 H2 H3 H4 H5 H6 H7]. split; try done.
  - rewrite E'. cbn. rewrite <- H2, E1. rewrite <- !app_assoc. cbn.
    solve_Permutation.
  - rewrite E'. intros b. cbn. rewrite H3, E1. mem.
Qed.

(** Freeing the old buffer of a slot. *)
Lemma inv_tx_clear hand loose Q s i : net_inv pool hand loose Q s -> 0 <= i < 16 -> txm s i <> 0 ->
  let s1 := freed (txm s i) s in
  net_inv pool hand loose Q (with_tx (tx_ring s1) (<[i := 0]> (tx_mbufs s1)) (tdt s1) s1) /\ is_Some (mbufs s !! txm s i).
Proof.
  intros H Hi H0. destruct (txl_split s i Hi) as (A & B & E1 & E2). rewrite nz_cons in E1 by done. cbn in E1.
  set (s2 := with_tx (tx_ring s) (<[i := 0]> (tx_mbufs s)) (tdt s) s).
  assert (txl s2 = A ++ B) as E'.
  { assert (txm s2 i = 0) as Ea by (unfold txm, s2; cbn; by rewrite lookup_insert_eq).
    rewrite (E2 s2); [by rewrite Ea, nz_zero|]. intros j Hj. unfold txm, s2. cbn. by rewrite lookup_insert_ne. }
  assert (net_inv pool (txm s i :: hand) loose Q s2) as H2.
  { destruct H as [H1 H2 H3 H4 H5 H6 H7]. split; try done.
    - rewrite E'. cbn. rewrite <- H2, E1. rewrite <- !app_assoc. cbn. solve_Permutation.
    - rewrite E'. intros b. cbn. rewrite H3, E1. mem. }
  split; [by apply inv_free in H2|]. by apply (inv_mbuf _ _ _ _ _ H2); mem.
Qed.

(** The next descriptor still belongs to the card. *)
Definition tx_busy (s : netst) : bool := Z.land (t_status (txd s (tdt s))) E1000_TXD_STAT_DD =? 0.

(** What a successful e1000_transmit has done with the buffer [a]. *)
Record queued (a : Z) (s s' : netst) : Prop := {
  qd_slot : txm s' (tdt s) = a;
  qd_buf : mbufs s' !! a = mbufs s !! a;
  qd_desc : forall m, mbufs s !! a = Some m ->
    t_addr (txd s' (tdt s)) = a + MBUF_BUF + m_head m /\ t_length (txd s' (tdt s)) = u16 (m_len m) /\
    t_cmd (txd s' (tdt s)) = 9;
  qd_tail : tdt s' = (tdt s + 1) mod 16;
  qd_rx : same_rx s s';
}.

Lemma wp_e1000_transmit h hand loose Q s a (P : Z -> kst netst -> Prop) :
  e1000_lock ∉ h -> net_inv pool (a :: hand) loose Q s -> (tx_busy s = true -> P (-1) (KSt h s)) ->
  (forall s', net_inv pool hand loose Q s' -> queued a s s' -> (length (pages s) <= length (pages s'))%nat -> P 0 (KSt h s')) ->
  wp (e1000_transmit a) (KSt h s) P.
Proof.
  intros Hh H HF HS. pose proof (ni_tdt _ _ _ _ _ H) as Ht. unfold e1000_transmit. do 6 wstep.
  fold (tx_busy s). destruct (tx_busy s); [wsteps; by apply HF|]. do 3 wstep.
  destruct (inv_mbuf _ _ _ _ a H ltac:(mem)) as [m Hm]. unfold TX_RING_SIZE.
  assert (0 <= (tdt s + 1) mod 16 < 16) as Ht' by (apply Z.mod_pos_bound; lia).
  destruct (Z.eqb_spec (txm s (tdt s)) 0) as [E0|E0].
  - do 2 wstep. nstep. do 4 wstep. apply HS.
    + by apply inv_tx_slot.
    + split; try done; cbn.
      * unfold txm. cbn. by rewrite lookup_insert_eq.
      * intros m' Hm'. assert (m' = m) as -> by congruence. unfold txd. cbn. by rewrite lookup_insert_eq.
    + done.
  - destruct (inv_tx_clear _ _ _ _ _ H Ht E0) as [H2 [m0 Hm0]]. cbv zeta in H2.
    wstep. eapply wp_mbuffree; [exact Hm0|]. do 2 wstep. fold (freed (txm s (tdt s)) s).
    set (s2 := with_tx _ _ _ (freed _ s)) in *.
    assert (txm s (tdt s) <> a) as Hne.
    { intros E. destruct (hand_only _ _ _ _ a H ltac:(mem)) as [Hn _]. apply Hn. rewrite <- E. apply elem_of_app. left.
      unfold txl, nz. apply list_elem_of_filter. split; [congruence|]. apply list_elem_of_fmap. exists (tdt s). split; [done|].
      apply elem_of_seqZ. lia. }
    assert (mbufs s2 !! a = Some m) as Hm2 by (unfold s2; cbn; by rewrite lookup_delete_ne).
    nstep. do 4 wstep. apply HS.
    + apply inv_tx_slot; [done..|]. unfold txm, s2. cbn. by rewrite lookup_insert_eq.
    + split; try done; cbn.
      * unfold txm. cbn. by rewrite lookup_insert_eq.
      * by rewrite lookup_delete_ne.
      * intros m' Hm'. assert (m' = m) as -> by congruence. unfold txd. cbn. by rewrite lookup_insert_eq.
    + cbn. lia.
Qed.

(** The end of net_tx_eth: the packet is queued for the card, or dropped. *)
Lemma wp_tx_tail h hand loose Q s a (P : unit -> kst netst -> Prop) :
  e1000_lock ∉ h -> net_inv pool (a :: hand) loose Q s ->
  (forall s', net_inv pool hand loose Q s' -> same_rx s s' -> (queued a s s' \/ s' = freed a s /\ tx_busy s = true) ->
     (length (pages s) <= length (pages s'))%nat -> P tt (KSt h s')) ->
  wp (r ← e1000_transmit a; if r =? 0 then mret tt else mbuffree a) (KSt h s) P.
Proof.
  intros Hh H HP. wstep. eapply wp_e1000_transmit; [done|exact H|..].
  - intros Hb. change (-1 =? 0) with false. cbv iota. eapply wp_mbuffree_inv; [exact H|]. intros H'. apply HP; [done|by repeat split|by right|cbn; lia].
  - intros s' H' Hq Hl. cbv beta. change (0 =? 0) with true. cbv iota. wstep. apply HP; [done|apply Hq|by left|done].
Qed.

Lemma holds_any m : 0 <= m_len m -> holds m (bytes (m_buf m) (m_head m) (Z.to_nat (m_len m))).
Proof. intros H. unfold holds. rewrite length_bytes. split; [done|lia]. Qed.

Lemma wp_net_tx_arp h hand loose Q s op dmac dip (P : Z -> kst netst -> Prop) :
  e1000_lock ∉ h -> net_inv pool hand loose Q s ->
  (forall r s', net_inv pool hand loose Q s' -> same_rx s s' -> (length (pages s) <= S (length (pages s')))%nat -> P r (KSt h s')) ->
  wp (net_tx_arp op dmac dip) (KSt h s) P.
Proof.
  intros Hh H HP. unfold net_tx_arp. wstep. eapply wp_mbufalloc; [exact H|by vm_compute|..].
  - intros E. cbv beta. change (0 =? 0) with true. cbv iota. wstep. apply HP; [done|by repeat split|rewrite E; cbn; lia].
  - intros a l s1 Ep -> Ha H1. destruct (Z.eqb_spec a 0); [done|].
    wstep. eapply wp_mbufput; [apply setm_lookup|cbn; lia|lia|by vm_compute|].
    do 19 nstep.
    eapply wp_net_tx_eth; [apply setm_lookup|apply holds_any; cbn; lia|cbn; unfold MBUF_DEFAULT_HEADROOM; lia|done|rewrite length_bytes; cbn; lia|].
    intros m' _ _. rewrite !setm_setm. eapply (wp_tx_tail _ hand loose Q).
    + done.
    + rewrite <- (setm_setm a m' (Mbuf 0 MBUF_DEFAULT_HEADROOM 0 ∅)). apply inv_setm; [done|mem].
    + intros s' H' Hs' _ Hl. wstep. apply HP; [done|done|]. rewrite Ep. cbn in *. lia.
Qed.
End inv.
