(* ===== verification/NetQueue.v ===== *)
(** * Socket queues and the receive path under the invariant *)
From S2P Require Import Prelude Mem Sleeplock Ftable Mbuf Net NetSpec NetInv.

Definition qset (si : Z) (l : list Z) (Q : Z -> list Z) (x : Z) : list Z := if x =? si then l else Q x.
Lemma qset_eq si l Q : qset si l Q si = l.
Proof. unfold qset. by rewrite Z.eqb_refl. Qed.
Lemma qset_ne si l Q x : x <> si -> qset si l Q x = Q x.
Proof. intros H. unfold qset. by destruct (Z.eqb_spec x si). Qed.

(** The queues of all sockets: one of them and the rest. *)
Lemma bind_split (l : list Z) si (Q : Z -> list Z) : NoDup l -> si ∈ l ->
  exists R, l ≫= Q ≡ₚ Q si ++ R /\ (forall L, l ≫= qset si L Q ≡ₚ L ++ R).
Proof.
  intros HN Hsi. apply list_elem_of_split in Hsi as (l1 & l2 & ->).
  apply NoDup_app in HN as (_ & H1 & H2). apply NoDup_cons in H2 as [H2 _].
  exists ((l1 ≫= Q) ++ (l2 ≫= Q)). assert (Hn : forall L l', si ∉ l' -> l' ≫= qset si L Q = l' ≫= Q).
  { clear. intros L l'. induction l' as [|x l' IH]; [done|]. intros [Hx Hl]%not_elem_of_cons. cbn. by rewrite qset_ne, IH. }
  assert (si ∉ l1) as Hl1 by (intros Hi; apply (H1 si Hi); apply elem_of_cons; by left).
  split; [|intros L; specialize (Hn L)]; rewrite !bind_app; cbn; [|rewrite !Hn, qset_eq by done]; solve_Permutation.
Qed.

Lemma find_sock_spec t l ra lp rp : (forall si, si ∈ l -> is_Some (t !! si)) ->
  match find_sock t l ra lp rp with
  | Some si => si ∈ l /\ exists x, t !! si = Some x /\ raddr x = ra /\ lport x = lp /\ rport x = rp
  | None => forall si x, si ∈ l -> t !! si = Some x -> ~ (raddr x = ra /\ lport x = lp /\ rport x = rp)
  end.
Proof.
  induction l as [|si l IH]; intros Hl; cbn [find_sock]; [by intros si x ?%not_elem_of_nil|].
  destruct (Hl si ltac:(apply elem_of_cons; by left)) as [x Hx]. rewrite Hx.
  assert (forall s', s' ∈ l -> is_Some (t !! s')) as Hl' by (intros; apply Hl; apply elem_of_cons; by right).
  specialize (IH Hl'). destruct ((raddr x =? ra) && (lport x =? lp) && (rport x =? rp)) eqn:E.
  - apply andb_prop in E as [[E1%Z.eqb_eq E2%Z.eqb_eq]%andb_prop E3%Z.eqb_eq]. split; [apply elem_of_cons; by left|]. by exists x.
  - destruct (find_sock t l ra lp rp).
    + destruct IH as [IH1 IH2]. split; [apply elem_of_cons; by right|done].
    + intros s' x' [->|Hs']%elem_of_cons Hx'; [|by eapply IH]. intros (E1 & E2 & E3).
      assert (x' = x) as -> by congruence. rewrite E1, E2, E3, !Z.eqb_refl in E. done.
Qed.

(** The contents of packets, the links apart. *)
Definition same_pkt (m m' : mbuf) : Prop := m_head m' = m_head m /\ m_len m' = m_len m /\ m_buf m' = m_buf m.

Section queues.
Context {pool : list Z}.
Implicit Types (hand loose : list Z) (Q : Z -> list Z) (s : netst).

Lemma inv_sock hand loose Q s si : net_inv pool hand loose Q s -> si ∈ sockets s -> exists x, socks s !! si = Some x.
Proof. intros H Hsi. apply (ni_socks _ _ _ _ _ H). mem. Qed.
Lemma wp_the_sock h s si x (P : sock -> kst netst -> Prop) : socks s !! si = Some x -> P x (KSt h s) -> wp (the_sock si) (KSt h s) P.
Proof. intros Hx HP. unfold the_sock. wsteps. cbn. by rewrite Hx. Qed.

Lemma inv_nodup_sockets hand loose Q s : net_inv pool hand loose Q s -> NoDup (sockets s) /\ NoDup (sockets s ≫= Q).
Proof.
  intros H. pose proof (inv_nodup _ _ _ _ H) as HN. do 4 (apply NoDup_app in HN as (_ & _ & HN)).
  apply NoDup_app in HN as (H1 & _ & H2). done.
Qed.
Lemma inv_nodup_queue hand loose Q s si : net_inv pool hand loose Q s -> si ∈ sockets s -> NoDup (Q si).
Proof.
  intros H Hsi. destruct (inv_nodup_sockets _ _ _ _ H) as [H1 H2]. destruct (bind_split _ _ Q H1 Hsi) as (R & E & _).
  rewrite E in H2. by apply NoDup_app in H2 as (? & _ & _).
Qed.

(** Replacing the queue of one socket, the buffers of the difference going through the hand. *)
Lemma inv_requeue hand hand' loose Q s si x L t :
  net_inv pool hand loose Q s -> si ∈ sockets s -> hand' ++ L ≡ₚ hand ++ Q si ->
  (forall a, is_Some (t !! a) <-> is_Some (mbufs s !! a)) ->
  sock_ok t x L ->
  (forall sj, sj ∈ sockets s -> sj <> si -> forall a, a ∈ Q sj -> t !! a = mbufs s !! a) ->
  net_inv pool hand' loose (qset si L Q) (with_socks (<[si := x]> (socks s)) (sockets s) (with_mbufs t s)).
Proof.
  intros H Hsi HP Ht Hx Hoth. destruct (inv_nodup_sockets _ _ _ _ H) as [HN _].
  destruct (bind_split _ _ Q HN Hsi) as (R & E1 & E2). specialize (E2 L).
  destruct H as [H1 H2 H3 H4 H5 H6 H7]. split; try done; cbn [pages sockets socks mbufs with_socks with_mbufs].
  - change (txl _) with (txl s). rewrite E2, <- H2, E1.
    transitivity (pages s ++ (hand' ++ L) ++ txl s ++ loose ++ sockets s ++ R); [solve_Permutation|].
    rewrite HP. solve_Permutation.
  - change (txl _) with (txl s). intros a. rewrite Ht, H3.
    assert (forall A B : list Z, A ≡ₚ B -> (a ∈ A <-> a ∈ B)) as HE by (by intros A B ->).
    apply HE. rewrite E2, E1.
    transitivity ((hand ++ Q si) ++ txl s ++ R); [solve_Permutation|]. rewrite <- HP. solve_Permutation.
  - intros sj. rewrite <- H4. destruct (decide (si = sj)) as [<-|Hne]; [|by rewrite lookup_insert_ne].
    rewrite lookup_insert_eq. split; [|done]. intros _. apply H4. mem.
  - intros sj y Hsj. destruct (decide (si = sj)) as [<-|Hne].
    + rewrite lookup_insert_eq, qset_eq. intros [= <-]. done.
    + rewrite lookup_insert_ne, qset_ne by done. intros Hy. destruct (H5 sj y Hsj Hy) as (Hc & Hr). split; [|done].
      eapply mchain_ext; [|exact Hc]. intros a Ha. by eapply Hoth.
Qed.

(** Queueing and dequeueing change links only. *)
Record relinked_pkts (s s' : netst) : Prop := {
  rk_pages : pages s' = pages s;
  rk_sockets : sockets s' = sockets s;
  rk_tx : tx_ring s' = tx_ring s /\ tx_mbufs s' = tx_mbufs s /\ tdt s' = tdt s;
  rk_rx : rx_ring s' = rx_ring s /\ rx_mbufs s' = rx_mbufs s /\ rdt s' = rdt s;
  rk_killed : nkilled s' = nkilled s;
  rk_pkt : forall b m, mbufs s !! b = Some m -> exists m', mbufs s' !! b = Some m' /\ same_pkt m m';
}.

Lemma last_split {A} (l : list A) x : last l = Some x -> exists l', l = l' ++ [x].
Proof. intros H. apply last_Some in H as [l' ->]. by exists l'. Qed.

Lemma wp_pushtail h hand loose Q s si a (P : unit -> kst netst -> Prop) :
  net_inv pool (a :: hand) loose Q s -> si ∈ sockets s ->
  (forall s', net_inv pool hand loose (qset si (Q si ++ [a]) Q) s' -> relinked_pkts s s' -> P tt (KSt h s')) ->
  wp (mbufq_pushtail si a) (KSt h s) P.
Proof.
  intros H Hsi HP. destruct (inv_mbuf _ _ _ _ a H ltac:(mem)) as [m Hm]. destruct (inv_sock _ _ _ _ _ H Hsi) as [x Hx].
  destruct (hand_only _ _ _ _ a H ltac:(mem)) as [Ha Ha0]. destruct (ni_q _ _ _ _ _ H si x Hsi Hx) as (Hc & Hl & Hr).
  assert (forall sj b, sj ∈ sockets s -> b ∈ Q sj -> b <> a) as Hqa.
  { intros sj b Hsj Hb ->. pose proof (in_queue Q (sockets s) sj a Hsj Hb). mem. }
  unfold mbufq_pushtail. wstep. nstep. wstep. nstep. wstep. eapply wp_the_sock; [exact Hx|].
  assert (forall b, is_Some (<[a := set_next 0 m]> (mbufs s) !! b) <-> is_Some (mbufs s !! b)) as Hd.
  { intros b. destruct (decide (a = b)) as [<-|]; [rewrite lookup_insert_eq, Hm|rewrite lookup_insert_ne by done]; done. }
  destruct (Z.eqb_spec (rxq_head x) 0) as [E|E].
  - rewrite E in Hc. apply mchain_nil in Hc as HQ. unfold put_sock. wstep. apply HP.
    + apply (inv_requeue (a :: hand) hand loose Q s si _ (Q si ++ [a])); [done|done|solve_Permutation|done| |].
      * rewrite HQ. split; [|done]. cbn. split_and!; [done..|]. exists (set_next 0 m). by rewrite lookup_insert_eq.
      * intros sj Hsj _ b Hb. apply lookup_insert_ne. intros <-. by eapply Hqa.
    + split; try done. intros b mb Hb. cbn. destruct (decide (a = b)) as [<-|].
      * rewrite lookup_insert_eq. assert (mb = m) as -> by congruence. eexists; split; [done|by split].
      * rewrite lookup_insert_ne by done. exists mb. done.
  - assert (Q si <> []) as HQ by (intros E0; rewrite E0 in Hc; by cbn in Hc).
    destruct (last_split _ _ (Hl HQ)) as [l0 EQ]. set (b := rxq_tail x) in *.
    assert (b ∈ Q si) as Hb by (rewrite EQ; apply elem_of_app; right; by apply elem_of_cons; left).
    assert (b <> a) as Hba by (by eapply Hqa).
    assert (exists mb, mbufs s !! b = Some mb) as [mb Hmb].
    { apply (ni_mbufs _ _ _ _ _ H). pose proof (in_queue Q _ si b Hsi Hb). mem. }
    pose proof (inv_nodup_queue _ _ _ _ _ H Hsi) as HNq. rewrite EQ in HNq. apply NoDup_app in HNq as (_ & HNq & _).
    wstep. eapply wp_the; [cbn; by rewrite lookup_insert_ne|]. wstep. nstep. unfold put_sock. wstep. apply HP.
    + apply (inv_requeue (a :: hand) hand loose Q s si _ (Q si ++ [a])); [done|done|solve_Permutation| | |].
      * intros c. destruct (decide (b = c)) as [<-|]; [rewrite lookup_insert_eq, Hmb; done|]. rewrite lookup_insert_ne by done. apply Hd.
      * split; [|split; [by rewrite last_snoc|done]]. rewrite EQ, <- app_assoc. cbn. apply mchain_snoc; [by rewrite <- EQ|done|..|done].
        -- intros Hbl. apply (HNq b Hbl). apply elem_of_cons. by left.
        -- intros Hal. eapply (Hqa si a Hsi); [|done]. rewrite EQ. apply elem_of_app. by left.
        -- done.
      * intros sj Hsj Hne c Hcq. cbn [mbufs setm with_mbufs]. rewrite !lookup_insert_ne; [done|intros <-; exact (Hqa sj _ Hsj Hcq eq_refl)|]. intros <-.
        destruct (inv_nodup_sockets _ _ _ _ H) as [HN1 HN2]. destruct (bind_split _ _ Q HN1 Hsi) as (R & E1 & E2).
        rewrite E1 in HN2. apply NoDup_app in HN2 as (_ & HN2 & _). apply (HN2 b Hb).
        specialize (E2 []). assert (b ∈ sockets s ≫= qset si [] Q) as Hb2 by (apply (in_queue _ _ sj); [done|by rewrite qset_ne]).
        by rewrite E2 in Hb2.
    + split; try done. intros c mc Hmc. cbn. destruct (decide (b = c)) as [<-|].
      * rewrite lookup_insert_eq. assert (mc = mb) as -> by congruence. eexists; split; [done|by split].
      * rewrite lookup_insert_ne by done. destruct (decide (a = c)) as [<-|].
        -- rewrite lookup_insert_eq. assert (mc = m) as -> by congruence. eexists; split; [done|by split].
        -- rewrite lookup_insert_ne by done. exists mc. done.
Qed.

Lemma wp_pophead h hand loose Q s si a l (P : Z -> kst netst -> Prop) :
  net_inv pool hand loose Q s -> si ∈ sockets s -> Q si = a :: l ->
  (forall s', net_inv pool (a :: hand) loose (qset si l Q) s' -> relinked_pkts s s' -> P a (KSt h s')) ->
  wp (mbufq_pophead si) (KSt h s) P.
Proof.
  intros H Hsi HQ HP. destruct (inv_sock _ _ _ _ _ H Hsi) as [x Hx]. destruct (ni_q _ _ _ _ _ H si x Hsi Hx) as (Hc & Hl & Hr).
  rewrite HQ in Hc. destruct Hc as (E & Ha0 & m & Hm & Hc). unfold mbufq_pophead. wstep. eapply wp_the_sock; [exact Hx|].
  rewrite E. destruct (Z.eqb_spec a 0); [done|]. wstep. nstep. unfold put_sock. wstep. wstep. wstep. apply HP.
  - replace (with_socks _ _ _) with (with_socks (<[si := set_rxq (m_next m) (rxq_tail x) x]> (socks s)) (sockets s) (with_mbufs (mbufs s) s)) by (by destruct s).
    apply (inv_requeue hand (a :: hand) loose Q s si _ l); try done.
    + rewrite HQ. solve_Permutation.
    + split; [done|split; [|done]]. intros Hne. specialize (Hl ltac:(by rewrite HQ)). rewrite HQ in Hl. by destruct l as [|c l].
  - split; try done. intros b mb Hb. exists mb. done.
Qed.

Lemma wp_mbufq_empty h hand loose Q s si (P : bool -> kst netst -> Prop) :
  net_inv pool hand loose Q s -> si ∈ sockets s -> P (bool_decide (Q si = [])) (KSt h s) -> wp (mbufq_empty si) (KSt h s) P.
Proof.
  intros H Hsi HP. destruct (inv_sock _ _ _ _ _ H Hsi) as [x Hx]. destruct (ni_q _ _ _ _ _ H si x Hsi Hx) as (Hc & _).
  unfold mbufq_empty. wstep. eapply wp_the_sock; [exact Hx|]. wstep. destruct (Q si) as [|a l].
  - cbn in Hc. rewrite Hc. exact HP.
  - destruct Hc as (E & Ha & _). rewrite E. destruct (Z.eqb_spec a 0); [done|]. exact HP.
Qed.

(** What the receive path leaves alone. *)
Definition rx_same (s s' : netst) : Prop :=
  rx_ring s' = rx_ring s /\ rx_mbufs s' = rx_mbufs s /\ rdt s' = rdt s /\ sockets s' = sockets s.
Lemma rx_same_refl s : rx_same s s.
Proof. by repeat split. Qed.
Lemma rx_same_trans s1 s2 s3 : rx_same s1 s2 -> rx_same s2 s3 -> rx_same s1 s3.
Proof. intros (?&?&?&?) (?&?&?&?). repeat split; congruence. Qed.

Lemma inv_sockets_in hand loose Q s : net_inv pool hand loose Q s -> forall si, si ∈ sockets s -> is_Some (socks s !! si).
Proof. intros H si Hsi. apply (ni_socks _ _ _ _ _ H). mem. Qed.

Lemma sock_locks si : socktbl_lock <> sock_lock si.
Proof. done. Qed.

Lemma inv_woken hand loose Q s w : net_inv pool hand loose Q s -> net_inv pool hand loose Q (with_nwoken w s).
Proof. intros [H1 H2 H3 H4 H5 H6 H7]. by split. Qed.

Lemma wp_sockrecvudp hand loose Q s a ra lp rp (P : unit -> kst netst -> Prop) :
  net_inv pool (a :: hand) loose Q s ->
  (find_sock (socks s) (sockets s) ra lp rp = None -> net_inv pool hand loose Q (freed a s) -> P tt (KSt [] (freed a s))) ->
  (forall si s', find_sock (socks s) (sockets s) ra lp rp = Some si -> si ∈ sockets s ->
     net_inv pool hand loose (qset si (Q si ++ [a]) Q) s' -> relinked_pkts s s' -> P tt (KSt [] s')) ->
  wp (sockrecvudp a ra lp rp) (KSt [] s) P.
Proof.
  intros H HN HS. unfold sockrecvudp. wstep. apply wp_acquire; [apply not_elem_of_nil|]. cbn [held st]. do 2 wstep.
  pose proof (find_sock_spec (socks s) (sockets s) ra lp rp (inv_sockets_in _ _ _ _ H)) as Hf.
  change (socks (id s)) with (socks s). change (sockets (id s)) with (sockets s).
  destruct (find_sock (socks s) (sockets s) ra lp rp) as [si|] eqn:E.
  - destruct Hf as [Hsi _]. wstep. apply wp_acquire; [apply not_elem_of_cons; split; [done|apply not_elem_of_nil]|]. cbn [held st].
    wstep. eapply wp_pushtail; [exact H|done|]. intros s' H' Hr. unfold wakeup. do 2 wstep.
    wstep. apply wp_release; [apply not_elem_of_cons; split; [done|apply not_elem_of_nil]|]. apply wp_release; [apply not_elem_of_nil|].
    apply (HS si); [done|done|by apply inv_woken|]. destruct Hr. by split.
  - wstep. apply wp_release; [apply not_elem_of_nil|]. eapply wp_mbuffree_inv; [exact H|]. by apply HN.
Qed.

Lemma wp_sockrecvudp_any hand loose Q s a ra lp rp (P : unit -> kst netst -> Prop) :
  net_inv pool (a :: hand) loose Q s ->
  (forall Q' s', net_inv pool hand loose Q' s' -> rx_same s s' -> (length (pages s) <= length (pages s'))%nat -> P tt (KSt [] s')) ->
  wp (sockrecvudp a ra lp rp) (KSt [] s) P.
Proof.
  intros H HP. eapply wp_sockrecvudp; [exact H|..].
  - intros _ H'. eapply HP; [exact H'|by repeat split|cbn; lia].
  - intros si s' _ _ H' [E1 E2 _ E4 _ _]. eapply HP; [exact H'| |by rewrite E1]. by repeat split; try apply E4.
Qed.

(** Dropping the packet. *)
Lemma wp_drop hand loose Q s a m (P : unit -> kst netst -> Prop) :
  net_inv pool (a :: hand) loose Q s ->
  (forall Q' s', net_inv pool hand loose Q' s' -> rx_same s s' -> (length (pages s) <= S (length (pages s')))%nat -> P tt (KSt [] s')) ->
  wp (mbuffree a) (KSt [] (setm a m s)) P.
Proof.
  intros H HP. eapply wp_mbuffree_inv; [apply inv_setm; [exact H|mem]|]. intros H'. eapply HP; [exact H'|by repeat split|cbn; lia].
Qed.

Lemma wp_net_rx_arp hand loose Q s a m (P : unit -> kst netst -> Prop) :
  net_inv pool (a :: hand) loose Q s ->
  (forall Q' s', net_inv pool hand loose Q' s' -> rx_same s s' -> (length (pages s) <= S (length (pages s')))%nat -> P tt (KSt [] s')) ->
  wp (net_rx_arp a) (KSt [] (setm a m s)) P.
Proof.
  intros H HP. unfold net_rx_arp. wstep. eapply wp_mbufpull; [apply setm_lookup|..]; intros Hl; [by eapply wp_drop|].
  rewrite setm_setm. set (m1 := set_head_len _ _ _). do 8 nstep. destruct (_ || _); [by eapply wp_drop|].
  do 4 nstep. destruct (_ || _); [by eapply wp_drop|]. do 4 nstep. wstep.
  eapply (wp_net_tx_arp _ (a :: hand) loose Q); [apply not_elem_of_nil|apply inv_setm; [exact H|mem]|].
  intros r s' H' (E1 & E2 & E3 & E4 & E5 & E6) Hp. eapply wp_mbuffree_inv; [exact H'|]. intros H2.
  eapply HP; [exact H2|by repeat split|]. cbn in *. lia.
Qed.

Lemma wp_net_rx_udp hand loose Q s a m len iph (P : unit -> kst netst -> Prop) :
  net_inv pool (a :: hand) loose Q s ->
  (forall Q' s', net_inv pool hand loose Q' s' -> rx_same s s' -> (length (pages s) <= S (length (pages s')))%nat -> P tt (KSt [] s')) ->
  wp (net_rx_udp a len iph) (KSt [] (setm a m s)) P.
Proof.
  intros H HP. unfold net_rx_udp. wstep. eapply wp_mbufpull; [apply setm_lookup|..]; intros Hl; [by eapply wp_drop|].
  rewrite setm_setm. do 2 nstep. destruct (negb _); [by eapply wp_drop|]. do 2 nstep. cbn [m_len set_head_len].
  match goal with |- context [?x <? u16 ?y] => destruct (Z.ltb_spec x (u16 y)) end; [by eapply wp_drop|].
  wstep. eapply wp_mbuftrim; [apply setm_lookup|pose proof (u16_range (len - 8)); cbn; lia|]. rewrite setm_setm. do 6 nstep.
  eapply wp_sockrecvudp_any; [apply inv_setm; [exact H|mem]|]. intros Q' s' H' Hr Hp. eapply HP; [exact H'|exact Hr|cbn in Hp; lia].
Qed.

(** Any packet whatsoever is delivered, answered or dropped. *)
Lemma wp_net_rx hand loose Q s a (P : unit -> kst netst -> Prop) :
  net_inv pool (a :: hand) loose Q s ->
  (forall Q' s', net_inv pool hand loose Q' s' -> rx_same s s' -> (length (pages s) <= S (length (pages s')))%nat -> P tt (KSt [] s')) ->
  wp (net_rx a) (KSt [] s) P.
Proof.
  intros H HP. destruct (inv_mbuf _ _ _ _ a H ltac:(mem)) as [m0 Hm]. rewrite <- (setm_id a m0 s Hm).
  unfold net_rx. wstep. eapply wp_mbufpull; [apply setm_lookup|..]; intros Hl; [by eapply wp_drop|].
  rewrite setm_setm. do 2 nstep. destruct (_ =? _).
  - unfold net_rx_ip. wstep. eapply wp_mbufpull; [apply setm_lookup|..]; intros Hl2; [by eapply wp_drop|].
    rewrite setm_setm. do 2 nstep. destruct (negb _); [by eapply wp_drop|]. do 2 nstep. destruct (negb _); [by eapply wp_drop|].
    do 2 nstep. destruct (negb _); [by eapply wp_drop|]. do 2 nstep. destruct (negb _); [by eapply wp_drop|].
    do 2 nstep. destruct (negb _); [by eapply wp_drop|]. do 2 nstep. by eapply wp_net_rx_udp.
  - destruct (_ =? _); [by eapply wp_net_rx_arp|by eapply wp_drop].
Qed.
End queues.
