(* ===== verification/NetThms.v ===== *)
(** * Correctness of the network stack: the system calls and the interrupt handler *)
From S2P Require Import Prelude Mem Sleeplock Ftable Mbuf Net NetSpec NetInv NetQueue.

Section calls.
Context {pool : list Z}.
Implicit Types (hand loose : list Z) (Q : Z -> list Z) (s : netst).

(** ** e1000_recv *)

Lemma inv_rx_ring hand loose Q s r m t : net_inv pool hand loose Q s -> 0 <= t < 16 ->
  net_inv pool hand loose Q (with_rx r m t s).
Proof. intros [H1 H2 H3 H4 H5 H6 H7] Ht. by split. Qed.

(** Descriptors the card has filled. *)
Definition filled (s : netst) (i : Z) : bool := negb (Z.land (r_status (rxd s i)) E1000_RXD_STAT_DD =? 0).

(** With two pages for every round, the loop delivers all packets and refills the ring. *)
Lemma wp_recv_loop loose : forall fuel Q s (P : unit -> kst netst -> Prop),
  net_inv pool (rxl s) loose Q s -> (2 * fuel <= length (pages s))%nat ->
  (exists n, (n <= fuel)%nat /\ (n = 16%nat \/ (n < 16)%nat /\ filled s ((rdt s + 1 + Z.of_nat n) mod 16) = false)) ->
  (forall Q' s', net_inv pool (rxl s') loose Q' s' -> sockets s' = sockets s -> filled s' ((rdt s' + 1) mod 16) = false -> P tt (KSt [] s')) ->
  wp (e1000_recv_loop fuel) (KSt [] s) P.
Proof.
  induction fuel as [|fuel IH]; intros Q s P H Hp (n & Hn & Hf) HP; cbn [e1000_recv_loop]; do 4 wstep;
    change RX_RING_SIZE with 16; fold (filled s ((rdt s + 1) mod 16)).
  - assert (n = 0%nat) as -> by lia.
    destruct Hf as [?|[_ Hf]]; [lia|]. rewrite Z.add_0_r in Hf. unfold filled in Hf. apply negb_false_iff in Hf. rewrite Hf. wstep. eapply HP; [exact H|done|]. unfold filled. by rewrite Hf.
  - set (i := (rdt s + 1) mod 16) in *. assert (0 <= i < 16) as Hi by (apply Z.mod_pos_bound; lia).
    destruct (Z.land (r_status (rxd s i)) E1000_RXD_STAT_DD =? 0) eqn:Ei.
    { wstep. eapply HP; [exact H|done|]. unfold filled. fold i. by rewrite Ei. }
    assert (n <> 0%nat) as Hn0. { intros ->. destruct Hf as [?|[_ Hf]]; [lia|]. rewrite Z.add_0_r in Hf. unfold filled in Hf. fold i in Hf. by rewrite Ei in Hf. }
    destruct (rxl_split s i Hi) as (A & B & E1 & E2). set (a := rxm s i) in *.
    assert (net_inv pool (a :: A ++ B) loose Q s) as Ha by (eapply inv_hand; [|exact H]; rewrite E1; solve_Permutation).
    destruct (inv_mbuf _ _ _ _ a Ha ltac:(mem)) as [m Hm].
    do 2 wstep. wstep. nstep. wstep. nstep. wstep. eapply (wp_net_rx (A ++ B)); [apply inv_setm; [exact Ha|mem]|].
    intros Q1 s1 H1 (R1 & R2 & R3 & R4) Hp1. cbn in Hp1. cbn [rx_ring rx_mbufs rdt sockets setm with_mbufs] in R1, R2, R3, R4.
    wstep. eapply wp_mbufalloc; [exact H1|by vm_compute|intros E; rewrite E in Hp1; cbn in Hp1; lia|].
    intros b l s2 Ep -> Hb0 H2. wstep. nstep. wstep. wstep.
    set (s3 := with_rx _ _ _ _).
    assert (rxl s3 = A ++ b :: B) as E3.
    { assert (rxm s3 i = b) as Eb by (unfold rxm, s3; cbn; by rewrite lookup_insert_eq).
      rewrite (E2 s3); [by rewrite Eb|]. intros j Hj. unfold rxm, s3. cbn. rewrite lookup_insert_ne by done. by rewrite R2. }
    eapply (IH Q1).
    + rewrite E3. eapply inv_hand; [|apply inv_rx_ring; [exact H2|done]]. solve_Permutation.
    + rewrite Ep in Hp1. cbn in *. lia.
    + exists (n - 1)%nat. split; [lia|]. right. destruct Hf as [->|[Hn16 Hf]].
      { split; [lia|]. change (rdt s3) with i.
        assert ((i + 1 + Z.of_nat (16 - 1)) mod 16 = i) as -> by (change (Z.of_nat (16 - 1)) with 15; dlia).
        unfold filled, rxd. cbn. by rewrite lookup_insert_eq. }
      split; [lia|]. unfold filled, rxd. cbn.
      assert ((i + 1 + Z.of_nat (n - 1)) mod 16 = (rdt s + 1 + Z.of_nat n) mod 16) as Em by (subst i; dlia).
      rewrite Em. rewrite lookup_insert_ne by (subst i; dlia). rewrite R1. exact Hf.
    + intros Q' s' HI HS Hfi. eapply HP; [exact HI| |exact Hfi]. rewrite HS. exact R4.
Qed.

Lemma wp_e1000_recv loose Q s (P : unit -> kst netst -> Prop) :
  net_inv pool (rxl s) loose Q s -> (32 <= length (pages s))%nat ->
  (forall Q' s', net_inv pool (rxl s') loose Q' s' -> sockets s' = sockets s -> filled s' ((rdt s' + 1) mod 16) = false -> P tt (KSt [] s')) ->
  wp e1000_recv (KSt [] s) P.
Proof. intros H Hp HP. eapply wp_recv_loop; [exact H|done|exists 16%nat; split; [done|by left]|exact HP]. Qed.

(** ** sockread and sockwrite *)

(** A read returns the oldest packet of the queue, cut to the size asked for. *)
Lemma wp_sockread hand loose Q s si a l m copyout n (P : Z * list Z -> kst netst -> Prop) :
  net_inv pool hand loose Q s -> si ∈ sockets s -> Q si = a :: l -> nkilled s = false ->
  mbufs s !! a = Some m -> 0 <= m_len m < 2 ^ 31 -> 0 <= n ->
  let len := Z.min n (m_len m) in
  (forall s', net_inv pool hand loose (qset si l Q) s' -> sockets s' = sockets s -> rxl s' = rxl s ->
    P (if copyout a len =? -1 then (-1, []) else (len, bytes (m_buf m) (m_head m) (Z.to_nat len))) (KSt [] s')) ->
  wp (sockread si copyout n) (KSt [] s) P.
Proof.
  intros H Hsi HQ Hk Hm Hl Hn len HP. unfold sockread. wstep. apply wp_acquire; [apply not_elem_of_nil|]. cbn [held st].
  wstep. eapply wp_mbufq_empty; [exact H|done|]. rewrite HQ, bool_decide_eq_false_2 by done. do 2 wstep. rewrite Hk. cbn [andb negb].
  wstep. eapply wp_pophead; [exact H|done|exact HQ|]. intros s1 H1 [E1 E2 _ (E4 & E5 & E6) _ E7].
  wstep. apply wp_release; [apply not_elem_of_nil|]. destruct (E7 a m Hm) as (m' & Hm' & Hh' & Hl' & Hb').
  wstep. nstep. rewrite Hl', Hh', Hb'.
  assert (i32 (m_len m) = m_len m) as -> by (unfold i32; change (2 ^ 31) with 2147483648 in *; change (2 ^ 32) with 4294967296; rewrite Z.mod_small; lia).
  assert ((if n <? m_len m then n else m_len m) = len) as -> by (subst len; destruct (Z.ltb_spec n (m_len m)); lia).
  destruct (copyout a len =? -1); wstep; (eapply wp_mbuffree_inv; [exact H1|]); intros H2; wstep; (apply HP; [done|done|]);
    unfold rxl, rxm; cbn; by rewrite E5.
Qed.

Lemma wp_sockwrite hand loose Q s si x bs (P : Z -> kst netst -> Prop) :
  net_inv pool hand loose Q s -> si ∈ sockets s -> socks s !! si = Some x -> Forall is_byte bs -> Z.of_nat (length bs) <= MBUF_SIZE ->
  (pages s = [] -> P (-1) (KSt [] s)) ->
  (forall a l m' s1 s', pages s = a :: l -> s1 = setm a m' (with_pages l s) ->
     holds m' (udp_frame (raddr x) (lport x) (rport x) bs) ->
     net_inv pool hand loose Q s' -> same_rx s s' -> (queued a s1 s' \/ s' = freed a s1 /\ tx_busy s = true) ->
     P (Z.of_nat (length bs)) (KSt [] s')) ->
  wp (sockwrite si (Some bs) (Z.of_nat (length bs))) (KSt [] s) P.
Proof.
  intros H Hsi Hx Hbs Hn H0 HP. destruct (ni_q _ _ _ _ _ H si x Hsi Hx) as (_ & _ & Hr1 & Hr2 & Hr3). unfold MBUF_SIZE in Hn.
  unfold sockwrite. wstep. eapply wp_mbufalloc; [exact H|by vm_compute|intros E; cbv beta; change (0 =? 0) with true; cbv iota; wstep; by apply H0|].
  intros a l s1 Ep -> Ha H1. destruct (Z.eqb_spec a 0); [done|]. wstep. rewrite u32_small by lia.
  eapply wp_mbufput; [apply setm_lookup|cbn; lia|lia|unfold MBUF_SIZE; cbn; lia|]. rewrite setm_setm. cbn [m_head m_len m_buf set_head_len m_next].
  wstep. nstep. wstep. eapply wp_the_sock; [exact Hx|]. wstep.
  set (m0 := on_buf _ _).
  eapply (wp_net_tx_udp _ _ _ m0 bs); [apply setm_lookup| |cbn; unfold MBUF_DEFAULT_HEADROOM; lia|done..|lia|].
  - subst m0. split; cbn; [|lia]. change (128 + 0) with 128 in *. apply bytes_store_bytes. done.
  - intros m' Hm' _. rewrite setm_setm. eapply (wp_tx_tail _ hand loose Q); [apply not_elem_of_nil| |].
    + rewrite <- (setm_setm a m' (Mbuf 0 MBUF_DEFAULT_HEADROOM 0 ∅)). apply inv_setm; [done|mem].
    + intros s' H' Hs' Hq _. wstep. eapply HP; [exact Ep|reflexivity|exact Hm'|exact H'|exact Hs'|exact Hq].
Qed.

(** ** sockclose *)

(** A socket being closed is taken off the list; its queue goes to the code. *)
Lemma inv_unlist hand loose Q s si x : net_inv pool hand loose Q s -> si ∈ sockets s -> socks s !! si = Some x ->
  net_inv pool (Q si ++ hand) (si :: loose) Q (with_socks (socks s) (filter (fun y => y <> si) (sockets s)) s).
Proof.
  intros H Hsi Hx. destruct (inv_nodup_sockets _ _ _ _ H) as [HN _].
  assert (exists l1 l2, sockets s = l1 ++ si :: l2 /\ filter (fun y => y <> si) (sockets s) = l1 ++ l2) as (l1 & l2 & E1 & E2).
  { apply list_elem_of_split in Hsi as (l1 & l2 & E). exists l1, l2. split; [done|]. rewrite E in *.
    apply NoDup_app in HN as (_ & N1 & N2). apply NoDup_cons in N2 as [N2 _].
    assert (forall l : list Z, si ∉ l -> filter (fun y => y <> si) l = l) as Hf.
    { clear. induction l as [|y l IH]; [done|]. intros [Hy Hl]%not_elem_of_cons. rewrite filter_cons_True by done. f_equal. auto. }
    rewrite filter_app, filter_cons_False by naive_solver. rewrite !Hf; [done|done|].
    intros Hi. apply (N1 si Hi). apply elem_of_cons. by left. }
  destruct H as [H1 H2 H3 H4 H5 H6 H7]. rewrite E1 in *. split; cbn; rewrite ?E2; try done.
  - change (txl _) with (txl s). rewrite <- H2. rewrite !bind_app. cbn. solve_Permutation.
  - change (txl _) with (txl s). intros a. rewrite H3. rewrite !bind_app. cbn. mem.
  - intros sj. rewrite H4. mem.
  - intros sj y Hsj Hy. apply H5; [|done]. mem.
Qed.

Lemma wp_drain h si : forall l fuel hand loose Q s x (P : unit -> kst netst -> Prop),
  net_inv pool (l ++ hand) (si :: loose) Q s -> socks s !! si = Some x -> mchain (mbufs s) (rxq_head x) l -> (length l <= fuel)%nat ->
  (forall s', net_inv pool hand (si :: loose) Q s' -> sockets s' = sockets s -> rxl s' = rxl s -> P tt (KSt h s')) ->
  wp (drain fuel si) (KSt h s) P.
Proof.
  induction l as [|a l IH]; intros fuel hand loose Q s x P H Hx Hc Hf HP.
  - destruct fuel; cbn [drain]; unfold mbufq_empty; do 2 wstep; (eapply wp_the_sock; [exact Hx|]); wstep; cbn in Hc;
      rewrite Hc; change (0 =? 0) with true; cbv iota; wstep; by apply HP.
  - destruct Hc as (E & Ha0 & m & Hm & Hc). destruct fuel as [|fuel]; [cbn in Hf; lia|]. cbn [drain]. unfold mbufq_empty.
    do 2 wstep. eapply wp_the_sock; [exact Hx|]. wstep. rewrite E. destruct (Z.eqb_spec a 0); [done|]. wstep.
    unfold mbufq_pophead. wstep. eapply wp_the_sock; [exact Hx|]. rewrite E. destruct (Z.eqb_spec a 0); [done|]. wstep. nstep.
    unfold put_sock. do 3 wstep. set (s1 := with_socks _ _ _).
    assert (si ∉ sockets s) as Hns.
    { intros Hi. pose proof (inv_nodup _ _ _ _ H) as HN. do 3 (apply NoDup_app in HN as (_ & _ & HN)). cbn in HN.
      apply NoDup_cons in HN as [HN _]. mem. }
    assert (net_inv pool (a :: l ++ hand) (si :: loose) Q s1) as H1.
    { destruct H as [H1 H2 H3 H4 H5 H6 H7]. split; try done; cbn.
      - intros sj. rewrite <- H4. destruct (decide (si = sj)) as [<-|]; [rewrite lookup_insert_eq, Hx; done|by rewrite lookup_insert_ne].
      - intros sj y Hsj. rewrite lookup_insert_ne by congruence. by apply H5. }
    wstep. eapply wp_mbuffree_inv; [exact H1|]. intros H2.
    assert (a ∉ l) as Hal.
    { pose proof (inv_nodup _ _ _ _ H) as HN. apply NoDup_app in HN as (_ & _ & (HN & _)%NoDup_app). cbn in HN. apply NoDup_cons in HN as [HN _]. mem. }
    eapply (IH fuel hand loose Q (freed a s1)); [exact H2|cbn; by rewrite lookup_insert_eq| |cbn in Hf; lia|done].
    cbn. eapply mchain_ext; [|exact Hc]. intros b Hb. apply lookup_delete_ne. congruence.
Qed.

Lemma chain_size (t : gmap Z mbuf) l : NoDup l -> (forall a, a ∈ l -> is_Some (t !! a)) -> (length l <= size t)%nat.
Proof.
  intros HN Hl. rewrite <- (size_list_to_set (C := gset Z) l HN), <- size_dom. apply subseteq_size.
  intros a Ha. apply elem_of_dom, Hl. by rewrite elem_of_list_to_set in Ha.
Qed.

Lemma wp_sockclose hand loose Q s si (P : unit -> kst netst -> Prop) :
  net_inv pool hand loose Q s -> si ∈ sockets s ->
  (forall s', net_inv pool hand loose Q s' -> sockets s' = filter (fun y => y <> si) (sockets s) -> rxl s' = rxl s -> P tt (KSt [] s')) ->
  wp (sockclose si) (KSt [] s) P.
Proof.
  intros H Hsi HP. destruct (inv_sock _ _ _ _ _ H Hsi) as [x Hx]. pose proof (ni_q _ _ _ _ _ H si x Hsi Hx) as (Hc & _).
  pose proof (inv_nodup_queue _ _ _ _ _ H Hsi) as HNq.
  assert (forall a, a ∈ Q si -> is_Some (mbufs s !! a)) as Hdom.
  { intros a Ha. apply (ni_mbufs _ _ _ _ _ H). pose proof (in_queue Q _ si a Hsi Ha). mem. }
  pose proof (inv_unlist _ _ _ _ _ _ H Hsi Hx) as H1.
  unfold sockclose. wstep. apply wp_acquire; [apply not_elem_of_nil|]. cbn [held st]. do 2 wstep.
  wstep. apply wp_release; [apply not_elem_of_nil|]. do 2 wstep. wstep.
  eapply wp_drain; [exact H1|exact Hx|exact Hc|by apply chain_size|]. intros s2 H2 E2 E3.
  assert (is_Some (socks s2 !! si)) as [x2 Hx2] by (apply (ni_socks _ _ _ _ _ H2); mem).
  unfold sock_free. wstep. eapply wp_the_sock; [exact Hx2|]. wstep. wstep. unfold page_free. wstep. apply HP; [|done|done].
  assert ((si ∉ loose) /\ si ∉ sockets s2) as [Hn1 Hn2].
  { pose proof (inv_nodup _ _ _ _ H2) as HN. do 3 (apply NoDup_app in HN as (_ & _ & HN)). cbn in HN. apply NoDup_cons in HN as [HN _]. mem. }
  destruct H2 as [I1 I2 I3 I4 I5 I6 I7]. split; try done; cbn.
  - change (txl _) with (txl s2). rewrite <- I2. solve_Permutation.
  - intros sj. destruct (decide (si = sj)) as [<-|]; [rewrite lookup_delete_eq; split; [by intros []|mem]|].
    rewrite lookup_delete_ne, I4 by done. mem.
  - intros sj y Hsj. rewrite lookup_delete_ne by congruence. by apply I5.
Qed.

(** ** sockalloc *)

Definition files_ok (t : ftable) : Prop := forall i, f_ref (fget t i) = 0 -> f_type (fget t i) = FD_NONE.

Lemma inv_files hand loose Q s t : net_inv pool hand loose Q s -> net_inv pool hand loose Q (with_nfiles t s).
Proof. intros [H1 H2 H3 H4 H5 H6 H7]. by split. Qed.

(** A new socket comes first in the list, with an empty queue. *)
Lemma inv_newsock hand loose Q s si l x : net_inv pool hand loose Q s -> pages s = si :: l -> sock_ok ∅ x [] ->
  si <> 0 /\ net_inv pool hand loose (qset si [] Q) (with_socks (<[si := x]> (socks s)) (si :: sockets s) (with_pages l s)).
Proof.
  intros H Hp Hx. pose proof (inv_nodup _ _ _ _ H) as HN. rewrite Hp in HN. cbn [app] in HN. apply NoDup_cons in HN as [Hn HN].
  assert (si <> 0) as H0.
  { intros ->. apply (proj2 (ni_pool _ _ _ _ _ H)). rewrite <- (ni_perm _ _ _ _ _ H), Hp. mem. }
  assert (si ∉ sockets s) as Hns by mem.
  assert (sockets s ≫= qset si [] Q = sockets s ≫= Q) as EQ.
  { clear -Hns. induction (sockets s) as [|y l IH]; [done|]. apply not_elem_of_cons in Hns as [Hy Hl]. cbn. by rewrite qset_ne, IH. }
  split; [done|]. destruct H as [H1 H2 H3 H4 H5 H6 H7]. split; try done; cbn; rewrite ?qset_eq, ?EQ; cbn.
  - change (txl _) with (txl s). rewrite <- H2, Hp. cbn. solve_Permutation.
  - exact H3.
  - intros sj. destruct (decide (si = sj)) as [<-|]; [rewrite lookup_insert_eq; split; [mem|by eexists]|].
    rewrite lookup_insert_ne, H4 by done. mem.
  - intros sj y [->|Hsj]%elem_of_cons.
    + rewrite lookup_insert_eq, qset_eq. intros [= <-]. destruct Hx as (Hx1 & Hx2 & Hx3). by split.
    + rewrite lookup_insert_ne, qset_ne by congruence. by apply H5.
Qed.

Lemma find_sock_ext t t' l ra lp rp : (forall si, si ∈ l -> t' !! si = t !! si) -> find_sock t' l ra lp rp = find_sock t l ra lp rp.
Proof.
  induction l as [|si l IH]; intros H; [done|]. cbn. rewrite H by (apply elem_of_cons; by left).
  rewrite IH; [done|]. intros sj Hj. apply H. apply elem_of_cons. by right.
Qed.

Lemma fget_insert (t : ftable) f x : fget (<[f := x]> t) f = x.
Proof. unfold fget. by rewrite lookup_insert_eq. Qed.

(** Closing the only reference to a file that has no object yet. *)
Lemma wp_fileclose_none s f (P : unit -> kst netst -> Prop) :
  f_ref (fget (nfiles s) f) = 1 -> f_type (fget (nfiles s) f) = FD_NONE ->
  (forall t, P tt (KSt [] (with_nfiles t s))) -> wp (fileclose close_sock f) (KSt [] s) P.
Proof.
  intros Hr Ht HP. unfold fileclose, upd_file. wstep. apply wp_acquire; [apply not_elem_of_nil|]. cbn [held st]. do 2 wstep.
  change (ft s) with (nfiles s). rewrite Hr. change (1 <? 1) with false. cbv iota. do 2 wstep.
  change (0 <? 1 - 1) with false. cbv iota. do 4 wstep. wstep. apply wp_release; [apply not_elem_of_nil|].
  cbn [ft set_ft net_ftable nfiles with_nfiles]. rewrite !fget_insert. unfold close_sock. cbn [f_type set_ref]. rewrite Ht. wstep.
  apply HP.
Qed.

Lemma wp_sockalloc hand loose Q s ra lp rp (P : Z * option Z -> kst netst -> Prop) :
  net_inv pool hand loose Q s -> files_ok (nfiles s) -> find_sock (socks s) (sockets s) ra lp rp = None ->
  0 <= ra < 2 ^ 32 -> 0 <= lp < 65536 -> 0 <= rp < 65536 ->
  (forall f t, net_inv pool hand loose Q (with_nfiles t s) -> P (-1, f) (KSt [] (with_nfiles t s))) ->
  (forall f si s', net_inv pool hand loose (qset si [] Q) s' -> sockets s' = si :: sockets s -> rxl s' = rxl s ->
     socks s' !! si = Some (Sock ra lp rp 0 0) -> f_sock (fget (nfiles s') f) = si -> P (0, Some f) (KSt [] s')) ->
  wp (sockalloc ra lp rp) (KSt [] s) P.
Proof.
  intros H Hf Hnone Hra Hlp Hrp HF HS. unfold sockalloc. wstep. eapply wp_filealloc; [apply not_elem_of_nil|..].
  { intros _. wstep. specialize (HF None (nfiles s)). replace (with_nfiles (nfiles s) s) with s in HF by (by destruct s). by apply HF. }
  intros f Hfr Hf0. cbn [ft set_ft net_ftable]. set (t := <[f := _]> (nfiles s)).
  wstep. unfold page_alloc. wstep. wstep. cbn [pages with_nfiles]. destruct (pages s) as [|si l] eqn:Ep.
  { wstep. change (0 =? 0) with true. cbv iota. wstep. apply wp_fileclose_none.
    - cbn. unfold t. by rewrite fget_insert.
    - cbn. unfold t. rewrite fget_insert. by apply Hf.
    - intros t'. wstep. apply HF. by apply inv_files. }
  destruct (inv_newsock _ _ _ _ _ _ (Sock ra lp rp 0 0) H Ep) as [Hsi0 Hnew].
  { split; [done|split; [by intros []|exact (conj Hra (conj Hlp Hrp))]]. }
  assert (si ∉ sockets s) as Hns.
  { pose proof (inv_nodup _ _ _ _ H) as HN. rewrite Ep in HN. cbn [app] in HN. apply NoDup_cons in HN as [Hn _]. mem. }
  do 3 wstep. destruct (Z.eqb_spec si 0); [done|]. unfold put_sock, upd_file. do 4 wstep. wstep.
  apply wp_acquire; [apply not_elem_of_nil|]. cbn [held st]. do 2 wstep. cbn [id socks sockets with_socks with_nfiles with_pages ft set_ft net_ftable nfiles].
  rewrite (find_sock_ext (socks s)) by (intros sj Hj; apply lookup_insert_ne; congruence). rewrite Hnone.
  do 2 wstep. wstep. apply wp_release; [apply not_elem_of_nil|]. wstep. eapply (HS f si).
  - eapply inv_files in Hnew. exact Hnew.
  - done.
  - done.
  - cbn. by rewrite lookup_insert_eq.
  - cbn. by rewrite fget_insert.
Qed.
End calls.

(** ** The network stack as a whole *)

(** What can happen to the stack: system calls, the receive interrupt, and the card. *)
Inductive net_op :=
  | OConnect (ra lp rp : Z)
  | OClose (si : Z)
  | ORead (si : Z) (copyout : Z -> Z -> Z) (n : Z)
  | OWrite (si : Z) (bs : list Z)
  | OIntr
  | OCard (r : gmap Z rx_desc) (t : gmap Z tx_desc) (dma : Z -> mem).

(** The card writes descriptors and the buffers of the receive ring. *)
Definition card (r : gmap Z rx_desc) (t : gmap Z tx_desc) (dma : Z -> mem) (s : netst) : netst :=
  with_rx r (rx_mbufs s) (rdt s) (with_tx t (tx_mbufs s) (tdt s)
    (with_mbufs (map_imap (fun a m => Some (if bool_decide (a ∈ rxl s) then on_buf (fun _ => dma a) m else m)) (mbufs s)) s)).

Definition net_run (o : net_op) : M netst unit :=
  match o with
  | OConnect ra lp rp => sockalloc ra lp rp ;; mret tt
  | OClose si => sockclose si
  | ORead si copyout n => sockread si copyout n ;; mret tt
  | OWrite si bs => sockwrite si (Some bs) (Z.of_nat (length bs)) ;; mret tt
  | OIntr => e1000_recv
  | OCard r t dma => modify (card r t dma)
  end.

(** The use of the stack the theorem covers: no second connect with the same addresses, reads
    that need not wait, writes of at most MBUF_SIZE bytes, memory for the receive ring. *)
Definition net_allowed (Q : Z -> list Z) (s : netst) (o : net_op) : Prop :=
  match o with
  | OConnect ra lp rp => files_ok (nfiles s) /\ find_sock (socks s) (sockets s) ra lp rp = None /\
      0 <= ra < 2 ^ 32 /\ 0 <= lp < 65536 /\ 0 <= rp < 65536
  | OClose si => si ∈ sockets s
  | ORead si _ n => si ∈ sockets s /\ Q si <> [] /\ nkilled s = false /\ 0 <= n /\
      (forall a m, a ∈ Q si -> mbufs s !! a = Some m -> 0 <= m_len m < 2 ^ 31)
  | OWrite si bs => si ∈ sockets s /\ Forall is_byte bs /\ Z.of_nat (length bs) <= MBUF_SIZE
  | OIntr => (32 <= length (pages s))%nat
  | OCard _ _ _ => True
  end.

Lemma mchain_next t t' h l : (forall a, a ∈ l -> m_next <$> t' !! a = m_next <$> t !! a) -> mchain t h l -> mchain t' h l.
Proof.
  revert h. induction l as [|a l IH]; intros h Ht; [done|]. intros (-> & Ha & m & Hm & Hc). split_and!; [done..|].
  pose proof (Ht a ltac:(apply elem_of_cons; by left)) as E. rewrite Hm in E. destruct (t' !! a) as [m'|]; [|done]. injection E as E.
  exists m'. split; [done|]. rewrite E. apply IH; [|done]. intros b Hb. apply Ht. apply elem_of_cons. by right.
Qed.

Lemma inv_card pool loose Q s r t dma : net_inv pool (rxl s) loose Q s ->
  net_inv pool (rxl (card r t dma s)) loose Q (card r t dma s).
Proof.
  intros [H1 H2 H3 H4 H5 H6 H7]. split; try done; cbn.
  - intros a. rewrite map_lookup_imap. change (txl (card r t dma s)) with (txl s). change (rxl (card r t dma s)) with (rxl s).
    rewrite <- H3. destruct (mbufs s !! a); cbn; split; intros [? Hx]; try done; by eexists.
  - intros si x Hsi Hx. destruct (H5 si x Hsi Hx) as (Hc & Hr). split; [|done]. eapply mchain_next; [|exact Hc].
    intros a _. rewrite map_lookup_imap. destruct (mbufs s !! a); [|done]. cbn. by case_bool_decide.
Qed.

Lemma rxl_same s s' : same_rx s s' -> rxl s' = rxl s.
Proof. intros (_ & E & _). unfold rxl, rxm. by rewrite E. Qed.

Lemma net_run_ok pool Q s o : net_inv pool (rxl s) [] Q s -> net_allowed Q s o ->
  wp (net_run o) (KSt [] s) (fun _ k => held k = [] /\ exists Q', net_inv pool (rxl (st k)) [] Q' (st k)).
Proof.
  intros H Ho. destruct o as [ra lp rp|si|si copyout n|si bs| |r t dma]; cbn [net_run net_allowed] in *.
  - destruct Ho as (Hf & Hn & H1 & H2 & H3). wstep. eapply wp_sockalloc; [exact H|done..| |].
    + intros f t' H'. wstep. split; [done|by exists Q].
    + intros f si s' H' Es Er _ _. wstep. split; [done|]. exists (qset si [] Q). cbn. by rewrite Er.
  - eapply wp_sockclose; [exact H|done|]. intros s' H' Es Er. split; [done|]. exists Q. cbn. by rewrite Er.
  - destruct Ho as (Hsi & Hq & Hk & Hn & Hlen). destruct (Q si) as [|a l] eqn:EQ; [done|].
    assert (is_Some (mbufs s !! a)) as [m Hm].
    { apply (ni_mbufs _ _ _ _ _ H). pose proof (in_queue Q _ si a Hsi ltac:(rewrite EQ; apply elem_of_cons; by left)). mem. }
    wstep. eapply wp_sockread; [exact H|exact Hsi|exact EQ|exact Hk|exact Hm|eapply Hlen; [apply elem_of_cons; by left|exact Hm]|exact Hn|].
    intros s' H' Es Er. wstep. split; [done|]. exists (qset si l Q). cbn. by rewrite Er.
  - destruct Ho as (Hsi & Hb & Hn). destruct (inv_sock _ _ _ _ _ H Hsi) as [x Hx]. wstep.
    eapply wp_sockwrite; [exact H|exact Hsi|exact Hx|done|done| |].
    + intros _. wstep. split; [done|by exists Q].
    + intros a l m' s1 s' _ _ _ H' Hs _. wstep. split; [done|]. exists Q. cbn. by rewrite (rxl_same _ _ Hs).
  - eapply wp_e1000_recv; [exact H|done|]. intros Q' s' H' _ _. split; [done|by exists Q'].
  - wstep. split; [done|]. exists Q. by apply inv_card.
Qed.


(** C32: the checksum routine computes the Internet checksum: the complement of the one's
    complement sum of the 16-bit words, for any buffer up to 64 KiB, odd lengths included. *)
Theorem in_cksum_correct b a n : 0 <= n <= 65536 -> in_cksum b a n = cksum (bytes b a (Z.to_nat n)).
Proof. intros Hn. rewrite <- (in_cksum_eq b a (Z.to_nat n)) by lia. by rewrite Z2Nat.id by lia. Qed.

(** The receiver's side of a transfer. *)
Lemma wp_deliver pool hand loose Q s b m sj y x bs pad n copyout (P : Z * list Z -> kst netst -> Prop) :
  net_inv pool (b :: hand) loose Q s -> mbufs s !! b = Some m ->
  holds m (udp_frame local_ip (lport x) (rport x) bs ++ pad) -> Z.of_nat (length bs) <= MBUF_SIZE ->
  0 <= lport x < 65536 -> 0 <= rport x < 65536 ->
  find_sock (socks s) (sockets s) local_ip (rport x) (lport x) = Some sj -> socks s !! sj = Some y ->
  Q sj = [] -> nkilled s = false -> 0 <= n -> (forall a l, copyout a l = 0) ->
  (forall s', P (Z.min n (Z.of_nat (length bs)), take (Z.to_nat n) bs) (KSt [] s')) ->
  wp (net_rx b ;; sockread sj copyout n) (KSt [] s) P.
Proof.
  intros H Hm Hh Hlen Hlp Hrp Hf Hy HQ Hk Hn Hco HP. unfold MBUF_SIZE in Hlen. wstep.
  eapply (wp_net_rx_for_us _ _ _ m local_ip (lport x) (rport x) bs pad); [exact Hm|exact Hh|apply local_ip_range|done|done|lia|done|].
  intros m' Hm'. eapply wp_sockrecvudp; [apply inv_setm; [exact H|mem]|intros E; cbn in E; congruence|].
  intros si s' Hsi Hin H' Hrel. cbn in Hsi. assert (si = sj) as -> by congruence. rewrite HQ in H'. cbn in H'.
  destruct (rk_pkt _ _ Hrel b m' (setm_lookup _ _ _)) as (m2 & Hm2 & E1 & E2 & E3). destruct Hm' as [Hb Hl].
  eapply (wp_sockread hand loose _ s' sj b []); [exact H'|rewrite (rk_sockets _ _ Hrel); exact Hin|apply qset_eq|
    rewrite (rk_killed _ _ Hrel); exact Hk|exact Hm2|rewrite E2, Hl; lia|exact Hn|].
  intros s2 _ _ _. rewrite Hco. change (0 =? -1) with false. cbv iota. rewrite E2, Hl, E1, E3.
  assert (bytes (m_buf m') (m_head m') (Z.to_nat (Z.min n (Z.of_nat (length bs)))) = take (Z.to_nat n) bs) as E.
  { rewrite <- Hb at 2. destruct (decide (Z.to_nat n <= length bs)%nat).
    - replace (Z.to_nat (Z.min n (Z.of_nat (length bs)))) with (Z.to_nat n) by lia.
      replace (length bs) with (Z.to_nat n + (length bs - Z.to_nat n))%nat by lia. rewrite bytes_app.
      by rewrite take_app_length' by (by rewrite length_bytes).
    - rewrite take_ge by (rewrite length_bytes; lia). f_equal. lia. }
  rewrite E. apply HP.
Qed.

(** ** Initialisation *)

Definition blank (pool : list Z) (t : ftable) (pid : Z) : netst := NetSt pool ∅ ∅ ∅ 0 ∅ ∅ 0 ∅ [] t pid false [].

Lemma txl_empty s : tx_mbufs s = ∅ -> txl s = [].
Proof. intros E. unfold txl, txm. rewrite E. done. Qed.

Lemma wp_init_rx pool Q : forall n i s (P : unit -> kst netst -> Prop),
  net_inv pool (rxm s <$> seqZ 0 (Z.of_nat i)) [] Q s -> (n <= length (pages s))%nat ->
  (forall s', net_inv pool (rxm s' <$> seqZ 0 (Z.of_nat (i + n))) [] Q s' -> P tt (KSt [] s')) ->
  wp (e1000_init_rx n (Z.of_nat i)) (KSt [] s) P.
Proof.
  induction n as [|n IH]; intros i s P H Hp HP; cbn [e1000_init_rx].
  { wstep. apply HP. by rewrite Nat.add_0_r. }
  wstep. eapply wp_mbufalloc; [exact H|by vm_compute|intros E; rewrite E in Hp; cbn in Hp; lia|].
  intros a l s1 Ep -> Ha H1. destruct (Z.eqb_spec a 0); [done|]. wstep. nstep. do 2 wstep. set (s2 := with_rx _ _ _ _).
  replace (Z.of_nat i + 1) with (Z.of_nat (S i)) by lia. apply IH.
  - eapply inv_hand; [|apply inv_rx_ring; [exact H1|apply (ni_rdt _ _ _ _ _ H)]].
    replace (Z.of_nat (S i)) with (Z.of_nat i + 1) by lia. rewrite seqZ_app, fmap_app by lia.
    replace (seqZ (0 + Z.of_nat i) 1) with [Z.of_nat i] by (rewrite seqZ_cons, seqZ_nil by lia; f_equal; lia). cbn [fmap list_fmap].
    assert (rxm s2 (Z.of_nat i) = a) as -> by (unfold rxm, s2; cbn; by rewrite lookup_insert_eq).
    rewrite (list_fmap_ext (rxm s2) (rxm s)); [solve_Permutation|].
    intros k j Hj%lookup_seqZ. unfold rxm, s2. cbn. rewrite lookup_insert_ne by lia. done.
  - rewrite Ep in Hp. cbn in *. lia.
  - intros s' H'. apply HP. by rewrite Nat.add_succ_r.
Qed.

(** The rings e1000_init builds satisfy the invariant. *)
Lemma e1000_init_ok pool t pid : NoDup pool -> 0 ∉ pool -> (16 <= length pool)%nat ->
  wp e1000_init (KSt [] (blank pool t pid)) (fun _ k => held k = [] /\ net_inv pool (rxl (st k)) [] (fun _ => []) (st k)).
Proof.
  intros HN H0 Hl. unfold e1000_init. do 2 wstep. set (s1 := with_tx _ _ _ _).
  wstep. apply (wp_init_rx pool (fun _ => []) 16 0 s1).
  - split; try done.
    + rewrite (txl_empty s1) by done. cbn. by rewrite !app_nil_r.
    + intros a. rewrite (txl_empty s1) by done. cbn. split; [by intros []|by intros ?%not_elem_of_nil].
    + intros si. cbn. split; [by intros []|by intros ?%not_elem_of_nil].
  - done.
  - intros s' H'. wstep. split; [done|]. cbn. by apply inv_rx_ring.
Qed.

(** A descriptor is free: the packet gets into the ring. *)
Lemma wp_sockwrite_dd pool Q s si x bs (P : Z -> kst netst -> Prop) :
  net_inv pool (rxl s) [] Q s -> si ∈ sockets s -> socks s !! si = Some x -> Forall is_byte bs -> Z.of_nat (length bs) <= MBUF_SIZE ->
  pages s <> [] -> (Z.land (t_status (txd s (tdt s))) E1000_TXD_STAT_DD =? 0) = false ->
  (forall a m' s', txm s' (tdt s) = a -> mbufs s' !! a = Some m' -> holds m' (udp_frame (raddr x) (lport x) (rport x) bs) ->
     P (Z.of_nat (length bs)) (KSt [] s')) ->
  wp (sockwrite si (Some bs) (Z.of_nat (length bs))) (KSt [] s) P.
Proof.
  intros H Hsi Hx Hbs Hlen Hp Hdd HP.
  eapply wp_sockwrite; [exact H|exact Hsi|exact Hx|done..|].
  - intros a l m' s1 s' Ep -> Hh H' Hs [[Q1 Q2 _ _ _]|[_ Hb]]; [|unfold tx_busy in Hb; congruence].
    eapply HP; [exact Q1|rewrite Q2; apply setm_lookup|exact Hh].
Qed.

(** C31: a datagram arrives as it was sent: what sockwrite puts into the transmit ring is an
    Ethernet frame which, received by a stack with a matching socket (with or without padding
    behind it), passes all checks and makes the next sockread of that socket return exactly
    the bytes written. *)
Theorem udp_end_to_end pool1 Q1 s1 si x bs pool2 hand Q2 s2 b m2 sj y pad n copyout :
  (* the sender: an open socket, a free page and a free descriptor *)
  net_inv pool1 (rxl s1) [] Q1 s1 -> si ∈ sockets s1 -> socks s1 !! si = Some x -> raddr x = local_ip ->
  Forall is_byte bs -> Z.of_nat (length bs) <= MBUF_SIZE -> pages s1 <> [] ->
  (Z.land (t_status (txd s1 (tdt s1))) E1000_TXD_STAT_DD =? 0) = false ->
  (* the receiver: the socket of the other end, with an empty queue *)
  net_inv pool2 (b :: hand) [] Q2 s2 -> mbufs s2 !! b = Some m2 ->
  find_sock (socks s2) (sockets s2) local_ip (rport x) (lport x) = Some sj -> socks s2 !! sj = Some y ->
  Q2 sj = [] -> nkilled s2 = false -> 0 <= n -> (forall a l, copyout a l = 0) ->
  exists s1' m, sockwrite si (Some bs) (Z.of_nat (length bs)) (KSt [] s1) = Ok (Z.of_nat (length bs)) (KSt [] s1') /\
    mbufs s1' !! txm s1' (tdt s1) = Some m /\
    (holds m2 (bytes (m_buf m) (m_head m) (Z.to_nat (m_len m)) ++ pad) ->
     exists s2', (net_rx b ;; sockread sj copyout n) (KSt [] s2) =
       Ok (Z.min n (Z.of_nat (length bs)), take (Z.to_nat n) bs) (KSt [] s2')).
Proof.
  intros H1 Hsi Hx Hra Hbs Hlen Hp Hdd H2 Hm2 Hf Hy HQ Hk Hn Hco.
  destruct (ni_q _ _ _ _ _ H1 si x Hsi Hx) as (_ & _ & _ & Hlp & Hrp).
  assert (wp (sockwrite si (Some bs) (Z.of_nat (length bs))) (KSt [] s1) (fun r k => r = Z.of_nat (length bs) /\ held k = [] /\
    exists m, mbufs (st k) !! txm (st k) (tdt s1) = Some m /\ holds m (udp_frame (raddr x) (lport x) (rport x) bs))) as HW.
  { eapply wp_sockwrite_dd; [exact H1|exact Hsi|exact Hx|done..|]. intros a m' s' Ea Hm' Hh. split_and!; [done..|]. exists m'. cbn. by rewrite Ea. }
  apply wp_elim in HW as (r & [h1 s1'] & E1 & -> & Hh & m & Hm & Hhold). cbn in Hh, Hm. subst h1. exists s1', m.
  split_and!; [done..|]. destruct (Hhold) as [Hb Hml]. rewrite Hml, Nat2Z.id, Hb, Hra. intros Hm2h.
  assert (wp (net_rx b ;; sockread sj copyout n) (KSt [] s2)
    (fun r k => r = (Z.min n (Z.of_nat (length bs)), take (Z.to_nat n) bs) /\ held k = [])) as HW.
  { eapply wp_deliver; [exact H2|exact Hm2|exact Hm2h|done..|]. by intros s'. }
  apply wp_elim in HW as (r & [h2 s2'] & E2 & -> & Hh2). cbn in Hh2. subst h2. eauto.
Qed.
