(* ===== verification/NetEx.v ===== *)
(** * The network stack: witnesses, and the misuse it does not survive *)
From S2P Require Import Prelude Mem Sleeplock Ftable Mbuf Net NetSpec NetInv NetQueue NetThms.

(** ** Code that ends in a panic *)

Definition panics {S A} (m : M S A) (k : kst S) (msg : string) : Prop := m k = Panic msg.

Lemma panics_here {S A B} (m : M S A) (f : A -> M S B) k msg : panics m k msg -> panics (m ≫= f) k msg.
Proof. unfold panics, mbind, M_bind. by intros ->. Qed.
(** [m] returns, and what follows panics. *)
Lemma panics_after {S A B} (m : M S A) (f : A -> M S B) k msg :
  wp m k (fun a k' => panics (f a) k' msg) -> panics (m ≫= f) k msg.
Proof. unfold wp, panics, mbind, M_bind. by destruct (m k). Qed.

Lemma the_sock_fault h s si : socks s !! si = None -> panics (the_sock si) (KSt h s) fault.
Proof. intros E. unfold the_sock. apply panics_after. wstep. cbn. by rewrite E. Qed.

(** C33: a second connect with the addresses of an open socket is not refused: sockalloc frees
    the new socket and then closes the file that still points to it, so sockclose walks the
    queue of a freed page. *)
Theorem sockalloc_duplicate_faults pool Q s ra lp rp sj i :
  net_inv pool (rxl s) [] Q s -> find_sock (socks s) (sockets s) ra lp rp = Some sj ->
  0 <= i < NFILE -> f_ref (fget (nfiles s) i) = 0 -> pages s <> [] ->
  sockalloc ra lp rp (KSt [] s) = Panic fault.
Proof.
  intros H Hf Hi Hi0 Hp. change (panics (sockalloc ra lp rp) (KSt [] s) fault).
  destruct (pages s) as [|si l] eqn:Ep; [done|].
  assert (si <> 0 /\ (si ∉ sockets s)) as [Hsi Hns].
  { pose proof (inv_nodup _ _ _ _ H) as HN. rewrite Ep in HN. cbn [app] in HN. apply NoDup_cons in HN as [Hn _].
    split; [|mem]. intros ->. apply (proj2 (ni_pool _ _ _ _ _ H)). rewrite <- (ni_perm _ _ _ _ _ H), Ep. mem. }
  unfold sockalloc. apply panics_after. apply wp_filealloc; [apply not_elem_of_nil|intros Hall; by destruct (Hall i Hi)|].
  intros f Hfr Hf0. apply panics_after. unfold page_alloc. do 2 wstep. cbn [pages with_nfiles set_ft net_ftable]. rewrite Ep. do 3 wstep.
  destruct (Z.eqb_spec si 0); [done|]. apply panics_after. unfold put_sock. wstep. apply panics_after. unfold upd_file. wstep.
  apply panics_after. apply wp_acquire; [apply not_elem_of_nil|]. apply panics_after. wstep.
  cbn [id socks sockets with_socks with_nfiles with_pages ft set_ft net_ftable nfiles].
  rewrite (find_sock_ext (socks s)) by (intros sk Hk; apply lookup_insert_ne; congruence). rewrite Hf.
  apply panics_after. apply wp_release; [apply not_elem_of_nil|].
  apply panics_after. unfold sock_free. wstep. eapply wp_the_sock; [cbn; apply lookup_insert_eq|]. wstep. wstep. unfold page_free. wstep.
  apply panics_here. unfold fileclose, upd_file. apply panics_after. apply wp_acquire; [apply not_elem_of_nil|]. apply panics_after. wstep.
  cbn [ft set_ft net_ftable nfiles with_pages with_socks with_nfiles]. rewrite fget_insert. cbn [f_ref set_ref].
  rewrite fget_insert. cbn [f_ref set_ref]. change (1 <? 1) with false. cbv iota. apply panics_after. wstep.
  change (0 <? 1 - 1) with false. cbv iota. apply panics_after. wstep. apply panics_after. wstep.
  apply panics_after. apply wp_release; [apply not_elem_of_nil|].
  cbn [ft set_ft net_ftable nfiles with_pages with_socks with_nfiles]. rewrite !fget_insert. unfold close_sock. cbn [f_type set_ref f_sock].
  unfold sockclose. apply panics_after. apply wp_acquire; [apply not_elem_of_nil|]. apply panics_after. wstep.
  apply panics_after. apply wp_release; [apply not_elem_of_nil|]. apply panics_after. wstep. apply panics_here.
  set (fuel := size _). destruct fuel; cbn [drain]; apply panics_here; unfold mbufq_empty; apply panics_here; apply the_sock_fault;
    cbn; apply lookup_delete_eq.
Qed.

(** A write to a socket of more than MBUF_SIZE bytes, or of a negative count, stops the
    kernel: sockwrite hands the user's count to mbufput unchecked. *)
Theorem sockwrite_size_panics s si copyin n :
  (n < 0 \/ MBUF_SIZE < n) -> - 2 ^ 31 <= n < 2 ^ 31 -> (exists p l, pages s = p :: l /\ p <> 0) ->
  sockwrite si copyin n (KSt [] s) = Panic "mbufput".
Proof.
  intros Hn Hr (p & l & Ep & Hp). change (panics (sockwrite si copyin n) (KSt [] s) "mbufput"). unfold sockwrite.
  apply panics_after. unfold mbufalloc. destruct (Z.ltb_spec MBUF_SIZE MBUF_DEFAULT_HEADROOM) as [Hb|_]; [done|].
  unfold page_alloc. do 3 wstep. rewrite Ep. do 3 wstep. destruct (Z.eqb_spec p 0); [done|]. wstep. nstep. wstep.
  destruct (Z.eqb_spec p 0); [done|]. apply panics_here. unfold mbufput. apply panics_after. nstep. cbn [m_len].
  assert (MBUF_SIZE < u32 (0 + u32 n)) as Hbig.
  { unfold u32, MBUF_SIZE in *. change (2 ^ 32) with 4294967296. change (2 ^ 31) with 2147483648 in Hr. rewrite Z.add_0_l, Z.mod_mod by lia. dlia. }
  by destruct (Z.ltb_spec MBUF_SIZE (u32 (0 + u32 n))); [|lia].
Qed.

(** ** A booted stack *)

Definition pool0 : list Z := (fun i => 2147483648 + 4096 * i) <$> seqZ 0 60.
Definition boot_net : kst netst := KSt [] (blank pool0 ∅ 1).

(** Seventeen packets given to the driver while the card does nothing at all. *)
Definition seventeen : M netst (list Z * option mbuf) :=
  e1000_init ;;
  bufs ← mapM (fun _ => mbufalloc MBUF_DEFAULT_HEADROOM) (seq 0 17);
  rs ← mapM e1000_transmit bufs;
  first ← gets (fun s => mbufs s !! default 0 (bufs !! 0%nat));
  mret (rs, first).


(** ** Witnesses *)

Definition up : netst := st (after e1000_init boot_net).
Lemma pool0_ok : NoDup pool0 /\ (0 ∉ pool0).
Proof. split; [apply NoDup_fmap_2; [intros x y; lia|apply NoDup_seqZ]|]. by apply (bool_decide_unpack (0 ∉ pool0)). Qed.
Lemma up_inv : net_inv pool0 (rxl up) [] (fun _ => []) up.
Proof.
  destruct pool0_ok as [HN H0]. destruct (wp_after _ _ _ (e1000_init_ok pool0 ∅ 1 HN H0 ltac:(vm_compute; lia))) as (? & _ & _ & H).
  exact H.
Qed.
Lemma no_files : files_ok ∅.
Proof. intros i _. done. Qed.

Definition connected (lp rp : Z) : netst := st (after (sockalloc local_ip lp rp) (KSt [] up)).
Lemma connected_inv lp rp : 0 <= lp < 65536 -> 0 <= rp < 65536 ->
  exists Q, net_inv pool0 (rxl (connected lp rp)) [] Q (connected lp rp) /\ forall sj, Q sj = [].
Proof.
  intros Hl Hr. pose proof up_inv as H.
  assert (wp (sockalloc local_ip lp rp) (KSt [] up) (fun _ k => exists Q, net_inv pool0 (rxl (st k)) [] Q (st k) /\ forall sj, Q sj = [])) as HW.
  { assert (nfiles up = ∅) as Ef by (by vm_compute). assert (sockets up = []) as Es by (by vm_compute).
    eapply wp_sockalloc; [exact H|rewrite Ef; apply no_files|by rewrite Es|apply local_ip_range|done|done| |].
    - intros f t H'. eexists. split; [exact H'|done].
    - intros f si s' H' _ Er _ _. exists (qset si [] (fun _ => [])). cbn [st]. rewrite Er. split; [exact H'|]. intros sj. unfold qset. by destruct (_ =? _). }
  destruct (wp_after _ _ _ HW) as (? & _ & HH). exact HH.
Qed.


Lemma in_cksum_correct_witness : in_cksum (store_bytes ∅ 100 [1; 2; 3]) 100 3 = cksum (bytes (store_bytes ∅ 100 [1; 2; 3]) 100 3).
Proof. apply (in_cksum_correct (store_bytes ∅ 100 [1; 2; 3]) 100 3). lia. Defined.

Definition s0 : Z := 2147549184.
Lemma sockalloc_duplicate_faults_witness : sockalloc local_ip 2000 3000 (KSt [] (connected 2000 3000)) = Panic fault.
Proof.
  destruct (connected_inv 2000 3000 ltac:(lia) ltac:(lia)) as (Q & H & _).
  apply (sockalloc_duplicate_faults pool0 Q (connected 2000 3000) local_ip 2000 3000 s0 5 H).
  - vm_compute. reflexivity.
  - unfold NFILE. lia.
  - vm_compute. reflexivity.
  - vm_compute. discriminate.
Defined.

Lemma sockwrite_size_panics_witness : sockwrite s0 None (-1) (KSt [] (connected 2000 3000)) = Panic "mbufput".
Proof.
  apply (sockwrite_size_panics (connected 2000 3000) s0 None (-1)); [left; lia|lia|].
  do 2 eexists. split; [vm_compute; reflexivity|vm_compute; discriminate].
Defined.

(** The receiver of the end-to-end witness: slot 0 of the ring holds a padded frame. *)
Definition frame0 : list Z := udp_frame local_ip 2000 3000 [104; 105] ++ [0; 0; 0; 0].
Definition b0 : Z := rxm (connected 3000 2000) 0.
Definition arrived : mbuf := Mbuf 0 0 (Z.of_nat (length frame0)) (store_bytes ∅ 0 frame0).
Definition receiver : netst := setm b0 arrived (connected 3000 2000).

Lemma receiver_inv : exists hand Q, net_inv pool0 (b0 :: hand) [] Q receiver /\ forall sj, Q sj = [].
Proof.
  destruct (connected_inv 3000 2000 ltac:(lia) ltac:(lia)) as (Q & H & HQ).
  destruct (rxl_split (connected 3000 2000) 0 ltac:(lia)) as (A & B & E & _). exists (A ++ B), Q. split; [|exact HQ].
  apply inv_setm; [|apply elem_of_cons; by left]. eapply inv_hand; [|exact H]. rewrite E. unfold b0. solve_Permutation.
Qed.

Lemma udp_end_to_end_witness : exists s1' m,
  sockwrite s0 (Some [104; 105]) 2 (KSt [] (connected 2000 3000)) = Ok 2 (KSt [] s1') /\
  mbufs s1' !! txm s1' 0 = Some m /\
  (holds arrived (bytes (m_buf m) (m_head m) (Z.to_nat (m_len m)) ++ [0; 0; 0; 0]) ->
   exists s2', (net_rx b0 ;; sockread s0 (fun _ _ => 0) 10) (KSt [] receiver) = Ok (2, [104; 105]) (KSt [] s2')).
Proof.
  destruct (connected_inv 2000 3000 ltac:(lia) ltac:(lia)) as (Q1 & H1 & _). destruct receiver_inv as (hand & Q2 & H2 & HQ2).
  apply (udp_end_to_end pool0 Q1 (connected 2000 3000) s0 (Sock local_ip 2000 3000 0 0) [104; 105]
    pool0 hand Q2 receiver b0 arrived s0 (Sock local_ip 3000 2000 0 0) [0; 0; 0; 0] 10 (fun _ _ => 0)).
  - exact H1.
  - vm_compute. left.
  - vm_compute. reflexivity.
  - reflexivity.
  - repeat constructor; by vm_compute.
  - by vm_compute.
  - by vm_compute.
  - by vm_compute.
  - exact H2.
  - vm_compute. reflexivity.
  - vm_compute. reflexivity.
  - vm_compute. reflexivity.
  - apply HQ2.
  - vm_compute. reflexivity.
  - lia.
  - reflexivity.
Defined.
