(* ===== verification/Sh.v ===== *)
(** * The shell's command parser and interpreter (user/sh.c)

    A pointer into the command line is represented by the text from it to the terminating
    NUL: [s < es] is [s <> []], [*s] is [deref s], and [s1 - s2] is a difference of lengths.
    The parser functions return the new value of [*ps]; [panic] and the exhaustion of the
    fuel (proved impossible in ShThms.v) are error values. *)
From S2P Require Import Prelude.

Abbreviation ptr := (list Z).

(** A token as the pointers to its first character and behind its last. *)
Record token := Tok { tq : ptr; teq : ptr }.

(** The structures execcmd, redircmd, pipecmd, listcmd and backcmd. *)
Inductive cmd :=
  | EXEC (argv : list token)
  | REDIR (c : cmd) (file : token) (mode fd : Z)
  | PIPE (left right : cmd)
  | LIST (left right : cmd)
  | BACK (c : cmd).

Inductive perr := Syntax (msg : string) | NoFuel.
Definition R (A : Type) : Type := perr + A.
#[export] Instance R_ret : MRet R := fun A a => inr a.
#[export] Instance R_bind : MBind R := fun A B f m => match m with inl e => inl e | inr a => f a end.

Definition MAXARGS : Z := 10.
Definition O_RDONLY : Z := 0.
Definition O_WRONLY : Z := 1.
Definition O_CREATE : Z := 512.
Definition O_TRUNC : Z := 1024.

Definition whitespace : list Z := [32; 9; 13; 10; 11].
Definition symbols : list Z := [60; 124; 62; 38; 59; 40; 41].
(** strchr as a test; the library's loop stops at the NUL, so it does not find NUL. *)
Definition strchr (s : list Z) (c : Z) : bool := existsb (fun x => x =? c) s.
#[global] Arguments strchr : simpl never.

Definition deref (s : ptr) : Z := match s with [] => 0 | c :: _ => c end.
Fixpoint skip (s : ptr) : ptr :=
  match s with [] => [] | c :: s' => if strchr whitespace c then skip s' else s end.
Fixpoint word_end (s : ptr) : ptr :=
  match s with
  | [] => []
  | c :: s' => if negb (strchr whitespace c) && negb (strchr symbols c) then word_end s' else s
  end.

(** gettoken: its result, [*q], [*eq] and the new [*ps]. *)
Definition gettoken (ps : ptr) : Z * ptr * ptr * ptr :=
  let q := skip ps in
  let c := deref q in
  if c =? 0 then (c, q, q, skip q)
  else if strchr [124; 40; 41; 59; 38; 60] c then (c, q, tail q, skip (tail q))
  else if c =? 62 then
    if deref (tail q) =? 62 then (43, q, tail (tail q), skip (tail (tail q)))
    else (c, q, tail q, skip (tail q))
  else (97, q, word_end q, skip (word_end q)).

Definition peek (ps : ptr) (toks : list Z) : bool * ptr :=
  let s := skip ps in (negb (deref s =? 0) && strchr toks (deref s), s).

(** The redirections parseredirs wraps around a command, in the order they are met.  The
    code wraps them around the command while parseexec is still adding arguments to it. *)
Record redir := Redir { r_file : token; r_mode : Z; r_fd : Z }.
Definition redircmds (c : cmd) (rs : list redir) : cmd :=
  foldl (fun c r => REDIR c (r_file r) (r_mode r) (r_fd r)) c rs.

Fixpoint parseredirs (fuel : nat) (ps : ptr) : R (list redir * ptr) :=
  let '(b, ps) := peek ps [60; 62] in
  if negb b then mret ([], ps) else
  match fuel with
  | O => inl NoFuel
  | S f =>
    let '(tok, _, _, ps) := gettoken ps in
    let '(t2, q, eq, ps) := gettoken ps in
    if negb (t2 =? 97) then inl (Syntax "missing file for redirection") else
    '(rs, ps) ← parseredirs f ps;
    let r := if tok =? 60 then Redir (Tok q eq) O_RDONLY 0
             else if tok =? 62 then Redir (Tok q eq) (Z.lor (Z.lor O_WRONLY O_CREATE) O_TRUNC) 1
             else Redir (Tok q eq) (Z.lor O_WRONLY O_CREATE) 1 in
    mret (r :: rs, ps)
  end.

(** The loop of parseexec over arguments: the arguments and the redirections from here on. *)
Fixpoint parseargs (fuel : nat) (argc : Z) (ps : ptr) : R (list token * list redir * ptr) :=
  let '(b, ps) := peek ps [124; 41; 38; 59] in
  if b then mret ([], [], ps) else
  let '(tok, q, eq, ps) := gettoken ps in
  if tok =? 0 then mret ([], [], ps) else
  if negb (tok =? 97) then inl (Syntax "syntax") else
  if MAXARGS <=? argc + 1 then inl (Syntax "too many args") else
  match fuel with
  | O => inl NoFuel
  | S f =>
    '(rs, ps) ← parseredirs (S (length ps)) ps;
    '(args, rs', ps) ← parseargs f (argc + 1) ps;
    mret (Tok q eq :: args, rs ++ rs', ps)
  end.

(** [while(peek(ps, es, "&"))] of parseline. *)
Fixpoint parsebacks (fuel : nat) (c : cmd) (ps : ptr) : R (cmd * ptr) :=
  let '(b, ps) := peek ps [38] in
  if negb b then mret (c, ps) else
  match fuel with
  | O => inl NoFuel
  | S f => let '(_, _, _, ps) := gettoken ps in parsebacks f (BACK c) ps
  end.

Fixpoint parseline (fuel : nat) (ps : ptr) {struct fuel} : R (cmd * ptr) :=
  match fuel with
  | O => inl NoFuel
  | S f =>
    '(c, ps) ← parsepipe f ps;
    '(c, ps) ← parsebacks (length ps) c ps;
    let '(b, ps) := peek ps [59] in
    if b then
      let '(_, _, _, ps) := gettoken ps in
      '(r, ps) ← parseline f ps; mret (LIST c r, ps)
    else mret (c, ps)
  end
with parsepipe (fuel : nat) (ps : ptr) {struct fuel} : R (cmd * ptr) :=
  match fuel with
  | O => inl NoFuel
  | S f =>
    '(c, ps) ← parseexec f ps;
    let '(b, ps) := peek ps [124] in
    if b then
      let '(_, _, _, ps) := gettoken ps in
      '(r, ps) ← parsepipe f ps; mret (PIPE c r, ps)
    else mret (c, ps)
  end
with parseexec (fuel : nat) (ps : ptr) {struct fuel} : R (cmd * ptr) :=
  match fuel with
  | O => inl NoFuel
  | S f =>
    let '(b, ps) := peek ps [40] in
    if b then parseblock f ps else
    '(rs, ps) ← parseredirs (length ps) ps;
    '(args, rs', ps) ← parseargs (length ps) 0 ps;
    mret (redircmds (EXEC args) (rs ++ rs'), ps)
  end
with parseblock (fuel : nat) (ps : ptr) {struct fuel} : R (cmd * ptr) :=
  match fuel with
  | O => inl NoFuel
  | S f =>
    let '(b, ps) := peek ps [40] in
    if negb b then inl (Syntax "parseblock") else
    let '(_, _, _, ps) := gettoken ps in
    '(c, ps) ← parseline f ps;
    let '(b, ps) := peek ps [41] in
    if negb b then inl (Syntax "syntax - missing )") else
    let '(_, _, _, ps) := gettoken ps in
    '(rs, ps) ← parseredirs (length ps) ps;
    mret (redircmds c rs, ps)
  end.

(** nulterminate: NULs stored behind the tokens; [n] is the length of the line, the buffer
    has its terminator at index [n]. *)
Definition nul_at (n : nat) (eq : ptr) (buf : list Z) : list Z := <[(n - length eq)%nat := 0]> buf.
Fixpoint nulterminate (n : nat) (c : cmd) (buf : list Z) : list Z :=
  match c with
  | EXEC argv => foldl (fun b t => nul_at n (teq t) b) buf argv
  | REDIR c file _ _ => nul_at n (teq file) (nulterminate n c buf)
  | PIPE l r | LIST l r => nulterminate n r (nulterminate n l buf)
  | BACK c => nulterminate n c buf
  end.

(** parsecmd: the command, and the contents of the line buffer it leaves. *)
Definition parsecmd (s : ptr) : R (cmd * list Z) :=
  '(c, s') ← parseline (4 * length s + 4) s;
  let '(_, s') := peek s' [] in
  if bool_decide (s' = []) then mret (c, nulterminate (length s) c (s ++ [0])) else inl (Syntax "syntax").
