(* ===== verification/ShStr.v ===== *)
(** * The strings of a parsed command after nulterminate *)
From S2P Require Import Prelude Sh ShThms.

Definition is_word (c : Z) : bool := negb (strchr whitespace c) && negb (strchr symbols c).
(** The text of a token. *)
Definition text (t : token) : list Z := take (length (tq t) - length (teq t)) (tq t).

(** A word token of the line [s]: a maximal run of word characters. *)
Record good_tok (s : ptr) (t : token) : Prop := {
  gt_in : exists pre, s = pre ++ tq t;
  gt_text : tq t = text t ++ teq t;
  gt_word : text t <> [] /\ Forall (fun c => is_word c = true) (text t);
  gt_end : match teq t with [] => True | c :: _ => is_word c = false end;
}.

Fixpoint toks (c : cmd) : list token :=
  match c with
  | EXEC argv => argv
  | REDIR c file _ _ => toks c ++ [file]
  | PIPE l r | LIST l r => toks l ++ toks r
  | BACK c => toks c
  end.

(** Redirections are only of descriptors 0 and 1. *)
Fixpoint std_fds (c : cmd) : Prop :=
  match c with
  | EXEC _ => True
  | REDIR c _ _ fd => (fd = 0 \/ fd = 1) /\ std_fds c
  | PIPE l r | LIST l r => std_fds l /\ std_fds r
  | BACK c => std_fds c
  end.

Lemma skip_suffix s : skip s `suffix_of` s.
Proof. induction s as [|c s IH]; cbn; [done|]. destruct (strchr whitespace c); [by apply suffix_cons_r|done]. Qed.
Lemma tail_suffix (s : ptr) : tail s `suffix_of` s.
Proof. destruct s; cbn; [done|by apply suffix_cons_r]. Qed.
Lemma word_end_spec s : exists w, s = w ++ word_end s /\ Forall (fun c => is_word c = true) w /\
  match word_end s with [] => True | c :: _ => is_word c = false end.
Proof.
  induction s as [|c s (w & E & Hw & He)]; cbn; [by exists []|]. fold (is_word c). destruct (is_word c) eqn:Ec.
  - exists (c :: w). split_and!; [by rewrite E at 1|by constructor|done].
  - exists []. done.
Qed.

Lemma text_app w e : text (Tok (w ++ e) e) = w.
Proof.
  unfold text. cbn [tq teq]. rewrite length_app. replace (length w + length e - length e)%nat with (length w) by lia. apply take_app_length.
Qed.

Section good.
Context (s : ptr).
Implicit Types (ps q eq : ptr).

(** The pointers gettoken returns stay on the line, and a token of kind 'a' is a word. *)
Lemma gettoken_good ps : ps `suffix_of` s -> let '(tok, q, eq, ps') := gettoken ps in
  ps' `suffix_of` s /\ (tok = 97 -> good_tok s (Tok q eq)).
Proof.
  intros Hs. unfold gettoken. assert (skip ps `suffix_of` s) as Hq by (etrans; [apply skip_suffix|done]).
  set (q := skip ps) in *.
  assert (forall p, p `suffix_of` s -> skip p `suffix_of` s) as Hsk by (intros p Hp; etrans; [apply skip_suffix|done]).
  assert (tail q `suffix_of` s) as Ht by (etrans; [apply tail_suffix|done]).
  assert (tail (tail q) `suffix_of` s) as Htt by (etrans; [apply tail_suffix|done]).
  destruct (Z.eqb_spec (deref q) 0) as [E|E]; [split; [by apply Hsk|intros E'; rewrite E' in E; done]|].
  destruct (deref_cons q E) as (c & s1 & Eq & Hc).
  destruct (strchr [124; 40; 41; 59; 38; 60] (deref q)) eqn:Es.
  { split; [by apply Hsk|]. intros E97. rewrite E97 in Es. done. }
  destruct (Z.eqb_spec (deref q) 62) as [E62|E62].
  { destruct (deref (tail q) =? 62); (split; [by apply Hsk|]); intros E97; [done|]. rewrite E62 in E97. done. }
  destruct (word_end_spec q) as (w & Ew & Hw & He). set (e := word_end q) in *. clearbody e. split.
  { apply Hsk. etrans; [|exact Hq]. exists w. exact Ew. }
  intros _. assert (text (Tok q e) = w) as Etx by (rewrite Ew; apply text_app).
  destruct Hq as [pre Hpre]. split; cbn [tq teq]; rewrite ?Etx; [by exists pre|done| |done]. split; [|done].
  intros ->. cbn in Ew. rewrite <- Ew in He. rewrite Eq in He. assert (strchr whitespace c = false) as Hws by (apply (skip_head ps c s1); exact Eq).
  unfold is_word in He. rewrite Hws in He. cbn in He. rewrite Eq in Es, E62. cbn [deref] in Es, E62.
  unfold strchr, symbols in *. cbn [existsb] in *. rewrite negb_false_iff, !orb_true_iff in He. rewrite !orb_false_iff in Es.
  destruct (Z.eqb_spec 62 c); [congruence|]. intuition congruence.
Qed.

Definition good_redirs (rs : list redir) : Prop := Forall (fun r => good_tok s (r_file r) /\ (r_fd r = 0 \/ r_fd r = 1)) rs.

Lemma parseredirs_good fuel : forall ps, ps `suffix_of` s ->
  match parseredirs fuel ps with inl _ => True | inr (rs, ps') => ps' `suffix_of` s /\ good_redirs rs end.
Proof.
  induction fuel as [|f IH]; intros ps Hs; cbn [parseredirs]; unfold peek;
    (assert (skip ps `suffix_of` s) as Hk by (etrans; [apply skip_suffix|done])); (destruct (negb _); [split; [done|apply Forall_nil_2]|]); [done|].
  pose proof (gettoken_good (skip ps) Hk) as H1. destruct (gettoken (skip ps)) as [[[t1 ?] ?] ps1]. destruct H1 as [H1 _].
  pose proof (gettoken_good ps1 H1) as H2. destruct (gettoken ps1) as [[[t2 q] eq] ps2]. destruct H2 as [H2 Hg].
  destruct (Z.eqb_spec t2 97) as [E|]; [|done]. cbn [negb]. specialize (IH ps2 H2). unfold mbind, R_bind.
  destruct (parseredirs f ps2) as [|[rs ps3]]; [done|]. destruct IH as [I1 I2]. split; [done|]. constructor; [|done].
  specialize (Hg E). destruct (t1 =? 60); [by split; [|left]|]. destruct (t1 =? 62); by split; [|right].
Qed.

Lemma skip_on ps : ps `suffix_of` s -> skip ps `suffix_of` s.
Proof. intros H. etrans; [apply skip_suffix|done]. Qed.

Lemma parseargs_good fuel : forall argc ps, ps `suffix_of` s ->
  match parseargs fuel argc ps with
  | inl _ => True
  | inr (args, rs, ps') => ps' `suffix_of` s /\ Forall (good_tok s) args /\ good_redirs rs
  end.
Proof.
  assert (forall ps, ps `suffix_of` s -> ps `suffix_of` s /\ Forall (good_tok s) [] /\ good_redirs []) as Hnil.
  { intros ps H. split_and!; [done|apply Forall_nil_2|apply Forall_nil_2]. }
  induction fuel as [|f IH]; intros argc ps Hs; cbn [parseargs]; unfold peek; pose proof (skip_on ps Hs) as Hk;
    (destruct (_ && _); [by apply Hnil|]); pose proof (gettoken_good (skip ps) Hk) as H1;
    destruct (gettoken (skip ps)) as [[[t1 q] eq] ps1]; destruct H1 as [H1 Hg]; (destruct (t1 =? 0); [by apply Hnil|]);
    (destruct (Z.eqb_spec t1 97) as [E|]; [|done]); cbn [negb]; (destruct (MAXARGS <=? argc + 1); [done|]); [done|].
  specialize (Hg E). pose proof (parseredirs_good (S (length ps1)) ps1 H1) as H2. unfold mbind, R_bind.
  destruct (parseredirs (S (length ps1)) ps1) as [|[rs ps2]]; [done|]. destruct H2 as [H2 Hrs].
  specialize (IH (argc + 1) ps2 H2). destruct (parseargs f (argc + 1) ps2) as [|[[args rs'] ps3]]; [done|].
  destruct IH as (I1 & I2 & I3). split_and!; [done|by constructor|by apply Forall_app].
Qed.

Definition good_cmd (c : cmd) : Prop := Forall (good_tok s) (toks c) /\ std_fds c.
Definition goodR (r : R (cmd * ptr)) : Prop :=
  match r with inl _ => True | inr (c, ps) => ps `suffix_of` s /\ good_cmd c end.

Lemma goodR_bind (r : R (cmd * ptr)) (f : cmd -> ptr -> R (cmd * ptr)) :
  goodR r -> (forall c ps, ps `suffix_of` s -> good_cmd c -> goodR (f c ps)) -> goodR ('(c, ps) ← r; f c ps).
Proof. intros H Hf. unfold mbind, R_bind. destruct r as [|[c ps]]; [done|]. destruct H. by apply Hf. Qed.

Lemma redircmds_good rs : forall c, good_cmd c -> good_redirs rs -> good_cmd (redircmds c rs).
Proof.
  induction rs as [|r rs IH]; intros c Hc Hr; [done|]. apply Forall_cons in Hr as [[Hr Hf] Hrs]. apply IH; [|done].
  destruct Hc as [Hc Hd]. split; [|done]. apply Forall_app. split; [done|]. by apply Forall_singleton.
Qed.

Lemma parsebacks_good fuel : forall c ps, ps `suffix_of` s -> good_cmd c -> goodR (parsebacks fuel c ps).
Proof.
  induction fuel as [|f IH]; intros c ps Hs Hc; cbn [parsebacks]; unfold peek; pose proof (skip_on ps Hs) as Hk;
    (destruct (negb _); [by split|]); [done|].
  pose proof (gettoken_good (skip ps) Hk) as H1. destruct (gettoken (skip ps)) as [[[? ?] ?] ps1]. apply IH; [apply H1|done].
Qed.

Lemma gettoken_ptr ps : ps `suffix_of` s -> snd (gettoken ps) `suffix_of` s.
Proof. intros H. pose proof (gettoken_good ps H) as HG. destruct (gettoken ps) as [[[? ?] ?] ps1]. apply HG. Qed.

Lemma parse_good fuel : forall ps, ps `suffix_of` s ->
  goodR (parseline fuel ps) /\ goodR (parsepipe fuel ps) /\ goodR (parseexec fuel ps) /\ goodR (parseblock fuel ps).
Proof.
  induction fuel as [|f IH]; intros ps Hs; [done|].
  split_and!; cbn [parseline parsepipe parseexec parseblock].
  - apply goodR_bind; [by apply IH|]. intros c ps1 H1 Hc1. apply goodR_bind; [by apply parsebacks_good|]. intros c2 ps2 H2 Hc2.
    unfold peek. pose proof (skip_on ps2 H2) as Hk. destruct (_ && _); [|by split].
    pose proof (gettoken_ptr (skip ps2) Hk) as H3. destruct (gettoken (skip ps2)) as [[[? ?] ?] ps3]. cbn [snd] in H3.
    apply goodR_bind; [by apply IH|]. intros c4 ps4 H4 Hc4. split; [done|]. destruct Hc2, Hc4. split; [by apply Forall_app|done].
  - apply goodR_bind; [by apply IH|]. intros c2 ps2 H2 Hc2.
    unfold peek. pose proof (skip_on ps2 H2) as Hk. destruct (_ && _); [|by split].
    pose proof (gettoken_ptr (skip ps2) Hk) as H3. destruct (gettoken (skip ps2)) as [[[? ?] ?] ps3]. cbn [snd] in H3.
    apply goodR_bind; [by apply IH|]. intros c4 ps4 H4 Hc4. split; [done|]. destruct Hc2, Hc4. split; [by apply Forall_app|done].
  - unfold peek. pose proof (skip_on ps Hs) as Hk. destruct (_ && _); [by apply IH|].
    pose proof (parseredirs_good (length (skip ps)) (skip ps) Hk) as H2. unfold mbind, R_bind.
    destruct (parseredirs (length (skip ps)) (skip ps)) as [|[rs ps2]]; [done|]. destruct H2 as [H2 Hrs].
    pose proof (parseargs_good (length ps2) 0 ps2 H2) as H3. destruct (parseargs (length ps2) 0 ps2) as [|[[args rs'] ps3]]; [done|].
    destruct H3 as (H3 & Ha & Hr'). split; [done|]. apply redircmds_good; [by split|by apply Forall_app].
  - unfold peek. pose proof (skip_on ps Hs) as Hk. destruct (negb _); [done|].
    pose proof (gettoken_ptr (skip ps) Hk) as H3. destruct (gettoken (skip ps)) as [[[? ?] ?] ps3]. cbn [snd] in H3.
    apply goodR_bind; [by apply IH|]. intros c4 ps4 H4 Hc4. pose proof (skip_on ps4 H4) as Hk4. destruct (negb _); [done|].
    pose proof (gettoken_ptr (skip ps4) Hk4) as H5. destruct (gettoken (skip ps4)) as [[[? ?] ?] ps5]. cbn [snd] in H5.
    pose proof (parseredirs_good (length ps5) ps5 H5) as H6. unfold mbind, R_bind.
    destruct (parseredirs (length ps5) ps5) as [|[rs ps6]]; [done|]. destruct H6 as [H6 Hrs]. split; [done|]. by apply redircmds_good.
Qed.

Lemma parsecmd_good c buf : parsecmd s = inr (c, buf) -> good_cmd c /\ buf = nulterminate (length s) c (s ++ [0]).
Proof.
  unfold parsecmd, mbind, R_bind. destruct (parse_good (4 * length s + 4) s ltac:(done)) as [H _].
  destruct (parseline (4 * length s + 4) s) as [|[c' ps]]; [done|]. destruct (peek ps []) as [? s'].
  case_bool_decide; [|done]. intros [= -> <-]. split; [apply H|done].
Qed.

(** The positions nulterminate overwrites. *)
Lemma nul_lookup n c : forall buf i,
  nulterminate n c buf !! i = (if bool_decide (i < length buf)%nat && existsb (fun t => (n - length (teq t) =? i)%nat) (toks c)
                               then Some 0 else buf !! i) /\ length (nulterminate n c buf) = length buf.
Proof.
  assert (forall l buf i, foldl (fun b t => nul_at n (teq t) b) buf l !! i =
    (if bool_decide (i < length buf)%nat && existsb (fun t => (n - length (teq t) =? i)%nat) l then Some 0 else buf !! i) /\
    length (foldl (fun b t => nul_at n (teq t) b) buf l) = length buf) as HL.
  { induction l as [|t l IH]; intros buf i; cbn [foldl existsb]; [by rewrite andb_false_r|].
    destruct (IH (nul_at n (teq t) buf) i) as [-> ->]. unfold nul_at. rewrite length_insert. split; [|done].
    destruct (Nat.eqb_spec (n - length (teq t)) i) as [<-|Hne]; cbn [orb].
    - rewrite andb_true_r. case_bool_decide as Hb; cbn [andb]; [destruct (existsb _ l); [done|by apply list_lookup_insert_eq]|].
      by rewrite !lookup_ge_None_2 by (rewrite ?length_insert; lia).
    - destruct (_ && existsb _ l); [done|]. by apply list_lookup_insert_ne. }
  induction c as [argv|c IH file m fd|l IHl r IHr|l IHl r IHr|c IH]; intros buf i; cbn [nulterminate toks].
  - apply HL.
  - unfold nul_at. destruct (IH buf i) as [E1 E2]. rewrite length_insert. split; [|done].
    rewrite existsb_app. cbn [existsb]. rewrite orb_false_r. destruct (Nat.eqb_spec (n - length (teq file)) i) as [<-|Hne].
    + rewrite orb_true_r, andb_true_r. case_bool_decide; [apply list_lookup_insert_eq; lia|]. rewrite !lookup_ge_None_2 by (rewrite ?length_insert; lia). done.
    + rewrite orb_false_r, list_lookup_insert_ne by done. exact E1.
  - destruct (IHl buf i) as [El1 El2]. destruct (IHr (nulterminate n l buf) i) as [Er1 Er2]. split; [|congruence].
    rewrite Er1, El1, El2, existsb_app. destruct (bool_decide _), (existsb _ (toks l)), (existsb _ (toks r)); done.
  - destruct (IHl buf i) as [El1 El2]. destruct (IHr (nulterminate n l buf) i) as [Er1 Er2]. split; [|congruence].
    rewrite Er1, El1, El2, existsb_app. destruct (bool_decide _), (existsb _ (toks l)), (existsb _ (toks r)); done.
  - apply IH.
Qed.
End good.

(** A NUL is never stored inside a word. *)
Lemma word_kept s t t' i : good_tok s t -> good_tok s t' ->
  (length s - length (tq t) <= i < length s - length (teq t))%nat -> (length s - length (teq t') <> i)%nat.
Proof.
  intros [[pre Hs] Ht [_ Hw] _] [[pre' Hs'] Ht' _ He'] Hi E. subst i.
  assert (length (tq t) = length (text t) + length (teq t))%nat as El by (rewrite Ht at 1; apply length_app).
  assert (length s = length pre + length (tq t))%nat as Els by (rewrite Hs; apply length_app).
  assert (length s = length pre' + length (tq t'))%nat as Els' by (rewrite Hs'; apply length_app).
  assert (length (tq t') = length (text t') + length (teq t'))%nat as El' by (rewrite Ht' at 1; apply length_app).
  set (i := (length s - length (teq t'))%nat) in *.
  destruct (lookup_lt_is_Some_2 (text t) (i - length pre)) as [c Hc]; [lia|].
  assert (s !! i = Some c) as Hsc.
  { rewrite Hs, lookup_app_r by lia. rewrite Ht. by rewrite lookup_app_l by (by eapply lookup_lt_Some). }
  rewrite Hs', lookup_app_r, Ht', lookup_app_r in Hsc by lia.
  replace (i - length pre' - length (text t'))%nat with 0%nat in Hsc by lia.
  destruct (teq t') as [|d l]; [done|]. injection Hsc as ->.
  eapply Forall_lookup_1 in Hw; [|exact Hc]. cbn in Hw. congruence.
Qed.

Lemma words_kept s c buf t : parsecmd s = inr (c, buf) -> t ∈ toks c ->
  let p := (length s - length (tq t))%nat in
  text t <> [] /\ Forall (fun x => is_word x = true) (text t) /\ text t = take (length (text t)) (drop p s) /\
  take (length (text t)) (drop p buf) = text t /\ buf !! (p + length (text t))%nat = Some 0.
Proof.
  intros Hc Ht p. destruct (parsecmd_good s c buf Hc) as [HG Hbuf]. destruct HG as [HG _]. rewrite Forall_forall in HG.
  pose proof (HG t Ht) as [[pre Hs] Htx [Hne Hw] He].
  assert (length (tq t) = length (text t) + length (teq t))%nat as El by (rewrite Htx at 1; apply length_app).
  assert (length s = length pre + length (tq t))%nat as Els by (rewrite Hs; apply length_app).
  assert (forall i, (i < length (text t))%nat -> buf !! (p + i)%nat = s !! (p + i)%nat) as Hkeep.
  { intros i Hi. rewrite Hbuf.  rewrite (proj1 (nul_lookup (length s) c _ _)).
    assert (existsb (fun t' => (length s - length (teq t') =? p + i)%nat) (toks c) = false) as ->.
    { apply not_true_iff_false. rewrite existsb_exists. intros (t' & Ht' & E%Nat.eqb_eq). rewrite <- list_elem_of_In in Ht'.
      apply (word_kept s t t' (p + i)); [by apply HG|by apply HG|unfold p; lia|done]. }
    rewrite andb_false_r. apply lookup_app_l. unfold p. lia. }
  assert (text t = take (length (text t)) (drop p s)) as E1.
  { unfold p. rewrite Hs at 2. rewrite drop_app_length' by lia. rewrite Htx at 1. by rewrite take_app_length. }
  split_and!; [done|done|done| |].
  - rewrite E1 at 2. apply list_eq. intros i. destruct (decide (i < length (text t))%nat).
    + rewrite !lookup_take_lt, !lookup_drop by lia. by apply Hkeep.
    + by rewrite !lookup_take_ge by lia.
  - rewrite Hbuf. rewrite (proj1 (nul_lookup (length s) c _ _)). rewrite bool_decide_eq_true_2 by (rewrite length_app; cbn; unfold p; lia).
    assert (existsb (fun t' => (length s - length (teq t') =? p + length (text t))%nat) (toks c) = true) as ->; [|done].
    apply existsb_exists. exists t. split; [by apply list_elem_of_In|]. apply Nat.eqb_eq. unfold p. lia.
Qed.

(** C36: the strings of a parsed command are the words of the line: after nulterminate every
    argument and file name, read as a C string from its start, is exactly the word that stood
    there, although the NULs are written into the line itself. *)
Theorem nulterminate_strings s c buf t : parsecmd s = inr (c, buf) -> t ∈ toks c ->
  let p := (length s - length (tq t))%nat in
  text t <> [] /\ Forall (fun x => is_word x = true) (text t) /\ text t = take (length (text t)) (drop p s) /\
  take (length (text t)) (drop p buf) = text t /\ buf !! (p + length (text t))%nat = Some 0.
Proof. intros Hc Ht. exact (words_kept s c buf t Hc Ht). Qed.

Definition line_ex : ptr := [99; 97; 116; 32; 60; 102; 59; 108; 115; 10].
Definition cmd_ex : cmd := match parsecmd line_ex with inr (c, _) => c | inl _ => EXEC [] end.
Lemma nulterminate_strings_witness :
  let t := default (Tok [] []) (toks cmd_ex !! 2%nat) in
  let buf := nulterminate (length line_ex) cmd_ex (line_ex ++ [0]) in
  let p := (length line_ex - length (tq t))%nat in
  text t <> [] /\ Forall (fun x => is_word x = true) (text t) /\ text t = take (length (text t)) (drop p line_ex) /\
  take (length (text t)) (drop p buf) = text t /\ buf !! (p + length (text t))%nat = Some 0.
Proof.
  apply (nulterminate_strings line_ex cmd_ex (nulterminate (length line_ex) cmd_ex (line_ex ++ [0])) (default (Tok [] []) (toks cmd_ex !! 2%nat))).
  - vm_compute. reflexivity.
  - vm_compute. do 2 right. left.
Defined.
