(* ===== verification/ShPrint.v ===== *)
(** * Parsing inverts printing *)
From S2P Require Import Prelude Sh ShThms ShStr.

(** ** Commands as the grammar of parseline, parsepipe, parseexec and parseblock has them *)

Inductive sredir := RIn (w : list Z) | ROut (w : list Z) | RApp (w : list Z).
Inductive sline :=
  | LEnd (p : spipe) (amps : nat)
  | LSeq (p : spipe) (amps : nat) (l : sline)
with spipe :=
  | PEnd (e : sexec)
  | PPipe (e : sexec) (p : spipe)
with sexec :=
  | SExec (rs : list sredir) (args : list (list Z * list sredir))
  | SBlock (l : sline) (rs : list sredir).

Scheme sline_mut := Induction for sline Sort Prop
with spipe_mut := Induction for spipe Sort Prop
with sexec_mut := Induction for sexec Sort Prop.
Combined Scheme grammar_ind from sline_mut, spipe_mut, sexec_mut.

(** Printed tokens, each followed by a blank. *)
Inductive ptok := TW (w : list Z) | TS (c : Z) | TApp.
Definition chars (t : ptok) : list Z := match t with TW w => w | TS c => [c] | TApp => [62; 62] end.
Fixpoint txt (ts : list ptok) : list Z := match ts with [] => [] | t :: ts' => chars t ++ 32 :: txt ts' end.

Definition redir_toks (r : sredir) : list ptok :=
  match r with RIn w => [TS 60; TW w] | ROut w => [TS 62; TW w] | RApp w => [TApp; TW w] end.
Definition redirs_toks (rs : list sredir) : list ptok := rs ≫= redir_toks.
Definition arg_toks (a : list Z * list sredir) : list ptok := TW (fst a) :: redirs_toks (snd a).
Fixpoint line_toks (l : sline) : list ptok :=
  match l with
  | LEnd p n => pipe_toks p ++ replicate n (TS 38)
  | LSeq p n l => pipe_toks p ++ replicate n (TS 38) ++ TS 59 :: line_toks l
  end
with pipe_toks (p : spipe) : list ptok :=
  match p with
  | PEnd e => exec_toks e
  | PPipe e p => exec_toks e ++ TS 124 :: pipe_toks p
  end
with exec_toks (e : sexec) : list ptok :=
  match e with
  | SExec rs args => redirs_toks rs ++ (args ≫= arg_toks)
  | SBlock l rs => TS 40 :: line_toks l ++ TS 41 :: redirs_toks rs
  end.
Definition print (l : sline) : list Z := txt (line_toks l).

(** The command a line stands for, with the strings themselves. *)
Inductive xcmd :=
  | XExec (argv : list (list Z))
  | XRedir (c : xcmd) (file : list Z) (mode fd : Z)
  | XPipe (left right : xcmd)
  | XList (left right : xcmd)
  | XBack (c : xcmd).
Fixpoint strs (c : cmd) : xcmd :=
  match c with
  | EXEC argv => XExec (text <$> argv)
  | REDIR c f m fd => XRedir (strs c) (text f) m fd
  | PIPE l r => XPipe (strs l) (strs r)
  | LIST l r => XList (strs l) (strs r)
  | BACK c => XBack (strs c)
  end.
Definition x_redir (c : xcmd) (r : sredir) : xcmd :=
  match r with
  | RIn w => XRedir c w O_RDONLY 0
  | ROut w => XRedir c w (Z.lor (Z.lor O_WRONLY O_CREATE) O_TRUNC) 1
  | RApp w => XRedir c w (Z.lor O_WRONLY O_CREATE) 1
  end.
Fixpoint x_line (l : sline) : xcmd :=
  match l with
  | LEnd p n => Nat.iter n XBack (x_pipe p)
  | LSeq p n l => XList (Nat.iter n XBack (x_pipe p)) (x_line l)
  end
with x_pipe (p : spipe) : xcmd :=
  match p with PEnd e => x_exec e | PPipe e p => XPipe (x_exec e) (x_pipe p) end
with x_exec (e : sexec) : xcmd :=
  match e with
  | SExec rs args => foldl x_redir (XExec (fst <$> args)) (rs ++ (args ≫= snd))
  | SBlock l rs => foldl x_redir (x_line l) rs
  end.

(** Words are not empty and contain neither blanks nor symbols nor NUL. *)
Definition wf_word (w : list Z) : Prop := w <> [] /\ Forall (fun c => is_word c = true /\ c <> 0) w.
Definition wf_redir (r : sredir) : Prop := match r with RIn w | ROut w | RApp w => wf_word w end.
Fixpoint wf_line (l : sline) : Prop :=
  match l with LEnd p _ => wf_pipe p | LSeq p _ l => wf_pipe p /\ wf_line l end
with wf_pipe (p : spipe) : Prop :=
  match p with PEnd e => wf_exec e | PPipe e p => wf_exec e /\ wf_pipe p end
with wf_exec (e : sexec) : Prop :=
  match e with
  | SExec rs args => Forall wf_redir rs /\ Forall (fun a => wf_word (fst a) /\ Forall wf_redir (snd a)) args /\
      Z.of_nat (length args) < MAXARGS
  | SBlock l rs => wf_line l /\ Forall wf_redir rs
  end.

(** ** The scanner on printed text *)

Definition wf_tok (t : ptok) : Prop :=
  match t with TW w => wf_word w | TS c => strchr symbols c = true | TApp => True end.

Lemma symbols_not_blank c : strchr symbols c = true -> strchr whitespace c = false /\ c <> 0.
Proof.
  unfold strchr, symbols. cbn [existsb]. rewrite !orb_true_iff, !Z.eqb_eq.
  intros H. split; [|lia]. apply not_true_iff_false. unfold whitespace. cbn [existsb]. rewrite !orb_true_iff, !Z.eqb_eq. lia.
Qed.
Lemma first_char t ts : wf_tok t -> exists c s, txt (t :: ts) = c :: s /\ strchr whitespace c = false /\ c <> 0.
Proof.
  destruct t as [w|c|]; cbn [wf_tok txt chars].
  - intros [Hne Hw]. destruct w as [|c w]; [done|]. apply Forall_cons in Hw as [[Hc H0] _]. exists c. eexists. split; [done|].
    unfold is_word in Hc. apply andb_prop in Hc as [Hc _]. split; [by apply negb_true_iff|done].
  - intros H. exists c. eexists. split; [done|]. by apply symbols_not_blank.
  - intros _. exists 62. eexists. split; [done|]. done.
Qed.
Lemma skip_txt ts : Forall wf_tok ts -> skip (txt ts) = txt ts /\ skip (32 :: txt ts) = txt ts.
Proof.
  intros H. assert (skip (txt ts) = txt ts) as E.
  { destruct ts as [|t ts]; [done|]. apply Forall_cons in H as [Ht _]. destruct (first_char t ts Ht) as (c & s & E & Hc & _).
    rewrite E. cbn [skip]. by rewrite Hc. }
  split; [done|]. cbn [skip]. exact E.
Qed.
Lemma word_end_txt w s : Forall (fun c => is_word c = true /\ c <> 0) w -> word_end (w ++ 32 :: s) = 32 :: s.
Proof.
  induction w as [|c w IH]; intros H; [done|]. apply Forall_cons in H as [[Hc _] Hw]. cbn [app word_end].
  unfold is_word in Hc. rewrite Hc. by apply IH.
Qed.

Definition code (t : ptok) : Z := match t with TW _ => 97 | TS c => c | TApp => 43 end.
Lemma gettoken_txt t ts : wf_tok t -> Forall wf_tok ts ->
  gettoken (txt (t :: ts)) = (code t, txt (t :: ts), 32 :: txt ts, txt ts).
Proof.
  intros Ht Hts. destruct (skip_txt (t :: ts)) as [Es _]; [by constructor|]. destruct (skip_txt ts Hts) as [_ Es2].
  unfold gettoken. rewrite Es. cbv zeta. destruct t as [w|c|]; cbn [wf_tok txt chars code] in *.
  - destruct Ht as [Hne Hw]. destruct w as [|c w]; [done|]. pose proof Hw as [[Hc H0] _]%Forall_cons.
    cbn [app deref tail]. destruct (Z.eqb_spec c 0); [done|].
    unfold is_word in Hc. apply andb_prop in Hc as [_ Hc]. apply negb_true_iff in Hc.
    assert (strchr [124; 40; 41; 59; 38; 60] c = false /\ c <> 62) as [-> Hc2].
    { unfold strchr, symbols in *. cbn [existsb] in *. rewrite !orb_false_iff, !Z.eqb_neq in *. split; [split_and!; try done; lia|lia]. }
    destruct (Z.eqb_spec c 62); [done|]. change (c :: w ++ 32 :: txt ts) with ((c :: w) ++ 32 :: txt ts).
    rewrite word_end_txt by done. by rewrite Es2.
  - destruct (symbols_not_blank c Ht) as [_ H0]. cbn [app deref tail]. destruct (Z.eqb_spec c 0); [done|].
    destruct (strchr [124; 40; 41; 59; 38; 60] c) eqn:E; [by rewrite Es2|].
    assert (c = 62) as ->.
    { unfold strchr, symbols in *. cbn [existsb] in *. rewrite !orb_true_iff, !Z.eqb_eq in Ht. rewrite !orb_false_iff, !Z.eqb_neq in E. lia. }
    cbn [deref]. change (62 =? 62) with true. change (32 =? 62) with false. cbv iota. by rewrite Es2.
  - cbn [app deref tail]. change (62 =? 0) with false. change (strchr _ 62) with false. change (62 =? 62) with true. cbv iota. by rewrite Es2.
Qed.
Lemma text_tok t ts : text (Tok (txt (t :: ts)) (32 :: txt ts)) = chars t.
Proof. cbn [txt]. apply text_app. Qed.

(** What peek sees of the next token. *)
Definition first (ts : list ptok) : Z := match ts with [] => 0 | t :: _ => deref (chars t) end.
Lemma peek_txt ts l : Forall wf_tok ts -> peek (txt ts) l = (negb (first ts =? 0) && strchr l (first ts), txt ts).
Proof.
  intros H. unfold peek. rewrite (proj1 (skip_txt ts H)). destruct ts as [|t ts]; [done|]. apply Forall_cons in H as [Ht _].
  destruct t as [w|c|]; cbn [txt chars first] in *; [|done|done]. destruct Ht as [Hne _]. by destruct w.
Qed.

(** ** The parser on printed text *)

Lemma first_word w ts : wf_word w -> is_word (first (TW w :: ts)) = true /\ first (TW w :: ts) <> 0.
Proof. intros [Hne Hw]. destruct w as [|c w]; [done|]. apply Forall_cons in Hw as [Hc _]. exact Hc. Qed.
Lemma word_not_sym l c : Forall (fun x => strchr symbols x = true) l -> is_word c = true -> strchr l c = false.
Proof.
  intros Hl Hc. unfold is_word in Hc. apply andb_prop in Hc as [_ Hc]. apply negb_true_iff in Hc.
  induction Hl as [|x l Hx Hl IH]; [done|]. unfold strchr in *. cbn [existsb]. destruct (Z.eqb_spec x c) as [->|]; [congruence|done].
Qed.
Lemma strchr_in l c : Forall (fun x => strchr symbols x = true) l -> strchr l c = true -> strchr symbols c = true.
Proof.
  intros Hl. unfold strchr at 1. rewrite existsb_exists. intros (x & Hx & ->%Z.eqb_eq). rewrite Forall_forall in Hl.
  apply Hl. by apply list_elem_of_In.
Qed.

(** What may follow a phrase: the end of the line or one of the characters [l]. *)
Definition follows (l : list Z) (ts : list ptok) : Prop := ts = [] \/ strchr l (first ts) = true.
Lemma follows_not l l' ts : follows l ts -> Forall (fun x => strchr l' x = false) l -> strchr l' 0 = false -> strchr l' (first ts) = false.
Proof.
  intros [->|H] Hl H0; [done|]. unfold strchr at 1 in H. apply existsb_exists in H as (x & Hx & E%Z.eqb_eq). rewrite <- E.
  rewrite Forall_forall in Hl. apply Hl. by apply list_elem_of_In.
Qed.
Lemma follows_mono l l' ts : Forall (fun x => strchr l' x = true) l -> follows l ts -> follows l' ts.
Proof.
  intros Hl [->|H]; [by left|right]. unfold strchr in H. apply existsb_exists in H as (x & Hx & E%Z.eqb_eq).
  rewrite <- E. rewrite Forall_forall in Hl. apply Hl. by apply list_elem_of_In.
Qed.

Definition same_redir (r' : redir) (r : sredir) : Prop :=
  forall c, XRedir c (text (r_file r')) (r_mode r') (r_fd r') = x_redir c r.
Lemma redircmds_strs rs' rs : Forall2 same_redir rs' rs -> forall c, strs (redircmds c rs') = foldl x_redir (strs c) rs.
Proof. induction 1 as [|r' r rs' rs Hr _ IH]; intros c; [done|]. cbn. rewrite IH. cbn. by rewrite Hr. Qed.

Lemma redir_toks_wf rs : Forall wf_redir rs -> Forall wf_tok (redirs_toks rs).
Proof. induction 1 as [|r rs Hr _ IH]; [constructor|]. destruct r; (apply Forall_cons; split; [done|apply Forall_cons; split; [exact Hr|exact IH]]). Qed.
Lemma length_txt_app ts1 ts2 : length (txt (ts1 ++ ts2)) = (length (txt ts1) + length (txt ts2))%nat.
Proof. induction ts1 as [|t ts1 IH]; cbn [app txt]; [done|]. rewrite !length_app. cbn [length]. lia. Qed.
Lemma length_redirs rs : (length rs <= length (txt (redirs_toks rs)))%nat.
Proof.
  induction rs as [|r rs IH]; [done|]. change (redirs_toks (r :: rs)) with (redir_toks r ++ redirs_toks rs). rewrite length_txt_app.
  assert (1 <= length (txt (redir_toks r)))%nat by (destruct r; cbn; lia). cbn [length]. lia.
Qed.

(** Printed tokens are well formed. *)
Ltac wf_toks := repeat first [done | assumption | apply Forall_cons; split | apply Forall_app; split | apply Forall_nil_2].

Lemma parseredirs_txt rs : forall fuel ts, Forall wf_redir rs -> Forall wf_tok ts -> strchr [60; 62] (first ts) = false ->
  (length rs <= fuel)%nat ->
  exists rs', parseredirs fuel (txt (redirs_toks rs ++ ts)) = inr (rs', txt ts) /\ Forall2 same_redir rs' rs.
Proof.
  induction rs as [|r rs IH]; intros fuel ts Hrs Hts Hf Hl.
  - exists []. cbn [redirs_toks mbind list_bind app]. destruct fuel; cbn [parseredirs]; rewrite peek_txt, Hf, andb_false_r by done; done.
  - apply Forall_cons in Hrs as [Hr Hrs]. destruct fuel as [|f]; [cbn in Hl; lia|].
    destruct (IH f ts Hrs Hts Hf) as (rs' & E & HF); [cbn in Hl; lia|].
    assert (Forall wf_tok (redirs_toks rs ++ ts)) as Hw by (apply Forall_app; split; [by apply redir_toks_wf|done]).
    destruct r as [w|w|w]; cbn [redirs_toks mbind list_bind redir_toks] in *; rewrite <- app_assoc; cbn [app]; fold (redirs_toks rs);
      cbn [parseredirs]; (rewrite peek_txt by wf_toks); cbn [first chars deref]; cbn [negb andb Z.eqb strchr existsb];
      rewrite gettoken_txt by wf_toks; rewrite gettoken_txt by wf_toks; cbn [code];
      unfold redirs_toks in *; cbn [negb Z.eqb Pos.eqb]; unfold mbind at 1, R_bind; rewrite E;
      (eexists; split; [reflexivity|]); constructor; try done; intros c; cbn [r_file r_mode r_fd x_redir Z.eqb Pos.eqb]; f_equal; apply (text_tok (TW w)).
Qed.

Definition wf_args (args : list (list Z * list sredir)) : Prop :=
  Forall (fun a => wf_word (fst a) /\ Forall wf_redir (snd a)) args.
Lemma args_wf args : wf_args args -> Forall wf_tok (args ≫= arg_toks).
Proof.
  induction 1 as [|a args [Ha Hr] _ IH]; [constructor|]. cbn. apply Forall_cons; split; [exact Ha|].
  apply Forall_app; split; [by apply redir_toks_wf|exact IH].
Qed.
(** The first token of further arguments is a word. *)
Lemma first_args l args ts : Forall (fun x => strchr symbols x = true) l -> wf_args args -> strchr l (first ts) = false ->
  strchr l (first ((args ≫= arg_toks) ++ ts)) = false.
Proof.
  intros Hl Ha Hts. destruct args as [|[w rs] args]; [done|]. apply Forall_cons in Ha as [[Hw _] _].
  apply (word_not_sym l); [done|]. by apply (first_word w []).
Qed.

Lemma parseargs_txt args : forall fuel argc ts, wf_args args -> Forall wf_tok ts -> follows [41; 38; 59; 124] ts ->
  0 <= argc -> argc + Z.of_nat (length args) < MAXARGS -> (length args <= fuel)%nat ->
  exists tk rs', parseargs fuel argc (txt ((args ≫= arg_toks) ++ ts)) = inr (tk, rs', txt ts) /\
    text <$> tk = fst <$> args /\ Forall2 same_redir rs' (args ≫= snd).
Proof.
  induction args as [|[w rs] args IH]; intros fuel argc ts Ha Hts Hf H0 Hn Hl.
  - cbn [mbind list_bind app]. exists [], []. destruct Hf as [->|Hf]; [by destruct fuel|].
    destruct fuel; cbn [parseargs]; rewrite peek_txt by done;
      (assert (negb (first ts =? 0) && strchr [124; 41; 38; 59] (first ts) = true) as ->; [|done]);
      unfold strchr in *; cbn [existsb] in *; rewrite !orb_true_iff, !Z.eqb_eq in Hf; apply andb_true_intro; rewrite !orb_true_iff, !Z.eqb_eq;
      (split; [apply negb_true_iff, Z.eqb_neq; lia|lia]).
  - pose proof Ha as [[Hw Hr] Ha']%Forall_cons. cbn [fst snd] in *. destruct fuel as [|f]; [cbn in Hl; lia|].
    destruct (IH f (argc + 1) ts Ha' Hts Hf) as (tk & rs' & E & E1 & E2); [lia|cbn [length] in Hn; lia|cbn [length] in Hl; lia|].
    change (((w, rs) :: args) ≫= arg_toks) with (TW w :: redirs_toks rs ++ (args ≫= arg_toks)). cbn [app]. rewrite <- app_assoc.
    assert (Forall wf_tok ((args ≫= arg_toks) ++ ts)) as Hw1 by (apply Forall_app; split; [by apply args_wf|done]).
    assert (Forall wf_tok (redirs_toks rs ++ (args ≫= arg_toks) ++ ts)) as Hw2 by (apply Forall_app; split; [by apply redir_toks_wf|done]).
    cbn [parseargs]. rewrite peek_txt by wf_toks. destruct (first_word w (redirs_toks rs ++ (args ≫= arg_toks) ++ ts) Hw) as [Hw3 _].
    rewrite (word_not_sym [124; 41; 38; 59] _ ltac:(by repeat constructor) Hw3), andb_false_r. rewrite gettoken_txt by wf_toks. cbn [code].
    change (97 =? 0) with false. change (negb (97 =? 97)) with false. cbv iota.
    destruct (Z.leb_spec MAXARGS (argc + 1)); [cbn [length] in Hn; lia|].
    destruct (parseredirs_txt rs (S (length (txt (redirs_toks rs ++ (args ≫= arg_toks) ++ ts)))) ((args ≫= arg_toks) ++ ts) Hr Hw1) as (rs1 & Er & Hrs1).
    { apply first_args; [by repeat constructor|done|]. eapply follows_not; [exact Hf|by repeat constructor|done]. }
    { rewrite length_txt_app. pose proof (length_redirs rs). lia. }
    unfold mbind at 1, R_bind. rewrite Er. cbn [length app]. unfold mbind at 1, R_bind. rewrite E. do 2 eexists. split; [reflexivity|]. split.
    + cbn [fmap list_fmap fst]. f_equal; [apply (text_tok (TW w))|exact E1].
    + change (((w, rs) :: args) ≫= snd) with (rs ++ (args ≫= snd)). by apply Forall2_app.
Qed.

Lemma parsebacks_txt n : forall fuel c ts, Forall wf_tok ts -> first ts <> 38 -> (n <= fuel)%nat ->
  parsebacks fuel c (txt (replicate n (TS 38) ++ ts)) = inr (Nat.iter n BACK c, txt ts).
Proof.
  induction n as [|n IH]; intros fuel c ts Hts Hf Hl.
  - cbn [replicate app]. destruct fuel; cbn [parsebacks]; rewrite peek_txt by done;
      (assert (strchr [38] (first ts) = false) as ->; [unfold strchr; cbn [existsb]; rewrite orb_false_r; apply Z.eqb_neq; lia|]);
      by rewrite andb_false_r.
  - destruct fuel as [|f]; [lia|]. cbn [replicate app parsebacks].
    assert (Forall wf_tok (replicate n (TS 38) ++ ts)) as Hw by (apply Forall_app; split; [by apply Forall_replicate|done]).
    rewrite peek_txt by wf_toks. cbn [first chars deref]. change (negb (negb (38 =? 0) && strchr [38] 38)) with false. cbv iota.
    rewrite gettoken_txt by wf_toks. rewrite IH by first [done|lia]. do 2 f_equal. apply Nat.iter_swap.
Qed.
Lemma strs_backs n c : strs (Nat.iter n BACK c) = Nat.iter n XBack (strs c).
Proof. induction n as [|n IH]; [done|]. rewrite !Nat.iter_succ. cbn [strs]. by rewrite IH. Qed.

(** All tokens printed are well formed. *)
Lemma toks_wf : (forall l, wf_line l -> Forall wf_tok (line_toks l)) /\ (forall p, wf_pipe p -> Forall wf_tok (pipe_toks p)) /\
  (forall e, wf_exec e -> Forall wf_tok (exec_toks e)).
Proof.
  apply grammar_ind; cbn [wf_line wf_pipe wf_exec line_toks pipe_toks exec_toks].
  - intros p IH n H. apply Forall_app; split; [by apply IH|by apply Forall_replicate].
  - intros p IH n l IHl [H1 H2]. apply Forall_app; split; [by apply IH|]. apply Forall_app; split; [by apply Forall_replicate|].
    apply Forall_cons; split; [done|by apply IHl].
  - auto.
  - intros e IHe p IHp [H1 H2]. apply Forall_app; split; [by apply IHe|]. apply Forall_cons; split; [done|by apply IHp].
  - intros rs args (H1 & H2 & _). apply Forall_app; split; [by apply redir_toks_wf|by apply args_wf].
  - intros l IHl rs [H1 H2]. apply Forall_cons; split; [done|]. apply Forall_app; split; [by apply IHl|].
    apply Forall_cons; split; [done|by apply redir_toks_wf].
Qed.

Lemma parse_txt :
  (forall l ts fuel, wf_line l -> Forall wf_tok ts -> follows [41] ts -> (4 * length (txt (line_toks l ++ ts)) + 4 <= fuel)%nat ->
     exists c, parseline fuel (txt (line_toks l ++ ts)) = inr (c, txt ts) /\ strs c = x_line l) /\
  (forall p ts fuel, wf_pipe p -> Forall wf_tok ts -> follows [41; 38; 59] ts -> (4 * length (txt (pipe_toks p ++ ts)) + 3 <= fuel)%nat ->
     exists c, parsepipe fuel (txt (pipe_toks p ++ ts)) = inr (c, txt ts) /\ strs c = x_pipe p) /\
  (forall e ts fuel, wf_exec e -> Forall wf_tok ts -> follows [41; 38; 59; 124] ts -> (4 * length (txt (exec_toks e ++ ts)) + 2 <= fuel)%nat ->
     exists c, parseexec fuel (txt (exec_toks e ++ ts)) = inr (c, txt ts) /\ strs c = x_exec e).
Proof.
  destruct toks_wf as (WL & WP & WE).
  apply grammar_ind; cbn [wf_line wf_pipe wf_exec line_toks pipe_toks exec_toks x_line x_pipe x_exec].
  - intros p IH n ts fuel Hp Hts Hf Hl. destruct fuel as [|f]; [lia|]. rewrite <- app_assoc in *.
    assert (Forall wf_tok (replicate n (TS 38) ++ ts)) as Hw by (apply Forall_app; split; [by apply Forall_replicate|done]).
    destruct (IH (replicate n (TS 38) ++ ts) f Hp Hw) as (c & E & Ec); [|lia|].
    { destruct n; [by eapply follows_mono; [|exact Hf]; repeat constructor|by right]. }
    cbn [parseline]. unfold mbind at 1, R_bind. rewrite E. unfold mbind at 1, R_bind.
    rewrite parsebacks_txt; [|done| |].
    2: { intros E38. destruct Hf as [->|Hf]; [done|]. rewrite E38 in Hf. done. }
    2: { rewrite length_txt_app. assert (n <= length (txt (replicate n (TS 38))))%nat; [|lia]. clear. induction n; cbn; lia. }
    rewrite peek_txt by done. rewrite (follows_not [41] [59] ts Hf) by (by repeat constructor). rewrite andb_false_r.
    eexists. split; [reflexivity|]. by rewrite strs_backs, Ec.
  - intros p IH n l IHl ts fuel [Hp Hll] Hts Hf Hl. destruct fuel as [|f]; [lia|]. rewrite <- !app_assoc in *. cbn [app] in *.
    assert (Forall wf_tok (TS 59 :: line_toks l ++ ts)) as Hw1 by (apply Forall_cons; split; [done|]; apply Forall_app; split; [by apply WL|done]).
    assert (Forall wf_tok (replicate n (TS 38) ++ TS 59 :: line_toks l ++ ts)) as Hw by (apply Forall_app; split; [by apply Forall_replicate|done]).
    destruct (IH (replicate n (TS 38) ++ TS 59 :: line_toks l ++ ts) f Hp Hw) as (c & E & Ec); [|lia|].
    { right. by destruct n. }
    destruct (IHl ts f Hll Hts Hf) as (r & Er & Exr).
    { rewrite !length_txt_app in *. cbn [txt chars length app] in Hl. rewrite !length_txt_app in Hl. lia. }
    cbn [parseline]. unfold mbind at 1, R_bind. rewrite E. unfold mbind at 1, R_bind.
    rewrite parsebacks_txt; [|done|done|].
    2: { rewrite length_txt_app. assert (n <= length (txt (replicate n (TS 38))))%nat; [|lia]. clear. induction n; cbn; lia. }
    rewrite peek_txt by done. cbn [first chars deref]. change (negb (59 =? 0) && strchr [59] 59) with true. cbv iota.
    rewrite gettoken_txt by (first [done|by apply Forall_cons in Hw1 as [_ ?]]). unfold mbind at 1, R_bind. rewrite Er.
    eexists. split; [reflexivity|]. cbn [strs]. by rewrite strs_backs, Ec, Exr.
  - intros e IH ts fuel He Hts Hf Hl. destruct fuel as [|f]; [lia|].
    destruct (IH ts f He Hts) as (c & E & Ec); [by eapply follows_mono; [|exact Hf]; repeat constructor|lia|].
    cbn [parsepipe]. unfold mbind at 1, R_bind. rewrite E. rewrite peek_txt by done.
    rewrite (follows_not [41; 38; 59] [124] ts Hf) by (by repeat constructor). rewrite andb_false_r. by exists c.
  - intros e IHe p IHp ts fuel [He Hp] Hts Hf Hl. destruct fuel as [|f]; [lia|]. rewrite <- !app_assoc in *. cbn [app] in *.
    assert (Forall wf_tok (pipe_toks p ++ ts)) as Hw0 by (apply Forall_app; split; [by apply WP|done]).
    assert (Forall wf_tok (TS 124 :: pipe_toks p ++ ts)) as Hw1 by (apply Forall_cons; by split).
    destruct (IHe (TS 124 :: pipe_toks p ++ ts) f He Hw1) as (c & E & Ec); [by right|lia|].
    destruct (IHp ts f Hp Hts Hf) as (r & Er & Exr).
    { rewrite !length_txt_app in *. cbn [txt chars length app] in Hl. rewrite !length_txt_app in Hl. lia. }
    cbn [parsepipe]. unfold mbind at 1, R_bind. rewrite E. rewrite peek_txt by done. cbn [first chars deref].
    change (negb (124 =? 0) && strchr [124] 124) with true. cbv iota. rewrite gettoken_txt by done. unfold mbind at 1, R_bind. rewrite Er.
    eexists. split; [reflexivity|]. cbn [strs]. by rewrite Ec, Exr.
  - intros rs args ts fuel (Hr & Ha & Hn) Hts Hf Hl. destruct fuel as [|f]; [lia|]. rewrite <- !app_assoc in *.
    assert (Forall wf_tok ((args ≫= arg_toks) ++ ts)) as Hw1 by (apply Forall_app; split; [by apply args_wf|done]).
    assert (Forall wf_tok (redirs_toks rs ++ (args ≫= arg_toks) ++ ts)) as Hw2 by (apply Forall_app; split; [by apply redir_toks_wf|done]).
    cbn [parseexec]. rewrite peek_txt by done.
    assert (strchr [40] (first (redirs_toks rs ++ (args ≫= arg_toks) ++ ts)) = false) as ->.
    { destruct rs as [|[] rs]; [|done..]. cbn [redirs_toks mbind list_bind app]. apply first_args; [by repeat constructor|done|].
      eapply follows_not; [exact Hf|by repeat constructor|done]. }
    rewrite andb_false_r.
    destruct (parseredirs_txt rs (length (txt (redirs_toks rs ++ (args ≫= arg_toks) ++ ts))) ((args ≫= arg_toks) ++ ts) Hr Hw1) as (rs1 & Er & Hrs1).
    { apply first_args; [by repeat constructor|done|]. eapply follows_not; [exact Hf|by repeat constructor|done]. }
    { rewrite length_txt_app. pose proof (length_redirs rs). lia. }
    unfold mbind at 1, R_bind. rewrite Er.
    destruct (parseargs_txt args (length (txt ((args ≫= arg_toks) ++ ts))) 0 ts Ha Hts Hf ltac:(lia) ltac:(lia)) as (tk & rs' & Ea & E1 & E2).
    { rewrite length_txt_app. assert (length args <= length (txt (args ≫= arg_toks)))%nat; [|lia]. clear. induction args as [|[w r] args IH]; [cbn; lia|].
      change (((w, r) :: args) ≫= arg_toks) with (TW w :: redirs_toks r ++ (args ≫= arg_toks)). cbn [txt chars]. rewrite length_app. cbn [length].
      rewrite length_txt_app. cbn [length]. lia. }
    unfold mbind at 1, R_bind. rewrite Ea. eexists. split; [reflexivity|].
    rewrite (redircmds_strs _ (rs ++ (args ≫= snd))) by (by apply Forall2_app). cbn [strs]. by rewrite E1.
  - intros l IHl rs ts fuel [Hll Hr] Hts Hf Hl. destruct fuel as [|[|f]]; [lia|lia|]. cbn [app] in *. rewrite <- !app_assoc in *. cbn [app] in *.
    assert (Forall wf_tok (redirs_toks rs ++ ts)) as Hw0 by (apply Forall_app; split; [by apply redir_toks_wf|done]).
    assert (Forall wf_tok (TS 41 :: redirs_toks rs ++ ts)) as Hw1 by (apply Forall_cons; by split).
    assert (Forall wf_tok (line_toks l ++ TS 41 :: redirs_toks rs ++ ts)) as Hw2 by (apply Forall_app; split; [by apply WL|done]).
    assert (Forall wf_tok (TS 40 :: line_toks l ++ TS 41 :: redirs_toks rs ++ ts)) as Hw3 by (apply Forall_cons; by split).
    destruct (IHl (TS 41 :: redirs_toks rs ++ ts) f Hll Hw1) as (c & E & Ec); [by right|cbn [txt chars length app] in Hl; lia|].
    cbn [parseexec]. rewrite peek_txt by done. cbn [first chars deref]. change (negb (40 =? 0) && strchr [40] 40) with true. cbv iota.
    cbn [parseblock]. rewrite peek_txt by done. cbn [first chars deref]. change (negb (negb (40 =? 0) && strchr [40] 40)) with false. cbv iota.
    rewrite gettoken_txt by done. unfold mbind at 1, R_bind. rewrite E. rewrite peek_txt by done. cbn [first chars deref].
    change (negb (negb (41 =? 0) && strchr [41] 41)) with false. cbv iota. rewrite gettoken_txt by done.
    destruct (parseredirs_txt rs (length (txt (redirs_toks rs ++ ts))) ts Hr Hts) as (rs1 & Er & Hrs1).
    { eapply follows_not; [exact Hf|by repeat constructor|done]. }
    { rewrite length_txt_app. pose proof (length_redirs rs). lia. }
    unfold mbind at 1, R_bind. rewrite Er. eexists. split; [reflexivity|]. rewrite (redircmds_strs _ rs) by done. by rewrite Ec.
Qed.

(** C37: parsing inverts printing: for every command of the shell's grammar - sequences,
    background jobs, pipelines, parenthesised blocks, arguments and redirections in any order -
    the parser applied to its printed form returns that command, with the same strings. *)
Theorem parse_print l : wf_line l -> exists c buf, parsecmd (print l) = inr (c, buf) /\ strs c = x_line l.
Proof.
  intros Hl. destruct parse_txt as (HP & _). unfold parsecmd, print.
  destruct (HP l [] (4 * length (txt (line_toks l)) + 4)%nat Hl) as (c & E & Ec); [constructor|by left|rewrite app_nil_r; lia|].
  rewrite app_nil_r in E. unfold mbind, R_bind. rewrite E. exists c. eexists. done.
Qed.

(** ( ls ; wc x ) >> out & *)
Definition line_ex2 : sline :=
  LEnd (PEnd (SBlock (LSeq (PEnd (SExec [] [([108; 115], [])])) 0 (LEnd (PEnd (SExec [] [([119; 99], []); ([120], [])])) 0)) [RApp [111; 117; 116]])) 1.
Lemma parse_print_witness : exists c buf, parsecmd (print line_ex2) = inr (c, buf) /\ strs c = x_line line_ex2.
Proof. apply (parse_print line_ex2). cbn. repeat (split || constructor); done. Defined.
