(* ===== verification/ShRun.v ===== *)
(** * The shell's interpreter: runcmd, getcmd and main (user/sh.c), gets (user/ulib.c)

    [runcmd] maps a command to what the process that runs it does: a tree of the process
    system calls fork, wait, exec and exit in which the file descriptors have been carried
    through.  The theorem is about the descriptors of every program started: they are given
    by a denotational reading of the command, and no end of a pipe leaks. *)
From S2P Require Import Prelude Sh ShThms ShStr ShPrint.

(** What a descriptor refers to: one the shell was started with, an open file, or an end of
    the pipe made for a PIPE command; pipes are told apart by the place of that command. *)
Inductive obj := Inherited (n : Z) | Opened (file : list Z) (mode : Z) | PipeR (path : list bool) | PipeW (path : list bool).

(** proc->ofile, and the system calls on it: fdalloc takes the lowest free slot. *)
Definition NOFILE : nat := 16.
Definition fds := list (option obj).
Fixpoint fdalloc (o : obj) (t : fds) : option (nat * fds) :=
  match t with
  | [] => None
  | None :: t' => Some (O, Some o :: t')
  | x :: t' => '(fd, t') ← fdalloc o t'; Some (S fd, x :: t')
  end.
Definition fd_close (fd : Z) (t : fds) : fds := if fd <? 0 then t else <[Z.to_nat fd := None]> t.
Definition fd_dup (fd : nat) (t : fds) : fds :=
  match t !! fd with
  | Some (Some o) => match fdalloc o t with Some (_, t') => t' | None => t end
  | _ => t
  end.
Definition fd_pipe (path : list bool) (t : fds) : option (nat * nat * fds) :=
  '(p0, t1) ← fdalloc (PipeR path) t;
  '(p1, t2) ← fdalloc (PipeW path) t1;
  Some (p0, p1, t2).

(** The behaviour of a process. *)
Inductive run :=
  | Exit (st : Z)
  | Exec (argv : list (list Z)) (t : fds) (fails : run)
  | Fork (child parent fails : run)
  | Wait (k : run).

(** A C string read from the line buffer. *)
Fixpoint cstr (b : list Z) : list Z := match b with [] => [] | c :: b' => if c =? 0 then [] else c :: cstr b' end.
Definition str (n : nat) (buf : list Z) (t : token) : list Z := cstr (drop (n - length (tq t)) buf).

Section Run.
(** Whether opening a file with a mode succeeds. *)
Context (open_ok : list Z -> Z -> bool).

Definition fd_open (f : list Z) (mode : Z) (t : fds) : option fds :=
  if open_ok f mode then snd <$> fdalloc (Opened f mode) t else None.

(** fork1: panic, which exits with status 1, when there is no process. *)
Definition fork1 (child parent : run) : run := Fork child parent (Exit 1).

Fixpoint runcmd (n : nat) (buf : list Z) (path : list bool) (c : cmd) (t : fds) : run :=
  match c with
  | EXEC argv =>
      match argv with
      | [] => Exit 1
      | _ => Exec (str n buf <$> argv) t (Exit 0)
      end
  | REDIR c file mode fd =>
      match fd_open (str n buf file) mode (fd_close fd t) with
      | None => Exit 1
      | Some t => runcmd n buf path c t
      end
  | LIST l r => fork1 (runcmd n buf (path ++ [false]) l t) (Wait (runcmd n buf (path ++ [true]) r t))
  | PIPE l r =>
      match fd_pipe path t with
      | None => Exit 1
      | Some (p0, p1, t) =>
          let closeboth t := fd_close (Z.of_nat p1) (fd_close (Z.of_nat p0) t) in
          fork1 (runcmd n buf (path ++ [false]) l (closeboth (fd_dup p1 (fd_close 1 t))))
            (fork1 (runcmd n buf (path ++ [true]) r (closeboth (fd_dup p0 (fd_close 0 t))))
              (Wait (Wait (Exit 0))))
      end
  | BACK c => fork1 (runcmd n buf path c t) (Exit 0)
  end.

(** ** What a command means: standard input, output and error of every program *)

Record io := IO { io_in : obj; io_out : obj; io_err : obj }.
Definition table (s : io) : fds := Some (io_in s) :: Some (io_out s) :: Some (io_err s) :: replicate (NOFILE - 3) None.
Definition set_fd (fd : Z) (o : obj) (s : io) : io :=
  if fd =? 0 then IO o (io_out s) (io_err s) else IO (io_in s) o (io_err s).

Fixpoint meaning (path : list bool) (c : xcmd) (s : io) : run :=
  match c with
  | XExec argv => if bool_decide (argv = []) then Exit 1 else Exec argv (table s) (Exit 0)
  | XRedir c f mode fd => if open_ok f mode then meaning path c (set_fd fd (Opened f mode) s) else Exit 1
  | XPipe l r =>
      fork1 (meaning (path ++ [false]) l (set_fd 1 (PipeW path) s))
        (fork1 (meaning (path ++ [true]) r (set_fd 0 (PipeR path) s)) (Wait (Wait (Exit 0))))
  | XList l r => fork1 (meaning (path ++ [false]) l s) (Wait (meaning (path ++ [true]) r s))
  | XBack c => fork1 (meaning path c s) (Exit 0)
  end.

Lemma runcmd_meaning n buf c : forall path s, std_fds c -> (forall t, t ∈ toks c -> str n buf t = text t) ->
  runcmd n buf path c (table s) = meaning path (strs c) s.
Proof.
  induction c as [argv|c IH f m fd|l IHl r IHr|l IHl r IHr|c IH]; intros path s Hs Ht; cbn [std_fds toks] in *;
    cbn [runcmd strs meaning].
  - assert (str n buf <$> argv = text <$> argv) as E by (apply list_fmap_ext; intros i t Hi; apply Ht; by eapply list_elem_of_lookup_2).
    destruct argv as [|a argv]; [done|]. by rewrite E.
  - rewrite Ht by (apply elem_of_app; right; by left). destruct Hs as [Hfd Hs]. unfold fd_open.
    destruct (open_ok (text f) m); [|done].
    assert (fdalloc (Opened (text f) m) (fd_close fd (table s)) = Some (Z.to_nat fd, table (set_fd fd (Opened (text f) m) s))) as ->
      by (destruct Hfd as [-> | ->]; reflexivity).
    cbn [fmap option_fmap option_map snd]. apply IH; [done|]. intros t H. apply Ht, elem_of_app. by left.
  - destruct Hs as [Hl Hr]. unfold fd_pipe. destruct s as [i o e]. cbn [table set_fd].
    f_equal; [|f_equal].
    + apply (IHl (path ++ [false]) (IO i (PipeW path) e)); [done|]. intros t H. apply Ht, elem_of_app. by left.
    + apply (IHr (path ++ [true]) (IO (PipeR path) o e)); [done|]. intros t H. apply Ht, elem_of_app. by right.
  - destruct Hs as [Hl Hr]. f_equal; [|f_equal].
    + apply IHl; [done|]. intros t H. apply Ht, elem_of_app. by left.
    + apply IHr; [done|]. intros t H. apply Ht, elem_of_app. by right.
  - f_equal. by apply IH.
Qed.
End Run.

Lemma cstr_word w b : Forall (fun x => x <> 0) w -> b !! length w = Some 0 -> take (length w) b = w -> cstr b = w.
Proof.
  revert b. induction w as [|c w IH]; intros b Hw H0 Ht; destruct b as [|x b]; try done; cbn in *.
  - by injection H0 as ->.
  - apply Forall_cons in Hw as [Hc Hw]. injection Ht as -> Ht. destruct (Z.eqb_spec c 0); [done|]. f_equal. by apply IH.
Qed.

Lemma parsed_strings s c buf t : (0 ∉ s) -> parsecmd s = inr (c, buf) -> t ∈ toks c -> str (length s) buf t = text t.
Proof.
  intros H0 Hc Ht. destruct (words_kept s c buf t Hc Ht) as (_ & _ & E1 & E2 & E3).
  apply cstr_word; [|by rewrite lookup_drop|done]. apply Forall_forall. intros x Hx ->. apply H0. rewrite E1 in Hx.
  apply list_elem_of_lookup in Hx as [i Hi]. apply lookup_take_Some in Hi as [Hi _]. rewrite lookup_drop in Hi. by eapply list_elem_of_lookup_2.
Qed.

(** C38: running any line the parser accepts does what the line means: with only the three
    standard descriptors open, every program of the line is started with the words of its
    arguments, with exactly the descriptors its pipes and redirections prescribe and no other
    (so no end of a pipe leaks and readers see the end of file), in the order of fork and wait
    the operators prescribe. *)
Theorem runcmd_correct open_ok s c buf i : (0 ∉ s) -> parsecmd s = inr (c, buf) ->
  runcmd open_ok (length s) buf [] c (table i) = meaning open_ok [] (strs c) i.
Proof.
  intros H0 Hc. apply runcmd_meaning; [|intros t; by apply parsed_strings].
  by destruct (parsecmd_good s c buf Hc) as [[_ Hd] _].
Qed.

(** cat <f | wc > g *)
Definition line_ex3 : ptr := [99; 97; 116; 32; 60; 102; 32; 124; 32; 119; 99; 32; 62; 32; 103; 10].
Definition io_ex : io := IO (Inherited 0) (Inherited 1) (Inherited 2).
Lemma runcmd_correct_witness :
  exists c buf, parsecmd line_ex3 = inr (c, buf) /\
    runcmd (fun _ _ => true) (length line_ex3) buf [] c (table io_ex) =
    fork1 (Exec [[99; 97; 116]] (table (IO (Opened [102] 0) (PipeW []) (Inherited 2))) (Exit 0))
      (fork1 (Exec [[119; 99]] (table (IO (PipeR []) (Opened [103] 1537) (Inherited 2))) (Exit 0)) (Wait (Wait (Exit 0)))).
Proof.
  eexists. eexists. split; [vm_compute; reflexivity|].
  refine (eq_trans (runcmd_correct (fun _ _ => true) line_ex3 _ _ io_ex _ _) _);
    [vm_compute; intros H; repeat (apply elem_of_cons in H as [H|H]; [discriminate|]); by apply not_elem_of_nil in H
    |vm_compute; reflexivity|vm_compute; reflexivity].
Defined.

(** ** The main loop *)

(** gets: [k] is the room left; the bytes stored and the input not yet read. *)
Fixpoint gets_loop (k : nat) (inp : list Z) : list Z * list Z :=
  match k, inp with
  | S k, c :: inp =>
      if (c =? 10) || (c =? 13) then ([c], inp) else let '(b, rest) := gets_loop k inp in (c :: b, rest)
  | _, _ => ([], inp)
  end.
Definition gets (max : nat) (inp : list Z) : list Z * list Z := gets_loop (max - 1) inp.
(** getcmd: the C string in the buffer, or the end of file. *)
Definition getcmd (nbuf : nat) (inp : list Z) : option (list Z * list Z) :=
  let '(b, rest) := gets nbuf inp in if deref b =? 0 then None else Some (cstr b, rest).

(** What main does with a line: chdir in the shell itself, anything else in a child. *)
Inductive action := Chdir (path : list Z) | Run (c : R (cmd * list Z)).
Definition dispatch (buf : list Z) : action :=
  if bool_decide (take 3 buf = [99; 100; 32]) then Chdir (drop 3 (take (length buf - 1) buf)) else Run (parsecmd buf).
Definition SIZEOF_BUF : nat := 100.
Fixpoint main_loop (fuel : nat) (inp : list Z) : option (list action) :=
  match getcmd SIZEOF_BUF inp with
  | None => Some []
  | Some (buf, rest) =>
    match fuel with
    | O => None
    | S f => acts ← main_loop f rest; Some (dispatch buf :: acts)
    end
  end.
Definition main (inp : list Z) : option (list action) := main_loop (length inp) inp.

Definition wf_input (l : list Z) : Prop := Forall (fun c => c <> 10 /\ c <> 13 /\ c <> 0) l /\ (length l < SIZEOF_BUF - 1)%nat.

Lemma gets_line l rest k : Forall (fun c => c <> 10 /\ c <> 13 /\ c <> 0) l -> (length l < k)%nat ->
  gets_loop k (l ++ 10 :: rest) = (l ++ [10], rest).
Proof.
  revert k. induction l as [|c l IH]; intros [|k] Hl Hk; cbn [length] in Hk; try lia; [done|]. apply Forall_cons in Hl as [(H1 & H2 & _) Hl].
  cbn [app gets_loop]. destruct (Z.eqb_spec c 10); [done|]. destruct (Z.eqb_spec c 13); [done|]. cbn [orb]. rewrite IH by (done || lia). done.
Qed.
Lemma cstr_nonzero l : Forall (fun c => c <> 0) l -> cstr l = l.
Proof. induction 1 as [|c l Hc Hl IH]; [done|]. cbn. destruct (Z.eqb_spec c 0); [done|]. by rewrite IH. Qed.

(** The shell reads its input line by line: lines of at most 98 characters are dispatched one
    after the other, in order, and the loop ends at the end of the input. *)
Lemma main_lines ls : Forall wf_input ls -> main (ls ≫= fun l => l ++ [10]) = Some ((fun l => dispatch (l ++ [10])) <$> ls).
Proof.
  intros H. unfold main. set (inp := ls ≫= _). assert (length ls <= length inp)%nat as Hf.
  { unfold inp. clear. induction ls as [|l ls IH]; [done|]. change ((l :: ls) ≫= fun l => l ++ [10]) with ((l ++ [10]) ++ (ls ≫= fun l => l ++ [10])). rewrite !length_app. cbn [length]. lia. }
  revert Hf. unfold inp. clear inp. generalize (length (ls ≫= fun l => l ++ [10])) as fuel.
  induction H as [|l ls [Hl Hlen] Hls IH]; intros fuel Hf; [by destruct fuel|]. cbn [length] in Hf. destruct fuel as [|f]; [lia|].
  change ((l :: ls) ≫= fun l => l ++ [10]) with ((l ++ [10]) ++ (ls ≫= fun l => l ++ [10])). rewrite <- app_assoc. cbn [app main_loop].
  unfold getcmd, gets. rewrite gets_line by (done || unfold SIZEOF_BUF in *; lia).
  assert (Forall (fun c => c <> 0) (l ++ [10])) as Hn.
  { apply Forall_app. split; [eapply Forall_impl; [exact Hl|]; cbn; tauto|by apply Forall_singleton]. }
  rewrite cstr_nonzero by done. destruct (Z.eqb_spec (deref (l ++ [10])) 0) as [E|_].
  { destruct l; [done|]. apply Forall_cons in Hn as [? _]. done. }
  rewrite IH by lia. done.
Qed.
