(* ===== verification/Fs.v ===== *)
(** * The file system (kernel/fs.c, kernel/fs.h): definitions

    The code is written over two interfaces.  [BlockOps] is what fs.c uses of the buffer
    cache and the log: bread, brelse, log_write, the data of a buffer, initlog, begin_op and
    end_op; FsLog.v provides it from the models of bio.c and log.c.  [CopyOps] is what it uses of memory:
    either_copyout, either_copyin, copyinstr and the kernel's own variables.  Pointers to inodes are
    indices into icache, pointers to buffers are the handles bread returns. *)
From S2P Require Import Prelude Mem Sleeplock.

Abbreviation block := mem.

Class BlockOps (B : Type) := {
  blk_proc :: Proclike B;
  blk_read : Z -> Z -> M B Z;
  blk_data : B -> Z -> block;
  blk_put : Z -> block -> M B unit;
  blk_log : Z -> M B unit;
  blk_relse : Z -> M B unit;
  blk_initlog : Z -> Z -> Z -> M B unit;
  blk_begin : M B unit;
  blk_end : M B unit;
}.
(** [either_copyin] returns the bytes it stored before it succeeded or failed; [copy_str] is
    fetchstr, with the string itself as its result. *)
Class CopyOps (U : Type) := {
  copy_out : bool -> Z -> list Z -> M U Z;
  copy_in : bool -> Z -> Z -> M U (list Z * Z);
  kget : U -> Z -> nat -> list Z;
  kput : Z -> list Z -> M U unit;
  copy_str : Z -> Z -> M U (option (list Z));
}.

(** ** fs.h, stat.h, param.h *)

Definition ROOTINO : Z := 1.
Definition ROOTDEV : Z := 1.
Definition BSIZE : Z := 1024.
Definition FSMAGIC : Z := 0x10203040.
Definition NDIRECT : Z := 12.
Definition NINDIRECT : Z := BSIZE / 4.
Definition MAXFILE : Z := NDIRECT + NINDIRECT.
Definition NINODE : Z := 50.
Definition DIRSIZ : Z := 14.
Definition T_DIR : Z := 1.
Definition T_FILE : Z := 2.
Definition T_DEVICE : Z := 3.

Record superblock := Superblock {
  sb_magic : Z; sb_size : Z; sb_nblocks : Z; sb_ninodes : Z;
  sb_nlog : Z; sb_logstart : Z; sb_inodestart : Z; sb_bmapstart : Z }.

(** [struct dinode]: 64 bytes. *)
Record dinode := Dinode {
  d_type : Z; d_major : Z; d_minor : Z; d_nlink : Z; d_size : Z; d_addrs : list Z }.
Definition SIZEOF_DINODE : Z := 64.
Definition IPB : Z := BSIZE / SIZEOF_DINODE.
Definition IBLOCK (i : Z) (sb : superblock) : Z := i / IPB + sb_inodestart sb.
Definition BPB : Z := BSIZE * 8.
Definition BBLOCK (b : Z) (sb : superblock) : Z := b / BPB + sb_bmapstart sb.

(** Fields of a block. *)
Definition ld16 (x : block) (a : Z) : Z := i16 (le_load x a 2).
Definition ld32 (x : block) (a : Z) : Z := le_load x a 4.
Definition st16 (x : block) (a v : Z) : block := le_store x a (u16 v) 2.
Definition st32 (x : block) (a v : Z) : block := le_store x a (u32 v) 4.
Definition words (x : block) (a : Z) (n : nat) : list Z := (fun i => ld32 x (a + 4 * i)) <$> seqZ 0 (Z.of_nat n).
Fixpoint st_words (x : block) (a : Z) (l : list Z) : block :=
  match l with [] => x | v :: l' => st_words (st32 x a v) (a + 4) l' end.

Definition ld_dinode (x : block) (a : Z) : dinode :=
  Dinode (ld16 x a) (ld16 x (a + 2)) (ld16 x (a + 4)) (ld16 x (a + 6)) (ld32 x (a + 8)) (words x (a + 12) 13).
Definition st_dinode (x : block) (a : Z) (d : dinode) : block :=
  st_words (st32 (st16 (st16 (st16 (st16 x a (d_type d)) (a + 2) (d_major d)) (a + 4) (d_minor d)) (a + 6) (d_nlink d))
    (a + 8) (d_size d)) (a + 12) (d_addrs d).

(** [struct inode] of file.h. *)
Record inode := Inode {
  i_dev : Z; i_inum : Z; i_ref : Z; i_lock : sleeplock; i_valid : bool; i_d : dinode }.
Definition inode0 : inode := Inode 0 0 0 initsleeplock false (Dinode 0 0 0 0 0 (replicate 13 0)).
Definition i_type (x : inode) : Z := d_type (i_d x).
Definition i_nlink (x : inode) : Z := d_nlink (i_d x).
Definition i_size (x : inode) : Z := d_size (i_d x).
Definition i_addrs (x : inode) : list Z := d_addrs (i_d x).
Definition addr (x : inode) (i : Z) : Z := default 0 (i_addrs x !! Z.to_nat i).

Definition set_iref (r : Z) (x : inode) : inode := Inode (i_dev x) (i_inum x) r (i_lock x) (i_valid x) (i_d x).
Definition set_ilock (l : sleeplock) (x : inode) : inode := Inode (i_dev x) (i_inum x) (i_ref x) l (i_valid x) (i_d x).
Definition set_ivalid (v : bool) (x : inode) : inode := Inode (i_dev x) (i_inum x) (i_ref x) (i_lock x) v (i_d x).
Definition set_id (d : dinode) (x : inode) : inode := Inode (i_dev x) (i_inum x) (i_ref x) (i_lock x) (i_valid x) d.
Definition set_dtype (t : Z) (d : dinode) : dinode := Dinode t (d_major d) (d_minor d) (d_nlink d) (d_size d) (d_addrs d).
Definition set_dnlink (n : Z) (d : dinode) : dinode := Dinode (d_type d) (d_major d) (d_minor d) n (d_size d) (d_addrs d).
Definition set_dsize (n : Z) (d : dinode) : dinode := Dinode (d_type d) (d_major d) (d_minor d) (d_nlink d) n (d_addrs d).
Definition set_daddr (i a : Z) (d : dinode) : dinode :=
  Dinode (d_type d) (d_major d) (d_minor d) (d_nlink d) (d_size d) (<[Z.to_nat i := a]> (d_addrs d)).

(** ** State *)

Section Fs.
Context {B U : Type} `{!BlockOps B, !CopyOps U}.

(** [fs_cwd] is myproc()->cwd. *)
Record fs := MkFs { fs_blk : B; fs_mem : U; fs_sb : superblock; icache : gmap Z inode; fs_cwd : Z }.

Definition ino (s : fs) (ip : Z) : inode := default inode0 (icache s !! ip).
Definition with_blk (b : B) (s : fs) : fs := MkFs b (fs_mem s) (fs_sb s) (icache s) (fs_cwd s).
Definition with_mem (u : U) (s : fs) : fs := MkFs (fs_blk s) u (fs_sb s) (icache s) (fs_cwd s).
Definition with_sb (x : superblock) (s : fs) : fs := MkFs (fs_blk s) (fs_mem s) x (icache s) (fs_cwd s).
Definition upd_ino (ip : Z) (f : inode -> inode) (s : fs) : fs :=
  MkFs (fs_blk s) (fs_mem s) (fs_sb s) (<[ip := f (ino s ip)]> (icache s)) (fs_cwd s).

#[export] Instance fs_proc : Proclike fs := {
  mypid s := mypid (fs_blk s);
  add_wake c s := with_blk (add_wake c (fs_blk s)) s }.

Definition onblk {A} (m : M B A) : M fs A := zoom fs_blk with_blk m.
Definition onmem {A} (m : M U A) : M fs A := zoom fs_mem with_mem m.
Definition bread (dev b : Z) : M fs Z := onblk (blk_read dev b).
Definition bdata (bp : Z) : M fs block := gets (fun s => blk_data (fs_blk s) bp).
Definition bput (bp : Z) (x : block) : M fs unit := onblk (blk_put bp x).
Definition log_write (bp : Z) : M fs unit := onblk (blk_log bp).
Definition brelse (bp : Z) : M fs unit := onblk (blk_relse bp).
Definition initlog (dev logstart nlog : Z) : M fs unit := onblk (blk_initlog dev logstart nlog).
Definition begin_op : M fs unit := onblk blk_begin.
Definition end_op : M fs unit := onblk blk_end.

Definition icache_lock : lockid := ("icache", 0).
Definition inode_lock (ip : Z) : lockid := ("sleep lock", 1000 + ip).
Definition lock_of (ip : Z) (s : fs) : sleeplock := i_lock (ino s ip).
Definition set_lock_of (ip : Z) (l : sleeplock) : fs -> fs := upd_ino ip (set_ilock l).

(** ** Super block *)

Definition readsb (dev : Z) : M fs unit :=
  bp ← bread dev 1;
  x ← bdata bp;
  modify (with_sb (Superblock (ld32 x 0) (ld32 x 4) (ld32 x 8) (ld32 x 12) (ld32 x 16) (ld32 x 20) (ld32 x 24) (ld32 x 28))) ;;
  brelse bp.
Definition fsinit (dev : Z) : M fs unit :=
  readsb dev ;;
  sb ← gets fs_sb;
  if negb (sb_magic sb =? FSMAGIC) then panic "invalid file system" else
  initlog dev (sb_logstart sb) (sb_nlog sb).

(** ** Blocks *)

Definition bzero (dev bno : Z) : M fs unit :=
  bp ← bread dev bno;
  x ← bdata bp;
  bput bp (memset x 0 0 BSIZE) ;;
  log_write bp ;;
  brelse bp.

Definition bit_of (bi : Z) : Z := Z.shiftl 1 (bi mod 8).
Definition bit_clear (x : block) (bi : Z) : bool := Z.land (rd x (bi / 8)) (bit_of bi) =? 0.
Definition set_bit (x : block) (bi : Z) : block := wr x (bi / 8) (Z.lor (rd x (bi / 8)) (bit_of bi)).
Definition clear_bit (x : block) (bi : Z) : block := wr x (bi / 8) (Z.land (rd x (bi / 8)) (Z.lnot (bit_of bi))).

(** The inner loop of balloc: the first clear bit among [n] from [bi]. *)
Fixpoint find_bit (x : block) (size b bi : Z) (n : nat) : option Z :=
  match n with
  | O => None
  | S n' => if b + bi <? size then if bit_clear x bi then Some bi else find_bit x size b (bi + 1) n' else None
  end.
Fixpoint balloc_loop (dev : Z) (fuel : nat) (b : Z) : M fs Z :=
  sb ← gets fs_sb;
  if b <? sb_size sb then
    match fuel with
    | O => panic no_fuel
    | S f =>
      bp ← bread dev (BBLOCK b sb);
      x ← bdata bp;
      match find_bit x (sb_size sb) b 0 (Z.to_nat BPB) with
      | Some bi =>
        bput bp (set_bit x bi) ;;
        log_write bp ;;
        brelse bp ;;
        bzero dev (b + bi) ;;
        mret (b + bi)
      | None => brelse bp ;; balloc_loop dev f (b + BPB)
      end
    end
  else panic "balloc: out of blocks".
Definition balloc (dev : Z) : M fs Z :=
  size ← gets (fun s => sb_size (fs_sb s));
  balloc_loop dev (Z.to_nat (size / BPB + 1)) 0.

Definition bfree (dev b : Z) : M fs unit :=
  sb ← gets fs_sb;
  bp ← bread dev (BBLOCK b sb);
  x ← bdata bp;
  let bi := b mod BPB in
  if bit_clear x bi then panic "freeing free block" else
  bput bp (clear_bit x bi) ;;
  log_write bp ;;
  brelse bp.

(** ** Inodes *)

Fixpoint iinit_loop (l : list Z) : M fs unit :=
  match l with [] => mret tt | ip :: l' => modify (set_lock_of ip initsleeplock) ;; iinit_loop l' end.
Definition iinit : M fs unit := iinit_loop (seqZ 0 NINODE).

Definition dip_of (inum : Z) : Z := (inum mod IPB) * SIZEOF_DINODE.

(** The loop of iget: a cached entry, and the first empty one. *)
Fixpoint iget_find (t : gmap Z inode) (dev inum : Z) (l : list Z) (empty : option Z) : option Z * option Z :=
  match l with
  | [] => (None, empty)
  | ip :: l' =>
    let x := default inode0 (t !! ip) in
    if (0 <? i_ref x) && (i_dev x =? dev) && (i_inum x =? inum) then (Some ip, empty)
    else iget_find t dev inum l' (match empty with
                                  | Some e => Some e
                                  | None => if i_ref x =? 0 then Some ip else None
                                  end)
  end.
Definition iget (dev inum : Z) : M fs Z :=
  acquire icache_lock ;;
  t ← gets icache;
  match iget_find t dev inum (seqZ 0 NINODE) None with
  | (Some ip, _) =>
    modify (upd_ino ip (fun x => set_iref (i32 (i_ref x + 1)) x)) ;;
    release icache_lock ;;
    mret ip
  | (None, None) => panic "iget: no inodes"
  | (None, Some ip) =>
    modify (upd_ino ip (fun x => Inode dev inum 1 (i_lock x) false (i_d x))) ;;
    release icache_lock ;;
    mret ip
  end.

Fixpoint ialloc_loop (dev type : Z) (l : list Z) : M fs Z :=
  match l with
  | [] => panic "ialloc: no inodes"
  | inum :: l' =>
    sb ← gets fs_sb;
    bp ← bread dev (IBLOCK inum sb);
    x ← bdata bp;
    let dip := dip_of inum in
    if ld16 x dip =? 0 then
      bput bp (st16 (memset x dip 0 SIZEOF_DINODE) dip type) ;;
      log_write bp ;;
      brelse bp ;;
      iget dev inum
    else brelse bp ;; ialloc_loop dev type l'
  end.
Definition ialloc (dev type : Z) : M fs Z :=
  n ← gets (fun s => sb_ninodes (fs_sb s));
  ialloc_loop dev type (seqZ 1 (n - 1)).

Definition iupdate (ip : Z) : M fs unit :=
  x ← gets (fun s => ino s ip);
  sb ← gets fs_sb;
  bp ← bread (i_dev x) (IBLOCK (i_inum x) sb);
  d ← bdata bp;
  bput bp (st_dinode d (dip_of (i_inum x)) (i_d x)) ;;
  log_write bp ;;
  brelse bp.

Definition idup (ip : Z) : M fs Z :=
  acquire icache_lock ;;
  modify (upd_ino ip (fun x => set_iref (i32 (i_ref x + 1)) x)) ;;
  release icache_lock ;;
  mret ip.

Definition ilock (ip : Z) : M fs unit :=
  r ← gets (fun s => i_ref (ino s ip));
  if r <? 1 then panic "ilock" else
  acquiresleep (inode_lock ip) (lock_of ip) (set_lock_of ip) ;;
  x ← gets (fun s => ino s ip);
  if i_valid x then mret tt else
  sb ← gets fs_sb;
  bp ← bread (i_dev x) (IBLOCK (i_inum x) sb);
  d ← bdata bp;
  modify (upd_ino ip (set_id (ld_dinode d (dip_of (i_inum x))))) ;;
  brelse bp ;;
  modify (upd_ino ip (set_ivalid true)) ;;
  t ← gets (fun s => i_type (ino s ip));
  if t =? 0 then panic "ilock: no type" else mret tt.

Definition iunlock (ip : Z) : M fs unit :=
  h ← holdingsleep (inode_lock ip) (lock_of ip);
  r ← gets (fun s => i_ref (ino s ip));
  if negb h || (r <? 1) then panic "iunlock" else
  releasesleep (inode_lock ip) (set_lock_of ip).

(** ** Inode contents *)

Definition bmap (ip bn : Z) : M fs Z :=
  dev ← gets (fun s => i_dev (ino s ip));
  if bn <? NDIRECT then
    a ← gets (fun s => addr (ino s ip) bn);
    if a =? 0 then
      a ← balloc dev;
      modify (upd_ino ip (fun x => set_id (set_daddr bn a (i_d x)) x)) ;;
      mret a
    else mret a
  else
  let bn := bn - NDIRECT in
  if bn <? NINDIRECT then
    a ← gets (fun s => addr (ino s ip) NDIRECT);
    a ← (if a =? 0 then
           a ← balloc dev;
           modify (upd_ino ip (fun x => set_id (set_daddr NDIRECT a (i_d x)) x)) ;;
           mret a
         else mret a);
    bp ← bread dev a;
    x ← bdata bp;
    let a := ld32 x (4 * bn) in
    a ← (if a =? 0 then
           a ← balloc dev;
           bput bp (st32 x (4 * bn) a) ;;
           log_write bp ;;
           mret a
         else mret a);
    brelse bp ;;
    mret a
  else panic "bmap: out of range".

(** The two loops of itrunc. *)
Fixpoint free_direct (ip dev : Z) (l : list Z) : M fs unit :=
  match l with
  | [] => mret tt
  | i :: l' =>
    a ← gets (fun s => addr (ino s ip) i);
    (if a =? 0 then mret tt else
     bfree dev a ;; modify (upd_ino ip (fun x => set_id (set_daddr i 0 (i_d x)) x))) ;;
    free_direct ip dev l'
  end.
Fixpoint free_indirect (dev : Z) (x : block) (l : list Z) : M fs unit :=
  match l with
  | [] => mret tt
  | j :: l' =>
    (if ld32 x (4 * j) =? 0 then mret tt else bfree dev (ld32 x (4 * j))) ;;
    free_indirect dev x l'
  end.
Definition itrunc (ip : Z) : M fs unit :=
  dev ← gets (fun s => i_dev (ino s ip));
  free_direct ip dev (seqZ 0 NDIRECT) ;;
  a ← gets (fun s => addr (ino s ip) NDIRECT);
  (if a =? 0 then mret tt else
   bp ← bread dev a;
   x ← bdata bp;
   free_indirect dev x (seqZ 0 NINDIRECT) ;;
   brelse bp ;;
   bfree dev a ;;
   modify (upd_ino ip (fun x => set_id (set_daddr NDIRECT 0 (i_d x)) x))) ;;
  modify (upd_ino ip (fun x => set_id (set_dsize 0 (i_d x)) x)) ;;
  iupdate ip.

Definition iput (ip : Z) : M fs unit :=
  acquire icache_lock ;;
  x ← gets (fun s => ino s ip);
  (if (i_ref x =? 1) && i_valid x && (i_nlink x =? 0) then
     acquiresleep (inode_lock ip) (lock_of ip) (set_lock_of ip) ;;
     release icache_lock ;;
     itrunc ip ;;
     modify (upd_ino ip (fun x => set_id (set_dtype 0 (i_d x)) x)) ;;
     iupdate ip ;;
     modify (upd_ino ip (set_ivalid false)) ;;
     releasesleep (inode_lock ip) (set_lock_of ip) ;;
     acquire icache_lock
   else mret tt) ;;
  modify (upd_ino ip (fun x => set_iref (i32 (i_ref x - 1)) x)) ;;
  release icache_lock.

Definition iunlockput (ip : Z) : M fs unit := iunlock ip ;; iput ip.

Record stat := Stat { s_dev : Z; s_ino : Z; s_type : Z; s_nlink : Z; s_size : Z }.
Definition stati (ip : Z) : M fs stat :=
  x ← gets (fun s => ino s ip);
  mret (Stat (i_dev x) (i_inum x) (i_type x) (i_nlink x) (i_size x)).

(** One chunk: min(n - tot, BSIZE - off%BSIZE). *)
Definition chunk (n tot off : Z) : Z := Z.min (n - tot) (BSIZE - off mod BSIZE).

Fixpoint readi_loop (fuel : nat) (ip : Z) (user_dst : bool) (dst off n tot : Z) : M fs Z :=
  if tot <? n then
    match fuel with
    | O => panic no_fuel
    | S f =>
      dev ← gets (fun s => i_dev (ino s ip));
      a ← bmap ip (off / BSIZE);
      bp ← bread dev a;
      x ← bdata bp;
      let m := chunk n tot off in
      r ← onmem (copy_out user_dst dst (bytes x (off mod BSIZE) (Z.to_nat m)));
      brelse bp ;;
      if r =? -1 then mret (-1)
      else readi_loop f ip user_dst (u64 (dst + m)) (u32 (off + m)) n (tot + m)
    end
  else mret tot.
Definition readi (ip : Z) (user_dst : bool) (dst off n : Z) : M fs Z :=
  size ← gets (fun s => i_size (ino s ip));
  if (size <? off) || (u32 (off + n) <? off) then mret 0 else
  let n := if size <? u32 (off + n) then size - off else n in
  r ← readi_loop (Z.to_nat (n / BSIZE + 2)) ip user_dst dst off n 0;
  mret (i32 r).

(** The loop of writei: the final [tot] and [off]. *)
Fixpoint writei_loop (fuel : nat) (ip : Z) (user_src : bool) (src off n tot : Z) : M fs (Z * Z) :=
  if tot <? n then
    match fuel with
    | O => panic no_fuel
    | S f =>
      dev ← gets (fun s => i_dev (ino s ip));
      a ← bmap ip (off / BSIZE);
      bp ← bread dev a;
      x ← bdata bp;
      let m := chunk n tot off in
      '(data, r) ← onmem (copy_in user_src src m);
      bput bp (store_bytes x (off mod BSIZE) data) ;;
      if r =? -1 then brelse bp ;; mret (tot, off)
      else
        log_write bp ;;
        brelse bp ;;
        writei_loop f ip user_src (u64 (src + m)) (u32 (off + m)) n (tot + m)
    end
  else mret (tot, off).
Definition writei (ip : Z) (user_src : bool) (src off n : Z) : M fs Z :=
  size ← gets (fun s => i_size (ino s ip));
  if (size <? off) || (u32 (off + n) <? off) then mret (-1) else
  if MAXFILE * BSIZE <? u32 (off + n) then mret (-1) else
  '(tot, off) ← writei_loop (Z.to_nat (n / BSIZE + 2)) ip user_src src off n 0;
  (if size <? off then modify (upd_ino ip (fun x => set_id (set_dsize off (i_d x)) x)) else mret tt) ;;
  iupdate ip ;;
  mret (i32 tot).

(** ** Directories *)

(** Names are the characters of a C string of at most DIRSIZ characters; [namecmp] runs
    strncmp on a memory that holds the two. *)
Definition namecmp (s t : list Z) : Z := strncmp (store_bytes (store_bytes ∅ 0 s) 100 t) 0 100 DIRSIZ.
Definition SIZEOF_DIRENT : Z := 16.
Definition de_inum (de : list Z) : Z := of_le (take 2 de).
Definition de_name (de : list Z) : list Z := drop 2 de.
(** [strncpy(de.name, name, DIRSIZ)] into the 14 bytes [old]. *)
Definition strncpy_name (old name : list Z) : list Z :=
  bytes (strncpy (store_bytes (store_bytes ∅ 0 old) 100 name) 0 100 DIRSIZ) 0 (Z.to_nat DIRSIZ).

(** The address of the local variable [de]. *)
Variable de_at : Z.

(** Reading the entry at [off] into [de]; the caller panics unless all of it is read. *)
Definition read_dirent (dp off : Z) (msg : string) : M fs (list Z) :=
  r ← readi dp false de_at off SIZEOF_DIRENT;
  if negb (r =? SIZEOF_DIRENT) then panic msg else
  gets (fun s => kget (fs_mem s) de_at (Z.to_nat SIZEOF_DIRENT)).

(** The result: a referenced inode and the offset stored in [*poff], or null. *)
Fixpoint dirlookup_loop (fuel : nat) (dp : Z) (name : list Z) (off : Z) : M fs (option (Z * Z)) :=
  size ← gets (fun s => i_size (ino s dp));
  if off <? size then
    match fuel with
    | O => panic no_fuel
    | S f =>
      de ← read_dirent dp off "dirlookup read";
      if de_inum de =? 0 then dirlookup_loop f dp name (u32 (off + SIZEOF_DIRENT)) else
      if namecmp name (de_name de) =? 0 then
        dev ← gets (fun s => i_dev (ino s dp));
        ip ← iget dev (de_inum de);
        mret (Some (ip, off))
      else dirlookup_loop f dp name (u32 (off + SIZEOF_DIRENT))
    end
  else mret None.
Definition dirlookup (dp : Z) (name : list Z) : M fs (option (Z * Z)) :=
  t ← gets (fun s => i_type (ino s dp));
  if negb (t =? T_DIR) then panic "dirlookup not DIR" else
  size ← gets (fun s => i_size (ino s dp));
  dirlookup_loop (Z.to_nat (size / SIZEOF_DIRENT + 1)) dp name 0.

(** The search of dirlink for an empty entry. *)
Fixpoint dirlink_find (fuel : nat) (dp off : Z) : M fs Z :=
  size ← gets (fun s => i_size (ino s dp));
  if off <? size then
    match fuel with
    | O => panic no_fuel
    | S f =>
      de ← read_dirent dp off "dirlink read";
      if de_inum de =? 0 then mret off else dirlink_find f dp (off + SIZEOF_DIRENT)
    end
  else mret off.
Definition dirlink (dp : Z) (name : list Z) (inum : Z) : M fs Z :=
  r ← dirlookup dp name;
  match r with
  | Some (ip, _) => iput ip ;; mret (-1)
  | None =>
    size ← gets (fun s => i_size (ino s dp));
    off ← dirlink_find (Z.to_nat (size / SIZEOF_DIRENT + 1)) dp 0;
    de ← gets (fun s => kget (fs_mem s) de_at (Z.to_nat SIZEOF_DIRENT));
    onmem (kput de_at (le_bytes (u16 inum) 2 ++ strncpy_name (de_name de) name)) ;;
    r ← writei dp false de_at off SIZEOF_DIRENT;
    if negb (r =? SIZEOF_DIRENT) then panic "dirlink" else mret 0
  end.

(** ** Paths *)

Fixpoint skip_slash (p : list Z) : list Z := match p with 47 :: p' => skip_slash p' | _ => p end.
(** The characters up to the next slash, and the rest from it on. *)
Fixpoint elem (p : list Z) : list Z * list Z :=
  match p with
  | [] => ([], [])
  | c :: p' => if c =? 47 then ([], p) else let '(e, r) := elem p' in (c :: e, r)
  end.
Definition skipelem (path : list Z) : option (list Z * list Z) :=
  match skip_slash path with
  | [] => None
  | p => let '(s, rest) := elem p in
         let len := Z.of_nat (length s) in
         Some (if DIRSIZ <=? len then take (Z.to_nat DIRSIZ) s else s, skip_slash rest)
  end.

(** The loop of namex at [ip] with [path] to go; [name] is the last element copied. *)
Fixpoint namex_loop (fuel : nat) (ip : Z) (path : list Z) (nameiparent : bool) (name : list Z) : M fs (option (Z * list Z)) :=
  match skipelem path with
  | None => if nameiparent then iput ip ;; mret None else mret (Some (ip, name))
  | Some (name, path) =>
    match fuel with
    | O => panic no_fuel
    | S f =>
      ilock ip ;;
      t ← gets (fun s => i_type (ino s ip));
      if negb (t =? T_DIR) then iunlockput ip ;; mret None else
      if nameiparent && bool_decide (path = []) then iunlock ip ;; mret (Some (ip, name)) else
      next ← dirlookup ip name;
      match next with
      | None => iunlockput ip ;; mret None
      | Some (next, _) => iunlockput ip ;; namex_loop f next path nameiparent name
      end
    end
  end.
Definition namex (path : list Z) (nameiparent : bool) : M fs (option (Z * list Z)) :=
  ip ← (match path with
        | 47 :: _ => iget ROOTDEV ROOTINO
        | _ => cwd ← gets fs_cwd; idup cwd
        end);
  namex_loop (length path) ip path nameiparent [].
Definition namei (path : list Z) : M fs (option Z) :=
  r ← namex path false; mret (fst <$> r).
Definition nameiparent (path : list Z) : M fs (option (Z * list Z)) := namex path true.
End Fs.
