(* ===== verification/FsSpec.v ===== *)
(** * The contracts of the layers below fs.c, and of its block allocator

    [BlockLaws] states what one transaction promises to its client: bread of a block that
    is not held gives its current contents, stores go to the held buffer, log_write adds the
    block to the transaction, and a buffer may be released when it is logged or unchanged. *)
From S2P Require Import Prelude Mem Sleeplock Fs.


(** [inside s p C V H L]: process [p] is inside a transaction; block contents were [C] when it
    began and are [V] now; [H] maps the blocks it holds to their buffers; [L] are the blocks
    of the transaction so far, at most [cap]. *)
Class BlockLaws (B : Type) `{!BlockOps B} (dev : Z) (home : Z -> Prop) (cap : nat) := {
  inside : B -> Z -> (Z -> block) -> (Z -> block) -> gmap Z Z -> gset Z -> Prop;
  inside_pid s p C V H L : inside s p C V H L -> mypid s = p;
  inside_wake s p C V H L c : inside s p C V H L -> inside (add_wake c s) p C V H L;
  law_read s p C V H L b : inside s p C V H L -> H !! b = None -> (size H < 3)%nat ->
    wp (blk_read dev b) (KSt [] s) (fun i k => held k = [] /\ inside (st k) p C V (<[b := i]> H) L);
  law_data s p C V H L b i : inside s p C V H L -> H !! b = Some i -> blk_data s i = V b;
  law_put s p C V H L b i x : inside s p C V H L -> H !! b = Some i ->
    wp (blk_put i x) (KSt [] s) (fun _ k => held k = [] /\ inside (st k) p C (fupd V b x) H L);
  law_log s p C V H L b i : inside s p C V H L -> H !! b = Some i -> home b -> (size ({[b]} ∪ L) <= cap)%nat ->
    wp (blk_log i) (KSt [] s) (fun _ k => held k = [] /\ inside (st k) p C V H ({[b]} ∪ L));
  law_relse s p C V H L b i : inside s p C V H L -> H !! b = Some i -> (b ∈ L \/ V b = C b) ->
    wp (blk_relse i) (KSt [] s) (fun _ k => held k = [] /\ inside (st k) p C V (delete b H) L);
}.

(** What the copy routines promise, in terms of the byte at each kernel ([false]) or user
    ([true]) address; [None] is an address that is not mapped. *)
Class CopyLaws (U : Type) `{!CopyOps U} := {
  view : U -> bool -> Z -> option Z;
  law_out u k a l : (forall i, a <= i < a + Z.of_nat (length l) -> is_Some (view u k i)) -> Forall is_byte l ->
    wp (copy_out k a l) (KSt [] u) (fun r k' => r = 0 /\ held k' = [] /\
      forall k2 i, view (st k') k2 i = if bool_decide (k2 = k /\ a <= i < a + Z.of_nat (length l))
                                       then l !! Z.to_nat (i - a) else view u k2 i);
  law_in u k a n : 0 <= n -> (forall i, a <= i < a + n -> is_Some (view u k i)) ->
    exists l, copy_in k a n (KSt [] u) = Ok (l, 0) (KSt [] u) /\ length l = Z.to_nat n /\ Forall is_byte l /\
      forall i, 0 <= i < n -> l !! Z.to_nat i = view u k (a + i);
  law_kget u a n : (forall i, a <= i < a + Z.of_nat n -> is_Some (view u false i)) ->
    length (kget u a n) = n /\ forall i, 0 <= i < Z.of_nat n -> kget u a n !! Z.to_nat i = view u false (a + i);
  law_kput u a l : (forall i, a <= i < a + Z.of_nat (length l) -> is_Some (view u false i)) -> Forall is_byte l ->
    wp (kput a l) (KSt [] u) (fun _ k' => held k' = [] /\
      forall k2 i, view (st k') k2 i = if bool_decide (k2 = false /\ a <= i < a + Z.of_nat (length l))
                                       then l !! Z.to_nat (i - a) else view u k2 i);
}.

Section FsSpec.
Context {B U : Type} `{!BlockOps B, !CopyOps U} (dev : Z) (home : Z -> Prop) (cap : nat) `{!BlockLaws B dev home cap}.

Abbreviation fs := (@fs B U).
Implicit Types (s : fs) (p : Z) (C V : Z -> block) (H : gmap Z Z) (L : gset Z).

(** [txn s p C V H L]: inside a transaction, with every change logged. *)
Record txn s p C V H L : Prop := {
  tx_in : inside (fs_blk s) p C V H L;
  tx_clean : forall b, b ∉ L -> V b = C b;
}.

(** [same s s']: only the block layer changed. *)
Definition same s s' : Prop := s' = with_blk (fs_blk s') s.
Lemma same_refl s : same s s.
Proof. by destruct s. Qed.
Lemma same_trans s1 s2 s3 : same s1 s2 -> same s2 s3 -> same s1 s3.
Proof. unfold same. intros -> ->. done. Qed.
Lemma same_with s b : same s (with_blk b s).
Proof. done. Qed.

Lemma wp_onblk {A} (m : M B A) h s (Q : A -> kst fs -> Prop) :
  wp m (KSt h (fs_blk s)) (fun a k => Q a (KSt (held k) (with_blk (st k) s))) -> wp (onblk m) (KSt h s) Q.
Proof. unfold wp, onblk, zoom. cbn. by destruct (m _). Qed.
Lemma wp_onmem {A} (m : M U A) h s (Q : A -> kst fs -> Prop) :
  wp m (KSt h (fs_mem s)) (fun a k => Q a (KSt (held k) (with_mem (st k) s))) -> wp (onmem m) (KSt h s) Q.
Proof. unfold wp, onmem, zoom. cbn. by destruct (m _). Qed.

Lemma wp_fs_bread s p C V H L b Q : inside (fs_blk s) p C V H L -> H !! b = None -> (size H < 3)%nat ->
  (forall i s', same s s' -> inside (fs_blk s') p C V (<[b := i]> H) L -> Q i (KSt [] s')) ->
  wp (bread dev b) (KSt [] s) Q.
Proof.
  intros Hin Hb Hn HQ. apply wp_onblk. eapply wp_mono; [by apply law_read|]. intros i [h x] [Eh Hi]. cbn in *. subst h. by apply HQ.
Qed.
Lemma wp_bdata s p C V H L b i Q : inside (fs_blk s) p C V H L -> H !! b = Some i ->
  Q (V b) (KSt [] s) -> wp (bdata i) (KSt [] s) Q.
Proof. intros Hin Hb HQ. unfold bdata. wstep. by rewrite (law_data _ _ _ _ _ _ _ _ Hin Hb). Qed.
Lemma wp_bput s p C V H L b i x Q : inside (fs_blk s) p C V H L -> H !! b = Some i ->
  (forall s', same s s' -> inside (fs_blk s') p C (fupd V b x) H L -> Q tt (KSt [] s')) -> wp (bput i x) (KSt [] s) Q.
Proof.
  intros Hin Hb HQ. apply wp_onblk. eapply wp_mono; [by eapply law_put|]. intros [] [h y] [Eh Hi]. cbn in *. subst h. by apply HQ.
Qed.
Lemma wp_log s p C V H L b i Q : inside (fs_blk s) p C V H L -> H !! b = Some i -> home b -> (size ({[b]} ∪ L) <= cap)%nat ->
  (forall s', same s s' -> inside (fs_blk s') p C V H ({[b]} ∪ L) -> Q tt (KSt [] s')) -> wp (log_write i) (KSt [] s) Q.
Proof.
  intros Hin Hb Hh Hc HQ. apply wp_onblk. eapply wp_mono; [by eapply law_log|]. intros [] [h y] [Eh Hi]. cbn in *. subst h. by apply HQ.
Qed.
Lemma wp_fs_brelse s p C V H L b i Q : inside (fs_blk s) p C V H L -> H !! b = Some i -> (b ∈ L \/ V b = C b) ->
  (forall s', same s s' -> inside (fs_blk s') p C V (delete b H) L -> Q tt (KSt [] s')) -> wp (brelse i) (KSt [] s) Q.
Proof.
  intros Hin Hb Hc HQ. apply wp_onblk. eapply wp_mono; [by eapply law_relse|]. intros [] [h y] [Eh Hi]. cbn in *. subst h. by apply HQ.
Qed.

(** Reading a block: bread, a look at the data, and later brelse. *)
Lemma wp_look {A} s p C V H L b (f : Z -> block -> M fs A) Q : txn s p C V H L -> H !! b = None -> (size H < 3)%nat ->
  (forall i s', same s s' -> txn s' p C V (<[b := i]> H) L -> wp (f i (V b)) (KSt [] s') Q) ->
  wp (bp ← bread dev b; x ← bdata bp; f bp x) (KSt [] s) Q.
Proof.
  intros [Hin Hcl] Hb Hn HQ. wstep. eapply wp_fs_bread; [done..|]. intros i s' Hs Hi. wstep.
  eapply wp_bdata; [exact Hi|by rewrite lookup_insert_eq|]. by apply HQ.
Qed.
Lemma wp_fs_release s p C V H L b i Q : txn s p C V (<[b := i]> H) L -> H !! b = None ->
  (forall s', same s s' -> txn s' p C V H L -> Q tt (KSt [] s')) -> wp (brelse i) (KSt [] s) Q.
Proof.
  intros [Hin Hcl] Hb HQ. eapply wp_fs_brelse; [exact Hin|by rewrite lookup_insert_eq| |].
  { destruct (decide (b ∈ L)); [by left|right; by apply Hcl]. }
  intros s' Hs Hi. apply HQ; [done|]. split; [|done]. by rewrite delete_insert_id in Hi.
Qed.
(** Changing a held block and logging it. *)
Lemma wp_change s p C V H L b i x Q : txn s p C V H L -> H !! b = Some i -> home b -> (size ({[b]} ∪ L) <= cap)%nat ->
  (forall s', same s s' -> txn s' p C (fupd V b x) H ({[b]} ∪ L) -> Q tt (KSt [] s')) ->
  wp (bput i x ;; log_write i) (KSt [] s) Q.
Proof.
  intros [Hin Hcl] Hb Hh Hc HQ. wstep. eapply wp_bput; [done..|]. intros s1 Hs1 Hi1. eapply wp_log; [done..|].
  intros s2 Hs2 Hi2. apply HQ; [by eapply same_trans|]. split; [done|]. intros c Hn. rewrite fupd_ne by set_solver. apply Hcl. set_solver.
Qed.
(** The whole pattern: read, change, log, release. *)
Lemma wp_update {A} s p C V H L b (f : block -> block) (m : M fs A) Q : txn s p C V H L -> H !! b = None -> (size H < 3)%nat ->
  home b -> (size ({[b]} ∪ L) <= cap)%nat ->
  (forall s', same s s' -> txn s' p C (fupd V b (f (V b))) H ({[b]} ∪ L) -> wp m (KSt [] s') Q) ->
  wp (bp ← bread dev b; x ← bdata bp; bput bp (f x) ;; log_write bp ;; brelse bp ;; m) (KSt [] s) Q.
Proof.
  intros Ht Hb Hn Hh Hc HQ. eapply wp_look; [done..|]. intros i s1 Hs1 Ht1.
  change (wp (bput i (f (V b)) ;; (log_write i ;; brelse i ;; m)) (KSt [] s1) Q).
  wstep. eapply wp_bput; [apply Ht1|by rewrite lookup_insert_eq|]. intros s2 Hs2 Hi2. wstep.
  eapply wp_log; [exact Hi2|by rewrite lookup_insert_eq|done|done|]. intros s3 Hs3 Hi3. wstep.
  eapply (wp_fs_release _ p C _ H _ b i); [split; [exact Hi3|]|done|].
  { intros c Hc'. rewrite fupd_ne by set_solver. apply Ht1. set_solver. }
  intros s4 Hs4 Ht4. apply HQ; [|done]. eapply same_trans; [|exact Hs4]. eapply same_trans; [|exact Hs3]. by eapply same_trans.
Qed.
End FsSpec.
