(* ===== verification/FsAlloc.v ===== *)
(** * The block allocator of fs.c: balloc and bfree *)
From S2P Require Import Prelude Mem Sleeplock Fs FsSpec.

(** ** The bits of the free map *)

Definition bitv (x : block) (bi : Z) : bool := Z.testbit (rd x (bi / 8)) (bi mod 8).

Lemma bit_of_testbit bi k : 0 <= k -> Z.testbit (bit_of bi) k = (bi mod 8 =? k).
Proof.
  intros Hk. unfold bit_of. rewrite Z.shiftl_1_l, Z.pow2_bits_eqb by (apply Z.mod_pos_bound; lia). done.
Qed.
Lemma bit_clear_bitv x bi : bit_clear x bi = negb (bitv x bi).
Proof.
  pose proof (Z.mod_pos_bound bi 8 ltac:(lia)) as Hm. unfold bit_clear, bitv. destruct (Z.testbit (rd x (bi / 8)) (bi mod 8)) eqn:E; cbn [negb].
  - apply Z.eqb_neq. intros E0. apply (f_equal (fun v => Z.testbit v (bi mod 8))) in E0.
    rewrite Z.land_spec, E, bit_of_testbit, Z.eqb_refl, Z.bits_0 in E0 by lia. done.
  - apply Z.eqb_eq, Z.bits_inj'. intros k Hk. rewrite Z.land_spec, bit_of_testbit, Z.bits_0 by done.
    destruct (Z.eqb_spec (bi mod 8) k) as [<-|]; [by rewrite E|apply andb_false_r].
Qed.

Lemma u8_testbit v k : 0 <= k < 8 -> Z.testbit (u8 v) k = Z.testbit v k.
Proof. intros Hk. unfold u8. apply Z.mod_pow2_bits_low. lia. Qed.

Lemma bitv_wr x bi bj v : 0 <= bi -> 0 <= bj ->
  bitv (wr x (bi / 8) v) bj = if bi / 8 =? bj / 8 then Z.testbit v (bj mod 8) else bitv x bj.
Proof.
  intros Hi Hj. unfold bitv. rewrite rd_wr. destruct (bi / 8 =? bj / 8); [|done]. apply u8_testbit, Z.mod_pos_bound. lia.
Qed.
Lemma same_bit bi bj : bi / 8 = bj / 8 -> bi mod 8 = bj mod 8 -> bi = bj.
Proof. intros H1 H2. rewrite (Z.div_mod bi 8), (Z.div_mod bj 8), H1, H2 by lia. done. Qed.

Lemma bitv_set x bi bj : 0 <= bi -> 0 <= bj -> bitv (set_bit x bi) bj = (bi =? bj) || bitv x bj.
Proof.
  intros Hi Hj. unfold set_bit. rewrite bitv_wr by done. destruct (Z.eqb_spec (bi / 8) (bj / 8)) as [E|E].
  - rewrite Z.lor_spec, bit_of_testbit by (apply Z.mod_pos_bound; lia). unfold bitv. rewrite E. destruct (Z.eqb_spec (bi mod 8) (bj mod 8)) as [E'|E'].
    + rewrite (proj2 (Z.eqb_eq bi bj)) by (by apply same_bit). by rewrite orb_true_r.
    + destruct (Z.eqb_spec bi bj) as [->|]; [done|]. by rewrite orb_false_r.
  - destruct (Z.eqb_spec bi bj) as [->|]; [done|]. done.
Qed.
Lemma bitv_clear x bi bj : 0 <= bi -> 0 <= bj -> bitv (clear_bit x bi) bj = negb (bi =? bj) && bitv x bj.
Proof.
  intros Hi Hj. pose proof (Z.mod_pos_bound bj 8 ltac:(lia)). unfold clear_bit. rewrite bitv_wr by done. destruct (Z.eqb_spec (bi / 8) (bj / 8)) as [E|E].
  - rewrite Z.land_spec, Z.lnot_spec, bit_of_testbit by lia. unfold bitv. rewrite E. destruct (Z.eqb_spec (bi mod 8) (bj mod 8)) as [E'|E'].
    + rewrite (proj2 (Z.eqb_eq bi bj)) by (by apply same_bit). apply andb_false_r.
    + destruct (Z.eqb_spec bi bj) as [->|]; [done|]. by rewrite andb_true_r.
  - destruct (Z.eqb_spec bi bj) as [->|]; [done|]. done.
Qed.

Lemma find_bit_spec x sz b n : forall bi, 0 <= bi ->
  match find_bit x sz b bi n with
  | Some r => bi <= r < bi + Z.of_nat n /\ b + r < sz /\ bitv x r = false
  | None => forall r, bi <= r < bi + Z.of_nat n -> b + r < sz -> bitv x r = true
  end.
Proof.
  induction n as [|n IH]; intros bi Hbi; cbn [find_bit]; [intros; lia|].
  destruct (Z.ltb_spec (b + bi) sz); [|intros; lia]. rewrite bit_clear_bitv. destruct (bitv x bi) eqn:E; cbn [negb]; [|split_and!; done || lia].
  specialize (IH (bi + 1) ltac:(lia)). destruct (find_bit x sz b (bi + 1) n) as [r|]; [destruct IH as (? & ? & ?); split_and!; done || lia|].
  intros r Hr Hs. destruct (decide (r = bi)) as [->|]; [done|]. apply IH; lia.
Qed.

(** ** The layout of the disk *)

(** As mkfs makes it: inode blocks, one block of free map, then the data blocks; all of
    these may be logged. *)
Record layout (home : Z -> Prop) (sb : superblock) : Prop := {
  ly_size : 0 < sb_size sb <= BPB;
  ly_inodes : 0 < sb_ninodes sb;
  ly_start : 1 < sb_inodestart sb;
  ly_bmap : sb_inodestart sb + sb_ninodes sb / IPB < sb_bmapstart sb;
  ly_data : sb_bmapstart sb + 1 < sb_size sb;
  ly_home : forall b, sb_inodestart sb <= b < sb_size sb -> home b;
}.
Definition datastart (sb : superblock) : Z := sb_bmapstart sb + 1.
Definition data_block (sb : superblock) (b : Z) : Prop := datastart sb <= b < sb_size sb.
Definition used (sb : superblock) (V : Z -> block) (b : Z) : Prop := bitv (V (sb_bmapstart sb)) b = true.
#[export] Instance used_dec sb V b : Decision (used sb V b).
Proof. unfold used. apply _. Defined.

(** The contents after balloc returned [r]. *)
Definition alloc_view (sb : superblock) (V : Z -> block) (r : Z) : Z -> block :=
  fupd (fupd V (sb_bmapstart sb) (set_bit (V (sb_bmapstart sb)) r)) r (memset (V r) 0 0 BSIZE).
Definition free_view (sb : superblock) (V : Z -> block) (b : Z) : Z -> block :=
  fupd V (sb_bmapstart sb) (clear_bit (V (sb_bmapstart sb)) b).

Section FsAlloc.
Context {B U : Type} `{!BlockOps B, !CopyOps U} (dev : Z) (home : Z -> Prop) (cap : nat) `{!BlockLaws B dev home cap}.
Context (sb : superblock) (Hly : layout home sb).
Abbreviation fs := (@fs B U).
Abbreviation bm := (sb_bmapstart sb).
Implicit Types (s : fs) (p : Z) (C V : Z -> block) (H : gmap Z Z) (L : gset Z).

Lemma inode_blocks : 0 <= sb_ninodes sb / IPB.
Proof using Hly. destruct Hly. apply Z.div_pos; [lia|]. change IPB with 16. lia. Qed.
Lemma bm_pos : 0 <= bm.
Proof using Hly. destruct Hly as [[H1 H2] H3 H4 H5 H6 _]. pose proof inode_blocks. lia. Qed.
Lemma bm_home : home bm.
Proof using Hly.
  destruct Hly as [[H1 H2] H3 H4 H5 H6 H7]. apply H7. pose proof inode_blocks. lia.
Qed.
Lemma data_home b : data_block sb b -> home b.
Proof using Hly.
  intros [H8 H9]. destruct Hly as [[H1 H2] H3 H4 H5 H6 H7]. apply H7. unfold datastart in *. pose proof inode_blocks. lia.
Qed.
Lemma data_range b : data_block sb b -> 0 < b < BPB /\ b <> bm /\ b < sb_size sb.
Proof using Hly. intros [H8 H9]. pose proof bm_pos. destruct Hly as [[H1 H2] _ _ _ _ _]. unfold datastart in *. lia. Qed.
Lemma bblock b : 0 <= b < sb_size sb -> BBLOCK b sb = bm.
Proof using Hly. intros Hb. destruct Hly as [[H1 H2] _ _ _ _ _]. unfold BBLOCK. rewrite Z.div_small by lia. lia. Qed.

Lemma alloc_used V r b : data_block sb r -> 0 <= b -> used sb (alloc_view sb V r) b <-> b = r \/ used sb V b.
Proof using Hly.
  intros Hr Hb. apply data_range in Hr. unfold used, alloc_view. rewrite fupd_ne, fupd_eq, bitv_set by lia.
  destruct (Z.eqb_spec r b); cbn; naive_solver.
Qed.
Lemma alloc_zero V r i : 0 <= i < BSIZE -> rd (alloc_view sb V r r) i = 0.
Proof. intros Hi. unfold alloc_view. rewrite fupd_eq, rd_memset_in by lia. done. Qed.
Lemma alloc_other V r b : b <> bm -> b <> r -> alloc_view sb V r b = V b.
Proof. intros H1 H2. unfold alloc_view. by rewrite !fupd_ne by done. Qed.
Lemma free_used V r b : 0 <= r -> 0 <= b -> used sb (free_view sb V r) b <-> b <> r /\ used sb V b.
Proof. intros Hr Hb. unfold used, free_view. rewrite fupd_eq, bitv_clear by lia. destruct (Z.eqb_spec r b); cbn; naive_solver. Qed.
Lemma free_other V r b : b <> bm -> free_view sb V r b = V b.
Proof. intros H1. unfold free_view. by rewrite fupd_ne. Qed.

(** balloc returns a block that was free, zeroed and marked. *)
Lemma wp_balloc s p C V H L Q : txn dev home cap s p C V H L -> fs_sb s = sb ->
  H !! bm = None -> (forall b, is_Some (H !! b) -> used sb V b) -> (size H < 3)%nat ->
  (forall b, 0 <= b < datastart sb -> used sb V b) ->
  (exists b, 0 <= b < sb_size sb /\ ~ used sb V b) ->
  (size ({[bm]} ∪ L) < cap)%nat ->
  (forall r s', same s s' -> data_block sb r -> ~ used sb V r ->
     txn dev home cap s' p C (alloc_view sb V r) H ({[r]} ∪ ({[bm]} ∪ L)) -> Q r (KSt [] s')) ->
  wp (balloc dev) (KSt [] s) Q.
Proof using Hly.
  intros Ht Hsb Hbm HH Hn Hmeta (b0 & Hb0 & Hfree) Hcap HQ. pose proof (ly_size _ _ Hly) as Hsz.
  unfold balloc. wstep. wstep. rewrite Hsb.
  destruct (Z.to_nat (sb_size sb / BPB + 1)) as [|f] eqn:Ef.
  { assert (0 <= sb_size sb / BPB) by (apply Z.div_pos; unfold BPB, BSIZE in *; lia). lia. }
  cbn [balloc_loop]. wstep. wstep. rewrite Hsb. destruct (Z.ltb_spec 0 (sb_size sb)); [|lia]. rewrite bblock by lia.
  eapply wp_look; [exact Ht|done|done|]. intros i s1 Hs1 Ht1.
  pose proof (find_bit_spec (V bm) (sb_size sb) 0 (Z.to_nat BPB) 0 ltac:(lia)) as Hf. change (Z.of_nat (Z.to_nat BPB)) with BPB in Hf.
  destruct (find_bit (V bm) (sb_size sb) 0 0 (Z.to_nat BPB)) as [r|].
  2: { exfalso. apply Hfree. apply Hf; lia. }
  destruct Hf as (Hr & Hrs & Hrb). assert (~ used sb V r) as Hru by (unfold used; congruence).
  assert (data_block sb r) as Hd.
  { unfold data_block. destruct (decide (datastart sb <= r)); [lia|]. exfalso. apply Hru, Hmeta. lia. }
  pose proof (data_range r Hd) as (_ & Hrbm & _).
  change (wp (bput i (set_bit (V bm) r) ;; (log_write i ;; brelse i ;; bzero dev (0 + r) ;; mret (0 + r))) (KSt [] s1) Q).
  wstep. eapply wp_bput; [apply Ht1|by rewrite lookup_insert_eq|]. intros s2 Hs2 Hi2. wstep.
  eapply wp_log; [exact Hi2|by rewrite lookup_insert_eq|apply bm_home|lia|]. intros s3 Hs3 Hi3. wstep.
  eapply (wp_fs_release dev home cap _ p C _ H _ bm i); [split; [exact Hi3|]|done|].
  { intros c Hc'. rewrite fupd_ne by set_solver. apply Ht1. set_solver. }
  intros s4 Hs4 Ht4. rewrite Z.add_0_l. wstep. unfold bzero.
  change (wp (bp ← bread dev r; x ← bdata bp; bput bp (memset x 0 0 BSIZE) ;; log_write bp ;; brelse bp)
    (KSt [] s4) (fun _ k' => wp (mret r) k' Q)).
  assert (H !! r = None) as Hr0.
  { destruct (H !! r) eqn:E; [|done]. exfalso. apply Hru, HH. by rewrite E. }
  eapply wp_look; [exact Ht4|done|done|]. intros j s5 Hs5 Ht5. wstep.
  eapply wp_bput; [apply Ht5|by rewrite lookup_insert_eq|]. intros s6 Hs6 Hi6. wstep.
  eapply wp_log; [exact Hi6|by rewrite lookup_insert_eq|by apply data_home| |].
  { rewrite size_union_alt. assert (size ({[r]} : gset Z) = 1%nat) by apply size_singleton.
    assert (size ({[bm]} ∪ L ∖ {[r]}) <= size ({[bm]} ∪ L))%nat; [apply subseteq_size; set_solver|].
    assert (size (({[bm]} ∪ L) ∖ {[r]}) <= size ({[bm]} ∪ L))%nat; [apply subseteq_size; set_solver|]. lia. }
  intros s7 Hs7 Hi7. eapply (wp_fs_release dev home cap _ p C _ H _ r j); [split; [exact Hi7|]|done|].
  { intros c Hc'. rewrite fupd_ne by set_solver. apply Ht5. set_solver. }
  intros s8 Hs8 Ht8. wstep. apply HQ; [|done|done|].
  - repeat (eapply same_trans; [eassumption|]). apply same_refl.
  - unfold alloc_view. rewrite fupd_ne in Ht8 by done. exact Ht8.
Qed.

(** bfree clears the bit of a block in use. *)
Lemma wp_bfree s p C V H L b Q : txn dev home cap s p C V H L -> fs_sb s = sb -> H !! bm = None -> (size H < 3)%nat ->
  data_block sb b -> used sb V b -> (size ({[bm]} ∪ L) <= cap)%nat ->
  (forall s', same s s' -> txn dev home cap s' p C (free_view sb V b) H ({[bm]} ∪ L) -> Q tt (KSt [] s')) ->
  wp (bfree dev b) (KSt [] s) Q.
Proof using Hly.
  intros Ht Hsb Hbm Hn Hd Hu Hcap HQ. pose proof (data_range b Hd) as (Hb & _ & Hbs). unfold bfree. wstep. wstep. rewrite Hsb, bblock by lia.
  eapply wp_look; [exact Ht|done|done|]. intros i s1 Hs1 Ht1. cbv zeta. rewrite Z.mod_small by lia.
  rewrite bit_clear_bitv. unfold used in Hu. rewrite Hu. cbn [negb].
  change (wp (bput i (clear_bit (V bm) b) ;; (log_write i ;; brelse i)) (KSt [] s1) Q).
  wstep. eapply wp_bput; [apply Ht1|by rewrite lookup_insert_eq|]. intros s2 Hs2 Hi2. wstep.
  eapply wp_log; [exact Hi2|by rewrite lookup_insert_eq|apply bm_home|lia|]. intros s3 Hs3 Hi3.
  eapply (wp_fs_release dev home cap _ p C _ H _ bm i); [split; [exact Hi3|]|done|].
  { intros c Hc'. rewrite fupd_ne by set_solver. apply Ht1. set_solver. }
  intros s4 Hs4 Ht4. apply HQ; [|done]. repeat (eapply same_trans; [eassumption|]). apply same_refl.
Qed.
End FsAlloc.
