(* ===== verification/FsWf.v ===== *)
(** * Which blocks belong to which file

    The address list of an inode and its indirect block give each file 269 slots: the
    twelve direct blocks, the indirect block (slot 12) and its 256 entries.  In a well-formed
    file system a slot is empty or holds a data block that is marked in the free map, and no
    block is in two slots. *)
From S2P Require Import Prelude Mem Sleeplock Fs FsSpec FsAlloc.

(** ** Words of a block *)

Lemma ld32_range x a : 0 <= ld32 x a < 2 ^ 32.
Proof. apply (le_load_range 4). Qed.
Lemma ld32_st32_eq x a v : ld32 (st32 x a v) a = u32 v.
Proof. apply le_load_store. apply u32_range. Qed.
Lemma ld32_st32_ne x a b v : b + 4 <= a \/ a + 4 <= b -> ld32 (st32 x a v) b = ld32 x b.
Proof. intros H. apply le_load_ext. intros c Hc. apply rd_le_store_other. cbn. lia. Qed.
Lemma ld32_zero x a : (forall b, a <= b < a + 4 -> rd x b = 0) -> ld32 x a = 0.
Proof. intros H. unfold ld32. cbn [le_load]. rewrite !H by lia. lia. Qed.

(** ** Slots *)

Definition NSLOTS : Z := 269.
Definition dir_addr (a : list Z) (k : Z) : Z := default 0 (a !! Z.to_nat k).
Definition slot_block (V : Z -> block) (a : list Z) (k : Z) : Z :=
  if k <=? NDIRECT then dir_addr a k
  else if dir_addr a NDIRECT =? 0 then 0 else ld32 (V (dir_addr a NDIRECT)) (4 * (k - 13)).
(** The slot of the [bn]-th block of a file. *)
Definition slot (bn : Z) : Z := if bn <? NDIRECT then bn else bn + 1.
Definition is_slot (k : Z) : Prop := 0 <= k < NSLOTS.

Lemma slot_ok bn : 0 <= bn < MAXFILE -> is_slot (slot bn) /\ slot bn <> NDIRECT.
Proof. unfold MAXFILE, NINDIRECT, is_slot, NSLOTS, slot, NDIRECT. change (BSIZE / 4) with 256. intros H. zbool; lia. Qed.
Lemma slot_inj bn bn' : slot bn = slot bn' -> bn = bn'.
Proof. unfold slot, NDIRECT. zbool; lia. Qed.

Section Wf.
Context (home : Z -> Prop) (sb : superblock) (Hly : layout home sb).
Implicit Types (V : Z -> block) (a c : list Z) (F : gmap Z (list Z)).
Abbreviation bm := (sb_bmapstart sb).

Record wf V F : Prop := {
  wf_meta : forall b, 0 <= b < datastart sb -> used sb V b;
  wf_len : forall i a, F !! i = Some a -> length a = 13%nat;
  wf_data : forall i a k, F !! i = Some a -> is_slot k -> slot_block V a k <> 0 ->
    data_block sb (slot_block V a k) /\ used sb V (slot_block V a k);
  wf_inj : forall i a k i' a' k', F !! i = Some a -> F !! i' = Some a' -> is_slot k -> is_slot k' ->
    slot_block V a k <> 0 -> slot_block V a k = slot_block V a' k' -> i = i' /\ k = k';
}.

(** ** One more block in slot [k] of file [i] *)

Record grew V a V' a' (k r : Z) : Prop := {
  gr_data : data_block sb r;
  gr_fresh : ~ used sb V r;
  gr_used : forall b, 0 <= b -> used sb V' b <-> b = r \/ used sb V b;
  gr_empty : slot_block V a k = 0;
  gr_slot : slot_block V' a' k = r;
  gr_slots : forall k', is_slot k' -> k' <> k -> slot_block V' a' k' = slot_block V a k';
  gr_blocks : forall b, b <> bm -> b <> r -> (dir_addr a NDIRECT = b -> b = 0) -> V' b = V b;
  gr_zero : forall o, 0 <= o < BSIZE -> rd (V' r) o = 0;
  gr_len : length a' = length a;
}.

Lemma dir_insert a k r k' : length a = 13%nat -> 0 <= k <= 12 -> 0 <= k' <= 12 ->
  dir_addr (<[Z.to_nat k := r]> a) k' = if k =? k' then r else dir_addr a k'.
Proof.
  intros Hl Hk Hk'. unfold dir_addr. destruct (Z.eqb_spec k k') as [->|Hne].
  - rewrite list_lookup_insert_eq by lia. done.
  - rewrite list_lookup_insert_ne by lia. done.
Qed.

(** A direct block, or the indirect block itself. *)
Lemma grew_direct V F i a k r : wf V F -> F !! i = Some a -> 0 <= k <= NDIRECT -> dir_addr a k = 0 ->
  data_block sb r -> ~ used sb V r -> grew V a (alloc_view sb V r) (<[Z.to_nat k := r]> a) k r.
Proof using Hly.
  intros Hwf Hi Hk H0 Hr Hu. pose proof (wf_len _ _ Hwf _ _ Hi) as Hl. unfold NDIRECT in *.
  pose proof (data_range home sb Hly r Hr) as (Hr1 & Hr2 & Hr3).
  assert (slot_block V a k = 0) as E0 by (unfold slot_block, NDIRECT; destruct (Z.leb_spec k 12); [done|lia]).
  split; try done.
  - intros b Hb. by apply (alloc_used home).
  - unfold slot_block, NDIRECT. destruct (Z.leb_spec k 12); [|lia]. rewrite dir_insert by lia. by rewrite Z.eqb_refl.
  - intros k' Hk' Hne. unfold slot_block, NDIRECT. unfold is_slot in Hk'. destruct (Z.leb_spec k' 12).
    + rewrite dir_insert by lia. destruct (Z.eqb_spec k k'); [lia|done].
    + rewrite dir_insert by lia. destruct (Z.eqb_spec k 12) as [->|Hn].
      * rewrite H0. cbn [Z.eqb]. destruct (Z.eqb_spec r 0); [done|]. apply ld32_zero. intros b Hb. apply alloc_zero.
        unfold NSLOTS, BSIZE in *. lia.
      * destruct (Z.eqb_spec (dir_addr a 12) 0) as [|Hn0]; [done|].
        destruct (wf_data _ _ Hwf i a 12 Hi) as [Hd Hud]; [unfold is_slot, NSLOTS; lia|exact Hn0|].
        change (slot_block V a 12) with (dir_addr a 12) in *. pose proof (data_range home sb Hly _ Hd) as (_ & ? & _).
        rewrite alloc_other; [done|done|]. intros E. rewrite E in Hud. done.
  - intros b H1 H2 H3. by apply alloc_other.
  - intros o Ho. by apply alloc_zero.
  - apply length_insert.
Qed.

(** An entry of the indirect block. *)
Lemma grew_entry V F i a k r : wf V F -> F !! i = Some a -> NDIRECT < k < NSLOTS -> dir_addr a NDIRECT <> 0 ->
  slot_block V a k = 0 -> data_block sb r -> ~ used sb V r ->
  grew V a (fupd (alloc_view sb V r) (dir_addr a NDIRECT) (st32 (V (dir_addr a NDIRECT)) (4 * (k - 13)) r)) a k r.
Proof using Hly.
  intros Hwf Hi Hk Hn0 H0 Hr Hu. pose proof (wf_len _ _ Hwf _ _ Hi) as Hl. unfold NSLOTS, NDIRECT in *.
  pose proof (data_range home sb Hly r Hr) as (Hr1 & Hr2 & Hr3).
  destruct (wf_data _ _ Hwf i a 12 Hi) as [Hd Hud]; [unfold is_slot, NSLOTS; lia|exact Hn0|].
  change (slot_block V a 12) with (dir_addr a 12) in *. pose proof (data_range home sb Hly _ Hd) as (_ & Hdbm & _).
  assert (dir_addr a 12 <> r) as Hdr by (intros E; rewrite E in Hud; done).
  split; try done.
  - intros b Hb. unfold used. rewrite fupd_ne by done. by apply (alloc_used home).
  - unfold slot_block, NDIRECT. destruct (Z.leb_spec k 12); [lia|]. destruct (Z.eqb_spec (dir_addr a 12) 0); [done|].
    rewrite fupd_eq, ld32_st32_eq. apply u32_small. unfold BPB, BSIZE in *. lia.
  - intros k' Hk' Hne. unfold slot_block, NDIRECT. destruct (Z.leb_spec k' 12); [done|].
    destruct (Z.eqb_spec (dir_addr a 12) 0); [done|]. rewrite fupd_eq. apply ld32_st32_ne. lia.
  - intros b H1 H2 H3. rewrite fupd_ne; [by apply alloc_other|]. intros ->. by rewrite H3 in Hn0.
  - intros o Ho. rewrite fupd_ne by done. by apply alloc_zero.
Qed.

Section Grew.
Context V F i a V' a' k r (Hwf : wf V F) (Hi : F !! i = Some a) (Hk : is_slot k) (G : grew V a V' a' k r).

(** Blocks in use before keep their contents, the indirect block of the file itself apart. *)
Lemma grew_keeps j c k' : F !! j = Some c -> is_slot k' -> slot_block V c k' <> 0 -> (j <> i \/ k' <> NDIRECT) ->
  V' (slot_block V c k') = V (slot_block V c k').
Proof using Hly Hwf Hi G.
  intros Hj Hk' Hn Hor. destruct (wf_data _ _ Hwf j c k' Hj Hk' Hn) as [Hd Hu]. pose proof (data_range home sb Hly _ Hd) as (_ & Hbm & _).
  apply (gr_blocks _ _ _ _ _ _ G); [done| |].
  - intros E. rewrite E in Hu. by apply (gr_fresh _ _ _ _ _ _ G).
  - intros E. symmetry in E. change (dir_addr a NDIRECT) with (slot_block V a NDIRECT) in E.
    destruct (wf_inj _ _ Hwf j c k' i a NDIRECT) as [-> ->]; try done. destruct Hor; done.
Qed.
Lemma grew_others j c k' : F !! j = Some c -> j <> i -> is_slot k' -> slot_block V' c k' = slot_block V c k'.
Proof using Hly Hwf Hi G.
  intros Hj Hne Hk'. unfold slot_block. destruct (Z.leb_spec k' NDIRECT); [done|]. destruct (Z.eqb_spec (dir_addr c NDIRECT) 0) as [|Hn]; [done|].
  f_equal. apply (grew_keeps j c NDIRECT); [done|unfold is_slot, NSLOTS, NDIRECT; lia|done|by left].
Qed.
Lemma grew_slot_of j c k' : <[i := a']> F !! j = Some c -> is_slot k' ->
  (j = i /\ k' = k /\ slot_block V' c k' = r) \/
  (exists c0, F !! j = Some c0 /\ (j = i -> k' <> k) /\ slot_block V' c k' = slot_block V c0 k').
Proof using Hly Hwf Hi G.
  intros Hj Hk'. destruct (decide (j = i)) as [->|Hne].
  - rewrite lookup_insert_eq in Hj. injection Hj as <-. destruct (decide (k' = k)) as [->|Hne].
    + left. split_and!; [done..|apply (gr_slot _ _ _ _ _ _ G)].
    + right. exists a. split_and!; [done..|by apply (gr_slots _ _ _ _ _ _ G)].
  - rewrite lookup_insert_ne in Hj by done. right. exists c. split_and!; [done..|by apply (grew_others j)].
Qed.
Lemma grew_wf : wf V' (<[i := a']> F).
Proof using Hly Hwf Hi G.
  pose proof (gr_fresh _ _ _ _ _ _ G) as Hfr. pose proof (gr_used _ _ _ _ _ _ G) as Hus. pose proof (gr_data _ _ _ _ _ _ G) as Hd.
  pose proof (data_range home sb Hly r Hd) as (Hr0 & _ & _).
  assert (forall j c k', F !! j = Some c -> is_slot k' -> slot_block V c k' <> 0 -> slot_block V c k' <> r) as Hnr.
  { intros j c k' Hj Hk' Hn E. destruct (wf_data _ _ Hwf j c k' Hj Hk' Hn) as [_ Hu]. rewrite E in Hu. done. }
  split.
  - intros b Hb. apply Hus; [lia|]. right. by apply (wf_meta _ _ Hwf).
  - intros j c Hj. destruct (decide (j = i)) as [->|Hne].
    + rewrite lookup_insert_eq in Hj. injection Hj as <-. rewrite (gr_len _ _ _ _ _ _ G). by apply (wf_len _ _ Hwf i).
    + rewrite lookup_insert_ne in Hj by done. by apply (wf_len _ _ Hwf j).
  - intros j c k' Hj Hk' Hn. destruct (grew_slot_of j c k' Hj Hk') as [(_ & _ & ->)|(c0 & Hj0 & _ & E)].
    + split; [done|]. apply Hus; [lia|by left].
    + rewrite E in *. destruct (wf_data _ _ Hwf j c0 k' Hj0 Hk' Hn) as [Hd0 Hu0]. split; [done|].
      pose proof (data_range home sb Hly _ Hd0). apply Hus; [lia|by right].
  - intros j c k1 j' c' k2 Hj Hj' Hk1 Hk2 Hn E.
    destruct (grew_slot_of j c k1 Hj Hk1) as [(E1 & E2 & E3)|(c0 & Hj0 & Hx & E3)];
    destruct (grew_slot_of j' c' k2 Hj' Hk2) as [(E4 & E5 & E6)|(c0' & Hj0' & Hx' & E6)]; rewrite E3, E6 in *.
    + subst. done.
    + exfalso. symmetry in E. apply (Hnr j' c0' k2); done || congruence.
    + exfalso. by apply (Hnr j c0 k1).
    + by apply (wf_inj _ _ Hwf j c0 k1 j' c0' k2).
Qed.
End Grew.

(** ** Counting the free blocks *)

Definition nfree V : nat := length (filter (fun b => ~ used sb V b) (seqZ (datastart sb) (sb_size sb - datastart sb))).

Lemma filter_one (P Q : Z -> Prop) `{!forall x, Decision (P x), !forall x, Decision (Q x)} r l : NoDup l -> r ∈ l ->
  (forall x, x ∈ l -> Q x <-> P x /\ x <> r) -> P r -> length (filter P l) = S (length (filter Q l)).
Proof.
  intros Hnd Hin HPQ Hr. apply list_elem_of_split in Hin as (l1 & l2 & ->).
  apply NoDup_app in Hnd as (_ & Hn1 & Hnd2). apply NoDup_cons in Hnd2 as [Hn2 _].
  assert (forall l' : list Z, (forall x, x ∈ l' -> x ∈ l1 ++ r :: l2 /\ x <> r) -> filter P l' = filter Q l') as Hsame.
  { intros l' Hl'. induction l' as [|x l' IH]; [done|]. destruct (Hl' x ltac:(by left)) as [Hx Hxr]. specialize (HPQ x Hx).
    rewrite !filter_cons. rewrite IH by (intros y Hy; apply Hl'; by right). destruct (decide (P x)), (decide (Q x)); naive_solver. }
  rewrite !filter_app, !length_app, filter_cons_True by done. rewrite filter_cons_False.
  2: { intros HQ. apply HPQ in HQ; [tauto|]. apply elem_of_app. right. by left. }
  rewrite (Hsame l1), (Hsame l2).
  - cbn [length]. lia.
  - intros x Hx. split; [apply elem_of_app; right; by right|]. intros ->. done.
  - intros x Hx. split; [apply elem_of_app; by left|]. intros ->. apply (Hn1 r Hx). by left.
Qed.

Lemma grew_nfree V a V' a' k r : grew V a V' a' k r -> nfree V = S (nfree V').
Proof using Hly.
  intros G. unfold nfree. pose proof (gr_data _ _ _ _ _ _ G) as Hd. pose proof (bm_pos home sb Hly) as Hbm.
  eapply filter_one with (r := r); [apply NoDup_seqZ| | |apply (gr_fresh _ _ _ _ _ _ G)].
  - apply elem_of_seqZ. unfold data_block in Hd. lia.
  - intros x Hx. apply elem_of_seqZ in Hx. unfold datastart in Hx. rewrite (gr_used _ _ _ _ _ _ G) by lia. tauto.
Qed.
Lemma nfree_some V : (0 < nfree V)%nat -> exists b, 0 <= b < sb_size sb /\ ~ used sb V b.
Proof using Hly.
  unfold nfree. intros H. destruct (filter _ _) as [|b l] eqn:E; [cbn in H; lia|].
  assert (b ∈ b :: l) as Hb by (by left). rewrite <- E in Hb. apply list_elem_of_filter in Hb as [Hu Hb]. apply elem_of_seqZ in Hb.
  pose proof (bm_pos home sb Hly). unfold datastart in *. exists b. split; [lia|done].
Qed.
End Wf.
