(* ===== verification/FsBmap.v ===== *)
(** * bmap: the block of a file, allocated if necessary *)
From S2P Require Import Prelude Mem Sleeplock Fs FsSpec FsAlloc FsWf.

Definition set_addrs (a : list Z) (x : inode) : inode :=
  set_id (Dinode (d_type (i_d x)) (d_major (i_d x)) (d_minor (i_d x)) (d_nlink (i_d x)) (d_size (i_d x)) a) x.
Lemma set_addrs_id x : set_addrs (i_addrs x) x = x.
Proof. by destruct x as [? ? ? ? ? []]. Qed.

(** ** The effect of bmap on the contents of the disk *)

Section Effect.
Context (home : Z -> Prop) (sb : superblock) (Hly : layout home sb).
Implicit Types (V : Z -> block) (a c : list Z) (F : gmap Z (list Z)).
Abbreviation bm := (sb_bmapstart sb).

(** Blocks still to be allocated beside the data: the indirect block. *)
Definition need (a : list Z) : nat := if dir_addr a NDIRECT =? 0 then 1 else 0.

Record mapped V F i a V' a' (bn r : Z) : Prop := {
  mp_wf : wf sb V' (<[i := a']> F);
  mp_slot : slot_block V' a' (slot bn) = r;
  mp_data : data_block sb r;
  mp_slots : forall k, is_slot k -> k <> slot bn -> k <> NDIRECT -> slot_block V' a' k = slot_block V a k;
  mp_old : slot_block V a (slot bn) <> 0 -> slot_block V a (slot bn) = r;
  mp_new : slot_block V a (slot bn) = 0 -> forall o, 0 <= o < BSIZE -> rd (V' r) o = 0;
  mp_others : forall j c k, F !! j = Some c -> j <> i -> is_slot k -> slot_block V' c k = slot_block V c k;
  mp_keep : forall j c k, F !! j = Some c -> is_slot k -> k <> NDIRECT -> slot_block V c k <> 0 ->
    V' (slot_block V c k) = V (slot_block V c k);
  mp_meta : forall b, 0 <= b < datastart sb -> b <> bm -> V' b = V b;
  mp_free : (nfree sb V + need a' <= S (nfree sb V' + need a))%nat;
}.

Section Grown.
Context V F i a V' a' k r (Hwf : wf sb V F) (Hi : F !! i = Some a) (Hk : is_slot k) (G : grew sb V a V' a' k r).
Lemma grew_meta b : 0 <= b < datastart sb -> b <> bm -> V' b = V b.
Proof using Hly Hwf Hi G.
  intros Hb Hne. pose proof (gr_data _ _ _ _ _ _ _ G) as [Hr _]. apply (gr_blocks _ _ _ _ _ _ _ G); [done|lia|].
  intros E. destruct (decide (b = 0)) as [|Hn]; [done|]. exfalso.
  destruct (wf_data _ _ _ Hwf i a NDIRECT Hi) as [[Hd _] _]; [done|cbn; by rewrite E|]. cbn in Hd. rewrite E in Hd. lia.
Qed.
Lemma grew_indirect : k <> NDIRECT -> dir_addr a' NDIRECT = dir_addr a NDIRECT.
Proof using G. intros Hne. apply (gr_slots _ _ _ _ _ _ _ G NDIRECT); done. Qed.
End Grown.

(** No allocation. *)
Lemma mapped_same V F i a bn : wf sb V F -> F !! i = Some a -> 0 <= bn < MAXFILE -> slot_block V a (slot bn) <> 0 ->
  mapped V F i a V a bn (slot_block V a (slot bn)).
Proof.
  intros Hwf Hi Hbn Hn. destruct (slot_ok bn Hbn) as [Hs _]. split; try done.
  - by rewrite insert_id.
  - by apply (wf_data _ _ _ Hwf i a).
  - lia.
Qed.
(** One allocation. *)
Lemma mapped_one V F i a V' a' bn r : wf sb V F -> F !! i = Some a -> 0 <= bn < MAXFILE ->
  grew sb V a V' a' (slot bn) r -> mapped V F i a V' a' bn r.
Proof using Hly.
  intros Hwf Hi Hbn G. destruct (slot_ok bn Hbn) as [Hs Hne]. pose proof (grew_indirect _ _ _ _ _ _ G Hne) as Ei. split.
  - by eapply grew_wf.
  - apply (gr_slot _ _ _ _ _ _ _ G).
  - apply (gr_data _ _ _ _ _ _ _ G).
  - intros k Hk Hk1 _. by apply (gr_slots _ _ _ _ _ _ _ G).
  - intros Hn. destruct Hn. apply (gr_empty _ _ _ _ _ _ _ G).
  - intros _. apply (gr_zero _ _ _ _ _ _ _ G).
  - intros j c k Hj Hji Hk. by eapply (grew_others home sb Hly V F i).
  - intros j c k Hj Hk Hkn Hn. eapply (grew_keeps home sb Hly V F i); eauto.
  - intros b Hb Hbm. by eapply grew_meta.
  - rewrite (grew_nfree home sb Hly _ _ _ _ _ _ G). unfold need. rewrite Ei. lia.
Qed.
(** The indirect block and then one of its entries. *)
Lemma mapped_two V F i a V1 a1 V2 a2 bn r1 r : wf sb V F -> F !! i = Some a -> 0 <= bn < MAXFILE ->
  dir_addr a NDIRECT = 0 -> NDIRECT <= bn ->
  grew sb V a V1 a1 NDIRECT r1 -> grew sb V1 a1 V2 a2 (slot bn) r -> mapped V F i a V2 a2 bn r.
Proof using Hly.
  intros Hwf Hi Hbn H0 Hge G1 G2. destruct (slot_ok bn Hbn) as [Hs Hne].
  pose proof (grew_wf home sb Hly _ _ _ _ _ _ _ _ Hwf Hi G1) as Hwf1. set (F1 := <[i := a1]> F) in *.
  assert (F1 !! i = Some a1) as Hi1 by apply lookup_insert_eq.
  assert (forall j c, F !! j = Some c -> j <> i -> F1 !! j = Some c) as HF1 by (intros j c Hj Hji; unfold F1; by rewrite lookup_insert_ne).
  pose proof (grew_wf home sb Hly _ _ _ _ _ _ _ _ Hwf1 Hi1 G2) as Hwf2. unfold F1 in Hwf2 at 1. rewrite insert_insert_eq in Hwf2.
  assert (slot_block V a (slot bn) = 0) as E0.
  { rewrite <- (gr_slots _ _ _ _ _ _ _ G1) by done. apply (gr_empty _ _ _ _ _ _ _ G2). }
  split; [done|apply (gr_slot _ _ _ _ _ _ _ G2)|apply (gr_data _ _ _ _ _ _ _ G2)| |done|..].
  - intros k Hk Hk1 Hk2. rewrite (gr_slots _ _ _ _ _ _ _ G2) by done. by apply (gr_slots _ _ _ _ _ _ _ G1).
  - intros _. apply (gr_zero _ _ _ _ _ _ _ G2).
  - intros j c k Hj Hji Hk. rewrite (grew_others home sb Hly V1 F1 i a1 V2 a2 (slot bn) r Hwf1 Hi1 G2 j c k); [|by apply HF1|done|done].
    by eapply (grew_others home sb Hly V F i).
  - intros j c k Hj Hk Hkn Hn.
    assert (slot_block V1 (if decide (j = i) then a1 else c) k = slot_block V c k /\ F1 !! j = Some (if decide (j = i) then a1 else c)) as [Ek Hj1].
    { destruct (decide (j = i)) as [->|Hji].
      - assert (c = a) as -> by congruence. split; [by apply (gr_slots _ _ _ _ _ _ _ G1)|done].
      - split; [by eapply (grew_others home sb Hly V F i)|by apply HF1]. }
    rewrite <- Ek. rewrite (grew_keeps home sb Hly V1 F1 i a1 V2 a2 (slot bn) r Hwf1 Hi1 G2 j _ k Hj1 Hk); [|by rewrite Ek|by right].
    rewrite Ek. eapply (grew_keeps home sb Hly V F i); eauto.
  - intros b Hb Hbm. rewrite (grew_meta V1 F1 i a1 V2 a2 (slot bn) r Hwf1 Hi1 G2 b Hb Hbm). by eapply grew_meta.
  - rewrite (grew_nfree home sb Hly _ _ _ _ _ _ G1), (grew_nfree home sb Hly _ _ _ _ _ _ G2). unfold need. rewrite H0.
    rewrite (grew_indirect _ _ _ _ _ _ G2 Hne). pose proof (gr_slot _ _ _ _ _ _ _ G1) as Er. cbn in Er. change (dir_addr a1 NDIRECT = r1) in Er. rewrite Er.
    pose proof (data_range home sb Hly r1 (gr_data _ _ _ _ _ _ _ G1)). destruct (Z.eqb_spec r1 0); [lia|]. cbn. lia.
Qed.
End Effect.

(** ** The code *)

Section Bmap.
Context {B U : Type} `{!BlockOps B, !CopyOps U} (dev : Z) (home : Z -> Prop) (cap : nat) `{!BlockLaws B dev home cap}.
Context (sb : superblock) (Hly : layout home sb).
Abbreviation fs := (@fs B U).
Abbreviation bm := (sb_bmapstart sb).
Implicit Types (s : fs) (p : Z) (C V : Z -> block) (H : gmap Z Z) (L : gset Z) (F : gmap Z (list Z)) (a : list Z).

(** [moved ip a s s']: the address list of [ip] is now [a]; blocks apart, nothing else changed. *)
Record moved (ip : Z) (a : list Z) s s' : Prop := {
  mv_mem : fs_mem s' = fs_mem s;
  mv_sb : fs_sb s' = fs_sb s;
  mv_cwd : fs_cwd s' = fs_cwd s;
  mv_ino : ino s' ip = set_addrs a (ino s ip);
  mv_others : forall j, j <> ip -> ino s' j = ino s j;
}.
Lemma moved_same ip s s' : same s s' -> moved ip (i_addrs (ino s ip)) s s'.
Proof. unfold same. intros ->. split; try done. by rewrite set_addrs_id. Qed.
Lemma moved_then ip a s s1 s' : same s s1 -> moved ip a s1 s' -> moved ip a s s'.
Proof. unfold same. intros -> [H1 H2 H3 H4 H5]. done. Qed.
Lemma moved_same_r ip a s s1 s' : moved ip a s s1 -> same s1 s' -> moved ip a s s'.
Proof. unfold same. intros [H1 H2 H3 H4 H5] ->. done. Qed.
Lemma moved_trans ip a1 a2 s s1 s2 : moved ip a1 s s1 -> moved ip a2 s1 s2 -> moved ip a2 s s2.
Proof.
  intros [H1 H2 H3 H4 H5] [G1 G2 G3 G4 G5]. split; [congruence..| |].
  - rewrite G4, H4. done.
  - intros j Hj. by rewrite G5, H5.
Qed.
Lemma ino_upd ip f s : ino (upd_ino ip f s) ip = f (ino s ip).
Proof. unfold ino, upd_ino. cbn. by rewrite lookup_insert_eq. Qed.
Lemma ino_upd_ne ip j f s : j <> ip -> ino (upd_ino ip f s) j = ino s j.
Proof. intros Hj. unfold ino, upd_ino. cbn. by rewrite lookup_insert_ne. Qed.
Lemma moved_upd ip k r s : moved ip (<[Z.to_nat k := r]> (i_addrs (ino s ip))) s (upd_ino ip (fun x => Fs.set_id (set_daddr k r (i_d x)) x) s).
Proof. split; try done; [by rewrite ino_upd|]. intros j Hj. by apply ino_upd_ne. Qed.

(** The blocks of the transaction, counting the free map and the indirect block as logged. *)
Definition weight L a : nat :=
  if dir_addr a NDIRECT =? 0 then S (size ({[bm]} ∪ L)) else size ({[dir_addr a NDIRECT]} ∪ ({[bm]} ∪ L)).

Lemma size_add (x : Z) L : (size L <= size ({[x]} ∪ L) <= S (size L))%nat.
Proof using. clear Hly.
  split; [apply subseteq_size; set_solver|]. rewrite size_union_alt, size_singleton.
  assert (size (L ∖ {[x]}) <= size L)%nat; [apply subseteq_size; set_solver|lia].
Qed.
Lemma size_mono (L1 L2 : gset Z) : L1 ⊆ L2 -> (size L1 <= size L2)%nat.
Proof using. clear Hly. apply subseteq_size. Qed.
Lemma weight_bm L a : (size ({[bm]} ∪ L) <= weight L a)%nat.
Proof using. clear Hly. unfold weight. case_match; [lia|]. apply size_add. Qed.
Lemma weight_add L a r : (weight ({[r]} ∪ L) a <= S (weight L a))%nat.
Proof using. clear Hly.
  unfold weight. case_match.
  - pose proof (size_add r ({[bm]} ∪ L)). replace ({[bm]} ∪ ({[r]} ∪ L)) with ({[r]} ∪ ({[bm]} ∪ L)) by set_solver. lia.
  - pose proof (size_add r ({[dir_addr a NDIRECT]} ∪ ({[bm]} ∪ L))).
    replace ({[dir_addr a NDIRECT]} ∪ ({[bm]} ∪ ({[r]} ∪ L))) with ({[r]} ∪ ({[dir_addr a NDIRECT]} ∪ ({[bm]} ∪ L))) by set_solver. lia.
Qed.
Lemma weight_bm_idem L a : weight ({[bm]} ∪ L) a = weight L a.
Proof using. clear Hly. unfold weight. by replace ({[bm]} ∪ ({[bm]} ∪ L)) with ({[bm]} ∪ L) by set_solver. Qed.

(** A block that exists is found without changing anything. *)
Lemma wp_bmap_get s p C V L ip bn Q : txn dev home cap s p C V ∅ L -> i_dev (ino s ip) = dev -> 0 <= bn < MAXFILE ->
  slot_block V (i_addrs (ino s ip)) (slot bn) <> 0 ->
  (forall s', same s s' -> txn dev home cap s' p C V ∅ L -> Q (slot_block V (i_addrs (ino s ip)) (slot bn)) (KSt [] s')) ->
  wp (bmap ip bn) (KSt [] s) Q.
Proof.
  intros Ht Hdev Hbn Hn HQ. unfold bmap. wstep. wstep. rewrite Hdev. unfold slot in *. unfold NDIRECT in *.
  destruct (Z.ltb_spec bn 12) as [Hlt|Hge].
  - wstep. wstep. unfold slot_block, NDIRECT in *. destruct (Z.leb_spec bn 12); [|lia].
    change (addr (ino s ip) bn) with (dir_addr (i_addrs (ino s ip)) bn). destruct (Z.eqb_spec (dir_addr (i_addrs (ino s ip)) bn) 0); [done|].
    wstep. apply HQ; [apply same_refl|done].
  - unfold MAXFILE, NDIRECT in Hbn. cbv zeta. destruct (Z.ltb_spec (bn - 12) NINDIRECT); [|lia]. unfold slot_block, NDIRECT in *.
    destruct (Z.leb_spec (bn + 1) 12); [lia|]. wstep. wstep.
    change (addr (ino s ip) 12) with (dir_addr (i_addrs (ino s ip)) 12). destruct (Z.eqb_spec (dir_addr (i_addrs (ino s ip)) 12) 0) as [|Hn0]; [done|].
    wstep. wstep. eapply wp_look; [exact Ht|done|by rewrite map_size_empty; lia|]. intros b s1 Hs1 Ht1.
    replace (4 * (bn + 1 - 13)) with (4 * (bn - 12)) in * by lia.
    destruct (Z.eqb_spec (ld32 (V (dir_addr (i_addrs (ino s ip)) 12)) (4 * (bn - 12))) 0); [done|].
    wstep. wstep. wstep. eapply wp_fs_release; [exact Ht1|done|]. intros s2 Hs2 Ht2. wstep. apply HQ; [by eapply same_trans|done].
Qed.

(** balloc as bmap calls it: at most the indirect block [x] is held. *)
Lemma wp_balloc_held s p C V H L F Q : txn dev home cap s p C V H L -> fs_sb s = sb -> wf sb V F ->
  H = ∅ \/ (exists i a b, F !! i = Some a /\ dir_addr a NDIRECT <> 0 /\ H = {[dir_addr a NDIRECT := b]}) ->
  (0 < nfree sb V)%nat -> (size ({[bm]} ∪ L) < cap)%nat ->
  (forall r s', same s s' -> data_block sb r -> ~ used sb V r ->
     txn dev home cap s' p C (alloc_view sb V r) H ({[r]} ∪ ({[bm]} ∪ L)) -> Q r (KSt [] s')) ->
  wp (balloc dev) (KSt [] s) Q.
Proof using Hly.
  intros Ht Hsb Hwf HH Hfree Hcap HQ.
  assert (H !! bm = None /\ (forall b, is_Some (H !! b) -> used sb V b) /\ (size H < 3)%nat) as (H1 & H2 & H3).
  { destruct HH as [->|(i & a & b & Hi & Hn & ->)].
    - split_and!; [done| |rewrite map_size_empty; lia]. intros b [x Hx]. by rewrite lookup_empty in Hx.
    - destruct (wf_data _ _ _ Hwf i a NDIRECT Hi) as [Hd Hu]; [done|done|]. cbn in Hd, Hu. pose proof (data_range home sb Hly _ Hd).
      split_and!; [rewrite lookup_singleton_ne; [done|unfold NDIRECT in *; lia]| |rewrite map_size_singleton; lia].
      intros c [x Hx]. apply lookup_singleton_Some in Hx as [<- _]. done. }
  eapply (wp_balloc dev home cap sb Hly); [exact Ht|done|done|done|done|apply (wf_meta _ _ _ Hwf)|by apply (nfree_some home)|done|done].
Qed.

Lemma wp_bmap_direct s p C V L F ip i k Q (a := i_addrs (ino s ip)) :
  txn dev home cap s p C V ∅ L -> fs_sb s = sb -> wf sb V F -> F !! i = Some a -> 0 <= k <= NDIRECT -> dir_addr a k = 0 ->
  (0 < nfree sb V)%nat -> (size ({[bm]} ∪ L) < cap)%nat ->
  (forall r s' V' a', moved ip a' s s' -> grew sb V a V' a' k r -> txn dev home cap s' p C V' ∅ ({[r]} ∪ ({[bm]} ∪ L)) ->
     i_addrs (ino s' ip) = a' -> i_dev (ino s' ip) = i_dev (ino s ip) -> Q r (KSt [] s')) ->
  wp (a ← balloc dev; modify (upd_ino ip (fun x => Fs.set_id (set_daddr k a (i_d x)) x)) ;; mret a) (KSt [] s) Q.
Proof using Hly.
  intros Ht Hsb Hwf Hi Hk H0 Hfree Hcap HQ. wstep. eapply wp_balloc_held; [exact Ht|done|done|by left|done|done|].
  intros r s1 Hs1 Hd Hu Ht1. wstep. wstep. wstep. pose proof Hs1 as Es. unfold same in Es.
  pose proof (moved_upd ip k r s1) as Hm. assert (i_addrs (ino s1 ip) = a) as Ea by (by rewrite Es). rewrite Ea in Hm.
  eapply HQ; [by eapply moved_then|by eapply grew_direct| |by rewrite (mv_ino _ _ _ _ Hm)|rewrite (mv_ino _ _ _ _ Hm); by rewrite Es].
  destruct Ht1 as [T1 T2]. by split.
Qed.

(** bmap once the indirect block [dir_addr a NDIRECT] is there. *)
Lemma wp_bmap_entry p C i bn s1 V1 L1 a1 F1 Q1 : NDIRECT <= bn < MAXFILE -> txn dev home cap s1 p C V1 ∅ L1 -> fs_sb s1 = sb ->
  wf sb V1 F1 -> F1 !! i = Some a1 ->
  dir_addr a1 NDIRECT <> 0 -> slot_block V1 a1 (slot bn) = 0 -> (0 < nfree sb V1)%nat -> (size ({[bm]} ∪ L1) < cap)%nat ->
  (size ({[dir_addr a1 NDIRECT]} ∪ ({[bm]} ∪ L1)) < cap)%nat ->
  (forall r s2 V2, same s1 s2 -> grew sb V1 a1 V2 a1 (slot bn) r ->
    txn dev home cap s2 p C V2 ∅ ({[dir_addr a1 NDIRECT]} ∪ ({[r]} ∪ ({[bm]} ∪ L1))) -> Q1 r (KSt [] s2)) ->
  wp (bp ← bread dev (dir_addr a1 NDIRECT); x ← bdata bp;
      a ← (if ld32 x (4 * (bn - NDIRECT)) =? 0 then
             a ← balloc dev; bput bp (st32 x (4 * (bn - NDIRECT)) a) ;; log_write bp ;; mret a
           else mret (ld32 x (4 * (bn - NDIRECT)))); brelse bp ;; mret a) (KSt [] s1) Q1.
Proof using Hly.
  intros Hbn. assert (slot bn = bn + 1) as Es by (unfold slot; destruct (Z.ltb_spec bn NDIRECT); [lia|done]). unfold MAXFILE in Hbn.
  intros Ht1 Hsb1 Hwf1 Hi1 Hn E01 Hf1 Hc1 Hc1' HQ1. destruct (wf_data _ _ _ Hwf1 i a1 NDIRECT Hi1) as [Hd Hu]; [done|done|].
  cbn in Hd, Hu. change (if 12 <=? 12 then dir_addr a1 12 else 0) with (dir_addr a1 NDIRECT) in Hd.
  eapply wp_look; [exact Ht1|done|rewrite map_size_empty; lia|]. intros b s2 Hs2 Ht2.
  assert (ld32 (V1 (dir_addr a1 NDIRECT)) (4 * (bn - NDIRECT)) = 0) as ->.
  { rewrite Es in E01. unfold slot_block in E01. destruct (Z.leb_spec (bn + 1) NDIRECT); [lia|].
    destruct (Z.eqb_spec (dir_addr a1 NDIRECT) 0); [done|]. unfold NDIRECT in *. by replace (4 * (bn + 1 - 13)) with (4 * (bn - 12)) in E01 by lia. }
  change (0 =? 0) with true. cbv iota. wstep. wstep. assert (fs_sb s2 = sb) as Hsb2 by (unfold same in Hs2; by rewrite Hs2).
  eapply wp_balloc_held; [exact Ht2|done|exact Hwf1|right; exists i, a1, b; done|done|done|]. intros r s3 Hs3 Hdr Hur Ht3.
  assert (dir_addr a1 NDIRECT <> r) as Hne by (intros E; rewrite <- E in Hur; done).
  pose proof (data_range home sb Hly _ Hd) as (_ & Hnbm & _).
  wstep. eapply wp_bput; [apply Ht3|by rewrite lookup_insert_eq|]. intros s4 Hs4 Hi4. wstep.
  eapply wp_log; [exact Hi4|by rewrite lookup_insert_eq|by eapply (data_home home)| |].
  { replace ({[dir_addr a1 NDIRECT]} ∪ ({[r]} ∪ ({[bm]} ∪ L1))) with ({[r]} ∪ ({[dir_addr a1 NDIRECT]} ∪ ({[bm]} ∪ L1))) by set_solver.
    pose proof (size_add r ({[dir_addr a1 NDIRECT]} ∪ ({[bm]} ∪ L1))). lia. }
  intros s5 Hs5 Hi5. wstep. wstep. eapply (wp_fs_release dev home cap _ p C _ ∅ _ (dir_addr a1 NDIRECT) b); [split; [exact Hi5|]|done|].
  { intros c Hc'. rewrite fupd_ne by set_solver. apply Ht3. set_solver. }
  intros s6 Hs6 Ht6. wstep. eapply HQ1; [repeat (eapply same_trans; [eassumption|]); apply same_refl| |exact Ht6].
  replace (4 * (bn - NDIRECT)) with (4 * (slot bn - 13)) by (rewrite Es; unfold NDIRECT; lia).
  eapply (grew_entry home); try done. rewrite Es. unfold NSLOTS, NDIRECT, NINDIRECT, BSIZE in *. change (1024 / 4) with 256 in *. lia.
Qed.

Lemma wp_bmap s p C V L F ip i bn Q (a := i_addrs (ino s ip)) :
  txn dev home cap s p C V ∅ L -> fs_sb s = sb -> wf sb V F -> i_dev (ino s ip) = dev -> F !! i = Some a -> 0 <= bn < MAXFILE ->
  (slot_block V a (slot bn) = 0 -> (need a < nfree sb V)%nat) -> (weight L a < cap)%nat ->
  (forall r s' V' L' a', moved ip a' s s' -> mapped sb V F i a V' a' bn r -> L ⊆ L' ->
     (weight ({[r]} ∪ L') a' <= S (weight L a))%nat -> txn dev home cap s' p C V' ∅ L' -> Q r (KSt [] s')) ->
  wp (bmap ip bn) (KSt [] s) Q.
Proof using Hly.
  intros Ht Hsb Hwf Hdev Hi Hbn Hfree Hcap HQ. destruct (slot_ok bn Hbn) as [Hsl Hsl2]. pose proof (weight_bm L a) as Hwb.
  destruct (decide (slot_block V a (slot bn) = 0)) as [E0|E0].
  2: { eapply wp_bmap_get; [exact Ht|done|done|exact E0|]. intros s1 Hs1 Ht1.
       eapply HQ; [by apply moved_same|by apply mapped_same|done|apply weight_add|done]. }
  specialize (Hfree E0). unfold bmap. wstep. wstep. rewrite Hdev.
  destruct (Z.ltb_spec bn NDIRECT) as [Hlt|Hge].
  { assert (slot bn = bn) as Es by (unfold slot; destruct (Z.ltb_spec bn NDIRECT); [done|lia]).
    assert (dir_addr a bn = 0) as Ed by (rewrite Es in E0; unfold slot_block in E0; destruct (Z.leb_spec bn NDIRECT); [done|lia]).
    wstep. wstep. change (addr (ino s ip) bn) with (dir_addr a bn). rewrite Ed. change (0 =? 0) with true. cbv iota.
    eapply wp_bmap_direct; [exact Ht|done|exact Hwf|exact Hi|lia|exact Ed|lia|lia|].
    intros r s1 V1 a1 Hm G Ht1 _ _. refine (HQ r s1 V1 _ a1 Hm _ _ _ Ht1); [|set_solver|].
    - eapply mapped_one; [exact Hly|done|done|done|]. by rewrite Es.
    - pose proof (grew_indirect _ _ _ _ _ _ _ G ltac:(lia)) as Ei. unfold weight in *. rewrite Ei.
      replace ({[r]} ∪ ({[r]} ∪ ({[bm]} ∪ L))) with ({[r]} ∪ ({[bm]} ∪ L)) by set_solver.
      pose proof (weight_add ({[bm]} ∪ L) a r) as Hw. rewrite weight_bm_idem in Hw. unfold weight in Hw. exact Hw. }
  assert (slot bn = bn + 1) as Es by (unfold slot; destruct (Z.ltb_spec bn NDIRECT); [lia|done]). unfold MAXFILE in Hbn. cbv zeta.
  destruct (Z.ltb_spec (bn - NDIRECT) NINDIRECT); [|lia]. wstep. wstep. change (addr (ino s ip) NDIRECT) with (dir_addr a NDIRECT).
  destruct (Z.eqb_spec (dir_addr a NDIRECT) 0) as [Ez|Ez].
  - wstep. assert (weight L a = S (size ({[bm]} ∪ L))) as Ew by (unfold weight; by rewrite Ez).
    assert (need a = 1%nat) as En by (unfold need; by rewrite Ez).
    eapply wp_bmap_direct; [exact Ht|done|exact Hwf|exact Hi|unfold NDIRECT; lia|exact Ez|lia|lia|].
    intros r1 s1 V1 a1 Hm G1 Ht1 Ea1 Ed1. pose proof (gr_slot _ _ _ _ _ _ _ G1) as Er1. change (dir_addr a1 NDIRECT = r1) in Er1.
    pose proof (data_range home sb Hly _ (gr_data _ _ _ _ _ _ _ G1)) as (Hr1 & _ & _). rewrite <- Er1.
    assert (size ({[bm]} ∪ ({[r1]} ∪ ({[bm]} ∪ L))) <= S (size ({[bm]} ∪ L)))%nat as Hsz.
    { replace ({[bm]} ∪ ({[r1]} ∪ ({[bm]} ∪ L))) with ({[r1]} ∪ ({[bm]} ∪ L)) by set_solver. apply size_add. }
    eapply (wp_bmap_entry p C i bn s1 V1 _ a1 (<[i := a1]> F)); [unfold MAXFILE; lia|exact Ht1|rewrite (mv_sb _ _ _ _ Hm); done|by eapply grew_wf|by rewrite lookup_insert_eq|lia| | |lia| |].
    + rewrite (gr_slots _ _ _ _ _ _ _ G1) by done. done.
    + rewrite (grew_nfree home sb Hly _ _ _ _ _ _ G1) in Hfree. lia.
    + rewrite Er1. replace ({[r1]} ∪ ({[bm]} ∪ ({[r1]} ∪ ({[bm]} ∪ L)))) with ({[bm]} ∪ ({[r1]} ∪ ({[bm]} ∪ L))) by set_solver. lia.
    + intros r s2 V2 Hs2 G2 Ht2. rewrite Er1 in Ht2. refine (HQ r s2 V2 _ a1 _ _ _ _ Ht2); [by eapply moved_same_r| |set_solver|].
      * eapply mapped_two; [exact Hly|done|done|unfold MAXFILE; lia|done|lia|exact G1|exact G2].
      * rewrite Ew. unfold weight. rewrite Er1. destruct (Z.eqb_spec r1 0); [lia|].
        replace ({[r1]} ∪ ({[bm]} ∪ ({[r]} ∪ ({[r1]} ∪ ({[r]} ∪ ({[bm]} ∪ ({[r1]} ∪ ({[bm]} ∪ L)))))))) with ({[r]} ∪ ({[r1]} ∪ ({[bm]} ∪ L))) by set_solver.
        pose proof (size_add r ({[r1]} ∪ ({[bm]} ∪ L))). pose proof (size_add r1 ({[bm]} ∪ L)). lia.
  - wstep. wstep. assert (weight L a = size ({[dir_addr a NDIRECT]} ∪ ({[bm]} ∪ L))) as Ew.
    { unfold weight. destruct (Z.eqb_spec (dir_addr a NDIRECT) 0); [done|done]. }
    eapply (wp_bmap_entry p C i bn s V L a F); [unfold MAXFILE; lia|done|done|done|done|done|done|unfold need in Hfree; lia|lia|lia|]. intros r s2 V2 Hs2 G2 Ht2.
    refine (HQ r s2 V2 _ a _ _ _ _ Ht2); [by apply moved_same| |set_solver|].
    + eapply mapped_one; [exact Hly|done|done|unfold MAXFILE; lia|done].
    + unfold weight. destruct (Z.eqb_spec (dir_addr a NDIRECT) 0); [done|].
      replace ({[dir_addr a NDIRECT]} ∪ ({[bm]} ∪ ({[r]} ∪ ({[dir_addr a NDIRECT]} ∪ ({[r]} ∪ ({[bm]} ∪ L))))))
        with ({[r]} ∪ ({[dir_addr a NDIRECT]} ∪ ({[bm]} ∪ L))) by set_solver. apply size_add.
Qed.
End Bmap.
