(* ===== verification/FsFile.v ===== *)
(** * Contents of files and inodes on disk *)
From S2P Require Import Prelude Mem Sleeplock Fs FsSpec FsAlloc FsWf FsBmap.

(** The byte at offset [o]; a block that was never allocated reads as zero. *)
Definition content (V : Z -> block) (a : list Z) (o : Z) : Z :=
  let b := slot_block V a (slot (o / BSIZE)) in if b =? 0 then 0 else rd (V b) (o mod BSIZE).
Definition file_bytes (V : Z -> block) (a : list Z) (off n : Z) : list Z := content V a <$> seqZ off n.
Definition in_file (o : Z) : Prop := 0 <= o < MAXFILE * BSIZE.
(** Every block below the size is there. *)
Definition no_holes (V : Z -> block) (a : list Z) (size : Z) : Prop :=
  forall bn, 0 <= bn < MAXFILE -> bn * BSIZE < size -> slot_block V a (slot bn) <> 0.

Lemma in_file_block o : in_file o -> 0 <= o / BSIZE < MAXFILE.
Proof. unfold in_file, BSIZE. intros H. split; [apply Z.div_pos; lia|apply Z.div_lt_upper_bound; lia]. Qed.
Lemma in_file_mod o : 0 <= o mod BSIZE < BSIZE.
Proof. apply Z.mod_pos_bound. done. Qed.

Section File.
Context (home : Z -> Prop) (sb : superblock) (Hly : layout home sb).
Implicit Types (V : Z -> block) (a c : list Z) (F : gmap Z (list Z)).

(** bmap does not change the contents of any file. *)
Lemma mapped_content V F i a V' a' bn r o : wf sb V F -> F !! i = Some a -> mapped sb V F i a V' a' bn r -> 0 <= bn < MAXFILE ->
  in_file o -> content V' a' o = content V a o.
Proof using Hly.
  intros Hwf Hi M Hbn Ho. destruct (slot_ok _ (in_file_block o Ho)) as [Hs Hne]. unfold content.
  destruct (decide (slot (o / BSIZE) = slot bn)) as [E|E].
  - rewrite E, (mp_slot _ _ _ _ _ _ _ _ _ M). pose proof (data_range home sb Hly r (mp_data _ _ _ _ _ _ _ _ _ M)).
    destruct (Z.eqb_spec r 0); [lia|]. destruct (Z.eqb_spec (slot_block V a (slot bn)) 0) as [E0|E0].
    + apply (mp_new _ _ _ _ _ _ _ _ _ M E0). apply in_file_mod.
    + rewrite (mp_old _ _ _ _ _ _ _ _ _ M E0). pose proof (mp_keep _ _ _ _ _ _ _ _ _ M i a (slot bn) Hi) as K.
      rewrite (mp_old _ _ _ _ _ _ _ _ _ M E0) in K. rewrite K; [done|by rewrite <- E|by rewrite <- E|done].
  - rewrite (mp_slots _ _ _ _ _ _ _ _ _ M) by done. destruct (Z.eqb_spec (slot_block V a (slot (o / BSIZE))) 0) as [|E0]; [done|].
    by rewrite (mp_keep _ _ _ _ _ _ _ _ _ M i a).
Qed.
Lemma mapped_content_other V F i a V' a' bn r j c o : mapped sb V F i a V' a' bn r -> F !! j = Some c -> j <> i ->
  in_file o -> content V' c o = content V c o.
Proof.
  intros M Hj Hji Ho. destruct (slot_ok _ (in_file_block o Ho)) as [Hs Hne]. unfold content.
  rewrite (mp_others _ _ _ _ _ _ _ _ _ M j c) by done. destruct (Z.eqb_spec (slot_block V c (slot (o / BSIZE))) 0) as [|E0]; [done|].
  by rewrite (mp_keep _ _ _ _ _ _ _ _ _ M j c).
Qed.
Lemma mapped_present V F i a V' a' bn r k : mapped sb V F i a V' a' bn r -> is_slot k -> k <> NDIRECT ->
  slot_block V a k <> 0 -> slot_block V' a' k <> 0.
Proof.
  intros M Hk Hne Hn. destruct (decide (k = slot bn)) as [->|E].
  - rewrite (mp_slot _ _ _ _ _ _ _ _ _ M). by rewrite <- (mp_old _ _ _ _ _ _ _ _ _ M).
  - by rewrite (mp_slots _ _ _ _ _ _ _ _ _ M).
Qed.

(** ** A change to one block that is not part of the free map *)

Section Change.
Context V F b (x : block) (Hwf : wf sb V F) (Hb : b <> sb_bmapstart sb)
  (Hind : forall j c, F !! j = Some c -> dir_addr c NDIRECT <> 0 -> dir_addr c NDIRECT <> b).
Lemma change_slot j c k : F !! j = Some c -> slot_block (fupd V b x) c k = slot_block V c k.
Proof using Hind.
  intros Hj. unfold slot_block. destruct (k <=? NDIRECT); [done|]. destruct (Z.eqb_spec (dir_addr c NDIRECT) 0) as [|Hn]; [done|].
  rewrite fupd_ne; [done|]. by apply (Hind j).
Qed.
Lemma change_used y : used sb (fupd V b x) y <-> used sb V y.
Proof using Hb. unfold used. by rewrite fupd_ne. Qed.
Lemma change_wf : wf sb (fupd V b x) F.
Proof using Hwf Hb Hind.
  split.
  - intros c Hc. apply change_used. by apply (wf_meta _ _ _ Hwf).
  - apply (wf_len _ _ _ Hwf).
  - intros j c k Hj Hk. rewrite (change_slot j) by done. rewrite change_used. by apply (wf_data _ _ _ Hwf j).
  - intros j c k j' c' k' Hj Hj' Hk Hk'. rewrite (change_slot j), (change_slot j') by done. by apply (wf_inj _ _ _ Hwf).
Qed.
Lemma change_content j c o : F !! j = Some c -> (slot_block V c (slot (o / BSIZE)) = b -> b = 0) -> content (fupd V b x) c o = content V c o.
Proof using Hind.
  intros Hj Hn. unfold content. rewrite (change_slot j) by done. destruct (Z.eqb_spec (slot_block V c (slot (o / BSIZE))) 0) as [|Hz]; [done|].
  rewrite fupd_ne; [done|]. intros E. apply Hn in E as E0. congruence.
Qed.
Lemma change_nfree : nfree sb (fupd V b x) = nfree sb V.
Proof using Hb.
  unfold nfree. f_equal. induction (seqZ (datastart sb) (sb_size sb - datastart sb)) as [|y l IH]; [done|]. rewrite !filter_cons, IH.
  destruct (decide (~ used sb V y)) as [Hy|Hy], (decide (~ used sb (fupd V b x) y)) as [Hy'|Hy']; rewrite change_used in Hy'; done.
Qed.
End Change.

(** The blocks of the super block, the log and the inodes belong to no file. *)
Lemma meta_not_indirect V F b : wf sb V F -> 0 <= b < datastart sb -> forall j c, F !! j = Some c -> dir_addr c NDIRECT <> 0 -> dir_addr c NDIRECT <> b.
Proof. intros Hwf Hb j c Hj Hn E. destruct (wf_data _ _ _ Hwf j c NDIRECT Hj) as [[Hd _] _]; [done|done|]. cbn in Hd. unfold NDIRECT in *. rewrite E in Hd. lia. Qed.
Lemma meta_content V F b x j c o : wf sb V F -> 0 <= b < datastart sb -> F !! j = Some c -> in_file o ->
  content (fupd V b x) c o = content V c o.
Proof.
  intros Hwf Hb Hj Ho. destruct (slot_ok _ (in_file_block o Ho)) as [Hs Hne]. apply (change_content V F b x) with (j := j); [by apply (meta_not_indirect V)|done|].
  intros E. destruct (decide (b = 0)) as [|Hn]; [done|]. destruct (wf_data _ _ _ Hwf j c _ Hj Hs) as [[Hd _] _]; [by rewrite E|]. rewrite E in Hd. lia.
Qed.

(** Data blocks of files are not indirect blocks. *)
Lemma data_not_indirect V F i a k : wf sb V F -> F !! i = Some a -> is_slot k -> k <> NDIRECT -> slot_block V a k <> 0 ->
  forall j c, F !! j = Some c -> dir_addr c NDIRECT <> 0 -> dir_addr c NDIRECT <> slot_block V a k.
Proof.
  intros Hwf Hi Hk Hne Hn j c Hj Hc E. symmetry in E. change (dir_addr c NDIRECT) with (slot_block V c NDIRECT) in E.
  destruct (wf_inj _ _ _ Hwf i a k j c NDIRECT) as [_ ?]; done.
Qed.

(** ** Storing bytes into a block of a file *)

Section Store.
Context V F i a bn off (l : list Z) (Hwf : wf sb V F) (Hi : F !! i = Some a) (Hbn : 0 <= bn < MAXFILE) (Hn : slot_block V a (slot bn) <> 0)
  (Hoff : 0 <= off) (Hlen : off + Z.of_nat (length l) <= BSIZE).
Abbreviation r := (slot_block V a (slot bn)).
Abbreviation V' := (fupd V r (store_bytes (V r) off l)).

Lemma store_wf : wf sb V' F.
Proof using Hly Hwf Hi Hbn Hn.
  destruct (slot_ok bn Hbn) as [Hs Hne]. destruct (wf_data _ _ _ Hwf i a _ Hi Hs Hn) as [Hd _]. pose proof (data_range home sb Hly _ Hd).
  apply change_wf; [done|lia|by eapply data_not_indirect].
Qed.
Lemma store_slot j c k : F !! j = Some c -> slot_block V' c k = slot_block V c k.
Proof using Hly Hwf Hi Hbn Hn. destruct (slot_ok bn Hbn) as [Hs Hne]. intros Hj. apply (change_slot V F) with (j := j); [by eapply data_not_indirect|done]. Qed.
Lemma store_content_other j c o : F !! j = Some c -> j <> i -> in_file o -> content V' c o = content V c o.
Proof using Hly Hwf Hi Hbn Hn.
  intros Hj Hji Ho. destruct (slot_ok bn Hbn) as [Hs Hne]. destruct (slot_ok _ (in_file_block o Ho)) as [Hs' _].
  apply (change_content V F) with (j := j); [by eapply data_not_indirect|done|].
  intros E. symmetry in E. destruct (wf_inj _ _ _ Hwf i a (slot bn) j c (slot (o / BSIZE))) as [? _]; done || congruence.
Qed.
Lemma store_content o : Forall is_byte l -> in_file o -> content V' a o =
  if bool_decide (bn * BSIZE + off <= o < bn * BSIZE + off + Z.of_nat (length l)) then default 0 (l !! Z.to_nat (o - (bn * BSIZE + off))) else content V a o.
Proof using Hly Hwf Hi Hbn Hn Hoff Hlen.
  intros Hl Ho. destruct (slot_ok bn Hbn) as [Hs Hne]. destruct (slot_ok _ (in_file_block o Ho)) as [Hs' _].
  pose proof (Z.div_mod o BSIZE ltac:(done)) as Ediv. pose proof (in_file_mod o) as Hmod. unfold BSIZE in *.
  destruct (decide (o / 1024 = bn)) as [E|E].
  - unfold content. rewrite (store_slot i a) by done. unfold BSIZE. rewrite E. destruct (Z.eqb_spec r 0); [done|]. rewrite fupd_eq.
    case_bool_decide as Hin.
    + pose proof (bytes_store_bytes l (V r) off Hl) as Hb. apply (f_equal (fun m => m !! Z.to_nat (o - (bn * 1024 + off)))) in Hb.
      rewrite bytes_lookup in Hb by lia. rewrite <- Hb. cbn [default from_option]. unfold from_option, id. f_equal. lia.
    + apply rd_store_bytes_out. lia.
  - rewrite bool_decide_eq_false_2 by lia. apply (change_content V F) with (j := i); [by eapply data_not_indirect|done|].
    intros E'. exfalso. symmetry in E'. destruct (wf_inj _ _ _ Hwf i a (slot bn) i a (slot (o / 1024))) as [_ Es]; try done.
    apply slot_inj in Es. lia.
Qed.
End Store.
End File.
