(* ===== verification/FsInode.v ===== *)
(** * Inodes on disk: the layout of struct dinode, and iupdate *)
From S2P Require Import Prelude Mem Sleeplock Fs FsSpec FsAlloc FsWf FsBmap FsFile.

Record dinode_ok (d : dinode) : Prop := {
  do_type : - 2 ^ 15 <= d_type d < 2 ^ 15;
  do_major : - 2 ^ 15 <= d_major d < 2 ^ 15;
  do_minor : - 2 ^ 15 <= d_minor d < 2 ^ 15;
  do_nlink : - 2 ^ 15 <= d_nlink d < 2 ^ 15;
  do_size : 0 <= d_size d < 2 ^ 32;
  do_len : length (d_addrs d) = 13%nat;
  do_addrs : Forall (fun v => 0 <= v < 2 ^ 32) (d_addrs d);
}.

Lemma i16_u16 v : - 2 ^ 15 <= v < 2 ^ 15 -> i16 (u16 v) = v.
Proof. intros H. unfold i16, u16. rewrite Zplus_mod_idemp_l, Z.mod_small by lia. lia. Qed.
Lemma i16_range v : - 2 ^ 15 <= i16 v < 2 ^ 15.
Proof. unfold i16. pose proof (Z.mod_pos_bound (v + 2 ^ 15) (2 ^ 16) ltac:(lia)). lia. Qed.
Lemma rd_st16 x a v c : c < a \/ a + 2 <= c -> rd (st16 x a v) c = rd x c.
Proof. intros H. apply rd_le_store_other. cbn. lia. Qed.
Lemma rd_st32 x a v c : c < a \/ a + 4 <= c -> rd (st32 x a v) c = rd x c.
Proof. intros H. apply rd_le_store_other. cbn. lia. Qed.
Lemma rd_st_words l : forall x a c, c < a \/ a + 4 * Z.of_nat (length l) <= c -> rd (st_words x a l) c = rd x c.
Proof. induction l as [|v l IH]; intros x a c H; [done|]. cbn [st_words length] in *. rewrite IH, rd_st32 by lia. done. Qed.
Lemma ld16_ext x y a : (forall c, a <= c < a + 2 -> rd x c = rd y c) -> ld16 x a = ld16 y a.
Proof. intros H. unfold ld16. f_equal. apply le_load_ext. intros c Hc. apply H. cbn in Hc. lia. Qed.
Lemma ld32_ext x y a : (forall c, a <= c < a + 4 -> rd x c = rd y c) -> ld32 x a = ld32 y a.
Proof. intros H. apply le_load_ext. intros c Hc. apply H. cbn in Hc. lia. Qed.
Lemma ld16_st16 x a v : - 2 ^ 15 <= v < 2 ^ 15 -> ld16 (st16 x a v) a = v.
Proof. intros H. unfold ld16, st16. rewrite le_load_store by apply u16_range. by apply i16_u16. Qed.
Lemma ld16_range x a : - 2 ^ 15 <= ld16 x a < 2 ^ 15.
Proof. apply i16_range. Qed.

Lemma ld32_st_words l : forall x a i v, l !! i = Some v -> ld32 (st_words x a l) (a + 4 * Z.of_nat i) = u32 v.
Proof.
  induction l as [|w l IH]; intros x a i v Hi; [done|]. cbn [st_words]. destruct i as [|i]; cbn in Hi.
  - injection Hi as ->. rewrite (ld32_ext _ (st32 x a v)); [|intros c Hc; apply rd_st_words; lia].
    replace (a + 4 * Z.of_nat 0) with a by lia. apply ld32_st32_eq.
  - replace (a + 4 * Z.of_nat (S i)) with (a + 4 + 4 * Z.of_nat i) by lia. by apply IH.
Qed.
Lemma words_st_words l x a : Forall (fun v => 0 <= v < 2 ^ 32) l -> words (st_words x a l) a (length l) = l.
Proof.
  intros Hl. unfold words. apply list_eq. intros i. rewrite list_lookup_fmap. destruct (decide (i < length l)%nat) as [Hlt|Hge].
  - rewrite lookup_seqZ_lt by lia. cbn [fmap option_fmap option_map]. destruct (lookup_lt_is_Some_2 l i Hlt) as [v Hv]. rewrite Hv. f_equal.
    rewrite Z.add_0_l, (ld32_st_words l x a i v Hv). apply u32_small. by eapply Forall_lookup_1 in Hl.
  - rewrite lookup_seqZ_ge by lia. cbn. symmetry. apply lookup_ge_None. lia.
Qed.
Lemma words_ext x y a n : (forall c, a <= c < a + 4 * Z.of_nat n -> rd x c = rd y c) -> words x a n = words y a n.
Proof.
  intros H. unfold words. apply list_fmap_ext. intros i j Hj. apply lookup_seqZ in Hj as [-> Hi]. apply ld32_ext. intros c Hc. apply H. lia.
Qed.
Lemma length_words x a n : length (words x a n) = n.
Proof. unfold words. rewrite length_fmap, length_seqZ. lia. Qed.
Lemma ld_dinode_ok x a : dinode_ok (ld_dinode x a).
Proof.
  split; cbn; try apply ld16_range; [apply ld32_range|apply length_words|]. apply Forall_fmap, Forall_forall. intros i _. apply ld32_range.
Qed.

Lemma rd_st_dinode x a d c : length (d_addrs d) = 13%nat -> c < a \/ a + 64 <= c -> rd (st_dinode x a d) c = rd x c.
Proof.
  intros Hl H. unfold st_dinode. rewrite rd_st_words by (rewrite Hl; lia). rewrite rd_st32, !rd_st16 by lia. done.
Qed.
Lemma ld_dinode_ext x y a : (forall c, a <= c < a + 64 -> rd x c = rd y c) -> ld_dinode x a = ld_dinode y a.
Proof.
  intros H. unfold ld_dinode. f_equal.
  1-4: apply ld16_ext; intros c Hc; apply H; lia.
  - apply ld32_ext. intros c Hc. apply H. lia.
  - apply words_ext. intros c Hc. apply H. lia.
Qed.
Lemma ld_st_dinode x a d : dinode_ok d -> ld_dinode (st_dinode x a d) a = d.
Proof.
  intros [H1 H2 H3 H4 H5 H6 H7]. unfold ld_dinode, st_dinode. destruct d as [ty ma mi nl sz ad]. cbn [d_type d_major d_minor d_nlink d_size d_addrs] in *.
  assert (forall y c, c < a + 12 -> rd (st_words y (a + 12) ad) c = rd y c) as Hw by (intros y c Hc; apply rd_st_words; lia).
  f_equal.
  - rewrite (ld16_ext _ (st16 x a ty)); [by apply ld16_st16|]. intros c Hc. rewrite Hw, rd_st32, !rd_st16 by lia. done.
  - erewrite ld16_ext; [apply (ld16_st16 (st16 x a ty) (a + 2)); done|]. intros c Hc. rewrite Hw, rd_st32 by lia. rewrite rd_st16, rd_st16 by lia. done.
  - erewrite ld16_ext; [apply (ld16_st16 (st16 (st16 x a ty) (a + 2) ma) (a + 4)); done|]. intros c Hc. rewrite Hw, rd_st32 by lia. rewrite rd_st16 by lia. done.
  - erewrite ld16_ext; [apply (ld16_st16 (st16 (st16 (st16 x a ty) (a + 2) ma) (a + 4) mi) (a + 6)); done|]. intros c Hc. rewrite Hw, rd_st32 by lia. done.
  - erewrite ld32_ext; [rewrite ld32_st32_eq; by apply u32_small|]. intros c Hc. by apply Hw; lia.
  - rewrite <- H6. by apply words_st_words.
Qed.

(** ** The inodes of a disk *)

Definition dinode_of (sb : superblock) (V : Z -> block) (inum : Z) : dinode := ld_dinode (V (IBLOCK inum sb)) (dip_of inum).
Definition is_inum (sb : superblock) (inum : Z) : Prop := 0 < inum < sb_ninodes sb.

Section Inode.
Context (home : Z -> Prop) (sb : superblock) (Hly : layout home sb).
Implicit Types (V : Z -> block).

Lemma iblock_range i : is_inum sb i -> sb_inodestart sb <= IBLOCK i sb < sb_bmapstart sb.
Proof using Hly.
  intros [H1 H2]. destruct Hly as [_ _ H3 H4 _ _]. unfold IBLOCK. change IPB with 16 in *.
  assert (0 <= i / 16) by (apply Z.div_pos; lia). assert (i / 16 <= sb_ninodes sb / 16) by (apply Z.div_le_mono; lia). lia.
Qed.
Lemma iblock_home i : is_inum sb i -> home (IBLOCK i sb).
Proof using Hly. intros Hi. pose proof (iblock_range i Hi). destruct Hly as [_ _ H3 H4 H5 H6]. apply H6. lia. Qed.
Lemma iblock_meta i : is_inum sb i -> 0 <= IBLOCK i sb < datastart sb /\ IBLOCK i sb <> sb_bmapstart sb.
Proof using Hly. intros Hi. pose proof (iblock_range i Hi). destruct Hly as [_ _ H3 H4 H5 H6]. unfold datastart. lia. Qed.

(** Storing one inode changes that inode only. *)
Lemma dinode_of_store V i d j : is_inum sb i -> is_inum sb j -> dinode_ok d ->
  dinode_of sb (fupd V (IBLOCK i sb) (st_dinode (V (IBLOCK i sb)) (dip_of i) d)) j = if decide (j = i) then d else dinode_of sb V j.
Proof.
  intros Hi Hj Hd. unfold dinode_of. destruct (decide (j = i)) as [->|Hne]; [rewrite fupd_eq; by apply ld_st_dinode|].
  destruct (decide (IBLOCK j sb = IBLOCK i sb)) as [E|E]; [|by rewrite fupd_ne]. rewrite E, fupd_eq. apply ld_dinode_ext.
  intros c Hc. apply rd_st_dinode; [apply Hd|]. unfold IBLOCK, dip_of, SIZEOF_DINODE in *. change IPB with 16 in *.
  pose proof (Z.div_mod i 16 ltac:(lia)). pose proof (Z.div_mod j 16 ltac:(lia)).
  assert (i mod 16 <> j mod 16) by (intros Em; apply Hne; lia). pose proof (Z.mod_pos_bound i 16). pose proof (Z.mod_pos_bound j 16). lia.
Qed.
Lemma dinode_of_data V b x j : is_inum sb j -> sb_bmapstart sb <= b -> dinode_of sb (fupd V b x) j = dinode_of sb V j.
Proof using Hly. intros Hj Hb. pose proof (iblock_range j Hj). unfold dinode_of. rewrite fupd_ne by lia. done. Qed.
End Inode.

Section Iupdate.
Context {B U : Type} `{!BlockOps B, !CopyOps U} (dev : Z) (home : Z -> Prop) (cap : nat) `{!BlockLaws B dev home cap}.
Context (sb : superblock) (Hly : layout home sb).
Abbreviation fs := (@fs B U).
Implicit Types (s : fs) (p : Z) (C V : Z -> block) (H : gmap Z Z) (L : gset Z).

Definition update_view V (i : Z) (d : dinode) : Z -> block := fupd V (IBLOCK i sb) (st_dinode (V (IBLOCK i sb)) (dip_of i) d).

Lemma wp_iupdate s p C V L ip Q : txn dev home cap s p C V ∅ L -> fs_sb s = sb -> i_dev (ino s ip) = dev -> is_inum sb (i_inum (ino s ip)) ->
  (size ({[IBLOCK (i_inum (ino s ip)) sb]} ∪ L) <= cap)%nat ->
  (forall s', same s s' -> txn dev home cap s' p C (update_view V (i_inum (ino s ip)) (i_d (ino s ip))) ∅ ({[IBLOCK (i_inum (ino s ip)) sb]} ∪ L) ->
     Q tt (KSt [] s')) ->
  wp (iupdate ip) (KSt [] s) Q.
Proof using Hly.
  intros Ht Hsb Hdev Hi Hcap HQ. unfold iupdate. wstep. wstep. wstep. wstep. rewrite Hdev, Hsb.
  eapply wp_look; [exact Ht|done|rewrite map_size_empty; lia|]. intros b s1 Hs1 Ht1. wstep.
  eapply wp_bput; [apply Ht1|by rewrite lookup_insert_eq|]. intros s2 Hs2 Hi2. wstep.
  eapply wp_log; [exact Hi2|by rewrite lookup_insert_eq|by eapply iblock_home|done|]. intros s3 Hs3 Hi3.
  eapply (wp_fs_release dev home cap _ p C _ ∅ _ (IBLOCK (i_inum (ino s ip)) sb) b); [split; [exact Hi3|]|done|].
  { intros c Hc'. rewrite fupd_ne by set_solver. apply Ht1. set_solver. }
  intros s4 Hs4 Ht4. apply HQ; [repeat (eapply same_trans; [eassumption|]); apply same_refl|exact Ht4].
Qed.
End Iupdate.
