(* ===== verification/FsRw.v ===== *)
(** * readi and writei *)
From S2P Require Import Prelude Mem Sleeplock Fs FsSpec FsAlloc FsWf FsBmap FsFile FsInode.

(** ** Bytes of files *)

Lemma length_file_bytes V a off n : length (file_bytes V a off n) = Z.to_nat n.
Proof. unfold file_bytes. by rewrite length_fmap, length_seqZ. Qed.
Lemma file_bytes_lookup V a off n i : 0 <= i < n -> file_bytes V a off n !! Z.to_nat i = Some (content V a (off + i)).
Proof. intros Hi. unfold file_bytes. rewrite list_lookup_fmap, lookup_seqZ_lt by lia. cbn. do 2 f_equal. lia. Qed.
Lemma file_bytes_app V a off m n : 0 <= m -> 0 <= n -> file_bytes V a off (m + n) = file_bytes V a off m ++ file_bytes V a (off + m) n.
Proof. intros Hm Hn. unfold file_bytes. rewrite seqZ_app by lia. apply fmap_app. Qed.
Lemma content_byte V a o : is_byte (content V a o).
Proof. unfold content, is_byte. case_match; [lia|]. apply rd_range. Qed.
Lemma file_bytes_bytes V a off n : Forall is_byte (file_bytes V a off n).
Proof. apply Forall_fmap, Forall_forall. intros o _. apply content_byte. Qed.

(** One chunk is inside one block. *)
Lemma chunk_bytes V a off m : 0 <= off -> 0 <= m -> off mod BSIZE + m <= BSIZE -> slot_block V a (slot (off / BSIZE)) <> 0 ->
  bytes (V (slot_block V a (slot (off / BSIZE)))) (off mod BSIZE) (Z.to_nat m) = file_bytes V a off m.
Proof.
  intros Ho Hm Hc Hn. apply list_eq. intros i. destruct (decide (i < Z.to_nat m)%nat) as [Hlt|Hge].
  - rewrite bytes_lookup by done. replace i with (Z.to_nat (Z.of_nat i)) at 2 by lia. rewrite file_bytes_lookup by lia. f_equal.
    unfold content. unfold BSIZE in *.
    assert ((off + Z.of_nat i) / 1024 = off / 1024 /\ (off + Z.of_nat i) mod 1024 = off mod 1024 + Z.of_nat i) as [-> ->] by dlia.
    by destruct (Z.eqb_spec (slot_block V a (slot (off / 1024))) 0).
  - rewrite !lookup_ge_None_2; [done| |]; rewrite ?length_bytes, ?length_file_bytes; lia.
Qed.

Lemma chunk_next n tot off fuel : 0 <= off -> tot < n -> n - tot + off mod BSIZE <= Z.of_nat (S fuel) * BSIZE ->
  let m := chunk n tot off in 0 < m <= n - tot /\ off mod BSIZE + m <= BSIZE /\
  (n - (tot + m) = 0 \/ n - (tot + m) + (off + m) mod BSIZE <= Z.of_nat fuel * BSIZE).
Proof.
  intros Ho Hlt Hf m. unfold m, chunk. pose proof (in_file_mod off) as Hm. unfold BSIZE in *.
  destruct (Z.min_spec (n - tot) (1024 - off mod 1024)) as [[H1 ->]|[H1 ->]]; [lia|]. split; [lia|]. split; [lia|]. right.
  assert ((off + (1024 - off mod 1024)) mod 1024 = 0) as -> by dlia. lia.
Qed.

(** ** The memory copied to *)

Section Copy.
Context {U : Type} `{!CopyOps U, !CopyLaws U}.
Definition wrote (u u' : U) (k : bool) (a : Z) (l : list Z) : Prop :=
  forall k2 i, view u' k2 i = if bool_decide (k2 = k /\ a <= i < a + Z.of_nat (length l)) then l !! Z.to_nat (i - a) else view u k2 i.
Definition mapped_range (u : U) (k : bool) (a n : Z) : Prop := forall i, a <= i < a + n -> is_Some (view u k i).
Lemma wrote_nil u k a : wrote u u k a [].
Proof. intros k2 i. rewrite bool_decide_eq_false_2; [done|]. cbn. lia. Qed.
Lemma wrote_app u u1 u2 k a l1 l2 : wrote u u1 k a l1 -> wrote u1 u2 k (a + Z.of_nat (length l1)) l2 -> wrote u u2 k a (l1 ++ l2).
Proof.
  intros H1 H2 k2 i. rewrite H2, H1, length_app, Nat2Z.inj_add. destruct (decide (k2 = k)) as [->|Hne]; [|by rewrite !bool_decide_eq_false_2 by naive_solver].
  destruct (decide (a <= i < a + Z.of_nat (length l1))) as [Hi|Hi].
  - rewrite bool_decide_eq_false_2 by (intros [_ ?]; lia). rewrite !bool_decide_eq_true_2 by (split; [done|lia]). by rewrite lookup_app_l by lia.
  - destruct (decide (a + Z.of_nat (length l1) <= i < a + Z.of_nat (length l1) + Z.of_nat (length l2))).
    + rewrite !bool_decide_eq_true_2 by (split; [done|lia]). rewrite lookup_app_r by lia. f_equal. lia.
    + by rewrite !bool_decide_eq_false_2 by (intros [_ ?]; lia).
Qed.
Lemma wrote_mapped u u' k a l k2 b n : wrote u u' k a l -> mapped_range u k2 b n -> mapped_range u' k2 b n.
Proof.
  intros Hw Hm i Hi. rewrite Hw. case_bool_decide as E; [|by apply Hm]. apply lookup_lt_is_Some. lia.
Qed.
End Copy.

Section Rw.
Context {B U : Type} `{!BlockOps B, !CopyOps U} (dev : Z) (home : Z -> Prop) (cap : nat) `{!BlockLaws B dev home cap, !CopyLaws U}.
Context (sb : superblock) (Hly : layout home sb).
Abbreviation fs := (@fs B U).
Abbreviation bm := (sb_bmapstart sb).
Implicit Types (s : fs) (p : Z) (C V : Z -> block) (H : gmap Z Z) (L : gset Z) (F : gmap Z (list Z)) (a : list Z).

(** Only the block layer and the memory changed. *)
Definition memrel s s' : Prop := s' = with_blk (fs_blk s') (with_mem (fs_mem s') s).
Lemma memrel_trans s1 s2 s3 : memrel s1 s2 -> memrel s2 s3 -> memrel s1 s3.
Proof. unfold memrel. intros -> ->. done. Qed.
Lemma memrel_same s1 s2 : same s1 s2 -> memrel s1 s2.
Proof. unfold same, memrel. intros ->. by destruct s1. Qed.
Lemma same_mem s1 s2 : same s1 s2 -> fs_mem s2 = fs_mem s1.
Proof. unfold same. by intros ->. Qed.
Lemma memrel_ino s1 s2 ip : memrel s1 s2 -> ino s2 ip = ino s1 ip.
Proof. unfold memrel. by intros ->. Qed.

Lemma wp_readi_loop p C V L ip a fuel : forall s k dst off n tot Q,
  txn dev home cap s p C V ∅ L -> i_dev (ino s ip) = dev -> i_addrs (ino s ip) = a ->
  0 <= off -> 0 <= tot <= n -> off + (n - tot) <= MAXFILE * BSIZE -> no_holes V a (off + (n - tot)) ->
  0 <= dst -> dst + (n - tot) < 2 ^ 64 -> mapped_range (fs_mem s) k dst (n - tot) ->
  n - tot = 0 \/ n - tot + off mod BSIZE <= Z.of_nat fuel * BSIZE ->
  (forall s', memrel s s' -> txn dev home cap s' p C V ∅ L -> wrote (fs_mem s) (fs_mem s') k dst (file_bytes V a off (n - tot)) -> Q n (KSt [] s')) ->
  wp (readi_loop fuel ip k dst off n tot) (KSt [] s) Q.
Proof.
  induction fuel as [|f IH]; intros s k dst off n tot Q Ht Hdev Ha Hoff Htot Hmax Hnh Hd Hd2 Hmap Hfuel HQ; cbn [readi_loop].
  { unfold BSIZE in *. assert (tot = n) as ->. { pose proof (Z.mod_pos_bound off 1024). lia. }
    rewrite Z.ltb_irrefl. wstep. apply HQ; [by apply memrel_same, same_refl|done|]. rewrite Z.sub_diag. apply wrote_nil. }
  destruct (Z.ltb_spec tot n) as [Hlt|Hge].
  2: { assert (tot = n) as -> by lia. wstep. apply HQ; [by apply memrel_same, same_refl|done|]. rewrite Z.sub_diag. apply wrote_nil. }
  destruct (chunk_next n tot off f Hoff Hlt ltac:(lia)) as (Hm & Hmb & Hnext). set (m := chunk n tot off) in *.
  assert (in_file off) as Hin by (unfold in_file; lia). pose proof (in_file_block off Hin) as Hbn.
  assert (slot_block V a (slot (off / BSIZE)) <> 0) as Hn0.
  { apply Hnh; [done|]. pose proof (Z.mul_div_le off BSIZE ltac:(done)). lia. }
  wstep. wstep. wstep. rewrite <- Ha in Hn0. eapply wp_bmap_get; [exact Ht|done|done|exact Hn0|]. intros s1 Hs1 Ht1. rewrite Ha in *. rewrite Hdev.
  eapply wp_look; [exact Ht1|done|rewrite map_size_empty; lia|]. intros b s2 Hs2 Ht2. cbv zeta. fold m. wstep. apply wp_onmem.
  rewrite chunk_bytes by (done || lia). rewrite (same_mem _ _ Hs2), (same_mem _ _ Hs1).
  eapply wp_mono; [apply law_out; [|apply file_bytes_bytes]|].
  { intros i Hi. rewrite length_file_bytes in Hi. apply Hmap. lia. }
  intros r [h u] (-> & Eh & Hw). cbn [held st] in *. subst h. wstep. change (0 =? -1) with false. cbv iota.
  eapply (wp_fs_release dev home cap _ p C V ∅ L _ b); [destruct Ht2 as [T1 T2]; by split|done|]. intros s3 Hs3 Ht3.
  assert (memrel s s3) as Hr3.
  { eapply memrel_trans; [by apply memrel_same|]. eapply memrel_trans; [by apply memrel_same|]. eapply (memrel_trans s2 (with_mem u s2)); [|by apply memrel_same].
    unfold memrel. by destruct s2. }
  assert (fs_mem s3 = u) as Eu by (by rewrite (same_mem _ _ Hs3)).
  assert (wrote (fs_mem s) u k dst (file_bytes V a off m)) as Hw1 by exact Hw.
  assert (MAXFILE * BSIZE < 2 ^ 32) as Hmf by done.
  rewrite (u64_small (dst + m)), (u32_small (off + m)) by lia.
  eapply IH; [exact Ht3|by rewrite (memrel_ino s s3)|by rewrite (memrel_ino s s3)|lia|lia|lia| |lia|lia| |exact Hnext|].
  - intros bn Hb Hb2. apply Hnh; [done|lia].
  - rewrite Eu. eapply wrote_mapped; [exact Hw1|]. intros i Hi. apply Hmap. lia.
  - intros s4 Hs4 Ht4 Hw4. apply HQ; [by eapply memrel_trans|done|]. rewrite Eu in Hw4.
    replace (n - tot) with (m + (n - (tot + m))) by lia. rewrite file_bytes_app by lia.
    eapply wrote_app; [exact Hw1|]. rewrite length_file_bytes, Z2Nat.id by lia. exact Hw4.
Qed.

(** The number of bytes readi returns. *)
Definition rd_count (size off n : Z) : Z := if (size <? off) || (2 ^ 32 <=? off + n) then 0 else Z.min n (size - off).
Lemma rd_count_range size off n : 0 <= off -> 0 <= n -> 0 <= size -> 0 <= rd_count size off n <= n /\ rd_count size off n <= size.
Proof. intros H1 H2 H3. unfold rd_count. zbool; lia. Qed.

Lemma wp_readi s p C V L ip k dst off n Q (a := i_addrs (ino s ip)) (size := i_size (ino s ip)) :
  txn dev home cap s p C V ∅ L -> i_dev (ino s ip) = dev ->
  0 <= off < 2 ^ 32 -> 0 <= n < 2 ^ 32 -> 0 <= size <= MAXFILE * BSIZE -> no_holes V a size ->
  0 <= dst -> dst + n < 2 ^ 64 -> mapped_range (fs_mem s) k dst n ->
  (forall s', memrel s s' -> txn dev home cap s' p C V ∅ L ->
     wrote (fs_mem s) (fs_mem s') k dst (file_bytes V a off (rd_count size off n)) -> Q (rd_count size off n) (KSt [] s')) ->
  wp (readi ip k dst off n) (KSt [] s) Q.
Proof.
  intros Ht Hdev Hoff Hn Hsz Hnh Hd Hd2 Hmap HQ. unfold readi. wstep. wstep. fold size.
  assert ((u32 (off + n) <? off) = (2 ^ 32 <=? off + n)) as ->.
  { unfold u32. destruct (Z.leb_spec (2 ^ 32) (off + n)).
    - apply Z.ltb_lt. assert ((off + n) mod 2 ^ 32 = off + n - 2 ^ 32) as -> by dlia. lia.
    - apply Z.ltb_ge. rewrite Z.mod_small by lia. lia. }
  unfold rd_count in HQ. destruct ((size <? off) || (2 ^ 32 <=? off + n)) eqn:E.
  { wstep. apply HQ; [by apply memrel_same, same_refl|done|apply wrote_nil]. }
  apply orb_false_iff in E as [E1 E2]. apply Z.ltb_ge in E1. apply Z.leb_gt in E2. rewrite u32_small by lia. cbv zeta.
  assert ((if size <? off + n then size - off else n) = Z.min n (size - off)) as -> by (destruct (Z.ltb_spec size (off + n)); lia).
  set (m := Z.min n (size - off)) in *. assert (0 <= m <= n /\ off + m <= size) as Hm by lia. clearbody m. wstep.
  eapply wp_readi_loop; [exact Ht|exact Hdev|reflexivity|lia|lia|lia| |lia|lia| | |]; rewrite ?Z.sub_0_r.
  - intros bn Hbn Hlt. apply Hnh; [done|]. lia.
  - intros i Hi. apply Hmap. lia.
  - right. unfold BSIZE. pose proof (Z.mod_pos_bound off 1024 ltac:(lia)). rewrite Z2Nat.id by (pose proof (Z.div_pos m 1024); lia). dlia.
  - intros s' Hs' Ht' Hw. wstep. assert (i32 m = m) as ->.
    { unfold i32. rewrite Z.mod_small; [lia|]. assert (MAXFILE * BSIZE < 2 ^ 31) by done. lia. }
    by apply HQ.
Qed.

(** ** Writing *)

(** [l] was stored at offset [off] of file [i], and no other file changed. *)
Record wrote_file V F (i : Z) a V' a' (off : Z) (l : list Z) : Prop := {
  wl_wf : wf sb V' (<[i := a']> F);
  wl_content : forall o, in_file o -> content V' a' o =
    if bool_decide (off <= o < off + Z.of_nat (length l)) then default 0 (l !! Z.to_nat (o - off)) else content V a o;
  wl_slots : forall j c k, F !! j = Some c -> j <> i -> is_slot k -> slot_block V' c k = slot_block V c k;
  wl_others : forall j c o, F !! j = Some c -> j <> i -> in_file o -> content V' c o = content V c o;
  wl_kept : forall k, is_slot k -> k <> NDIRECT -> slot_block V a k <> 0 -> slot_block V' a' k <> 0;
  wl_there : forall o, off <= o < off + Z.of_nat (length l) -> in_file o -> slot_block V' a' (slot (o / BSIZE)) <> 0;
  wl_meta : forall b, 0 <= b < datastart sb -> b <> bm -> V' b = V b;
}.
Lemma wrote_file_nil V F i a off : wf sb V F -> F !! i = Some a -> wrote_file V F i a V a off [].
Proof.
  intros Hwf Hi. split; try done.
  - by rewrite insert_id.
  - intros o Ho. rewrite bool_decide_eq_false_2; [done|cbn; lia].
  - intros o Ho. cbn in Ho. lia.
Qed.
Lemma wrote_file_app V F i a V1 a1 V2 a2 off l1 l2 : F !! i = Some a -> wrote_file V F i a V1 a1 off l1 ->
  wrote_file V1 (<[i := a1]> F) i a1 V2 a2 (off + Z.of_nat (length l1)) l2 -> wrote_file V F i a V2 a2 off (l1 ++ l2).
Proof.
  intros Hi W1 W2. assert (forall j c, F !! j = Some c -> j <> i -> <[i := a1]> F !! j = Some c) as HF by (intros; by rewrite lookup_insert_ne).
  split.
  - rewrite <- (insert_insert_eq F i a2 a1). apply (wl_wf _ _ _ _ _ _ _ _ W2).
  - intros o Ho. rewrite (wl_content _ _ _ _ _ _ _ _ W2), (wl_content _ _ _ _ _ _ _ _ W1), length_app, Nat2Z.inj_add by done.
    destruct (decide (off <= o < off + Z.of_nat (length l1))).
    + rewrite bool_decide_eq_false_2 by lia. rewrite !bool_decide_eq_true_2 by lia. by rewrite lookup_app_l by lia.
    + destruct (decide (off + Z.of_nat (length l1) <= o < off + Z.of_nat (length l1) + Z.of_nat (length l2))).
      * rewrite !bool_decide_eq_true_2 by lia. rewrite lookup_app_r by lia. do 2 f_equal. lia.
      * by rewrite !bool_decide_eq_false_2 by lia.
  - intros j c k Hj Hne Hk. rewrite (wl_slots _ _ _ _ _ _ _ _ W2 j), (wl_slots _ _ _ _ _ _ _ _ W1 j) by auto. done.
  - intros j c o Hj Hne Ho. rewrite (wl_others _ _ _ _ _ _ _ _ W2 j), (wl_others _ _ _ _ _ _ _ _ W1 j) by auto. done.
  - intros k Hk Hne Hn. apply (wl_kept _ _ _ _ _ _ _ _ W2); [done..|]. by apply (wl_kept _ _ _ _ _ _ _ _ W1).
  - intros o Ho Hin. rewrite length_app in Ho. destruct (decide (o < off + Z.of_nat (length l1))).
    + destruct (slot_ok _ (in_file_block o Hin)). apply (wl_kept _ _ _ _ _ _ _ _ W2); [done..|]. apply (wl_there _ _ _ _ _ _ _ _ W1); [lia|done].
    + apply (wl_there _ _ _ _ _ _ _ _ W2); [lia|done].
  - intros b Hb Hne. rewrite (wl_meta _ _ _ _ _ _ _ _ W2), (wl_meta _ _ _ _ _ _ _ _ W1) by done. done.
Qed.

(** One chunk: bmap, then a store into the block. *)
Lemma wrote_chunk V F i a V1 a1 r off l : wf sb V F -> F !! i = Some a -> in_file off ->
  mapped sb V F i a V1 a1 (off / BSIZE) r -> off mod BSIZE + Z.of_nat (length l) <= BSIZE -> Forall is_byte l ->
  wrote_file V F i a (fupd V1 r (store_bytes (V1 r) (off mod BSIZE) l)) a1 off l.
Proof using Hly.
  intros Hwf Hi Hoff M Hlen Hl. pose proof (in_file_block off Hoff) as Hbn. pose proof (in_file_mod off) as Hmod.
  pose proof (mp_wf _ _ _ _ _ _ _ _ _ M) as Hwf1. set (F1 := <[i := a1]> F) in *. assert (F1 !! i = Some a1) as Hi1 by apply lookup_insert_eq.
  assert (forall j c, F !! j = Some c -> j <> i -> F1 !! j = Some c) as HF by (intros; unfold F1; by rewrite lookup_insert_ne).
  pose proof (mp_slot _ _ _ _ _ _ _ _ _ M) as Er. pose proof (data_range home sb Hly r (mp_data _ _ _ _ _ _ _ _ _ M)) as (Hr0 & Hrb & _).
  assert (slot_block V1 a1 (slot (off / BSIZE)) <> 0) as Hn by lia. pose proof (Z.div_mod off BSIZE ltac:(done)) as Ediv.
  rewrite <- Er in *. split.
  - by eapply store_wf.
  - intros o Ho. rewrite (store_content home sb Hly V1 F1 i a1) by (done || lia). replace (off / BSIZE * BSIZE + off mod BSIZE) with off by lia.
    case_bool_decide; [done|]. by eapply (mapped_content home).
  - intros j c k Hj Hne Hk. rewrite (store_slot home sb Hly V1 F1 i a1 (off / BSIZE) (off mod BSIZE) l Hwf1 Hi1 Hbn Hn j c k) by auto.
    by eapply (mp_others _ _ _ _ _ _ _ _ _ M).
  - intros j c o Hj Hne Ho. rewrite (store_content_other home sb Hly V1 F1 i a1 (off / BSIZE) (off mod BSIZE) l Hwf1 Hi1 Hbn Hn j c o) by auto.
    by eapply (mapped_content_other sb V F i).
  - intros k Hk Hne Hn1. rewrite (store_slot home sb Hly V1 F1 i a1 (off / BSIZE) (off mod BSIZE) l Hwf1 Hi1 Hbn Hn i a1 k) by auto. by eapply mapped_present.
  - intros o Ho Hin. rewrite (store_slot home sb Hly V1 F1 i a1 (off / BSIZE) (off mod BSIZE) l Hwf1 Hi1 Hbn Hn i a1 _) by auto.
    assert (o / BSIZE = off / BSIZE) as -> by (unfold BSIZE in *; dlia). done.
  - intros b Hb Hne. pose proof (mp_data _ _ _ _ _ _ _ _ _ M) as [Hd _]. rewrite fupd_ne by lia. by apply (mp_meta _ _ _ _ _ _ _ _ _ M).
Qed.
End Rw.
