(* ===== verification/FsWrite.v ===== *)
(** * writei: correctness, and the size of the transaction it makes *)
From S2P Require Import Prelude Mem Sleeplock Fs FsSpec FsAlloc FsWf FsBmap FsFile FsInode FsRw.

Section Write.
Context {B U : Type} `{!BlockOps B, !CopyOps U} (dev : Z) (home : Z -> Prop) (cap : nat) `{!BlockLaws B dev home cap, !CopyLaws U}.
Context (sb : superblock) (Hly : layout home sb).
Abbreviation fs := (@fs B U).
Abbreviation bm := (sb_bmapstart sb).
Implicit Types (s : fs) (p : Z) (C V : Z -> block) (H : gmap Z Z) (L : gset Z) (F : gmap Z (list Z)) (a : list Z).

(** The [n] bytes at address [src]. *)
Definition source (u : U) (k : bool) (src n : Z) (l : list Z) : Prop :=
  length l = Z.to_nat n /\ Forall is_byte l /\ forall j, 0 <= j < n -> l !! Z.to_nat j = view u k (src + j).
Lemma source_app u k src m n l1 l2 : 0 <= m -> 0 <= n -> source u k src m l1 -> source u k (src + m) n l2 -> source u k src (m + n) (l1 ++ l2).
Proof.
  intros Hm Hn (E1 & B1 & S1) (E2 & B2 & S2). split_and!; [rewrite length_app; lia|by apply Forall_app|].
  intros j Hj. destruct (decide (j < m)).
  - rewrite lookup_app_l by lia. apply S1. lia.
  - rewrite lookup_app_r by lia. replace (Z.to_nat j - length l1)%nat with (Z.to_nat (j - m)) by lia. rewrite S2 by lia. f_equal. lia.
Qed.

Lemma wp_writei_done fuel s ip k src off n tot Q : n <= tot -> Q (tot, off) (KSt [] s) ->
  wp (writei_loop (B := B) (U := U) fuel ip k src off n tot) (KSt [] s) Q.
Proof. intros H HQ. destruct fuel; cbn [writei_loop]; (destruct (Z.ltb_spec tot n); [lia|]); by wstep. Qed.

Lemma wp_writei_loop p C ip i nb : forall fuel s V L F a k src off n tot Q,
  (nb <= fuel)%nat -> txn dev home cap s p C V ∅ L -> fs_sb s = sb -> wf sb V F -> F !! i = Some a ->
  i_dev (ino s ip) = dev -> i_addrs (ino s ip) = a ->
  0 <= off -> 0 <= tot <= n -> off + (n - tot) <= MAXFILE * BSIZE ->
  0 <= src -> src + (n - tot) < 2 ^ 64 -> mapped_range (fs_mem s) k src (n - tot) ->
  n - tot = 0 \/ n - tot + off mod BSIZE <= Z.of_nat nb * BSIZE ->
  (nb + need a <= nfree sb V)%nat -> (weight sb L a + nb <= cap)%nat ->
  (forall s' V' L' a' l, moved ip a' s s' -> txn dev home cap s' p C V' ∅ L' -> source (fs_mem s) k src (n - tot) l ->
     wrote_file sb V F i a V' a' off l -> (weight sb L' a' <= weight sb L a + nb)%nat ->
     (nfree sb V + need a' <= nfree sb V' + need a + nb)%nat -> Q (tot + (n - tot), off + (n - tot)) (KSt [] s')) ->
  wp (writei_loop fuel ip k src off n tot) (KSt [] s) Q.
Proof using Hly.
  induction nb as [|nb IH]; intros fuel s V L F a k src off n tot Q Hnf Ht Hsb Hwf Hi Hdev Ha Hoff Htot Hmax Hs0 Hs1 Hmap Hfuel Hfree Hcap HQ.
  all: assert (n - tot = 0 -> wp (writei_loop fuel ip k src off n tot) (KSt [] s) Q) as Hdone by
    (intros E; apply wp_writei_done; [lia|]; replace (tot, off) with (tot + (n - tot), off + (n - tot)) by (f_equal; lia);
     apply (HQ s V L a []); [rewrite <- Ha; by apply moved_same, same_refl|done|rewrite E; split_and!; [done|constructor|intros; lia]|by apply wrote_file_nil|lia|lia]).
  { destruct Hfuel as [E|E]; [by apply Hdone|]. apply Hdone. pose proof (in_file_mod off). lia. }
  destruct (decide (n - tot = 0)) as [E0|E0]; [by apply Hdone|]. clear Hdone. destruct fuel as [|f]; [lia|]. cbn [writei_loop].
  destruct (Z.ltb_spec tot n) as [Hlt|]; [|lia].
  destruct (chunk_next n tot off nb Hoff Hlt ltac:(lia)) as (Hm & Hmb & Hnext). set (m := chunk n tot off) in *.
  assert (in_file off) as Hin by (unfold in_file; lia). pose proof (in_file_block off Hin) as Hbn.
  wstep. wstep. wstep. rewrite Hdev. pose proof Hi as Hi'. rewrite <- Ha in Hi'.
  eapply (wp_bmap dev home cap sb Hly); [exact Ht|done|exact Hwf|exact Hdev|exact Hi'|exact Hbn|rewrite Ha; lia|rewrite Ha; lia|].
  rewrite Ha. intros r s1 V1 L1 a1 Hmv M HL1 Hw1 Ht1.
  pose proof (data_range home sb Hly r (mp_data _ _ _ _ _ _ _ _ _ M)) as (Hr0 & Hrb & _).
  eapply wp_look; [exact Ht1|done|rewrite map_size_empty; lia|]. intros b s2 Hs2 Ht2. cbv zeta. fold m. wstep. apply wp_onmem.
  rewrite (same_mem _ _ Hs2), (mv_mem _ _ _ _ Hmv).
  destruct (law_in (fs_mem s) k src m) as (l & El & Hll & Hlb & Hlv); [lia|intros x Hx; apply Hmap; lia|].
  eapply wp_intro; [exact El|]. cbn [held st]. change (wp (bput b (store_bytes (V1 r) (off mod BSIZE) l) ;;
    (if 0 =? -1 then brelse b ;; mret (tot, off) else log_write b ;; brelse b ;; writei_loop f ip k (u64 (src + m)) (u32 (off + m)) n (tot + m)))
    (KSt [] (with_mem (fs_mem s) s2)) Q).
  assert (with_mem (fs_mem s) s2 = s2) as ->.
  { destruct s2. cbn. rewrite <- (mv_mem _ _ _ _ Hmv). rewrite <- (same_mem _ _ Hs2). done. }
  wstep. eapply wp_bput; [apply Ht2|by rewrite lookup_insert_eq|]. intros s3 Hs3 Hi3. change (0 =? -1) with false. cbv iota. wstep.
  pose proof (weight_bm sb ({[r]} ∪ L1) a1) as Hwb. pose proof (size_add bm ({[r]} ∪ L1)) as Hwb2.
  eapply wp_log; [exact Hi3|by rewrite lookup_insert_eq|by eapply (data_home home), (mp_data _ _ _ _ _ _ _ _ _ M)|lia|]. intros s4 Hs4 Hi4. wstep.
  eapply (wp_fs_release dev home cap _ p C _ ∅ _ r b); [split; [exact Hi4|]|done|].
  { intros c Hc'. rewrite fupd_ne by set_solver. apply Ht2. set_solver. }
  intros s5 Hs5 Ht5. set (V5 := fupd V1 r _) in *. assert (MAXFILE * BSIZE < 2 ^ 32) as Hmf by done.
  rewrite (u64_small (src + m)), (u32_small (off + m)) by lia.
  assert (same s1 s5) as Hs15 by (repeat (eapply same_trans; [eassumption|]); apply same_refl).
  assert (moved ip a1 s s5) as Hmv5 by (by eapply moved_same_r).
  pose proof (mv_ino _ _ _ _ Hmv5) as Ei5. pose proof (mv_mem _ _ _ _ Hmv5) as Em5.
  assert (wrote_file sb V F i a V5 a1 off l) as Hwf5 by (apply (wrote_chunk home); try done; rewrite ?Hll; lia).
  assert (nfree sb V5 = nfree sb V1) as En5 by (by apply change_nfree).
  pose proof (mp_free _ _ _ _ _ _ _ _ _ M) as Hmf1.
  eapply (IH f s5 V5 _ (<[i := a1]> F) a1);
    [lia|exact Ht5|by rewrite (mv_sb _ _ _ _ Hmv5)|by apply Hwf5|by rewrite lookup_insert_eq|by rewrite Ei5|by rewrite Ei5|lia|lia|lia|lia|lia| |exact Hnext|lia|lia|].
  { rewrite Em5. intros x Hx. apply Hmap. lia. }
  intros s6 V6 L6 a6 l6 Hmv6 Ht6 Hsrc6 Hw6 Hwt6 Hfr6. replace (off + m + (n - (tot + m))) with (off + (n - tot)) by lia. replace (tot + m + (n - (tot + m))) with (tot + (n - tot)) by lia.
  rewrite Em5 in Hsrc6. assert (n - tot = m + (n - (tot + m))) as Esum by lia.
  eapply (HQ s6 V6 L6 a6 (l ++ l6)); [by eapply moved_trans|exact Ht6| | |lia|lia].
  - rewrite Esum. apply source_app; [lia|lia| |done]. done.
  - eapply wrote_file_app; [exact Hi|exact Hwf5|]. by replace (off + Z.of_nat (length l)) with (off + m) by lia.
Qed.

(** The number of blocks [n] bytes from [off] reach into. *)
Definition nblk (off n : Z) : nat := Z.to_nat ((off mod BSIZE + n + BSIZE - 1) / BSIZE).

Lemma wf_addrs V F i a : wf sb V F -> F !! i = Some a -> length a = 13%nat /\ Forall (fun v => 0 <= v < 2 ^ 32) a.
Proof using Hly.
  intros Hwf Hi. pose proof (wf_len _ _ _ Hwf i a Hi) as Hl. split; [done|]. apply Forall_lookup. intros k v Hk.
  pose proof (lookup_lt_Some _ _ _ Hk). assert (dir_addr a (Z.of_nat k) = v) as Ev by (unfold dir_addr; by rewrite Nat2Z.id, Hk).
  destruct (decide (v = 0)) as [->|Hv]; [lia|].
  assert (slot_block V a (Z.of_nat k) = v) as Es by (unfold slot_block, NDIRECT; destruct (Z.leb_spec (Z.of_nat k) 12); [done|lia]).
  destruct (wf_data _ _ _ Hwf i a (Z.of_nat k) Hi) as [Hd _]; [unfold is_slot, NSLOTS; lia|by rewrite Es|]. rewrite Es in Hd.
  pose proof (data_range home sb Hly v Hd). unfold BPB, BSIZE in *. lia.
Qed.

(** [ip] is the inode of file [i], in memory and valid. *)
Record incore s F (ip i : Z) : Prop := {
  ic_dev : i_dev (ino s ip) = dev;
  ic_inum : i_inum (ino s ip) = i;
  ic_is : is_inum sb i;
  ic_ok : dinode_ok (i_d (ino s ip));
  ic_addrs : F !! i = Some (i_addrs (ino s ip));
  ic_size : i_size (ino s ip) <= MAXFILE * BSIZE;
}.

(** The effect of a write of [l] at [off] of file [i]. *)
Record written s V F (ip i : Z) s' V' (off : Z) (l : list Z) (x := ino s ip) (x' := ino s' ip) : Prop := {
  wn_wf : wf sb V' (<[i := i_addrs x']> F);
  wn_size : i_size x' = Z.max (i_size x) (off + Z.of_nat (length l));
  wn_meta : x' = Fs.set_id (set_dsize (i_size x') (Dinode (d_type (i_d x)) (d_major (i_d x)) (d_minor (i_d x)) (d_nlink (i_d x)) (d_size (i_d x)) (i_addrs x'))) x;
  wn_disk : dinode_of sb V' i = i_d x';
  wn_content : forall o, in_file o -> content V' (i_addrs x') o =
    if bool_decide (off <= o < off + Z.of_nat (length l)) then default 0 (l !! Z.to_nat (o - off)) else content V (i_addrs x) o;
  wn_holes : no_holes V (i_addrs x) (i_size x) -> no_holes V' (i_addrs x') (i_size x');
  wn_dinodes : forall j, is_inum sb j -> j <> i -> dinode_of sb V' j = dinode_of sb V j;
  wn_others : forall j c o, F !! j = Some c -> j <> i -> in_file o -> content V' c o = content V c o;
  wn_slots : forall j c k, F !! j = Some c -> j <> i -> is_slot k -> slot_block V' c k = slot_block V c k;
  wn_inodes : forall jp, jp <> ip -> ino s' jp = ino s jp;
  wn_same : fs_mem s' = fs_mem s /\ fs_sb s' = fs_sb s /\ fs_cwd s' = fs_cwd s;
}.

Lemma written_incore s V F ip i s' V' off l : incore s F ip i -> 0 <= off -> off + Z.of_nat (length l) <= MAXFILE * BSIZE ->
  written s V F ip i s' V' off l -> incore s' (<[i := i_addrs (ino s' ip)]> F) ip i.
Proof using Hly.
  intros [H1 H2 H3 [K1 K2 K3 K4 K5 K6 K7] H5 H6] Ho Hm [W1 W2 W3 _ _ _ _ _ _ _ _]. cbn zeta in *.
  destruct (wf_addrs _ _ _ _ W1 (lookup_insert_eq _ _ _)) as [Hl Hr]. assert (MAXFILE * BSIZE < 2 ^ 32) by done. unfold i_size in *.
  split; [by rewrite W3|by rewrite W3|done| |apply lookup_insert_eq|unfold i_size; lia].
  rewrite W3. split; cbn; try done. lia.
Qed.

Lemma wp_writei s p C V L F ip i k src off n Q : txn dev home cap s p C V ∅ L -> fs_sb s = sb -> wf sb V F -> incore s F ip i ->
  0 <= off <= i_size (ino s ip) -> 0 <= n -> off + n <= MAXFILE * BSIZE ->
  0 <= src -> src + n < 2 ^ 64 -> mapped_range (fs_mem s) k src n ->
  (nblk off n + need (i_addrs (ino s ip)) <= nfree sb V)%nat -> (weight sb L (i_addrs (ino s ip)) + nblk off n < cap)%nat ->
  (forall s' V' L' l, txn dev home cap s' p C V' ∅ L' -> source (fs_mem s) k src n l -> written s V F ip i s' V' off l ->
     (size L' <= S (weight sb L (i_addrs (ino s ip)) + nblk off n))%nat ->
     (nfree sb V + need (i_addrs (ino s' ip)) <= nfree sb V' + need (i_addrs (ino s ip)) + nblk off n)%nat -> Q n (KSt [] s')) ->
  wp (writei ip k src off n) (KSt [] s) Q.
Proof using Hly.
  intros Ht Hsb Hwf Hic Hoff Hn Hmax Hs0 Hs1 Hmap Hfree Hcap HQ. destruct Hic as [Hdev Hinum His Hok Hi Hszm].
  assert (MAXFILE * BSIZE < 2 ^ 32) as Hmf by done. assert (MAXFILE * BSIZE < 2 ^ 31) as Hmf' by done.
  pose proof (in_file_mod off) as Hmod. unfold writei. wstep. wstep.
  destruct (Z.ltb_spec (i_size (ino s ip)) off); [lia|]. rewrite u32_small by lia.
  destruct (Z.ltb_spec (off + n) off); [lia|]. cbn [orb]. destruct (Z.ltb_spec (MAXFILE * BSIZE) (off + n)); [lia|]. wstep.
  eapply (wp_writei_loop p C ip i (nblk off n)); [|exact Ht|done|exact Hwf|exact Hi|done|done|lia|lia|lia|lia|lia| | |exact Hfree|lia|].
  { unfold nblk, BSIZE in *. apply Z2Nat.inj_le; dlia. }
  { by rewrite Z.sub_0_r. }
  { right. unfold nblk, BSIZE in *. rewrite Z2Nat.id by dlia. dlia. }
  rewrite Z.sub_0_r, Z.add_0_l. intros s1 V1 L1 a1 l Hmv Ht1 Hsrc Hw Hwt Hfr. pose proof Hsrc as (Hll & _ & _).
  wstep. set (size' := Z.max (i_size (ino s ip)) (off + n)).
  assert (wp (iupdate ip ;; mret (i32 n)) (KSt [] (if i_size (ino s ip) <? off + n then upd_ino ip (fun x => Fs.set_id (set_dsize (off + n) (i_d x)) x) s1 else s1)) Q) as Hgoal.
  2: { destruct (i_size (ino s ip) <? off + n); wstep; exact Hgoal. }
  set (s2 := if i_size (ino s ip) <? off + n then _ else s1).
  assert (ino s2 ip = Fs.set_id (set_dsize size' (i_d (set_addrs a1 (ino s ip)))) (ino s ip)) as Ei2.
  { unfold s2, size'. destruct (Z.ltb_spec (i_size (ino s ip)) (off + n)).
    - rewrite ino_upd, (mv_ino _ _ _ _ Hmv), Z.max_r by lia. done.
    - rewrite (mv_ino _ _ _ _ Hmv), Z.max_l by lia. by destruct (ino s ip) as [? ? ? ? ? []]. }
  assert (txn dev home cap s2 p C V1 ∅ L1 /\ fs_sb s2 = sb /\ fs_mem s2 = fs_mem s /\ fs_cwd s2 = fs_cwd s /\ forall jp, jp <> ip -> ino s2 jp = ino s jp) as (Ht2 & Hsb2 & Hm2 & Hc2 & Ho2).
  { destruct Hmv as [M1 M2 M3 M4 M5]. destruct Ht1 as [T1 T2]. unfold s2. destruct (_ <? _); (split_and!; [by split|cbn; congruence..|]); [|done].
    intros jp Hj. rewrite ino_upd_ne by done. by apply M5. }
  assert (i_inum (ino s2 ip) = i) as Einum by (by rewrite Ei2). pose proof (iblock_meta home sb Hly i His) as [Him Hib].
  pose proof (weight_bm sb L1 a1) as Hwb. pose proof (size_add bm L1) as Hsz1. pose proof (size_add (IBLOCK i sb) L1) as Hsz2.
  wstep. eapply (wp_iupdate dev home cap sb Hly); [exact Ht2|done|by rewrite Ei2|by rewrite Einum|rewrite Einum; lia|].
  rewrite Einum. intros s3 Hs3 Ht3. wstep.
  assert (i32 n = n) as -> by (unfold i32; rewrite Z.mod_small; lia).
  assert (forall jp, ino s3 jp = ino s2 jp) as Ei3 by (unfold same in Hs3; rewrite Hs3; done).
  assert (<[i := a1]> F !! i = Some a1) as Hi1 by apply lookup_insert_eq. pose proof (wl_wf _ _ _ _ _ _ _ _ _ Hw) as Hwf1.
  assert (dinode_ok (i_d (ino s2 ip))) as Hok2.
  { destruct (wf_addrs _ _ _ _ Hwf1 Hi1) as [Hl1 Hr1]. rewrite Ei2. destruct Hok as [K1 K2 K3 K4 K5 K6 K7]. unfold i_size in *. split; cbn; try done. lia. }
  eapply (HQ s3 (update_view sb V1 i (i_d (ino s2 ip))) _ l); [exact Ht3|exact Hsrc| |lia|].
  2: { rewrite Ei3, Ei2. unfold update_view. rewrite change_nfree by done. exact Hfr. }
  assert (i_addrs (ino s3 ip) = a1) as Ea3 by (by rewrite Ei3, Ei2).
  assert (i_size (ino s3 ip) = size') as Es3 by (by rewrite Ei3, Ei2).
  split; cbn zeta; rewrite ?Ea3, ?Es3; unfold update_view.
  - apply change_wf; [done|done|by apply (meta_not_indirect sb V1)].
  - unfold size'. lia.
  - rewrite Ei3, Ei2. done.
  - rewrite (dinode_of_store sb V1 i) by done. rewrite decide_True by done. by rewrite Ei3.
  - intros o Ho. rewrite (meta_content sb V1 (<[i := a1]> F)) with (j := i) by done. apply (wl_content _ _ _ _ _ _ _ _ _ Hw o Ho).
  - intros Hnh bn Hb Hlt. rewrite (change_slot V1 (<[i := a1]> F)) with (j := i); [|by apply (meta_not_indirect sb V1)|done]. destruct (slot_ok bn Hb).
    destruct (decide (bn * BSIZE < i_size (ino s ip))); [by apply (wl_kept _ _ _ _ _ _ _ _ _ Hw), Hnh|].
    assert (bn = Z.max off (bn * BSIZE) / BSIZE) as -> by (unfold BSIZE, size' in *; dlia).
    apply (wl_there _ _ _ _ _ _ _ _ _ Hw); [unfold size' in *; lia|]. unfold in_file, MAXFILE, NINDIRECT in *. unfold BSIZE in *. lia.
  - intros j Hj Hne. rewrite (dinode_of_store sb V1 i) by done. rewrite decide_False by done. pose proof (iblock_meta home sb Hly j Hj) as [Hjm Hjb].
    unfold dinode_of. by rewrite (wl_meta _ _ _ _ _ _ _ _ _ Hw).
  - intros j c o Hj Hne Ho. rewrite (meta_content sb V1 (<[i := a1]> F)) with (j := j); [|done|done|by rewrite lookup_insert_ne|done].
    by apply (wl_others _ _ _ _ _ _ _ _ _ Hw j).
  - intros j c k0 Hj Hne Hk0. rewrite (change_slot V1 (<[i := a1]> F)) with (j := j); [|by apply (meta_not_indirect sb V1)|by rewrite lookup_insert_ne].
    by apply (wl_slots _ _ _ _ _ _ _ _ _ Hw j).
  - intros jp Hj. rewrite Ei3. by apply Ho2.
  - unfold same in Hs3. rewrite Hs3. cbn [fs_mem fs_sb fs_cwd with_blk]. split_and!; congruence.
Qed.
End Write.
