(* ===== verification/FsAgree.v ===== *)
(** * Contents that agree on the file system's part of the disk *)
From S2P Require Import Prelude Mem Sleeplock Fs FsSpec FsAlloc FsWf FsBmap FsFile FsInode FsRw FsWrite.

Section Agree.
Context (home : Z -> Prop) (sb : superblock) (Hly : layout home sb).
Implicit Types (V : Z -> block) (a c : list Z) (F : gmap Z (list Z)).

(** The log area is left out: its contents are no concern of the file system. *)
Definition agree V V' : Prop := forall b, sb_inodestart sb <= b < sb_size sb -> V b = V' b.
Lemma agree_sym V V' : agree V V' -> agree V' V.
Proof. intros H b Hb. symmetry. by apply H. Qed.

Lemma agree_bm V V' : agree V V' -> V (sb_bmapstart sb) = V' (sb_bmapstart sb).
Proof using Hly. intros H. apply H. destruct Hly as [_ _ H1 H2 H3 _]. pose proof (inode_blocks home sb Hly). lia. Qed.
Lemma agree_used V V' b : agree V V' -> used sb V b <-> used sb V' b.
Proof using Hly. intros H. unfold used. by rewrite (agree_bm V V' H). Qed.
Lemma agree_data V V' b : agree V V' -> data_block sb b -> V b = V' b.
Proof using Hly. intros H [H1 H2]. apply H. destruct Hly as [_ _ K1 K2 K3 _]. pose proof (inode_blocks home sb Hly). unfold datastart in *. lia. Qed.
Lemma agree_dinode V V' j : agree V V' -> is_inum sb j -> dinode_of sb V j = dinode_of sb V' j.
Proof using Hly.
  intros H Hj. unfold dinode_of. f_equal. apply H. pose proof (iblock_range home sb Hly j Hj). destruct Hly as [_ _ K1 K2 K3 _]. lia.
Qed.
Lemma agree_slot V V' F i a k : agree V V' -> wf sb V F -> F !! i = Some a -> slot_block V a k = slot_block V' a k.
Proof using Hly.
  intros H Hwf Hi. unfold slot_block. destruct (k <=? NDIRECT); [done|]. destruct (Z.eqb_spec (dir_addr a NDIRECT) 0) as [|Hn]; [done|].
  f_equal. apply agree_data; [done|]. by apply (wf_data _ _ _ Hwf i a NDIRECT).
Qed.
Lemma agree_wf V V' F : agree V V' -> wf sb V F -> wf sb V' F.
Proof using Hly.
  intros H Hwf. split.
  - intros b Hb. apply (agree_used V V'); [done|]. by apply (wf_meta _ _ _ Hwf).
  - apply (wf_len _ _ _ Hwf).
  - intros i a k Hi Hk. rewrite <- (agree_slot V V' F i a k), <- (agree_used V V') by done. by apply (wf_data _ _ _ Hwf i).
  - intros i a k i' a' k' Hi Hi' Hk Hk'. rewrite <- (agree_slot V V' F i a k), <- (agree_slot V V' F i' a' k') by done. by apply (wf_inj _ _ _ Hwf).
Qed.
Lemma agree_content V V' F i a o : agree V V' -> wf sb V F -> F !! i = Some a -> in_file o -> content V a o = content V' a o.
Proof using Hly.
  intros H Hwf Hi Ho. unfold content. rewrite <- (agree_slot V V' F i a) by done. destruct (Z.eqb_spec (slot_block V a (slot (o / BSIZE))) 0) as [|Hn]; [done|].
  destruct (slot_ok _ (in_file_block o Ho)) as [Hs _]. rewrite (agree_data V V'); [done|done|]. by apply (wf_data _ _ _ Hwf i).
Qed.
Lemma agree_nfree V V' : agree V V' -> nfree sb V = nfree sb V'.
Proof using Hly.
  intros H. unfold nfree. f_equal. induction (seqZ (datastart sb) (sb_size sb - datastart sb)) as [|y l IH]; [done|]. rewrite !filter_cons, IH.
  pose proof (agree_used V V' y H). destruct (decide (~ used sb V y)), (decide (~ used sb V' y)); tauto.
Qed.
Lemma agree_holes V V' F i a size : agree V V' -> wf sb V F -> F !! i = Some a -> no_holes V a size -> no_holes V' a size.
Proof using Hly. intros H Hwf Hi Hn bn Hb Hlt. rewrite <- (agree_slot V V' F i a) by done. by apply Hn. Qed.

Context {B U : Type} `{!BlockOps B, !CopyOps U}.
Lemma written_agree (s s' : @fs B U) V F ip i V' off l V0 V1 : wf sb V F -> F !! i = Some (i_addrs (ino s ip)) -> is_inum sb i ->
  agree V V0 -> agree V' V1 -> written sb s V F ip i s' V' off l -> written sb s V0 F ip i s' V1 off l.
Proof using Hly.
  intros Hwf Hi His HA HA' [W1 W2 W3 W4 W5 W6 W7 W8 W9 W10 W11]. set (F' := <[i := i_addrs (ino s' ip)]> F) in *.
  assert (F' !! i = Some (i_addrs (ino s' ip))) as Hi' by apply lookup_insert_eq.
  assert (forall j c, F !! j = Some c -> j <> i -> F' !! j = Some c) as HF by (intros; unfold F'; by rewrite lookup_insert_ne).
  split; try done.
  - by eapply agree_wf.
  - by rewrite <- (agree_dinode V' V1).
  - intros o Ho. rewrite <- (agree_content V' V1 F' i) by done. rewrite W5 by done. case_bool_decide; [done|]. by eapply agree_content.
  - intros Hn. eapply (agree_holes V' V1 F' i); [done..|]. apply W6. eapply (agree_holes V0 V F i); [by apply agree_sym|by eapply agree_wf|done|done].
  - intros j Hj Hne. rewrite <- (agree_dinode V' V1), <- (agree_dinode V V0) by done. by apply W7.
  - intros j c o Hj Hne Ho. rewrite <- (agree_content V' V1 F' j) by auto. rewrite (W8 j c o) by done. by eapply agree_content.
  - intros j c k Hj Hne Hk. rewrite <- (agree_slot V' V1 F' j) by auto. rewrite (W9 j c k) by done. by eapply agree_slot.
Qed.
End Agree.
