(* ===== verification/UserMem.v ===== *)
(** * either_copyout, either_copyin and fetchstr over a byte view of memory (kernel/proc.c, kernel/syscall.c)

    The memory interface of fs.c, with user memory as the bytes of the pages that are mapped
    for the user.  That copyout, copyin and copyinstr move exactly these bytes, and stop at
    the first page that is not mapped, is shown over the page tables in VmThms.v and ProcCopy.v. *)
From S2P Require Import Prelude Mem Sleeplock Riscv Fs FsSpec.

Record umem := Umem { u_kern : mem; u_user : mem; u_pages : gset Z }.

Definition u_mapped (u : umem) (a : Z) : bool := bool_decide (a / PGSIZE ∈ u_pages u).
(** The number of leading bytes of [a, a + n) that are mapped. *)
Fixpoint u_prefix (u : umem) (a : Z) (n : nat) : nat :=
  match n with O => O | S n' => if u_mapped u a then S (u_prefix u (a + 1) n') else O end.

Definition user_copyout (a : Z) (l : list Z) : M umem Z :=
  u ← gets id;
  let m := u_prefix u a (length l) in
  modify (fun u => Umem (u_kern u) (store_bytes (u_user u) a (take m l)) (u_pages u)) ;;
  mret (if Nat.eqb m (length l) then 0 else -1).
Definition user_copyin (a n : Z) : M umem (list Z * Z) :=
  u ← gets id;
  let m := u_prefix u a (Z.to_nat n) in
  mret (bytes (u_user u) a m, if Nat.eqb m (Z.to_nat n) then 0 else -1).
Definition kstore (a : Z) (l : list Z) : M umem unit := modify (fun u => Umem (store_bytes (u_kern u) a l) (u_user u) (u_pages u)).

Definition either_copyout (user_dst : bool) (dst : Z) (src : list Z) : M umem Z :=
  if user_dst then user_copyout dst src else kstore dst src ;; mret 0.
Definition either_copyin (user_src : bool) (src len : Z) : M umem (list Z * Z) :=
  if user_src then user_copyin src len
  else u ← gets id; mret (bytes (u_kern u) src (Z.to_nat len), 0).

(** fetchstr: the string up to its NUL, among the first [max] bytes and all mapped. *)
Fixpoint str_at (u : umem) (a : Z) (max : nat) : option (list Z) :=
  match max with
  | O => None
  | S m => if negb (u_mapped u a) then None
           else if rd (u_user u) a =? 0 then Some []
           else l ← str_at u (a + 1) m; Some (rd (u_user u) a :: l)
  end.
Definition fetchstr (a max : Z) : M umem (option (list Z)) := gets (fun u => str_at u a (Z.to_nat max)).

#[export] Instance umem_copy : CopyOps umem := {
  copy_out := either_copyout;
  copy_in := either_copyin;
  kget u a n := bytes (u_kern u) a n;
  kput := kstore;
  copy_str := fetchstr;
}.

Definition u_view (u : umem) (k : bool) (a : Z) : option Z :=
  if k then if u_mapped u a then Some (rd (u_user u) a) else None else Some (rd (u_kern u) a).

Lemma u_prefix_all u n : forall a, (forall i, a <= i < a + Z.of_nat n -> u_mapped u i = true) -> u_prefix u a n = n.
Proof.
  induction n as [|n IH]; intros a H; [done|]. cbn [u_prefix]. rewrite (H a) by lia. f_equal. apply IH. intros i Hi. apply H. lia.
Qed.
Lemma rd_store_list m a l i : Forall is_byte l -> Some (rd (store_bytes m a l) i) =
  if bool_decide (a <= i < a + Z.of_nat (length l)) then l !! Z.to_nat (i - a) else Some (rd m i).
Proof.
  intros Hl. case_bool_decide as Hi.
  - pose proof (bytes_store_bytes l m a Hl) as Hb. apply (f_equal (fun x => x !! Z.to_nat (i - a))) in Hb.
    rewrite bytes_lookup in Hb by lia. rewrite <- Hb. do 2 f_equal. lia.
  - f_equal. apply rd_store_bytes_out. lia.
Qed.
Lemma view_user u i : is_Some (u_view u true i) -> u_mapped u i = true.
Proof. unfold u_view. destruct (u_mapped u i); [done|]. by intros []. Qed.
Lemma bytes_view m a n i : 0 <= i < Z.of_nat n -> bytes m a n !! Z.to_nat i = Some (rd m (a + i)).
Proof. intros Hi. rewrite bytes_lookup by lia. do 2 f_equal. lia. Qed.
Lemma kstore_law u a l : Forall is_byte l ->
  wp (kstore a l) (KSt [] u) (fun _ k' => held k' = [] /\
    forall k2 i, u_view (st k') k2 i = if bool_decide (k2 = false /\ a <= i < a + Z.of_nat (length l)) then l !! Z.to_nat (i - a) else u_view u k2 i).
Proof.
  intros Hl. unfold kstore. wstep. split; [done|]. intros k2 i. unfold u_view. cbn [u_kern u_user u_mapped u_pages].
  destruct k2; [by rewrite bool_decide_eq_false_2 by (intros [? _]; done)|]. rewrite rd_store_list by done.
  repeat case_bool_decide; naive_solver.
Qed.

#[export] Instance umem_laws : CopyLaws umem.
Proof.
  refine (Build_CopyLaws _ _ u_view _ _ _ _).
  - intros u k a l Hm Hl. cbn. destruct k; cbn [either_copyout].
    + assert (u_prefix u a (length l) = length l) as E by (apply u_prefix_all; intros i Hi; by apply view_user, Hm).
      unfold user_copyout. wstep. wstep. unfold id. rewrite E, Nat.eqb_refl. wstep. wstep. wstep. split_and!; [done|done|]. intros k2 i.
      unfold u_view. cbn [u_kern u_user u_mapped u_pages]. destruct k2; [|by rewrite bool_decide_eq_false_2 by (intros [? _]; done)].
      rewrite take_ge, rd_store_list by done. unfold u_mapped in *. cbn [u_pages].
      destruct (decide (a <= i < a + Z.of_nat (length l))) as [Hi|Hi].
      * pose proof (view_user u i (Hm i Hi)) as Hmi. unfold u_mapped in Hmi. rewrite Hmi. by rewrite !bool_decide_eq_true_2.
      * rewrite (bool_decide_eq_false_2 (a <= i < _)) by done. rewrite (bool_decide_eq_false_2 (true = true /\ _)) by tauto. done.
    + wstep. eapply wp_mono; [by apply kstore_law|]. intros [] k' [Hh Hv]. wstep. done.
  - intros u k a n Hn Hm. cbn. destruct k; cbn [either_copyin].
    + assert (u_prefix u a (Z.to_nat n) = Z.to_nat n) as E by (apply u_prefix_all; intros i Hi; apply view_user, Hm; lia).
      exists (bytes (u_user u) a (Z.to_nat n)). split_and!; [|apply length_bytes|apply bytes_bytes|].
      * unfold user_copyin, mbind, M_bind, gets, id. cbn. by rewrite E, Nat.eqb_refl.
      * intros i Hi. rewrite bytes_view by lia. unfold u_view. by rewrite (view_user u (a + i) (Hm (a + i) ltac:(lia))).
    + exists (bytes (u_kern u) a (Z.to_nat n)). split_and!; [done|apply length_bytes|apply bytes_bytes|]. intros i Hi. by rewrite bytes_view by lia.
  - intros u a n Hm. cbn. split; [apply length_bytes|]. intros i Hi. by rewrite bytes_view.
  - intros u a l Hm Hl. by apply kstore_law.
Defined.
