(* ===== verification/FsLog.v ===== *)
(** * The log and the buffer cache implement the block interface of fs.c *)
From S2P Require Import Prelude Mem Sleeplock Bio BioSpec Log LogSpec LogThms LogTxn Fs FsSpec.

#[export] Instance log_blocks : BlockOps fsst := {
  blk_proc := fsst_proc;
  blk_read dev b := lift (Bio.bread dev b);
  blk_data s i := Bio.b_data (bf (bc s) i);
  blk_put i x := lift (put_data i x);
  blk_log := Log.log_write;
  blk_relse i := lift (Bio.brelse i);
  blk_initlog := Log.initlog;
  blk_begin := Log.begin_op;
  blk_end := Log.end_op;
}.

Section FsLog.
Context (d start nlog : Z) (Hlog : MAXOPBLOCKS + 1 < nlog).

(** How a block is used: logged blocks are pinned, held blocks are locked by [p]. *)
Definition use_ok (p : Z) (H : gmap Z Z) (bs : list Z) (b : Z) (o : option use) : Prop :=
  match H !! b, decide (b ∈ bs) with
  | Some i, left _ => o = Some (Use i 2 (Sleeplock true p) true)
  | Some i, right _ => o = Some (Use i 1 (Sleeplock true p) true)
  | None, left _ => exists i, o = Some (Use i 1 initsleeplock true)
  | None, right _ => o = None
  end.

Record in_log (s : fsst) (p : Z) (C V : Z -> block) (H : gmap Z Z) (L : gset Z) (W : list (Z * block)) (U : gmap Z use)
    (bs : list Z) (Lg : log) : Prop := {
  il_stands : stands d s Lg p W V C U;
  il_set : L = list_to_set bs;
  il_log : log_of d start Lg bs;
  il_able : loggable start nlog bs;
  il_cap : Z.of_nat (length bs) <= MAXOPBLOCKS;
  il_size : l_size Lg = nlog;
  il_out : l_outstanding Lg = 1;
  il_comm : l_committing Lg = false;
  il_head : load32 (C start) 0 = 0;
  il_use : forall b, use_ok p H bs b (U !! b);
}.
Definition in_txn_of (W : list (Z * block)) (s : fsst) (p : Z) (C V : Z -> block) (H : gmap Z Z) (L : gset Z) : Prop :=
  exists U bs Lg, in_log s p C V H L W U bs Lg.
Definition fs_home (b : Z) : Prop := home start nlog b /\ 0 <= b < 2 ^ 31.

Lemma in_log_size s p C V H L W U bs Lg : in_log s p C V H L W U bs Lg -> (size U <= size H + length bs)%nat.
Proof.
  intros [_ _ _ Hbs _ _ _ _ _ Hu]. assert (dom U ⊆ dom H ∪ list_to_set bs) as Hsub.
  { intros b Hb. apply elem_of_dom in Hb. specialize (Hu b). unfold use_ok in Hu. apply elem_of_union.
    destruct (H !! b) eqn:E; [left; by apply elem_of_dom|]. destruct (decide (b ∈ bs)); [right; by apply elem_of_list_to_set|].
    rewrite Hu in Hb. by destruct Hb. }
  apply subseteq_size in Hsub. rewrite size_union_alt in Hsub. rewrite !size_dom in Hsub.
  assert (size (list_to_set bs ∖ dom H : gset Z) <= size (list_to_set bs : gset Z))%nat by (apply subseteq_size; set_solver).
  rewrite (size_list_to_set bs) in * by apply Hbs. lia.
Qed.

Lemma read_law W s p C V H L b : in_txn_of W s p C V H L -> H !! b = None -> (size H < 3)%nat ->
  wp (lift (Bio.bread d b)) (KSt [] s) (fun i k => held k = [] /\ in_txn_of W (st k) p C V (<[b := i]> H) L).
Proof.
  intros (U & bs & Lg & Hl) Hb Hn. pose proof (in_log_size _ _ _ _ _ _ _ _ _ _ Hl) as Hsz. destruct Hl as [Hs HL Hlo Hbs Hc Hsz' Ho Hcm Hh Hu].
  pose proof (Hu b) as Hub. unfold use_ok in Hub. rewrite Hb in Hub.
  eapply lwp_bread; [exact Hs| |].
  { unfold lockable. destruct (decide (b ∈ bs)); [destruct Hub as [i ->]; split; [done|cbn; lia]|]. rewrite Hub. unfold NBUF, MAXOPBLOCKS in *. lia. }
  intros i s' Hs' Hidx. cbn [held st]. split; [done|]. eexists. exists bs, Lg. split; [exact Hs'|done..|].
  intros c. unfold use_ok. destruct (decide (c = b)) as [->|Hne].
  - rewrite !lookup_insert_eq. unfold refs in *. destruct (decide (b ∈ bs)); [destruct Hub as [j Hj]|]; [rewrite Hj; done|by rewrite Hub].
  - rewrite !lookup_insert_ne by done. apply Hu.
Qed.

Lemma put_law W s p C V H L b i x : in_txn_of W s p C V H L -> H !! b = Some i ->
  wp (lift (put_data i x)) (KSt [] s) (fun _ k => held k = [] /\ in_txn_of W (st k) p C (fupd V b x) H L).
Proof.
  intros (U & bs & Lg & [Hs HL Hlo Hbs Hc Hsz' Ho Hcm Hh Hu]) Hb. pose proof (Hu b) as Hub. unfold use_ok in Hub. rewrite Hb in Hub.
  destruct (decide (b ∈ bs)); (eapply lwp_put; [exact Hs|exact Hub|]; intros s' Hs'; split; [done|]; exists U, bs, Lg; by split).
Qed.

Lemma length_set (bs : list Z) : NoDup bs -> size (list_to_set bs : gset Z) = length bs.
Proof. apply size_list_to_set. Qed.

Lemma log_law W s p C V H L b i : in_txn_of W s p C V H L -> H !! b = Some i -> fs_home b -> (size ({[b]} ∪ L) <= Z.to_nat MAXOPBLOCKS)%nat ->
  wp (Log.log_write i) (KSt [] s) (fun _ k => held k = [] /\ in_txn_of W (st k) p C V H ({[b]} ∪ L)).
Proof using Hlog.
  intros (U & bs & Lg & [Hs HL Hlo Hbs Hc Hsz' Ho Hcm Hh Hu]) Hb [Hhome Hrange] Hcap. pose proof (Hu b) as Hub. unfold use_ok in Hub. rewrite Hb in Hub.
  unfold MAXOPBLOCKS in *. assert (exists r, U !! b = Some (Use i r (Sleeplock true p) true) /\ (r = 1 \/ r = 2)) as (r & Hr & Hr2).
  { destruct (decide (b ∈ bs)); eauto. }
  assert (fits start nlog bs b) as Hfit by (unfold fits, LOGSIZE, MAXOPBLOCKS; split_and!; done || lia).
  eapply wp_mono; [eapply (log_write_spec d start s); [exact Hs|exact Hlo|..|exact Hr|lia]; unfold LOGSIZE, MAXOPBLOCKS; try lia|].
  { constructor; [done|]. eapply Forall_impl; [apply (lb_home _ _ _ Hbs)|]. by intros ? [_ ?]. }
  intros _ k (Hk & Lg' & Hlo' & E1 & E2 & E3 & Hs'). split; [done|].
  assert (list_to_set (logged bs b) = {[b]} ∪ L) as Eset.
  { rewrite HL. unfold logged. destruct (decide (b ∈ bs)); set_solver. }
  pose proof (loggable_logged start nlog bs b Hbs Hfit) as Hbs'.
  eexists. exists (logged bs b), Lg'. split; [exact Hs'|done|done|done| |congruence|congruence|congruence|done|].
  { rewrite <- Eset, length_set in Hcap by apply Hbs'. unfold MAXOPBLOCKS. lia. }
  intros c. specialize (Hu c). unfold use_ok, logged in *. destruct (decide (b ∈ bs)) as [Hin|Hnin]; [done|]. destruct (decide (c = b)) as [->|Hne].
  - rewrite Hb, lookup_insert_eq. rewrite (decide_True (P := b ∈ bs ++ [b])) by set_solver. destruct (decide (b ∈ bs)); [done|].
    rewrite Hr in Hub. injection Hub as ->. done.
  - rewrite lookup_insert_ne by done. destruct (decide (c ∈ bs)), (decide (c ∈ bs ++ [b])); try set_solver; done.
Qed.

Lemma relse_law W s p C V H L b i : in_txn_of W s p C V H L -> H !! b = Some i -> (b ∈ L \/ V b = C b) ->
  wp (lift (Bio.brelse i)) (KSt [] s) (fun _ k => held k = [] /\ in_txn_of W (st k) p C V (delete b H) L).
Proof.
  intros (U & bs & Lg & [Hs HL Hlo Hbs Hc Hsz' Ho Hcm Hh Hu]) Hb Hcl. pose proof (Hu b) as Hub. unfold use_ok in Hub. rewrite Hb in Hub.
  destruct (decide (b ∈ bs)) as [Hin|Hnin].
  - eapply lwp_brelse; [exact Hs|exact Hub|lia|]. intros s' Hs'. split; [done|]. eexists. exists bs, Lg. split; [exact Hs'|done..|].
    intros c. cbn [Z.eqb Pos.eqb]. unfold use_ok in *. destruct (decide (c = b)) as [->|Hne].
    + rewrite lookup_delete_eq, lookup_insert_eq. destruct (decide (b ∈ bs)); [eauto|done].
    + rewrite lookup_delete_ne, lookup_insert_ne by done. apply Hu.
  - assert (V b = C b) as Ecl by (destruct Hcl as [Hl|]; [|done]; rewrite HL in Hl; apply elem_of_list_to_set in Hl; done).
    eapply lwp_brelse; [exact Hs|exact Hub|done|]. intros s' Hs'. split; [done|]. eexists. exists bs, Lg. split; [exact Hs'|done..|].
    intros c. cbn [Z.eqb Pos.eqb]. unfold use_ok in *. destruct (decide (c = b)) as [->|Hne].
    + rewrite !lookup_delete_eq. destruct (decide (b ∈ bs)); done.
    + rewrite !lookup_delete_ne by done. apply Hu.
Qed.

#[export] Instance log_laws (W : list (Z * block)) : BlockLaws fsst d fs_home (Z.to_nat MAXOPBLOCKS).
Proof using Hlog.
  refine (Build_BlockLaws _ _ _ _ _ (in_txn_of W) _ _ _ _ _ _ _).
  - intros s p C V H L (U & bs & Lg & [Hs _ _ _ _ _ _ _ _ _]). apply Hs.
  - intros s p C V H L c (U & bs & Lg & [Hs HL Hlo Hbs Hc Hsz' Ho Hcm Hh Hu]). exists U, bs, Lg. split; try done.
    destruct Hs as [S1 S2 S3 S4]. split; try done. cbn. eapply rep_same; [..|exact S4]; done.
  - intros. by apply read_law.
  - intros s p C V H L b i (U & bs & Lg & [Hs HL Hlo Hbs Hc Hsz' Ho Hcm Hh Hu]) Hb. pose proof (Hu b) as Hub. unfold use_ok in Hub. rewrite Hb in Hub.
    cbn. destruct (decide (b ∈ bs)); eapply lwp_data; eauto.
  - intros. by apply put_law.
  - intros. by eapply log_law.
  - intros. by eapply relse_law.
Defined.
End FsLog.

(** ** The ends of a transaction *)

Section Ends.
Context (d start nlog : Z) (Hlog : MAXOPBLOCKS + 1 < nlog) (Hd : 0 < d < 2 ^ 32) (Harea : 0 <= start /\ start + nlog <= 2 ^ 31).

Lemma begin_txn s : quiescent d start nlog s -> exists p C V, (forall b, dk (bc s) b = C b) /\ (forall b, V b = C b) /\
  wp Log.begin_op (KSt [] s) (fun _ k => held k = [] /\ in_txn_of d start nlog (writes (bc s)) (st k) p C V ∅ ∅).
Proof using Hlog Hd Harea.
  intros Hq. destruct (begin_op_spec d start nlog s Hq) as (L & p & W & V & D & Hs & Hb). exists p, D, V.
  assert (loggable start nlog []) as Hl0.
  { split; [constructor|constructor|cbn; unfold LOGSIZE, MAXOPBLOCKS in *; lia|done]. }
  split; [intros b; apply (rp_disk _ _ _ _ _ (sd_rep _ _ _ _ _ _ _ _ Hs))|].
  destruct (wp_elim _ _ _ Hb) as ([] & k0 & E0 & _ & Ht0). specialize (Ht0 Hl0). split.
  { intros b. apply (it_clean _ _ _ _ _ _ _ _ _ _ Ht0). set_solver. }
  eapply wp_mono; [exact Hb|]. intros _ k [Hk Ht]. split; [done|]. specialize (Ht Hl0).
  destruct Ht as [(U & HsU & Hdom & _) HL Hab Hsz Ho Hc Hcl Hh]. exists U, [], (with_outstanding 1 L).
  assert (U = ∅) as -> by (apply dom_empty_iff_L; by rewrite Hdom).
  rewrite (sd_writes _ _ _ _ _ _ _ _ Hs). split; [done|done|done|done|cbn; unfold MAXOPBLOCKS; lia|done..|].
  intros b. unfold use_ok. rewrite !lookup_empty. destruct (decide (b ∈ [])); [set_solver|done].
Qed.

(** What a crash can leave of a transaction that turned the contents [C] into [V]. *)
Definition atomic_from (m : gmap Z block) (C V : Z -> block) (ws : list (Z * block)) : Prop :=
  forall k q, exists s2, reboot d start nlog (KSt [] (power_on (disk_after m (take k ws)) q)) = Ok tt (KSt [] s2) /\
    quiescent d start nlog s2 /\
    ((forall b, home start nlog b -> dk (bc s2) b = C b) \/ (forall b, home start nlog b -> dk (bc s2) b = V b)).

Lemma end_txn m W s p C V L : (forall b, disk_of m b = C b) -> in_txn_of d start nlog W s p C V ∅ L -> (forall b, b ∉ L -> V b = C b) ->
  exists s1 ws, Log.end_op (KSt [] s) = Ok tt (KSt [] s1) /\ quiescent d start nlog s1 /\ writes (bc s1) = W ++ ws /\
    (forall b, home start nlog b -> dk (bc s1) b = V b) /\ atomic_from m C V ws.
Proof using Hlog Hd Harea.
  intros HC (U & bs & Lg & [Hs HL Hlo Hbs Hc Hsz' Ho Hcm Hh Hu]) Hcl.
  assert (in_txn d start nlog s p W V C bs Lg) as Ht.
  { split; try done; [|intros b Hb; apply Hcl; rewrite HL; set_solver]. exists U. split; [done|]. split.
    - apply set_eq. intros b. rewrite elem_of_dom, elem_of_list_to_set. specialize (Hu b). unfold use_ok in Hu. rewrite lookup_empty in Hu.
      destruct (decide (b ∈ bs)); [destruct Hu as [i ->]; split; [done|eauto]|]. rewrite Hu. split; [intros []; done|done].
    - intros b Hb. specialize (Hu b). unfold use_ok in Hu. rewrite lookup_empty in Hu. by destruct (decide (b ∈ bs)). }
  assert (Z.of_nat (length bs) < LOGSIZE /\ Z.of_nat (length bs) < nlog) as [Hn1 Hn2] by (unfold LOGSIZE, MAXOPBLOCKS in *; lia).
  destruct (wp_elim _ _ _ (end_op_spec d start nlog _ _ _ _ _ _ _ Ht ltac:(unfold LOGSIZE, MAXOPBLOCKS in *; lia)))
    as ([] & [h1 s1] & E1 & Eh & Hq & L1 & HL1 & Hw & Hdk). cbn [held st] in *. subst h1.
  assert (forall b, (if decide (b ∈ bs) then V b else C b) = V b) as HV.
  { intros b. destruct (decide (b ∈ bs)); [done|]. symmetry. apply Hcl. rewrite HL. set_solver. }
  exists s1, (txn_writes start L1 V bs). split_and!; [done|done|done| |].
  - intros b Hb. rewrite Hdk, (txn_done d start nlog) by done. apply HV.
  - intros k q. destruct (txn_crash d start nlog L1 V C bs k HL1 Hbs Hh) as [Hrec Hcase].
    assert (forall a, disk_of (disk_after m (take k (txn_writes start L1 V bs))) a = apply_writes C (take k (txn_writes start L1 V bs)) a) as HD1.
    { intros a. unfold disk_of. rewrite disk_after_apply. apply apply_writes_ext. intros c. apply HC. }
    assert (recoverable start nlog (disk_of (disk_after m (take k (txn_writes start L1 V bs))))) as Hrec' by (eapply recoverable_ext; [apply HD1|exact Hrec]).
    destruct (wp_elim _ _ _ (reboot_spec d start nlog _ q Hd Hrec')) as ([] & [h2 s2] & E2 & Eh2 & _ & Hdk2 & _). cbn [held st] in *. subst h2.
    destruct (wp_elim _ _ _ (reboot_quiescent d start nlog _ q Hd Hrec')) as ([] & [h3 s3] & E3 & _ & Hq3). rewrite E2 in E3. injection E3 as <- <-.
    exists s2. split_and!; [done|done|].
    destruct Hcase as [Hx|Hx]; [left|right]; intros b Hb; rewrite Hdk2, (after_recovery_ext _ (apply_writes C (take k (txn_writes start L1 V bs)))), Hx by done; [done|apply HV].
Qed.
End Ends.
