(* ===== verification/Sysfile.v ===== *)
(** * Files and the file system calls (kernel/file.c, kernel/sysfile.c)

    The state adds to the file system of Fs.v the table of open files, the descriptors of
    the calling process and the words of its trap frame that hold the arguments.  Pipes,
    sockets and devices, which have models of their own over their own states, are
    arguments of the section. *)
From S2P Require Import Prelude Mem Sleeplock Ftable Fs.

Definition NOFILE : Z := 16.
Definition NDEV : Z := 10.
Definition MAXPATH : Z := 128.
Definition MAXOPBLOCKS : Z := 10.
Definition O_RDONLY : Z := 0.
Definition O_WRONLY : Z := 1.
Definition O_RDWR : Z := 2.
Definition O_CREATE : Z := 512.
Definition O_TRUNC : Z := 1024.

Section Sysfile.
Context {B U : Type} `{!BlockOps B, !CopyOps U}.
Abbreviation fs := (@fs B U).

Record sys := Sys { sy_fs : fs; sy_ft : ftable; sy_ofile : gmap Z Z; sy_args : Z -> Z }.
Definition with_fs (x : fs) (s : sys) : sys := Sys x (sy_ft s) (sy_ofile s) (sy_args s).
Definition with_ofile (o : gmap Z Z) (s : sys) : sys := Sys (sy_fs s) (sy_ft s) o (sy_args s).
#[export] Instance sys_ftable : HasFtable sys := {
  ft := sy_ft;
  set_ft t s := Sys (sy_fs s) t (sy_ofile s) (sy_args s) }.
Definition onfs {A} (m : M fs A) : M sys A := zoom sy_fs with_fs m.
Definition inode_of (ip : Z) : M sys inode := gets (fun s => ino (sy_fs s) ip).

(** Pipes, sockets and devices; [devsw_read major] is [None] for a null pointer. *)
Context (piperead pipewrite : Z -> Z -> Z -> M sys Z) (pipeclose : Z -> bool -> M sys unit) (pipealloc : M sys (option (Z * Z)))
  (devsw_read devsw_write : Z -> option (bool -> Z -> Z -> M sys Z))
  (sockread sockwrite : Z -> Z -> Z -> M sys Z) (sockclose : Z -> M sys unit) (sockalloc : Z -> Z -> Z -> M sys (option Z)).
(** The addresses of local variables, and the padding of struct stat on the stack. *)
Context (de_at : Z) (st_pad : list Z).

(** ** file.c *)

(** The part of fileclose behind the last reference. *)
Definition close_file (ff : file) : M sys unit :=
  match f_type ff with
  | FD_PIPE => pipeclose (f_pipe ff) (f_writable ff)
  | FD_INODE | FD_DEVICE => onfs begin_op ;; onfs (iput (f_ip ff)) ;; onfs end_op
  | FD_SOCK => sockclose (f_sock ff)
  | FD_NONE => mret tt
  end.
Definition fileclose (f : Z) : M sys unit := Ftable.fileclose close_file f.

Definition stat_bytes (st : stat) : list Z :=
  le_bytes (u32 (s_dev st)) 4 ++ le_bytes (u32 (s_ino st)) 4 ++ le_bytes (u16 (s_type st)) 2 ++ le_bytes (u16 (s_nlink st)) 2 ++
  st_pad ++ le_bytes (u64 (s_size st)) 8.
Definition filestat (f addr : Z) : M sys Z :=
  x ← gets (fun s => fget (sy_ft s) f);
  match f_type x with
  | FD_INODE | FD_DEVICE =>
    onfs (ilock (f_ip x)) ;;
    st ← onfs (stati (f_ip x));
    onfs (iunlock (f_ip x)) ;;
    r ← onfs (onmem (copy_out true addr (stat_bytes st)));
    if r <? 0 then mret (-1) else mret 0
  | _ => mret (-1)
  end.

Definition fileread (f addr n : Z) : M sys Z :=
  x ← gets (fun s => fget (sy_ft s) f);
  if negb (f_readable x) then mret (-1) else
  match f_type x with
  | FD_PIPE => piperead (f_pipe x) addr n
  | FD_DEVICE =>
    if (f_major x <? 0) || (NDEV <=? f_major x) then mret (-1) else
    match devsw_read (f_major x) with None => mret (-1) | Some read => read true addr n end
  | FD_INODE =>
    onfs (ilock (f_ip x)) ;;
    off ← gets (fun s => f_off (fget (sy_ft s) f));
    r ← onfs (readi (f_ip x) true addr off (u32 n));
    (if 0 <? r then upd_file f (fun y => set_off (u32 (f_off y + r)) y) else mret tt) ;;
    onfs (iunlock (f_ip x)) ;;
    mret r
  | FD_SOCK => sockread (f_sock x) addr n
  | FD_NONE => panic "fileread"
  end.

Definition write_max : Z := (MAXOPBLOCKS - 1 - 1 - 2) / 2 * BSIZE.
(** One transaction of filewrite: the result of writei. *)
Definition write_chunk (f addr n1 : Z) : M sys Z :=
  onfs begin_op ;;
  ip ← gets (fun s => f_ip (fget (sy_ft s) f));
  onfs (ilock ip) ;;
  off ← gets (fun s => f_off (fget (sy_ft s) f));
  r ← onfs (writei ip true addr off (u32 n1));
  (if 0 <? r then upd_file f (fun y => set_off (u32 (f_off y + r)) y) else mret tt) ;;
  onfs (iunlock ip) ;;
  onfs end_op ;;
  mret r.
(** The loop of filewrite: the final [i]. *)
Fixpoint filewrite_loop (fuel : nat) (f addr n i : Z) : M sys Z :=
  if i <? n then
    match fuel with
    | O => panic no_fuel
    | S fuel =>
      let n1 := if write_max <? n - i then write_max else n - i in
      r ← write_chunk f (u64 (addr + i)) n1;
      if negb (r =? n1) then mret i else filewrite_loop fuel f addr n (i + r)
    end
  else mret i.
Definition filewrite (f addr n : Z) : M sys Z :=
  x ← gets (fun s => fget (sy_ft s) f);
  if negb (f_writable x) then mret (-1) else
  match f_type x with
  | FD_PIPE => pipewrite (f_pipe x) addr n
  | FD_DEVICE =>
    if (f_major x <? 0) || (NDEV <=? f_major x) then mret (-1) else
    match devsw_write (f_major x) with None => mret (-1) | Some write => write true addr n end
  | FD_INODE =>
    i ← filewrite_loop (Z.to_nat (n / write_max + 1)) f addr n 0;
    mret (if i =? n then n else -1)
  | FD_SOCK => sockwrite (f_sock x) addr n
  | FD_NONE => panic "filewrite"
  end.

(** ** sysfile.c *)

(** argint, argaddr and argstr of syscall.c; the first two never fail. *)
Definition argint (n : Z) : M sys Z := gets (fun s => i32 (sy_args s n)).
Definition argaddr (n : Z) : M sys Z := gets (fun s => sy_args s n).
Definition argstr (n max : Z) : M sys (option (list Z)) := a ← argaddr n; onfs (onmem (copy_str a max)).

Definition argfd (n : Z) : M sys (option (Z * Z)) :=
  fd ← argint n;
  o ← gets sy_ofile;
  mret (if (fd <? 0) || (NOFILE <=? fd) then None else f ← o !! fd; Some (fd, f)).

Fixpoint find_fd (o : gmap Z Z) (l : list Z) : option Z :=
  match l with [] => None | fd :: l' => match o !! fd with None => Some fd | Some _ => find_fd o l' end end.
Definition fdalloc (f : Z) : M sys Z :=
  o ← gets sy_ofile;
  match find_fd o (seqZ 0 NOFILE) with
  | Some fd => modify (with_ofile (<[fd := f]> o)) ;; mret fd
  | None => mret (-1)
  end.
Definition clear_fd (fd : Z) : M sys unit := modify (fun s => with_ofile (delete fd (sy_ofile s)) s).

Definition sys_dup : M sys Z :=
  a ← argfd 0;
  match a with
  | None => mret (-1)
  | Some (_, f) =>
    fd ← fdalloc f;
    if fd <? 0 then mret (-1) else filedup f ;; mret fd
  end.
Definition sys_read : M sys Z :=
  a ← argfd 0;
  match a with None => mret (-1) | Some (_, f) => n ← argint 2; p ← argaddr 1; fileread f p n end.
Definition sys_write : M sys Z :=
  a ← argfd 0;
  match a with None => mret (-1) | Some (_, f) => n ← argint 2; p ← argaddr 1; filewrite f p n end.
Definition sys_close : M sys Z :=
  a ← argfd 0;
  match a with None => mret (-1) | Some (fd, f) => clear_fd fd ;; fileclose f ;; mret 0 end.
Definition sys_fstat : M sys Z :=
  a ← argfd 0;
  match a with None => mret (-1) | Some (_, f) => st ← argaddr 1; filestat f st end.

(** Changing the fields of a locked inode and writing it back. *)
Definition upd_dinode (ip : Z) (g : dinode -> dinode) : M sys unit :=
  onfs (modify (upd_ino ip (fun x => set_id (g (i_d x)) x)) ;; iupdate ip).
Definition add_nlink (k : Z) (d : dinode) : dinode := set_dnlink (i16 (d_nlink d + k)) d.

Definition sys_link : M sys Z :=
  old ← argstr 0 MAXPATH;
  match old with None => mret (-1) | Some old =>
  new ← argstr 1 MAXPATH;
  match new with None => mret (-1) | Some new =>
  onfs begin_op ;;
  ip ← onfs (namei de_at old);
  match ip with
  | None => onfs end_op ;; mret (-1)
  | Some ip =>
    onfs (ilock ip) ;;
    x ← inode_of ip;
    if i_type x =? T_DIR then onfs (iunlockput ip) ;; onfs end_op ;; mret (-1) else
    upd_dinode ip (add_nlink 1) ;;
    onfs (iunlock ip) ;;
    let bad :=
      onfs (ilock ip) ;;
      upd_dinode ip (add_nlink (-1)) ;;
      onfs (iunlockput ip) ;;
      onfs end_op ;;
      mret (-1) in
    dp ← onfs (nameiparent de_at new);
    match dp with
    | None => bad
    | Some (dp, name) =>
      onfs (ilock dp) ;;
      y ← inode_of dp;
      x ← inode_of ip;
      r ← (if negb (i_dev y =? i_dev x) then mret (-1) else onfs (dirlink de_at dp name (i_inum x)));
      if r <? 0 then onfs (iunlockput dp) ;; bad else
      onfs (iunlockput dp) ;;
      onfs (iput ip) ;;
      onfs end_op ;;
      mret 0
    end
  end end end.

Fixpoint isdirempty_loop (fuel : nat) (dp off : Z) : M fs bool :=
  size ← gets (fun s => i_size (ino s dp));
  if off <? size then
    match fuel with
    | O => panic no_fuel
    | S f =>
      de ← read_dirent de_at dp off "isdirempty: readi";
      if negb (de_inum de =? 0) then mret false else isdirempty_loop f dp (off + SIZEOF_DIRENT)
    end
  else mret true.
Definition isdirempty (dp : Z) : M fs bool :=
  size ← gets (fun s => i_size (ino s dp));
  isdirempty_loop (Z.to_nat (size / SIZEOF_DIRENT + 1)) dp (2 * SIZEOF_DIRENT).

Definition dot : list Z := [46].
Definition dotdot : list Z := [46; 46].

Definition sys_unlink : M sys Z :=
  path ← argstr 0 MAXPATH;
  match path with None => mret (-1) | Some path =>
  onfs begin_op ;;
  dp ← onfs (nameiparent de_at path);
  match dp with
  | None => onfs end_op ;; mret (-1)
  | Some (dp, name) =>
    onfs (ilock dp) ;;
    let bad := onfs (iunlockput dp) ;; onfs end_op ;; mret (-1) in
    if (namecmp name dot =? 0) || (namecmp name dotdot =? 0) then bad else
    r ← onfs (dirlookup de_at dp name);
    match r with
    | None => bad
    | Some (ip, off) =>
      onfs (ilock ip) ;;
      x ← inode_of ip;
      if i_nlink x <? 1 then panic "unlink: nlink < 1" else
      empty ← (if i_type x =? T_DIR then onfs (isdirempty ip) else mret true);
      if negb empty then onfs (iunlockput ip) ;; bad else
      onfs (onmem (kput de_at (replicate (Z.to_nat SIZEOF_DIRENT) 0))) ;;
      w ← onfs (writei dp false de_at off SIZEOF_DIRENT);
      if negb (w =? SIZEOF_DIRENT) then panic "unlink: writei" else
      (if i_type x =? T_DIR then upd_dinode dp (add_nlink (-1)) else mret tt) ;;
      onfs (iunlockput dp) ;;
      upd_dinode ip (add_nlink (-1)) ;;
      onfs (iunlockput ip) ;;
      onfs end_op ;;
      mret 0
    end
  end end.

Definition set_dev (major minor nlink : Z) (d : dinode) : dinode := Dinode (d_type d) (i16 major) (i16 minor) nlink (d_size d) (d_addrs d).

Definition create (path : list Z) (type major minor : Z) : M sys (option Z) :=
  dp ← onfs (nameiparent de_at path);
  match dp with
  | None => mret None
  | Some (dp, name) =>
    onfs (ilock dp) ;;
    r ← onfs (dirlookup de_at dp name);
    match r with
    | Some (ip, _) =>
      onfs (iunlockput dp) ;;
      onfs (ilock ip) ;;
      x ← inode_of ip;
      if (type =? T_FILE) && ((i_type x =? T_FILE) || (i_type x =? T_DEVICE)) then mret (Some ip)
      else onfs (iunlockput ip) ;; mret None
    | None =>
      y ← inode_of dp;
      ip ← onfs (ialloc (i_dev y) type);
      onfs (ilock ip) ;;
      upd_dinode ip (set_dev major minor 1) ;;
      x ← inode_of ip;
      (if type =? T_DIR then
         upd_dinode dp (add_nlink 1) ;;
         r1 ← onfs (dirlink de_at ip dot (i_inum x));
         if r1 <? 0 then panic "create dots" else
         r2 ← onfs (dirlink de_at ip dotdot (i_inum y));
         if r2 <? 0 then panic "create dots" else mret tt
       else mret tt) ;;
      r ← onfs (dirlink de_at dp name (i_inum x));
      if r <? 0 then panic "create: dirlink" else
      onfs (iunlockput dp) ;;
      mret (Some ip)
    end
  end.

Definition flag (omode bit : Z) : bool := negb (Z.land omode bit =? 0).
(** The fields sys_open fills in. *)
Definition open_file (x : inode) (ip omode : Z) (f : file) : file :=
  File (if i_type x =? T_DEVICE then FD_DEVICE else FD_INODE) (f_ref f) (negb (flag omode O_WRONLY)) (flag omode O_WRONLY || flag omode O_RDWR)
    (f_pipe f) ip (f_sock f) (if i_type x =? T_DEVICE then f_off f else 0) (if i_type x =? T_DEVICE then d_major (i_d x) else f_major f).

Definition sys_open : M sys Z :=
  path ← argstr 0 MAXPATH;
  match path with None => mret (-1) | Some path =>
  omode ← argint 1;
  onfs begin_op ;;
  ip ← (if flag omode O_CREATE then create path T_FILE 0 0
        else
          r ← onfs (namei de_at path);
          match r with
          | None => mret None
          | Some ip =>
            onfs (ilock ip) ;;
            x ← inode_of ip;
            if (i_type x =? T_DIR) && negb (omode =? O_RDONLY) then onfs (iunlockput ip) ;; mret None
            else mret (Some ip)
          end);
  match ip with
  | None => onfs end_op ;; mret (-1)
  | Some ip =>
    x ← inode_of ip;
    if (i_type x =? T_DEVICE) && ((d_major (i_d x) <? 0) || (NDEV <=? d_major (i_d x))) then onfs (iunlockput ip) ;; onfs end_op ;; mret (-1) else
    f ← filealloc;
    fd ← (match f with None => mret (-1) | Some f => fdalloc f end);
    match f with
    | None => onfs (iunlockput ip) ;; onfs end_op ;; mret (-1)
    | Some f =>
      if fd <? 0 then fileclose f ;; onfs (iunlockput ip) ;; onfs end_op ;; mret (-1) else
      upd_file f (open_file x ip omode) ;;
      (if flag omode O_TRUNC && (i_type x =? T_FILE) then onfs (itrunc ip) else mret tt) ;;
      onfs (iunlock ip) ;;
      onfs end_op ;;
      mret fd
    end
  end end.

(** sys_mkdir and sys_mknod, with what they ask create for. *)
Definition make (type : Z) (major minor : M sys Z) : M sys Z :=
  onfs begin_op ;;
  path ← argstr 0 MAXPATH;
  match path with
  | None => onfs end_op ;; mret (-1)
  | Some path =>
    ma ← major;
    mi ← minor;
    ip ← create path type ma mi;
    match ip with
    | None => onfs end_op ;; mret (-1)
    | Some ip => onfs (iunlockput ip) ;; onfs end_op ;; mret 0
    end
  end.
Definition sys_mkdir : M sys Z := make T_DIR (mret 0) (mret 0).
Definition sys_mknod : M sys Z := make T_DEVICE (argint 1) (argint 2).

Definition sys_chdir : M sys Z :=
  onfs begin_op ;;
  path ← argstr 0 MAXPATH;
  ip ← (match path with None => mret None | Some path => onfs (namei de_at path) end);
  match ip with
  | None => onfs end_op ;; mret (-1)
  | Some ip =>
    onfs (ilock ip) ;;
    x ← inode_of ip;
    if negb (i_type x =? T_DIR) then onfs (iunlockput ip) ;; onfs end_op ;; mret (-1) else
    onfs (iunlock ip) ;;
    cwd ← gets (fun s => fs_cwd (sy_fs s));
    onfs (iput cwd) ;;
    onfs end_op ;;
    onfs (modify (fun s => MkFs (fs_blk s) (fs_mem s) (fs_sb s) (icache s) ip)) ;;
    mret 0
  end.

Definition sys_pipe : M sys Z :=
  fdarray ← argaddr 0;
  r ← pipealloc;
  match r with
  | None => mret (-1)
  | Some (rf, wf) =>
    fd0 ← fdalloc rf;
    fd1 ← (if fd0 <? 0 then mret (-1) else fdalloc wf);
    if (fd0 <? 0) || (fd1 <? 0) then
      (if 0 <=? fd0 then clear_fd fd0 else mret tt) ;;
      fileclose rf ;; fileclose wf ;; mret (-1)
    else
      r0 ← onfs (onmem (copy_out true fdarray (le_bytes fd0 4)));
      r1 ← (if r0 <? 0 then mret (-1) else onfs (onmem (copy_out true (u64 (fdarray + 4)) (le_bytes fd1 4))));
      if (r0 <? 0) || (r1 <? 0) then
        clear_fd fd0 ;; clear_fd fd1 ;; fileclose rf ;; fileclose wf ;; mret (-1)
      else mret 0
  end.

Definition sys_connect : M sys Z :=
  raddr ← argint 0;
  lport ← argint 1;
  rport ← argint 2;
  r ← sockalloc (u32 raddr) (u16 lport) (u16 rport);
  match r with
  | None => mret (-1)
  | Some f =>
    fd ← fdalloc f;
    if fd <? 0 then fileclose f ;; mret (-1) else mret fd
  end.
End Sysfile.
