(* ===== verification/FileThms.v ===== *)
(** * Writing files: correctness and crash safety of filewrite *)
From S2P Require Import Prelude Mem Sleeplock Bio Log LogSpec LogThms LogTxn Ftable Fs FsSpec FsAlloc FsWf FsBmap FsFile FsInode FsRw FsWrite FsAgree FsLog Sysfile.

(** A run that returns. *)
Lemma wp_ok {S A} (m : M S A) k a k' : wp m k (fun b k2 => b = a /\ k2 = k') -> m k = Ok a k'.
Proof. intros H. destruct (wp_elim _ _ _ H) as (b & k2 & -> & -> & ->). done. Qed.

(** ** Locking a valid inode *)

Section Lock.
Context {B U : Type} `{!BlockOps B, !CopyOps U}.
Abbreviation fs := (@fs B U).
Implicit Types (s : fs).

Lemma wp_ilock_valid s ip Q : 1 <= i_ref (ino s ip) -> locked (i_lock (ino s ip)) = false -> i_valid (ino s ip) = true ->
  Q tt (KSt [] (set_lock_of ip (Sleeplock true (mypid (fs_blk s))) s)) -> wp (ilock ip) (KSt [] s) Q.
Proof.
  intros Hr Hl Hv HQ. unfold ilock. wstep. wstep. destruct (Z.ltb_spec (i_ref (ino s ip)) 1); [lia|]. wstep.
  apply wp_acquiresleep; [set_solver|done|]. wstep. wstep. unfold set_lock_of at 1. rewrite ino_upd. cbn [set_ilock i_valid]. rewrite Hv. by wstep.
Qed.
Lemma wp_iunlock s ip Q : 1 <= i_ref (ino s ip) -> i_lock (ino s ip) = Sleeplock true (mypid (fs_blk s)) ->
  Q tt (KSt [] (add_wake (inode_lock ip) (set_lock_of ip (Sleeplock false 0) s))) -> wp (iunlock ip) (KSt [] s) Q.
Proof.
  intros Hr Hl HQ. unfold iunlock. wstep. apply wp_holdingsleep; [set_solver|]. wstep. wstep. unfold lock_of at 1 2. rewrite Hl. cbn [locked lpid andb].
  change (mypid s) with (mypid (fs_blk s)). rewrite Z.eqb_refl. cbn [negb orb]. destruct (Z.ltb_spec (i_ref (ino s ip)) 1); [lia|].
  by apply wp_releasesleep; [set_solver|].
Qed.

Lemma wp_onfs {A} (m : M fs A) h (s : sys) (Q : A -> kst sys -> Prop) :
  wp m (KSt h (sy_fs s)) (fun a k => Q a (KSt (held k) (with_fs (st k) s))) -> wp (onfs m) (KSt h s) Q.
Proof. unfold wp, onfs, zoom. cbn. by destruct (m _). Qed.
End Lock.

Lemma set_id_eta x x' D : x' = Fs.set_id D x -> x' = Fs.set_id (i_d x') x.
Proof. by intros ->. Qed.

(** ** One transaction of filewrite *)

Section Chunk.
Context {U : Type} `{!CopyOps U, !CopyLaws U} (d start nlog : Z).
Context (Hlog : Log.MAXOPBLOCKS + 1 < nlog) (Hd : 0 < d < 2 ^ 32) (Harea : 0 <= start /\ start + nlog <= 2 ^ 31).
Context (sb : superblock) (Hly : layout (fs_home start nlog) sb).
Abbreviation fs := (@fs fsst U).
Abbreviation sys := (@sys fsst U).
Implicit Types (s : sys) (F : gmap Z (list Z)) (V : Z -> block).

(** The contents of the disk. *)
Definition disk_view (x : fs) : Z -> block := dk (bc (fs_blk x)).
Lemma home_agree V V' : (forall b, home start nlog b -> V b = V' b) -> agree sb V V'.
Proof using Hly. intros H b Hb. apply H. by apply (ly_home _ _ Hly). Qed.

(** An inode that is referenced, in memory and not locked. *)
Record idle (x : fs) (ip : Z) : Prop := {
  id_ref : 1 <= i_ref (ino x ip);
  id_lock : i_lock (ino x ip) = Sleeplock false 0;
  id_valid : i_valid (ino x ip) = true;
}.
(** Between system calls: no transaction, and a well-formed disk that agrees with the inode. *)
Record at_rest (x : fs) F (ip i : Z) : Prop := {
  ar_quiet : quiescent d start nlog (fs_blk x);
  ar_sb : fs_sb x = sb;
  ar_wf : wf sb (disk_view x) F;
  ar_ino : incore d sb x F ip i;
  ar_idle : idle x ip;
}.

Lemma written_unlock (x x2 x3 x4 : fs) V F ip i V' off l p : i_lock (ino x ip) = Sleeplock false 0 ->
  (exists b, x2 = set_lock_of ip (Sleeplock true p) (with_blk b x)) -> written sb x2 V F ip i x3 V' off l -> (exists b, x4 = with_blk b (set_lock_of ip (Sleeplock false 0) x3)) ->
  written sb x V F ip i x4 V' off l.
Proof.
  intros Hl [b0 ->] W [b ->]. destruct W as [W1 W2 W3 W4 W5 W6 W7 W8 W9 W10 W11]. cbv zeta in *.
  assert (ino (set_lock_of ip (Sleeplock true p) (with_blk b0 x)) ip = set_ilock (Sleeplock true p) (ino x ip)) as E2 by (unfold set_lock_of; by rewrite ino_upd).
  assert (ino (with_blk b (set_lock_of ip (Sleeplock false 0) x3)) ip = set_ilock (Sleeplock false 0) (ino x3 ip)) as E4 by apply (ino_upd ip).
  unfold i_size, i_addrs in *. rewrite E2 in *. split; cbv zeta; unfold i_size, i_addrs; rewrite ?E4; cbn [set_ilock i_d] in *; try done.
  - rewrite W3. cbn. rewrite <- Hl. by destruct (ino x ip).
  - intros jp Hj. unfold set_lock_of. change (ino (upd_ino ip (set_ilock (Sleeplock false 0)) x3) jp = ino x jp).
    rewrite ino_upd_ne by done. rewrite W10 by done. unfold set_lock_of. by rewrite ino_upd_ne.
Qed.

Lemma nblk_max off n : 0 <= n <= write_max -> (nblk off n <= 4)%nat.
Proof. intros Hn. change write_max with 3072 in Hn. unfold nblk, BSIZE. pose proof (Z.mod_pos_bound off 1024 ltac:(lia)). dlia. Qed.
Lemma weight_empty a : (weight sb ∅ a <= 2)%nat.
Proof.
  unfold weight. pose proof (size_add (sb_bmapstart sb) ∅) as H1. rewrite size_empty in H1. case_match; [lia|].
  pose proof (size_add (dir_addr a NDIRECT) ({[sb_bmapstart sb]} ∪ ∅)). lia.
Qed.

Definition wrote_off (f r : Z) (t : ftable) : ftable := if 0 <? r then <[f := set_off (u32 (f_off (fget t f) + r)) (fget t f)]> t else t.

(** The outcome of a chunk: the bytes [l] at the file's offset, one atomic transaction. *)
Record chunk_done s F (f ip i : Z) s' (l : list Z) (off := f_off (fget (sy_ft s) f)) : Prop := {
  cd_written : written sb (sy_fs s) (disk_view (sy_fs s)) F ip i (sy_fs s') (disk_view (sy_fs s')) off l;
  cd_rest : at_rest (sy_fs s') (<[i := i_addrs (ino (sy_fs s') ip)]> F) ip i;
  cd_ft : sy_ft s' = wrote_off f (Z.of_nat (length l)) (sy_ft s);
  cd_other : sy_ofile s' = sy_ofile s /\ sy_args s' = sy_args s;
  cd_free : (nfree sb (disk_view (sy_fs s)) + need (i_addrs (ino (sy_fs s') ip)) <= nfree sb (disk_view (sy_fs s')) + need (i_addrs (ino (sy_fs s) ip)) + 4)%nat;
  cd_atomic : exists ws, writes (bc (fs_blk (sy_fs s'))) = writes (bc (fs_blk (sy_fs s))) ++ ws /\
    atomic_from d start nlog (disk (bc (fs_blk (sy_fs s)))) (disk_view (sy_fs s)) (disk_view (sy_fs s')) ws;
}.

Lemma write_chunk_spec s F f ip i addr n (x := sy_fs s) (off := f_off (fget (sy_ft s) f)) :
  at_rest x F ip i -> f_ip (fget (sy_ft s) f) = ip -> 0 <= off <= i_size (ino x ip) -> 0 <= n <= write_max -> off + n <= MAXFILE * BSIZE ->
  0 <= addr -> addr + n < 2 ^ 64 -> mapped_range (fs_mem x) true addr n ->
  (nblk off n + need (i_addrs (ino x ip)) <= nfree sb (disk_view x))%nat ->
  exists s' l, write_chunk f addr n (KSt [] s) = Ok n (KSt [] s') /\ source (fs_mem x) true addr n l /\ chunk_done s F f ip i s' l.
Proof using Hlog Hd Harea Hly.
  intros [Hq Hsb Hwf Hic Hidle] Hf Hoff Hn Hmax Ha Ha2 Hmap Hfree. destruct (begin_txn d start nlog Hlog Hd Harea _ Hq) as (p & C & V & HC & HV & Hb).
  set (W := writes (bc (fs_blk x))) in *. set (LAW := log_laws d start nlog Hlog W).
  assert (agree sb (disk_view x) V) as HA0 by (intros b _; unfold disk_view; by rewrite HC, HV).
  destruct (wp_elim _ _ _ Hb) as ([] & [h1 b1] & E1 & Eh & Hin). cbn [held st] in Eh, Hin. subst h1.
  set (x1 := with_blk b1 x). set (x2 := set_lock_of ip (Sleeplock true p) x1).
  assert (mypid b1 = p) as Hp by (by eapply (inside_pid (BlockLaws := LAW))). destruct Hidle as [Hr Hl Hv].
  assert (txn d (fs_home start nlog) _ x2 p C V ∅ ∅) as Ht2 by (split; [exact Hin|intros b _; apply HV]).
  assert (ino x2 ip = set_ilock (Sleeplock true p) (ino x ip)) as Ei2 by (unfold x2, set_lock_of; by rewrite ino_upd).
  assert (incore d sb x2 F ip i) as Hic2 by (destruct Hic as [I1 I2 I3 I4 I5 I6]; split; rewrite ?Ei2; done).
  assert (wf sb V F) as HwfV by (by eapply agree_wf). pose proof (nblk_max off n Hn) as Hnb. pose proof (weight_empty (i_addrs (ino x ip))) as Hwe.
  assert (wp (writei (U := U) ip true addr off n) (KSt [] x2) (fun r k => exists x3 V3 L3 l, r = n /\ k = KSt [] x3 /\
    txn d (fs_home start nlog) (Z.to_nat Log.MAXOPBLOCKS) x3 p C V3 ∅ L3 /\ source (fs_mem x) true addr n l /\ written sb x2 V F ip i x3 V3 off l /\
    (nfree sb V + need (i_addrs (ino x3 ip)) <= nfree sb V3 + need (i_addrs (ino x ip)) + 4)%nat)) as Hwr.
  { assert (i_addrs (ino x2 ip) = i_addrs (ino x ip) /\ i_size (ino x2 ip) = i_size (ino x ip)) as [Ead Esz] by (by rewrite Ei2).
    eapply (wp_writei d (fs_home start nlog) _ sb Hly x2 p C V ∅ F ip i); [exact Ht2|exact Hsb|exact HwfV|exact Hic2|rewrite Esz; lia|lia|lia|lia|lia|exact Hmap| | |].
    - rewrite Ead. by rewrite <- (agree_nfree _ sb Hly (disk_view x) V).
    - rewrite Ead. change (Z.to_nat Log.MAXOPBLOCKS) with 10%nat. lia.
    - intros x3 V3 L3 l Ht3 Hs3 Hw3 _ Hf3. exists x3, V3, L3, l. rewrite Ead in Hf3. split_and!; try done. lia. }
  destruct (wp_elim _ _ _ Hwr) as (r & k3 & E3 & x3 & V3 & L3 & l & -> & -> & Ht3 & Hsrc & Hw3 & Hfr3). pose proof Hsrc as (Hll & _ & _).
  assert (ino x3 ip = Fs.set_id (i_d (ino x3 ip)) (ino x2 ip)) as Ei3 by (eapply set_id_eta, (wn_meta _ _ _ _ _ _ _ _ _ _ Hw3)).
  set (x4 := add_wake (inode_lock ip) (set_lock_of ip (Sleeplock false 0) x3)).
  assert (txn d (fs_home start nlog) (Z.to_nat Log.MAXOPBLOCKS) x4 p C V3 ∅ L3) as Ht4.
  { destruct Ht3 as [T1 T2]. split; [|done]. exact (inside_wake (BlockLaws := LAW) _ _ _ _ _ _ (inode_lock ip) T1). }
  destruct (end_txn d start nlog Hlog Hd Harea (disk (bc (fs_blk x))) W (fs_blk x4) p C V3 L3 HC (tx_in _ _ _ _ _ _ _ _ _ Ht4) (tx_clean _ _ _ _ _ _ _ _ _ Ht4))
    as (b5 & ws & E5 & Hq5 & Hws & Hdk5 & Hat).
  set (x5 := with_blk b5 x4). set (s5 := Sys x5 (wrote_off f n (sy_ft s)) (sy_ofile s) (sy_args s)).
  assert (written sb x V F ip i x5 V3 off l) as Hw5.
  { eapply (written_unlock x x2 x3 x5 V F ip i V3 off l p); [done|by exists b1|exact Hw3|by eexists]. }
  assert (agree sb (disk_view x5) V3) as HA5 by (apply home_agree; exact Hdk5).
  assert (written sb x (disk_view x) F ip i x5 (disk_view x5) off l) as Hw6.
  { eapply written_agree; [exact Hly|exact HwfV|apply (ic_addrs _ _ _ _ _ _ Hic)|apply (ic_is _ _ _ _ _ _ Hic)|by apply agree_sym|by apply agree_sym|exact Hw5]. }
  assert (idle x5 ip) as Hidle5.
  { assert (ino x5 ip = set_ilock (Sleeplock false 0) (ino x3 ip)) as E by apply (ino_upd ip). split; rewrite E; cbn [set_ilock i_ref i_lock i_valid]; [rewrite Ei3, Ei2; done|done|rewrite Ei3, Ei2; done]. }
  exists s5, l. split_and!; [|exact Hsrc|].
  - assert (0 <= n < 2 ^ 32) as Hn32 by (change write_max with 3072 in Hn; lia).
    apply wp_ok. unfold write_chunk. wstep. apply wp_onfs. apply wp_onblk. eapply wp_intro; [exact E1|]. cbn [held st]. wstep. wstep. cbn [sy_ft with_fs]. rewrite Hf.
    wstep. apply wp_onfs. apply wp_ilock_valid; [exact Hr|change (locked (i_lock (ino x ip)) = false); by rewrite Hl|exact Hv|]. cbn [held st]. wstep. wstep. cbn [sy_ft with_fs]. fold off.
    rewrite (u32_small n) by lia. wstep. apply wp_onfs.
    match goal with |- wp _ ?K _ => change K with (KSt [] (set_lock_of ip (Sleeplock true (mypid b1)) x1)) end. rewrite Hp.
    eapply wp_intro; [exact E3|]. cbn [held st]. unfold upd_file.
    assert (wp (onfs (iunlock ip) ;; onfs Fs.end_op ;; mret n) (KSt [] (Sys x3 (wrote_off f n (sy_ft s)) (sy_ofile s) (sy_args s)))
      (fun a k => a = n /\ k = KSt [] s5)) as Hend.
    { wstep. apply wp_onfs. cbn [sy_fs]. apply wp_iunlock; [rewrite Ei3, Ei2; done|rewrite Ei3, Ei2; cbn [Fs.set_id set_ilock i_lock]; f_equal; symmetry|].
      { eapply (inside_pid (BlockLaws := LAW)). apply Ht3. }
      cbn [held st]. wstep. apply wp_onfs, wp_onblk. eapply wp_intro; [exact E5|]. wstep. done. }
    wstep. unfold wrote_off in Hend. destruct (0 <? n); wstep; exact Hend.
  - assert (Z.of_nat (length l) = n) as El by lia. split; cbv zeta.
    + exact Hw6.
    + split; [exact Hq5| |apply Hw6| |exact Hidle5].
      * rewrite <- Hsb. apply Hw6.
      * eapply written_incore; [exact Hly|exact Hic|..|exact Hw6]; lia.
    + by rewrite El.
    + done.
    + change (sy_fs s5) with x5. fold x. assert (i_addrs (ino x5 ip) = i_addrs (ino x3 ip)) as -> by (assert (ino x5 ip = set_ilock (Sleeplock false 0) (ino x3 ip)) as -> by apply (ino_upd ip); done).
      rewrite (agree_nfree _ sb Hly (disk_view x) V), (agree_nfree _ sb Hly (disk_view x5) V3) by done. exact Hfr3.
    + exists ws. split; [exact Hws|]. intros k q. destruct (Hat k q) as (s2 & R1 & R2 & R3). exists s2. split_and!; [done|done|].
      destruct R3 as [R3|R3]; [left|right]; intros b Hhb; rewrite R3 by done; [by rewrite <- HC|by rewrite <- Hdk5].
Qed.

(** ** The whole of filewrite *)

Lemma written_app (x x1 x2 : fs) V V1 V2 F ip i off l1 l2 : F !! i = Some (i_addrs (ino x ip)) ->
  written sb x V F ip i x1 V1 off l1 -> written sb x1 V1 (<[i := i_addrs (ino x1 ip)]> F) ip i x2 V2 (off + Z.of_nat (length l1)) l2 ->
  written sb x V F ip i x2 V2 off (l1 ++ l2).
Proof.
  intros Hi [W1 W2 W3 W4 W5 W6 W7 W8 W9 W10 W11] [X1 X2 X3 X4 X5 X6 X7 X8 X9 X10 X11]. cbv zeta in *. set (a1 := i_addrs (ino x1 ip)) in *.
  assert (forall j c, F !! j = Some c -> j <> i -> <[i := a1]> F !! j = Some c) as HF by (intros; by rewrite lookup_insert_ne).
  rewrite insert_insert_eq in X1. split; cbv zeta.
  - done.
  - rewrite X2, W2, length_app. lia.
  - rewrite X3 at 1. rewrite W3. done.
  - done.
  - intros o Ho. rewrite X5, W5, length_app, Nat2Z.inj_add by done. destruct (decide (off <= o < off + Z.of_nat (length l1))).
    + rewrite bool_decide_eq_false_2 by lia. rewrite !bool_decide_eq_true_2 by lia. by rewrite lookup_app_l by lia.
    + destruct (decide (off + Z.of_nat (length l1) <= o < off + Z.of_nat (length l1) + Z.of_nat (length l2))).
      * rewrite !bool_decide_eq_true_2 by lia. rewrite lookup_app_r by lia. do 2 f_equal. lia.
      * by rewrite !bool_decide_eq_false_2 by lia.
  - auto.
  - intros j Hj Hne. by rewrite X7, W7.
  - intros j c o Hj Hne Ho. rewrite (X8 j c o), (W8 j c o) by auto. done.
  - intros j c k Hj Hne Hk. rewrite (X9 j c k), (W9 j c k) by auto. done.
  - intros jp Hj. by rewrite X10, W10.
  - destruct W11 as (? & ? & ?), X11 as (? & ? & ?). split_and!; congruence.
Qed.
Lemma written_nil (x : fs) F ip i off : at_rest x F ip i -> off <= i_size (ino x ip) -> dinode_of sb (disk_view x) i = i_d (ino x ip) ->
  written sb x (disk_view x) F ip i x (disk_view x) off [].
Proof.
  intros [_ _ Hwf [_ _ _ _ Hi _] _] Ho Hdk. split; cbv zeta; try done.
  - by rewrite insert_id.
  - cbn. lia.
  - by destruct (ino x ip) as [? ? ? ? ? []].
  - intros o _. rewrite bool_decide_eq_false_2; [done|cbn; lia].
Qed.

(** The offset of the file behind [f] after a chunk. *)
Lemma wrote_off_get f r t : 0 <= r -> 0 <= f_off (fget t f) -> f_off (fget t f) + r < 2 ^ 32 ->
  f_off (fget (wrote_off f r t) f) = f_off (fget t f) + r /\ f_ip (fget (wrote_off f r t) f) = f_ip (fget t f).
Proof.
  intros Hr Ho Hm. unfold wrote_off. destruct (Z.ltb_spec 0 r) as [Hlt|Hge].
  - assert (forall v, fget (<[f := v]> t) f = v) as E by (intros v; unfold fget; by rewrite lookup_insert_eq).
    rewrite !E. cbn [set_off f_off f_ip]. by rewrite u32_small by lia.
  - replace r with 0 by lia. rewrite Z.add_0_r. done.
Qed.

Lemma filewrite_loop_spec f ip i addr n fuel : forall s F k (x := sy_fs s) (off := f_off (fget (sy_ft s) f)),
  at_rest x F ip i -> dinode_of sb (disk_view x) i = i_d (ino x ip) -> f_ip (fget (sy_ft s) f) = ip ->
  0 <= off <= i_size (ino x ip) -> 0 <= k <= n -> off + (n - k) <= MAXFILE * BSIZE ->
  0 <= addr -> addr + n < 2 ^ 64 -> mapped_range (fs_mem x) true (addr + k) (n - k) ->
  n - k <= Z.of_nat fuel * write_max -> (4 * fuel + need (i_addrs (ino x ip)) <= nfree sb (disk_view x))%nat ->
  exists s' l, filewrite_loop fuel f addr n k (KSt [] s) = Ok n (KSt [] s') /\ source (fs_mem x) true (addr + k) (n - k) l /\
    written sb x (disk_view x) F ip i (sy_fs s') (disk_view (sy_fs s')) off l /\
    at_rest (sy_fs s') (<[i := i_addrs (ino (sy_fs s') ip)]> F) ip i /\ f_off (fget (sy_ft s') f) = off + (n - k).
Proof using Hlog Hd Harea Hly.
  assert (MAXFILE * BSIZE < 2 ^ 32) as Hmf by done. change write_max with 3072.
  induction fuel as [|fuel IH]; intros s F k x off Hrest Hdk Hf Hoff Hk Hmax Ha Ha2 Hmap Hfuel Hfree.
  all: assert (n = k -> exists s' l, Ok k (KSt [] s) = Ok n (KSt [] s') /\ source (fs_mem x) true (addr + k) (n - k) l /\
    written sb x (disk_view x) F ip i (sy_fs s') (disk_view (sy_fs s')) off l /\
    at_rest (sy_fs s') (<[i := i_addrs (ino (sy_fs s') ip)]> F) ip i /\ f_off (fget (sy_ft s') f) = off + (n - k)) as Hdone by
    (intros ->; exists s, []; rewrite Z.sub_diag; fold x; split_and!; [done|split_and!; [done|constructor|intros; lia]|by apply written_nil; [|lia|]
     |by rewrite insert_id by (apply (ic_addrs _ _ _ _ _ _ (ar_ino _ _ _ _ Hrest)))|fold off; lia]).
  { assert (n = k) as E by lia. cbn [filewrite_loop]. destruct (Z.ltb_spec k n); [lia|]. by apply Hdone. }
  cbn [filewrite_loop]. destruct (Z.ltb_spec k n) as [Hlt|Hge]; [|apply Hdone; lia]. clear Hdone.
  change write_max with 3072. set (n1 := if 3072 <? n - k then 3072 else n - k).
  assert (0 < n1 <= 3072 /\ n1 <= n - k /\ (n1 = n - k \/ n1 = 3072)) as (Hn1 & Hn1' & Hn1'') by (unfold n1; destruct (Z.ltb_spec 3072 (n - k)); lia).
  clearbody n1. rewrite (u64_small (addr + k)) by lia.
  pose proof (nblk_max off n1 ltac:(change write_max with 3072; lia)) as Hnb.
  destruct (write_chunk_spec s F f ip i (addr + k) n1 Hrest Hf Hoff ltac:(change write_max with 3072; lia) ltac:(lia) ltac:(lia) ltac:(lia)) as (s1 & l1 & E1 & Hs1 & Hc1).
  { intros j Hj. apply Hmap. lia. }
  { fold x off. lia. }
  destruct Hc1 as [C1 C2 C3 C4 C5 C6]. cbv zeta in *. fold x off in C1, C5. pose proof Hs1 as (Hl1 & _ & _).
  assert (Z.of_nat (length l1) = n1) as El1 by lia. rewrite El1 in C3.
  destruct (wrote_off_get f n1 (sy_ft s) ltac:(lia) ltac:(fold off; lia) ltac:(fold off; lia)) as [Eo1 Ei1]. fold off in Eo1. rewrite <- C3 in Eo1, Ei1.
  pose proof (wn_size _ _ _ _ _ _ _ _ _ _ C1) as Esz. cbv zeta in Esz. pose proof (wn_same _ _ _ _ _ _ _ _ _ _ C1) as (Emem & _ & _).
  destruct (IH s1 (<[i := i_addrs (ino (sy_fs s1) ip)]> F) (k + n1)) as (s2 & l2 & E2 & Hs2 & Hw2 & Hr2 & Ho2).
  - exact C2.
  - apply (wn_disk _ _ _ _ _ _ _ _ _ _ C1).
  - by rewrite Ei1.
  - rewrite Eo1. lia.
  - lia.
  - rewrite Eo1. lia.
  - done.
  - done.
  - rewrite Emem. intros j Hj. apply Hmap. lia.
  - lia.
  - lia.
  - exists s2, (l1 ++ l2). split_and!.
    + unfold mbind, M_bind. rewrite E1. rewrite Z.eqb_refl. cbn [negb]. exact E2.
    + replace (n - k) with (n1 + (n - (k + n1))) by lia. apply source_app; [lia|lia|exact Hs1|]. rewrite Emem in Hs2. fold x in Hs2. by rewrite Z.add_assoc in Hs2.
    + eapply written_app; [apply (ic_addrs _ _ _ _ _ _ (ar_ino _ _ _ _ Hrest))|exact C1|]. rewrite Eo1 in Hw2. by rewrite El1.
    + by rewrite insert_insert_eq in Hr2.
    + rewrite Ho2, Eo1. lia.
Qed.
End Chunk.

Lemma filewrite_loop_end {U} `{!CopyOps U} fuel f addr n (k : kst (@sys fsst U)) : filewrite_loop (U := U) fuel f addr n n k = Ok n k.
Proof. destruct fuel; cbn [filewrite_loop]; by rewrite Z.ltb_irrefl. Qed.

(** The conditions of a write of [n] bytes at the offset of file [f], an open inode. *)
Record can_write {U} `{!CopyOps U, !CopyLaws U} (d start nlog : Z) (sb : superblock) (s : @sys fsst U) (F : gmap Z (list Z)) (f ip i addr n : Z)
    (x := sy_fs s) (off := f_off (fget (sy_ft s) f)) : Prop := {
  cw_log : Log.MAXOPBLOCKS + 1 < nlog /\ 0 < d < 2 ^ 32 /\ 0 <= start /\ start + nlog <= 2 ^ 31;
  cw_layout : layout (fs_home start nlog) sb;
  cw_rest : at_rest d start nlog sb x F ip i;
  cw_disk : dinode_of sb (disk_view x) i = i_d (ino x ip);
  cw_file : f_type (fget (sy_ft s) f) = FD_INODE /\ f_writable (fget (sy_ft s) f) = true /\ f_ip (fget (sy_ft s) f) = ip;
  cw_off : 0 <= off <= i_size (ino x ip) /\ 0 <= n /\ off + n <= MAXFILE * BSIZE;
  cw_user : 0 <= addr /\ addr + n < 2 ^ 64 /\ mapped_range (fs_mem x) true addr n;
}.

(** C9: filewrite on an open inode stores exactly the user's bytes at the file's offset:
    it returns [n], the file then has these bytes from the old offset on and all other bytes
    as before, its size and the inode on disk are updated, the offset has advanced by [n], no
    other file, inode or directory changes, and the free map and the block lists stay
    consistent.  The write is split into transactions of at most 3 blocks of data. *)
Theorem filewrite_correct {U} `{!CopyOps U, !CopyLaws U} pipewrite devsw_write sockwrite d start nlog sb s F f ip i addr n
    (H : can_write d start nlog sb s F f ip i addr n)
    (Hfree : (4 * Z.to_nat (n / write_max + 1) + need (i_addrs (ino (sy_fs s) ip)) <= nfree sb (disk_view (sy_fs s)))%nat) :
  exists s' l, filewrite (U := U) pipewrite devsw_write sockwrite f addr n (KSt [] s) = Ok n (KSt [] s') /\
    source (fs_mem (sy_fs s)) true addr n l /\
    written sb (sy_fs s) (disk_view (sy_fs s)) F ip i (sy_fs s') (disk_view (sy_fs s')) (f_off (fget (sy_ft s) f)) l /\
    at_rest d start nlog sb (sy_fs s') (<[i := i_addrs (ino (sy_fs s') ip)]> F) ip i /\
    f_off (fget (sy_ft s') f) = f_off (fget (sy_ft s) f) + n.
Proof.
  destruct H as [(Hlog & Hd & Harea) Hly Hrest Hdk (Hty & Hwr & Hip) (Hoff & Hn & Hmax) (Ha & Ha2 & Hmap)]. cbv zeta in *.
  destruct (filewrite_loop_spec d start nlog Hlog Hd Harea sb Hly f ip i addr n (Z.to_nat (n / write_max + 1)) s F 0) as (s' & l & E & Hs & Hw & Hr & Ho);
    rewrite ?Z.sub_0_r, ?Z.add_0_r in *; try done; try lia.
  { change write_max with 3072. rewrite Z2Nat.id by dlia. dlia. }
  exists s', l. split_and!; try done. apply wp_ok. unfold filewrite. wstep. wstep. rewrite Hwr, Hty. cbn [negb]. wstep.
  eapply wp_intro; [exact E|]. wstep. by rewrite Z.eqb_refl.
Qed.

(** C4: a write of up to 3072 bytes is atomic with respect to a crash: if power fails after
    any number [k] of the disk writes that filewrite makes, the next boot recovers a file
    system whose inodes, free map and data blocks are all those from before the call, or all
    those the call leaves. *)
Theorem filewrite_crash_safe {U} `{!CopyOps U, !CopyLaws U} pipewrite devsw_write sockwrite d start nlog sb s F f ip i addr n k q
    (H : can_write d start nlog sb s F f ip i addr n) (Hn : 0 < n <= write_max)
    (Hfree : (5 <= nfree sb (disk_view (sy_fs s)))%nat) :
  exists s' ws s2, filewrite (U := U) pipewrite devsw_write sockwrite f addr n (KSt [] s) = Ok n (KSt [] s') /\
    writes (bc (fs_blk (sy_fs s'))) = writes (bc (fs_blk (sy_fs s))) ++ ws /\
    reboot d start nlog (KSt [] (power_on (disk_after (disk (bc (fs_blk (sy_fs s)))) (take k ws)) q)) = Ok tt (KSt [] s2) /\
    (agree sb (dk (bc s2)) (disk_view (sy_fs s)) \/ agree sb (dk (bc s2)) (disk_view (sy_fs s'))).
Proof.
  destruct H as [(Hlog & Hd & Harea) Hly Hrest Hdk (Hty & Hwr & Hip) (Hoff & _ & Hmax) (Ha & Ha2 & Hmap)]. cbv zeta in *.
  pose proof (nblk_max (f_off (fget (sy_ft s) f)) n ltac:(lia)) as Hnb.
  assert (need (i_addrs (ino (sy_fs s) ip)) <= 1)%nat as Hneed by (unfold need; case_match; lia).
  destruct (write_chunk_spec d start nlog Hlog Hd Harea sb Hly s F f ip i addr n Hrest Hip Hoff ltac:(lia) Hmax Ha Ha2 Hmap ltac:(lia)) as (s' & l & E & _ & C).
  destruct (cd_atomic _ _ _ _ _ _ _ _ _ _ _ C) as (ws & Hws & Hat). destruct (Hat k q) as (s2 & R1 & R2 & R3).
  exists s', ws, s2. split_and!; [|done|done|].
  - apply wp_ok. unfold filewrite. wstep. wstep. rewrite Hwr, Hty. cbn [negb]. change write_max with 3072 in *. wstep.
    destruct (Z.to_nat (n / 3072 + 1)) as [|fuel] eqn:Ef; [exfalso; dlia|]. cbn [filewrite_loop]. destruct (Z.ltb_spec 0 n); [|lia].
    change write_max with 3072. rewrite Z.sub_0_r, Z.add_0_r. assert ((if 3072 <? n then 3072 else n) = n) as -> by (destruct (Z.ltb_spec 3072 n); lia).
    rewrite u64_small by lia. cbv zeta. wstep. eapply wp_intro; [exact E|]. rewrite Z.eqb_refl. cbn [negb]. rewrite Z.add_0_l.
    eapply wp_intro; [apply filewrite_loop_end|]. wstep. rewrite Z.eqb_refl. split; reflexivity.
  - destruct R3 as [R3|R3]; [left|right]; apply (home_agree start nlog sb Hly); exact R3.
Qed.
