(* ===== verification/FileEx.v ===== *)
(** * A small disk on which the theorems of FileThms.v are applied

    A file system of 200 blocks with a log of 30 blocks at block 2, the inodes in block 32,
    the free map in block 33, and one empty file, inode 1, open for writing. *)
From S2P Require Import Prelude Mem Sleeplock Riscv Bio BioSpec Log LogSpec LogThms LogTxn Ftable Fs FsSpec FsAlloc FsWf FsBmap FsFile FsInode FsRw FsWrite FsAgree UserMem FsLog Sysfile FileThms.

Definition ex_sb : superblock := Superblock FSMAGIC 200 166 15 30 2 32 33.
Definition ex_file : dinode := Dinode T_FILE 0 0 1 0 (replicate 13 0).
Definition ex_disk : gmap Z block :=
  {[ 32 := st_dinode ∅ 64 ex_file; 33 := store_bytes ∅ 0 [255; 255; 255; 255; 3] ]}.
Definition ex_blk : fsst := st (after (reboot 1 2 30) (KSt [] (power_on ex_disk 1))).
Definition ex_fs : @fs fsst umem :=
  MkFs ex_blk (Umem ∅ (store_bytes ∅ 0 (seqZ 1 200)) {[0; 1; 2]}) ex_sb {[0 := Inode 1 1 1 (Sleeplock false 0) true ex_file]} 0.
Definition ex_sys : @sys fsst umem := Sys ex_fs {[5 := File FD_INODE 1 true true 0 0 0 0 0]} {[3 := 5]} (fun _ => 0).

Lemma ex_quiescent : quiescent 1 2 30 ex_blk.
Proof.
  assert (recoverable 2 30 (disk_of ex_disk)) as Hr.
  { split; [vm_compute; discriminate|]. assert (hdr (disk_of ex_disk 2) = []) as -> by (vm_compute; reflexivity).
    split; [apply NoDup_nil_2|by apply Forall_nil|cbn; unfold LOGSIZE, Log.MAXOPBLOCKS; lia|unfold LOGSIZE, Log.MAXOPBLOCKS; lia]. }
  destruct (wp_after _ _ _ (reboot_quiescent 1 2 30 ex_disk 1 ltac:(lia) Hr)) as (a & _ & _ & Hq). exact Hq.
Qed.
Lemma ex_layout : layout (fs_home 2 30) ex_sb.
Proof.
  split; cbn; try (unfold BPB, BSIZE, IPB; lia); try done.
  intros b Hb. split; [unfold home; lia|lia].
Qed.
Lemma ex_empty V a k : a = replicate 13 0 -> slot_block V a k = 0.
Proof.
  intros ->. unfold slot_block, dir_addr. assert (forall j, default 0 (replicate 13 0 !! j) = 0) as E.
  { intros j. destruct (replicate 13 0 !! j) eqn:Ej; [|done]. by apply lookup_replicate in Ej as [-> _]. }
  rewrite !E. by destruct (k <=? NDIRECT).
Qed.
Lemma ex_wf : wf ex_sb (disk_view ex_fs) {[1 := replicate 13 0]}.
Proof.
  split.
  - assert (forallb (fun b => bitv (dk (bc ex_blk) 33) b) (seqZ 0 34) = true) as Hb by (vm_compute; reflexivity).
    intros b Hr. rewrite forallb_forall in Hb. apply Hb. apply list_elem_of_In, elem_of_seqZ. unfold datastart in Hr. cbn in Hr. lia.
  - intros i a [<- <-]%lookup_singleton_Some. done.
  - intros i a k [<- <-]%lookup_singleton_Some _ Hk. by rewrite ex_empty in Hk.
  - intros i a k i' a' k' [<- <-]%lookup_singleton_Some _ _ _ Hk. by rewrite ex_empty in Hk.
Qed.
Lemma ex_can_write n : 0 <= n <= 12288 -> can_write 1 2 30 ex_sb ex_sys {[1 := replicate 13 0]} 5 0 1 0 n.
Proof.
  intros Hn. split; cbv zeta; try done.
  - apply ex_layout.
  - split; [apply ex_quiescent|done|apply ex_wf| |by split].
    split; try done. split; cbn; try lia; try done. by repeat constructor.
  - change (MAXFILE * Fs.BSIZE) with 274432. change (f_off (fget (sy_ft ex_sys) 5)) with 0. change (i_size (ino (sy_fs ex_sys) 0)) with 0. lia.
  - split_and!; [lia|lia|]. intros i Hi. cbn. unfold u_view, u_mapped. rewrite bool_decide_eq_true_2; [eauto|]. cbn [u_pages fs_mem].
    assert (i / PGSIZE = 0 \/ i / PGSIZE = 1 \/ i / PGSIZE = 2) by (unfold PGSIZE in *; dlia). set_solver.
Qed.

Lemma filewrite_correct_witness :
  exists s' l, filewrite (U := umem) (fun _ _ _ => mret 0) (fun _ => None) (fun _ _ _ => mret 0) 5 0 5000 (KSt [] ex_sys) = Ok 5000 (KSt [] s') /\
    source (fs_mem ex_fs) true 0 5000 l /\
    written ex_sb ex_fs (disk_view ex_fs) {[1 := replicate 13 0]} 0 1 (sy_fs s') (disk_view (sy_fs s')) 0 l /\
    at_rest 1 2 30 ex_sb (sy_fs s') (<[1 := i_addrs (ino (sy_fs s') 0)]> {[1 := replicate 13 0]}) 0 1 /\
    f_off (fget (sy_ft s') 5) = 0 + 5000.
Proof.
  apply (filewrite_correct (U := umem) (fun _ _ _ => mret 0) (fun _ => None) (fun _ _ _ => mret 0) 1 2 30 ex_sb ex_sys {[1 := replicate 13 0]} 5 0 1 0 5000).
  - apply ex_can_write. lia.
  - apply Nat.leb_le. vm_compute. reflexivity.
Defined.

Lemma filewrite_crash_safe_witness :
  exists s' ws s2, filewrite (U := umem) (fun _ _ _ => mret 0) (fun _ => None) (fun _ _ _ => mret 0) 5 0 100 (KSt [] ex_sys) = Ok 100 (KSt [] s') /\
    writes (bc (fs_blk (sy_fs s'))) = writes (bc (fs_blk (sy_fs ex_sys))) ++ ws /\
    reboot 1 2 30 (KSt [] (power_on (disk_after (disk (bc (fs_blk (sy_fs ex_sys)))) (take 4 ws)) 1)) = Ok tt (KSt [] s2) /\
    (agree ex_sb (dk (bc s2)) (disk_view (sy_fs ex_sys)) \/ agree ex_sb (dk (bc s2)) (disk_view (sy_fs s'))).
Proof.
  apply (filewrite_crash_safe (U := umem) (fun _ _ _ => mret 0) (fun _ => None) (fun _ _ _ => mret 0) 1 2 30 ex_sb ex_sys {[1 := replicate 13 0]} 5 0 1 0 100 4 1).
  - apply ex_can_write. lia.
  - change write_max with 3072. lia.
  - apply Nat.leb_le. vm_compute. reflexivity.
Defined.
